(* ===== verification/_CoqProject ===== *)
-Q . S2P
Prelude.v
Intrinsics.v
Gf128.v
Aes.v
AesGcm.v
Smram.v
RdRand.v
Aead.v
RingBuffer.v
Channel.v
SodiumUtils.v
Hw.v
Apic.v
Keyboard.v
Enclave.v
Md5.v
Clock.v
Smm.v
Ehci.v
Output.v
Ether.v
Chksum.v
Network.v
Transmit.v
Pbuf.v
PbufRef.v
PbufOps.v
PbufData.v
PbufHistory.v
PbufContent.v
Receive.v
Ip4.v
IpOutput.v
Udp.v
UdpInput.v
Delivery.v
UdpOutput.v
Icmp.v
Uio.v
