(* ===== verification/Prelude.v ===== *)
(** Aurora: a trusted I/O path between System Management Mode and SGX.

    Aurora lets an SGX enclave talk to devices without trusting the operating
    system.  A supervisor inside the SeaBIOS firmware runs in System Management Mode
    (SMM): it takes device interrupts over from the system, handles the data in
    SMRAM, and exchanges sealed packets with the enclave through a shared region of
    ordinary memory that a Linux driver provides.  The repository has one firmware
    tree per device (keyboard, network, USB, storage) and one enclave project per
    use (SSH with secure input, a TCP/IP stack, storage).

    * Parts, files and correspondence

    The supervisor, src/seabios-keyboard/src/fw/supervisor/ and its siblings:
    - [Intrinsics], [Gf128], [Aes], [AesGcm]: aead_aes256gcm_aesni.c.  A register is
      an integer below 2^128; each macro and function of the source is a definition
      of the same name.  [Gf128.Code] holds the multiplication of the source,
      [Gcm] and the modules of [Aes] the standards they are compared with.
    - [Smram]: boundary_check.c.
    - [RdRand]: rdrand.c and randombytes.c; the state is the sequence of results the
      processor will deliver.
    - [Aead]: what the ring buffers rely on, as classes [Aead]/[AeadLaws] and
      [RandomFill]/[RandomFillLaws], with AES-256-GCM and RDRAND as instances.
    - [RingBuffer]: ring_buffer.c (supervisor) and ring_buffer.cpp (enclave).  The
      state is flat memory; the specification [Mailbox] is a list of 64 slots.
    - [Channel]: any interleaving of the two sides, as a step relation.
    - [Hw], [Apic]: port, memory-mapped and MSR accesses as the class [Devices], the
      documented behaviour of the devices as [PlatformLaws], a concrete PC as an
      instance; apic.c and the helpers that every supervisor.c has.  The record
      [machine] is memory, random source, devices, control registers and statics.
    - [Keyboard], [Network], [Ehci]: supervisor.c of the keyboard, network, USB and
      storage variants, and pcnet32.c with its header.
    - [Clock]: rtc.c, clock.c, and hw/timer.c of the firmware.
    - [Md5]: md5.c, and the block that the storage enclave writes.

    The firmware around it, src/seabios-keyboard/src/:
    - [Smm]: fw/smm.c, hw/pci.c, hw/pcidevice.c: relocation, the SMI entry and the
      calls to 32-bit code.  The delivery of an SMI is the processor's; the chipset's
      SMI enables, its APM register, the SMRAM window and the A20 line are the record
      [chip], and an access to SMRAM outside SMM with the window closed is stuck.
    - [Output], [Ether]: output.c, and the addresses of smx.h.

    The enclaves:
    - [SodiumUtils]: utils.cpp.
    - [Enclave]: Enclave.cpp and randombytes.cpp of Aurora-openssh-sgx.  What happens
      outside between two steps of an enclave call, an SMI and the user's keys, is a
      program on the same machine.
    - [Chksum]: inet_chksum.cpp of the lwIP stack in Aurora-lwip-sgx.
    - [Transmit]: the output function of that stack's interface (ethernetif.cpp), its
      variant of put_out_buffer, both together with the network supervisor, and the
      function of pcnet32.c that sends, whose call is commented out there.
    - [Pbuf], [PbufData]: pbuf.cpp of that stack, with the parts of mem.cpp and
      memp.cpp that its configuration compiles.  The state [lwip] has the structures
      by address, all other memory, the C library's heap (a parameter with laws, class
      [OutsideLaws]) and the statistics; a read or write through a pointer to a
      structure that does not exist does not return.  Whether that heap has memory for a
      packet is a function of its state, [pool_supply] and [ram_supply] of [PbufRef].
    - [PbufRef], [PbufOps]: the invariant of that state for given references of the
      callers ([valid]), and that each operation keeps it.  [PbufHistory]: histories
      of calls; [allowed] is the contract in the comments of pbuf.cpp, as a function.
      [PbufContent]: the packet as one sequence of bytes.
    - [Receive]: the input side: the waiting function of the port (sys_arch.cpp),
      get_in_buffer and send_pkt, up to the call of the stack's input function.
    - [Ip4], [IpOutput]: ip4.cpp with the tests of ip4_addr.h and netif.h, and the input
      side of raw.cpp.  The state [net] puts interfaces, connections, the globals of the
      source and its counters around [lwip]; interfaces and connections are at
      addresses, and headers are read and written in memory.  What a packet is in for is a
      function of its bytes, [ip4_verdict]; what is sent is [ip4_header], written after
      RFC 791.
    - [Udp], [UdpInput], [UdpOutput]: udp.cpp, in three parts: the list of connections
      with its invariant [udp_ok] and histories of calls, input with the choice of a
      connection, and output.  [Delivery]: the way from the mailbox to a connection.
    - [Icmp]: icmp.cpp; what becomes of a message is [icmp_judge], what is answered is
      [reply_header] and [echo_reply], and what is sent about a packet [icmp_message].

    The driver, src/Aurora-uio/: [Uio], uio_aurora.c, with the kernel's answers as a
    parameter and the list of resources held as part of the state.

    This file has the shared ground: wrap-around of machine integers, little-endian
    numbers, flat memory with its load, store and frame lemmas, bit-level automation.

    Effects are explicit: a function that only computes is a function, one that
    writes memory returns the new memory, and a handler is a [prog] of [Hw], a state
    passed through that may not return ([None]): a misuse abort, a loop out of fuel,
    a fault.

    * What the theorems show

    - Cryptography: the AES-NI key schedule and rounds are FIPS-197, the carry-less
      multiplication and its aggregated form are the field of SP 800-38D, encryption
      is AES-256-GCM for every input, decryption accepts exactly its outputs.
    - Channel: each ring-buffer operation refines the mailbox; in every interleaving
      the messages in flight are those sent and not yet received; the receive loop
      ends and delivers all of them; whatever is in shared memory, a message that is
      returned was sealed with the key; random padding fills its buffer and
      nothing else.
    - Devices: a keyboard session delivers the typed text in one packet and gives the
      interrupt back; a receive ring delivers the packets for the enclave; the USB
      handler records and wipes keys and passes every interrupt on; the composition
      from the key to the caller's buffer in the enclave is one theorem; so is the one
      from the message of the supervisor to a chain of buffers of the stack.  On the way
      out, the chain becomes a message of the OUT mailbox and stays there, and the
      function that would send it gives the controller its frame.
    - Packet buffers: after every history of allowed calls the reference counts are
      the numbers of pointers, the lengths add up, the blocks are apart, the next call
      returns, and nothing is left when all references are given back; reading,
      writing, joining, cutting and copying packets are the operations on sequences of
      bytes, however these are distributed.
    - Network: [ip4_input] delivers exactly the packets with a sound header that are for
      this host, trimmed and without the header; [udp_input] gives a datagram to the
      connection it is for; the list of connections is sound after every history of
      calls, and [udp_bind] gives no address and port twice; output puts headers of
      RFC 768 and RFC 791 with checksums that verify in front of the data, or refuses;
      what one host sends another receives; a message of the supervisor with a datagram
      reaches the function of its connection, if there is memory for the packet; an echo
      request to this host alone is answered, and messages about packets quote their
      beginning, both exactly if there is room or memory for them.
    - Firmware and driver: SMBASE is relocated, the entry installed and the SMI enabled
      (on the ICH9 also locked), a call to 32-bit code returns to the state it came from; the driver publishes the region
      where the supervisor looks for it, and gives back what it took but for the enabled
      PCI device.
    - Libraries: MD5 is RFC 1321; the three checksum routines, buffer chains and
      pseudo headers are RFC 1071; libsodium's comparisons, arithmetic and padding;
      addresses survive printing and parsing; clock conversion and timers.
    - Limits of the code: nonce reuse, a forged packet that blocks a direction, an
      initialisation that trusts an address of the system, a buffer overrun, error
      paths of the driver, a pointer to a freed packet after 256 buffers, a copy that
      fails silently, a message that quotes memory behind a packet, and others, each as a
      theorem on the model.

    * Fuel and bounds

    Loops that are not structural have fuel that is always enough: the receive loops
    65 for 64 slots, each successful receive freeing one; decimal output 10 for a
    32-bit number; formatting, hashing and summing the length of their input; walks
    along packet buffers one more than the number of structures, copying between two
    packets twice that, filling a packet from the pool 124 for at most 65535 bytes; the
    search for a free port as many rounds as the range has ports.  Lists of connections
    are walked with a bound on their length, which the theorems name.  Loops
    that wait for a device (the command register, an update of the clock, the SMI
    status) take their fuel as an argument, and the theorems assume that the device
    is ready before it runs out.

    * Not modelled

    Caches, timing and concurrent accesses by other processors within an operation;
    address translation; the SGX SDK, Linux and QEMU; debug output; the parts of
    SeaBIOS that the trusted path does not use; code under #if 0.  Of lwIP, TCP,
    reassembly, fragmentation, timeouts and the sequential interfaces; what IP and
    UDP call of them, the functions that connections call back, the loop interface and
    the output function of an interface are parameters, and the theorems say with which
    arguments and in which state they are called.  The tests of checksums on input are
    not compiled in the configuration, and neither are IPv6, IP options and forwarding.
    In pbuf.cpp, pbuf_free_ooseq, which walks the connections of TCP, and
    pbuf_fill_chksum, which is not compiled.  Custom packet buffers are modelled, but the
    invariant is about those of the stack itself. *)

From Stdlib Require Import ZArith Lia Bool Btauto.
From stdpp Require Import base list.

(** * Scopes and automation *)

Declare Scope aurora_scope.
Delimit Scope aurora_scope with aurora.
#[global] Open Scope Z_scope.

Create HintDb aurora.
Create HintDb bytes.
Create Rewrite HintDb testbits.
Create Rewrite HintDb lens.

(** * Fixed-width integers

    A [w]-bit unsigned C integer is a [Z]; every operation that can leave the
    range is followed by the wrap-around of its type. *)

Definition wrap (w x : Z) : Z := x `mod` 2 ^ w.

Abbreviation u8 := (wrap 8).
Abbreviation u16 := (wrap 16).
Abbreviation u32 := (wrap 32).
Abbreviation u64 := (wrap 64).

(** Reading a [w]-bit pattern as a two's complement number. *)
Definition to_signed (w x : Z) : Z :=
  let y := wrap w x in if y <? 2 ^ (w - 1) then y else y - 2 ^ w.

Abbreviation s16 := (to_signed 16).
Abbreviation s32 := (to_signed 32).

Lemma wrap_range w x : 0 <= w -> 0 <= wrap w x < 2 ^ w.
Proof. intros Hw. apply Z.mod_pos_bound, Z.pow_pos_nonneg; lia. Qed.

Lemma wrap_small w x : 0 <= x < 2 ^ w -> wrap w x = x.
Proof. apply Z.mod_small. Qed.

Lemma to_signed_small w x : 1 <= w -> 0 <= x < 2 ^ (w - 1) -> to_signed w x = x.
Proof.
  intros Hw Hx. pose proof (Z.pow_le_mono_r 2 (w - 1) w). unfold to_signed.
  rewrite wrap_small by lia. by rewrite (proj2 (Z.ltb_lt _ _)) by lia.
Qed.

Lemma wrap_wrap w x : wrap w (wrap w x) = wrap w x.
Proof. unfold wrap. apply Zmod_mod. Qed.

Lemma testbit_wrap w x i :
  0 <= w -> Z.testbit (wrap w x) i = (i <? w) && Z.testbit x i.
Proof.
  intros Hw. unfold wrap. destruct (Z.lt_ge_cases i 0) as [Hi|Hi].
  { rewrite !Z.testbit_neg_r by lia. by rewrite andb_false_r. }
  destruct (Z.ltb_spec i w).
  - by rewrite Z.mod_pow2_bits_low by lia.
  - by rewrite Z.mod_pow2_bits_high by lia.
Qed.

(** * Bitwise reasoning on [Z] *)

Lemma testbit_high w x i : 0 <= x < 2 ^ w -> w <= i -> Z.testbit x i = false.
Proof.
  intros Hx Hi. destruct (Z.lt_ge_cases w 0) as [Hw|Hw].
  { rewrite Z.pow_neg_r in Hx by lia. lia. }
  rewrite <- (Z.mod_small x (2 ^ w)) by lia. by apply Z.mod_pow2_bits_high.
Qed.

Lemma bits_bound w x :
  0 <= w -> 0 <= x -> (forall i, w <= i -> Z.testbit x i = false) -> x < 2 ^ w.
Proof.
  intros Hw Hx Hb.
  assert (x = x `mod` 2 ^ w) as ->.
  { apply Z.bits_inj'. intros i Hi. destruct (Z.lt_ge_cases i w).
    - by rewrite Z.mod_pow2_bits_low by lia.
    - rewrite Z.mod_pow2_bits_high by lia. by apply Hb. }
  apply Z.mod_pos_bound, Z.pow_pos_nonneg; lia.
Qed.

Lemma land_pow2_test v k : 0 <= k -> negb (Z.land v (2 ^ k) =? 0) = Z.testbit v k.
Proof.
  intros Hk. destruct (Z.testbit v k) eqn:Et.
  - apply negb_true_iff, Z.eqb_neq. intros E. apply (f_equal (fun z => Z.testbit z k)) in E.
    rewrite Z.land_spec, Et, Z.pow2_bits_true, Z.bits_0 in E by lia. discriminate.
  - apply negb_false_iff, Z.eqb_eq, Z.bits_inj'. intros i Hi.
    rewrite Z.land_spec, Z.bits_0, Z.pow2_bits_eqb by lia.
    destruct (Z.eqb_spec k i) as [<-|]; [by rewrite Et|]. apply andb_false_r.
Qed.

Lemma lxor_range w x y :
  0 <= w -> 0 <= x < 2 ^ w -> 0 <= y < 2 ^ w -> 0 <= Z.lxor x y < 2 ^ w.
Proof.
  intros Hw Hx Hy. assert (0 <= Z.lxor x y) by (apply Z.lxor_nonneg; lia).
  split; [done|]. apply bits_bound; [done..|]. intros i Hi.
  by rewrite Z.lxor_spec, (testbit_high w x), (testbit_high w y) by lia.
Qed.

Lemma lor_shiftl_add a b n : 0 <= n -> 0 <= b < 2 ^ n -> Z.lor (Z.shiftl a n) b = a * 2 ^ n + b.
Proof.
  intros Hn Hb. rewrite <- Z.shiftl_mul_pow2 by done.
  assert (Z.land (Z.shiftl a n) b = 0) as Hl.
  { apply Z.bits_inj'. intros i Hi. rewrite Z.land_spec, Z.shiftl_spec, Z.bits_0 by done.
    destruct (Z.lt_ge_cases i n); [by rewrite Z.testbit_neg_r by lia|].
    rewrite (testbit_high n b) by lia. by rewrite andb_false_r. }
  by rewrite Z.add_nocarry_lxor, Z.lxor_lor.
Qed.

Lemma lor_range w x y :
  0 <= w -> 0 <= x < 2 ^ w -> 0 <= y < 2 ^ w -> 0 <= Z.lor x y < 2 ^ w.
Proof.
  intros Hw Hx Hy. assert (0 <= Z.lor x y) by (apply Z.lor_nonneg; lia).
  split; [done|]. apply bits_bound; [done..|]. intros i Hi.
  by rewrite Z.lor_spec, (testbit_high w x), (testbit_high w y) by lia.
Qed.

Lemma land_range w x y : 0 <= w -> 0 <= x < 2 ^ w -> 0 <= Z.land x y < 2 ^ w.
Proof.
  intros Hw Hx. assert (0 <= Z.land x y) by (apply Z.land_nonneg; lia).
  split; [done|]. apply bits_bound; [done..|]. intros i Hi.
  by rewrite Z.land_spec, (testbit_high w x) by lia.
Qed.

Lemma lxor_cancel_r x y : Z.lxor (Z.lxor x y) y = x.
Proof. by rewrite Z.lxor_assoc, Z.lxor_nilpotent, Z.lxor_0_r. Qed.

Lemma testbit_shiftr x n i :
  Z.testbit (Z.shiftr x n) i = (0 <=? i) && Z.testbit x (i + n).
Proof.
  destruct (Z.leb_spec 0 i); [by apply Z.shiftr_spec|by rewrite Z.testbit_neg_r].
Qed.

Lemma testbit_shiftl x n i :
  Z.testbit (Z.shiftl x n) i = (0 <=? i) && Z.testbit x (i - n).
Proof.
  destruct (Z.leb_spec 0 i); [by apply Z.shiftl_spec|by rewrite Z.testbit_neg_r].
Qed.

(** [bitblast] compares two integers bit by bit: it pushes [Z.testbit] through
    the bitwise operations, splits on the range tests that appear and finishes
    with [btauto]. *)
#[export] Hint Rewrite Z.lxor_spec Z.lor_spec Z.land_spec Z.testbit_0_l : testbits.
#[export] Hint Rewrite testbit_shiftl testbit_shiftr : testbits.
#[export] Hint Rewrite testbit_wrap using lia : testbits.
#[export] Hint Rewrite andb_true_l andb_true_r andb_false_l andb_false_r
  orb_true_l orb_true_r orb_false_l orb_false_r
  xorb_false_l xorb_false_r : testbits.

Ltac split_ltb :=
  match goal with
  | |- context [?a <? ?b] => destruct (Z.ltb_spec a b); try lia
  | |- context [?a <=? ?b] => destruct (Z.leb_spec a b); try lia
  end.

Ltac kill_neg_bits :=
  repeat match goal with
  | |- context [Z.testbit ?x ?j] => rewrite (Z.testbit_neg_r x j) by lia
  end.

Ltac bitblast_core :=
  autorewrite with testbits; repeat (split_ltb; autorewrite with testbits);
  kill_neg_bits; autorewrite with testbits;
  try solve [ reflexivity | btauto | f_equal; lia | repeat (f_equal; try lia) ].

Ltac bitblast := apply Z.bits_inj'; intros ?i ?Hi; bitblast_core.

(** * Bytes and byte strings *)

Definition is_byte (x : Z) : Prop := 0 <= x < 256.
Abbreviation bytes l := (Forall is_byte l).

#[export] Instance is_byte_dec x : Decision (is_byte x).
Proof. unfold is_byte. apply _. Defined.

Lemma is_byte_u8 x : is_byte (u8 x).
Proof. apply (wrap_range 8). lia. Qed.

Lemma u8_small x : is_byte x -> u8 x = x.
Proof. apply (wrap_small 8). Qed.

Lemma is_byte_lxor x y : is_byte x -> is_byte y -> is_byte (Z.lxor x y).
Proof. apply (lxor_range 8). lia. Qed.

Definition xor_bytes (a b : list Z) : list Z := zip_with Z.lxor a b.

Lemma length_xor_bytes a b : length (xor_bytes a b) = min (length a) (length b).
Proof. apply length_zip_with. Qed.

Lemma xor_bytes_involutive a b :
  (length a <= length b)%nat -> xor_bytes (xor_bytes a b) b = a.
Proof.
  revert b. induction a as [|x a IH]; intros [|y b] H; simpl in *; [done|done|lia|].
  f_equal; [apply lxor_cancel_r|]. apply IH. lia.
Qed.

Lemma bytes_xor a b : bytes a -> bytes b -> bytes (xor_bytes a b).
Proof.
  intros Ha. revert b. induction Ha; intros b Hb; destruct Hb; simpl; constructor;
    auto using is_byte_lxor.
Qed.

Lemma bytes_app a b : bytes a -> bytes b -> bytes (a ++ b).
Proof. intros. by apply Forall_app. Qed.

Lemma bytes_replicate n x : is_byte x -> bytes (replicate n x).
Proof. intros. by apply Forall_replicate. Qed.

Lemma bytes_take n l : bytes l -> bytes (take n l).
Proof. apply Forall_take. Qed.

Lemma bytes_drop n l : bytes l -> bytes (drop n l).
Proof. apply Forall_drop. Qed.

Lemma bytes_nth l i : bytes l -> is_byte (nth i l 0).
Proof.
  intros H. destruct (Nat.lt_ge_cases i (length l)).
  - rewrite Forall_forall in H. apply H. apply list_elem_of_In, nth_In. lia.
  - rewrite nth_overflow by lia. unfold is_byte. lia.
Qed.

#[export] Hint Resolve is_byte_u8 is_byte_lxor bytes_xor bytes_app bytes_replicate
  bytes_take bytes_drop bytes_nth Forall_nil_2 Forall_cons_2 : bytes.
#[export] Hint Extern 1 (is_byte _) => (unfold is_byte; lia) : bytes.

(** Split a [Forall] over an explicit list into its elements. *)
Ltac forall_list := repeat first [apply Forall_nil_2 | apply Forall_cons_2].

(** Little-endian encoding of an integer on [n] bytes and back. *)
Fixpoint le_bytes (n : nat) (x : Z) : list Z :=
  match n with
  | O => []
  | S n => Z.land x 0xff :: le_bytes n (Z.shiftr x 8)
  end.

Fixpoint le_val (l : list Z) : Z :=
  match l with
  | [] => 0
  | b :: l => Z.lor b (Z.shiftl (le_val l) 8)
  end.

Lemma land_ff x : Z.land x 0xff = u8 x.
Proof. unfold wrap. by rewrite <- Z.land_ones by lia. Qed.

Lemma length_le_bytes n x : length (le_bytes n x) = n.
Proof. revert x. induction n; simpl; auto. Qed.

Lemma bytes_le_bytes n x : bytes (le_bytes n x).
Proof.
  revert x. induction n; intros x; simpl; constructor; [|done].
  rewrite land_ff. auto with bytes.
Qed.

Lemma le_val_range l : bytes l -> 0 <= le_val l < 2 ^ (8 * Z.of_nat (length l)).
Proof.
  induction 1 as [|b l Hb _ IH]; [simpl; lia|].
  cbn [le_val length].
  replace (8 * Z.of_nat (S (length l))) with (8 + 8 * Z.of_nat (length l)) by lia.
  assert (0 < 2 ^ (8 * Z.of_nat (length l))) by (apply Z.pow_pos_nonneg; lia).
  apply lor_range; [lia| |].
  - unfold is_byte in Hb. rewrite Z.pow_add_r by lia. change (2 ^ 8) with 256. nia.
  - rewrite Z.shiftl_mul_pow2, Z.pow_add_r by lia. change (2 ^ 8) with 256. nia.
Qed.

Lemma le_val_le_bytes n x : le_val (le_bytes n x) = wrap (8 * Z.of_nat n) x.
Proof.
  revert x. induction n as [|n IH]; intros x.
  { change (8 * Z.of_nat 0) with 0. unfold wrap. by rewrite Z.mod_1_r. }
  cbn [le_bytes le_val]. rewrite IH, land_ff. bitblast.
Qed.

Lemma le_bytes_le_val l : bytes l -> le_bytes (length l) (le_val l) = l.
Proof.
  induction 1 as [|b l Hb Hl IH]; [done|]. cbn [length le_bytes le_val].
  f_equal.
  - rewrite land_ff. trans (u8 b); [bitblast|by apply u8_small].
  - trans (le_bytes (length l) (le_val l)); [f_equal|done]. rewrite <- (u8_small b Hb). bitblast.
Qed.

Lemma le_bytes_lxor n x y : le_bytes n (Z.lxor x y) = xor_bytes (le_bytes n x) (le_bytes n y).
Proof.
  revert x y. induction n as [|n IH]; intros x y; [done|]. cbn [le_bytes xor_bytes zip_with].
  rewrite Z.shiftr_lxor, IH, !land_ff. f_equal. bitblast.
Qed.

Lemma le_bytes_wrap n x : le_bytes n (wrap (8 * Z.of_nat n) x) = le_bytes n x.
Proof.
  rewrite <- le_val_le_bytes. rewrite <- (length_le_bytes n x) at 1.
  apply le_bytes_le_val, bytes_le_bytes.
Qed.

Lemma le_bytes_ext n x y :
  wrap (8 * Z.of_nat n) x = wrap (8 * Z.of_nat n) y -> le_bytes n x = le_bytes n y.
Proof. intros E. by rewrite <- (le_bytes_wrap n x), <- (le_bytes_wrap n y), E. Qed.

Lemma le_bytes_app n k x :
  le_bytes (n + k) x = le_bytes n x ++ le_bytes k (Z.shiftr x (8 * Z.of_nat n)).
Proof.
  revert x. induction n as [|n IH]; intros x; [by rewrite Z.shiftr_0_r|].
  cbn [le_bytes Nat.add app]. rewrite IH, Z.shiftr_shiftr by lia. do 4 f_equal. lia.
Qed.

Lemma le_val_app a b :
  le_val (a ++ b) = Z.lor (le_val a) (Z.shiftl (le_val b) (8 * Z.of_nat (length a))).
Proof.
  induction a as [|x a IH]; [by rewrite Z.shiftl_0_r|].
  cbn [app le_val length]. rewrite IH, Z.shiftl_lor, Z.shiftl_shiftl, Z.lor_assoc by lia.
  do 2 f_equal. lia.
Qed.

#[export] Hint Resolve bytes_le_bytes : bytes.
#[export] Hint Rewrite length_le_bytes length_xor_bytes @length_app @length_replicate
  @length_take @length_drop @length_reverse : lens.

(** * Flat physical memory

    Memory is a total map from addresses to byte values.  The firmware, the
    kernel module and the enclave see the same physical pages, so every
    component works on one [mem]; two memories are compared pointwise. *)

Definition mem : Type := Z -> Z.

Definition load (m : mem) (a : Z) (n : nat) : list Z :=
  (fun i => m (a + Z.of_nat i)) <$> seq 0 n.

Definition store (m : mem) (a : Z) (bs : list Z) : mem := fun x =>
  if (a <=? x) && (x <? a + Z.of_nat (length bs))
  then nth (Z.to_nat (x - a)) bs 0 else m x.

Definition load_le (m : mem) (a : Z) (n : nat) : Z := le_val (load m a n).
Definition store_le (m : mem) (a : Z) (n : nat) (x : Z) : mem := store m a (le_bytes n x).
Definition memset (m : mem) (a c : Z) (n : nat) : mem := store m a (replicate n (u8 c)).

Definition mem_eq (m m' : mem) : Prop := forall a, m a = m' a.
#[export] Instance mem_equiv : Equiv mem := mem_eq.
#[export] Instance mem_equivalence : Equivalence (≡@{mem}).
Proof.
  split; [by intros m a|by intros m m' H a; symmetry; apply H|].
  intros m1 m2 m3 H1 H2 a. etransitivity; [apply H1|apply H2].
Qed.

(** Region [a, a+n) does not meet region [b, b+k). *)
Definition disjoint (a n b k : Z) : Prop := a + n <= b \/ b + k <= a.

(** Memory [m'] agrees with [m] outside region [a, a+n). *)
Definition frame (a n : Z) (m m' : mem) : Prop :=
  forall x, x < a \/ a + n <= x -> m' x = m x.

Lemma length_load m a n : length (load m a n) = n.
Proof. unfold load. by rewrite length_fmap, length_seq. Qed.

Lemma lookup_load m a n i :
  (i < n)%nat -> load m a n !! i = Some (m (a + Z.of_nat i)).
Proof. intros H. unfold load. rewrite list_lookup_fmap, lookup_seq_lt by lia. done. Qed.

Lemma load_ext m m' a n :
  (forall x, a <= x < a + Z.of_nat n -> m x = m' x) -> load m a n = load m' a n.
Proof.
  intros H. apply list_fmap_ext. intros i j Hi. apply lookup_seq in Hi as [-> Hi].
  apply H. lia.
Qed.

#[export] Instance load_proper : Proper ((≡) ==> (=) ==> (=) ==> (=)) load.
Proof. intros m m' H a ? <- n ? <-. apply load_ext. auto. Qed.

Lemma load_app m a n k : load m a (n + k) = load m a n ++ load m (a + Z.of_nat n) k.
Proof.
  unfold load. rewrite seq_app, fmap_app. f_equal.
  replace (seq (0 + n) k) with (seq (n + 0) k) by (f_equal; lia).
  rewrite <- fmap_add_seq, <- list_fmap_compose.
  apply list_fmap_ext. intros i x _. cbn. f_equal. lia.
Qed.

Lemma load_one m a : load m a 1 = [m a].
Proof. unfold load. cbn. by rewrite Z.add_0_r. Qed.

Lemma store_in m a bs x :
  a <= x < a + Z.of_nat (length bs) -> store m a bs x = nth (Z.to_nat (x - a)) bs 0.
Proof.
  intros H. unfold store.
  by rewrite (proj2 (Z.leb_le _ _)), (proj2 (Z.ltb_lt _ _)) by lia.
Qed.

Lemma store_out m a bs x :
  x < a \/ a + Z.of_nat (length bs) <= x -> store m a bs x = m x.
Proof.
  intros H. unfold store.
  destruct (Z.leb_spec a x), (Z.ltb_spec x (a + Z.of_nat (length bs))); simpl; try done; lia.
Qed.

#[export] Instance store_proper : Proper ((≡) ==> (=) ==> (=) ==> (≡)) store.
Proof. intros m m' H a ? <- bs ? <- x. unfold store. by rewrite (H x). Qed.

Lemma load_store_eq m a bs n : n = length bs -> load (store m a bs) a n = bs.
Proof.
  intros ->. apply list_eq_same_length with (length bs); [done|apply length_load|].
  intros i x y Hi Hx Hy. rewrite lookup_load in Hx by lia. simplify_eq.
  rewrite store_in by lia.
  replace (Z.to_nat (a + Z.of_nat i - a)) with i by lia. by apply nth_lookup_Some.
Qed.

Lemma load_store_ne m a bs b n :
  disjoint a (Z.of_nat (length bs)) b (Z.of_nat n) -> load (store m a bs) b n = load m b n.
Proof. intros H. apply load_ext. intros x Hx. apply store_out. unfold disjoint in H. lia. Qed.

Lemma store_load_id m a n : store m a (load m a n) ≡ m.
Proof.
  intros x. unfold store. rewrite length_load.
  destruct (Z.leb_spec a x), (Z.ltb_spec x (a + Z.of_nat n)); simpl; try done.
  apply nth_lookup_Some. rewrite lookup_load by lia. do 2 f_equal. lia.
Qed.

Lemma store_app m a x y : store (store m a x) (a + Z.of_nat (length x)) y ≡ store m a (x ++ y).
Proof.
  intros z. unfold store. rewrite length_app, Nat2Z.inj_add.
  destruct (Z.leb_spec a z), (Z.leb_spec (a + Z.of_nat (length x)) z),
    (Z.ltb_spec z (a + Z.of_nat (length x))), (Z.ltb_spec z (a + Z.of_nat (length x) + Z.of_nat (length y))),
    (Z.ltb_spec z (a + (Z.of_nat (length x) + Z.of_nat (length y)))); cbn [andb]; try lia; try done.
  - rewrite app_nth2 by lia. f_equal. lia.
  - rewrite app_nth1 by lia. done.
Qed.

Lemma frame_refl a n m : frame a n m m.
Proof. by intros x _. Qed.

Lemma frame_store m a bs b n :
  b <= a -> a + Z.of_nat (length bs) <= b + n -> frame b n m (store m a bs).
Proof. intros H1 H2 x Hx. apply store_out. lia. Qed.

Lemma frame_trans a n m1 m2 m3 : frame a n m1 m2 -> frame a n m2 m3 -> frame a n m1 m3.
Proof. intros H1 H2 x Hx. by rewrite H2, H1. Qed.

Lemma frame_weaken a n b k m m' : b <= a -> a + n <= b + k -> frame a n m m' -> frame b k m m'.
Proof. intros H1 H2 H x Hx. apply H. lia. Qed.

Lemma frame_load a n m m' b k :
  frame a n m m' -> disjoint a n b (Z.of_nat k) -> load m' b k = load m b k.
Proof. intros H Hd. apply load_ext. intros x Hx. apply H. unfold disjoint in Hd. lia. Qed.

Lemma bytes_load m a n : (forall x, is_byte (m x)) -> bytes (load m a n).
Proof. intros H. apply Forall_fmap, Forall_true. intros. apply H. Qed.

Lemma is_byte_store m a bs :
  (forall x, is_byte (m x)) -> bytes bs -> forall x, is_byte (store m a bs x).
Proof. intros Hm Hb x. unfold store. case_match; auto with bytes. Qed.

#[export] Hint Rewrite length_load : lens.
#[export] Hint Resolve frame_refl bytes_load : aurora.

(** A finite range checked by evaluation. *)
Lemma check_range (n : nat) (p : Z -> bool) :
  forallb p (Z.of_nat <$> seq 0 n) = true -> forall x, 0 <= x < Z.of_nat n -> p x = true.
Proof.
  intros Hp x Hx. rewrite forallb_forall in Hp. apply Hp. apply list_elem_of_In.
  apply list_elem_of_fmap. exists (Z.to_nat x). split; [lia|]. apply elem_of_seq. lia.
Qed.

(** [memcpy(dst, src, n)] of regions that do not overlap. *)
Definition memcpy (m : mem) (dst src : Z) (n : nat) : mem := store m dst (load m src n).

Lemma memcpy_in m dst src n x :
  dst <= x < dst + Z.of_nat n -> memcpy m dst src n x = m (src + (x - dst)).
Proof.
  intros H. unfold memcpy. rewrite store_in by (rewrite length_load; lia).
  apply nth_lookup_Some. rewrite lookup_load by lia. do 2 f_equal. lia.
Qed.

Lemma memcpy_out m dst src n x : x < dst \/ dst + Z.of_nat n <= x -> memcpy m dst src n x = m x.
Proof. intros H. apply store_out. by rewrite length_load. Qed.

Lemma load_shift m m' a b n :
  (forall i, 0 <= i < Z.of_nat n -> m' (a + i) = m (b + i)) -> load m' a n = load m b n.
Proof.
  intros H. apply list_eq_same_length with n; [apply length_load..|].
  intros i x y Hi Hx Hy. rewrite lookup_load in Hx, Hy by lia. simplify_eq. apply H. lia.
Qed.

Lemma load_at m m' a b n i :
  load m' a n = load m b n -> 0 <= i < Z.of_nat n -> m' (a + i) = m (b + i).
Proof.
  intros H Hi. assert (load m' a n !! Z.to_nat i = load m b n !! Z.to_nat i) as E by (by rewrite H).
  rewrite !lookup_load in E by lia. simplify_eq. by rewrite Z2Nat.id in E by lia.
Qed.

Lemma load_le_store_same m a n v : 0 <= v < 2 ^ (8 * Z.of_nat n) -> load_le (store_le m a n v) a n = v.
Proof.
  intros Hv. unfold load_le, store_le. rewrite load_store_eq by (by rewrite length_le_bytes).
  by rewrite le_val_le_bytes, wrap_small.
Qed.

Lemma load_sub m a n l o k : load m a n = l -> (o + k <= n)%nat -> load m (a + Z.of_nat o) k = take k (drop o l).
Proof.
  intros <- H. replace n with (o + (k + (n - o - k)))%nat by lia.
  by rewrite !load_app, drop_app_length', take_app_length' by (by rewrite length_load).
Qed.

Lemma load_le_range m a n : (forall x, is_byte (m x)) -> 0 <= load_le m a n < 2 ^ (8 * Z.of_nat n).
Proof.
  intros Hm. pose proof (le_val_range (load m a n) ltac:(by apply bytes_load)) as H. by rewrite length_load in H.
Qed.

(** The low bytes of a number in memory. *)
Lemma load_le_low m a n k :
  (forall x, is_byte (m x)) -> wrap (8 * Z.of_nat n) (load_le m a (n + k)) = load_le m a n.
Proof.
  intros Hm. unfold load_le. rewrite load_app, le_val_app, length_load.
  pose proof (le_val_range (load m a n) ltac:(by apply bytes_load)) as Hr. rewrite length_load in Hr.
  apply Z.bits_inj'. intros i Hi. autorewrite with testbits.
  destruct (Z.ltb_spec i (8 * Z.of_nat n)).
  - rewrite (Z.testbit_neg_r _ (i - _)) by lia. by rewrite andb_false_r, orb_false_r.
  - rewrite (testbit_high (8 * Z.of_nat n) (le_val (load m a n))) by lia. by rewrite ?andb_false_r.
Qed.

(** Reads a byte through a chain of stores and copies. *)
Ltac mem_at :=
  repeat first
    [ rewrite memcpy_in by lia | rewrite memcpy_out by lia
    | rewrite store_out by (autorewrite with lens; lia) ].
