(* ===== verification/Intrinsics.v ===== *)
(** The SSE2, SSSE3, AES-NI and PCLMULQDQ intrinsics that the AES-GCM code uses
    (<tmmintrin.h> and <wmmintrin.h>), as functions on 128-bit integers.

    A [__m128i] is a [Z] below [2 ^ 128]; byte 0 and lane 0 are the least
    significant ones, as in the processor manual. *)

From Stdlib Require Import ZArith Lia.
From stdpp Require Import base list.
From S2P Require Import Prelude.

Abbreviation m128 := Z (only parsing).
Definition is_m128 (x : m128) : Prop := 0 <= x < 2 ^ 128.

(** ** Lanes *)

(** The [i]-th 32-bit lane, and a vector from its four lanes. *)
Definition lane32 (x : m128) (i : Z) : Z := wrap 32 (Z.shiftr x (32 * i)).
Definition of_lanes32 (a b c d : Z) : m128 :=
  Z.lor (wrap 32 a) (Z.lor (Z.shiftl (wrap 32 b) 32)
    (Z.lor (Z.shiftl (wrap 32 c) 64) (Z.shiftl (wrap 32 d) 96))).
Definition map_lanes32 (f : Z -> Z) (x : m128) : m128 :=
  of_lanes32 (f (lane32 x 0)) (f (lane32 x 1)) (f (lane32 x 2)) (f (lane32 x 3)).

(** The [i]-th 64-bit half. *)
Definition lane64 (x : m128) (i : Z) : Z := wrap 64 (Z.shiftr x (64 * i)).

(** ** Loads, logic and shifts *)

Definition mm_load (l : list Z) : m128 := le_val (take 16 l).
Definition mm_store (x : m128) : list Z := le_bytes 16 x.
Definition mm_setzero : m128 := 0.
Definition mm_xor (x y : m128) : m128 := Z.lxor x y.
Definition mm_or (x y : m128) : m128 := Z.lor x y.
Definition mm_slli_si128 (x : m128) (n : Z) : m128 := wrap 128 (Z.shiftl x (8 * n)).
Definition mm_srli_si128 (x : m128) (n : Z) : m128 := Z.shiftr x (8 * n).
Definition mm_slli_epi32 (x : m128) (n : Z) : m128 := map_lanes32 (fun v => Z.shiftl v n) x.
Definition mm_srli_epi32 (x : m128) (n : Z) : m128 := map_lanes32 (fun v => Z.shiftr v n) x.

(** ** Shuffles *)

(** The two-bit selector number [j] of an immediate. *)
Definition sel (imm j : Z) : Z := Z.land (Z.shiftr imm (2 * j)) 3.

Definition mm_shuffle_epi32 (x : m128) (imm : Z) : m128 :=
  of_lanes32 (lane32 x (sel imm 0)) (lane32 x (sel imm 1))
    (lane32 x (sel imm 2)) (lane32 x (sel imm 3)).

Definition mm_shuffle_ps (x y : m128) (imm : Z) : m128 :=
  of_lanes32 (lane32 x (sel imm 0)) (lane32 x (sel imm 1))
    (lane32 y (sel imm 2)) (lane32 y (sel imm 3)).

Definition mm_shuffle_epi8 (x : m128) (mask : list Z) : m128 :=
  le_val ((fun k => if Z.testbit k 7 then 0
                    else nth (Z.to_nat (Z.land k 15)) (le_bytes 16 x) 0) <$> mask).

(** [_mm_set_epi8] lists the bytes from the most significant one down. *)
Definition mm_set_epi8 (l : list Z) : list Z := reverse l.

(** ** Carry-less multiplication *)

Fixpoint clmul (n : nat) (a b : Z) : Z :=
  match n with
  | O => 0
  | S n => Z.lxor (clmul n a b)
             (if Z.testbit a (Z.of_nat n) then Z.shiftl b (Z.of_nat n) else 0)
  end.

Definition mm_clmulepi64_si128 (x y : m128) (imm : Z) : m128 :=
  clmul 64 (lane64 x (Z.land imm 1)) (lane64 y (Z.land (Z.shiftr imm 4) 1)).

(** ** The AES round *)

Definition sbox_table : list Z :=
 [0x63;0x7c;0x77;0x7b;0xf2;0x6b;0x6f;0xc5;0x30;0x01;0x67;0x2b;0xfe;0xd7;0xab;0x76;
  0xca;0x82;0xc9;0x7d;0xfa;0x59;0x47;0xf0;0xad;0xd4;0xa2;0xaf;0x9c;0xa4;0x72;0xc0;
  0xb7;0xfd;0x93;0x26;0x36;0x3f;0xf7;0xcc;0x34;0xa5;0xe5;0xf1;0x71;0xd8;0x31;0x15;
  0x04;0xc7;0x23;0xc3;0x18;0x96;0x05;0x9a;0x07;0x12;0x80;0xe2;0xeb;0x27;0xb2;0x75;
  0x09;0x83;0x2c;0x1a;0x1b;0x6e;0x5a;0xa0;0x52;0x3b;0xd6;0xb3;0x29;0xe3;0x2f;0x84;
  0x53;0xd1;0x00;0xed;0x20;0xfc;0xb1;0x5b;0x6a;0xcb;0xbe;0x39;0x4a;0x4c;0x58;0xcf;
  0xd0;0xef;0xaa;0xfb;0x43;0x4d;0x33;0x85;0x45;0xf9;0x02;0x7f;0x50;0x3c;0x9f;0xa8;
  0x51;0xa3;0x40;0x8f;0x92;0x9d;0x38;0xf5;0xbc;0xb6;0xda;0x21;0x10;0xff;0xf3;0xd2;
  0xcd;0x0c;0x13;0xec;0x5f;0x97;0x44;0x17;0xc4;0xa7;0x7e;0x3d;0x64;0x5d;0x19;0x73;
  0x60;0x81;0x4f;0xdc;0x22;0x2a;0x90;0x88;0x46;0xee;0xb8;0x14;0xde;0x5e;0x0b;0xdb;
  0xe0;0x32;0x3a;0x0a;0x49;0x06;0x24;0x5c;0xc2;0xd3;0xac;0x62;0x91;0x95;0xe4;0x79;
  0xe7;0xc8;0x37;0x6d;0x8d;0xd5;0x4e;0xa9;0x6c;0x56;0xf4;0xea;0x65;0x7a;0xae;0x08;
  0xba;0x78;0x25;0x2e;0x1c;0xa6;0xb4;0xc6;0xe8;0xdd;0x74;0x1f;0x4b;0xbd;0x8b;0x8a;
  0x70;0x3e;0xb5;0x66;0x48;0x03;0xf6;0x0e;0x61;0x35;0x57;0xb9;0x86;0xc1;0x1d;0x9e;
  0xe1;0xf8;0x98;0x11;0x69;0xd9;0x8e;0x94;0x9b;0x1e;0x87;0xe9;0xce;0x55;0x28;0xdf;
  0x8c;0xa1;0x89;0x0d;0xbf;0xe6;0x42;0x68;0x41;0x99;0x2d;0x0f;0xb0;0x54;0xbb;0x16].

Definition sbox (x : Z) : Z := nth (Z.to_nat x) sbox_table 0.

(** Multiplication by [x] in GF(2^8) modulo [x^8 + x^4 + x^3 + x + 1]. *)
Definition xtime (x : Z) : Z :=
  Z.lxor (Z.land (Z.shiftl x 1) 0xff) (if Z.testbit x 7 then 0x1b else 0).

(** The state is a list of 16 bytes in column order: byte [r + 4 c] is the
    entry of row [r] and column [c]. *)
Definition sub_bytes (s : list Z) : list Z := sbox <$> s.

Definition shift_rows (s : list Z) : list Z :=
  (fun i => nth (Nat.modulo i 4 + 4 * (Nat.modulo (Nat.div i 4 + Nat.modulo i 4) 4)) s 0) <$> seq 0 16.

Definition mix_column (a0 a1 a2 a3 : Z) : list Z :=
  let t a b c d := Z.lxor (xtime a) (Z.lxor (Z.lxor b (xtime b)) (Z.lxor c d)) in
  [t a0 a1 a2 a3; t a1 a2 a3 a0; t a2 a3 a0 a1; t a3 a0 a1 a2].

Definition mix_columns (s : list Z) : list Z :=
  let g i := nth i s 0 in
  mix_column (g 0%nat) (g 1%nat) (g 2%nat) (g 3%nat) ++
  mix_column (g 4%nat) (g 5%nat) (g 6%nat) (g 7%nat) ++
  mix_column (g 8%nat) (g 9%nat) (g 10%nat) (g 11%nat) ++
  mix_column (g 12%nat) (g 13%nat) (g 14%nat) (g 15%nat).

Definition mm_aesenc (x k : m128) : m128 :=
  Z.lxor (le_val (mix_columns (sub_bytes (shift_rows (le_bytes 16 x))))) k.

Definition mm_aesenclast (x k : m128) : m128 :=
  Z.lxor (le_val (sub_bytes (shift_rows (le_bytes 16 x)))) k.

Definition sub_word (w : Z) : Z := le_val (sub_bytes (le_bytes 4 w)).
Definition rot_word (w : Z) : Z := Z.lor (Z.shiftr w 8) (Z.shiftl (Z.land w 0xff) 24).

Definition mm_aeskeygenassist (x : m128) (rcon : Z) : m128 :=
  let s1 := sub_word (lane32 x 1) in
  let s3 := sub_word (lane32 x 3) in
  of_lanes32 s1 (Z.lxor (rot_word s1) rcon) s3 (Z.lxor (rot_word s3) rcon).

(** ** Range and lane lemmas *)

Lemma is_m128_xor x y : is_m128 x -> is_m128 y -> is_m128 (mm_xor x y).
Proof. apply (lxor_range 128). lia. Qed.

Lemma is_m128_load l : bytes l -> is_m128 (mm_load l).
Proof.
  intros H. unfold is_m128, mm_load. pose proof (le_val_range _ (bytes_take 16 l H)) as Hr.
  split; [lia|]. eapply Z.lt_le_trans; [apply Hr|]. apply Z.pow_le_mono_r; [lia|].
  rewrite length_take. lia.
Qed.

Lemma mm_store_load l : bytes l -> length l = 16%nat -> mm_store (mm_load l) = l.
Proof.
  intros Hb Hl. unfold mm_store, mm_load. rewrite take_ge by lia. rewrite <- Hl.
  by apply le_bytes_le_val.
Qed.

Lemma mm_load_store x : is_m128 x -> mm_load (mm_store x) = x.
Proof.
  intros Hx. unfold mm_load, mm_store.
  rewrite take_ge by (rewrite length_le_bytes; lia). rewrite le_val_le_bytes. by apply wrap_small.
Qed.

Lemma length_mm_store x : length (mm_store x) = 16%nat.
Proof. apply length_le_bytes. Qed.

Lemma bytes_mm_store x : bytes (mm_store x).
Proof. apply bytes_le_bytes. Qed.

Lemma testbit_of_lanes32 a b c d i :
  Z.testbit (of_lanes32 a b c d) i =
    if i <? 32 then Z.testbit a i
    else if i <? 64 then Z.testbit b (i - 32)
    else if i <? 96 then Z.testbit c (i - 64)
    else if i <? 128 then Z.testbit d (i - 96) else false.
Proof.
  destruct (Z.lt_ge_cases i 0). { rewrite !Z.testbit_neg_r by lia. repeat split_ltb; done. }
  unfold of_lanes32. bitblast_core.
Qed.

Lemma testbit_lane32 x k i :
  0 <= i -> Z.testbit (lane32 x k) i = (i <? 32) && Z.testbit x (i + 32 * k).
Proof. intros Hi. unfold lane32. autorewrite with testbits. by split_ltb; split_ltb. Qed.

Lemma is_m128_of_lanes32 a b c d : is_m128 (of_lanes32 a b c d).
Proof.
  unfold is_m128. assert (0 <= of_lanes32 a b c d).
  { unfold of_lanes32. rewrite !Z.lor_nonneg, !Z.shiftl_nonneg.
    repeat split; apply wrap_range; lia. }
  split; [done|]. apply bits_bound; [lia|done|]. intros i Hi.
  rewrite testbit_of_lanes32. by repeat split_ltb.
Qed.

#[export] Hint Resolve is_m128_xor is_m128_load is_m128_of_lanes32 : aurora.
#[export] Hint Resolve bytes_mm_store : bytes.
#[export] Hint Rewrite length_mm_store : lens.
