(* ===== verification/Gf128.v ===== *)
(** GF(2^128) multiplication of the AES-GCM code: [mulv], [addmul] and the
    aggregated [MULREDUCE4] of aead_aes256gcm_aesni.c, against the bit-serial
    multiplication of the GCM standard.

    The carry-less product and the reduction are linear over exclusive or, so an
    identity between them is proved on the powers of two and extended by
    linearity ([linear_ext]). *)

From Stdlib Require Import ZArith Lia Bool Btauto.
From stdpp Require Import base list.
From S2P Require Import Prelude Intrinsics.

(** * The code *)

Module Code.

(** The constant [rev] that reverses the bytes of a vector. *)
Definition rev : list Z := mm_set_epi8 [0;1;2;3;4;5;6;7;8;9;10;11;12;13;14;15].

(** Pure multiplication, used to compute the powers of H. *)
Definition mulv (A B : m128) : m128 :=
  let tmp3 := mm_clmulepi64_si128 A B 0x00 in
  let tmp4 := mm_clmulepi64_si128 A B 0x10 in
  let tmp5 := mm_clmulepi64_si128 A B 0x01 in
  let tmp6 := mm_clmulepi64_si128 A B 0x11 in
  let tmp10 := mm_xor tmp4 tmp5 in
  let tmp13 := mm_slli_si128 tmp10 8 in
  let tmp11 := mm_srli_si128 tmp10 8 in
  let tmp15 := mm_xor tmp3 tmp13 in
  let tmp17 := mm_xor tmp6 tmp11 in
  let tmp7 := mm_srli_epi32 tmp15 31 in
  let tmp8 := mm_srli_epi32 tmp17 31 in
  let tmp16 := mm_slli_epi32 tmp15 1 in
  let tmp18 := mm_slli_epi32 tmp17 1 in
  let tmp9 := mm_srli_si128 tmp7 12 in
  let tmp22 := mm_slli_si128 tmp8 4 in
  let tmp25 := mm_slli_si128 tmp7 4 in
  let tmp29 := mm_or tmp16 tmp25 in
  let tmp19 := mm_or tmp18 tmp22 in
  let tmp20 := mm_or tmp19 tmp9 in
  let tmp26 := mm_slli_epi32 tmp29 31 in
  let tmp23 := mm_slli_epi32 tmp29 30 in
  let tmp32 := mm_slli_epi32 tmp29 25 in
  let tmp27 := mm_xor tmp26 tmp23 in
  let tmp28 := mm_xor tmp27 tmp32 in
  let tmp24 := mm_srli_si128 tmp28 4 in
  let tmp33 := mm_slli_si128 tmp28 12 in
  let tmp30 := mm_xor tmp29 tmp33 in
  let tmp2 := mm_srli_epi32 tmp30 1 in
  let tmp12 := mm_srli_epi32 tmp30 2 in
  let tmp14 := mm_srli_epi32 tmp30 7 in
  let tmp34 := mm_xor tmp2 tmp12 in
  let tmp35 := mm_xor tmp34 tmp14 in
  let tmp36 := mm_xor tmp35 tmp24 in
  let tmp31 := mm_xor tmp30 tmp36 in
  mm_xor tmp20 tmp31.

(** Multiply-accumulate of one block of [xlen] bytes, zero padded to 16. *)
Definition addmul (c : m128) (a : list Z) (xlen : nat) (b : m128) : m128 :=
  let A :=
    if (16 <=? xlen)%nat then mm_load a
    else mm_load (take xlen a ++ replicate (16 - xlen) 0) in
  let A := mm_shuffle_epi8 A rev in
  let B := b in
  let C := c in
  let A := mm_xor A C in
  let tmp3 := mm_clmulepi64_si128 A B 0x00 in
  let tmp4 := mm_clmulepi64_si128 A B 0x10 in
  let tmp5 := mm_clmulepi64_si128 A B 0x01 in
  let tmp6 := mm_clmulepi64_si128 A B 0x11 in
  let tmp10 := mm_xor tmp4 tmp5 in
  let tmp13 := mm_slli_si128 tmp10 8 in
  let tmp11 := mm_srli_si128 tmp10 8 in
  let tmp15 := mm_xor tmp3 tmp13 in
  let tmp17 := mm_xor tmp6 tmp11 in
  let tmp7 := mm_srli_epi32 tmp15 31 in
  let tmp8 := mm_srli_epi32 tmp17 31 in
  let tmp16 := mm_slli_epi32 tmp15 1 in
  let tmp18 := mm_slli_epi32 tmp17 1 in
  let tmp9 := mm_srli_si128 tmp7 12 in
  let tmp22 := mm_slli_si128 tmp8 4 in
  let tmp25 := mm_slli_si128 tmp7 4 in
  let tmp29 := mm_or tmp16 tmp25 in
  let tmp19 := mm_or tmp18 tmp22 in
  let tmp20 := mm_or tmp19 tmp9 in
  let tmp26 := mm_slli_epi32 tmp29 31 in
  let tmp23 := mm_slli_epi32 tmp29 30 in
  let tmp32 := mm_slli_epi32 tmp29 25 in
  let tmp27 := mm_xor tmp26 tmp23 in
  let tmp28 := mm_xor tmp27 tmp32 in
  let tmp24 := mm_srli_si128 tmp28 4 in
  let tmp33 := mm_slli_si128 tmp28 12 in
  let tmp30 := mm_xor tmp29 tmp33 in
  let tmp2 := mm_srli_epi32 tmp30 1 in
  let tmp12 := mm_srli_epi32 tmp30 2 in
  let tmp14 := mm_srli_epi32 tmp30 7 in
  let tmp34 := mm_xor tmp2 tmp12 in
  let tmp35 := mm_xor tmp34 tmp14 in
  let tmp36 := mm_xor tmp35 tmp24 in
  let tmp31 := mm_xor tmp30 tmp36 in
  mm_xor tmp20 tmp31.

(** The macros of the aggregated reduction. *)
Definition RED_SHUFFLE (X : m128) : m128 := mm_shuffle_epi8 X rev.
Definition RED_MUL_LOW (H X : m128) : m128 := mm_clmulepi64_si128 H X 0x00.
Definition RED_MUL_HIGH (H X : m128) : m128 := mm_clmulepi64_si128 H X 0x11.
Definition RED_MUL_MID (H X : m128) : m128 :=
  let tmp := mm_shuffle_epi32 H 0x4e in
  let tmpB := mm_shuffle_epi32 X 0x4e in
  let tmp := mm_xor tmp H in
  let tmpB := mm_xor tmpB X in
  mm_clmulepi64_si128 tmp tmpB 0x00.

(** Four multiply-accumulates with one reduction. *)
Definition MULREDUCE4 (H0 H1 H2 H3 X0 X1 X2 X3 accv : m128) : m128 :=
  let X0 := RED_SHUFFLE X0 in
  let X1 := RED_SHUFFLE X1 in
  let X2 := RED_SHUFFLE X2 in
  let X3 := RED_SHUFFLE X3 in
  let X3 := mm_xor X3 accv in
  let lo := mm_xor (RED_MUL_LOW H0 X0) (RED_MUL_LOW H1 X1) in
  let lo := mm_xor lo (RED_MUL_LOW H2 X2) in
  let lo := mm_xor lo (RED_MUL_LOW H3 X3) in
  let hi := mm_xor (RED_MUL_HIGH H0 X0) (RED_MUL_HIGH H1 X1) in
  let hi := mm_xor hi (RED_MUL_HIGH H2 X2) in
  let hi := mm_xor hi (RED_MUL_HIGH H3 X3) in
  let tmp0 := RED_MUL_MID H0 X0 in
  let tmp1 := RED_MUL_MID H1 X1 in
  let tmp2 := RED_MUL_MID H2 X2 in
  let tmp3 := RED_MUL_MID H3 X3 in
  let tmp0 := mm_xor tmp0 lo in
  let tmp0 := mm_xor tmp0 hi in
  let tmp0 := mm_xor tmp1 tmp0 in
  let tmp0 := mm_xor tmp2 tmp0 in
  let tmp0 := mm_xor tmp3 tmp0 in
  let tmp0B := mm_slli_si128 tmp0 8 in
  let tmp0 := mm_srli_si128 tmp0 8 in
  let lo := mm_xor tmp0B lo in
  let hi := mm_xor tmp0 hi in
  let tmp3 := lo in
  let tmp2B := hi in
  let tmp3B := mm_srli_epi32 tmp3 31 in
  let tmp8 := mm_srli_epi32 tmp2B 31 in
  let tmp3 := mm_slli_epi32 tmp3 1 in
  let tmp2B := mm_slli_epi32 tmp2B 1 in
  let tmp9 := mm_srli_si128 tmp3B 12 in
  let tmp8 := mm_slli_si128 tmp8 4 in
  let tmp3B := mm_slli_si128 tmp3B 4 in
  let tmp3 := mm_or tmp3 tmp3B in
  let tmp2B := mm_or tmp2B tmp8 in
  let tmp2B := mm_or tmp2B tmp9 in
  let tmp3B := mm_slli_epi32 tmp3 31 in
  let tmp8 := mm_slli_epi32 tmp3 30 in
  let tmp9 := mm_slli_epi32 tmp3 25 in
  let tmp3B := mm_xor tmp3B tmp8 in
  let tmp3B := mm_xor tmp3B tmp9 in
  let tmp8 := mm_srli_si128 tmp3B 4 in
  let tmp3B := mm_slli_si128 tmp3B 12 in
  let tmp3 := mm_xor tmp3 tmp3B in
  let tmp2 := mm_srli_epi32 tmp3 1 in
  let tmp0B := mm_srli_epi32 tmp3 2 in
  let tmp1B := mm_srli_epi32 tmp3 7 in
  let tmp2 := mm_xor tmp2 tmp0B in
  let tmp2 := mm_xor tmp2 tmp1B in
  let tmp2 := mm_xor tmp2 tmp8 in
  let tmp3 := mm_xor tmp3 tmp2 in
  mm_xor tmp2B tmp3.

End Code.

(** * The standard's multiplication

    NIST SP 800-38D, algorithm 1.  A block is the big-endian integer of its 16
    bytes, so that bit 127 is the coefficient of [x^0]. *)

Module Spec.

Definition R : Z := Z.shiftl 0xe1 120.

(** Multiplication of a block by [x]. *)
Definition mulx (V : Z) : Z := Z.lxor (Z.shiftr V 1) (if Z.testbit V 0 then R else 0).

Fixpoint gmul_aux (n : nat) (X V : Z) : Z :=
  match n with
  | O => 0
  | S n => Z.lxor (if Z.testbit X (Z.of_nat n) then V else 0) (gmul_aux n X (mulx V))
  end.

Definition gmul (X Y : Z) : Z := gmul_aux 128 X Y.

(** One GHASH step: absorb a block and multiply by the hash key. *)
Definition ghash_step (H acc X : Z) : Z := gmul (Z.lxor X acc) H.

End Spec.

Import Code Spec.

(** * Linearity *)

(** [f] is linear over exclusive or on the [w]-bit integers. *)
Definition linear (w : Z) (f : Z -> Z) : Prop :=
  forall x y, 0 <= x < 2 ^ w -> 0 <= y < 2 ^ w -> f (Z.lxor x y) = Z.lxor (f x) (f y).

Lemma linear_0 w f : 0 <= w -> linear w f -> f 0 = 0.
Proof.
  intros Hw H. assert (0 < 2 ^ w) by (apply Z.pow_pos_nonneg; lia).
  specialize (H 0 0 ltac:(lia) ltac:(lia)). change (Z.lxor 0 0) with 0 in H.
  by rewrite Z.lxor_nilpotent in H.
Qed.

Lemma split_top_bit n x :
  0 <= n -> 0 <= x < 2 ^ (n + 1) ->
  x = Z.lxor (wrap n x) (if Z.testbit x n then 2 ^ n else 0).
Proof.
  intros Hn Hx. apply Z.bits_inj'. intros i Hi. rewrite Z.lxor_spec, testbit_wrap by lia.
  assert (Z.testbit (if Z.testbit x n then 2 ^ n else 0) i = (i =? n) && Z.testbit x n) as ->.
  { destruct (Z.testbit x n); rewrite ?Z.pow2_bits_eqb, ?Z.testbit_0_l by lia;
      rewrite ?andb_true_r, ?andb_false_r; auto using Z.eqb_sym. }
  destruct (Z.lt_trichotomy i n) as [H|[->|H]].
  - rewrite (proj2 (Z.ltb_lt _ _)), (proj2 (Z.eqb_neq _ _)) by lia. by rewrite xorb_false_r.
  - by rewrite Z.ltb_irrefl, Z.eqb_refl.
  - rewrite (testbit_high (n + 1)), (proj2 (Z.eqb_neq _ _)) by lia. by rewrite andb_false_r.
Qed.

(** Two linear functions that agree on the powers of two are equal. *)
Lemma linear_ext (w : nat) f g :
  linear (Z.of_nat w) f -> linear (Z.of_nat w) g ->
  (forall k, (k < w)%nat -> f (2 ^ Z.of_nat k) = g (2 ^ Z.of_nat k)) ->
  forall x, 0 <= x < 2 ^ Z.of_nat w -> f x = g x.
Proof.
  induction w as [|w IH]; intros Hf Hg Hk x Hx.
  { assert (x = 0) as -> by (simpl in Hx; lia).
    by rewrite (linear_0 0 f), (linear_0 0 g) by done. }
  assert (0 < 2 ^ Z.of_nat w) by (apply Z.pow_pos_nonneg; lia).
  assert (2 ^ Z.of_nat (S w) = 2 * 2 ^ Z.of_nat w) as E
    by (rewrite Nat2Z.inj_succ, Z.pow_succ_r by lia; lia).
  pose proof (wrap_range (Z.of_nat w) x ltac:(lia)).
  rewrite (split_top_bit (Z.of_nat w) x) by (try replace (Z.of_nat w + 1) with (Z.of_nat (S w)); lia).
  set (t := if Z.testbit x (Z.of_nat w) then _ else 0).
  assert (0 <= t < 2 ^ Z.of_nat (S w)) by (subst t; case_match; lia).
  rewrite Hf, Hg by lia. f_equal.
  - apply IH; [intros ????; apply Hf; lia|intros ????; apply Hg; lia|auto|lia].
  - subst t. case_match; [apply Hk; lia|].
    by rewrite (linear_0 (Z.of_nat (S w)) f), (linear_0 (Z.of_nat (S w)) g) by (done || lia).
Qed.

(** A boolean check of the agreement on the powers of two. *)
Lemma linear_ext_check (w : nat) f g :
  linear (Z.of_nat w) f -> linear (Z.of_nat w) g ->
  forallb (fun k => f (2 ^ Z.of_nat k) =? g (2 ^ Z.of_nat k)) (seq 0 w) = true ->
  forall x, 0 <= x < 2 ^ Z.of_nat w -> f x = g x.
Proof.
  intros Hf Hg Hc. apply linear_ext; [done..|]. intros k Hk.
  rewrite forallb_forall in Hc. apply Z.eqb_eq, Hc, in_seq. lia.
Qed.

(** The exclusive or is associative and commutative: cancel equal terms. *)
Ltac xor_solve :=
  apply Z.bits_inj'; intros ?i ?Hi; rewrite ?Z.lxor_spec, ?Z.testbit_0_l; btauto.

(** ** The intrinsics are linear *)

Lemma of_lanes32_lxor a b c d a' b' c' d' :
  of_lanes32 (Z.lxor a a') (Z.lxor b b') (Z.lxor c c') (Z.lxor d d') =
  Z.lxor (of_lanes32 a b c d) (of_lanes32 a' b' c' d').
Proof.
  apply Z.bits_inj'. intros i Hi. rewrite Z.lxor_spec, !testbit_of_lanes32, !Z.lxor_spec.
  repeat case_match; done.
Qed.

Lemma lane32_lxor x y k : lane32 (Z.lxor x y) k = Z.lxor (lane32 x k) (lane32 y k).
Proof. unfold lane32. bitblast. Qed.

Lemma lane64_lxor x y k : lane64 (Z.lxor x y) k = Z.lxor (lane64 x k) (lane64 y k).
Proof. unfold lane64. bitblast. Qed.

Lemma mm_slli_epi32_lxor x y n :
  mm_slli_epi32 (Z.lxor x y) n = Z.lxor (mm_slli_epi32 x n) (mm_slli_epi32 y n).
Proof.
  unfold mm_slli_epi32, map_lanes32. by rewrite !lane32_lxor, !Z.shiftl_lxor, of_lanes32_lxor.
Qed.

Lemma mm_srli_epi32_lxor x y n :
  mm_srli_epi32 (Z.lxor x y) n = Z.lxor (mm_srli_epi32 x n) (mm_srli_epi32 y n).
Proof.
  unfold mm_srli_epi32, map_lanes32. by rewrite !lane32_lxor, !Z.shiftr_lxor, of_lanes32_lxor.
Qed.

Lemma mm_slli_si128_lxor x y n :
  mm_slli_si128 (Z.lxor x y) n = Z.lxor (mm_slli_si128 x n) (mm_slli_si128 y n).
Proof. unfold mm_slli_si128. rewrite Z.shiftl_lxor. bitblast. Qed.

Lemma mm_srli_si128_lxor x y n :
  mm_srli_si128 (Z.lxor x y) n = Z.lxor (mm_srli_si128 x n) (mm_srli_si128 y n).
Proof. unfold mm_srli_si128. by rewrite Z.shiftr_lxor. Qed.

Create Rewrite HintDb mm_linear.
#[export] Hint Rewrite lane64_lxor mm_slli_epi32_lxor mm_srli_epi32_lxor
  mm_slli_si128_lxor mm_srli_si128_lxor : mm_linear.

(** * Carry-less product *)

Lemma clmul_lxor_r n a b b' : clmul n a (Z.lxor b b') = Z.lxor (clmul n a b) (clmul n a b').
Proof.
  induction n as [|n IH]; [done|]. cbn [clmul]. rewrite IH, Z.shiftl_lxor.
  case_match; xor_solve.
Qed.

Lemma clmul_lxor_l n a a' b : clmul n (Z.lxor a a') b = Z.lxor (clmul n a b) (clmul n a' b).
Proof.
  induction n as [|n IH]; [done|]. cbn [clmul]. rewrite IH, Z.lxor_spec.
  destruct (Z.testbit a _), (Z.testbit a' _); simpl; xor_solve.
Qed.

(** The product only reads the low [n] bits of its first argument. *)
Lemma clmul_ext n a a' b :
  (forall i, 0 <= i < Z.of_nat n -> Z.testbit a i = Z.testbit a' i) -> clmul n a b = clmul n a' b.
Proof.
  induction n as [|n IH]; intros H; [done|]. cbn [clmul].
  rewrite (H (Z.of_nat n)), IH by (intros; try apply H; lia). done.
Qed.

Lemma clmul_add n k a b :
  clmul (n + k) a b =
  Z.lxor (clmul n a b) (Z.shiftl (clmul k (Z.shiftr a (Z.of_nat n)) b) (Z.of_nat n)).
Proof.
  induction k as [|k IH].
  { rewrite Nat.add_0_r. cbn [clmul]. by rewrite Z.shiftl_0_l, Z.lxor_0_r. }
  rewrite Nat.add_succ_r. cbn [clmul]. rewrite IH, Z.shiftl_lxor, Z.shiftr_spec by lia.
  rewrite Z.lxor_assoc. do 2 f_equal. replace (Z.of_nat k + Z.of_nat n) with (Z.of_nat (n + k)) by lia.
  case_match; [|by rewrite Z.shiftl_0_l]. rewrite Z.shiftl_shiftl by lia. f_equal. lia.
Qed.

Lemma clmul_shiftl_r n a b k :
  0 <= k -> clmul n a (Z.shiftl b k) = Z.shiftl (clmul n a b) k.
Proof.
  intros Hk. induction n as [|n IH]; [by rewrite Z.shiftl_0_l|]. cbn [clmul].
  rewrite IH, Z.shiftl_lxor. f_equal. case_match; [|by rewrite Z.shiftl_0_l].
  rewrite !Z.shiftl_shiftl by lia. f_equal. lia.
Qed.

Lemma clmul_pow2_l n k b :
  (k < n)%nat -> clmul n (2 ^ Z.of_nat k) b = Z.shiftl b (Z.of_nat k).
Proof.
  assert (forall m, (m <= k)%nat -> clmul m (2 ^ Z.of_nat k) b = 0) as Hz.
  { induction m as [|m IH]; intros Hm; [done|]. cbn [clmul].
    rewrite IH, Z.pow2_bits_eqb, (proj2 (Z.eqb_neq _ _)) by lia. done. }
  induction n as [|n IH]; intros Hk; [lia|]. cbn [clmul]. rewrite Z.pow2_bits_eqb by lia.
  destruct (Z.eqb_spec (Z.of_nat k) (Z.of_nat n)) as [E|E].
  - assert (k = n) as -> by lia. by rewrite Hz, Z.lxor_0_l by lia.
  - by rewrite IH, Z.lxor_0_r by lia.
Qed.

Lemma clmul_pow2_r n a k :
  clmul n a (2 ^ Z.of_nat k) = Z.shiftl (wrap (Z.of_nat n) a) (Z.of_nat k).
Proof.
  induction n as [|n IH].
  { cbn [clmul]. unfold wrap. by rewrite Z.mod_1_r, Z.shiftl_0_l. }
  cbn [clmul]. rewrite IH.
  apply Z.bits_inj'. intros i Hi. rewrite Z.lxor_spec.
  assert (Z.testbit (if Z.testbit a (Z.of_nat n) then Z.shiftl (2 ^ Z.of_nat k) (Z.of_nat n) else 0) i
    = (i =? Z.of_nat n + Z.of_nat k) && Z.testbit a (Z.of_nat n)) as ->.
  { case_match; rewrite ?Z.testbit_0_l, ?andb_true_r, ?andb_false_r; [|done].
    rewrite Z.shiftl_spec by lia. destruct (Z.lt_ge_cases i (Z.of_nat n)).
    { rewrite Z.testbit_neg_r by lia. symmetry. apply Z.eqb_neq. lia. }
    rewrite Z.pow2_bits_eqb by lia. destruct (Z.eqb_spec i (Z.of_nat n + Z.of_nat k));
      [apply Z.eqb_eq; lia|apply Z.eqb_neq; lia]. }
  autorewrite with testbits.
  rewrite !(proj2 (Z.leb_le _ _)) by lia. rewrite !andb_true_l.
  destruct (Z.eqb_spec i (Z.of_nat n + Z.of_nat k)) as [->|E].
  - replace (Z.of_nat n + Z.of_nat k - Z.of_nat k) with (Z.of_nat n) by lia.
    repeat split_ltb; done.
  - repeat split_ltb; by rewrite ?xorb_false_r.
Qed.

Lemma clmul_comm n a b :
  0 <= a < 2 ^ Z.of_nat n -> 0 <= b < 2 ^ Z.of_nat n -> clmul n a b = clmul n b a.
Proof.
  intros Ha Hb. revert b Hb.
  apply (linear_ext n (fun b => clmul n a b) (fun b => clmul n b a)).
  - intros x y _ _. apply clmul_lxor_r.
  - intros x y _ _. apply clmul_lxor_l.
  - intros k Hk. rewrite clmul_pow2_l, clmul_pow2_r by done. by rewrite wrap_small.
Qed.

Lemma clmul_range n a b w :
  0 <= w -> 0 <= b < 2 ^ w -> 0 <= clmul n a b < 2 ^ (Z.of_nat n + w).
Proof.
  intros Hw Hb. assert (0 < 2 ^ w) by (apply Z.pow_pos_nonneg; lia).
  induction n as [|n IH]; [cbn [clmul]; simpl; lia|]. cbn [clmul].
  assert (2 ^ (Z.of_nat (S n) + w) = 2 * 2 ^ (Z.of_nat n + w)) as E.
  { rewrite <- Z.pow_succ_r by lia. f_equal. lia. }
  apply lxor_range; [lia|lia|].
  case_match; [|lia]. rewrite Z.shiftl_mul_pow2 by lia.
  rewrite E, Z.pow_add_r by lia. assert (0 < 2 ^ Z.of_nat n) by (apply Z.pow_pos_nonneg; lia). nia.
Qed.

(** * Reduction *)

(** The 256-bit value of a pair of vectors, shifted left by one. *)
Definition shl1_lo (lo : m128) : m128 :=
  mm_or (mm_slli_epi32 lo 1) (mm_slli_si128 (mm_srli_epi32 lo 31) 4).
Definition shl1_hi (lo hi : m128) : m128 :=
  mm_or (mm_or (mm_slli_epi32 hi 1) (mm_slli_si128 (mm_srli_epi32 hi 31) 4))
    (mm_srli_si128 (mm_srli_epi32 lo 31) 12).

(** The folding of the low half into the high one. *)
Definition fold_lo (t : m128) : m128 :=
  let u := mm_xor (mm_xor (mm_slli_epi32 t 31) (mm_slli_epi32 t 30)) (mm_slli_epi32 t 25) in
  let v := mm_xor t (mm_slli_si128 u 12) in
  mm_xor v (mm_xor (mm_xor (mm_xor (mm_srli_epi32 v 1) (mm_srli_epi32 v 2)) (mm_srli_epi32 v 7))
    (mm_srli_si128 u 4)).

(** The common tail of [mulv], [addmul] and [MULREDUCE4]. *)
Definition reduce (lo hi : m128) : m128 := mm_xor (shl1_hi lo hi) (fold_lo (shl1_lo lo)).

Definition red (v : Z) : m128 := reduce (wrap 128 v) (Z.shiftr v 128).

Lemma testbit_slli_epi32 x n i :
  0 <= n <= 32 -> 0 <= i -> Z.testbit (mm_slli_epi32 x n) i =
    (i <? 128) && (n <=? i `mod` 32) && Z.testbit x (i - n).
Proof.
  intros Hn Hi. unfold mm_slli_epi32, map_lanes32. rewrite testbit_of_lanes32.
  pose proof (Z.div_mod i 32 ltac:(lia)). pose proof (Z.mod_pos_bound i 32 ltac:(lia)).
  assert (forall k, 0 <= k -> i / 32 = k -> Z.testbit (Z.shiftl (lane32 x k) n) (i - 32 * k) =
    (n <=? i `mod` 32) && Z.testbit x (i - n)) as Hk.
  { intros k Hk E. rewrite Z.shiftl_spec by lia. destruct (Z.leb_spec n (i `mod` 32)).
    - rewrite testbit_lane32, (proj2 (Z.ltb_lt _ _)) by lia. simpl. f_equal. lia.
    - by rewrite Z.testbit_neg_r by lia. }
  destruct (Z.ltb_spec i 32), (Z.ltb_spec i 64), (Z.ltb_spec i 96), (Z.ltb_spec i 128); try lia;
    rewrite ?andb_false_l, ?andb_true_l; try done.
  - rewrite <- (Hk 0) by (try lia; nia). f_equal. lia.
  - apply (Hk 1); [lia|nia].
  - apply (Hk 2); [lia|nia].
  - apply (Hk 3); [lia|nia].
Qed.

Lemma testbit_srli_epi32 x n i :
  0 <= n -> 0 <= i -> Z.testbit (mm_srli_epi32 x n) i =
    (i <? 128) && (i `mod` 32 + n <? 32) && Z.testbit x (i + n).
Proof.
  intros Hn Hi. unfold mm_srli_epi32, map_lanes32. rewrite testbit_of_lanes32.
  pose proof (Z.div_mod i 32 ltac:(lia)). pose proof (Z.mod_pos_bound i 32 ltac:(lia)).
  assert (forall k, 0 <= k -> i / 32 = k -> Z.testbit (Z.shiftr (lane32 x k) n) (i - 32 * k) =
    (i `mod` 32 + n <? 32) && Z.testbit x (i + n)) as Hk.
  { intros k Hk E. rewrite Z.shiftr_spec, testbit_lane32 by lia.
    replace (i - 32 * k + n) with (i `mod` 32 + n) by lia. f_equal. f_equal. lia. }
  destruct (Z.ltb_spec i 32), (Z.ltb_spec i 64), (Z.ltb_spec i 96), (Z.ltb_spec i 128); try lia;
    rewrite ?andb_false_l, ?andb_true_l; try done.
  - rewrite <- (Hk 0) by (try lia; nia). f_equal. lia.
  - apply (Hk 1); [lia|nia].
  - apply (Hk 2); [lia|nia].
  - apply (Hk 3); [lia|nia].
Qed.

Lemma shl1_carry x i :
  0 <= i < 128 ->
  ((1 <=? i `mod` 32) && Z.testbit x (i - 1)) ||
  ((32 <=? i) && (((i - 32) `mod` 32 + 31 <? 32) && Z.testbit x (i - 32 + 31))) =
  Z.testbit x (i - 1).
Proof.
  intros Hi. replace ((i - 32) `mod` 32) with (i `mod` 32)
    by (replace (i - 32) with (i + (-1) * 32) by lia; by rewrite Z_mod_plus_full).
  replace (i - 32 + 31) with (i - 1) by lia. pose proof (Z.mod_pos_bound i 32 ltac:(lia)).
  destruct (Z.leb_spec 1 (i `mod` 32)).
  - rewrite (proj2 (Z.ltb_ge _ _)) by lia. by rewrite andb_false_r, orb_false_r.
  - rewrite (proj2 (Z.ltb_lt _ _)) by lia. simpl. destruct (Z.leb_spec 32 i); [done|].
    assert (i = 0) as -> by (rewrite Z.mod_small in * by lia; lia). done.
Qed.

Lemma testbit_slli_si128 x n i :
  0 <= i -> Z.testbit (mm_slli_si128 x n) i = (i <? 128) && Z.testbit x (i - 8 * n).
Proof. intros Hi. unfold mm_slli_si128. autorewrite with testbits. by repeat split_ltb. Qed.

Lemma shl1_lo_spec x : shl1_lo x = wrap 128 (Z.shiftl x 1).
Proof.
  apply Z.bits_inj'. intros i Hi. unfold shl1_lo, mm_or.
  rewrite Z.lor_spec, testbit_slli_epi32, testbit_slli_si128, testbit_wrap, Z.shiftl_spec by lia.
  destruct (Z.ltb_spec i 128); [|done]. rewrite !andb_true_l.
  etrans; [|apply (shl1_carry x i); lia]. f_equal.
  change (8 * 4) with 32. destruct (Z.leb_spec 32 i); [|by rewrite (Z.testbit_neg_r _ (i - 32)) by lia].
  by rewrite testbit_srli_epi32, (proj2 (Z.ltb_lt (i - 32) 128)) by lia.
Qed.

Lemma shl1_hi_spec lo hi :
  0 <= lo < 2 ^ 128 ->
  shl1_hi lo hi = Z.lxor (wrap 128 (Z.shiftl hi 1)) (Z.shiftr lo 127).
Proof.
  intros Hlo. apply Z.bits_inj'. intros i Hi. unfold shl1_hi.
  change (mm_or (mm_slli_epi32 hi 1) (mm_slli_si128 (mm_srli_epi32 hi 31) 4)) with (shl1_lo hi).
  rewrite shl1_lo_spec. unfold mm_or, mm_srli_si128.
  rewrite Z.lor_spec, Z.lxor_spec, testbit_wrap, !Z.shiftl_spec, !Z.shiftr_spec by lia.
  rewrite testbit_srli_epi32 by lia. destruct (Z.eq_dec i 0) as [->|].
  { by rewrite (Z.testbit_neg_r hi) by lia. }
  rewrite (testbit_high 128 lo (i + 8 * 12 + 31)), (testbit_high 128 lo (i + 127)) by lia.
  by rewrite andb_false_r, orb_false_r, xorb_false_r.
Qed.

Lemma shl1_lo_lxor x y : shl1_lo (Z.lxor x y) = Z.lxor (shl1_lo x) (shl1_lo y).
Proof. rewrite !shl1_lo_spec, Z.shiftl_lxor. bitblast. Qed.

Lemma fold_lo_lxor x y : fold_lo (Z.lxor x y) = Z.lxor (fold_lo x) (fold_lo y).
Proof. unfold fold_lo, mm_xor. autorewrite with mm_linear. xor_solve. Qed.

Lemma reduce_lxor lo lo' hi hi' :
  is_m128 lo -> is_m128 lo' ->
  reduce (Z.lxor lo lo') (Z.lxor hi hi') = Z.lxor (reduce lo hi) (reduce lo' hi').
Proof.
  intros H H'. unfold reduce, mm_xor. rewrite !shl1_hi_spec by (done || by apply is_m128_xor).
  rewrite shl1_lo_lxor, fold_lo_lxor, Z.shiftl_lxor, Z.shiftr_lxor.
  replace (wrap 128 (Z.lxor (Z.shiftl hi 1) (Z.shiftl hi' 1)))
    with (Z.lxor (wrap 128 (Z.shiftl hi 1)) (wrap 128 (Z.shiftl hi' 1))) by bitblast.
  xor_solve.
Qed.

Lemma red_lxor v v' : red (Z.lxor v v') = Z.lxor (red v) (red v').
Proof.
  unfold red. rewrite Z.shiftr_lxor.
  replace (wrap 128 (Z.lxor v v')) with (Z.lxor (wrap 128 v) (wrap 128 v')) by bitblast.
  apply reduce_lxor; apply wrap_range; lia.
Qed.

Lemma mulx_lxor x y : mulx (Z.lxor x y) = Z.lxor (mulx x) (mulx y).
Proof.
  unfold mulx. rewrite Z.shiftr_lxor, Z.lxor_spec.
  destruct (Z.testbit x 0), (Z.testbit y 0); simpl; xor_solve.
Qed.

(** Halving the 256-bit product is multiplication by [x] after reduction. *)
Lemma red_shiftl v : 0 <= v < 2 ^ 254 -> red v = mulx (red (Z.shiftl v 1)).
Proof.
  apply (linear_ext_check 254 red (fun v => mulx (red (Z.shiftl v 1)))).
  - intros x y _ _. apply red_lxor.
  - intros x y _ _. by rewrite Z.shiftl_lxor, red_lxor, mulx_lxor.
  - vm_compute. reflexivity.
Qed.

Lemma red_top B : is_m128 B -> red (Z.shiftl B 127) = B.
Proof.
  apply (linear_ext_check 128 (fun B => red (Z.shiftl B 127)) (fun B => B)).
  - intros x y _ _. by rewrite Z.shiftl_lxor, red_lxor.
  - by intros x y _ _.
  - vm_compute. reflexivity.
Qed.

(** * The code computes the standard's product *)

Lemma gmul_aux_lxor_l n X X' V :
  gmul_aux n (Z.lxor X X') V = Z.lxor (gmul_aux n X V) (gmul_aux n X' V).
Proof.
  revert V. induction n as [|n IH]; intros V; [done|]. cbn [gmul_aux].
  rewrite IH, Z.lxor_spec. destruct (Z.testbit X _), (Z.testbit X' _); simpl; xor_solve.
Qed.

Lemma gmul_aux_lxor_r n X V V' :
  gmul_aux n X (Z.lxor V V') = Z.lxor (gmul_aux n X V) (gmul_aux n X V').
Proof.
  revert V V'. induction n as [|n IH]; intros V V'; [done|]. cbn [gmul_aux].
  rewrite mulx_lxor, IH. case_match; xor_solve.
Qed.

Lemma gmul_aux_mulx n X V : gmul_aux n X (mulx V) = mulx (gmul_aux n X V).
Proof.
  revert V. induction n as [|n IH]; intros V; [done|]. cbn [gmul_aux].
  rewrite mulx_lxor, IH. by case_match.
Qed.

Lemma mulx_range V : is_m128 V -> is_m128 (mulx V).
Proof.
  intros HV. apply lxor_range; [lia| |case_match; [by vm_compute|]; unfold is_m128; lia].
  rewrite Z.shiftr_div_pow2 by lia. unfold is_m128 in HV. change (2 ^ 1) with 2.
  split; [apply Z.div_pos; lia|apply Z.div_lt_upper_bound; lia].
Qed.

(** Reducing a shifted block multiplies it by a power of [x]. *)
Lemma red_power n B :
  is_m128 B -> (n <= 127)%nat -> red (Z.shiftl B (Z.of_nat (127 - n))) = Nat.iter n mulx B.
Proof.
  intros HB. induction n as [|n IH]; intros Hn; [by apply red_top|].
  change (Nat.iter (S n) mulx B) with (mulx (Nat.iter n mulx B)).
  rewrite <- IH by lia. rewrite red_shiftl.
  - rewrite Z.shiftl_shiftl by lia. do 3 f_equal. lia.
  - destruct HB as [HB1 HB2]. rewrite Z.shiftl_mul_pow2 by lia.
    assert (2 ^ Z.of_nat (127 - S n) <= 2 ^ 126) by (apply Z.pow_le_mono_r; lia).
    assert (0 < 2 ^ Z.of_nat (127 - S n)) by (apply Z.pow_pos_nonneg; lia).
    change (2 ^ 254) with (2 ^ 128 * 2 ^ 126). nia.
Qed.

Lemma red_clmul_aux n A B :
  is_m128 B -> (n <= 128)%nat ->
  red (clmul n A B) = gmul_aux n A (Nat.iter (128 - n) mulx B).
Proof.
  intros HB. induction n as [|n IH]; intros Hn; [by vm_compute|].
  cbn [clmul gmul_aux]. rewrite red_lxor, IH by lia. rewrite Z.lxor_comm. f_equal.
  - case_match; [|by vm_compute]. rewrite <- red_power by (done || lia). do 3 f_equal. lia.
  - f_equal. replace (128 - n)%nat with (S (128 - S n)) by lia. done.
Qed.

Lemma red_clmul A B : is_m128 B -> red (clmul 128 A B) = gmul A B.
Proof. intros HB. by rewrite red_clmul_aux by (done || lia). Qed.

Lemma gmul_range X Y : is_m128 Y -> is_m128 (gmul X Y).
Proof.
  unfold gmul. generalize 128%nat. intros n. revert Y.
  induction n as [|n IH]; intros Y HY; cbn [gmul_aux]; [unfold is_m128; lia|].
  apply lxor_range; [lia| |by apply IH, mulx_range]. case_match; [done|]. unfold is_m128; lia.
Qed.

(** ** Commutative ring laws *)

Lemma gmul_comm X Y : is_m128 X -> is_m128 Y -> gmul X Y = gmul Y X.
Proof. intros HX HY. by rewrite <- !red_clmul, clmul_comm by done. Qed.

Lemma gmul_lxor_l X X' Y : gmul (Z.lxor X X') Y = Z.lxor (gmul X Y) (gmul X' Y).
Proof. apply gmul_aux_lxor_l. Qed.

Lemma gmul_lxor_r X Y Y' : gmul X (Z.lxor Y Y') = Z.lxor (gmul X Y) (gmul X Y').
Proof. apply gmul_aux_lxor_r. Qed.

Lemma gmul_aux_assoc n a b c :
  is_m128 b -> is_m128 c -> gmul (gmul_aux n a b) c = gmul_aux n a (gmul b c).
Proof.
  intros Hb Hc. revert b Hb. induction n as [|n IH]; intros b Hb; cbn [gmul_aux].
  { by vm_compute. }
  pose proof (mulx_range b Hb). rewrite gmul_lxor_l, IH by done.
  f_equal; [case_match; [done|by vm_compute]|].
  f_equal. rewrite (gmul_comm (mulx b)), (gmul_comm b) by done. apply gmul_aux_mulx.
Qed.

Lemma gmul_assoc a b c :
  is_m128 b -> is_m128 c -> gmul (gmul a b) c = gmul a (gmul b c).
Proof. apply gmul_aux_assoc. Qed.

(** ** Products by 64-bit halves *)

Definition mul_lo (A B : m128) : Z := clmul 64 (lane64 A 0) (lane64 B 0).
Definition mul_hi (A B : m128) : Z := clmul 64 (lane64 A 1) (lane64 B 1).
Definition mul_mid (A B : m128) : Z :=
  Z.lxor (clmul 64 (lane64 A 0) (lane64 B 1)) (clmul 64 (lane64 A 1) (lane64 B 0)).

Lemma lane64_range x k : 0 <= lane64 x k < 2 ^ 64.
Proof. apply wrap_range. lia. Qed.

Lemma is_m128_clmul64 a b k : is_m128 (clmul 64 a (lane64 b k)).
Proof. apply (clmul_range 64 _ _ 64); [lia|apply lane64_range]. Qed.

Lemma is_m128_mid A B : is_m128 (mul_mid A B).
Proof. unfold mul_mid. apply (lxor_range 128); [lia|apply is_m128_clmul64..]. Qed.

Lemma is_m128_lo A B : is_m128 (mul_lo A B).
Proof. apply is_m128_clmul64. Qed.

#[local] Hint Resolve is_m128_clmul64 is_m128_mid is_m128_lo : aurora.

Lemma clmul_halves A B :
  is_m128 B ->
  clmul 128 A B = Z.lxor (Z.lxor (mul_lo A B) (Z.shiftl (mul_mid A B) 64)) (Z.shiftl (mul_hi A B) 128).
Proof.
  intros HB. change 128%nat with (64 + 64)%nat. rewrite clmul_add.
  rewrite (clmul_ext 64 A (lane64 A 0)), (clmul_ext 64 (Z.shiftr A _) (lane64 A 1)).
  2-3: intros i Hi; unfold lane64; autorewrite with testbits; repeat split_ltb; simpl; f_equal; lia.
  assert (B = Z.lxor (lane64 B 0) (Z.shiftl (lane64 B 1) 64)) as E.
  { unfold lane64. apply Z.bits_inj'. intros i Hi. destruct (Z.lt_ge_cases i 128).
    - bitblast_core.
    - rewrite (testbit_high 128 B) by (done || lia). bitblast_core. }
  rewrite E at 1 2. rewrite !clmul_lxor_r, !clmul_shiftl_r, !Z.shiftl_lxor by lia.
  unfold mul_lo, mul_mid, mul_hi. rewrite !Z.shiftl_lxor, !Z.shiftl_shiftl by lia.
  change (Z.of_nat 64) with 64. change (64 + 64) with 128. xor_solve.
Qed.

(** The sum of [k] products, reduced once, from its accumulated halves. *)
Lemma reduce_halves lo mid hi :
  is_m128 lo -> is_m128 mid ->
  reduce (Z.lxor lo (mm_slli_si128 mid 8)) (Z.lxor hi (mm_srli_si128 mid 8)) =
  red (Z.lxor (Z.lxor lo (Z.shiftl mid 64)) (Z.shiftl hi 128)).
Proof.
  intros Hlo Hmid. unfold red. f_equal.
  - apply Z.bits_inj'. intros i Hi. rewrite Z.lxor_spec, testbit_slli_si128 by lia.
    rewrite testbit_wrap, !Z.lxor_spec, !Z.shiftl_spec by lia. change (8 * 8) with 64.
    destruct (Z.ltb_spec i 128).
    + by rewrite (Z.testbit_neg_r hi), xorb_false_r by lia.
    + by rewrite (testbit_high 128 lo) by done.
  - unfold mm_srli_si128. apply Z.bits_inj'. intros i Hi.
    rewrite Z.shiftr_spec, !Z.lxor_spec, !Z.shiftl_spec, Z.shiftr_spec by lia.
    rewrite (testbit_high 128 lo) by (done || lia).
    replace (i + 128 - 128) with i by lia. replace (i + 128 - 64) with (i + 8 * 8) by lia.
    by rewrite xorb_false_l, xorb_comm.
Qed.

Lemma clmul_00 A B : mm_clmulepi64_si128 A B 0x00 = mul_lo A B.
Proof. unfold mm_clmulepi64_si128, mul_lo. f_equal. Qed.
Lemma clmul_11 A B : mm_clmulepi64_si128 A B 0x11 = mul_hi A B.
Proof. unfold mm_clmulepi64_si128, mul_hi. f_equal. Qed.
Lemma clmul_mid A B :
  mm_xor (mm_clmulepi64_si128 A B 0x10) (mm_clmulepi64_si128 A B 0x01) = mul_mid A B.
Proof. unfold mm_clmulepi64_si128, mul_mid, mm_xor. do 2 f_equal. Qed.

Lemma mulv_reduce A B :
  mulv A B = reduce (mm_xor (mul_lo A B) (mm_slli_si128 (mul_mid A B) 8))
                    (mm_xor (mul_hi A B) (mm_srli_si128 (mul_mid A B) 8)).
Proof.
  rewrite <- clmul_00, <- clmul_11, <- clmul_mid.
  unfold mulv, reduce, shl1_hi, shl1_lo, fold_lo. cbv zeta. reflexivity.
Qed.

Lemma mulv_gmul A B : is_m128 B -> mulv A B = gmul A B.
Proof.
  intros HB. rewrite mulv_reduce, reduce_halves, <- clmul_halves by auto with aurora.
  by apply red_clmul.
Qed.

(** A block of up to 16 bytes as the big-endian integer of the standard. *)
Definition block (l : list Z) : Z := le_val (reverse (take 16 l ++ replicate (16 - length l) 0)).

Lemma shuffle_rev x : mm_shuffle_epi8 x rev = le_val (reverse (le_bytes 16 x)).
Proof. reflexivity. Qed.

Lemma is_m128_block l : bytes l -> is_m128 (block l).
Proof.
  intros Hl. unfold block, is_m128.
  assert (bytes (reverse (take 16 l ++ replicate (16 - length l) 0))) as Hb
    by (apply Forall_reverse; auto with bytes).
  pose proof (le_val_range _ Hb) as H. autorewrite with lens in H.
  replace (8 * Z.of_nat (16 `min` length l + (16 - length l))) with 128 in H by lia. done.
Qed.

Lemma shuffle_load l :
  bytes l -> length l = 16%nat -> mm_shuffle_epi8 (mm_load l) rev = block l.
Proof.
  intros Hb Hl. rewrite shuffle_rev. unfold mm_load, block. rewrite Hl. simpl (replicate _ _).
  rewrite app_nil_r, take_ge by lia. do 2 f_equal. rewrite <- Hl at 1. by apply le_bytes_le_val.
Qed.

Lemma addmul_mulv c a xlen b :
  addmul c a xlen b =
  mulv (mm_xor (mm_shuffle_epi8 (if (16 <=? xlen)%nat then mm_load a
    else mm_load (take xlen a ++ replicate (16 - xlen) 0)) rev) c) b.
Proof. unfold addmul, mulv. cbv zeta. reflexivity. Qed.

Lemma addmul_step c a xlen H :
  bytes a -> is_m128 H -> (xlen <= 16)%nat -> (xlen <= length a)%nat ->
  addmul c a xlen H = ghash_step H c (block (take xlen a)).
Proof.
  intros Ha HH H16 Hx. rewrite addmul_mulv, mulv_gmul by done.
  unfold ghash_step, mm_xor. do 2 f_equal.
  destruct (Nat.leb_spec 16 xlen) as [Hge|Hlt].
  - assert (xlen = 16%nat) as -> by lia.
    replace (mm_load a) with (mm_load (take 16 a))
      by (unfold mm_load; by rewrite take_take).
    apply shuffle_load; [by apply bytes_take|rewrite length_take; lia].
  - rewrite shuffle_load.
    + unfold block. autorewrite with lens.
      rewrite (take_ge (take xlen a ++ _)), (take_ge (take xlen a)) by (autorewrite with lens; lia).
      replace (16 - (xlen `min` length a + (16 - xlen)))%nat with 0%nat by lia.
      rewrite app_nil_r. do 3 f_equal. f_equal. lia.
    + apply bytes_app; [by apply bytes_take|apply bytes_replicate; unfold is_byte; lia].
    + autorewrite with lens. lia.
Qed.

(** ** The aggregated reduction *)

Lemma swap_halves x : lane64 (mm_shuffle_epi32 x 0x4e) 0 = lane64 x 1.
Proof.
  unfold mm_shuffle_epi32. change (sel 0x4e 0) with 2. change (sel 0x4e 1) with 3.
  apply Z.bits_inj'. intros i Hi. unfold lane64. autorewrite with testbits.
  destruct (Z.ltb_spec i 64), (Z.leb_spec 0 i); try lia; try done. rewrite !andb_true_l.
  rewrite testbit_of_lanes32. repeat split_ltb; rewrite testbit_lane32 by lia;
    rewrite (proj2 (Z.ltb_lt _ _)) by lia; simpl; f_equal; lia.
Qed.

Lemma red_mul_mid_spec H X :
  RED_MUL_MID H X = Z.lxor (Z.lxor (mul_lo H X) (mul_hi H X)) (mul_mid H X).
Proof.
  unfold RED_MUL_MID. cbv zeta. rewrite clmul_00. unfold mul_lo, mul_hi, mul_mid, mm_xor.
  rewrite !lane64_lxor, !swap_halves, !clmul_lxor_l, !clmul_lxor_r. xor_solve.
Qed.

(** One product of the aggregate, before reduction. *)
Lemma red_product H X :
  is_m128 X ->
  red (Z.lxor (Z.lxor (mul_lo H X) (Z.shiftl (mul_mid H X) 64)) (Z.shiftl (mul_hi H X) 128)) =
  gmul H X.
Proof. intros HX. rewrite <- clmul_halves by done. by apply red_clmul. Qed.

Lemma mulreduce4_sum H0 H1 H2 H3 X0 X1 X2 X3 acc :
  is_m128 (RED_SHUFFLE X0) -> is_m128 (RED_SHUFFLE X1) ->
  is_m128 (RED_SHUFFLE X2) -> is_m128 (mm_xor (RED_SHUFFLE X3) acc) ->
  MULREDUCE4 H0 H1 H2 H3 X0 X1 X2 X3 acc =
  Z.lxor (Z.lxor (gmul H0 (RED_SHUFFLE X0)) (gmul H1 (RED_SHUFFLE X1)))
    (Z.lxor (gmul H2 (RED_SHUFFLE X2)) (gmul H3 (mm_xor (RED_SHUFFLE X3) acc))).
Proof.
  unfold MULREDUCE4. cbv zeta.
  generalize (mm_xor (RED_SHUFFLE X3) acc) (RED_SHUFFLE X0) (RED_SHUFFLE X1) (RED_SHUFFLE X2).
  clear. intros Y3 Y0 Y1 Y2 HY0 HY1 HY2 HY3.
  unfold RED_MUL_LOW, RED_MUL_HIGH. rewrite !clmul_00, !clmul_11, !red_mul_mid_spec.
  set (lo := mm_xor (mm_xor (mm_xor (mul_lo H0 Y0) _) _) _).
  set (hi := mm_xor (mm_xor (mm_xor (mul_hi H0 Y0) _) _) _).
  set (mid := mm_xor (mm_xor (mul_mid H0 Y0) (mul_mid H1 Y1))
                     (mm_xor (mul_mid H2 Y2) (mul_mid H3 Y3))).
  match goal with |- context [mm_slli_si128 ?t 8] => assert (t = mid) as Hm end.
  { subst lo hi mid. unfold mm_xor. xor_solve. }
  rewrite Hm. clear Hm.
  trans (reduce (Z.lxor lo (mm_slli_si128 mid 8)) (Z.lxor hi (mm_srli_si128 mid 8))).
  { rewrite (Z.lxor_comm lo), (Z.lxor_comm hi).
    unfold reduce, shl1_hi, shl1_lo, fold_lo. cbv zeta. reflexivity. }
  rewrite reduce_halves.
  - rewrite <- !red_product, <- !red_lxor by done. f_equal.
    subst lo hi mid. unfold mm_xor. rewrite !Z.shiftl_lxor. xor_solve.
  - subst lo. auto 6 with aurora.
  - subst mid. auto 6 with aurora.
Qed.

Lemma mulreduce4_blocks H x1 x2 x3 x4 acc :
  is_m128 H -> is_m128 acc ->
  Forall (fun x => bytes x /\ length x = 16%nat) [x1; x2; x3; x4] ->
  MULREDUCE4 H (mulv H H) (mulv (mulv H H) H) (mulv (mulv (mulv H H) H) H)
    (mm_load x1) (mm_load x2) (mm_load x3) (mm_load x4) acc =
  foldl (ghash_step H) acc [block x4; block x3; block x2; block x1].
Proof.
  intros HH Hacc Hx. rewrite !Forall_cons in Hx.
  destruct Hx as ([B1 L1] & [B2 L2] & [B3 L3] & [B4 L4] & _).
  assert (forall x, bytes x -> length x = 16%nat -> RED_SHUFFLE (mm_load x) = block x) as E
    by (intros; by apply shuffle_load).
  pose proof (is_m128_block x1 B1). pose proof (is_m128_block x2 B2).
  pose proof (is_m128_block x3 B3). pose proof (is_m128_block x4 B4).
  pose proof (is_m128_xor _ _ (is_m128_block x4 B4) Hacc).
  pose proof (gmul_range H H HH) as HH2.
  rewrite mulreduce4_sum; rewrite ?E by done; try done.
  rewrite !mulv_gmul by done. cbn [foldl]. unfold ghash_step, mm_xor in *.
  rewrite (gmul_comm H (block x1)), (gmul_comm _ (block x2)), (gmul_comm _ (block x3)),
    (gmul_comm _ (Z.lxor _ _)) by auto using gmul_range.
  rewrite !gmul_lxor_l, !gmul_assoc by auto using gmul_range. xor_solve.
Qed.

(** * Properties *)

(** C38 [mulv] multiplies two field elements exactly as the bit-serial
    algorithm of the GCM standard does. *)
Theorem mulv_correct A B : is_m128 A -> is_m128 B -> mulv A B = gmul A B.
Proof. intros _ HB. by apply mulv_gmul. Qed.

Lemma mulv_correct_witness :
  mulv 0x66e94bd4ef8a2c3b884cfa59ca342b2e 0x0388dace60b6a392f328c2b971b2fe78 =
  gmul 0x66e94bd4ef8a2c3b884cfa59ca342b2e 0x0388dace60b6a392f328c2b971b2fe78.
Proof. apply mulv_correct; unfold is_m128; lia. Defined.

(** The aggregated reduction over four blocks with the powers H, H^2, H^3
    and H^4 gives the result of four successive [addmul] steps with H. *)
Theorem mulreduce4_addmul H x1 x2 x3 x4 acc :
  is_m128 H -> is_m128 acc ->
  Forall (fun x => bytes x /\ length x = 16%nat) [x1; x2; x3; x4] ->
  MULREDUCE4 H (mulv H H) (mulv (mulv H H) H) (mulv (mulv (mulv H H) H) H)
    (mm_load x1) (mm_load x2) (mm_load x3) (mm_load x4) acc =
  addmul (addmul (addmul (addmul acc x4 16 H) x3 16 H) x2 16 H) x1 16 H.
Proof.
  intros HH Hacc Hx. rewrite mulreduce4_blocks by done. rewrite !Forall_cons in Hx.
  destruct Hx as ([B1 L1] & [B2 L2] & [B3 L3] & [B4 L4] & _).
  rewrite !addmul_step, !take_ge by (done || lia). done.
Qed.

Lemma mulreduce4_addmul_witness :
  let x := replicate 16 7 in
  MULREDUCE4 3 (mulv 3 3) (mulv (mulv 3 3) 3) (mulv (mulv (mulv 3 3) 3) 3)
    (mm_load x) (mm_load x) (mm_load x) (mm_load x) 5 =
  addmul (addmul (addmul (addmul 5 x 16 3) x 16 3) x 16 3) x 16 3.
Proof.
  apply mulreduce4_addmul; [unfold is_m128; lia..|].
  forall_list; split; (done || apply bytes_replicate; unfold is_byte; lia).
Defined.
