(* ===== verification/Aes.v ===== *)
(** AES-256 with the AES-NI instructions: the key expansion, the single-block
    and the eight-block encryption of aead_aes256gcm_aesni.c, proved equal to the
    cipher and key schedule of FIPS-197. *)

From Stdlib Require Import ZArith Lia Bool Btauto.
From stdpp Require Import base list.
From S2P Require Import Prelude Intrinsics Gf128.

(** * The code *)

(** The registers of [aesni_key256_expand] and the round keys written so far. *)
Record expand_state := ExpandState { X0 : m128; X2 : m128; X3 : m128; out_keys : list m128 }.

Definition EXPAND_KEY_1 (S : Z) (st : expand_state) : expand_state :=
  let X1 := mm_shuffle_epi32 (mm_aeskeygenassist (X2 st) S) 0xff in
  let X3' := mm_shuffle_ps (X3 st) (X0 st) 0x10 in
  let X0' := mm_xor (X0 st) X3' in
  let X3'' := mm_shuffle_ps X3' X0' 0x8c in
  let X0'' := mm_xor (mm_xor X0' X3'') X1 in
  ExpandState X0'' (X2 st) X3'' (out_keys st ++ [X0'']).

Definition EXPAND_KEY_2 (S : Z) (st : expand_state) : expand_state :=
  let X1 := mm_shuffle_epi32 (mm_aeskeygenassist (X0 st) S) 0xaa in
  let X3' := mm_shuffle_ps (X3 st) (X2 st) 0x10 in
  let X2' := mm_xor (X2 st) X3' in
  let X3'' := mm_shuffle_ps X3' X2' 0x8c in
  let X2'' := mm_xor (mm_xor X2' X3'') X1 in
  ExpandState (X0 st) X2'' X3'' (out_keys st ++ [X2'']).

Definition aesni_key256_expand (key : list Z) : list m128 :=
  let X0 := mm_load key in
  let X2 := mm_load (drop 16 key) in
  let st := ExpandState X0 X2 mm_setzero [X0; X2] in
  let st := EXPAND_KEY_2 0x01 (EXPAND_KEY_1 0x01 st) in
  let st := EXPAND_KEY_2 0x02 (EXPAND_KEY_1 0x02 st) in
  let st := EXPAND_KEY_2 0x04 (EXPAND_KEY_1 0x04 st) in
  let st := EXPAND_KEY_2 0x08 (EXPAND_KEY_1 0x08 st) in
  let st := EXPAND_KEY_2 0x10 (EXPAND_KEY_1 0x10 st) in
  let st := EXPAND_KEY_2 0x20 (EXPAND_KEY_1 0x20 st) in
  let st := EXPAND_KEY_1 0x40 st in
  out_keys st.

(** [rkeys[i]] *)
Definition rkey (rkeys : list m128) (i : nat) : m128 := nth i rkeys 0.

Definition aesni_encrypt1 (nv : m128) (rkeys : list m128) : list Z :=
  let temp := mm_xor nv (rkey rkeys 0) in
  let temp := mm_aesenc temp (rkey rkeys 1) in
  let temp := mm_aesenc temp (rkey rkeys 2) in
  let temp := mm_aesenc temp (rkey rkeys 3) in
  let temp := mm_aesenc temp (rkey rkeys 4) in
  let temp := mm_aesenc temp (rkey rkeys 5) in
  let temp := mm_aesenc temp (rkey rkeys 6) in
  let temp := mm_aesenc temp (rkey rkeys 7) in
  let temp := mm_aesenc temp (rkey rkeys 8) in
  let temp := mm_aesenc temp (rkey rkeys 9) in
  let temp := mm_aesenc temp (rkey rkeys 10) in
  let temp := mm_aesenc temp (rkey rkeys 11) in
  let temp := mm_aesenc temp (rkey rkeys 12) in
  let temp := mm_aesenc temp (rkey rkeys 13) in
  let temp := mm_aesenclast temp (rkey rkeys 14) in
  mm_store temp.

(** The counter block [uint32_t n[4]]. *)
Record ctr_block := Ctr { n_0 : Z; n_1 : Z; n_2 : Z; n_3 : Z }.
Definition load_n (n : ctr_block) : m128 := of_lanes32 (n_0 n) (n_1 n) (n_2 n) (n_3 n).
(** [n[3] += k] *)
Definition add_n3 (n : ctr_block) (k : Z) : ctr_block :=
  Ctr (n_0 n) (n_1 n) (n_2 n) (u32 (n_3 n + k)).

(** The constant [pt], which reverses the four counter bytes. *)
Definition pt : list Z := mm_set_epi8 [12;13;14;15;11;10;9;8;7;6;5;4;3;2;1;0].

(** [NVx]: load the counter block and increment it; eight times for [MAKE8]. *)
Fixpoint MAKE_NV (k : nat) (n : ctr_block) : list m128 * ctr_block :=
  match k with
  | O => ([], n)
  | S k =>
      let nv := mm_shuffle_epi8 (load_n n) pt in
      let '(nvs, n') := MAKE_NV k (add_n3 n 1) in
      (nv :: nvs, n')
  end.

(** The eight [temp]s after [NVx], [TEMPx], the loop of [AESENCx] and [AESENCLASTx]. *)
Definition aes_temps8 (n : ctr_block) (rkeys : list m128) : list m128 * ctr_block :=
  let '(nvs, n') := MAKE_NV 8 n in
  let temps := (fun nv => mm_xor nv (rkey rkeys 0)) <$> nvs in
  let temps := foldl (fun ts roundctr => (fun t => mm_aesenc t (rkey rkeys roundctr)) <$> ts)
                 temps (seq 1 13) in
  let temps := (fun t => mm_aesenclast t (rkey rkeys 14)) <$> temps in
  (temps, n').

Definition aesni_encrypt8 (n : ctr_block) (rkeys : list m128) : list Z * ctr_block :=
  let '(temps, n') := aes_temps8 n rkeys in
  (concat (mm_store <$> temps), n').

(** * FIPS-197

    Words are the little-endian integers of their four bytes. *)

Module Fips.

(** [Rcon[i]]: the word whose first byte is [x^(i-1)]. *)
Definition rcon (i : nat) : Z := Nat.iter (i - 1) xtime 1.

(** One step of the key expansion for [Nk = 8]: append word number [length w]. *)
Definition next_word (w : list Z) : list Z :=
  let i := length w in
  let temp := nth (i - 1) w 0 in
  let temp :=
    if (i mod 8 =? 0)%nat then Z.lxor (sub_word (rot_word temp)) (rcon (i / 8))
    else if (i mod 8 =? 4)%nat then sub_word temp
    else temp in
  w ++ [Z.lxor (nth (i - 8) w 0) temp].

(** The words of a byte string. *)
Fixpoint words (n : nat) (l : list Z) : list Z :=
  match n with O => [] | S n => le_val (take 4 l) :: words n (drop 4 l) end.

(** The 60 words of the key schedule. *)
Definition KeyExpansion (key : list Z) : list Z := Nat.iter 52 next_word (words 8 key).

Definition round_key (w : list Z) (r : nat) : list Z :=
  concat (le_bytes 4 <$> take 4 (drop (4 * r) w)).

Definition AddRoundKey (s k : list Z) : list Z := xor_bytes s k.

Definition Round (w : list Z) (s : list Z) (r : nat) : list Z :=
  AddRoundKey (mix_columns (shift_rows (sub_bytes s))) (round_key w r).

Definition Cipher (input w : list Z) : list Z :=
  let s := AddRoundKey input (round_key w 0) in
  let s := foldl (Round w) s (seq 1 13) in
  AddRoundKey (shift_rows (sub_bytes s)) (round_key w 14).

End Fips.
Import Fips.

(** * Lanes and words *)

Definition is_u32 (x : Z) : Prop := 0 <= x < 2 ^ 32.

Lemma is_u32_lxor x y : is_u32 x -> is_u32 y -> is_u32 (Z.lxor x y).
Proof. apply (lxor_range 32). lia. Qed.

Lemma is_byte_sbox x : is_byte (sbox x).
Proof.
  unfold sbox. apply bytes_nth. apply (bool_decide_unpack _). vm_compute. exact I.
Qed.

Lemma bytes_sub_bytes s : bytes (sub_bytes s).
Proof. apply Forall_fmap, Forall_true. intros. apply is_byte_sbox. Qed.

Lemma is_u32_sub_word w : is_u32 (sub_word w).
Proof. apply (le_val_range (sub_bytes (le_bytes 4 w))), bytes_sub_bytes. Qed.

Lemma is_u32_rot_word w : is_u32 w -> is_u32 (rot_word w).
Proof.
  intros Hw. apply lor_range; [lia| |].
  - unfold is_u32 in Hw. rewrite Z.shiftr_div_pow2 by lia. change (2 ^ 8) with 256.
    split; [apply Z.div_pos; lia|apply Z.div_lt_upper_bound; lia].
  - rewrite land_ff, Z.shiftl_mul_pow2 by lia. pose proof (wrap_range 8 w). lia.
Qed.

#[export] Hint Resolve is_u32_lxor is_u32_sub_word is_u32_rot_word : aurora.

Lemma lane32_of_lanes32 a b c d k :
  0 <= k < 4 -> is_u32 a -> is_u32 b -> is_u32 c -> is_u32 d ->
  lane32 (of_lanes32 a b c d) k = nth (Z.to_nat k) [a; b; c; d] 0.
Proof.
  intros Hk Ha Hb Hc Hd. apply Z.bits_inj'. intros i Hi. rewrite testbit_lane32 by lia.
  rewrite testbit_of_lanes32.
  assert (k = 0 \/ k = 1 \/ k = 2 \/ k = 3) as [->|[->|[->| ->]]] by lia; simpl;
    (destruct (Z.ltb_spec i 32); [|symmetry; by apply (testbit_high 32)]);
    repeat split_ltb; simpl; f_equal; lia.
Qed.

(** [rot_word] and [sub_word] commute. *)
Lemma sub_rot_word w : is_u32 w -> sub_word (rot_word w) = rot_word (sub_word w).
Proof.
  intros Hw. pose proof (wrap_small 32 w Hw) as E.
  set (b i := u8 (Z.shiftr w (8 * i))).
  assert (le_bytes 4 w = [b 0; b 1; b 2; b 3]) as E1.
  { cbn [le_bytes]. unfold b. rewrite !land_ff, !Z.shiftr_shiftr by lia. done. }
  assert (le_bytes 4 (rot_word w) = [b 1; b 2; b 3; b 0]) as E2.
  { cbn [le_bytes]. unfold rot_word, b. rewrite !land_ff, !Z.shiftr_shiftr by lia.
    rewrite <- E. repeat (apply (f_equal2 cons); [bitblast|]). done. }
  unfold sub_word at 1. rewrite E2. unfold sub_word. rewrite E1. cbn [sub_bytes fmap list_fmap le_val].
  unfold rot_word. rewrite !land_ff.
  rewrite <- (u8_small _ (is_byte_sbox (b 0))), <- (u8_small _ (is_byte_sbox (b 1))),
    <- (u8_small _ (is_byte_sbox (b 2))), <- (u8_small _ (is_byte_sbox (b 3))).
  bitblast.
Qed.

(** * Key expansion *)

(** Four words as a vector, and a word list as a list of vectors. *)
Fixpoint pack (w : list Z) : list m128 :=
  match w with
  | a :: b :: c :: d :: w => of_lanes32 a b c d :: pack w
  | _ => []
  end.

Lemma pack_app k w w' : length w = (4 * k)%nat -> pack (w ++ w') = pack w ++ pack w'.
Proof.
  revert w. induction k as [|k IH]; intros w Hw.
  { by destruct w. }
  destruct w as [|a [|b [|c [|d w]]]]; simpl in Hw; try lia. cbn [app pack].
  rewrite IH by lia. done.
Qed.

(** The chain of exclusive ors of one [EXPAND_KEY] step. *)
Lemma expand_xor a0 a1 a2 a3 x3 t :
  is_u32 a0 -> is_u32 a1 -> is_u32 a2 -> is_u32 a3 -> is_u32 t -> lane32 x3 0 = 0 ->
  let X := of_lanes32 a0 a1 a2 a3 in
  let x3' := mm_shuffle_ps x3 X 0x10 in
  let X' := mm_xor X x3' in
  let x3'' := mm_shuffle_ps x3' X' 0x8c in
  lane32 x3'' 0 = 0 /\
  mm_xor (mm_xor X' x3'') (of_lanes32 t t t t) =
    of_lanes32 (Z.lxor a0 t) (Z.lxor a1 (Z.lxor a0 t))
      (Z.lxor a2 (Z.lxor a1 (Z.lxor a0 t)))
      (Z.lxor a3 (Z.lxor a2 (Z.lxor a1 (Z.lxor a0 t)))).
Proof.
  intros H0 H1 H2 H3 Ht Hx. cbv zeta.
  assert (is_u32 0) as Hz by (unfold is_u32; lia).
  assert (mm_shuffle_ps x3 (of_lanes32 a0 a1 a2 a3) 0x10 = of_lanes32 0 0 a1 a0) as ->.
  { unfold mm_shuffle_ps. change (sel 0x10 0) with 0. change (sel 0x10 1) with 0.
    change (sel 0x10 2) with 1. change (sel 0x10 3) with 0.
    by rewrite Hx, !lane32_of_lanes32 by (done || lia). }
  unfold mm_xor. rewrite <- of_lanes32_lxor, !Z.lxor_0_r.
  assert (mm_shuffle_ps (of_lanes32 0 0 a1 a0)
    (of_lanes32 a0 a1 (Z.lxor a2 a1) (Z.lxor a3 a0)) 0x8c =
    of_lanes32 0 a0 a0 (Z.lxor a2 a1)) as ->.
  { unfold mm_shuffle_ps. change (sel 0x8c 0) with 0. change (sel 0x8c 1) with 3.
    change (sel 0x8c 2) with 0. change (sel 0x8c 3) with 2.
    by rewrite !lane32_of_lanes32 by (auto with aurora || lia). }
  split; [by rewrite lane32_of_lanes32 by (auto with aurora || lia)|].
  rewrite <- !of_lanes32_lxor. f_equal; xor_solve.
Qed.

Lemma keygen_ff b0 b1 b2 b3 s :
  is_u32 b0 -> is_u32 b1 -> is_u32 b2 -> is_u32 b3 -> is_u32 s ->
  mm_shuffle_epi32 (mm_aeskeygenassist (of_lanes32 b0 b1 b2 b3) s) 0xff =
  let t := Z.lxor (sub_word (rot_word b3)) s in of_lanes32 t t t t.
Proof.
  intros. unfold mm_shuffle_epi32, mm_aeskeygenassist. cbv zeta.
  change (sel 0xff 0) with 3. change (sel 0xff 1) with 3. change (sel 0xff 2) with 3.
  change (sel 0xff 3) with 3.
  rewrite !lane32_of_lanes32 by (auto with aurora || lia). simpl. by rewrite sub_rot_word.
Qed.

Lemma keygen_aa b0 b1 b2 b3 s :
  is_u32 b0 -> is_u32 b1 -> is_u32 b2 -> is_u32 b3 -> is_u32 s ->
  mm_shuffle_epi32 (mm_aeskeygenassist (of_lanes32 b0 b1 b2 b3) s) 0xaa =
  let t := sub_word b3 in of_lanes32 t t t t.
Proof.
  intros. unfold mm_shuffle_epi32, mm_aeskeygenassist. cbv zeta.
  change (sel 0xaa 0) with 2. change (sel 0xaa 1) with 2. change (sel 0xaa 2) with 2.
  change (sel 0xaa 3) with 2.
  by rewrite !lane32_of_lanes32 by (auto with aurora || lia).
Qed.

(** The eight words that follow a window of eight, in the standard's order. *)
Definition half_words (t a0 a1 a2 a3 : Z) : list Z :=
  let c0 := Z.lxor a0 t in let c1 := Z.lxor a1 c0 in
  let c2 := Z.lxor a2 c1 in [c0; c1; c2; Z.lxor a3 c2].

Lemma next_word_app m pre l :
  length pre = (8 * m)%nat -> (8 <= length l)%nat ->
  next_word (pre ++ l) = pre ++ (l ++ [Z.lxor (nth (length l - 8) l 0)
    (let temp := nth (length l - 1) l 0 in
     if (length l mod 8 =? 0)%nat then Z.lxor (sub_word (rot_word temp)) (rcon (m + length l / 8))
     else if (length l mod 8 =? 4)%nat then sub_word temp else temp)]).
Proof.
  intros Hp Hl. unfold next_word. cbv zeta. rewrite length_app, Hp.
  replace ((8 * m + length l) mod 8)%nat with (length l mod 8)%nat
    by (rewrite Nat.add_comm, Nat.mul_comm; symmetry; apply Nat.Div0.mod_add).
  replace ((8 * m + length l) / 8)%nat with (m + length l / 8)%nat
    by (rewrite Nat.add_comm, (Nat.mul_comm 8), Nat.add_comm, Nat.div_add_l by lia; lia).
  rewrite <- (app_assoc pre). do 3 f_equal.
  rewrite (app_nth2 pre l), (app_nth2 pre l) by lia. rewrite Hp.
  replace (8 * m + length l - 8 - 8 * m)%nat with (length l - 8)%nat by lia.
  replace (8 * m + length l - 1 - 8 * m)%nat with (length l - 1)%nat by lia. done.
Qed.

Lemma next_words_1 m pre a0 a1 a2 a3 b0 b1 b2 b3 :
  length pre = (8 * m)%nat ->
  Nat.iter 4 next_word (pre ++ [a0; a1; a2; a3; b0; b1; b2; b3]) =
  pre ++ [a0; a1; a2; a3; b0; b1; b2; b3] ++
    half_words (Z.lxor (sub_word (rot_word b3)) (rcon (m + 1))) a0 a1 a2 a3.
Proof.
  intros Hp. cbn [Nat.iter nat_rect].
  do 4 (rewrite (next_word_app m) by (simpl; lia); cbn [length app nth Nat.sub Nat.eqb Nat.modulo Nat.divmod fst snd Nat.div]).
  done.
Qed.

Lemma next_words_2 m pre a0 a1 a2 a3 b0 b1 b2 b3 c0 c1 c2 c3 :
  length pre = (8 * m)%nat ->
  Nat.iter 4 next_word (pre ++ [a0; a1; a2; a3; b0; b1; b2; b3; c0; c1; c2; c3]) =
  pre ++ [a0; a1; a2; a3; b0; b1; b2; b3; c0; c1; c2; c3] ++ half_words (sub_word c3) b0 b1 b2 b3.
Proof.
  intros Hp. cbn [Nat.iter nat_rect].
  do 4 (rewrite (next_word_app m) by (simpl; lia);
    cbn [length app nth Nat.sub Nat.eqb Nat.modulo Nat.divmod fst snd Nat.div]).
  done.
Qed.

(** The registers hold the last eight words of the schedule [w] and the round
    keys written so far are its words, four at a time. *)
Record expand_inv (m : nat) (w : list Z) (st : expand_state) : Prop := {
  inv_split : exists pre a0 a1 a2 a3 b0 b1 b2 b3,
    w = pre ++ [a0; a1; a2; a3; b0; b1; b2; b3] /\ length pre = (8 * m)%nat /\
    X0 st = of_lanes32 a0 a1 a2 a3 /\ X2 st = of_lanes32 b0 b1 b2 b3;
  inv_range : Forall is_u32 w;
  inv_X3 : lane32 (X3 st) 0 = 0;
  inv_keys : out_keys st = pack w
}.

Lemma half_words_range t a0 a1 a2 a3 :
  Forall is_u32 [t; a0; a1; a2; a3] -> Forall is_u32 (half_words t a0 a1 a2 a3).
Proof.
  rewrite !Forall_cons. intros (? & ? & ? & ? & ? & _).
  unfold half_words. cbv zeta. forall_list; auto 8 with aurora.
Qed.

Lemma expand_key_1_inv m w st s :
  expand_inv m w st -> s = rcon (m + 1) -> is_u32 s ->
  out_keys (EXPAND_KEY_1 s st) = pack (Nat.iter 4 next_word w) /\
  Forall is_u32 (Nat.iter 4 next_word w).
Proof.
  intros [(pre & a0 & a1 & a2 & a3 & b0 & b1 & b2 & b3 & -> & Hp & E0 & E2) Hr H3 Hk] -> Hs.
  rewrite (next_words_1 m) by done. pose proof Hr as Hr'.
  rewrite Forall_app, !Forall_cons in Hr'. destruct Hr' as (_ & ? & ? & ? & ? & ? & ? & ? & ? & _).
  unfold EXPAND_KEY_1. cbn [out_keys]. rewrite E0, E2, keygen_ff, Hk by done. cbv zeta.
  set (t := Z.lxor _ (rcon (m + 1))).
  assert (is_u32 t) by (subst t; auto with aurora).
  destruct (expand_xor a0 a1 a2 a3 (X3 st) t) as [_ ->]; [done..|]. split.
  - rewrite (app_assoc pre), (pack_app (2 * m + 2) (pre ++ _)) by (rewrite length_app; simpl; lia). done.
  - rewrite app_assoc. apply Forall_app. split; [done|]. apply half_words_range. by forall_list.
Qed.

Lemma expand_key_12_inv m w st s :
  expand_inv m w st -> s = rcon (m + 1) -> is_u32 s ->
  expand_inv (m + 1) (Nat.iter 8 next_word w) (EXPAND_KEY_2 s (EXPAND_KEY_1 s st)).
Proof.
  intros Hinv Hs Hs'. destruct (expand_key_1_inv m w st s Hinv Hs Hs') as [Hk1 Hr1].
  destruct Hinv as [(pre & a0 & a1 & a2 & a3 & b0 & b1 & b2 & b3 & -> & Hp & E0 & E2) Hr H3 Hk].
  subst s. change 8%nat with (4 + 4)%nat. rewrite Nat.iter_add.
  rewrite (next_words_1 m) in * by done. pose proof Hr as Hr'.
  rewrite Forall_app, !Forall_cons in Hr'. destruct Hr' as (_ & ? & ? & ? & ? & ? & ? & ? & ? & _).
  set (t := Z.lxor _ (rcon (m + 1))) in *. assert (is_u32 t) by (subst t; auto with aurora).
  unfold half_words in *. set (c0 := Z.lxor a0 t) in *. set (c1 := Z.lxor a1 c0) in *.
  set (c2 := Z.lxor a2 c1) in *. set (c3 := Z.lxor a3 c2) in *.
  assert (is_u32 c0 /\ is_u32 c1 /\ is_u32 c2 /\ is_u32 c3) as (? & ? & ? & ?)
    by (subst c0 c1 c2 c3; auto 10 with aurora).
  destruct (expand_xor a0 a1 a2 a3 (X3 st) t) as [L1 EX]; [done..|].
  assert (X0 (EXPAND_KEY_1 (rcon (m + 1)) st) = of_lanes32 c0 c1 c2 c3) as E0'.
  { unfold EXPAND_KEY_1. cbn [X0]. rewrite E0, E2, keygen_ff by done. exact EX. }
  assert (X2 (EXPAND_KEY_1 (rcon (m + 1)) st) = of_lanes32 b0 b1 b2 b3) as E2' by exact E2.
  assert (lane32 (X3 (EXPAND_KEY_1 (rcon (m + 1)) st)) 0 = 0) as L3.
  { unfold EXPAND_KEY_1. cbn [X3]. rewrite E0. exact L1. }
  revert E0' E2' L3 Hk1. generalize (EXPAND_KEY_1 (rcon (m + 1)) st). clear st E0 E2 H3 Hk L1 EX.
  intros st E0 E2 H3 Hk.
  cbn [app] in Hk, Hr1 |- *.
  rewrite (next_words_2 m pre a0 a1 a2 a3 b0 b1 b2 b3 c0 c1 c2 c3) by done.
  destruct (expand_xor b0 b1 b2 b3 (X3 st) (sub_word c3)) as [L2 EX2]; [auto with aurora..|].
  split.
  - exists (pre ++ [a0; a1; a2; a3; b0; b1; b2; b3]), c0, c1, c2, c3. do 4 eexists.
    split; [|split; [rewrite length_app; simpl; lia|split; [exact E0|]]].
    + rewrite <- app_assoc. unfold half_words. cbn [app]. done.
    + unfold EXPAND_KEY_2. cbn [X2]. rewrite E0, E2, keygen_aa by done. exact EX2.
  - rewrite app_assoc. apply Forall_app. split; [done|]. apply half_words_range.
    forall_list; auto with aurora.
  - unfold EXPAND_KEY_2. cbn [X3]. rewrite E2. exact L2.
  - unfold EXPAND_KEY_2. cbn [out_keys]. rewrite Hk, E0, E2, keygen_aa by done. cbv zeta.
    rewrite EX2, (app_assoc pre), (pack_app (2 * m + 3) (pre ++ _)) by (rewrite length_app; simpl; lia). done.
Qed.

Lemma le_bytes_of_lanes32 a b c d :
  le_bytes 16 (of_lanes32 a b c d) =
  le_bytes 4 a ++ le_bytes 4 b ++ le_bytes 4 c ++ le_bytes 4 d.
Proof.
  change 16%nat with (4 + (4 + (4 + 4)))%nat. rewrite !le_bytes_app, !Z.shiftr_shiftr by lia.
  f_equal; [|f_equal; [|f_equal]]; apply le_bytes_ext;
    apply Z.bits_inj'; intros i Hi; rewrite !testbit_wrap, ?Z.shiftr_spec by lia;
    rewrite testbit_of_lanes32; change (8 * Z.of_nat 4) with 32 in *;
    repeat split_ltb; simpl; f_equal; lia.
Qed.

Lemma mm_load_words l :
  bytes l -> (16 <= length l)%nat ->
  mm_load l = of_lanes32 (le_val (take 4 l)) (le_val (take 4 (drop 4 l)))
    (le_val (take 4 (drop 8 l))) (le_val (take 4 (drop 12 l))).
Proof.
  intros Hb Hl.
  assert (forall k, (k <= 12)%nat -> le_bytes 4 (le_val (take 4 (drop k l))) = take 4 (drop k l)) as E.
  { intros k Hk. replace 4%nat with (length (take 4 (drop k l))) at 1
      by (rewrite length_take, length_drop; lia).
    apply le_bytes_le_val. auto with bytes. }
  rewrite <- (mm_load_store (of_lanes32 _ _ _ _)) by apply is_m128_of_lanes32.
  pose proof (E 0%nat ltac:(lia)) as E0. rewrite drop_0 in E0.
  unfold mm_store. rewrite le_bytes_of_lanes32, !E, E0 by lia. unfold mm_load. f_equal.
  rewrite (take_ge (take 4 l ++ _)) by (autorewrite with lens; lia).
  change (drop 12 l) with (drop (8 + 4) l). rewrite <- (drop_drop l 4 8), take_take_drop.
  change (drop 8 l) with (drop (4 + 4) l). rewrite <- (drop_drop l 4 4), take_take_drop.
  by rewrite take_take_drop.
Qed.

Lemma key_schedule key :
  bytes key -> length key = 32%nat -> aesni_key256_expand key = pack (KeyExpansion key).
Proof.
  intros Hb Hl.
  assert (expand_inv 0 (words 8 key)
    (ExpandState (mm_load key) (mm_load (drop 16 key)) mm_setzero [mm_load key; mm_load (drop 16 key)])) as I0.
  { rewrite (mm_load_words key), (mm_load_words (drop 16 key))
      by (auto with bytes || (autorewrite with lens; lia)).
    rewrite !drop_drop. cbn [words]. rewrite !drop_drop. split.
    - exists []. do 8 eexists. done.
    - assert (forall k, is_u32 (le_val (take 4 (drop k key)))) as H.
      { intros k. pose proof (le_val_range _ (bytes_take 4 _ (bytes_drop k _ Hb))) as [H0 H1].
        split; [done|]. eapply Z.lt_le_trans; [exact H1|]. apply Z.pow_le_mono_r; [lia|].
        rewrite length_take. lia. }
      forall_list; auto. apply (H 0%nat).
    - done.
    - done. }
  apply (expand_key_12_inv 0 _ _ 0x01) in I0; [|done|unfold is_u32; lia].
  apply (expand_key_12_inv 1 _ _ 0x02) in I0; [|done|unfold is_u32; lia].
  apply (expand_key_12_inv 2 _ _ 0x04) in I0; [|done|unfold is_u32; lia].
  apply (expand_key_12_inv 3 _ _ 0x08) in I0; [|done|unfold is_u32; lia].
  apply (expand_key_12_inv 4 _ _ 0x10) in I0; [|done|unfold is_u32; lia].
  apply (expand_key_12_inv 5 _ _ 0x20) in I0; [|done|unfold is_u32; lia].
  apply (expand_key_1_inv 6 _ _ 0x40) in I0 as [I0 _]; [|done|unfold is_u32; lia].
  unfold aesni_key256_expand, KeyExpansion. cbv zeta. rewrite I0, <- !Nat.iter_add.
  f_equal.
Qed.

(** * The cipher *)

Lemma length_KeyExpansion key : length (KeyExpansion key) = 60%nat.
Proof.
  assert (forall n w, length (Nat.iter n next_word w) = (length w + n)%nat) as H.
  { induction n as [|n IH]; intros w; [simpl; lia|]. rewrite Nat.iter_succ. unfold next_word at 1.
    rewrite length_app, IH. simpl. lia. }
  unfold KeyExpansion. rewrite H. simpl. lia.
Qed.

Lemma rkey_pack w r :
  (4 * r + 4 <= length w)%nat -> mm_store (rkey (pack w) r) = round_key w r.
Proof.
  unfold round_key, rkey. revert w. induction r as [|r IH]; intros w Hw;
    destruct w as [|a [|b [|c [|d w]]]]; simpl in Hw; try lia.
  - cbn [pack nth]. unfold mm_store. rewrite le_bytes_of_lanes32, Nat.mul_0_r, drop_0.
    cbn [take firstn fmap list_fmap concat]. by rewrite app_nil_r.
  - cbn [pack nth]. rewrite IH by lia. do 3 f_equal.
    replace (4 * S r)%nat with (S (S (S (S (4 * r))))) by lia. done.
Qed.

Lemma is_byte_xtime x : is_byte x -> is_byte (xtime x).
Proof.
  intros Hx. unfold xtime. rewrite land_ff. case_match; auto with bytes.
Qed.

Lemma bytes_shift_rows s : bytes s -> bytes (shift_rows s).
Proof. intros Hs. apply Forall_fmap, Forall_true. intros. by apply bytes_nth. Qed.

Lemma bytes_mix_columns s : bytes s -> bytes (mix_columns s).
Proof.
  intros Hs. assert (forall a b c d, is_byte a -> is_byte b -> is_byte c -> is_byte d ->
    bytes (mix_column a b c d)).
  { intros. unfold mix_column. cbv zeta.
    forall_list; auto 8 using is_byte_lxor, is_byte_xtime. }
  unfold mix_columns. cbv zeta. auto 10 using bytes_app, bytes_nth.
Qed.

Lemma sub_shift_rows s :
  length s = 16%nat -> sub_bytes (shift_rows s) = shift_rows (sub_bytes s).
Proof.
  intros Hl. unfold shift_rows, sub_bytes. rewrite <- list_fmap_compose.
  apply list_fmap_ext. intros k i Hi. apply lookup_seq in Hi as [-> Hi]. cbn.
  set (j := (_ + _)%nat). assert (j < length s)%nat as Hj.
  { subst j. rewrite Hl. pose proof (Nat.mod_upper_bound k 4 ltac:(lia)).
    pose proof (Nat.mod_upper_bound (k / 4 + k mod 4) 4 ltac:(lia)). lia. }
  symmetry. apply nth_lookup_Some. rewrite list_lookup_fmap.
  destruct (nth_lookup_or_length s j 0) as [->|]; [done|lia].
Qed.

Lemma store_lxor_val l k :
  bytes l -> length l = 16%nat -> mm_store (Z.lxor (le_val l) k) = xor_bytes l (mm_store k).
Proof.
  intros Hb Hl. unfold mm_store. rewrite le_bytes_lxor. f_equal. rewrite <- Hl.
  by apply le_bytes_le_val.
Qed.

Lemma store_aesenc x k :
  mm_store (mm_aesenc x k) =
  AddRoundKey (mix_columns (shift_rows (sub_bytes (mm_store x)))) (mm_store k).
Proof.
  unfold mm_aesenc. rewrite store_lxor_val.
  - by rewrite sub_shift_rows by apply length_le_bytes.
  - apply bytes_mix_columns, bytes_sub_bytes.
  - done.
Qed.

Lemma store_aesenclast x k :
  mm_store (mm_aesenclast x k) = AddRoundKey (shift_rows (sub_bytes (mm_store x))) (mm_store k).
Proof.
  unfold mm_aesenclast. rewrite store_lxor_val.
  - by rewrite sub_shift_rows by apply length_le_bytes.
  - apply bytes_sub_bytes.
  - unfold sub_bytes, shift_rows. by rewrite !length_fmap, length_seq.
Qed.

(** The block cipher of the standard under [key]. *)
Definition aes256 (key input : list Z) : list Z := Cipher input (KeyExpansion key).

Lemma encrypt1_aes256 nv key :
  bytes key -> length key = 32%nat ->
  aesni_encrypt1 nv (aesni_key256_expand key) = aes256 key (mm_store nv).
Proof.
  intros Hb Hl. rewrite key_schedule by done. unfold aesni_encrypt1, aes256, Cipher. cbv zeta.
  pose proof (length_KeyExpansion key) as HK. cbn [seq foldl]. unfold Round.
  rewrite store_aesenclast, !store_aesenc. unfold mm_store at 1. unfold mm_xor.
  rewrite le_bytes_lxor.
  change (le_bytes 16 (rkey ?w ?r)) with (mm_store (rkey w r)).
  rewrite !rkey_pack by lia. done.
Qed.

(** * Eight counter blocks at once *)

(** The vector of counter value [n[3] + a]. *)
Definition ctr_nv (n : ctr_block) (a : nat) : m128 :=
  mm_shuffle_epi8 (load_n (add_n3 n (Z.of_nat a))) pt.

Lemma u32_add_u32 x k : u32 (u32 x + k) = u32 (x + k).
Proof. unfold wrap. by rewrite Zplus_mod_idemp_l. Qed.

Lemma add_n3_add n j k : add_n3 (add_n3 n j) k = add_n3 n (j + k).
Proof. unfold add_n3. cbn. by rewrite u32_add_u32, Z.add_assoc. Qed.

Lemma load_n_add0 n : load_n (add_n3 n 0) = load_n n.
Proof.
  unfold load_n, add_n3. cbn. unfold of_lanes32. by rewrite wrap_wrap, Z.add_0_r.
Qed.

Lemma MAKE_NV_spec k n :
  fst (MAKE_NV k n) = ctr_nv n <$> seq 0 k /\
  (is_u32 (n_3 n) -> snd (MAKE_NV k n) = add_n3 n (Z.of_nat k)).
Proof.
  revert n. induction k as [|k IH]; intros n.
  { split; [done|]. intros Hn. destruct n. unfold add_n3. cbn in *.
    by rewrite Z.add_0_r, wrap_small. }
  cbn [MAKE_NV]. destruct (MAKE_NV k (add_n3 n 1)) as [nvs n'] eqn:E.
  destruct (IH (add_n3 n 1)) as [H1 H2]. rewrite E in H1, H2. cbn [fst snd] in *. split.
  - rewrite H1. cbn [seq fmap list_fmap]. f_equal; [unfold ctr_nv; by rewrite load_n_add0|].
    rewrite <- seq_shift, <- list_fmap_compose. apply list_fmap_ext. intros i a _.
    unfold compose, ctr_nv. rewrite add_n3_add.
    replace (1 + Z.of_nat a) with (Z.of_nat (S a)) by lia. done.
  - intros _. rewrite H2 by (apply wrap_range; lia). rewrite add_n3_add. f_equal. lia.
Qed.

Lemma temps8_spec n rkeys :
  mm_store <$> fst (aes_temps8 n rkeys) =
    (fun a => aesni_encrypt1 (ctr_nv n a) rkeys) <$> seq 0 8 /\
  (is_u32 (n_3 n) -> snd (aes_temps8 n rkeys) = add_n3 n 8).
Proof.
  unfold aes_temps8. pose proof (MAKE_NV_spec 8 n) as [H1 H2].
  destruct (MAKE_NV 8 n) as [nvs n']. cbn [fst snd] in *. split; [|exact H2].
  rewrite H1. cbn [seq foldl]. rewrite <- !list_fmap_compose. done.
Qed.

Lemma length_aes_temps8 n rkeys : length (fst (aes_temps8 n rkeys)) = 8%nat.
Proof.
  pose proof (temps8_spec n rkeys) as [H _]. apply (f_equal length) in H.
  by rewrite !length_fmap, length_seq in H.
Qed.

(** The bytes of a counter block: the nonce and the big-endian counter. *)
Lemma store_ctr_nv n a :
  mm_store (ctr_nv n a) =
  le_bytes 4 (n_0 n) ++ le_bytes 4 (n_1 n) ++ le_bytes 4 (n_2 n) ++
    reverse (le_bytes 4 (u32 (n_3 n + Z.of_nat a))).
Proof.
  unfold ctr_nv, mm_shuffle_epi8, load_n. rewrite le_bytes_of_lanes32. cbn [n_0 n_1 n_2 n_3 add_n3].
  unfold mm_store.
  set (l := fmap _ pt). replace 16%nat with (length l) by done.
  rewrite le_bytes_le_val.
  - subst l. generalize (u32 (n_3 n + Z.of_nat a)). intros c. cbn [le_bytes]. reflexivity.
  - subst l. apply Forall_fmap, Forall_true. intros k.
    unfold compose. cbv beta. destruct (Z.testbit k 7); [unfold is_byte; lia|apply bytes_nth; auto 10 with bytes].
Qed.

(** * Properties *)

(** C37 The AES-NI key expansion and block encryption compute AES-256 as FIPS-197
    defines it, for every 32-byte key and 16-byte block. *)
Theorem aesni_fips197 key input :
  bytes key -> length key = 32%nat -> bytes input -> length input = 16%nat ->
  aesni_encrypt1 (mm_load input) (aesni_key256_expand key) = Cipher input (KeyExpansion key).
Proof.
  intros Hk Hkl Hi Hil. rewrite encrypt1_aes256 by done. unfold aes256.
  by rewrite mm_store_load.
Qed.

Lemma aesni_fips197_witness :
  let key := replicate 32 0xca in
  let input := replicate 16 0xff in
  aesni_encrypt1 (mm_load input) (aesni_key256_expand key) = Cipher input (KeyExpansion key).
Proof.
  apply aesni_fips197; try apply bytes_replicate; try reflexivity; unfold is_byte; lia.
Defined.

(** The eight-block routine encrypts eight successive counter values with the
    single-block routine and advances the 32-bit counter by eight, modulo 2^32. *)
Theorem encrypt8_encrypt1 n rkeys :
  is_u32 (n_3 n) ->
  aesni_encrypt8 n rkeys =
  (concat ((fun a => aesni_encrypt1 (ctr_nv n a) rkeys) <$> [0; 1; 2; 3; 4; 5; 6; 7]%nat),
   add_n3 n 8).
Proof.
  intros Hn. unfold aesni_encrypt8. destruct (temps8_spec n rkeys) as [H1 H2].
  destruct (aes_temps8 n rkeys) as [temps n']. cbn [fst snd] in *. rewrite H1, H2 by done. done.
Qed.

Lemma encrypt8_encrypt1_witness :
  let n := Ctr 1 2 3 0xffffffff in
  snd (aesni_encrypt8 n []) = Ctr 1 2 3 7.
Proof. cbv zeta. rewrite encrypt8_encrypt1; [reflexivity|]. unfold is_u32; cbn; lia. Defined.
