(* ===== verification/AesGcm.v ===== *)
(** AES-256-GCM authenticated encryption of aead_aes256gcm_aesni.c: the combined
    and detached modes, built on [Aes] and [Gf128], proved equal to the
    construction of NIST SP 800-38D. *)

From Stdlib Require Import ZArith Lia Bool.
From stdpp Require Import base list.
From S2P Require Import Prelude Intrinsics Gf128 Aes.
Import Gf128.Code Gf128.Spec.

(** * Constants of crypto_aead_aes256gcm.h, for a 32-bit [size_t] *)

Definition crypto_aead_aes256gcm_KEYBYTES : nat := 32.
Definition crypto_aead_aes256gcm_NPUBBYTES : nat := 12.
Definition crypto_aead_aes256gcm_ABYTES : nat := 16.
Definition SODIUM_SIZE_MAX : Z := Z.min (2 ^ 64 - 1) (2 ^ 32 - 1).
Definition crypto_aead_aes256gcm_MESSAGEBYTES_MAX : Z :=
  Z.min (SODIUM_SIZE_MAX - 16) (16 * (2 ^ 32 - 2) - 16).

(** * The code *)

Record context := Context { ctx_H : list Z; ctx_rkeys : list m128 }.

Definition crypto_aead_aes256gcm_beforenm (k : list Z) : context :=
  let rkeys := aesni_key256_expand k in
  let H := aesni_encrypt1 mm_setzero rkeys in
  Context H rkeys.

Definition bswap64 (x : Z) : Z :=
  let shl n m := Z.land (u64 (Z.shiftl x n)) m in
  let shr n m := Z.land (Z.shiftr x n) m in
  Z.lor (Z.lor (Z.lor (shl 56 0xFF00000000000000) (shl 40 0x00FF000000000000))
               (Z.lor (shl 24 0x0000FF0000000000) (shl 8 0x000000FF00000000)))
        (Z.lor (Z.lor (shr 8 0x00000000FF000000) (shr 24 0x0000000000FF0000))
               (Z.lor (shr 40 0x000000000000FF00) (shr 56 0x00000000000000FF))).

(** The block of the two bit lengths. *)
Definition length_block (adlen mlen : nat) : list Z :=
  le_bytes 8 (bswap64 (u64 (8 * Z.of_nat adlen))) ++
  le_bytes 8 (bswap64 (u64 (8 * Z.of_nat mlen))).

(** The hash key and its powers, byte-reverted. *)
Record powers := Powers { Hv : m128; H2v : m128; H3v : m128; H4v : m128 }.

Definition hash_powers (H : list Z) : powers :=
  let Hv := mm_shuffle_epi8 (mm_load H) rev in
  let H2v := mulv Hv Hv in
  let H3v := mulv H2v Hv in
  let H4v := mulv H3v Hv in
  Powers Hv H2v H3v H4v.

(** [MULREDUCE4] with the powers of the hash key. *)
Definition mulreduce4 (p : powers) (X0 X1 X2 X3 accv : m128) : m128 :=
  MULREDUCE4 (Hv p) (H2v p) (H3v p) (H4v p) X0 X1 X2 X3 accv.

(** The loop over the 64-byte groups of the additional data. *)
Fixpoint ad_loop64 (p : powers) (k : nat) (ad : list Z) (accv : m128) : m128 :=
  match k with
  | O => accv
  | S k =>
      let X4_ := mm_load ad in
      let X3_ := mm_load (drop 16 ad) in
      let X2_ := mm_load (drop 32 ad) in
      let X1_ := mm_load (drop 48 ad) in
      ad_loop64 p k (drop 64 ad) (mulreduce4 p X1_ X2_ X3_ X4_ accv)
  end.

(** The remainder loop, 16 bytes at a time with a short last block. *)
Fixpoint addmul_loop (H : m128) (fuel : nat) (l : list Z) (accum : m128) : m128 :=
  match fuel, l with
  | S fuel, _ :: _ =>
      let blocklen := if (length l <? 16)%nat then length l else 16%nat in
      addmul_loop H fuel (drop 16 l) (addmul accum l blocklen H)
  | _, _ => accum
  end.

(** The additional data, absorbed by both loops. *)
Definition absorb_ad (p : powers) (ad : list Z) : m128 :=
  let k := (length ad / 64)%nat in
  let accv := ad_loop64 p k ad mm_setzero in
  addmul_loop (Hv p) (length ad) (drop (64 * k) ad) accv.

(** Absorb eight vectors with two aggregated reductions. *)
Definition mulreduce8 (p : powers) (temps : list m128) (accum : m128) : m128 :=
  let temp i := nth i temps 0 in
  let accv_ := mulreduce4 p (temp 3%nat) (temp 2%nat) (temp 1%nat) (temp 0%nat) accum in
  mulreduce4 p (temp 7%nat) (temp 6%nat) (temp 5%nat) (temp 4%nat) accv_.

(** [in##a] for [a] below 8. *)
Definition load8 (inp : list Z) : list m128 :=
  (fun a => mm_load (drop (a * 16) inp)) <$> seq 0 8.

Definition aesni_encrypt8full (p : powers) (n : ctr_block) (rkeys : list m128)
    (inp : list Z) (accum : m128) : list Z * ctr_block * m128 :=
  let '(temps, n') := aes_temps8 n rkeys in
  let temps := zip_with mm_xor temps (load8 inp) in
  (concat (mm_store <$> temps), n', mulreduce8 p temps accum).

Definition aesni_addmul8full (p : powers) (inp : list Z) (accum : m128) : m128 :=
  mulreduce8 p (load8 inp) accum.

Definition aesni_decrypt8full (n : ctr_block) (rkeys : list m128) (inp : list Z)
    : list Z * ctr_block :=
  let '(temps, n') := aes_temps8 n rkeys in
  let temps := zip_with mm_xor temps (load8 inp) in
  (concat (mm_store <$> temps), n').

(** Encryption of the 128-byte groups. *)
Fixpoint LOOPRND128 (p : powers) (rkeys : list m128) (k : nat) (m : list Z)
    (n2 : ctr_block) (accum : m128) : list Z * ctr_block * m128 :=
  match k with
  | O => ([], n2, accum)
  | S k =>
      let '(out, n2, accum) := aesni_encrypt8full p n2 rkeys (take 128 m) accum in
      let '(c, n2, accum) := LOOPRND128 p rkeys k (drop 128 m) n2 accum in
      (out ++ c, n2, accum)
  end.

(** Encryption of the remainder. *)
Fixpoint LOOPRMD128 (p : powers) (rkeys : list m128) (fuel : nat) (m : list Z)
    (n2 : ctr_block) (accum : m128) : list Z * ctr_block * m128 :=
  match fuel, m with
  | S fuel, _ :: _ =>
      let '(outni, n2) := aesni_encrypt8 n2 rkeys in
      let mj := if (length m <=? 128)%nat then length m else 128%nat in
      let c := xor_bytes (take mj m) outni in
      let accum := addmul_loop (Hv p) mj c accum in
      let '(c', n2, accum) := LOOPRMD128 p rkeys fuel (drop 128 m) n2 accum in
      (c ++ c', n2, accum)
  | _, _ => ([], n2, accum)
  end.

(** [n2] from the nonce, with a given last word. *)
Definition nonce_block (npub : list Z) (n3 : Z) : ctr_block :=
  Ctr (le_val (take 4 npub)) (le_val (take 4 (drop 4 npub))) (le_val (take 4 (drop 8 npub))) n3.

(** Returns the ciphertext and the tag, or [None] when the length check calls
    [sodium_misuse]. *)
Definition crypto_aead_aes256gcm_encrypt_detached_afternm
    (m ad npub : list Z) (ctx : context) : option (list Z * list Z) :=
  let rkeys := ctx_rkeys ctx in
  let mlen := length m in
  let H := ctx_H ctx in
  if crypto_aead_aes256gcm_MESSAGEBYTES_MAX <? Z.of_nat mlen then None else
  let n2 := nonce_block npub 0x01000000 in
  let T := aesni_encrypt1 (load_n n2) rkeys in
  let fb := length_block (length ad) mlen in
  let p := hash_powers H in
  let accum := absorb_ad p ad in
  let n2 := nonce_block npub (Z.land (n_3 n2) 0x00ffffff) in
  let n2 := add_n3 n2 2 in
  let k := (mlen / 128)%nat in
  let '(c1, n2, accum) := LOOPRND128 p rkeys k m n2 accum in
  let '(c2, n2, accum) := LOOPRMD128 p rkeys mlen (drop (128 * k) m) n2 accum in
  let accum := addmul accum fb 16 (Hv p) in
  let mac := xor_bytes T (reverse (mm_store accum)) in
  Some (c1 ++ c2, mac).

(** Ciphertext followed by the tag; [*clen_p] is its length. *)
Definition crypto_aead_aes256gcm_encrypt_afternm
    (m ad npub : list Z) (ctx : context) : option (list Z) :=
  match crypto_aead_aes256gcm_encrypt_detached_afternm m ad npub ctx with
  | Some (c, mac) => Some (c ++ mac)
  | None => None
  end.

Definition crypto_aead_aes256gcm_encrypt_detached (m ad npub k : list Z) : option (list Z * list Z) :=
  crypto_aead_aes256gcm_encrypt_detached_afternm m ad npub (crypto_aead_aes256gcm_beforenm k).

Definition crypto_aead_aes256gcm_encrypt (m ad npub k : list Z) : option (list Z) :=
  crypto_aead_aes256gcm_encrypt_afternm m ad npub (crypto_aead_aes256gcm_beforenm k).

(** Absorption of the 128-byte groups of the ciphertext. *)
Fixpoint LOOPACCUMDRND128 (p : powers) (k : nat) (c : list Z) (accum : m128) : m128 :=
  match k with
  | O => accum
  | S k => LOOPACCUMDRND128 p k (drop 128 c) (aesni_addmul8full p (take 128 c) accum)
  end.

(** Absorption of the remainder. *)
Fixpoint LOOPACCUMDRMD128 (p : powers) (fuel : nat) (c : list Z) (accum : m128) : m128 :=
  match fuel, c with
  | S fuel, _ :: _ =>
      let mj := if (length c <=? 128)%nat then length c else 128%nat in
      LOOPACCUMDRMD128 p fuel (drop 128 c) (addmul_loop (Hv p) mj (take mj c) accum)
  | _, _ => accum
  end.

(** Decryption of the 128-byte groups. *)
Fixpoint LOOPDRND128 (rkeys : list m128) (k : nat) (c : list Z) (n2 : ctr_block)
    : list Z * ctr_block :=
  match k with
  | O => ([], n2)
  | S k =>
      let '(out, n2) := aesni_decrypt8full n2 rkeys (take 128 c) in
      let '(m, n2) := LOOPDRND128 rkeys k (drop 128 c) n2 in
      (out ++ m, n2)
  end.

(** Decryption of the remainder. *)
Fixpoint LOOPDRMD128 (rkeys : list m128) (fuel : nat) (c : list Z) (n2 : ctr_block)
    : list Z * ctr_block :=
  match fuel, c with
  | S fuel, _ :: _ =>
      let mj := if (length c <=? 128)%nat then length c else 128%nat in
      let '(outni, n2) := aesni_encrypt8 n2 rkeys in
      let m := xor_bytes (take mj c) outni in
      let '(m', n2) := LOOPDRMD128 rkeys fuel (drop 128 c) n2 in
      (m ++ m', n2)
  | _, _ => ([], n2)
  end.

(** The accumulated difference [d] of the received and the computed tag. *)
Definition tag_diff (mac T accum_rev : list Z) : Z :=
  foldl (fun d x => Z.lor d x) 0 (take 16 (xor_bytes mac (xor_bytes T accum_rev))).

(** Returns the code's result and the bytes it writes to [m]; [m_null] tells
    whether the caller passed a null [m].  [None] when the length check calls
    [sodium_misuse]. *)
Definition crypto_aead_aes256gcm_decrypt_detached_afternm
    (m_null : bool) (c mac ad npub : list Z) (ctx : context) : option (Z * list Z) :=
  let rkeys := ctx_rkeys ctx in
  let clen := length c in
  if crypto_aead_aes256gcm_MESSAGEBYTES_MAX <? Z.of_nat clen then None else
  let mlen := clen in
  let n2 := nonce_block npub 0x01000000 in
  let T := aesni_encrypt1 (load_n n2) rkeys in
  let fb := length_block (length ad) mlen in
  let p := hash_powers (ctx_H ctx) in
  let accum := absorb_ad p ad in
  let k := (mlen / 128)%nat in
  let accum := LOOPACCUMDRND128 p k c accum in
  let accum := LOOPACCUMDRMD128 p mlen (drop (128 * k) c) accum in
  let accum := addmul accum fb 16 (Hv p) in
  let d := tag_diff mac T (reverse (mm_store accum)) in
  if negb (d =? 0) then Some (-1, if m_null then [] else replicate mlen 0)
  else if m_null then Some (0, []) else
  let n2 := add_n3 (nonce_block npub 0) 2 in
  let '(m1, n2) := LOOPDRND128 rkeys k c n2 in
  let '(m2, n2) := LOOPDRMD128 rkeys mlen (drop (128 * k) c) n2 in
  Some (0, m1 ++ m2).

(** Result, bytes written to [m] and the value stored in [*mlen_p]. *)
Definition crypto_aead_aes256gcm_decrypt_afternm
    (m_null : bool) (c ad npub : list Z) (ctx : context) : option (Z * list Z * Z) :=
  let clen := length c in
  if (crypto_aead_aes256gcm_ABYTES <=? clen)%nat then
    match crypto_aead_aes256gcm_decrypt_detached_afternm m_null
            (take (clen - crypto_aead_aes256gcm_ABYTES) c)
            (drop (clen - crypto_aead_aes256gcm_ABYTES) c) ad npub ctx with
    | Some (ret, m) =>
        Some (ret, m, if ret =? 0 then Z.of_nat (clen - crypto_aead_aes256gcm_ABYTES) else 0)
    | None => None
    end
  else Some (-1, [], 0).

Definition crypto_aead_aes256gcm_decrypt_detached
    (m_null : bool) (c mac ad npub k : list Z) : option (Z * list Z) :=
  crypto_aead_aes256gcm_decrypt_detached_afternm m_null c mac ad npub
    (crypto_aead_aes256gcm_beforenm k).

Definition crypto_aead_aes256gcm_decrypt
    (m_null : bool) (c ad npub k : list Z) : option (Z * list Z * Z) :=
  crypto_aead_aes256gcm_decrypt_afternm m_null c ad npub (crypto_aead_aes256gcm_beforenm k).

(** * NIST SP 800-38D *)

Module Gcm.
Section Gcm.
Context (key npub : list Z).

(** Big-endian bytes of an integer. *)
Definition be_bytes (n : nat) (x : Z) : list Z := reverse (le_bytes n x).

(** The counter block with a 96-bit nonce. *)
Definition counter_block (c : Z) : list Z := npub ++ be_bytes 4 (u32 c).

(** The hash subkey, the encryption of the zero block. *)
Definition hash_key : Z := block (aes256 key (replicate 16 0)).

(** Counter mode from counter value [c]. *)
Fixpoint gctr (fuel : nat) (c : Z) (m : list Z) : list Z :=
  match fuel, m with
  | S fuel, _ :: _ =>
      xor_bytes (take 16 m) (aes256 key (counter_block c)) ++ gctr fuel (c + 1) (drop 16 m)
  | _, _ => []
  end.

(** The blocks of a byte string, the last one zero padded. *)
Fixpoint blocks (fuel : nat) (l : list Z) : list Z :=
  match fuel, l with
  | S fuel, _ :: _ => block (take 16 l) :: blocks fuel (drop 16 l)
  | _, _ => []
  end.

Definition ghash (xs : list Z) : Z := foldl (ghash_step hash_key) 0 xs.

Definition ciphertext (m : list Z) : list Z := gctr (length m) 2 m.

Definition tag (ad c : list Z) : list Z :=
  let len_block := be_bytes 8 (8 * Z.of_nat (length ad)) ++ be_bytes 8 (8 * Z.of_nat (length c)) in
  let s := ghash (blocks (length ad) ad ++ blocks (length c) c ++ [block len_block]) in
  xor_bytes (aes256 key (counter_block 1)) (be_bytes 16 s).

End Gcm.
End Gcm.

(** * Counter mode *)

Lemma length_encrypt1 nv rkeys : length (aesni_encrypt1 nv rkeys) = 16%nat.
Proof. apply length_le_bytes. Qed.

Lemma bytes_encrypt1 nv rkeys : bytes (aesni_encrypt1 nv rkeys).
Proof. apply bytes_le_bytes. Qed.

#[local] Opaque aes256 aesni_encrypt1 gmul.

(** [k] blocks of the stream [E] from position [c]. *)
Definition stream (E : Z -> list Z) (c : Z) (k : nat) : list Z :=
  concat ((fun i => E (c + Z.of_nat i)) <$> seq 0 k).

Lemma stream_S E c k : stream E c (S k) = E c ++ stream E (c + 1) k.
Proof.
  unfold stream. cbn [seq fmap list_fmap concat]. rewrite Z.add_0_r. f_equal.
  rewrite <- fmap_S_seq, <- list_fmap_compose. f_equal. apply list_fmap_ext.
  intros i j _. cbn [compose]. f_equal. lia.
Qed.

Lemma foldl_cons {A B} (f : A -> B -> A) a x l : foldl f a (x :: l) = foldl f (f a x) l.
Proof. reflexivity. Qed.

Lemma take_min_length {A} n (l : list A) : take (min (length l) n) l = take n l.
Proof. destruct (Nat.le_gt_cases n (length l)).
  - by rewrite Nat.min_r by lia.
  - by rewrite Nat.min_l, !take_ge by lia.
Qed.

Lemma chunk_len n k : (if (n <=? k)%nat then n else k) = min n k.
Proof. destruct (Nat.leb_spec n k); lia. Qed.

(** The first block of a list that has one. *)
Lemma split16 l :
  bytes l -> (16 <= length l)%nat ->
  exists x r, l = x ++ r /\ (bytes x /\ length x = 16%nat) /\ bytes r.
Proof.
  intros Hb Hl. exists (take 16 l), (drop 16 l). rewrite take_drop, length_take.
  auto using Nat.min_l with bytes.
Qed.

Section Proofs.
Context (key npub : list Z).
Abbreviation E c := (aes256 key (Gcm.counter_block npub c)).
Abbreviation gctr := (Gcm.gctr key npub).
Abbreviation blocks := (Gcm.blocks).

Lemma gctr_nil f c : gctr f c [] = [].
Proof. by destruct f. Qed.

Lemma blocks_nil f : blocks f [] = [].
Proof. by destruct f. Qed.

(** Fuel beyond the length of the message changes nothing. *)
Lemma gctr_fuel f1 f2 c m :
  (length m <= f1)%nat -> (length m <= f2)%nat -> gctr f1 c m = gctr f2 c m.
Proof.
  revert f2 c m. induction f1 as [|f1 IH]; intros f2 c m H1 H2.
  - destruct m; [by rewrite !gctr_nil|simpl in H1; lia].
  - destruct m as [|x m]; [by rewrite !gctr_nil|]. destruct f2 as [|f2]; [simpl in H2; lia|].
    cbn [Gcm.gctr]. f_equal. apply IH; rewrite length_drop; simpl in *; lia.
Qed.

Lemma blocks_fuel f1 f2 l :
  (length l <= f1)%nat -> (length l <= f2)%nat -> blocks f1 l = blocks f2 l.
Proof.
  revert f2 l. induction f1 as [|f1 IH]; intros f2 l H1 H2.
  - destruct l; [by rewrite !blocks_nil|simpl in H1; lia].
  - destruct l as [|x l]; [by rewrite !blocks_nil|]. destruct f2 as [|f2]; [simpl in H2; lia|].
    cbn [Gcm.blocks]. f_equal. apply IH; rewrite length_drop; simpl in *; lia.
Qed.

(** One block of counter mode, whatever the fuel. *)
Lemma gctr_step f c m :
  (length m <= f)%nat -> m <> [] ->
  gctr f c m = xor_bytes (take 16 m) (E c) ++ gctr f (c + 1) (drop 16 m).
Proof.
  intros Hf Hm. destruct f as [|f], m as [|x m]; try done; [simpl in Hf; lia|].
  rewrite (gctr_fuel (S f) f (c + 1)) by (rewrite length_drop; simpl in *; lia). reflexivity.
Qed.

Lemma blocks_step f l :
  (length l <= f)%nat -> l <> [] -> blocks f l = block (take 16 l) :: blocks f (drop 16 l).
Proof.
  intros Hf Hl. destruct f as [|f], l as [|x l]; try done; [simpl in Hf; lia|].
  rewrite (blocks_fuel (S f) f (drop _ _)) by (rewrite length_drop; simpl in *; lia). reflexivity.
Qed.

Lemma blocks_S f x l :
  blocks (S f) (x :: l) = block (take 16 (x :: l)) :: blocks f (drop 16 (x :: l)).
Proof. reflexivity. Qed.

(** Both distribute over a prefix of whole blocks. *)
Lemma gctr_app f c k a b :
  length a = (16 * k)%nat -> (length (a ++ b) <= f)%nat ->
  gctr f c (a ++ b) = gctr f c a ++ gctr f (c + Z.of_nat k) b.
Proof.
  revert c a. induction k as [|k IH]; intros c a Ha Hf; rewrite length_app in Hf.
  - destruct a; [|simpl in Ha; lia]. rewrite gctr_nil, Z.add_0_r. done.
  - assert (a <> []) by (intros ->; simpl in Ha; lia).
    assert (a ++ b <> []) by (intros [? _]%app_eq_nil; done).
    rewrite (gctr_step f c (a ++ b)), (gctr_step f c a) by (rewrite ?length_app; done || lia).
    rewrite take_app_le, drop_app_le by lia. rewrite (IH (c + 1)), <- app_assoc.
    + do 3 f_equal. lia.
    + rewrite length_drop. lia.
    + rewrite length_app, length_drop. lia.
Qed.

Lemma blocks_app f k a b :
  length a = (16 * k)%nat -> (length (a ++ b) <= f)%nat ->
  blocks f (a ++ b) = blocks f a ++ blocks f b.
Proof.
  revert a. induction k as [|k IH]; intros a Ha Hf; rewrite length_app in Hf.
  - destruct a; [|simpl in Ha; lia]. by rewrite blocks_nil.
  - assert (a <> []) by (intros ->; simpl in Ha; lia).
    assert (a ++ b <> []) by (intros [? _]%app_eq_nil; done).
    rewrite (blocks_step f (a ++ b)), (blocks_step f a) by (rewrite ?length_app; done || lia).
    rewrite take_app_le, drop_app_le by lia. rewrite IH; [done|..].
    + rewrite length_drop. lia.
    + rewrite length_app, length_drop. lia.
Qed.

Context (Hkey : bytes key) (Hkl : length key = 32%nat).
Context (Hnpub : bytes npub) (Hnl : length npub = 12%nat).

Lemma length_counter_block c : length (Gcm.counter_block npub c) = 16%nat.
Proof.
  unfold Gcm.counter_block, Gcm.be_bytes.
  rewrite length_app, length_reverse, length_le_bytes, Hnl. done.
Qed.

Lemma bytes_counter_block c : bytes (Gcm.counter_block npub c).
Proof. apply bytes_app; [done|]. apply Forall_reverse, bytes_le_bytes. Qed.

Lemma store_load l : bytes l -> length l = 16%nat -> mm_store (mm_load l) = l.
Proof.
  intros Hb Hl. unfold mm_store, mm_load.
  rewrite take_ge, <- Hl, le_bytes_le_val by (done || lia). done.
Qed.

(** The block cipher is the code's, on any 16-byte input. *)
Lemma aes256_code input :
  bytes input -> length input = 16%nat ->
  aes256 key input = aesni_encrypt1 (mm_load input) (aesni_key256_expand key).
Proof.
  intros Hb Hl. rewrite encrypt1_aes256, store_load by done. reflexivity.
Qed.

Lemma length_aes256 input :
  bytes input -> length input = 16%nat -> length (aes256 key input) = 16%nat.
Proof. intros. rewrite aes256_code by done. apply length_encrypt1. Qed.

Lemma bytes_aes256 input :
  bytes input -> length input = 16%nat -> bytes (aes256 key input).
Proof. intros. rewrite aes256_code by done. apply bytes_encrypt1. Qed.

Lemma length_E c : length (E c) = 16%nat.
Proof. apply length_aes256; [apply bytes_counter_block|apply length_counter_block]. Qed.

Lemma bytes_E c : bytes (E c).
Proof. apply bytes_aes256; [apply bytes_counter_block|apply length_counter_block]. Qed.

Abbreviation keystream := (stream (fun c => E c)).

Lemma length_keystream c k : length (keystream c k) = (16 * k)%nat.
Proof.
  revert c. induction k as [|k IH]; intros c; [done|].
  rewrite stream_S, length_app, length_E, IH. lia.
Qed.

(** A message of at most [k] blocks is xored with [k] blocks of keystream. *)
Lemma gctr_keystream f k c m :
  (length m <= 16 * k)%nat -> (length m <= f)%nat ->
  gctr f c m = xor_bytes m (keystream c k).
Proof.
  revert f c m. induction k as [|k IH]; intros f c m Hm Hf.
  - destruct m; [by rewrite gctr_nil|simpl in Hm; lia].
  - destruct (decide (m = [])) as [->|Hne]; [by rewrite gctr_nil|].
    rewrite gctr_step by done. rewrite stream_S.
    unfold xor_bytes. rewrite zip_with_app_r, length_E. f_equal.
    apply IH; rewrite length_drop; lia.
Qed.

Lemma length_gctr f c m : (length m <= f)%nat -> length (gctr f c m) = length m.
Proof.
  intros Hf. rewrite (gctr_keystream f (length m)) by lia.
  rewrite length_xor_bytes, length_keystream. lia.
Qed.

Lemma bytes_gctr f c m : bytes m -> bytes (gctr f c m).
Proof.
  revert c m. induction f as [|f IH]; intros c [|x m] Hm; cbn [Gcm.gctr]; [done..|].
  apply bytes_app; [apply bytes_xor; [by apply bytes_take|apply bytes_E]|].
  by apply IH, bytes_drop.
Qed.

(** Counter mode is its own inverse. *)
Lemma gctr_involutive f c m : (length m <= f)%nat -> gctr f c (gctr f c m) = m.
Proof.
  intros Hf. rewrite (gctr_keystream f (length m) c (gctr f c m));
    rewrite ?length_gctr by lia; try lia.
  rewrite (gctr_keystream f (length m)) by lia.
  apply xor_bytes_involutive. rewrite length_keystream. lia.
Qed.

Lemma blocks_block f x r :
  length x = 16%nat -> (length (x ++ r) <= f)%nat -> blocks f (x ++ r) = block x :: blocks f r.
Proof.
  intros Hx Hf. rewrite blocks_step by (try (intros [-> _]%app_eq_nil); done).
  by rewrite take_app_length', drop_app_length' by done.
Qed.

Lemma mm_load_app x r : length x = 16%nat -> mm_load (x ++ r) = mm_load x.
Proof. intros Hx. unfold mm_load. by rewrite take_app_length', take_ge by lia. Qed.

(** * Absorption *)

Section Absorb.
Context (H : Z) (HH : is_m128 H).
Abbreviation step := (ghash_step H).
Abbreviation pw := (Powers H (mulv H H) (mulv (mulv H H) H) (mulv (mulv (mulv H H) H) H)).

Lemma is_m128_step acc X : is_m128 (step acc X).
Proof. by apply gmul_range. Qed.

Lemma is_m128_absorb acc l : is_m128 acc -> is_m128 (foldl step acc l).
Proof. revert acc. induction l as [|X l IH]; intros acc Ha; [done|]. apply IH, is_m128_step. Qed.

Lemma addmul_loop_S f x l acc :
  addmul_loop H (S f) (x :: l) acc =
  addmul_loop H f (drop 16 (x :: l)) (addmul acc (x :: l) (min (length (x :: l)) 16) H).
Proof.
  unfold addmul_loop. generalize addmul. intros g. cbv beta iota. do 2 f_equal.
  destruct (Nat.ltb_spec (length (x :: l)) 16); lia.
Qed.

Lemma addmul_loop_spec f l acc :
  bytes l -> addmul_loop H f l acc = foldl step acc (blocks f l).
Proof.
  revert l acc. induction f as [|f IH]; intros [|x l] acc Hb; [done..|].
  rewrite addmul_loop_S, blocks_S, foldl_cons, IH by (by apply bytes_drop).
  rewrite addmul_step by (assumption || lia). by rewrite take_min_length.
Qed.

Lemma mulreduce4_loads x1 x2 x3 x4 acc :
  is_m128 acc -> Forall (fun x => bytes x /\ length x = 16%nat) [x1; x2; x3; x4] ->
  mulreduce4 pw (mm_load x4) (mm_load x3) (mm_load x2) (mm_load x1) acc =
  foldl step acc [block x1; block x2; block x3; block x4].
Proof.
  intros Ha HF. unfold mulreduce4. cbn [Hv H2v H3v H4v].
  rewrite mulreduce4_blocks; [reflexivity|assumption..|]. exact (proj2 (Forall_reverse _ _) HF).
Qed.

Lemma ad_loop64_unfold p k ad acc :
  ad_loop64 p (S k) ad acc =
  let ad1 := drop 16 ad in
  let ad2 := drop 16 ad1 in
  let ad3 := drop 16 ad2 in
  ad_loop64 p k (drop 16 ad3)
    (mulreduce4 p (mm_load ad3) (mm_load ad2) (mm_load ad1) (mm_load ad) acc).
Proof. cbv zeta. rewrite !drop_drop. unfold ad_loop64. generalize mulreduce4. reflexivity. Qed.

Lemma ad_loop64_S k x1 x2 x3 x4 r acc :
  Forall (fun x => bytes x /\ length x = 16%nat) [x1; x2; x3; x4] ->
  ad_loop64 pw (S k) (x1 ++ x2 ++ x3 ++ x4 ++ r) acc =
  ad_loop64 pw k r (mulreduce4 pw (mm_load x4) (mm_load x3) (mm_load x2) (mm_load x1) acc).
Proof.
  rewrite !Forall_cons. intros ([_ L1] & [_ L2] & [_ L3] & [_ L4] & _).
  rewrite ad_loop64_unfold. cbv zeta.
  rewrite !drop_app_length', !mm_load_app by done. reflexivity.
Qed.

Lemma ad_loop64_spec k ad acc f :
  bytes ad -> is_m128 acc -> (64 * k <= length ad)%nat -> (64 * k <= f)%nat ->
  ad_loop64 pw k ad acc = foldl step acc (blocks f (take (64 * k) ad)).
Proof.
  revert ad acc f. induction k as [|k IH]; intros ad acc f Hb Ha Hl Hf.
  - by rewrite Nat.mul_0_r, take_0, blocks_nil.
  - destruct (split16 ad Hb ltac:(lia)) as (x1 & ad1 & -> & Hx1 & Hb1).
    destruct (split16 ad1 Hb1) as (x2 & ad2 & -> & Hx2 & Hb2);
      [rewrite length_app in Hl; lia|].
    destruct (split16 ad2 Hb2) as (x3 & ad3 & -> & Hx3 & Hb3);
      [rewrite !length_app in Hl; lia|].
    destruct (split16 ad3 Hb3) as (x4 & r & -> & Hx4 & Hb4);
      [rewrite !length_app in Hl; lia|].
    rewrite ad_loop64_S by (forall_list; done).
    rewrite mulreduce4_loads by (try forall_list; done).
    rewrite (IH _ _ f); [|done|by apply is_m128_absorb|rewrite !length_app in Hl; lia|lia].
    rewrite <- foldl_app. f_equal.
    replace (64 * S k)%nat with (16 + (16 + (16 + (16 + 64 * k))))%nat by lia.
    rewrite !take_app_add' by lia.
    rewrite !blocks_block by (rewrite ?length_app, ?length_take; lia). done.
Qed.

Lemma absorb_ad_spec ad :
  bytes ad -> absorb_ad pw ad = foldl step 0 (blocks (length ad) ad).
Proof.
  intros Hb. unfold absorb_ad. cbv zeta. cbn [Hv].
  pose proof (Nat.Div0.mul_div_le (length ad) 64) as Hk.
  set (k := (length ad / 64)%nat) in *.
  assert (is_m128 mm_setzero) by (by split).
  rewrite (ad_loop64_spec k ad _ (length ad)) by (done || lia).
  rewrite addmul_loop_spec, <- foldl_app by (by apply bytes_drop).
  rewrite <- (blocks_app _ (4 * k)); rewrite ?take_drop, ?length_take; try lia. done.
Qed.

Lemma mulreduce4_store p X0 X1 X2 X3 acc :
  mulreduce4 p (mm_load (mm_store X0)) (mm_load (mm_store X1)) (mm_load (mm_store X2))
    (mm_load (mm_store X3)) acc = mulreduce4 p X0 X1 X2 X3 acc.
Proof.
  assert (forall X, RED_SHUFFLE (mm_load (mm_store X)) = RED_SHUFFLE X) as HS.
  { intros X. unfold RED_SHUFFLE. rewrite !shuffle_rev. do 2 f_equal. apply store_load.
    - apply bytes_le_bytes.
    - apply length_le_bytes. }
  unfold mulreduce4, MULREDUCE4. cbv zeta. rewrite !HS. reflexivity.
Qed.

#[local] Opaque mulreduce4.

Lemma blocks_concat f xs :
  Forall (fun x => length x = 16%nat) xs -> (length (concat xs) <= f)%nat ->
  blocks f (concat xs) = block <$> xs.
Proof.
  induction 1 as [|x xs Hx Hxs IH]; cbn [concat]; intros Hf; [by rewrite blocks_nil|].
  rewrite blocks_block, IH by (done || rewrite length_app in Hf; lia). done.
Qed.

Lemma mulreduce4_absorb X0 X1 X2 X3 acc :
  is_m128 acc ->
  mulreduce4 pw X0 X1 X2 X3 acc =
  foldl step acc [block (mm_store X3); block (mm_store X2); block (mm_store X1);
    block (mm_store X0)].
Proof.
  intros Ha. rewrite <- mulreduce4_store.
  apply mulreduce4_loads; [assumption|].
  forall_list; (split; [apply bytes_le_bytes|apply length_le_bytes]).
Qed.

(** Two aggregated reductions absorb eight blocks. *)
Lemma mulreduce8_spec temps acc f :
  length temps = 8%nat -> is_m128 acc -> (128 <= f)%nat ->
  mulreduce8 pw temps acc = foldl step acc (blocks f (concat (mm_store <$> temps))).
Proof.
  intros Hl Ha Hf. do 8 (destruct temps as [|? temps]; [discriminate|]).
  destruct temps; [|discriminate].
  assert (forall X, bytes (mm_store X) /\ length (mm_store X) = 16%nat) as HB
    by (split; [apply bytes_le_bytes|apply length_le_bytes]).
  rewrite blocks_concat.
  - unfold mulreduce8. cbv zeta. cbn [nth].
    match goal with |- mulreduce4 _ _ _ _ _ ?a = _ => remember a as acc' eqn:Hacc' end.
    rewrite mulreduce4_absorb in Hacc' by assumption.
    rewrite mulreduce4_absorb by (rewrite Hacc'; by apply is_m128_absorb). rewrite Hacc'.
    rewrite <- foldl_app. reflexivity.
  - forall_list; apply HB.
  - cbn [fmap list_fmap concat]. rewrite !length_app, !(proj2 (HB _)). cbn. lia.
Qed.

End Absorb.

(** * The eight-block kernels *)

Abbreviation rkeys := (aesni_key256_expand key).

(** The counter block of the code at counter value [c]. *)
Definition ctr_at (c : Z) : ctr_block := nonce_block npub (u32 c).

Lemma add_ctr_at c k : add_n3 (ctr_at c) k = ctr_at (c + k).
Proof. unfold ctr_at, add_n3. cbn. by rewrite u32_add_u32. Qed.

Lemma nonce_words :
  le_bytes 4 (n_0 (ctr_at 0)) ++ le_bytes 4 (n_1 (ctr_at 0)) ++ le_bytes 4 (n_2 (ctr_at 0)) = npub.
Proof.
  cbn [ctr_at nonce_block n_0 n_1 n_2].
  assert (forall l, bytes l -> length l = 4%nat -> le_bytes 4 (le_val l) = l) as HL
    by (intros l Hb <-; by apply le_bytes_le_val).
  rewrite !HL by (rewrite ?length_take, ?length_drop, ?Hnl; auto with bytes).
  rewrite (take_ge (drop 8 npub)) by (rewrite length_drop; lia).
  change (drop 8 npub) with (drop (4 + 4) npub). rewrite <- drop_drop, !take_drop. done.
Qed.

Lemma store_nv c a : mm_store (ctr_nv (ctr_at c) a) = Gcm.counter_block npub (c + Z.of_nat a).
Proof.
  rewrite store_ctr_nv. unfold Gcm.counter_block, Gcm.be_bytes. rewrite !app_assoc.
  apply (f_equal2 app); [rewrite <- app_assoc; exact nonce_words|].
  cbn [ctr_at nonce_block n_3]. by rewrite u32_add_u32.
Qed.

(** The eight cipher blocks are eight blocks of keystream. *)
Lemma temps8_keystream c :
  concat (mm_store <$> fst (aes_temps8 (ctr_at c) rkeys)) = keystream c 8 /\
  snd (aes_temps8 (ctr_at c) rkeys) = ctr_at (c + 8).
Proof.
  destruct (temps8_spec (ctr_at c) rkeys) as [H1 H2]. split.
  - rewrite H1. unfold stream. f_equal. apply list_fmap_ext. intros i a _.
    by rewrite encrypt1_aes256, store_nv by done.
  - rewrite H2 by (apply (wrap_range 32); lia). apply add_ctr_at.
Qed.

Lemma encrypt8_keystream c : aesni_encrypt8 (ctr_at c) rkeys = (keystream c 8, ctr_at (c + 8)).
Proof.
  unfold aesni_encrypt8. destruct (temps8_keystream c) as [H1 H2].
  destruct (aes_temps8 _ _) as [temps n']. cbn [fst snd] in *. by rewrite H1, H2.
Qed.

Lemma concat_store_xor xs ys :
  length xs = length ys ->
  concat (mm_store <$> zip_with mm_xor xs ys) =
  xor_bytes (concat (mm_store <$> xs)) (concat (mm_store <$> ys)).
Proof.
  revert ys. induction xs as [|x xs IH]; intros [|y ys] Hl; try discriminate; [done|].
  cbn [zip_with fmap list_fmap concat]. rewrite IH by (simpl in Hl; lia).
  unfold xor_bytes. rewrite zip_with_app by (unfold mm_store; by rewrite !length_le_bytes).
  f_equal. apply le_bytes_lxor.
Qed.

Lemma xor_bytes_comm a b : xor_bytes a b = xor_bytes b a.
Proof.
  revert b. induction a as [|x a IH]; intros [|y b]; [done..|].
  unfold xor_bytes in *. cbn [zip_with]. by rewrite IH, Z.lxor_comm.
Qed.

Lemma concat_store_load k inp :
  bytes inp -> length inp = (16 * k)%nat ->
  concat (mm_store <$> ((fun a => mm_load (drop (a * 16) inp)) <$> seq 0 k)) = inp.
Proof.
  revert inp. induction k as [|k IH]; intros inp Hb Hl; [by destruct inp|].
  cbn [seq fmap list_fmap concat]. rewrite Nat.mul_0_l, drop_0.
  destruct (split16 inp Hb ltac:(lia)) as (x & r & -> & [Hx Hxl] & Hr).
  rewrite mm_load_app, store_load by done. f_equal.
  etrans; [|apply (IH r); [done|rewrite length_app in Hl; lia]].
  rewrite <- fmap_S_seq, <- !list_fmap_compose. f_equal. apply list_fmap_ext. intros i a _.
  cbn [compose]. change (S a * 16)%nat with (16 + a * 16)%nat.
  rewrite <- drop_drop, drop_app_length' by done. done.
Qed.

Lemma length_load8 inp : length (load8 inp) = 8%nat.
Proof. done. Qed.

Lemma decrypt8full_spec f c inp :
  bytes inp -> length inp = 128%nat -> (128 <= f)%nat ->
  aesni_decrypt8full (ctr_at c) rkeys inp = (gctr f c inp, ctr_at (c + 8)).
Proof.
  intros Hb Hl Hf. unfold aesni_decrypt8full. destruct (temps8_keystream c) as [H1 H2].
  pose proof (length_aes_temps8 (ctr_at c) rkeys) as HL.
  destruct (aes_temps8 _ _) as [temps n']. cbn [fst snd] in *. rewrite H2.
  rewrite concat_store_xor, H1 by (by rewrite HL). unfold load8.
  rewrite (concat_store_load 8) by done. rewrite xor_bytes_comm.
  by rewrite (gctr_keystream f 8) by lia.
Qed.

(** Splitting after 128 bytes. *)
Lemma blocks_split f l :
  (length l <= f)%nat -> blocks f l = blocks f (take 128 l) ++ blocks f (drop 128 l).
Proof.
  intros Hf. destruct (Nat.le_gt_cases (length l) 128).
  - by rewrite take_ge, drop_ge, blocks_nil, app_nil_r by lia.
  - rewrite <- (take_drop 128 l) at 1. apply (blocks_app _ 8); rewrite ?take_drop, ?length_take; lia.
Qed.

Lemma gctr_split f c m :
  (length m <= f)%nat -> gctr f c m = gctr f c (take 128 m) ++ gctr f (c + 8) (drop 128 m).
Proof.
  intros Hf. destruct (Nat.le_gt_cases (length m) 128).
  - by rewrite take_ge, drop_ge, gctr_nil, app_nil_r by lia.
  - rewrite <- (take_drop 128 m) at 1. apply (gctr_app _ _ 8); rewrite ?take_drop, ?length_take; lia.
Qed.

Lemma blocks_gctr_split f c m :
  (length m <= f)%nat ->
  blocks f (gctr f c m) =
  blocks f (gctr f c (take 128 m)) ++ blocks f (gctr f (c + 8) (drop 128 m)).
Proof.
  intros Hf. destruct (Nat.le_gt_cases (length m) 128).
  - by rewrite take_ge, drop_ge, gctr_nil, blocks_nil, app_nil_r by lia.
  - rewrite gctr_split by done.
    apply (blocks_app _ 8); rewrite ?length_app, !length_gctr, ?length_take, ?length_drop;
      rewrite ?length_take, ?length_drop; lia.
Qed.

(** * The loops *)

Section Loops.
Context (f : nat) (Hf : (128 <= f)%nat) (H : Z) (HH : is_m128 H).
Abbreviation step := (ghash_step H).
Abbreviation pw := (Powers H (mulv H H) (mulv (mulv H H) H) (mulv (mulv (mulv H H) H) H)).

Lemma encrypt8full_spec c inp acc :
  bytes inp -> length inp = 128%nat -> is_m128 acc ->
  aesni_encrypt8full pw (ctr_at c) rkeys inp acc =
  (gctr f c inp, ctr_at (c + 8), foldl step acc (blocks f (gctr f c inp))).
Proof.
  intros Hb Hl Ha. pose proof (decrypt8full_spec f c inp Hb Hl Hf) as HD.
  unfold aesni_encrypt8full, aesni_decrypt8full in *.
  pose proof (length_aes_temps8 (ctr_at c) rkeys) as HL.
  destruct (aes_temps8 _ _) as [temps n']. cbn [fst] in HL. injection HD as HD1 HD2.
  rewrite (mulreduce8_spec H HH _ acc f), HD1, HD2; [done| |done..].
  by rewrite length_zip_with, HL.
Qed.

Lemma LOOPRND128_S p k m n2 acc :
  LOOPRND128 p rkeys (S k) m n2 acc =
  let '(out, n2, acc) := aesni_encrypt8full p n2 rkeys (take 128 m) acc in
  let '(c, n2, acc) := LOOPRND128 p rkeys k (drop 128 m) n2 acc in
  (out ++ c, n2, acc).
Proof. unfold LOOPRND128. generalize aesni_encrypt8full. reflexivity. Qed.

Lemma LOOPRND128_spec k c m acc :
  bytes m -> (128 * k <= length m)%nat -> (length m <= f)%nat -> is_m128 acc ->
  let out := gctr f c (take (128 * k) m) in
  LOOPRND128 pw rkeys k m (ctr_at c) acc =
  (out, ctr_at (c + 8 * Z.of_nat k), foldl step acc (blocks f out)).
Proof.
  revert c m acc. induction k as [|k IH]; intros c m acc Hb Hk Hl Ha; cbv zeta.
  - rewrite Nat.mul_0_r, take_0, gctr_nil, blocks_nil, Z.add_0_r. done.
  - rewrite LOOPRND128_S, encrypt8full_spec by (rewrite ?length_take; auto with bytes; lia).
    rewrite IH by (rewrite ?length_drop; auto using is_m128_absorb with bytes; lia).
    rewrite (blocks_gctr_split f c (take (128 * S k) m)), (gctr_split f c (take (128 * S k) m))
      by (rewrite length_take; lia).
    rewrite foldl_app. rewrite take_take, Nat.min_l by lia.
    replace (128 * S k)%nat with (128 + 128 * k)%nat by lia. rewrite <- take_drop_commute.
    replace (c + 8 * Z.of_nat (S k)) with (c + 8 + 8 * Z.of_nat k) by lia. done.
Qed.

Lemma LOOPRMD128_S p n x m n2 acc :
  LOOPRMD128 p rkeys (S n) (x :: m) n2 acc =
  let '(outni, n2) := aesni_encrypt8 n2 rkeys in
  let c := xor_bytes (take 128 (x :: m)) outni in
  let acc := addmul_loop (Hv p) (min (length (x :: m)) 128) c acc in
  let '(c', n2, acc) := LOOPRMD128 p rkeys n (drop 128 (x :: m)) n2 acc in
  (c ++ c', n2, acc).
Proof.
  rewrite <- take_min_length. unfold LOOPRMD128. generalize aesni_encrypt8, addmul_loop.
  intros g1 g2. cbv beta iota.
  rewrite chunk_len.
  reflexivity.
Qed.

(** Absorbing at most 128 bytes with their own length as fuel. *)
Lemma addmul_loop_chunk l acc n :
  bytes l -> (length l <= n)%nat -> (length l <= f)%nat ->
  addmul_loop H n l acc = foldl step acc (blocks f l).
Proof.
  intros Hb Hn Hl. rewrite addmul_loop_spec by done. f_equal. by apply blocks_fuel.
Qed.

Lemma LOOPRMD128_spec n c m acc :
  bytes m -> (length m <= n)%nat -> (length m <= f)%nat -> is_m128 acc ->
  exists n2, LOOPRMD128 pw rkeys n m (ctr_at c) acc =
    (gctr f c m, n2, foldl step acc (blocks f (gctr f c m))).
Proof.
  revert c m acc. induction n as [|n IH]; intros c [|x m] acc Hb Hn Hl Ha;
    [by rewrite gctr_nil, blocks_nil; eexists|simpl in Hn; lia|
     by rewrite gctr_nil, blocks_nil; eexists|].
  rewrite LOOPRMD128_S, encrypt8_keystream. cbv zeta. cbn [Hv].
  rewrite <- (gctr_keystream f 8) by (rewrite length_take; lia).
  rewrite addmul_loop_chunk; [|by apply bytes_gctr, bytes_take|
    rewrite length_gctr, length_take by (rewrite length_take; lia); lia..].
  rewrite (blocks_gctr_split f c (x :: m)), (gctr_split f c (x :: m)), foldl_app by done.
  edestruct (IH (c + 8) (drop 128 (x :: m))) as [n2 ->]; [by apply bytes_drop|..].
  - rewrite length_drop. simpl in *; lia.
  - rewrite length_drop. lia.
  - by apply is_m128_absorb.
  - by eexists.
Qed.

Lemma addmul8full_spec inp acc :
  bytes inp -> length inp = 128%nat -> is_m128 acc ->
  aesni_addmul8full pw inp acc = foldl step acc (blocks f inp).
Proof.
  intros Hb Hl Ha. unfold aesni_addmul8full. rewrite (mulreduce8_spec H HH _ acc f) by done.
  unfold load8. by rewrite (concat_store_load 8) by done.
Qed.

Lemma LOOPACCUMDRND128_S p k c acc :
  LOOPACCUMDRND128 p (S k) c acc =
  LOOPACCUMDRND128 p k (drop 128 c) (aesni_addmul8full p (take 128 c) acc).
Proof. unfold LOOPACCUMDRND128. generalize aesni_addmul8full. reflexivity. Qed.

Lemma LOOPACCUMDRND128_spec k c acc :
  bytes c -> (128 * k <= length c)%nat -> (length c <= f)%nat -> is_m128 acc ->
  LOOPACCUMDRND128 pw k c acc = foldl step acc (blocks f (take (128 * k) c)).
Proof.
  revert c acc. induction k as [|k IH]; intros c acc Hb Hk Hl Ha.
  - rewrite Nat.mul_0_r, take_0, blocks_nil. done.
  - rewrite LOOPACCUMDRND128_S, addmul8full_spec by (rewrite ?length_take; auto with bytes; lia).
    rewrite IH by (rewrite ?length_drop; auto using is_m128_absorb with bytes; lia).
    rewrite (blocks_split f (take (128 * S k) c)) by (rewrite length_take; lia).
    rewrite foldl_app, take_take, Nat.min_l by lia.
    replace (128 * S k)%nat with (128 + 128 * k)%nat by lia.
    rewrite <- take_drop_commute. done.
Qed.

Lemma LOOPACCUMDRMD128_S p n x c acc :
  LOOPACCUMDRMD128 p (S n) (x :: c) acc =
  LOOPACCUMDRMD128 p n (drop 128 (x :: c))
    (addmul_loop (Hv p) (min (length (x :: c)) 128) (take 128 (x :: c)) acc).
Proof.
  rewrite <- take_min_length. unfold LOOPACCUMDRMD128. generalize addmul_loop.
  intros g. cbv beta iota.
  rewrite chunk_len.
  reflexivity.
Qed.

Lemma LOOPACCUMDRMD128_spec n c acc :
  bytes c -> (length c <= n)%nat -> (length c <= f)%nat ->
  LOOPACCUMDRMD128 pw n c acc = foldl step acc (blocks f c).
Proof.
  revert c acc. induction n as [|n IH]; intros [|x c] acc Hb Hn Hl;
    [by rewrite blocks_nil|simpl in Hn; lia|by rewrite blocks_nil|].
  rewrite LOOPACCUMDRMD128_S. cbn [Hv].
  rewrite addmul_loop_chunk by (rewrite ?length_take; auto with bytes; lia).
  rewrite IH by (rewrite ?length_drop; auto with bytes; simpl in *; lia).
  by rewrite (blocks_split f (x :: c)), foldl_app by done.
Qed.

Lemma LOOPDRND128_spec k c m :
  bytes m -> (128 * k <= length m)%nat -> (length m <= f)%nat ->
  LOOPDRND128 rkeys k m (ctr_at c) = (gctr f c (take (128 * k) m), ctr_at (c + 8 * Z.of_nat k)).
Proof.
  revert c m. induction k as [|k IH]; intros c m Hb Hk Hl.
  - rewrite Nat.mul_0_r, take_0, gctr_nil, Z.add_0_r. done.
  - cbn [LOOPDRND128]. rewrite (decrypt8full_spec f) by (rewrite ?length_take; auto with bytes; lia).
    rewrite IH by (rewrite ?length_drop; auto with bytes; lia).
    rewrite (gctr_split f c (take (128 * S k) m)) by (rewrite length_take; lia).
    rewrite take_take, Nat.min_l by lia.
    replace (128 * S k)%nat with (128 + 128 * k)%nat by lia. rewrite <- take_drop_commute.
    replace (c + 8 * Z.of_nat (S k)) with (c + 8 + 8 * Z.of_nat k) by lia. done.
Qed.

Lemma LOOPDRMD128_spec n c m :
  (length m <= n)%nat -> (length m <= f)%nat ->
  exists n2, LOOPDRMD128 rkeys n m (ctr_at c) = (gctr f c m, n2).
Proof.
  revert c m. induction n as [|n IH]; intros c [|x m] Hn Hl;
    [by rewrite gctr_nil; eexists|simpl in Hn; lia|by rewrite gctr_nil; eexists|].
  cbn [LOOPDRMD128]. rewrite encrypt8_keystream.
  rewrite chunk_len.
  rewrite take_min_length, <- (gctr_keystream f 8) by (rewrite length_take; lia).
  edestruct (IH (c + 8) (drop 128 (x :: m))) as [n2 ->].
  - rewrite length_drop. simpl in *; lia.
  - rewrite length_drop. lia.
  - rewrite (gctr_split f c (x :: m)) by done. by eexists.
Qed.

End Loops.

(** * The two modes *)

Abbreviation ctx := (crypto_aead_aes256gcm_beforenm key).
Abbreviation Hk := (Gcm.hash_key key).

Lemma store_zero : mm_store mm_setzero = replicate 16 0.
Proof. reflexivity. Qed.

Lemma is_m128_hash_key : is_m128 Hk.
Proof. apply is_m128_block, bytes_aes256; [by apply bytes_replicate|done]. Qed.

Lemma ctx_H_zero : ctx_H ctx = aes256 key (replicate 16 0).
Proof.
  unfold crypto_aead_aes256gcm_beforenm. cbv zeta. cbn [ctx_H].
  rewrite encrypt1_aes256, store_zero by done. reflexivity.
Qed.

Lemma hash_powers_ctx :
  hash_powers (ctx_H ctx) =
  Powers Hk (mulv Hk Hk) (mulv (mulv Hk Hk) Hk) (mulv (mulv (mulv Hk Hk) Hk) Hk).
Proof.
  unfold hash_powers. rewrite ctx_H_zero. cbv zeta. rewrite shuffle_load; [reflexivity|..].
  - apply bytes_aes256; [by apply bytes_replicate|done].
  - apply length_aes256; [by apply bytes_replicate|done].
Qed.

Lemma first_block : aesni_encrypt1 (load_n (nonce_block npub 0x01000000)) rkeys = E 1.
Proof.
  rewrite encrypt1_aes256 by done. apply (f_equal (aes256 key)). unfold load_n, mm_store.
  rewrite le_bytes_of_lanes32. unfold Gcm.counter_block. rewrite !app_assoc.
  apply (f_equal2 app); [rewrite <- app_assoc; exact nonce_words|reflexivity].
Qed.

Lemma testbit_mask x n k i :
  0 <= n -> 0 <= k ->
  Z.testbit (Z.land x (Z.shiftl (Z.ones k) n)) i = (n <=? i) && (i <? n + k) && Z.testbit x i.
Proof.
  intros Hn Hk. rewrite Z.land_spec, andb_comm. f_equal.
  rewrite testbit_shiftl. destruct (Z.leb_spec 0 i), (Z.leb_spec n i); cbn [andb]; try lia.
  - rewrite Z.testbit_ones by done. destruct (Z.leb_spec 0 (i - n)), (Z.ltb_spec (i - n) k),
      (Z.ltb_spec i (n + k)); try lia; done.
  - apply Z.testbit_neg_r. lia.
Qed.

(** The byte swap reverses the bytes of its argument. *)
Lemma bswap64_bytes x : le_bytes 8 (bswap64 x) = reverse (le_bytes 8 x).
Proof.
  unfold bswap64. cbv zeta.
  change 0xFF00000000000000 with (Z.shiftl (Z.ones 8) 56).
  change 0x00FF000000000000 with (Z.shiftl (Z.ones 8) 48).
  change 0x0000FF0000000000 with (Z.shiftl (Z.ones 8) 40).
  change 0x000000FF00000000 with (Z.shiftl (Z.ones 8) 32).
  change 0x00000000FF000000 with (Z.shiftl (Z.ones 8) 24).
  change 0x0000000000FF0000 with (Z.shiftl (Z.ones 8) 16).
  change 0x000000000000FF00 with (Z.shiftl (Z.ones 8) 8).
  change 0x00000000000000FF with (Z.shiftl (Z.ones 8) 0) at 1.
  cbn [le_bytes]. rewrite !land_ff, !Z.shiftr_shiftr by lia.
  unfold reverse. cbn [rev_append].
  repeat (apply (f_equal2 cons); [|]); [..|reflexivity]; apply Z.bits_inj'; intros i Hi;
    rewrite !testbit_wrap by lia; destruct (Z.ltb_spec i 8); [|done|..]; cbn [andb];
    rewrite ?testbit_shiftr, ?Z.lor_spec, ?testbit_mask by lia;
    rewrite ?testbit_wrap, ?testbit_shiftl, ?testbit_shiftr by lia.
  all: repeat split_ltb; cbn [andb orb]; rewrite ?orb_false_r; f_equal; lia.
Qed.

Lemma length_block_spec adlen mlen :
  length_block adlen mlen =
  Gcm.be_bytes 8 (8 * Z.of_nat adlen) ++ Gcm.be_bytes 8 (8 * Z.of_nat mlen).
Proof.
  assert (forall x, le_bytes 8 (bswap64 (u64 x)) = Gcm.be_bytes 8 x) as HB.
  { intros x. rewrite bswap64_bytes. unfold Gcm.be_bytes. by rewrite (le_bytes_wrap 8). }
  unfold length_block. by rewrite !HB.
Qed.

Definition len_block (ad c : list Z) : list Z :=
  Gcm.be_bytes 8 (8 * Z.of_nat (length ad)) ++ Gcm.be_bytes 8 (8 * Z.of_nat (length c)).

Lemma final_tag f ad c :
  (length c <= f)%nat ->
  xor_bytes (E 1) (reverse (mm_store (addmul
    (foldl (ghash_step Hk) (foldl (ghash_step Hk) 0 (blocks (length ad) ad)) (blocks f c))
    (length_block (length ad) (length c)) 16 Hk))) = Gcm.tag key npub ad c.
Proof.
  intros Hf. rewrite length_block_spec. fold (len_block ad c).
  assert (length (len_block ad c) = 16%nat) as HL.
  { unfold len_block, Gcm.be_bytes. by rewrite length_app, !length_reverse, !length_le_bytes. }
  rewrite addmul_step; [|apply bytes_app; apply Forall_reverse, bytes_le_bytes|
    apply is_m128_hash_key|lia|lia].
  unfold Gcm.tag, Gcm.ghash. fold (len_block ad c). rewrite !foldl_app, foldl_cons, take_ge by lia.
  rewrite (blocks_fuel f (length c)) by lia. reflexivity.
Qed.

(** The two loops together process the whole message. *)
Lemma gctr_rejoin f k m :
  (128 * k <= length m)%nat -> (length m <= f)%nat ->
  gctr f 2 (take (128 * k) m) ++ gctr f (2 + 8 * Z.of_nat k) (drop (128 * k) m) = gctr f 2 m /\
  blocks f (gctr f 2 (take (128 * k) m)) ++ blocks f (gctr f (2 + 8 * Z.of_nat k) (drop (128 * k) m))
  = blocks f (gctr f 2 m).
Proof.
  intros Hle Hf.
  assert (gctr f 2 (take (128 * k) m) ++ gctr f (2 + 8 * Z.of_nat k) (drop (128 * k) m) = gctr f 2 m)
    as HG.
  { replace (2 + 8 * Z.of_nat k) with (2 + Z.of_nat (8 * k)) by lia.
    rewrite <- (gctr_app f 2 (8 * k)); rewrite ?take_drop, ?length_take; [done|lia..]. }
  split; [done|]. rewrite <- HG.
  symmetry. apply (blocks_app _ (8 * k)); rewrite ?length_app, !length_gctr;
    rewrite ?length_take, ?length_drop; lia.
Qed.

Lemma encrypt_detached_gcm m ad :
  bytes m -> bytes ad -> Z.of_nat (length m) <= crypto_aead_aes256gcm_MESSAGEBYTES_MAX ->
  crypto_aead_aes256gcm_encrypt_detached_afternm m ad npub ctx =
  let c := Gcm.ciphertext key npub m in Some (c, Gcm.tag key npub ad c).
Proof.
  intros Hm Had Hmax. unfold crypto_aead_aes256gcm_encrypt_detached_afternm. cbv zeta.
  destruct (Z.ltb_spec crypto_aead_aes256gcm_MESSAGEBYTES_MAX (Z.of_nat (length m))); [lia|].
  rewrite hash_powers_ctx. cbn [Hv]. change (ctx_rkeys ctx) with rkeys.
  rewrite first_block, (absorb_ad_spec _ is_m128_hash_key) by done.
  change (add_n3 (nonce_block npub _) 2) with (ctr_at 2).
  pose proof (Nat.Div0.mul_div_le (length m) 128) as Hdiv.
  set (k := (length m / 128)%nat) in *. set (f := max (length m) 128).
  assert (128 <= f)%nat as Hf by lia. pose proof is_m128_hash_key as HH.
  assert (is_m128 0) as H0 by (by split).
  rewrite (LOOPRND128_spec f Hf Hk HH) by (auto using is_m128_absorb with bytes; lia). cbv zeta.
  edestruct (LOOPRMD128_spec f Hf Hk HH (length m) (2 + 8 * Z.of_nat k) (drop (128 * k) m))
    as [n2 ->]; [by apply bytes_drop|rewrite length_drop; lia..|auto using is_m128_absorb|].
  rewrite <- foldl_app. destruct (gctr_rejoin f k m ltac:(lia) ltac:(lia)) as [-> ->].
  unfold Gcm.ciphertext. rewrite (gctr_fuel f (length m)) by lia.
  set (c := gctr (length m) 2 m).
  assert (length c = length m) as HL by (unfold c; by rewrite length_gctr).
  rewrite <- HL. rewrite final_tag by lia. reflexivity.
Qed.

(** The tag comparison is exact. *)
Lemma tag_diff_zero mac T a :
  bytes mac -> bytes T -> bytes a ->
  length mac = 16%nat -> length T = 16%nat -> length a = 16%nat ->
  tag_diff mac T a = 0 <-> mac = xor_bytes T a.
Proof.
  intros Bm BT Ba Lm LT La. unfold tag_diff.
  assert (length (xor_bytes T a) = 16%nat) as LX by (rewrite length_xor_bytes; lia).
  rewrite take_ge by (rewrite length_xor_bytes; lia).
  pose proof (bytes_xor T a BT Ba) as BX. rewrite <- Lm in LX.
  clear LT La Lm BT Ba. revert mac Bm LX BX. generalize (xor_bytes T a) as u. intros u.
  assert (forall mac d, bytes mac -> length u = length mac -> bytes u -> 0 <= d ->
    foldl (fun d x => Z.lor d x) d (xor_bytes mac u) = 0 <-> d = 0 /\ mac = u) as HG.
  { induction u as [|y u IH]; intros [|x mac] d Bm Hl Bu Hd; try discriminate; [simpl; naive_solver|].
    apply Forall_cons in Bm as [Bx Bm]. apply Forall_cons in Bu as [By Bu].
    cbn [xor_bytes zip_with foldl].
    pose proof (is_byte_lxor x y Bx By) as [? _].
    rewrite IH; [|done|simpl in Hl; lia|done|by apply Z.lor_nonneg].
    rewrite Z.lor_eq_0_iff, Z.lxor_eq_0_iff. naive_solver. }
  intros mac Bm HL BX. rewrite HG by (done || lia). naive_solver.
Qed.

Lemma tag_check mac A :
  bytes mac -> length mac = 16%nat ->
  (tag_diff mac (E 1) (reverse (mm_store A)) =? 0) =
  bool_decide (mac = xor_bytes (E 1) (reverse (mm_store A))).
Proof.
  intros Hb Hl. apply eq_true_iff_eq. rewrite Z.eqb_eq, bool_decide_eq_true.
  apply tag_diff_zero; rewrite ?length_reverse; auto using bytes_E, length_E.
  apply Forall_reverse, bytes_le_bytes.
Qed.

Lemma decrypt_detached_gcm m_null c mac ad :
  bytes c -> bytes mac -> length mac = 16%nat -> bytes ad ->
  Z.of_nat (length c) <= crypto_aead_aes256gcm_MESSAGEBYTES_MAX ->
  crypto_aead_aes256gcm_decrypt_detached_afternm m_null c mac ad npub ctx =
  Some (if decide (mac = Gcm.tag key npub ad c)
        then (0, if m_null then [] else Gcm.ciphertext key npub c)
        else (-1, if m_null then [] else replicate (length c) 0)).
Proof.
  intros Hc Hmac Hml Had Hmax. unfold crypto_aead_aes256gcm_decrypt_detached_afternm. cbv zeta.
  destruct (Z.ltb_spec crypto_aead_aes256gcm_MESSAGEBYTES_MAX (Z.of_nat (length c))); [lia|].
  rewrite hash_powers_ctx. cbn [Hv]. change (ctx_rkeys ctx) with rkeys.
  rewrite first_block, (absorb_ad_spec _ is_m128_hash_key) by done.
  change (add_n3 (nonce_block npub 0) 2) with (ctr_at 2).
  pose proof (Nat.Div0.mul_div_le (length c) 128) as Hdiv.
  set (k := (length c / 128)%nat) in *. set (f := max (length c) 128).
  assert (128 <= f)%nat as Hf by lia. pose proof is_m128_hash_key as HH.
  assert (is_m128 0) as H0 by (by split).
  rewrite (LOOPACCUMDRND128_spec f Hf Hk HH) by (auto using is_m128_absorb with bytes; lia).
  rewrite (LOOPACCUMDRMD128_spec f Hf Hk HH) by (rewrite ?length_drop; auto with bytes; lia).
  rewrite <- foldl_app, <- (blocks_app f (8 * k)), take_drop
    by (rewrite ?take_drop, ?length_take; lia).
  rewrite tag_check, final_tag by (done || lia).
  case_bool_decide as Ht; cbn [negb]; [rewrite decide_True by done|by rewrite decide_False by done].
  destruct m_null; [done|].
  rewrite (LOOPDRND128_spec f Hf) by (done || lia).
  edestruct (LOOPDRMD128_spec f Hf (length c) (2 + 8 * Z.of_nat k) (drop (128 * k) c)) as [n2 ->];
    [rewrite length_drop; lia..|].
  rewrite (proj1 (gctr_rejoin f k c Hdiv ltac:(lia))).
  unfold Gcm.ciphertext. by rewrite (gctr_fuel f (length c)) by lia.
Qed.

Lemma length_ciphertext m : length (Gcm.ciphertext key npub m) = length m.
Proof. by apply length_gctr. Qed.

Lemma length_tag ad c : length (Gcm.tag key npub ad c) = 16%nat.
Proof.
  unfold Gcm.tag, Gcm.be_bytes. cbv zeta.
  rewrite length_xor_bytes, length_E, length_reverse, length_le_bytes. done.
Qed.

Lemma bytes_tag ad c : bytes (Gcm.tag key npub ad c).
Proof. apply bytes_xor; [apply bytes_E|]. apply Forall_reverse, bytes_le_bytes. Qed.

Lemma bytes_ciphertext m : bytes m -> bytes (Gcm.ciphertext key npub m).
Proof. apply bytes_gctr. Qed.

Lemma ciphertext_involutive m : Gcm.ciphertext key npub (Gcm.ciphertext key npub m) = m.
Proof.
  unfold Gcm.ciphertext at 1. rewrite length_ciphertext. by apply gctr_involutive.
Qed.

(** The combined mode: ciphertext followed by the tag. *)
Definition sealed (m ad : list Z) : list Z :=
  let c := Gcm.ciphertext key npub m in c ++ Gcm.tag key npub ad c.

Lemma encrypt_sealed m ad :
  bytes m -> bytes ad -> Z.of_nat (length m) <= crypto_aead_aes256gcm_MESSAGEBYTES_MAX ->
  crypto_aead_aes256gcm_encrypt m ad npub key = Some (sealed m ad).
Proof.
  intros. unfold crypto_aead_aes256gcm_encrypt, crypto_aead_aes256gcm_encrypt_afternm.
  by rewrite encrypt_detached_gcm by done.
Qed.

Lemma length_sealed m ad : length (sealed m ad) = (length m + 16)%nat.
Proof. unfold sealed. cbv zeta. by rewrite length_app, length_ciphertext, length_tag. Qed.

Lemma bytes_sealed m ad : bytes m -> bytes (sealed m ad).
Proof. intros. apply bytes_app; [by apply bytes_ciphertext|apply bytes_tag]. Qed.

Lemma decrypt_gcm c ad :
  bytes c -> bytes ad -> (16 <= length c)%nat ->
  Z.of_nat (length c - 16) <= crypto_aead_aes256gcm_MESSAGEBYTES_MAX ->
  let m := Gcm.ciphertext key npub (take (length c - 16) c) in
  crypto_aead_aes256gcm_decrypt false c ad npub key =
  Some (if decide (c = sealed m ad) then (0, m, Z.of_nat (length m))
        else (-1, replicate (length c - 16) 0, 0)).
Proof.
  intros Hc Had Hl Hmax. cbv zeta.
  unfold crypto_aead_aes256gcm_decrypt, crypto_aead_aes256gcm_decrypt_afternm.
  change crypto_aead_aes256gcm_ABYTES with 16%nat.
  rewrite (proj2 (Nat.leb_le 16 (length c)) Hl).
  assert (length (take (length c - 16) c) = (length c - 16)%nat) as HL
    by (rewrite length_take; lia).
  rewrite decrypt_detached_gcm; rewrite ?HL; auto with bytes; [|rewrite length_drop; lia].
  unfold sealed. cbv zeta. rewrite ciphertext_involutive, length_ciphertext, HL.
  destruct (decide (drop _ c = _)) as [E1|E1], (decide (c = _)) as [E2|E2]; try done.
  - destruct E2. by rewrite <- E1, take_drop.
  - destruct E1. rewrite <- (take_drop (length c - 16) c) in E2 at 1. by apply app_inv_head in E2.
Qed.

(** A successful encryption produced the sealed message, and was not too long. *)
Lemma encrypt_inv m ad c :
  bytes m -> bytes ad -> crypto_aead_aes256gcm_encrypt m ad npub key = Some c ->
  c = sealed m ad /\ Z.of_nat (length m) <= crypto_aead_aes256gcm_MESSAGEBYTES_MAX.
Proof.
  intros Hm Had Henc.
  assert (Z.of_nat (length m) <= crypto_aead_aes256gcm_MESSAGEBYTES_MAX) as Hmax.
  { apply Z.nlt_ge. intros Hlt%Z.ltb_lt. revert Henc.
    unfold crypto_aead_aes256gcm_encrypt, crypto_aead_aes256gcm_encrypt_afternm,
      crypto_aead_aes256gcm_encrypt_detached_afternm. by rewrite Hlt. }
  rewrite encrypt_sealed in Henc by done. by injection Henc as <-.
Qed.

(** The message is recovered from the ciphertext part of the sealed message. *)
Lemma sealed_prefix m ad : Gcm.ciphertext key npub (take (length m) (sealed m ad)) = m.
Proof.
  unfold sealed. cbv zeta. rewrite take_app_length' by (by rewrite length_ciphertext).
  apply ciphertext_involutive.
Qed.

End Proofs.

Lemma xor_bytes_cancel a b s :
  (length a <= length s)%nat -> (length b <= length s)%nat ->
  xor_bytes (xor_bytes a s) (xor_bytes b s) = xor_bytes a b.
Proof.
  unfold xor_bytes. revert b s. induction a as [|x a IH]; intros [|y b] [|z s] Ha Hb;
    try done; simpl in Ha, Hb; try lia. cbn [zip_with]. rewrite IH by lia. f_equal.
  rewrite (Z.lxor_comm y), <- Z.lxor_assoc, lxor_cancel_r. done.
Qed.

(** * Properties *)

(** C4 The combined encryption returns, for every message of at most
    [MESSAGEBYTES_MAX] bytes, the counter-mode ciphertext of NIST SP 800-38D
    followed by its GHASH tag. *)
Theorem aes256gcm_encrypt_sp800_38d key npub m ad :
  bytes key -> length key = 32%nat -> bytes npub -> length npub = 12%nat ->
  bytes m -> bytes ad -> Z.of_nat (length m) <= crypto_aead_aes256gcm_MESSAGEBYTES_MAX ->
  crypto_aead_aes256gcm_encrypt m ad npub key =
  let c := Gcm.ciphertext key npub m in Some (c ++ Gcm.tag key npub ad c).
Proof. intros. by apply encrypt_sealed. Qed.

Lemma aes256gcm_encrypt_sp800_38d_witness :
  let key := replicate 32 0xca in
  let npub := replicate 12 0xff in
  crypto_aead_aes256gcm_encrypt [1; 2; 3] [4] npub key =
  let c := Gcm.ciphertext key npub [1; 2; 3] in Some (c ++ Gcm.tag key npub [4] c).
Proof.
  apply aes256gcm_encrypt_sp800_38d; try reflexivity; try (by apply bytes_replicate);
    try (by forall_list).
Defined.

(** C3 Decryption accepts a ciphertext exactly when it is the encryption of the
    message it returns; otherwise it reports -1 and a zero length and has
    overwritten the whole output with zeros. *)
Theorem aes256gcm_decrypt_authentic key npub c ad :
  bytes key -> length key = 32%nat -> bytes npub -> length npub = 12%nat ->
  bytes c -> bytes ad -> (16 <= length c)%nat ->
  Z.of_nat (length c - 16) <= crypto_aead_aes256gcm_MESSAGEBYTES_MAX ->
  (exists m, crypto_aead_aes256gcm_encrypt m ad npub key = Some c /\
     crypto_aead_aes256gcm_decrypt false c ad npub key = Some (0, m, Z.of_nat (length m))) \/
  ((forall m, bytes m -> crypto_aead_aes256gcm_encrypt m ad npub key <> Some c) /\
   crypto_aead_aes256gcm_decrypt false c ad npub key =
     Some (-1, replicate (length c - 16) 0, 0)).
Proof.
  intros Hk Hkl Hn Hnl Hc Had Hl Hmax. rewrite decrypt_gcm by done. cbv zeta.
  set (m := Gcm.ciphertext key npub _).
  assert (length m = (length c - 16)%nat) as HL
    by (unfold m; rewrite length_ciphertext, length_take; lia || done).
  assert (bytes m) as Hm by (unfold m; apply bytes_ciphertext; auto with bytes).
  destruct (decide (c = sealed key npub m ad)) as [E|E].
  - left. exists m. split; [|done]. rewrite encrypt_sealed by (rewrite ?HL; done). by f_equal.
  - right. split; [|done]. intros m' Hm' Henc. apply E.
    destruct (encrypt_inv key npub Hk Hkl Hn Hnl m' ad c Hm' Had Henc) as [-> _].
    assert (m = m') as ->; [|done]. unfold m. rewrite length_sealed, Nat.add_sub by done.
    by apply sealed_prefix.
Qed.

Lemma aes256gcm_decrypt_authentic_witness :
  let key := replicate 32 0xca in
  let npub := replicate 12 0xff in
  let c := replicate 20 0 in
  (exists m, crypto_aead_aes256gcm_encrypt m [] npub key = Some c /\
     crypto_aead_aes256gcm_decrypt false c [] npub key = Some (0, m, Z.of_nat (length m))) \/
  ((forall m, bytes m -> crypto_aead_aes256gcm_encrypt m [] npub key <> Some c) /\
   crypto_aead_aes256gcm_decrypt false c [] npub key = Some (-1, replicate (20 - 16) 0, 0)).
Proof.
  cbv zeta. apply (aes256gcm_decrypt_authentic (replicate 32 0xca) (replicate 12 0xff)
    (replicate 20 0) []); try reflexivity; try (by apply bytes_replicate);
    try (by forall_list). cbn; lia.
Defined.

(** Decrypting what was encrypted under the same key, nonce and additional
    data returns the message and its length, for every message length the code
    accepts. *)
Theorem aes256gcm_roundtrip key npub m ad :
  bytes key -> length key = 32%nat -> bytes npub -> length npub = 12%nat ->
  bytes m -> bytes ad -> Z.of_nat (length m) <= crypto_aead_aes256gcm_MESSAGEBYTES_MAX ->
  exists c, crypto_aead_aes256gcm_encrypt m ad npub key = Some c /\
    length c = (length m + 16)%nat /\
    crypto_aead_aes256gcm_decrypt false c ad npub key = Some (0, m, Z.of_nat (length m)).
Proof.
  intros Hk Hkl Hn Hnl Hm Had Hmax. exists (sealed key npub m ad).
  rewrite encrypt_sealed, length_sealed by done. split_and!; [done..|].
  rewrite decrypt_gcm by (rewrite ?length_sealed, ?Nat.add_sub by done; auto using bytes_sealed; lia).
  cbv zeta. rewrite length_sealed, Nat.add_sub by done.
  rewrite sealed_prefix by done. by rewrite decide_True.
Qed.

Lemma aes256gcm_roundtrip_witness :
  let key := replicate 32 0xca in
  let npub := replicate 12 0xff in
  exists c, crypto_aead_aes256gcm_encrypt [1; 2; 3] [4] npub key = Some c /\
    length c = 19%nat /\
    crypto_aead_aes256gcm_decrypt false c [4] npub key = Some (0, [1; 2; 3], 3).
Proof.
  apply (aes256gcm_roundtrip (replicate 32 0xca) (replicate 12 0xff) [1; 2; 3] [4]);
    try reflexivity; try (by apply bytes_replicate); try (by forall_list).
Defined.

(** Two messages of the same length encrypted under the same key and nonce
    leak their exclusive or: the xor of the ciphertexts is the xor of the
    messages. *)
Theorem aes256gcm_nonce_reuse key npub m1 m2 ad :
  bytes key -> length key = 32%nat -> bytes npub -> length npub = 12%nat ->
  bytes m1 -> bytes m2 -> bytes ad -> length m1 = length m2 ->
  Z.of_nat (length m1) <= crypto_aead_aes256gcm_MESSAGEBYTES_MAX ->
  exists c1 c2,
    crypto_aead_aes256gcm_encrypt m1 ad npub key = Some c1 /\
    crypto_aead_aes256gcm_encrypt m2 ad npub key = Some c2 /\
    take (length m1) (xor_bytes c1 c2) = xor_bytes m1 m2.
Proof.
  intros Hk Hkl Hn Hnl Hm1 Hm2 Had Hl Hmax.
  exists (sealed key npub m1 ad), (sealed key npub m2 ad).
  rewrite !encrypt_sealed by (rewrite <- ?Hl; done). split_and!; [done..|].
  unfold sealed, xor_bytes. cbv zeta.
  rewrite zip_with_take, !take_app_length' by (rewrite length_ciphertext; done).
  unfold Gcm.ciphertext. rewrite <- Hl, !(gctr_keystream _ _ Hk Hkl Hn Hnl (length m1) (length m1)) by lia.
  apply xor_bytes_cancel; rewrite length_keystream by done; lia.
Qed.

Lemma aes256gcm_nonce_reuse_witness :
  let key := replicate 32 0xca in
  let npub := replicate 12 0xff in
  exists c1 c2,
    crypto_aead_aes256gcm_encrypt [1; 2; 3] [4] npub key = Some c1 /\
    crypto_aead_aes256gcm_encrypt [1; 4; 2] [4] npub key = Some c2 /\
    take 3 (xor_bytes c1 c2) = [0; 6; 1].
Proof.
  apply (aes256gcm_nonce_reuse (replicate 32 0xca) (replicate 12 0xff) [1; 2; 3] [1; 4; 2] [4]);
    try reflexivity; try (by apply bytes_replicate); try (by forall_list).
Defined.
