(* ===== verification/Smram.v ===== *)
(** boundary_check.c: the test that a buffer lies inside SMRAM. *)

From Stdlib Require Import ZArith Lia Bool.
From stdpp Require Import base list.
From S2P Require Import Prelude.

Definition SMRAM_SIZE : Z := 0x00010000.
Definition SMRAM_START : Z := 0x000a0000.
Definition SMRAM_END : Z := SMRAM_START + SMRAM_SIZE.

(** [addr] is a 32-bit pointer and [size] an [int]; the arithmetic is unsigned. *)
Definition is_within_smram (addr size : Z) : Z :=
  let start := u32 addr in
  let smram_start := u32 SMRAM_START in
  let smram_end := u32 (SMRAM_END - 1) in
  let end_ := if 0 <? size then u32 (start + size - 1) else start in
  if (start <=? end_) && (smram_start <=? start) && (end_ <=? smram_end) then 1 else 0.

(** The bytes [addr, addr + n) are bytes of SMRAM. *)
Definition in_smram (addr n : Z) : Prop :=
  forall x, addr <= x < addr + n -> SMRAM_START <= x < SMRAM_END.

Lemma is_within_smram_iff addr size :
  0 <= addr < 2 ^ 32 -> - 2 ^ 31 <= size < 2 ^ 31 ->
  is_within_smram addr size = 1 <->
  SMRAM_START <= addr /\ addr + Z.max size 1 <= SMRAM_END.
Proof.
  intros Ha Hs. unfold is_within_smram. cbv zeta. rewrite (wrap_small 32 addr) by lia.
  change (u32 SMRAM_START) with SMRAM_START. change (u32 (SMRAM_END - 1)) with (SMRAM_END - 1).
  set (e := if 0 <? size then _ else _).
  assert (e = if 2 ^ 32 <=? addr + Z.max size 1 - 1 then addr + Z.max size 1 - 1 - 2 ^ 32
              else addr + Z.max size 1 - 1) as ->.
  { unfold e. destruct (Z.ltb_spec 0 size).
    - rewrite Z.max_l by lia. destruct (Z.leb_spec (2 ^ 32) (addr + size - 1)).
      + unfold wrap. symmetry. apply (Z.mod_unique _ _ 1); lia.
      + apply (wrap_small 32); lia.
    - rewrite Z.max_r by lia. destruct (Z.leb_spec (2 ^ 32) (addr + 1 - 1)); lia. }
  unfold SMRAM_END, SMRAM_START, SMRAM_SIZE.
  destruct (Z.leb_spec (2 ^ 32) (addr + Z.max size 1 - 1));
  repeat match goal with |- context [?a <=? ?b] => destruct (Z.leb_spec a b) end; cbn [andb]; lia.
Qed.

(** C33 For every 32-bit pointer and every [int] size the check returns 1 exactly
    when each byte of the buffer (its first byte, for a size that is not
    positive) lies in SMRAM; a buffer that wraps around the address space is
    rejected. *)
Theorem is_within_smram_exact addr size :
  0 <= addr < 2 ^ 32 -> - 2 ^ 31 <= size < 2 ^ 31 ->
  (is_within_smram addr size = 1 <-> in_smram addr (Z.max size 1)) /\
  (is_within_smram addr size = 0 <-> ~ in_smram addr (Z.max size 1)).
Proof.
  intros Ha Hs.
  assert (is_within_smram addr size = 1 <-> in_smram addr (Z.max size 1)) as H.
  { rewrite is_within_smram_iff by done. unfold in_smram. split; intros H; [lia|].
    pose proof (H addr ltac:(lia)). pose proof (H (addr + Z.max size 1 - 1) ltac:(lia)). lia. }
  split; [done|]. rewrite <- H. unfold is_within_smram. cbv zeta. case_match; lia.
Qed.

Lemma is_within_smram_exact_witness :
  (is_within_smram 0xafff0 32 = 1 <-> in_smram 0xafff0 (Z.max 32 1)) /\
  (is_within_smram 0xafff0 32 = 0 <-> ~ in_smram 0xafff0 (Z.max 32 1)).
Proof. apply is_within_smram_exact; lia. Defined.
