(* ===== verification/RdRand.v ===== *)
(** rdrand.c and randombytes.c: the random bytes of the SMM supervisor, drawn
    from the processor with RDRAND.  [cpuid] and the sequence of RDRAND results
    are parameters; the code is compiled for 32 bits. *)

From Stdlib Require Import ZArith Lia Bool.
From stdpp Require Import base list.
From S2P Require Import Prelude.

Definition RDRAND_SUCCESS : Z := 1.
Definition RDRAND_NOT_READY : Z := -1.
Definition RDRAND_SUPPORTED : Z := -2.
Definition RDRAND_UNSUPPORTED : Z := -3.
Definition RDRAND_SUPPORT_UNKNOWN : Z := -4.
Definition RDRAND_MASK : Z := 0x40000000.
Definition RETRY_LIMIT : nat := 10.

(** What [cpuid] returns in eax, ebx, ecx and edx. *)
Record cpu_info := Info { eax : Z; ebx : Z; ecx : Z; edx : Z }.

(** The number of RDRAND instructions executed and the static [supported]. *)
Record rng := Rng { pos : nat; supported : Z }.

Section RdRand.
(** The leaf's registers, and the carry flag and value of the n-th RDRAND. *)
Context (cpuid : Z -> cpu_info) (drng : nat -> bool * Z).

(** * The instruction *)

Definition rdrand16_step (s : rng) : bool * Z * rng :=
  let '(ok, v) := drng (pos s) in (ok, u16 v, Rng (S (pos s)) (supported s)).

Definition rdrand32_step (s : rng) : bool * Z * rng :=
  let '(ok, v) := drng (pos s) in (ok, u32 v, Rng (S (pos s)) (supported s)).

(** Two 32-bit draws; the result is written only when both succeed. *)
Definition rdrand64_step (s : rng) : bool * option Z * rng :=
  let '(ok, xlow, s) := rdrand32_step s in
  if negb ok then (false, None, s) else
  let '(ok, xhigh, s) := rdrand32_step s in
  if negb ok then (false, None, s) else
  (true, Some (Z.lor xlow (Z.shiftl xhigh 32)), s).

(** * Support *)

Definition RdRand_cpuid : Z :=
  let info := cpuid 0 in
  if negb (bool_decide (le_bytes 4 (ebx info) = [0x47; 0x65; 0x6e; 0x75])) (* Genu *)
     || negb (bool_decide (le_bytes 4 (edx info) = [0x69; 0x6e; 0x65; 0x49])) (* ineI *)
     || negb (bool_decide (le_bytes 4 (ecx info) = [0x6e; 0x74; 0x65; 0x6c])) (* ntel *)
  then 0
  else
    let info := cpuid 1 in
    if Z.land (ecx info) RDRAND_MASK =? RDRAND_MASK then 1 else 0.

(** The result of [cpuid] is cached in the static variable. *)
Definition RdRand_isSupported (s : rng) : bool * rng :=
  let s :=
    if supported s =? RDRAND_SUPPORT_UNKNOWN then
      Rng (pos s) (if negb (RdRand_cpuid =? 0) then RDRAND_SUPPORTED else RDRAND_UNSUPPORTED)
    else s in
  (supported s =? RDRAND_SUPPORTED, s).

(** * One value.  The result is the return code and the last value written to
      the destination, if any. *)

Fixpoint attempts (step : rng -> bool * option Z * rng) (n : nat) (w : option Z) (s : rng)
    : Z * option Z * rng :=
  match n with
  | O => (RDRAND_NOT_READY, w, s)
  | S n =>
      let '(ok, v, s) := step s in
      let w := match v with Some v => Some v | None => w end in
      if ok : bool then (RDRAND_SUCCESS, w, s) else attempts step n w s
  end.

Definition rdrand_any (step : rng -> bool * option Z * rng) (retry : bool) (s : rng)
    : Z * option Z * rng :=
  let '(sup, s) := RdRand_isSupported s in
  if sup : bool then attempts step (if retry then RETRY_LIMIT else 1) None s
  else (RDRAND_UNSUPPORTED, None, s).

(** The 16 and 32-bit instructions write their destination even on failure. *)
Definition step16 (s : rng) : bool * option Z * rng :=
  let '(ok, v, s) := rdrand16_step s in (ok, Some v, s).
Definition step32 (s : rng) : bool * option Z * rng :=
  let '(ok, v, s) := rdrand32_step s in (ok, Some v, s).

Definition rdrand_16 (retry : bool) (s : rng) : Z * option Z * rng := rdrand_any step16 retry s.
Definition rdrand_32 (retry : bool) (s : rng) : Z * option Z * rng := rdrand_any step32 retry s.
Definition rdrand_64 (retry : bool) (s : rng) : Z * option Z * rng :=
  rdrand_any rdrand64_step retry s.

(** * Several values, written to memory *)

Definition write_opt (m : mem) (a : Z) (n : nat) (w : option Z) : mem :=
  match w with Some v => store_le m a n v | None => m end.

(** [do ... while ((success == 0) && (count++ < RETRY_LIMIT))], with [count]
    counting down from [RETRY_LIMIT]. *)
Fixpoint until_nonzero (draw : rng -> Z * option Z * rng) (w : nat) (count : nat)
    (dest : Z) (m : mem) (s : rng) : Z * mem * rng :=
  let '(success, v, s) := draw s in
  let m := write_opt m dest w v in
  match count with
  | S count => if success =? 0 then until_nonzero draw w count dest m s else (success, m, s)
  | O => (success, m, s)
  end.

Fixpoint rdrand_get_n (draw : rng -> Z * option Z * rng) (w : nat) (n : nat)
    (dest : Z) (m : mem) (s : rng) : Z * mem * rng :=
  match n with
  | O => (RDRAND_SUCCESS, m, s)
  | S n =>
      let '(success, m, s) := until_nonzero draw w RETRY_LIMIT dest m s in
      if negb (success =? RDRAND_SUCCESS) then (success, m, s)
      else rdrand_get_n draw w n (u32 (dest + Z.of_nat w)) m s
  end.

Definition rdrand_get_n_64 (n dest : Z) (m : mem) (s : rng) : Z * mem * rng :=
  rdrand_get_n (rdrand_64 true) 8 (Z.to_nat n) dest m s.
Definition rdrand_get_n_32 (n dest : Z) (m : mem) (s : rng) : Z * mem * rng :=
  rdrand_get_n (rdrand_32 true) 4 (Z.to_nat n) dest m s.

(** [for (i = 0; i < n; i++) { p[i] = temprand & 0xff; temprand >>= 8; }] *)
Fixpoint spill (n : nat) (p temprand : Z) (m : mem) : mem :=
  match n with
  | O => m
  | S n => spill n (u32 (p + 1)) (Z.shiftr temprand 8) (store m p [Z.land temprand 0xff])
  end.

(** A residual block: one 32-bit draw into [temprand], spilled to [k] bytes. *)
Definition residual_block (k : Z) (p : Z) (m : mem) (s : rng) : Z * mem * rng :=
  if 0 <? k then
    let '(success, temprand, s) := rdrand_32 true s in
    if negb (success =? RDRAND_SUCCESS) then (success, m, s)
    else (RDRAND_SUCCESS, spill (Z.to_nat k) p (default 0 temprand) m, s)
  else (RDRAND_SUCCESS, m, s).

Definition rdrand_get_bytes (n dest : Z) (m : mem) (s : rng) : Z * mem * rng :=
  let start := dest in
  let aligned := start mod 4 =? 0 in
  let blockstart := if aligned then start else u32 (Z.land start (u32 (Z.lnot 3)) + 4) in
  let count := if aligned then n else u32 (n - (4 - start mod 4)) in
  let startlen := if aligned then 0 else u32 (blockstart - start) in
  let residual := count mod 4 in
  let length := count / 4 in
  let residualstart := u32 (blockstart + 4 * length) in
  let '(success, m, s) := residual_block startlen start m s in
  if negb (success =? RDRAND_SUCCESS) then (success, m, s) else
  let '(success, m, s) := rdrand_get_n_32 length blockstart m s in
  if negb (success =? RDRAND_SUCCESS) then (success, m, s) else
  residual_block residual residualstart m s.

(** * randombytes.c *)

Definition randombytes_buf (buf size : Z) (m : mem) (s : rng) : mem * rng :=
  let '(_, m, s) := rdrand_get_bytes size buf m s in (m, s).

(** [r] is the local, uninitialised on entry; the loop draws until [r >= min]. *)
Fixpoint uniform_loop (fuel : nat) (min r : Z) (s : rng) : option (Z * rng) :=
  match fuel with
  | O => None
  | S fuel =>
      let '(_, m, s) := rdrand_get_n_32 1 0 (store_le (fun _ => 0) 0 4 r) s in
      let r := load_le m 0 4 in
      if r <? min then uniform_loop fuel min r s else Some (r, s)
  end.

Definition randombytes_uniform (fuel : nat) (r upper_bound : Z) (s : rng) : option (Z * rng) :=
  if upper_bound <? 2 then Some (0, s) else
  let min := u32 (1 + u32 (Z.lnot upper_bound)) mod upper_bound in
  match uniform_loop fuel min r s with
  | Some (r, s) => Some (r mod upper_bound, s)
  | None => None
  end.

(** * What the draws return *)

(** The first successful RDRAND among [n] attempts from position [p]. *)
Fixpoint draw_at (n p : nat) : option (Z * nat) :=
  match n with
  | O => None
  | S n => let '(ok, v) := drng p in if ok : bool then Some (u32 v, S p) else draw_at n (S p)
  end.

(** [k] draws in a row, each within the retry limit. *)
Fixpoint draws (k p : nat) : option (list Z * nat) :=
  match k with
  | O => Some ([], p)
  | S k =>
      match draw_at RETRY_LIMIT p with
      | Some (v, p) => match draws k p with Some (vs, p) => Some (v :: vs, p) | None => None end
      | None => None
      end
  end.

(** The processor has RDRAND, as far as the code can tell. *)
Definition has_rdrand (s : rng) : bool := fst (RdRand_isSupported s).

Lemma step32_eq s :
  step32 s = (fst (drng (pos s)), Some (u32 (snd (drng (pos s)))), Rng (S (pos s)) (supported s)).
Proof. unfold step32, rdrand32_step. by destruct (drng (pos s)). Qed.

Lemma attempts_spec n w s :
  match draw_at n (pos s) with
  | Some (v, p) => attempts step32 n w s = (RDRAND_SUCCESS, Some v, Rng p (supported s))
  | None => exists w', attempts step32 n w s = (RDRAND_NOT_READY, w', Rng (pos s + n) (supported s))
  end.
Proof.
  revert w s. induction n as [|n IH]; intros w s; cbn [draw_at attempts].
  - exists w. destruct s. by rewrite Nat.add_0_r.
  - rewrite step32_eq. destruct (drng (pos s)) as [ok v]. cbn [fst snd]. destruct ok; [done|].
    specialize (IH (Some (u32 v)) (Rng (S (pos s)) (supported s))). cbn [pos supported] in IH.
    cbv beta iota zeta. destruct (draw_at n (S (pos s))) as [[v' p]|]; [done|].
    destruct IH as [w' ->]. exists w'. by rewrite Nat.add_succ_r.
Qed.

(** The three outcomes of [rdrand_32] with retries. *)
Inductive draw_result (s : rng) : Z * option Z * rng -> Prop :=
| DrawOk v p :
    has_rdrand s = true -> draw_at RETRY_LIMIT (pos s) = Some (v, p) ->
    draw_result s (RDRAND_SUCCESS, Some v, Rng p RDRAND_SUPPORTED)
| DrawBusy w s' :
    has_rdrand s = true -> draw_at RETRY_LIMIT (pos s) = None ->
    draw_result s (RDRAND_NOT_READY, w, s')
| DrawNone s' :
    has_rdrand s = false -> draw_result s (RDRAND_UNSUPPORTED, None, s').

Lemma rdrand_32_cases s : draw_result s (rdrand_32 true s).
Proof.
  unfold rdrand_32, rdrand_any. destruct (RdRand_isSupported s) as [sup s'] eqn:E.
  assert (has_rdrand s = sup) as Hsup by (unfold has_rdrand; by rewrite E).
  assert (pos s' = pos s) as Hpos.
  { unfold RdRand_isSupported in E. case_match; injection E as <- <-; done. }
  destruct sup; [|by constructor].
  assert (supported s' = RDRAND_SUPPORTED) as Hs'.
  { unfold RdRand_isSupported in E. injection E as E <-. by apply Z.eqb_eq in E. }
  pose proof (attempts_spec RETRY_LIMIT None s') as HA. rewrite Hpos, Hs' in HA.
  destruct (draw_at RETRY_LIMIT (pos s)) as [[v p]|] eqn:ED.
  - rewrite HA. by constructor.
  - destruct HA as [w ->]. by constructor.
Qed.

Lemma has_rdrand_supported p : has_rdrand (Rng p RDRAND_SUPPORTED) = true.
Proof. reflexivity. Qed.

(** [rdrand_32] never returns 0, so the retry loop around it runs once. *)
Lemma until_nonzero_once count dest m s :
  until_nonzero (rdrand_32 true) 4 count dest m s =
  let '(success, v, s) := rdrand_32 true s in (success, write_opt m dest 4 v, s).
Proof. destruct count; cbn [until_nonzero]; by destruct (rdrand_32_cases s). Qed.

Definition ret_ok (r : Z) : Prop :=
  r = RDRAND_SUCCESS \/ r = RDRAND_NOT_READY \/ r = RDRAND_UNSUPPORTED.

(** * What is written *)

Lemma frame_write_opt m a v : frame a 4 m (write_opt m a 4 v).
Proof.
  destruct v; [|apply frame_refl]. apply frame_store; [lia|]. by rewrite length_le_bytes.
Qed.

Lemma get_n_frame n dest m s :
  0 <= dest -> dest + 4 * Z.of_nat n < 2 ^ 32 ->
  let '(r, m', _) := rdrand_get_n (rdrand_32 true) 4 n dest m s in
  ret_ok r /\ frame dest (4 * Z.of_nat n) m m'.
Proof.
  revert dest m s. induction n as [|n IH]; intros dest m s Hd Hn; cbn [rdrand_get_n].
  { split; [by left|apply frame_refl]. }
  rewrite until_nonzero_once. pose proof (frame_write_opt m dest) as HW.
  destruct (rdrand_32_cases s) as [v p _ _|w s' _ _|s' _].
  - cbn [negb Z.eqb RDRAND_SUCCESS Pos.eqb]. rewrite (wrap_small 32) by lia.
    specialize (IH (dest + Z.of_nat 4) (write_opt m dest 4 (Some v)) (Rng p RDRAND_SUPPORTED)
      ltac:(lia) ltac:(lia)).
    destruct (rdrand_get_n _ _ _ _ _ _) as [[r m'] s']. destruct IH as [Hr HF]. split; [done|].
    eapply frame_trans; [eapply frame_weaken; [..|apply (HW (Some v))]; lia|].
    eapply frame_weaken; [..|exact HF]; lia.
  - split; [right; by left|]. eapply frame_weaken; [..|apply HW]; lia.
  - split; [by do 2 right|]. eapply frame_weaken; [..|apply HW]; lia.
Qed.

Lemma spill_store n p v m :
  0 <= p -> p + Z.of_nat n < 2 ^ 32 -> spill n p v m ≡ store m p (le_bytes n v).
Proof.
  revert p v m. induction n as [|n IH]; intros p v m Hp Hn; cbn [spill le_bytes].
  - intros x. symmetry. apply store_out. simpl. lia.
  - rewrite (wrap_small 32) by lia. rewrite IH by lia.
    apply (store_app m p [Z.land v 255] (le_bytes n (Z.shiftr v 8))).
Qed.

Lemma frame_spill n p v m :
  0 <= p -> p + Z.of_nat n < 2 ^ 32 -> frame p (Z.of_nat n) m (spill n p v m).
Proof.
  intros Hp Hn x Hx. rewrite (spill_store n p v m Hp Hn x). apply store_out.
  rewrite length_le_bytes. lia.
Qed.

Lemma residual_frame k p m s :
  0 <= k -> 0 <= p -> p + k < 2 ^ 32 ->
  let '(r, m', _) := residual_block k p m s in ret_ok r /\ frame p k m m'.
Proof.
  intros Hk Hp Hb. unfold residual_block. destruct (Z.ltb_spec 0 k).
  - destruct (rdrand_32_cases s) as [v q _ _|w s' _ _|s' _]; cbn.
    + split; [by left|]. rewrite <- (Z2Nat.id k) at 1 by lia. apply frame_spill; lia.
    + split; [right; by left|apply frame_refl].
    + split; [by do 2 right|apply frame_refl].
  - split; [by left|apply frame_refl].
Qed.

(** Bytes before the first aligned word. *)
Definition pre_len (dest : Z) : Z := (- dest) mod 4.

Lemma land_align dest : 0 <= dest < 2 ^ 32 -> Z.land dest (u32 (Z.lnot 3)) = 4 * (dest / 4).
Proof.
  intros Hd. change (u32 (Z.lnot 3)) with (Z.shiftl (Z.ones 30) 2).
  replace (4 * (dest / 4)) with (Z.shiftl (Z.shiftr dest 2) 2)
    by (rewrite Z.shiftl_mul_pow2, Z.shiftr_div_pow2 by lia; change (2 ^ 2) with 4; lia).
  apply Z.bits_inj'. intros i Hi.
  rewrite Z.land_spec, !testbit_shiftl, testbit_shiftr, Z.testbit_ones by lia.
  destruct (Z.leb_spec 0 i), (Z.leb_spec 0 (i - 2)), (Z.ltb_spec (i - 2) 30); try lia;
    cbn [andb]; rewrite ?andb_true_r, ?andb_false_r; try done.
  - f_equal; lia.
  - symmetry. apply (testbit_high 32); lia.
Qed.

(** Away from the underflow, the three parts tile the buffer. *)
Lemma get_bytes_geometry n dest m s :
  0 <= dest -> pre_len dest <= n -> dest + n < 2 ^ 32 ->
  rdrand_get_bytes n dest m s =
  let k := pre_len dest in
  let '(success, m, s) := residual_block k dest m s in
  if negb (success =? RDRAND_SUCCESS) then (success, m, s) else
  let '(success, m, s) := rdrand_get_n_32 ((n - k) / 4) (dest + k) m s in
  if negb (success =? RDRAND_SUCCESS) then (success, m, s) else
  residual_block ((n - k) mod 4) (dest + k + 4 * ((n - k) / 4)) m s.
Proof.
  intros Hd Hk Hn. unfold rdrand_get_bytes. cbv zeta.
  assert (0 <= pre_len dest < 4) as Hp by (apply Z.mod_pos_bound; lia).
  pose proof (Z.div_mod dest 4 ltac:(lia)) as Hdm.
  pose proof (Z.mod_pos_bound dest 4 ltac:(lia)) as Hr.
  assert (pre_len dest = if dest mod 4 =? 0 then 0 else 4 - dest mod 4) as Hpre.
  { unfold pre_len. destruct (Z.eqb_spec (dest mod 4) 0).
    - rewrite Z.mod_opp_l_z; lia.
    - rewrite Z.mod_opp_l_nz; lia. }
  pose proof (Z.mul_div_le (n - pre_len dest) 4 ltac:(lia)).
  pose proof (Z.div_pos (n - pre_len dest) 4 ltac:(lia) ltac:(lia)).
  destruct (Z.eqb_spec (dest mod 4) 0) as [E|E]; rewrite Hpre in *.
  - rewrite Z.add_0_r, Z.sub_0_r in *. rewrite (wrap_small 32) by lia. done.
  - rewrite land_align by lia.
    replace (4 * (dest / 4) + 4) with (dest + (4 - dest mod 4)) by lia.
    rewrite (wrap_small 32 (dest + _)) by lia.
    replace (dest + (4 - dest mod 4) - dest) with (4 - dest mod 4) by lia.
    rewrite !(wrap_small 32) by lia. done.
Qed.

Lemma get_bytes_frame n dest m s :
  0 <= dest -> pre_len dest <= n -> dest + n < 2 ^ 32 ->
  let '(r, m', _) := rdrand_get_bytes n dest m s in ret_ok r /\ frame dest n m m'.
Proof.
  intros Hd Hk Hn. rewrite get_bytes_geometry by done. cbv zeta.
  assert (0 <= pre_len dest < 4) as Hp by (apply Z.mod_pos_bound; lia).
  pose proof (Z.div_mod (n - pre_len dest) 4 ltac:(lia)) as Hdm.
  pose proof (Z.mod_pos_bound (n - pre_len dest) 4 ltac:(lia)) as Hr.
  pose proof (residual_frame (pre_len dest) dest m s ltac:(lia) Hd ltac:(lia)) as H1.
  destruct (residual_block _ _ _ _) as [[r1 m1] s1]. destruct H1 as [Hr1 HF1].
  destruct (negb (r1 =? _)); [split; [done|]; eapply frame_weaken; [..|exact HF1]; lia|].
  unfold rdrand_get_n_32.
  pose proof (get_n_frame (Z.to_nat ((n - pre_len dest) / 4)) (dest + pre_len dest) m1 s1
    ltac:(lia) ltac:(lia)) as H2.
  destruct (rdrand_get_n _ _ _ _ _ _) as [[r2 m2] s2]. destruct H2 as [Hr2 HF2].
  assert (frame dest n m m2) as HF.
  { eapply frame_trans; [eapply frame_weaken; [..|exact HF1]; lia|].
    eapply frame_weaken; [..|exact HF2]; lia. }
  destruct (negb (r2 =? _)); [done|].
  pose proof (residual_frame ((n - pre_len dest) mod 4)
    (dest + pre_len dest + 4 * ((n - pre_len dest) / 4)) m2 s2
    ltac:(lia) ltac:(lia) ltac:(lia)) as H3.
  destruct (residual_block _ _ _ _) as [[r3 m3] s3]. destruct H3 as [Hr3 HF3]. split; [done|].
  eapply frame_trans; [exact HF|]. eapply frame_weaken; [..|exact HF3]; lia.
Qed.

(** Memory stays a memory of bytes. *)
Abbreviation all_bytes m := (forall x, is_byte (m x)).

Lemma store_le_bytes m a n v : all_bytes m -> all_bytes (store_le m a n v).
Proof. intros Hm. apply is_byte_store; [done|apply bytes_le_bytes]. Qed.

Lemma spill_bytes n p v m : all_bytes m -> all_bytes (spill n p v m).
Proof.
  revert p v m. induction n as [|n IH]; intros p v m Hm; [done|]. apply IH, is_byte_store; [done|].
  forall_list. rewrite land_ff. apply is_byte_u8.
Qed.

Lemma residual_bytes k p m s : all_bytes m -> all_bytes (snd (fst (residual_block k p m s))).
Proof.
  intros Hm. unfold residual_block. destruct (0 <? k); [|done].
  destruct (rdrand_32_cases s); cbn; try done. by apply spill_bytes.
Qed.

Lemma get_n_bytes n dest m s :
  all_bytes m -> all_bytes (snd (fst (rdrand_get_n (rdrand_32 true) 4 n dest m s))).
Proof.
  revert dest m s. induction n as [|n IH]; intros dest m s Hm; [done|]. cbn [rdrand_get_n].
  rewrite until_nonzero_once.
  assert (forall v, all_bytes (write_opt m dest 4 v)) as HW
    by (intros [v|]; [by apply store_le_bytes|done]).
  destruct (rdrand_32_cases s) as [v p _ _|w s' _ _|s' _]; cbn [negb Z.eqb RDRAND_SUCCESS Pos.eqb].
  - apply IH, (HW (Some v)).
  - apply HW.
  - apply (HW None).
Qed.

Lemma get_bytes_bytes n dest m s :
  all_bytes m -> all_bytes (snd (fst (rdrand_get_bytes n dest m s))).
Proof.
  intros Hm. unfold rdrand_get_bytes. cbv zeta.
  match goal with |- context [residual_block ?k ?p m s] =>
    pose proof (residual_bytes k p m s Hm) as H1; destruct (residual_block k p m s) as [[r1 m1] s1] end.
  cbn [fst snd] in H1. destruct (negb (r1 =? _)); [done|]. unfold rdrand_get_n_32.
  match goal with |- context [rdrand_get_n ?d ?w ?n ?p m1 s1] =>
    pose proof (get_n_bytes n p m1 s1 H1) as H2;
    destruct (rdrand_get_n d w n p m1 s1) as [[r2 m2] s2] end.
  cbn [fst snd] in H2. destruct (negb (r2 =? _)); [done|]. by apply residual_bytes.
Qed.

(** * What is filled in when the generator is ready *)

Definition word_bytes (ws : list Z) : list Z := concat (le_bytes 4 <$> ws).

Lemma length_word_bytes ws : length (word_bytes ws) = (4 * length ws)%nat.
Proof.
  unfold word_bytes. induction ws as [|w ws IH]; [done|].
  cbn [fmap list_fmap concat]. rewrite length_app, length_le_bytes, IH. simpl. lia.
Qed.

Lemma draws_app a b p ws p1 ws' p2 :
  draws a p = Some (ws, p1) -> draws b p1 = Some (ws', p2) ->
  draws (a + b) p = Some (ws ++ ws', p2).
Proof.
  revert p ws. induction a as [|a IH]; intros p ws Ha Hb; cbn [draws Nat.add] in *.
  - by injection Ha as <- <-.
  - destruct (draw_at RETRY_LIMIT p) as [[v q]|]; [|done].
    destruct (draws a q) as [[vs q']|] eqn:E; [|done]. injection Ha as <- <-.
    by rewrite (IH q vs).
Qed.

Section Ready.
Context (Hready : forall p, draw_at RETRY_LIMIT p <> None).

Lemma rdrand_32_ready s :
  has_rdrand s = true ->
  exists v p, draw_at RETRY_LIMIT (pos s) = Some (v, p) /\
    rdrand_32 true s = (RDRAND_SUCCESS, Some v, Rng p RDRAND_SUPPORTED).
Proof.
  intros Hs. destruct (rdrand_32_cases s) as [v p _ E|w s' _ E|s' E].
  - by exists v, p.
  - by destruct (Hready (pos s)).
  - congruence.
Qed.

Lemma get_n_ready n dest m s :
  has_rdrand s = true -> 0 <= dest -> dest + 4 * Z.of_nat n <= 2 ^ 32 ->
  exists ws m' s', rdrand_get_n (rdrand_32 true) 4 n dest m s = (RDRAND_SUCCESS, m', s') /\
    draws n (pos s) = Some (ws, pos s') /\ length ws = n /\ has_rdrand s' = true /\
    m' ≡ store m dest (word_bytes ws).
Proof.
  revert dest m s. induction n as [|n IH]; intros dest m s Hs Hd Hn; cbn [rdrand_get_n draws].
  { exists [], m, s. split_and!; try done. intros x. symmetry. apply store_out. simpl. lia. }
  rewrite until_nonzero_once. destruct (rdrand_32_ready s Hs) as (v & p & Hv & ->).
  cbn [negb Z.eqb RDRAND_SUCCESS Pos.eqb]. rewrite Hv.
  destruct (IH (dest + Z.of_nat 4) (write_opt m dest 4 (Some v)) (Rng p RDRAND_SUPPORTED))
    as (ws & m' & s' & HE & Hw & Hl & Hs' & Hm); [done|lia..|].
  cbn [pos] in Hw. rewrite Hw. exists (v :: ws), m', s'. split_and!; try done.
  - rewrite <- HE. destruct n; [done|]. by rewrite (wrap_small 32) by lia.
  - simpl. by f_equal.
  - rewrite Hm. cbn [write_opt]. unfold store_le, word_bytes. cbn [fmap list_fmap concat].
    rewrite <- store_app, length_le_bytes. done.
Qed.

(** One word when [k] is positive. *)
Lemma residual_ready k p m s :
  has_rdrand s = true -> 0 <= k < 4 -> 0 <= p -> p + k < 2 ^ 32 ->
  exists ws m' s', residual_block k p m s = (RDRAND_SUCCESS, m', s') /\
    draws (length ws) (pos s) = Some (ws, pos s') /\
    length ws = (if 0 <? k then 1%nat else 0%nat) /\ has_rdrand s' = true /\
    m' ≡ store m p (take (Z.to_nat k) (word_bytes ws)).
Proof.
  intros Hs Hk Hp Hb. unfold residual_block. destruct (Z.ltb_spec 0 k).
  - destruct (rdrand_32_ready s Hs) as (v & q & Hv & ->). cbn.
    exists [v], (spill (Z.to_nat k) p v m), (Rng q RDRAND_SUPPORTED). cbn [draws length].
    rewrite Hv. split_and!; try done. rewrite spill_store by lia.
    unfold word_bytes. cbn [fmap list_fmap concat]. rewrite app_nil_r.
    replace 4%nat with (Z.to_nat k + (4 - Z.to_nat k))%nat by lia.
    rewrite le_bytes_app, take_app_length' by (by rewrite length_le_bytes). done.
  - exists [], m, s. split_and!; try done. intros x. symmetry.
    apply store_out. rewrite length_take, length_word_bytes. simpl. lia.
Qed.

(** The bytes laid over a buffer of [n] bytes at [dest] by three runs of words. *)
Definition layout (n dest : Z) (w0 w1 w2 : list Z) : list Z :=
  let k := pre_len dest in
  take (Z.to_nat k) (word_bytes w0) ++ word_bytes w1 ++
  take (Z.to_nat ((n - k) mod 4)) (word_bytes w2).

Lemma get_bytes_ready n dest m s :
  has_rdrand s = true -> 0 <= dest -> pre_len dest <= n -> dest + n < 2 ^ 32 ->
  exists w0 w1 w2 m' s',
    rdrand_get_bytes n dest m s = (RDRAND_SUCCESS, m', s') /\
    draws (length (w0 ++ w1 ++ w2)) (pos s) = Some (w0 ++ w1 ++ w2, pos s') /\
    Z.of_nat (length (layout n dest w0 w1 w2)) = n /\
    m' ≡ store m dest (layout n dest w0 w1 w2).
Proof.
  intros Hs Hd Hk Hn. rewrite get_bytes_geometry by done. cbv zeta.
  assert (0 <= pre_len dest < 4) as Hp by (apply Z.mod_pos_bound; lia).
  pose proof (Z.div_mod (n - pre_len dest) 4 ltac:(lia)) as Hdm.
  pose proof (Z.mod_pos_bound (n - pre_len dest) 4 ltac:(lia)) as Hr.
  destruct (residual_ready (pre_len dest) dest m s) as (w0 & m0 & s0 & -> & D0 & L0 & S0 & M0);
    [done|lia..|]. cbn [negb Z.eqb RDRAND_SUCCESS Pos.eqb]. unfold rdrand_get_n_32.
  destruct (get_n_ready (Z.to_nat ((n - pre_len dest) / 4)) (dest + pre_len dest) m0 s0)
    as (w1 & m1 & s1 & -> & D1 & L1 & S1 & M1); [done|lia..|].
  cbn [negb Z.eqb RDRAND_SUCCESS Pos.eqb].
  destruct (residual_ready ((n - pre_len dest) mod 4)
    (dest + pre_len dest + 4 * ((n - pre_len dest) / 4)) m1 s1)
    as (w2 & m2 & s2 & -> & D2 & L2 & S2 & M2); [done|lia..|].
  rewrite <- L1 in D1.
  assert (length (take (Z.to_nat (pre_len dest)) (word_bytes w0)) = Z.to_nat (pre_len dest)) as E0.
  { rewrite length_take, length_word_bytes, L0. destruct (Z.ltb_spec 0 (pre_len dest)); lia. }
  exists w0, w1, w2, m2, s2. split_and!; [done|..].
  - rewrite !length_app. eapply draws_app; [done|]. by eapply draws_app.
  - unfold layout. cbv zeta.
    rewrite !length_app, E0, length_take, !length_word_bytes, L1, L2.
    destruct (Z.ltb_spec 0 ((n - pre_len dest) mod 4)); lia.
  - unfold layout. cbv zeta. rewrite M2, M1, M0, <- !store_app, E0, length_word_bytes, L1.
    rewrite !Z2Nat.id by lia.
    replace (Z.of_nat (4 * Z.to_nat ((n - pre_len dest) / 4))) with (4 * ((n - pre_len dest) / 4)) by lia.
    done.
Qed.

(** Two runs of words are one. *)
Lemma get_n_app a b dest m s :
  has_rdrand s = true -> 0 <= dest < 2 ^ 32 -> dest + 4 * Z.of_nat a <= 2 ^ 32 ->
  rdrand_get_n (rdrand_32 true) 4 (a + b) dest m s =
  let '(_, m, s) := rdrand_get_n (rdrand_32 true) 4 a dest m s in
  rdrand_get_n (rdrand_32 true) 4 b (u32 (dest + 4 * Z.of_nat a)) m s.
Proof.
  revert dest m s. induction a as [|a IH]; intros dest m s Hs Hd Ha.
  { cbn [Nat.add rdrand_get_n]. by rewrite Z.mul_0_r, Z.add_0_r, (wrap_small 32). }
  cbn [Nat.add rdrand_get_n]. rewrite until_nonzero_once.
  destruct (rdrand_32_ready s Hs) as (v & p & Hv & ->).
  cbn [negb Z.eqb RDRAND_SUCCESS Pos.eqb]. destruct a as [|a]; [done|].
  rewrite (wrap_small 32 (dest + Z.of_nat 4)), IH by (done || lia).
  destruct (rdrand_get_n _ _ (S a) _ _ _) as [[r m'] s']. do 2 f_equal. lia.
Qed.

(** The underflow of [count]: a buffer too short to reach the next word. *)
Lemma underflow_geometry n dest m s :
  0 <= dest -> dest + 4 < 2 ^ 32 -> 0 <= n < pre_len dest ->
  rdrand_get_bytes n dest m s =
  let b := dest + pre_len dest in
  let '(success, m, s) := residual_block (pre_len dest) dest m s in
  if negb (success =? RDRAND_SUCCESS) then (success, m, s) else
  let '(success, m, s) := rdrand_get_n_32 (2 ^ 30 - 1) b m s in
  if negb (success =? RDRAND_SUCCESS) then (success, m, s) else
  residual_block ((4 + n - pre_len dest) mod 4) (b - 4) m s.
Proof.
  intros Hd Hd4 Hn. unfold rdrand_get_bytes. cbv zeta.
  pose proof (Z.div_mod dest 4 ltac:(lia)) as Hdm.
  pose proof (Z.mod_pos_bound dest 4 ltac:(lia)) as Hr.
  assert (dest mod 4 <> 0 /\ pre_len dest = 4 - dest mod 4) as [E Hpre].
  { unfold pre_len in *. destruct (Z.eqb_spec (dest mod 4) 0) as [E|E].
    - rewrite Z.mod_opp_l_z in Hn by lia. lia.
    - rewrite Z.mod_opp_l_nz; lia. }
  rewrite (proj2 (Z.eqb_neq _ _) E), land_align, Hpre in * by lia.
  replace (4 * (dest / 4) + 4) with (dest + (4 - dest mod 4)) by lia.
  rewrite (wrap_small 32 (dest + _)) by lia.
  replace (dest + (4 - dest mod 4) - dest) with (4 - dest mod 4) by lia.
  rewrite (wrap_small 32 (4 - _)) by lia.
  assert (u32 (n - (4 - dest mod 4)) = 4 * (2 ^ 30 - 1) + (4 + n - (4 - dest mod 4))) as ->.
  { symmetry. apply (Z.mod_unique _ _ (-1)); lia. }
  rewrite (Z.mul_comm 4 (2 ^ 30 - 1)), Z.div_add_l, (Z.div_small (4 + n - (4 - dest mod 4))), Z.add_0_r by lia.
  rewrite (Z.add_comm ((2 ^ 30 - 1) * 4)), Z_mod_plus_full.
  replace (u32 (dest + (4 - dest mod 4) + 4 * (2 ^ 30 - 1))) with (dest + (4 - dest mod 4) - 4);
    [done|]. apply (Z.mod_unique _ _ 1); lia.
Qed.

Lemma get_bytes_underflow n dest m s :
  has_rdrand s = true -> 0 <= dest -> dest + 4 < 2 ^ 32 -> 0 <= n < pre_len dest ->
  exists w ws m' s',
    rdrand_get_bytes n dest m s = (RDRAND_SUCCESS, m', s') /\
    (exists p, draws (S (length ws)) (pos s) = Some (w :: ws, p)) /\
    load m' (dest + pre_len dest) (Z.to_nat (2 ^ 32 - (dest + pre_len dest))) = word_bytes ws.
Proof.
  intros Hs Hd Hd4 Hn. rewrite underflow_geometry by done. cbv zeta.
  assert (0 <= pre_len dest < 4) as Hp by (apply Z.mod_pos_bound; lia).
  set (b := dest + pre_len dest).
  assert (b mod 4 = 0) as Hb4.
  { unfold b, pre_len. rewrite Zplus_mod_idemp_r, Z.add_opp_diag_r. done. }
  pose proof (Z.div_mod b 4 ltac:(lia)) as Hdm.
  pose proof (Z.mod_pos_bound (4 + n - pre_len dest) 4 ltac:(lia)) as Hr.
  destruct (residual_ready (pre_len dest) dest m s) as (w0 & m0 & s0 & -> & D0 & L0 & S0 & M0);
    [done|lia..|]. cbn [negb Z.eqb RDRAND_SUCCESS Pos.eqb].
  rewrite (proj2 (Z.ltb_lt _ _)) in L0 by lia. destruct w0 as [|w [|? ?]]; try done.
  unfold rdrand_get_n_32. set (k := Z.to_nat (2 ^ 30 - b / 4)).
  replace (Z.to_nat (2 ^ 30 - 1)) with (k + Z.to_nat (b / 4 - 1))%nat by lia.
  rewrite get_n_app by (done || lia).
  destruct (get_n_ready k b m0 s0) as (ws & m1 & s1 & -> & D1 & L1 & S1 & M1); [done|lia..|].
  assert (u32 (b + 4 * Z.of_nat k) = 0) as ->
    by (symmetry; apply (Z.mod_unique _ _ 1); lia).
  destruct (get_n_ready (Z.to_nat (b / 4 - 1)) 0 m1 s1)
    as (ws2 & m2 & s2 & -> & D2 & L2 & S2 & M2); [done|lia..|].
  cbn [negb Z.eqb RDRAND_SUCCESS Pos.eqb].
  destruct (residual_ready ((4 + n - pre_len dest) mod 4) (b - 4) m2 s2)
    as (w3 & m3 & s3 & -> & D3 & L3 & S3 & M3); [done|lia..|].
  exists w, ws, m3, s3. split_and!; [done|..].
  - exists (pos s1). rewrite L1. eapply (draws_app 1 k _ [w]); [exact D0|done].
  - rewrite M3, load_store_ne by (left; rewrite length_take, length_word_bytes; lia).
    rewrite M2, load_store_ne by (left; rewrite length_word_bytes; lia).
    rewrite M1. apply load_store_eq. rewrite length_word_bytes. lia.
Qed.

(** * Bounded integers *)

Lemma uniform_min ub :
  2 <= ub < 2 ^ 32 -> u32 (1 + u32 (Z.lnot ub)) mod ub = 2 ^ 32 mod ub.
Proof.
  intros Hub. assert (u32 (1 + u32 (Z.lnot ub)) = 2 ^ 32 - ub) as ->.
  { unfold wrap. rewrite Zplus_mod_idemp_r. symmetry. apply (Z.mod_unique _ _ (-1)); unfold Z.lnot; lia. }
  rewrite <- (Z_mod_plus_full (2 ^ 32 - ub) 1 ub). f_equal. lia.
Qed.

Lemma load_le_store_le m m' a n v :
  0 <= v < 2 ^ (8 * Z.of_nat n) -> m' ≡ store m a (le_bytes n v) -> load_le m' a n = v.
Proof.
  intros Hv Hm. unfold load_le. rewrite Hm, load_store_eq by (by rewrite length_le_bytes).
  rewrite le_val_le_bytes. by apply wrap_small.
Qed.

Lemma draw_at_range n p v q : draw_at n p = Some (v, q) -> 0 <= v < 2 ^ 32.
Proof.
  revert p. induction n as [|n IH]; intros p; cbn [draw_at]; [done|].
  destruct (drng p) as [ok x]. destruct ok; [|apply IH]. intros [= <- _]. by apply wrap_range.
Qed.

Lemma uniform_step min r s fuel :
  has_rdrand s = true ->
  exists v p s', draw_at RETRY_LIMIT (pos s) = Some (v, p) /\ pos s' = p /\
    has_rdrand s' = true /\
    uniform_loop (S fuel) min r s = if v <? min then uniform_loop fuel min v s' else Some (v, s').
Proof.
  intros Hs. cbn [uniform_loop]. unfold rdrand_get_n_32.
  destruct (get_n_ready (Z.to_nat 1) 0 (store_le (fun _ => 0) 0 4 r) s Hs ltac:(lia) ltac:(lia))
    as (ws & m' & s' & -> & Dw & Lw & Hs' & Hm).
  change (Z.to_nat 1) with 1%nat in Dw. cbn [draws] in Dw.
  destruct (draw_at RETRY_LIMIT (pos s)) as [[v p]|] eqn:E; [|done]. injection Dw as <- ->.
  exists v, (pos s'), s'. split_and!; try done.
  assert (load_le m' 0 4 = v) as ->; [|done].
  eapply load_le_store_le; [by eapply draw_at_range|exact Hm].
Qed.

Lemma uniform_loop_spec vs v min r s p fuel :
  has_rdrand s = true -> draws (S (length vs)) (pos s) = Some (vs ++ [v], p) ->
  Forall (fun x => x < min) vs -> min <= v -> (length vs < fuel)%nat ->
  exists s', uniform_loop fuel min r s = Some (v, s') /\ pos s' = p.
Proof.
  revert r s fuel. induction vs as [|x vs IH]; intros r s fuel Hs Hd Hvs Hv Hf;
    (destruct fuel as [|fuel]; [simpl in Hf; lia|]);
    destruct (uniform_step min r s fuel Hs) as (w & q & s' & Hw & Hq & Hs' & ->);
    cbn [draws length app] in Hd; rewrite Hw in Hd.
  - injection Hd as -> ->. exists s'. by rewrite (proj2 (Z.ltb_ge _ _)) by done.
  - apply Forall_cons in Hvs as [Hx Hvs]. rewrite <- Hq in Hd.
    destruct (draws (S (length vs)) (pos s')) as [[ws q']|] eqn:E.
    + cbn [draws] in E. rewrite E in Hd. injection Hd as -> -> ->.
      rewrite (proj2 (Z.ltb_lt _ _)) by done. apply IH; try done. simpl in Hf. lia.
    + cbn [draws] in E. by rewrite E in Hd.
Qed.

End Ready.
End RdRand.

(** * Properties *)

(** Filling a buffer that reaches the next aligned word writes nothing
    outside it, whatever the processor and the generator do, and returns
    success, not-ready or unsupported. *)
Theorem rdrand_get_bytes_safe cpuid drng n dest m s :
  0 <= dest -> pre_len dest <= n -> dest + n < 2 ^ 32 ->
  let '(r, m', _) := rdrand_get_bytes cpuid drng n dest m s in
  (r = RDRAND_SUCCESS \/ r = RDRAND_NOT_READY \/ r = RDRAND_UNSUPPORTED) /\ frame dest n m m'.
Proof. apply get_bytes_frame. Qed.

Definition demo_cpuid (leaf : Z) : cpu_info :=
  if leaf =? 0 then Info 0 0x756e6547 0x6c65746e 0x49656e69 else Info 0 0 RDRAND_MASK 0.
Definition demo_drng (n : nat) : bool * Z := (Nat.odd n, Z.of_nat n * 0x01010101).
Definition boot_rng : rng := Rng 0 RDRAND_SUPPORT_UNKNOWN.

Lemma demo_ready p : draw_at demo_drng RETRY_LIMIT p <> None.
Proof. unfold RETRY_LIMIT. cbn [draw_at demo_drng]. rewrite Nat.odd_succ, <- Nat.negb_odd. by destruct (Nat.odd p). Qed.

Lemma rdrand_get_bytes_safe_witness :
  let '(r, m', _) := rdrand_get_bytes demo_cpuid demo_drng 7 0x1003 (fun _ => 0) boot_rng in
  (r = RDRAND_SUCCESS \/ r = RDRAND_NOT_READY \/ r = RDRAND_UNSUPPORTED) /\
  frame 0x1003 7 (fun _ => 0) m'.
Proof. apply rdrand_get_bytes_safe; [lia|by vm_compute|lia]. Defined.

(** C32 When the processor has RDRAND and each run of ten attempts delivers a
    value, the call succeeds for every buffer that reaches at least to the first
    aligned address and ends below 4 GB, and the buffer holds consecutive fresh
    draws: the low bytes of one word up to the first aligned address, whole words,
    and the low bytes of a last one; the rest of memory is unchanged. (For a shorter
    misaligned buffer the count wraps around: [rdrand_get_bytes_underflows].) *)
Theorem rdrand_get_bytes_fills cpuid drng n dest m s :
  (forall p, draw_at drng RETRY_LIMIT p <> None) -> has_rdrand cpuid s = true ->
  0 <= dest -> pre_len dest <= n -> dest + n < 2 ^ 32 ->
  exists w0 w1 w2 m' s',
    rdrand_get_bytes cpuid drng n dest m s = (RDRAND_SUCCESS, m', s') /\
    draws drng (length (w0 ++ w1 ++ w2)) (pos s) = Some (w0 ++ w1 ++ w2, pos s') /\
    Z.of_nat (length (layout n dest w0 w1 w2)) = n /\
    m' ≡ store m dest (layout n dest w0 w1 w2).
Proof. intros. by apply get_bytes_ready. Qed.

Lemma rdrand_get_bytes_fills_witness :
  exists w0 w1 w2 m' s',
    rdrand_get_bytes demo_cpuid demo_drng 7 0x1003 (fun _ => 0) boot_rng = (RDRAND_SUCCESS, m', s') /\
    draws demo_drng (length (w0 ++ w1 ++ w2)) 0 = Some (w0 ++ w1 ++ w2, pos s') /\
    Z.of_nat (length (layout 7 0x1003 w0 w1 w2)) = 7 /\
    m' ≡ store (fun _ => 0) 0x1003 (layout 7 0x1003 w0 w1 w2).
Proof.
  apply (rdrand_get_bytes_fills demo_cpuid demo_drng 7 0x1003 (fun _ => 0) boot_rng);
    [exact demo_ready|reflexivity|lia|by vm_compute|lia].
Defined.

(** A misaligned buffer that ends before the next aligned word makes the
    unsigned byte count wrap around: the call reports success after it has
    overwritten everything from that word to the top of the address space. *)
Theorem rdrand_get_bytes_underflows cpuid drng n dest m s :
  (forall p, draw_at drng RETRY_LIMIT p <> None) -> has_rdrand cpuid s = true ->
  0 <= dest -> dest + 4 < 2 ^ 32 -> 0 <= n < pre_len dest ->
  exists w ws m' s',
    rdrand_get_bytes cpuid drng n dest m s = (RDRAND_SUCCESS, m', s') /\
    (exists p, draws drng (S (length ws)) (pos s) = Some (w :: ws, p)) /\
    load m' (dest + pre_len dest) (Z.to_nat (2 ^ 32 - (dest + pre_len dest))) = word_bytes ws.
Proof. intros. by apply get_bytes_underflow. Qed.

Lemma rdrand_get_bytes_underflows_witness :
  exists w ws m' s',
    rdrand_get_bytes demo_cpuid demo_drng 1 0x1001 (fun _ => 0) boot_rng = (RDRAND_SUCCESS, m', s') /\
    (exists p, draws demo_drng (S (length ws)) 0 = Some (w :: ws, p)) /\
    load m' (0x1001 + pre_len 0x1001) (Z.to_nat (2 ^ 32 - (0x1001 + pre_len 0x1001))) = word_bytes ws.
Proof.
  apply (rdrand_get_bytes_underflows demo_cpuid demo_drng 1 0x1001 (fun _ => 0) boot_rng);
    [exact demo_ready|reflexivity|lia|lia|by vm_compute].
Defined.

(** C39 The bounded generator returns as soon as a draw reaches the rejection
    bound 2^32 mod upper_bound, and the result is that draw modulo the bound; the
    accepted draws are a whole number of complete residue systems. *)
Theorem randombytes_uniform_correct cpuid drng vs v ub r s p fuel :
  (forall p, draw_at drng RETRY_LIMIT p <> None) -> has_rdrand cpuid s = true ->
  2 <= ub < 2 ^ 32 ->
  draws drng (S (length vs)) (pos s) = Some (vs ++ [v], p) ->
  Forall (fun x => x < 2 ^ 32 mod ub) vs -> 2 ^ 32 mod ub <= v -> (length vs < fuel)%nat ->
  (exists s', randombytes_uniform cpuid drng fuel r ub s = Some (v mod ub, s') /\ pos s' = p) /\
  0 <= v mod ub < ub /\ (2 ^ 32 - 2 ^ 32 mod ub) mod ub = 0.
Proof.
  intros Hready Hs Hub Hd Hvs Hv Hf. unfold randombytes_uniform.
  rewrite (proj2 (Z.ltb_ge _ _)), uniform_min by lia.
  destruct (uniform_loop_spec cpuid drng Hready vs v (2 ^ 32 mod ub) r s p fuel Hs Hd Hvs Hv Hf)
    as (s' & -> & Hp). split_and!; [by exists s'|apply Z.mod_pos_bound; lia..|].
  rewrite Zminus_mod_idemp_r, Z.sub_diag. done.
Qed.

Lemma randombytes_uniform_correct_witness :
  (exists s', randombytes_uniform demo_cpuid demo_drng 5 0 100 boot_rng =
     Some (0x01010101 mod 100, s') /\ pos s' = 2%nat) /\
  0 <= 0x01010101 mod 100 < 100 /\ (2 ^ 32 - 2 ^ 32 mod 100) mod 100 = 0.
Proof.
  apply (randombytes_uniform_correct demo_cpuid demo_drng [] 0x01010101 100 0 boot_rng 2 5);
    [exact demo_ready|reflexivity|lia|reflexivity|constructor|by vm_compute|simpl; lia].
Defined.
