(* ===== verification/Aead.v ===== *)
(** The interface through which the ring buffers use authenticated encryption
    and random padding, with the laws their theorems rely on, and the instances
    that the code supplies: AES-256-GCM and RDRAND. *)

From Stdlib Require Import ZArith Lia Bool.
From stdpp Require Import base list.
From S2P Require Import Prelude AesGcm RdRand.

(** * Authenticated encryption *)

(** [aead_encrypt m ad npub k] is the sealed message, and [aead_decrypt] the
    return code, the bytes written to the output and the reported length;
    [None] when the call aborts. *)
Class Aead := {
  aead_encrypt : list Z -> list Z -> list Z -> list Z -> option (list Z);
  aead_decrypt : list Z -> list Z -> list Z -> list Z -> option (Z * list Z * Z);
}.

Definition aead_args (ad npub k : list Z) : Prop :=
  bytes ad /\ (bytes npub /\ length npub = 12%nat) /\ (bytes k /\ length k = 32%nat).

(** The two outcomes of opening a sealed message. *)
Inductive opened {A : Aead} (c ad npub k : list Z) : Z * list Z * Z -> Prop :=
| Authentic m :
    bytes m -> (length m + 16 = length c)%nat -> aead_encrypt m ad npub k = Some c ->
    opened c ad npub k (0, m, Z.of_nat (length m))
| Forged :
    (forall m, bytes m -> aead_encrypt m ad npub k <> Some c) ->
    opened c ad npub k (-1, replicate (length c - 16) 0, 0).

Class AeadLaws (A : Aead) (max : Z) : Prop := {
  aead_seals m ad npub k :
    aead_args ad npub k -> bytes m -> Z.of_nat (length m) <= max ->
    exists c, aead_encrypt m ad npub k = Some c /\ bytes c /\ length c = (length m + 16)%nat;
  aead_opens c ad npub k :
    aead_args ad npub k -> bytes c -> (16 <= length c)%nat -> Z.of_nat (length c - 16) <= max ->
    exists r, aead_decrypt c ad npub k = Some r /\ opened c ad npub k r;
  aead_injective m1 m2 c ad npub k :
    aead_args ad npub k -> bytes m1 -> bytes m2 ->
    Z.of_nat (length m1) <= max -> Z.of_nat (length m2) <= max ->
    aead_encrypt m1 ad npub k = Some c -> aead_encrypt m2 ad npub k = Some c -> m1 = m2;
}.

Section Laws.
Context {A : Aead} {max : Z} {Laws : AeadLaws A max}.

(** What was sealed opens to the same message. *)
Lemma aead_roundtrip m c ad npub k :
  aead_args ad npub k -> bytes m -> Z.of_nat (length m) <= max ->
  aead_encrypt m ad npub k = Some c ->
  aead_decrypt c ad npub k = Some (0, m, Z.of_nat (length m)).
Proof.
  intros Hargs Hm Hmax Henc.
  destruct (aead_seals m ad npub k Hargs Hm Hmax) as (c' & Henc' & Hc & Hl).
  rewrite Henc in Henc'. injection Henc' as <-.
  destruct (aead_opens c ad npub k Hargs Hc) as (r & -> & Hr); [lia..|].
  destruct Hr as [m' Hm' Hl' Henc'|Hno].
  - assert (m' = m) as ->; [|done]. eapply (aead_injective m' m c); try done. lia.
  - by destruct (Hno m Hm).
Qed.
End Laws.

(** * AES-256-GCM *)

#[export] Instance aes256gcm : Aead := {|
  aead_encrypt := crypto_aead_aes256gcm_encrypt;
  aead_decrypt := crypto_aead_aes256gcm_decrypt false;
|}.

#[export] Instance aes256gcm_laws : AeadLaws aes256gcm crypto_aead_aes256gcm_MESSAGEBYTES_MAX.
Proof.
  split; cbn [aead_encrypt aead_decrypt aes256gcm].
  - intros m ad npub k (Had & [Hn Hnl] & [Hk Hkl]) Hm Hmax. exists (sealed k npub m ad).
    rewrite encrypt_sealed, length_sealed by done. auto using bytes_sealed.
  - intros c ad npub k (Had & [Hn Hnl] & [Hk Hkl]) Hc Hl Hmax. eexists.
    rewrite decrypt_gcm by done. cbv zeta. split; [done|].
    set (m := Gcm.ciphertext k npub _).
    assert (length m = (length c - 16)%nat) as HL
      by (unfold m; rewrite length_ciphertext, length_take; lia || done).
    assert (bytes m) as Hm by (unfold m; apply bytes_ciphertext; auto with bytes).
    destruct (decide (c = sealed k npub m ad)) as [E|E].
    + constructor; [done|lia|]. cbn [aead_encrypt aes256gcm].
      rewrite encrypt_sealed by (rewrite ?HL; done). by f_equal.
    + constructor. intros m' Hm' Henc. apply E. cbn [aead_encrypt aes256gcm] in Henc.
      destruct (encrypt_inv k npub Hk Hkl Hn Hnl m' ad c Hm' Had Henc) as [-> Hmax'].
      assert (m = m') as ->; [|done]. unfold m. rewrite length_sealed, Nat.add_sub by done.
      by apply sealed_prefix.
  - intros m1 m2 c ad npub k (Had & [Hn Hnl] & [Hk Hkl]) Hm1 Hm2 _ _ H1 H2.
    apply encrypt_inv in H1 as [-> _]; try done. apply encrypt_inv in H2 as [E _]; try done.
    assert (length m1 = length m2) as HL.
    { apply (f_equal length) in E. rewrite !length_sealed in E by done. lia. }
    rewrite <- (sealed_prefix k npub Hk Hkl Hn Hnl m1 ad).
    rewrite E, HL. by apply sealed_prefix.
Qed.

(** * Random padding *)

(** [fill a n m r] fills [n] bytes at address [a]; [fill_ok] says for which
    buffers it does no more than that. *)
Class RandomFill (R : Type) := {
  fill : Z -> Z -> mem -> R -> mem * R;
  fill_ok : Z -> Z -> Prop;
}.

Class RandomFillLaws (R : Type) {F : RandomFill R} : Prop := {
  fill_frame a n m r : fill_ok a n -> frame a n m (fst (fill a n m r));
  fill_bytes a n m r : (forall x, is_byte (m x)) -> forall x, is_byte (fst (fill a n m r) x);
}.

Section RdRandFill.
Context (cpuid : Z -> cpu_info) (drng : nat -> bool * Z).

#[export] Instance rdrand_fill : RandomFill rng := {|
  fill := randombytes_buf cpuid drng;
  fill_ok a n := 0 <= a /\ pre_len a <= n /\ a + n < 2 ^ 32;
|}.

#[export] Instance rdrand_fill_laws : RandomFillLaws rng.
Proof.
  split; cbn [fill fill_ok rdrand_fill]; unfold randombytes_buf.
  - intros a n m r (Ha & Hp & Hn). pose proof (get_bytes_frame cpuid drng n a m r Ha Hp Hn) as H.
    destruct (rdrand_get_bytes _ _ _ _ _ _) as [[ret m'] r']. apply H.
  - intros a n m r Hm. pose proof (get_bytes_bytes cpuid drng n a m r Hm) as H.
    by destruct (rdrand_get_bytes _ _ _ _ _ _) as [[ret m'] r'].
Qed.
End RdRandFill.
