(* ===== verification/RingBuffer.v ===== *)
(** The shared-memory ring buffers between the SMM supervisor and the SGX
    enclave: ring_buffer.c of the supervisor (SMM side) and ring_buffer.cpp of the
    enclave (SGX side).  Both sides address the shared region at one base of a
    flat memory: address translation is not modelled.  Encryption and random
    padding are used through the classes of [Aead]. *)

From Stdlib Require Import ZArith Lia Bool.
From stdpp Require Import base list.
From S2P Require Import Prelude Smram Aead.

(** * Layout of the shared region *)

Definition SHM_SIZE : Z := Z.shiftl 1 20.
Definition PKT_SIZE : Z := Z.shiftl 1 12.
Definition MSG_SIZE : Z := PKT_SIZE - 16.
Definition IN_SMM : Z := 0x00.
Definition IN_SGX : Z := 0x01.
Definition OUT_SMM : Z := 0x02.
Definition OUT_SGX : Z := 0x03.
Definition MAX_ENTRY : nat := 64.

(** [struct metadata]: the addresses of its bytes, and its size. *)
Definition in_bitmap (base : Z) (i : nat) : Z := base + Z.of_nat i.
Definition out_bitmap (base : Z) (i : nat) : Z := base + Z.of_nat MAX_ENTRY + Z.of_nat i.
Definition sizeof_metadata : Z := PKT_SIZE.

(** The packets: 64 OUT packets after the metadata block, then 64 IN packets. *)
Definition out_slot (base : Z) (i : nat) : Z := base + sizeof_metadata + Z.of_nat i * PKT_SIZE.
Definition in_slot (base : Z) (i : nat) : Z :=
  base + sizeof_metadata + Z.of_nat (MAX_ENTRY + i) * PKT_SIZE.

(** [for (i = 0; i < MAX_ENTRY; ++i) if (v == bitmap[i]) break;]: the index where
    the loop breaks, [None] when it runs to the end. *)
Fixpoint scan (m : mem) (bitmap : nat -> Z) (v : Z) (n i : nat) : option nat :=
  match n with
  | O => None
  | S n => if v =? m (bitmap i) then Some i else scan m bitmap v n (S i)
  end.

(** The temporary key and nonce. *)
Definition key : list Z := replicate 32 (u8 0xca).
Definition nonce : list Z := replicate 12 (u8 0xff).

Definition pkt_bytes : nat := Z.to_nat PKT_SIZE.
Definition msg_bytes : nat := Z.to_nat MSG_SIZE.

(** The state of one side: memory and its random source. *)
Definition side (R : Type) : Type := mem * R.

Section Buffers.
(** [message_at] is the address of the local [message]. *)
Context {A : Aead} {R : Type} {F : RandomFill R} (message_at : Z).

(** The local [message]: the raw bytes, padded with random bytes if short. *)
Definition fill_message (raw_msg msg_len : Z) (st : side R) : side R :=
  let '(m, r) := st in
  let m := store m message_at (load m raw_msg (Z.to_nat msg_len)) in
  if msg_len <? MSG_SIZE then fill (message_at + msg_len) (MSG_SIZE - msg_len) m r else (m, r).

(** * SMM side *)

(** Returns [shmem_base], read as a 64-bit address from low memory. *)
Definition init_ring_buffer (m : mem) : Z * mem :=
  let addr := load_le m 0x64 8 in
  let shmem_base := u32 addr in
  let m := memset m shmem_base 0x0 (Z.to_nat SHM_SIZE) in
  let m := memset m (in_bitmap shmem_base 0) IN_SMM MAX_ENTRY in
  let m := memset m (out_bitmap shmem_base 0) OUT_SGX MAX_ENTRY in
  (shmem_base, m).

(** [None] when the encryption aborts. *)
Definition put_in_buffer (shmem_base raw_msg msg_len : Z) (st : side R) : option (Z * side R) :=
  if msg_len <? 0 then Some (-1, st) else
  if MSG_SIZE <? msg_len then Some (-1, st) else
  let '(m, r) := fill_message raw_msg msg_len st in
  match aead_encrypt (load m message_at msg_bytes) [] nonce key with
  | None => None
  | Some ciphertext =>
      match scan m (in_bitmap shmem_base) IN_SMM MAX_ENTRY 0 with
      | None => Some (-1, (m, r))
      | Some i =>
          let m := store m (in_slot shmem_base i) ciphertext in
          let m := store m (in_bitmap shmem_base i) [IN_SGX] in
          Some (0, (m, r))
      end
  end.

(** The variant of the network and storage firmware checks the source first. *)
Definition put_in_buffer_checked (shmem_base raw_msg msg_len : Z) (st : side R)
    : option (Z * side R) :=
  if is_within_smram raw_msg msg_len =? 0 then Some (-1, st)
  else put_in_buffer shmem_base raw_msg msg_len st.

(** Returns the code's result and the value of [*message_len]. *)
Definition get_out_buffer (shmem_base message : Z) (m : mem) : option (Z * Z * mem) :=
  if is_within_smram message MSG_SIZE =? 0 then Some (-1, 0, m) else
  match scan m (out_bitmap shmem_base) OUT_SMM MAX_ENTRY 0 with
  | None => Some (-1, 0, m)
  | Some i =>
      let ciphertext := load m (out_slot shmem_base i) pkt_bytes in
      match aead_decrypt ciphertext [] nonce key with
      | None => None
      | Some (ret, plain, found_message_len) =>
          let m := store m message plain in
          if negb (ret =? 0) then Some (-1, 0, m) else
          let m := store m (out_bitmap shmem_base i) [OUT_SGX] in
          Some (0, to_signed 32 found_message_len, m)
      end
  end.

(** * SGX side *)

Section Sgx.
Context (sgx_is_within_enclave : Z -> Z -> Z).

Definition put_out_buffer (uio_ram raw_msg msg_len : Z) (st : side R) : option (Z * side R) :=
  if sgx_is_within_enclave raw_msg msg_len =? 0 then Some (-1, st) else
  if msg_len <? 0 then Some (-1, st) else
  if MSG_SIZE <? msg_len then Some (-1, st) else
  let '(m, r) := fill_message raw_msg msg_len st in
  match aead_encrypt (load m message_at msg_bytes) [] nonce key with
  | None => None
  | Some ciphertext =>
      match scan m (out_bitmap uio_ram) OUT_SGX MAX_ENTRY 0 with
      | None => Some (-1, (m, r))
      | Some i =>
          let m := store m (out_slot uio_ram i) ciphertext in
          let m := store m (out_bitmap uio_ram i) [OUT_SMM] in
          Some (0, (m, r))
      end
  end.

(** [message_len] is the caller's variable, kept on every failure. *)
Definition get_in_buffer (uio_ram message message_len : Z) (m : mem) : option (Z * Z * mem) :=
  if sgx_is_within_enclave message MSG_SIZE =? 0 then Some (-1, message_len, m) else
  match scan m (in_bitmap uio_ram) IN_SGX MAX_ENTRY 0 with
  | None => Some (-1, message_len, m)
  | Some i =>
      let ciphertext := load m (in_slot uio_ram i) pkt_bytes in
      match aead_decrypt ciphertext [] nonce key with
      | None => None
      | Some (ret, plain, found_message_len) =>
          let m := store m message plain in
          if negb (ret =? 0) then Some (-1, message_len, m) else
          let m := store m (in_bitmap uio_ram i) [IN_SMM] in
          Some (0, to_signed 32 found_message_len, m)
      end
  end.

End Sgx.
End Buffers.

(** * Specification: two mailboxes of 64 messages *)

Module Mailbox.

(** A slot is free or holds a message. *)
Abbreviation t := (list (option (list Z))).
Definition empty : t := replicate MAX_ENTRY None.

Definition is_free (x : option (list Z)) : bool := match x with None => true | _ => false end.
Definition is_full (x : option (list Z)) : bool := negb (is_free x).

(** The first slot that satisfies [p]. *)
Fixpoint first (p : option (list Z) -> bool) (mb : t) (i : nat) : option nat :=
  match mb with
  | [] => None
  | x :: mb => if p x then Some i else first p mb (S i)
  end.

(** Deliver to the first free slot; [None] when there is none. *)
Definition put (msg : list Z) (mb : t) : option t :=
  match first is_free mb 0 with
  | Some i => Some (<[i := Some msg]> mb)
  | None => None
  end.

(** Collect from the first full slot. *)
Definition get (mb : t) : option (list Z * t) :=
  match first is_full mb 0 with
  | Some i => match mb !! i with Some (Some msg) => Some (msg, <[i := None]> mb) | _ => None end
  | None => None
  end.

(** Messages in flight. *)
Definition pending (mb : t) : list (list Z) := omap id mb.

Lemma first_spec p mb i k :
  first p mb i = Some k -> (i <= k)%nat /\ exists x, mb !! (k - i)%nat = Some x /\ p x = true.
Proof.
  revert i. induction mb as [|x mb IH]; intros i; cbn [first]; [done|].
  destruct (p x) eqn:E.
  - intros [= <-]. rewrite Nat.sub_diag. eauto.
  - intros [Hk (y & Hy & Hp)]%IH. split; [lia|]. exists y.
    replace (k - i)%nat with (S (k - S i)) by lia. done.
Qed.

Lemma first_none p mb i : first p mb i = None -> Forall (fun x => p x = false) mb.
Proof.
  revert i. induction mb as [|x mb IH]; intros i; cbn [first]; [done|].
  destruct (p x) eqn:E; [done|]. intros H. constructor; eauto.
Qed.

Lemma first_lookup p mb k : first p mb 0 = Some k -> exists x, mb !! k = Some x /\ p x = true.
Proof. intros [_ H]%first_spec. by rewrite Nat.sub_0_r in H. Qed.

Lemma get_pending mb : get mb = None <-> pending mb = [].
Proof.
  unfold get. split.
  - destruct (first is_full mb 0) as [i|] eqn:E.
    + apply first_lookup in E as (x & -> & Hx). by destruct x.
    + intros _. apply first_none in E. induction E as [|x mb Hx _ IH]; [done|]. by destruct x.
  - intros Hp. destruct (first is_full mb 0) as [i|] eqn:E; [|done].
    apply first_lookup in E as (x & Hx & Hf). destruct x as [msg|]; [|done].
    apply list_elem_of_lookup_2 in Hx. assert (msg ∈ pending mb) as Hin
      by (apply list_elem_of_omap; by exists (Some msg)).
    rewrite Hp in Hin. by apply elem_of_nil in Hin.
Qed.

(** Changing one slot changes the pending messages by its content. *)
Lemma pending_insert mb i x y :
  mb !! i = Some x ->
  exists rest, pending mb ≡ₚ option_list x ++ rest /\ pending (<[i := y]> mb) ≡ₚ option_list y ++ rest.
Proof.
  intros Hx. exists (pending (take i mb) ++ pending (drop (S i) mb)).
  assert (forall z, pending (take i mb ++ z :: drop (S i) mb) ≡ₚ
    option_list z ++ pending (take i mb) ++ pending (drop (S i) mb)) as HP.
  { intros z. unfold pending. rewrite omap_app. destruct z as [z|]; cbn [omap list_omap id option_list];
      [|done]. by rewrite <- Permutation_middle. }
  split.
  - rewrite <- (take_drop_middle mb i x Hx) at 1. apply HP.
  - rewrite insert_take_drop by (by eapply lookup_lt_Some). apply HP.
Qed.

Lemma put_pending msg mb mb' : put msg mb = Some mb' -> pending mb' ≡ₚ msg :: pending mb.
Proof.
  unfold put. destruct (first is_free mb 0) as [i|] eqn:E; [|done]. intros [= <-].
  apply first_lookup in E as (x & Hx & Hf). destruct x; [done|].
  destruct (pending_insert mb i None (Some msg) Hx) as (rest & -> & ->). done.
Qed.

Lemma get_pending_perm mb msg mb' :
  get mb = Some (msg, mb') -> pending mb ≡ₚ msg :: pending mb'.
Proof.
  unfold get. destruct (first is_full mb 0) as [i|]; [|done].
  destruct (mb !! i) as [[x|]|] eqn:E; [|done..]. intros [= <- <-].
  destruct (pending_insert mb i (Some x) None E) as (rest & -> & ->). done.
Qed.

Lemma first_prefix p mb i k :
  first p mb i = Some k -> Forall (fun x => p x = false) (take (k - i) mb).
Proof.
  revert i. induction mb as [|x mb IH]; intros i E; cbn [first] in E; [done|].
  destruct (p x) eqn:Ex; [injection E as <-; by rewrite Nat.sub_diag|].
  pose proof (first_spec _ _ _ _ E) as [Hk _].
  replace (k - i)%nat with (S (k - S i)) by lia. constructor; auto.
Qed.

(** Collecting removes the first pending message. *)
Lemma get_pending_cons mb msg mb' :
  get mb = Some (msg, mb') -> pending mb = msg :: pending mb'.
Proof.
  unfold get. destruct (first is_full mb 0) as [i|] eqn:Ef; [|done].
  destruct (mb !! i) as [[x|]|] eqn:E; [|done..]. intros [= <- <-].
  apply first_prefix in Ef. rewrite Nat.sub_0_r in Ef.
  assert (pending (take i mb) = []) as Hp.
  { induction Ef as [|y l Hy _ IH]; [done|]. by destruct y. }
  rewrite <- (take_drop_middle mb i _ E) at 1.
  rewrite insert_take_drop by (by eapply lookup_lt_Some).
  unfold pending in *. rewrite !omap_app, Hp. done.
Qed.

Lemma pending_nil mb : pending mb = [] -> mb = replicate (length mb) None.
Proof. induction mb as [|[x|] mb IH]; intros H; [done..|]. cbn. by rewrite <- IH. Qed.

Lemma length_pending mb : (length (pending mb) <= length mb)%nat.
Proof. induction mb as [|[x|] mb IH]; cbn; [done|..]; unfold pending in IH; lia. Qed.

Lemma length_put msg mb mb' : put msg mb = Some mb' -> length mb' = length mb.
Proof. unfold put. case_match; [|done]. intros [= <-]. apply length_insert. Qed.

Lemma length_get mb msg mb' : get mb = Some (msg, mb') -> length mb' = length mb.
Proof. unfold get. repeat case_match; try done. intros [= <- <-]. apply length_insert. Qed.

End Mailbox.

(** * Refinement *)

(** One direction of the channel: where its ownership bytes and packets are, and
    the values that mean free (owned by the sender) and full. *)
Record box := Box { bit : nat -> Z; slot : nat -> Z; free : Z; full : Z }.
Definition in_box (base : Z) : box := Box (in_bitmap base) (in_slot base) IN_SMM IN_SGX.
Definition out_box (base : Z) : box := Box (out_bitmap base) (out_slot base) OUT_SGX OUT_SMM.

(** The addresses of a box inside the shared region at [base]. *)
Record box_ok (base : Z) (b : box) : Prop := {
  bit_range i : (i < MAX_ENTRY)%nat -> base <= bit b i < base + sizeof_metadata;
  slot_range i : (i < MAX_ENTRY)%nat ->
    base + sizeof_metadata <= slot b i /\ slot b i + PKT_SIZE <= base + SHM_SIZE;
  bit_inj i j : bit b i = bit b j -> i = j;
  slot_disjoint i j : i <> j -> disjoint (slot b i) PKT_SIZE (slot b j) PKT_SIZE;
  free_full : free b <> full b;
  owner_bytes : is_byte (free b) /\ is_byte (full b);
}.

(** The other box occupies other bytes. *)
Definition apart (b b' : box) : Prop :=
  forall i j, (i < MAX_ENTRY)%nat -> (j < MAX_ENTRY)%nat ->
    bit b i <> bit b' j /\ disjoint (slot b i) PKT_SIZE (slot b' j) PKT_SIZE.

Ltac shm_lia :=
  unfold disjoint, in_bitmap, out_bitmap, in_slot, out_slot, sizeof_metadata, SHM_SIZE, MSG_SIZE,
    PKT_SIZE, MAX_ENTRY in *;
  change (Z.shiftl 1 20) with 1048576 in *; change (Z.shiftl 1 12) with 4096 in *; lia.

Lemma in_box_ok base : box_ok base (in_box base).
Proof. split; cbn [bit slot free full in_box]; intros; try done; shm_lia. Qed.

Lemma out_box_ok base : box_ok base (out_box base).
Proof. split; cbn [bit slot free full out_box]; intros; try done; shm_lia. Qed.

Lemma in_out_apart base : apart (in_box base) (out_box base).
Proof. intros i j Hi Hj. cbn [bit slot in_box out_box]. shm_lia. Qed.

Lemma apart_sym b b' : apart b b' -> apart b' b.
Proof. intros H i j Hi Hj. destruct (H j i Hj Hi) as [H1 H2]. split; [done|]. shm_lia. Qed.

Section Refinement.
Context {A : Aead} {R : Type} {F : RandomFill R}.

Definition sealed_at (m : mem) (a : Z) (msg : list Z) : Prop :=
  bytes msg /\ length msg = msg_bytes /\
  aead_encrypt msg [] nonce key = Some (load m a pkt_bytes).

(** Slot [i] of the box is in abstract state [x]. *)
Definition slot_holds (b : box) (m : mem) (i : nat) (x : option (list Z)) : Prop :=
  match x with
  | None => m (bit b i) = free b
  | Some msg => m (bit b i) = full b /\ sealed_at m (slot b i) msg
  end.

(** The memory implements the mailbox. *)
Definition holds (b : box) (m : mem) (mb : Mailbox.t) : Prop :=
  length mb = MAX_ENTRY /\ forall i x, mb !! i = Some x -> slot_holds b m i x.

Lemma slot_holds_ext b m m' i x :
  m' (bit b i) = m (bit b i) -> load m' (slot b i) pkt_bytes = load m (slot b i) pkt_bytes ->
  slot_holds b m i x -> slot_holds b m' i x.
Proof.
  intros Hb Hs. unfold slot_holds, sealed_at. destruct x; rewrite Hb, ?Hs; done.
Qed.

(** The code's scan finds the slot that the specification finds. *)
Lemma scan_first b m mb (p : option (list Z) -> bool) v n i :
  length mb = n ->
  (forall k x, mb !! k = Some x -> p x = (v =? m (bit b (i + k)))) ->
  scan m (bit b) v n i = Mailbox.first p mb i.
Proof.
  revert i n. induction mb as [|x mb IH]; intros i n <- Hp; [done|]. cbn [length scan Mailbox.first].
  rewrite (Hp 0%nat x eq_refl), Nat.add_0_r. destruct (v =? m (bit b i)); [done|].
  apply IH; [done|]. intros k y Hy. rewrite (Hp (S k) y Hy). by rewrite Nat.add_succ_r.
Qed.

Lemma scan_free base b m mb :
  box_ok base b -> holds b m mb ->
  scan m (bit b) (free b) MAX_ENTRY 0 = Mailbox.first Mailbox.is_free mb 0.
Proof.
  intros Hok [Hl Hh]. apply scan_first; [done|]. intros k x Hx. specialize (Hh k x Hx).
  cbn [Nat.add]. destruct x as [msg|]; cbn [slot_holds] in Hh.
  - destruct Hh as [-> _]. symmetry. apply Z.eqb_neq, (free_full base b Hok).
  - rewrite Hh. symmetry. apply Z.eqb_refl.
Qed.

Lemma scan_full base b m mb :
  box_ok base b -> holds b m mb ->
  scan m (bit b) (full b) MAX_ENTRY 0 = Mailbox.first Mailbox.is_full mb 0.
Proof.
  intros Hok [Hl Hh]. apply scan_first; [done|]. intros k x Hx. specialize (Hh k x Hx).
  cbn [Nat.add]. destruct x as [msg|]; cbn [slot_holds] in Hh.
  - destruct Hh as [-> _]. symmetry. apply Z.eqb_refl.
  - rewrite Hh. symmetry. apply Z.eqb_neq. intros E. by apply (free_full base b Hok).
Qed.

(** Memory that changes only outside the shared region implements the same
    mailboxes. *)
Lemma holds_outside base b m m' mb :
  box_ok base b -> (forall x, base <= x < base + SHM_SIZE -> m' x = m x) ->
  holds b m mb -> holds b m' mb.
Proof.
  intros Hok Hm [Hl Hh]. split; [done|]. intros i x Hx.
  assert (i < MAX_ENTRY)%nat as Hi by (rewrite <- Hl; by eapply lookup_lt_Some).
  pose proof (bit_range base b Hok i Hi). pose proof (slot_range base b Hok i Hi).
  eapply slot_holds_ext; [..|by apply Hh].
  - apply Hm. shm_lia.
  - apply load_ext. intros y Hy. apply Hm. unfold pkt_bytes in Hy. shm_lia.
Qed.

(** The two writes of a delivery, and the one of a collection. *)
Definition deliver (b : box) (i : nat) (c : list Z) (m : mem) : mem :=
  store (store m (slot b i) c) (bit b i) [full b].
Definition collect (b : box) (i : nat) (m : mem) : mem := store m (bit b i) [free b].

Lemma deliver_out b i c m y :
  length c = pkt_bytes -> y <> bit b i -> y < slot b i \/ slot b i + PKT_SIZE <= y ->
  deliver b i c m y = m y.
Proof.
  intros Hc Hb Hs. unfold deliver. rewrite !store_out; [done|rewrite Hc; unfold pkt_bytes; shm_lia|].
  simpl. lia.
Qed.

Lemma deliver_bit b i c m : deliver b i c m (bit b i) = full b.
Proof. unfold deliver. rewrite store_in by (simpl; lia). by rewrite Z.sub_diag. Qed.

Lemma collect_out b i m y : y <> bit b i -> collect b i m y = m y.
Proof. intros Hy. apply store_out. simpl. lia. Qed.

Lemma collect_bit b i m : collect b i m (bit b i) = free b.
Proof. unfold collect. rewrite store_in by (simpl; lia). by rewrite Z.sub_diag. Qed.

Section Boxes.
Context (base : Z) (b b' : box).
Context (Hok : box_ok base b) (Hok' : box_ok base b') (Hap : apart b b').

(** Delivery and collection change one slot of their own box... *)
Lemma deliver_holds m mb i msg c :
  holds b m mb -> (i < MAX_ENTRY)%nat -> bytes msg -> length msg = msg_bytes ->
  aead_encrypt msg [] nonce key = Some c -> length c = pkt_bytes ->
  holds b (deliver b i c m) (<[i := Some msg]> mb).
Proof.
  intros [Hl Hh] Hi Hb Hml Henc Hc. split; [by rewrite length_insert|].
  pose proof (bit_range base b Hok i Hi) as Hbi. pose proof (slot_range base b Hok i Hi) as Hsi.
  intros j x Hx. destruct (decide (i = j)) as [<-|Hij].
  - rewrite list_lookup_insert_eq in Hx by lia. injection Hx as <-. split; [apply deliver_bit|].
    split_and!; [done..|]. rewrite Henc. f_equal. unfold deliver.
    rewrite load_store_ne by (unfold pkt_bytes; simpl; shm_lia). symmetry. by apply load_store_eq.
  - rewrite list_lookup_insert_ne in Hx by done.
    assert (j < MAX_ENTRY)%nat as Hj by (rewrite <- Hl; by eapply lookup_lt_Some).
    pose proof (bit_range base b Hok j Hj). pose proof (slot_range base b Hok j Hj).
    pose proof (slot_disjoint base b Hok i j Hij) as Hd.
    eapply slot_holds_ext; [..|by apply Hh].
    + apply deliver_out; [done| |shm_lia]. intros E. by apply Hij, (bit_inj base b Hok).
    + apply load_ext. intros y Hy. unfold pkt_bytes in Hy. apply deliver_out; [done|shm_lia..].
Qed.

Lemma collect_holds m mb i :
  holds b m mb -> (i < MAX_ENTRY)%nat -> holds b (collect b i m) (<[i := None]> mb).
Proof.
  intros [Hl Hh] Hi. split; [by rewrite length_insert|].
  pose proof (bit_range base b Hok i Hi) as Hbi.
  intros j x Hx. destruct (decide (i = j)) as [<-|Hij].
  - rewrite list_lookup_insert_eq in Hx by lia. injection Hx as <-. apply collect_bit.
  - rewrite list_lookup_insert_ne in Hx by done.
    assert (j < MAX_ENTRY)%nat as Hj by (rewrite <- Hl; by eapply lookup_lt_Some).
    pose proof (slot_range base b Hok j Hj).
    eapply slot_holds_ext; [..|by apply Hh].
    + apply collect_out. intros E. by apply Hij, (bit_inj base b Hok).
    + apply load_ext. intros y Hy. apply collect_out. unfold pkt_bytes in Hy. shm_lia.
Qed.

(** ... and nothing of the other one. *)
Lemma deliver_other m mb i c :
  holds b' m mb -> (i < MAX_ENTRY)%nat -> length c = pkt_bytes -> holds b' (deliver b i c m) mb.
Proof.
  intros [Hl Hh] Hi Hc. split; [done|]. intros j x Hx.
  assert (j < MAX_ENTRY)%nat as Hj by (rewrite <- Hl; by eapply lookup_lt_Some).
  pose proof (bit_range base b Hok i Hi). pose proof (slot_range base b Hok i Hi).
  pose proof (bit_range base b' Hok' j Hj). pose proof (slot_range base b' Hok' j Hj).
  destruct (Hap i j Hi Hj) as [Hne Hd]. eapply slot_holds_ext; [..|by apply Hh].
  - apply deliver_out; [done|congruence|shm_lia].
  - apply load_ext. intros y Hy. unfold pkt_bytes in Hy. apply deliver_out; [done|shm_lia..].
Qed.

Lemma collect_other m mb i :
  holds b' m mb -> (i < MAX_ENTRY)%nat -> holds b' (collect b i m) mb.
Proof.
  intros [Hl Hh] Hi. split; [done|]. intros j x Hx.
  assert (j < MAX_ENTRY)%nat as Hj by (rewrite <- Hl; by eapply lookup_lt_Some).
  pose proof (bit_range base b Hok i Hi). pose proof (slot_range base b' Hok' j Hj).
  destruct (Hap i j Hi Hj) as [Hne Hd]. eapply slot_holds_ext; [..|by apply Hh].
  - apply collect_out. congruence.
  - apply load_ext. intros y Hy. apply collect_out. unfold pkt_bytes in Hy. shm_lia.
Qed.
End Boxes.
End Refinement.

(** * The operations *)

Abbreviation all_bytes m := (forall x, is_byte (m x)).

Lemma channel_args : aead_args [] nonce key.
Proof.
  split; [by apply Forall_nil_2|].
  split; (split; [by apply bytes_replicate|done]).
Qed.

Section Operations.
Context {A : Aead} {max : Z} {Laws : AeadLaws A max} (Hmax : MSG_SIZE <= max).
Context {R : Type} {F : RandomFill R} {FL : RandomFillLaws R} (message_at base : Z).

(** The local [message] is outside the shared region and its padding is one that
    the random source fills exactly. *)
Record local_ok : Prop := {
  local_apart : disjoint message_at MSG_SIZE base SHM_SIZE;
  local_pad len : 0 <= len < MSG_SIZE -> fill_ok (message_at + len) (MSG_SIZE - len);
}.
Context (Hlocal : local_ok).

Lemma fill_message_spec raw len m r :
  all_bytes m -> 0 <= len <= MSG_SIZE ->
  exists m' r', fill_message message_at raw len (m, r) = (m', r') /\ all_bytes m' /\
    frame message_at MSG_SIZE m m' /\
    take (Z.to_nat len) (load m' message_at msg_bytes) = load m raw (Z.to_nat len).
Proof.
  intros Hm Hlen. unfold fill_message. set (m1 := store m message_at _).
  assert (all_bytes m1) as Hm1 by (apply is_byte_store; [done|by apply bytes_load]).
  assert (frame message_at MSG_SIZE m m1) as HF1
    by (apply frame_store; rewrite ?length_load; shm_lia).
  assert (forall m', frame (message_at + len) (MSG_SIZE - len) m1 m' ->
    take (Z.to_nat len) (load m' message_at msg_bytes) = load m raw (Z.to_nat len)) as HT.
  { intros m' HF. unfold msg_bytes.
    replace (Z.to_nat MSG_SIZE) with (Z.to_nat len + Z.to_nat (MSG_SIZE - len))%nat by lia.
    rewrite load_app, take_app_length' by (by rewrite length_load).
    rewrite (frame_load _ _ _ _ _ _ HF) by (unfold disjoint; lia).
    apply load_store_eq. by rewrite length_load. }
  destruct (Z.ltb_spec len MSG_SIZE).
  - pose proof (fill_frame (message_at + len) (MSG_SIZE - len) m1 r
      (local_pad Hlocal len ltac:(lia))) as HF2.
    pose proof (fill_bytes (message_at + len) (MSG_SIZE - len) m1 r Hm1) as HB2.
    destruct (fill _ _ m1 r) as [m' r']. cbn [fst] in *. exists m', r'. split_and!; auto.
    eapply frame_trans; [exact HF1|]. eapply frame_weaken; [..|exact HF2]; lia.
  - exists m1, r. split_and!; auto. apply HT, frame_refl.
Qed.

(** The body shared by the two senders and by the two receivers. *)
Definition put_at (b : box) (raw len : Z) (st : side R) : option (Z * side R) :=
  let '(m, r) := fill_message message_at raw len st in
  match aead_encrypt (load m message_at msg_bytes) [] nonce key with
  | None => None
  | Some c =>
      match scan m (bit b) (free b) MAX_ENTRY 0 with
      | None => Some (-1, (m, r))
      | Some i => Some (0, (deliver b i c m, r))
      end
  end.

Definition get_at (b : box) (message fail_len : Z) (m : mem) : option (Z * Z * mem) :=
  match scan m (bit b) (full b) MAX_ENTRY 0 with
  | None => Some (-1, fail_len, m)
  | Some i =>
      match aead_decrypt (load m (slot b i) pkt_bytes) [] nonce key with
      | None => None
      | Some (ret, plain, n) =>
          let m := store m message plain in
          if negb (ret =? 0) then Some (-1, fail_len, m)
          else Some (0, to_signed 32 n, collect b i m)
      end
  end.

Lemma put_in_buffer_at raw len st :
  0 <= len <= MSG_SIZE -> put_in_buffer message_at base raw len st = put_at (in_box base) raw len st.
Proof.
  intros Hlen. unfold put_in_buffer. rewrite !(proj2 (Z.ltb_ge _ _)) by lia. reflexivity.
Qed.

(** A length the sender refuses. *)
Lemma put_in_buffer_refused raw len st :
  ~ 0 <= len <= MSG_SIZE -> put_in_buffer message_at base raw len st = Some (-1, st).
Proof.
  intros Hlen. unfold put_in_buffer. destruct (Z.ltb_spec len 0); [done|].
  by rewrite (proj2 (Z.ltb_lt _ _)) by lia.
Qed.

Lemma put_out_buffer_refused within raw len st :
  within raw len = 0 \/ ~ 0 <= len <= MSG_SIZE ->
  put_out_buffer message_at within base raw len st = Some (-1, st).
Proof.
  intros H. unfold put_out_buffer. destruct (Z.eqb_spec (within raw len) 0); [done|].
  destruct (Z.ltb_spec len 0); [done|]. by rewrite (proj2 (Z.ltb_lt _ _)) by lia.
Qed.

Lemma put_out_buffer_at within raw len st :
  within raw len <> 0 -> 0 <= len <= MSG_SIZE ->
  put_out_buffer message_at within base raw len st = put_at (out_box base) raw len st.
Proof.
  intros Hw Hlen. unfold put_out_buffer.
  rewrite (proj2 (Z.eqb_neq _ _)), !(proj2 (Z.ltb_ge _ _)) by (done || lia). reflexivity.
Qed.

Lemma get_out_buffer_at message m :
  is_within_smram message MSG_SIZE <> 0 ->
  get_out_buffer base message m = get_at (out_box base) message 0 m.
Proof. intros Hw. unfold get_out_buffer. by rewrite (proj2 (Z.eqb_neq _ _)) by done. Qed.

Lemma get_in_buffer_at within message message_len m :
  within message MSG_SIZE <> 0 ->
  get_in_buffer within base message message_len m = get_at (in_box base) message message_len m.
Proof. intros Hw. unfold get_in_buffer. by rewrite (proj2 (Z.eqb_neq _ _)) by done. Qed.

(** * Sending and receiving refine the mailbox *)

Lemma msg_bytes_Z : Z.of_nat msg_bytes = MSG_SIZE.
Proof. reflexivity. Qed.

Section Refines.
Context (b b' : box) (Hok : box_ok base b) (Hok' : box_ok base b') (Hap : apart b b').

(** Bytes outside the shared region and outside [a, a + n) are unchanged. *)
Definition untouched (a n : Z) (m m' : mem) : Prop :=
  forall x, (x < base \/ base + SHM_SIZE <= x) -> (x < a \/ a + n <= x) -> m' x = m x.

Lemma put_at_refines raw len m r mb mb' :
  all_bytes m -> holds b m mb -> holds b' m mb' -> 0 <= len <= MSG_SIZE ->
  exists msg ret m' r',
    put_at b raw len (m, r) = Some (ret, (m', r')) /\
    bytes msg /\ length msg = msg_bytes /\ load m' message_at msg_bytes = msg /\
    take (Z.to_nat len) msg = load m raw (Z.to_nat len) /\
    match Mailbox.put msg mb with
    | Some mb1 => ret = 0 /\ holds b m' mb1
    | None => ret = -1 /\ holds b m' mb
    end /\
    holds b' m' mb' /\ all_bytes m' /\ untouched message_at MSG_SIZE m m'.
Proof.
  intros Hm Hb Hb' Hlen.
  destruct (fill_message_spec raw len m r Hm Hlen) as (m1 & r1 & HE & Hm1 & HF & HT).
  assert (forall x, base <= x < base + SHM_SIZE -> m1 x = m x) as Hsh.
  { intros x Hx. apply HF. pose proof (local_apart Hlocal). shm_lia. }
  apply (holds_outside base b m m1) in Hb; [|done..].
  apply (holds_outside base b' m m1) in Hb'; [|done..].
  set (msg := load m1 message_at msg_bytes) in *.
  assert (bytes msg) as Hmb by (by apply bytes_load).
  assert (length msg = msg_bytes) as Hml by apply length_load.
  destruct (aead_seals msg [] nonce key channel_args Hmb) as (c & Henc & Hcb & Hcl).
  { rewrite Hml. unfold msg_bytes. rewrite Z2Nat.id by (by vm_compute). done. }
  assert (length c = pkt_bytes) as Hc by (rewrite Hcl, Hml; reflexivity).
  exists msg. unfold put_at. rewrite HE. fold msg. rewrite Henc, (scan_free base b m1 mb) by done.
  unfold Mailbox.put. destruct (Mailbox.first Mailbox.is_free mb 0) as [i|] eqn:Ei.
  - assert (i < MAX_ENTRY)%nat as Hi.
    { rewrite <- (proj1 Hb). apply Mailbox.first_lookup in Ei as (x & Hx & _).
      by eapply lookup_lt_Some. }
    pose proof (bit_range base b Hok i Hi). pose proof (slot_range base b Hok i Hi).
    exists 0, (deliver b i c m1), r1.
    do 3 (split; [assumption || reflexivity|]). split; [|split; [exact HT|]].
    { apply load_ext. intros x Hx. rewrite msg_bytes_Z in Hx. pose proof (local_apart Hlocal).
      apply deliver_out; [done|shm_lia..]. }
    split; [split; [reflexivity|]|split; [|split]].
    + by eapply deliver_holds.
    + by eapply deliver_other.
    + unfold deliver. apply is_byte_store; [by apply is_byte_store|].
      forall_list. apply (owner_bytes base b Hok).
    + intros x Hx Hx'. rewrite deliver_out; [by apply HF|done|shm_lia..].
  - exists (-1), m1, r1. do 5 (split; [assumption || reflexivity|]).
    split; [by split|]. do 2 (split; [assumption|]). intros x _ Hx'. by apply HF.
Qed.

Lemma pkt_msg : pkt_bytes = (msg_bytes + 16)%nat.
Proof. reflexivity. Qed.

Lemma scan_lt m bitmap v n i k : scan m bitmap v n i = Some k -> (i <= k < i + n)%nat /\ m (bitmap k) = v.
Proof.
  revert i. induction n as [|n IH]; intros i; cbn [scan]; [done|].
  destruct (Z.eqb_spec v (m (bitmap i))) as [E|E]; [intros [= <-]; split; [lia|done]|].
  intros [H1 H2]%IH. split; [lia|done].
Qed.

Lemma scan_ext m m' bitmap v n i :
  (forall k, (i <= k < i + n)%nat -> m' (bitmap k) = m (bitmap k)) ->
  scan m' bitmap v n i = scan m bitmap v n i.
Proof.
  revert i. induction n as [|n IH]; intros i Hk; [done|]. cbn [scan].
  rewrite Hk by lia. case_match; [done|]. apply IH. intros k Hk'. apply Hk. lia.
Qed.

(** Receiving from any memory, also one that an adversary wrote. *)
Inductive received (m : mem) (message fail_len : Z) : Z * Z * mem -> Prop :=
| Nothing :
    scan m (bit b) (full b) MAX_ENTRY 0 = None -> received m message fail_len (-1, fail_len, m)
| Accepted i msg :
    scan m (bit b) (full b) MAX_ENTRY 0 = Some i ->
    sealed_at m (slot b i) msg ->
    received m message fail_len (0, MSG_SIZE, collect b i (store m message msg))
| Rejected i :
    scan m (bit b) (full b) MAX_ENTRY 0 = Some i ->
    (forall msg, ~ sealed_at m (slot b i) msg) ->
    received m message fail_len (-1, fail_len, store m message (replicate msg_bytes 0)).

Lemma get_at_received message fail_len m :
  all_bytes m -> exists r, get_at b message fail_len m = Some r /\ received m message fail_len r.
Proof.
  intros Hm. unfold get_at.
  destruct (scan m (bit b) (full b) MAX_ENTRY 0) as [i|] eqn:E; [|eexists; split; [done|by constructor]].
  destruct (aead_opens (load m (slot b i) pkt_bytes) [] nonce key channel_args) as (r & -> & Hr).
  - by apply bytes_load.
  - rewrite length_load, pkt_msg. lia.
  - rewrite length_load, pkt_msg, Nat.add_sub, msg_bytes_Z. exact Hmax.
  - destruct Hr as [msg Hmb Hml Henc|Hno].
    + rewrite length_load, pkt_msg in Hml. assert (length msg = msg_bytes) as Hl by lia.
      cbn [negb Z.eqb]. rewrite Hl, msg_bytes_Z. change (to_signed 32 MSG_SIZE) with MSG_SIZE.
      eexists. split; [done|]. by apply Accepted.
    + cbn [negb Z.eqb]. eexists. split; [done|]. rewrite length_load.
      rewrite pkt_msg, Nat.add_sub. apply (Rejected _ _ _ i); [done|].
      intros msg (Hmb & _ & Henc). by apply (Hno msg).
Qed.

Lemma get_at_refines message fail_len m mb mb' :
  all_bytes m -> holds b m mb -> holds b' m mb' -> disjoint message MSG_SIZE base SHM_SIZE ->
  match Mailbox.get mb with
  | Some (msg, mb1) =>
      exists m', get_at b message fail_len m = Some (0, MSG_SIZE, m') /\
        load m' message msg_bytes = msg /\ holds b m' mb1 /\ holds b' m' mb' /\
        all_bytes m' /\ untouched message MSG_SIZE m m'
  | None => get_at b message fail_len m = Some (-1, fail_len, m)
  end.
Proof.
  intros Hm Hb Hb' Hd. destruct (get_at_received message fail_len m Hm) as (r & Hr & Hrec).
  unfold Mailbox.get. rewrite <- (scan_full base b m mb) by done.
  destruct Hrec as [E|i msg E Hs|i E Hs]; rewrite E.
  - done.
  - destruct (scan_lt _ _ _ _ _ _ E) as [[_ Hi] Hfull]. cbn [Nat.add] in Hi.
    destruct (mb !! i) as [x|] eqn:Ex; [|apply lookup_ge_None in Ex; rewrite (proj1 Hb) in Ex; lia].
    pose proof (proj2 Hb i x Ex) as Hx. destruct x as [msg'|]; cbn [slot_holds] in Hx;
      [|rewrite Hfull in Hx; by destruct (free_full base b Hok)].
    assert (msg' = msg) as ->.
    { destruct Hx as [_ (B1 & L1 & E1)]. destruct Hs as (B2 & L2 & E2).
      eapply (aead_injective msg' msg); try done; [exact channel_args|..];
        rewrite ?L1, ?L2, msg_bytes_Z; done. }
    destruct Hs as (Bm & Lm & Em). set (m1 := store m message msg) in *.
    pose proof (bit_range base b Hok i Hi) as Hbit.
    assert (forall x, base <= x < base + SHM_SIZE -> m1 x = m x) as Hsh.
    { intros x Hx'. apply store_out. rewrite Lm, msg_bytes_Z. shm_lia. }
    exists (collect b i m1). split; [exact Hr|]. split; [|split; [|split; [|split]]].
    + unfold collect. rewrite load_store_ne by (rewrite msg_bytes_Z; simpl; shm_lia).
      apply load_store_eq. by rewrite Lm.
    + eapply collect_holds; [done| |done]. by eapply holds_outside.
    + eapply collect_other; [done..| |done]. by eapply holds_outside.
    + unfold collect. apply is_byte_store; [by apply is_byte_store|].
      forall_list. apply (owner_bytes base b Hok).
    + intros x Hx1 Hx2. rewrite collect_out by shm_lia. apply store_out. rewrite Lm, msg_bytes_Z. lia.
  - destruct (scan_lt _ _ _ _ _ _ E) as [[_ Hi] Hfull]. cbn [Nat.add] in Hi.
    destruct (mb !! i) as [x|] eqn:Ex; [|apply lookup_ge_None in Ex; rewrite (proj1 Hb) in Ex; lia].
    pose proof (proj2 Hb i x Ex) as Hx. destruct x as [msg'|]; cbn [slot_holds] in Hx.
    + exfalso. apply (Hs msg'), Hx.
    + rewrite Hfull in Hx. by destruct (free_full base b Hok).
Qed.
End Refines.
End Operations.

(** * The initial state *)

Lemma memset_in m a c n x :
  a <= x < a + Z.of_nat n -> memset m a c n x = u8 c.
Proof.
  intros Hx. unfold memset. rewrite store_in by (rewrite length_replicate; lia).
  apply nth_lookup_Some, lookup_replicate_2. lia.
Qed.

Lemma memset_out m a c n x : x < a \/ a + Z.of_nat n <= x -> memset m a c n x = m x.
Proof. intros Hx. apply store_out. by rewrite length_replicate. Qed.

Lemma init_holds {A : Aead} m :
  let '(base, m') := init_ring_buffer m in
  holds (in_box base) m' Mailbox.empty /\ holds (out_box base) m' Mailbox.empty /\
  frame base SHM_SIZE m m'.
Proof.
  unfold init_ring_buffer. cbv zeta. set (base := u32 (load_le m 0x64 8)).
  split_and!.
  - split; [done|]. intros i x Hx. apply lookup_replicate in Hx as [-> Hi].
    cbn [slot_holds bit free in_box]. rewrite memset_out, memset_in by shm_lia. done.
  - split; [done|]. intros i x Hx. apply lookup_replicate in Hx as [-> Hi].
    cbn [slot_holds bit free out_box]. rewrite memset_in by shm_lia. done.
  - intros x Hx. rewrite !memset_out by shm_lia. done.
Qed.

Lemma init_bytes m : all_bytes m -> all_bytes (snd (init_ring_buffer m)).
Proof.
  intros Hm. unfold init_ring_buffer. cbn [snd]. unfold memset.
  repeat (apply is_byte_store; [|apply bytes_replicate, is_byte_u8]). done.
Qed.

(** * Properties *)

(** Initialisation takes the region's address from low memory, leaves both
    mailboxes empty with every IN packet owned by SMM and every OUT packet by SGX,
    and writes nothing outside the region. *)
Theorem init_ring_buffer_empty {A : Aead} m :
  let '(base, m') := init_ring_buffer m in
  base = u32 (load_le m 0x64 8) /\
  holds (in_box base) m' Mailbox.empty /\ holds (out_box base) m' Mailbox.empty /\
  frame base SHM_SIZE m m'.
Proof. split; [done|]. apply init_holds. Qed.

(** C6 The supervisor's send seals the raw bytes, padded to a full packet, into
    the first free IN slot, or reports -1 when the 64 slots are taken; the
    other direction and the memory outside are untouched. *)
Theorem put_in_buffer_refines {A max} {Laws : AeadLaws A max} {R} {F : RandomFill R}
    {FL : RandomFillLaws R} message_at base raw len m r mi mo :
  MSG_SIZE <= max -> local_ok message_at base ->
  all_bytes m -> holds (in_box base) m mi -> holds (out_box base) m mo -> 0 <= len <= MSG_SIZE ->
  exists msg ret m' r',
    put_in_buffer message_at base raw len (m, r) = Some (ret, (m', r')) /\
    bytes msg /\ length msg = msg_bytes /\ load m' message_at msg_bytes = msg /\
    take (Z.to_nat len) msg = load m raw (Z.to_nat len) /\
    match Mailbox.put msg mi with
    | Some mi' => ret = 0 /\ holds (in_box base) m' mi'
    | None => ret = -1 /\ holds (in_box base) m' mi
    end /\
    holds (out_box base) m' mo /\ all_bytes m' /\ untouched base message_at MSG_SIZE m m'.
Proof.
  intros Hmax Hlocal Hm Hi Ho Hlen. rewrite put_in_buffer_at by done.
  eapply put_at_refines; eauto using in_box_ok, out_box_ok, in_out_apart.
Qed.

(** The supervisor's stack in SMRAM and the shared region high above it. *)
Definition demo_base : Z := 0x1000000.
Definition demo_message : Z := 0xa4000.
Definition demo_mem : mem := snd (init_ring_buffer (store_le (fun _ => 0) 0x64 8 demo_base)).

Lemma demo_local :
  local_ok (F := rdrand_fill RdRand.demo_cpuid RdRand.demo_drng) demo_message demo_base.
Proof.
  split; [left; by vm_compute|]. intros len Hlen. cbn [fill_ok rdrand_fill].
  unfold RdRand.pre_len, demo_message in *. change MSG_SIZE with 4080 in *.
  pose proof (Z.div_mod (- (0xa4000 + len)) 4 ltac:(lia)).
  pose proof (Z.mod_pos_bound (- (0xa4000 + len)) 4 ltac:(lia)). lia.
Qed.

Lemma demo_bytes : all_bytes demo_mem.
Proof.
  apply init_bytes, is_byte_store; [done|apply bytes_le_bytes].
Qed.

Lemma demo_empty :
  holds (in_box demo_base) demo_mem Mailbox.empty /\ holds (out_box demo_base) demo_mem Mailbox.empty.
Proof.
  pose proof (init_holds (store_le (fun _ => 0) 0x64 8 demo_base)) as H. unfold demo_mem.
  destruct (init_ring_buffer _) as [base m'] eqn:E. cbn [snd].
  assert (base = demo_base) as ->; [|destruct H as (H1 & H2 & _); done].
  unfold init_ring_buffer in E. injection E as <- _. reflexivity.
Qed.

Lemma put_in_buffer_refines_witness :
  let F := rdrand_fill RdRand.demo_cpuid RdRand.demo_drng in
  exists msg ret m' r',
    put_in_buffer demo_message demo_base 0x2000 5 (demo_mem, RdRand.boot_rng) = Some (ret, (m', r')) /\
    bytes msg /\ length msg = msg_bytes /\ load m' demo_message msg_bytes = msg /\
    take (Z.to_nat 5) msg = load demo_mem 0x2000 (Z.to_nat 5) /\
    match Mailbox.put msg Mailbox.empty with
    | Some mi' => ret = 0 /\ holds (in_box demo_base) m' mi'
    | None => ret = -1 /\ holds (in_box demo_base) m' Mailbox.empty
    end /\
    holds (out_box demo_base) m' Mailbox.empty /\ all_bytes m' /\
    untouched demo_base demo_message MSG_SIZE demo_mem m'.
Proof.
  cbv zeta. unshelve eapply (put_in_buffer_refines (max := AesGcm.crypto_aead_aes256gcm_MESSAGEBYTES_MAX)
    (FL := rdrand_fill_laws RdRand.demo_cpuid RdRand.demo_drng)).
  - by vm_compute.
  - exact demo_local.
  - exact demo_bytes.
  - exact (proj1 demo_empty).
  - exact (proj2 demo_empty).
  - split; by vm_compute.
Defined.

(** The enclave's send does the same for the OUT packets, when the raw
    message lies inside the enclave. *)
Theorem put_out_buffer_refines {A max} {Laws : AeadLaws A max} {R} {F : RandomFill R}
    {FL : RandomFillLaws R} within message_at base raw len m r mi mo :
  MSG_SIZE <= max -> local_ok message_at base -> within raw len <> 0 ->
  all_bytes m -> holds (in_box base) m mi -> holds (out_box base) m mo -> 0 <= len <= MSG_SIZE ->
  exists msg ret m' r',
    put_out_buffer message_at within base raw len (m, r) = Some (ret, (m', r')) /\
    bytes msg /\ length msg = msg_bytes /\ load m' message_at msg_bytes = msg /\
    take (Z.to_nat len) msg = load m raw (Z.to_nat len) /\
    match Mailbox.put msg mo with
    | Some mo' => ret = 0 /\ holds (out_box base) m' mo'
    | None => ret = -1 /\ holds (out_box base) m' mo
    end /\
    holds (in_box base) m' mi /\ all_bytes m' /\ untouched base message_at MSG_SIZE m m'.
Proof.
  intros Hmax Hlocal Hw Hm Hi Ho Hlen. rewrite put_out_buffer_at by done.
  eapply put_at_refines; eauto using in_box_ok, out_box_ok, in_out_apart, apart_sym.
Qed.

Lemma put_out_buffer_refines_witness :
  let F := rdrand_fill RdRand.demo_cpuid RdRand.demo_drng in
  exists msg ret m' r',
    put_out_buffer demo_message (fun _ _ => 1) demo_base 0x2000 5 (demo_mem, RdRand.boot_rng) =
      Some (ret, (m', r')) /\
    bytes msg /\ length msg = msg_bytes /\ load m' demo_message msg_bytes = msg /\
    take (Z.to_nat 5) msg = load demo_mem 0x2000 (Z.to_nat 5) /\
    match Mailbox.put msg Mailbox.empty with
    | Some mo' => ret = 0 /\ holds (out_box demo_base) m' mo'
    | None => ret = -1 /\ holds (out_box demo_base) m' Mailbox.empty
    end /\
    holds (in_box demo_base) m' Mailbox.empty /\ all_bytes m' /\
    untouched demo_base demo_message MSG_SIZE demo_mem m'.
Proof.
  cbv zeta. unshelve eapply (put_out_buffer_refines (max := AesGcm.crypto_aead_aes256gcm_MESSAGEBYTES_MAX)
    (FL := rdrand_fill_laws RdRand.demo_cpuid RdRand.demo_drng)).
  - by vm_compute.
  - exact demo_local.
  - done.
  - exact demo_bytes.
  - exact (proj1 demo_empty).
  - exact (proj2 demo_empty).
  - split; by vm_compute.
Defined.

(** C5 The enclave's receive returns the message of the first full IN slot,
    with its length, and frees the slot; on an empty mailbox it returns -1 and
    changes nothing. *)
Theorem get_in_buffer_refines {A max} {Laws : AeadLaws A max} within base message message_len m mi mo :
  MSG_SIZE <= max -> within message MSG_SIZE <> 0 -> disjoint message MSG_SIZE base SHM_SIZE ->
  all_bytes m -> holds (in_box base) m mi -> holds (out_box base) m mo ->
  match Mailbox.get mi with
  | Some (msg, mi') =>
      exists m', get_in_buffer within base message message_len m = Some (0, MSG_SIZE, m') /\
        load m' message msg_bytes = msg /\
        holds (in_box base) m' mi' /\ holds (out_box base) m' mo /\
        all_bytes m' /\ untouched base message MSG_SIZE m m'
  | None => get_in_buffer within base message message_len m = Some (-1, message_len, m)
  end.
Proof.
  intros Hmax Hw Hd Hm Hi Ho. rewrite get_in_buffer_at by done.
  eapply get_at_refines; eauto using in_box_ok, out_box_ok, in_out_apart.
Qed.

Lemma get_in_buffer_refines_witness :
  match Mailbox.get Mailbox.empty with
  | Some (msg, mi') =>
      exists m', get_in_buffer (fun _ _ => 1) demo_base 0x3000 7 demo_mem = Some (0, MSG_SIZE, m') /\
        load m' 0x3000 msg_bytes = msg /\
        holds (in_box demo_base) m' mi' /\ holds (out_box demo_base) m' Mailbox.empty /\
        all_bytes m' /\ untouched demo_base 0x3000 MSG_SIZE demo_mem m'
  | None => get_in_buffer (fun _ _ => 1) demo_base 0x3000 7 demo_mem = Some (-1, 7, demo_mem)
  end.
Proof.
  unshelve eapply (get_in_buffer_refines (max := AesGcm.crypto_aead_aes256gcm_MESSAGEBYTES_MAX)).
  - by vm_compute.
  - done.
  - left. by vm_compute.
  - exact demo_bytes.
  - exact (proj1 demo_empty).
  - exact (proj2 demo_empty).
Defined.

(** The supervisor's receive does the same for the OUT packets, into a buffer
    that it checks to lie in SMRAM. *)
Theorem get_out_buffer_refines {A max} {Laws : AeadLaws A max} base message m mi mo :
  MSG_SIZE <= max -> is_within_smram message MSG_SIZE <> 0 -> disjoint message MSG_SIZE base SHM_SIZE ->
  all_bytes m -> holds (in_box base) m mi -> holds (out_box base) m mo ->
  match Mailbox.get mo with
  | Some (msg, mo') =>
      exists m', get_out_buffer base message m = Some (0, MSG_SIZE, m') /\
        load m' message msg_bytes = msg /\
        holds (out_box base) m' mo' /\ holds (in_box base) m' mi /\
        all_bytes m' /\ untouched base message MSG_SIZE m m'
  | None => get_out_buffer base message m = Some (-1, 0, m)
  end.
Proof.
  intros Hmax Hw Hd Hm Hi Ho. rewrite get_out_buffer_at by done.
  eapply get_at_refines; eauto using in_box_ok, out_box_ok, in_out_apart, apart_sym.
Qed.

Lemma get_out_buffer_refines_witness :
  match Mailbox.get Mailbox.empty with
  | Some (msg, mo') =>
      exists m', get_out_buffer demo_base 0xa8000 demo_mem = Some (0, MSG_SIZE, m') /\
        load m' 0xa8000 msg_bytes = msg /\
        holds (out_box demo_base) m' mo' /\ holds (in_box demo_base) m' Mailbox.empty /\
        all_bytes m' /\ untouched demo_base 0xa8000 MSG_SIZE demo_mem m'
  | None => get_out_buffer demo_base 0xa8000 demo_mem = Some (-1, 0, demo_mem)
  end.
Proof.
  unshelve eapply (get_out_buffer_refines (max := AesGcm.crypto_aead_aes256gcm_MESSAGEBYTES_MAX)).
  - by vm_compute.
  - by vm_compute.
  - left. by vm_compute.
  - exact demo_bytes.
  - exact (proj1 demo_empty).
  - exact (proj2 demo_empty).
Defined.

(** C8 Against an adversary who writes anything to the shared region: receiving
    never aborts, and when it reports success the bytes delivered are those of a
    message whose sealing under the channel key is the packet in memory. *)
Theorem get_in_buffer_authentic {A max} {Laws : AeadLaws A max} within base message message_len m :
  MSG_SIZE <= max -> all_bytes m ->
  exists ret n m', get_in_buffer within base message message_len m = Some (ret, n, m') /\
    (ret = 0 \/ ret = -1) /\
    (ret = 0 -> n = MSG_SIZE /\ exists i msg, (i < MAX_ENTRY)%nat /\ m (in_bitmap base i) = IN_SGX /\
      sealed_at m (in_slot base i) msg /\
      m' = store (store m message msg) (in_bitmap base i) [IN_SMM]).
Proof.
  intros Hmax Hm. destruct (Z.eqb_spec (within message MSG_SIZE) 0) as [E|E].
  - exists (-1), message_len, m. unfold get_in_buffer. rewrite E. split_and!; auto. done.
  - rewrite get_in_buffer_at by done.
    destruct (get_at_received (A := A) Hmax (in_box base) message message_len m Hm) as (r & -> & Hr).
    destruct Hr as [_|i msg Hs Hseal|i _ _]; do 3 eexists; (split; [done|split; [auto|]]); try done.
    intros _. split; [done|]. apply scan_lt in Hs as [[_ Hi] Hfull]. by exists i, msg.
Qed.

Lemma get_in_buffer_authentic_witness :
  exists ret n m', get_in_buffer (fun _ _ => 1) demo_base 0x3000 7 demo_mem = Some (ret, n, m') /\
    (ret = 0 \/ ret = -1) /\
    (ret = 0 -> n = MSG_SIZE /\ exists i msg, (i < MAX_ENTRY)%nat /\
      demo_mem (in_bitmap demo_base i) = IN_SGX /\
      sealed_at demo_mem (in_slot demo_base i) msg /\
      m' = store (store demo_mem 0x3000 msg) (in_bitmap demo_base i) [IN_SMM]).
Proof.
  unshelve eapply (get_in_buffer_authentic (max := AesGcm.crypto_aead_aes256gcm_MESSAGEBYTES_MAX)).
  - by vm_compute.
  - exact demo_bytes.
Defined.

(** C40 A packet that was not sealed under the key, in the first slot marked
    full, blocks the direction: every receive fails with -1 and leaves the shared
    region as it was, so the next one meets the same packet. *)
Theorem forged_packet_blocks {A max} {Laws : AeadLaws A max} within base message message_len m i :
  MSG_SIZE <= max -> disjoint message MSG_SIZE base SHM_SIZE -> all_bytes m ->
  scan m (in_bitmap base) IN_SGX MAX_ENTRY 0 = Some i ->
  (forall msg, ~ sealed_at m (in_slot base i) msg) ->
  exists m', get_in_buffer within base message message_len m = Some (-1, message_len, m') /\
    (forall x, base <= x < base + SHM_SIZE -> m' x = m x) /\
    scan m' (in_bitmap base) IN_SGX MAX_ENTRY 0 = Some i /\
    (forall msg, ~ sealed_at m' (in_slot base i) msg).
Proof.
  intros Hmax Hd Hm Hscan Hno. destruct (Z.eqb_spec (within message MSG_SIZE) 0) as [E|E].
  - exists m. unfold get_in_buffer. rewrite E. by split_and!.
  - rewrite get_in_buffer_at by done.
    destruct (get_at_received (A := A) Hmax (in_box base) message message_len m Hm) as (r & -> & Hr).
    cbn [bit slot full in_box] in Hr.
    destruct Hr as [Hs|j msg Hs Hseal|j Hs _]; cbn [bit slot full in_box] in *;
      rewrite Hscan in Hs; [done| |].
    + injection Hs as <-. by destruct (Hno msg).
    + pose proof (scan_lt _ _ _ _ _ _ Hscan) as [[_ Hi] _]. cbn [Nat.add] in Hi.
      set (m' := store m message (replicate msg_bytes 0)).
      assert (forall x, base <= x < base + SHM_SIZE -> m' x = m x) as Hsh.
      { intros x Hx. apply store_out. rewrite length_replicate, msg_bytes_Z. shm_lia. }
      exists m'. split; [done|]. split; [done|]. split.
      * rewrite <- Hscan. apply scan_ext. intros k Hk. apply Hsh. shm_lia.
      * intros msg (B & L & S). apply (Hno msg). split_and!; [done..|]. rewrite S. f_equal.
        apply load_ext. intros x Hx. apply Hsh. unfold pkt_bytes in Hx. shm_lia.
Qed.

(** A sealing that appends a constant tag, and a memory with one unsealed packet. *)
Definition tag_aead : Aead := {|
  aead_encrypt m _ _ _ := Some (m ++ replicate 16 1);
  aead_decrypt c _ _ _ :=
    let m := take (length c - 16) c in
    Some (if decide (c = m ++ replicate 16 1) then (0, m, Z.of_nat (length m))
          else (-1, replicate (length c - 16) 0, 0));
|}.

Lemma tag_aead_laws : AeadLaws tag_aead MSG_SIZE.
Proof.
  split; cbn [aead_encrypt aead_decrypt tag_aead].
  - intros m ad npub k _ Hm _. eexists. split; [done|]. split; [by apply bytes_app, bytes_replicate|].
    by rewrite length_app, length_replicate.
  - intros c ad npub k _ Hc Hl _. eexists. split; [done|].
    assert (length (take (length c - 16) c) = (length c - 16)%nat) as HL by (rewrite length_take; lia).
    destruct (decide _) as [E|E].
    + constructor; [by apply bytes_take|rewrite HL; lia|]. cbn [aead_encrypt tag_aead]. by f_equal.
    + constructor. cbn [aead_encrypt tag_aead]. intros m _ Em. apply E.
      assert (c = m ++ replicate 16 1) as -> by congruence.
      by rewrite length_app, length_replicate, Nat.add_sub, take_app_length.
  - intros m1 m2 c ad npub k _ _ _ _ _ [= <-] [= E]. by apply app_inv_tail in E.
Qed.

Definition forged_mem : mem := fun x => if x =? in_bitmap demo_base 0 then IN_SGX else 0.

Lemma forged_packet_blocks_witness :
  let A := tag_aead in
  exists m', get_in_buffer (fun _ _ => 1) demo_base 0x3000 7 forged_mem = Some (-1, 7, m') /\
    (forall x, demo_base <= x < demo_base + SHM_SIZE -> m' x = forged_mem x) /\
    scan m' (in_bitmap demo_base) IN_SGX MAX_ENTRY 0 = Some 0%nat /\
    (forall msg, ~ sealed_at m' (in_slot demo_base 0) msg).
Proof.
  cbv zeta. unshelve eapply (forged_packet_blocks (Laws := tag_aead_laws)).
  - done.
  - left. by vm_compute.
  - intros x. unfold forged_mem. by case_match.
  - reflexivity.
  - intros msg (_ & Hl & E). cbn [aead_encrypt tag_aead] in E. injection E as E.
    apply (f_equal (lookup (msg_bytes + 15)%nat)) in E.
    rewrite lookup_app_r in E by (rewrite Hl; lia).
    rewrite lookup_load in E by (rewrite pkt_msg; lia). rewrite Hl in E.
    replace (msg_bytes + 15 - msg_bytes)%nat with 15%nat in E by lia. cbn [lookup] in E.
    injection E as E. revert E. unfold forged_mem. case_match; [|done].
    intros _. apply Z.eqb_eq in H. revert H. unfold in_slot, in_bitmap. shm_lia.
Defined.

(** The address is not checked against SMRAM: when the 8 bytes the operating
    system leaves at 0x64 name SMRAM, initialisation overwrites every byte of SMRAM,
    the handler's own code and data included. *)
Theorem init_ring_buffer_overwrites_smram m :
  u32 (load_le m 0x64 8) = SMRAM_START ->
  forall x, SMRAM_START <= x < SMRAM_END ->
  snd (init_ring_buffer m) x =
    if (64 <=? x - SMRAM_START) && (x - SMRAM_START <? 128) then OUT_SGX else 0.
Proof.
  intros Hb x Hx. unfold init_ring_buffer. cbn [snd]. rewrite Hb.
  assert (SHM_SIZE = 0x100000) by done.
  change SMRAM_END with (SMRAM_START + 0x10000) in Hx.
  unfold in_bitmap, out_bitmap. change (Z.of_nat MAX_ENTRY) with 64.
  destruct (Z.leb_spec 64 (x - SMRAM_START)), (Z.ltb_spec (x - SMRAM_START) 128); cbn [andb];
    first [rewrite memset_in by shm_lia; reflexivity|rewrite memset_out by shm_lia];
    (destruct (Z.lt_ge_cases (x - SMRAM_START) 64);
      [rewrite memset_in by shm_lia|rewrite memset_out, memset_in by shm_lia]; reflexivity).
Qed.

Lemma init_ring_buffer_overwrites_smram_witness :
  let m := store_le (fun _ => 0x90) 0x64 8 SMRAM_START in
  m 0xa8000 = 0x90 /\ snd (init_ring_buffer m) 0xa8000 = 0.
Proof.
  split; [reflexivity|].
  rewrite (init_ring_buffer_overwrites_smram (store_le (fun _ => 0x90) 0x64 8 SMRAM_START));
    [reflexivity|vm_compute; reflexivity|vm_compute; by split].
Defined.
