(* ===== verification/Channel.v ===== *)
(** The channel as a whole: any interleaving of the four ring-buffer operations
    and of local computation on the two sides, as a step relation with a trace of
    the messages sent and received. *)

From Stdlib Require Import ZArith Lia Bool.
From stdpp Require Import base list.
From S2P Require Import Prelude Smram Aead RingBuffer.

Section Channel.
Context {A : Aead} {max : Z} {Laws : AeadLaws A max} (Hmax : MSG_SIZE <= max).
(** The random sources of the two sides, the enclave test, the addresses of the
    two local message buffers and of the shared region. *)
Context {RS : Type} {FS : RandomFill RS} {FLS : RandomFillLaws RS}.
Context {RG : Type} {FG : RandomFill RG} {FLG : RandomFillLaws RG}.
Context (within : Z -> Z -> Z) (smm_local sgx_local base : Z).

Record world := World { w_mem : mem; w_smm : RS; w_sgx : RG }.

Inductive event :=
| SmmSent (msg : list Z)
| SgxReceived (msg : list Z)
| SgxSent (msg : list Z)
| SmmReceived (msg : list Z).

(** A step and the event it adds to the trace, if any. *)
Inductive step : world -> list event -> world -> Prop :=
| StepPutIn m rs rg raw len ret m' rs' :
    put_in_buffer smm_local base raw len (m, rs) = Some (ret, (m', rs')) ->
    step (World m rs rg)
      (if ret =? 0 then [SmmSent (load m' smm_local msg_bytes)] else []) (World m' rs' rg)
| StepPutOut m rs rg raw len ret m' rg' :
    put_out_buffer sgx_local within base raw len (m, rg) = Some (ret, (m', rg')) ->
    step (World m rs rg)
      (if ret =? 0 then [SgxSent (load m' sgx_local msg_bytes)] else []) (World m' rs rg')
| StepGetIn m rs rg message message_len ret n m' :
    disjoint message MSG_SIZE base SHM_SIZE ->
    get_in_buffer within base message message_len m = Some (ret, n, m') ->
    step (World m rs rg)
      (if ret =? 0 then [SgxReceived (load m' message msg_bytes)] else []) (World m' rs rg)
| StepGetOut m rs rg message ret n m' :
    disjoint message MSG_SIZE base SHM_SIZE ->
    get_out_buffer base message m = Some (ret, n, m') ->
    step (World m rs rg)
      (if ret =? 0 then [SmmReceived (load m' message msg_bytes)] else []) (World m' rs rg)
| StepLocal m rs rg m' rs' rg' :
    all_bytes m' -> (forall x, base <= x < base + SHM_SIZE -> m' x = m x) ->
    step (World m rs rg) [] (World m' rs' rg').

Inductive steps : world -> list event -> world -> Prop :=
| StepsRefl w : steps w [] w
| StepsTrans w1 tr1 w2 tr2 w3 : steps w1 tr1 w2 -> step w2 tr2 w3 -> steps w1 (tr1 ++ tr2) w3.

Definition smm_sent (tr : list event) : list (list Z) :=
  omap (fun e => match e with SmmSent msg => Some msg | _ => None end) tr.
Definition sgx_received (tr : list event) : list (list Z) :=
  omap (fun e => match e with SgxReceived msg => Some msg | _ => None end) tr.
Definition sgx_sent (tr : list event) : list (list Z) :=
  omap (fun e => match e with SgxSent msg => Some msg | _ => None end) tr.
Definition smm_received (tr : list event) : list (list Z) :=
  omap (fun e => match e with SmmReceived msg => Some msg | _ => None end) tr.

Context (Hsmm : local_ok (F := FS) smm_local base) (Hsgx : local_ok (F := FG) sgx_local base).

(** One direction holds what was sent and not yet received. *)
Definition in_transit (b : box) (sent received : list (list Z)) (m : mem) : Prop :=
  exists mb, holds b m mb /\ sent ≡ₚ received ++ Mailbox.pending mb.

Section Direction.
Context (b b' : box) (Hok : box_ok base b) (Hok' : box_ok base b') (Hap : apart b b').

Lemma put_transit {R} {F : RandomFill R} {FL : RandomFillLaws R} local raw len m r ret m' r' s s' q q' :
  local_ok local base -> all_bytes m -> 0 <= len <= MSG_SIZE ->
  in_transit b s q m -> in_transit b' s' q' m ->
  put_at local b raw len (m, r) = Some (ret, (m', r')) ->
  all_bytes m' /\
  in_transit b (s ++ if ret =? 0 then [load m' local msg_bytes] else []) q m' /\
  in_transit b' s' q' m'.
Proof.
  intros Hlocal Hm Hlen (mb & Hb & Hp) (mb' & Hb' & Hp') Hput.
  destruct (put_at_refines Hmax local base Hlocal b b' Hok Hok' Hap raw len m r mb mb' Hm Hb Hb' Hlen)
    as (msg & ret1 & m1 & r1 & E & _ & _ & Hmsg & _ & Hmb & Hb1' & Hm1 & _).
  pose proof (eq_trans (eq_sym Hput) E) as Heq. injection Heq as -> -> ->. rewrite Hmsg.
  split; [done|]. split; [|by exists mb'].
  destruct (Mailbox.put msg mb) as [mb1|] eqn:Ep; destruct Hmb as [-> Hb1]; cbn [Z.eqb].
  - exists mb1. split; [done|]. rewrite (Mailbox.put_pending _ _ _ Ep), Hp. solve_Permutation.
  - exists mb. rewrite app_nil_r. done.
Qed.

Lemma get_transit message fail_len m ret n m' s s' q q' :
  all_bytes m -> disjoint message MSG_SIZE base SHM_SIZE ->
  in_transit b s q m -> in_transit b' s' q' m ->
  get_at b message fail_len m = Some (ret, n, m') ->
  all_bytes m' /\
  in_transit b s (q ++ if ret =? 0 then [load m' message msg_bytes] else []) m' /\
  in_transit b' s' q' m'.
Proof.
  intros Hm Hd (mb & Hb & Hp) (mb' & Hb' & Hp') Hget.
  pose proof (get_at_refines Hmax base b b' Hok Hok' Hap message fail_len m mb mb' Hm Hb Hb' Hd) as HR.
  destruct (Mailbox.get mb) as [[msg mb1]|] eqn:Eg.
  - destruct HR as (m1 & E & Hmsg & Hb1 & Hb1' & Hm1 & _).
    rewrite E in Hget. injection Hget as <- <- <-. split; [done|]. split; [|by exists mb'].
    exists mb1. split; [done|]. cbn [Z.eqb]. rewrite Hmsg, Hp, (Mailbox.get_pending_perm _ _ _ Eg).
    solve_Permutation.
  - rewrite HR in Hget. injection Hget as <- <- <-. cbn [Z.eqb]. rewrite app_nil_r.
    split; [done|]. split; [by exists mb|by exists mb'].
Qed.
End Direction.

(** The invariant of a run. *)
Definition balanced (tr : list event) (w : world) : Prop :=
  all_bytes (w_mem w) /\
  in_transit (in_box base) (smm_sent tr) (sgx_received tr) (w_mem w) /\
  in_transit (out_box base) (sgx_sent tr) (smm_received tr) (w_mem w).

(** Evaluate the projections of a trace extended by one step. *)
Ltac events ret H := destruct H as (? & H2 & H3); split; [done|]; revert H2 H3;
  unfold smm_sent, sgx_received, sgx_sent, smm_received; rewrite !omap_app;
  destruct (ret =? 0); cbn [omap list_omap]; rewrite ?app_nil_r; auto.

Lemma step_balanced tr w e w' : balanced tr w -> step w e w' -> balanced (tr ++ e) w'.
Proof.
  intros (Hm & Hi & Ho) Hs. destruct Hs as
    [m rs rg raw len ret m' rs' E|m rs rg raw len ret m' rg' E|m rs rg message n0 ret n m' Hd E
    |m rs rg message ret n m' Hd E|m rs rg m' rs' rg' Hm' Hsh]; unfold balanced in *; cbn [w_mem] in *.
  - destruct (decide (0 <= len <= MSG_SIZE)) as [Hlen|Hlen].
    + rewrite put_in_buffer_at in E by done.
      eapply (put_transit _ _ (in_box_ok base) (out_box_ok base)) in E;
        [|apply in_out_apart|eassumption..].
      events ret E.
    + rewrite put_in_buffer_refused in E by done. injection E as <- <- <-. cbn [Z.eqb].
      by rewrite app_nil_r.
  - destruct (decide (within raw len <> 0 /\ 0 <= len <= MSG_SIZE)) as [[Hw Hlen]|Hlen].
    + rewrite put_out_buffer_at in E by done.
      eapply (put_transit _ _ (out_box_ok base) (in_box_ok base)) in E;
        [|apply apart_sym, in_out_apart|eassumption..].
      events ret E.
    + rewrite put_out_buffer_refused in E by lia. injection E as <- <- <-. cbn [Z.eqb].
      by rewrite app_nil_r.
  - destruct (decide (within message MSG_SIZE = 0)) as [Hw|Hw].
    + unfold get_in_buffer in E. rewrite Hw in E. injection E as <- <- <-. cbn [Z.eqb].
      by rewrite app_nil_r.
    + rewrite get_in_buffer_at in E by done.
      eapply (get_transit _ _ (in_box_ok base) (out_box_ok base)) in E;
        [|apply in_out_apart|eassumption..].
      events ret E.
  - destruct (decide (is_within_smram message MSG_SIZE = 0)) as [Hw|Hw].
    + unfold get_out_buffer in E. rewrite Hw in E. injection E as <- <- <-. cbn [Z.eqb].
      by rewrite app_nil_r.
    + rewrite get_out_buffer_at in E by done.
      eapply (get_transit _ _ (out_box_ok base) (in_box_ok base)) in E;
        [|apply apart_sym, in_out_apart|eassumption..].
      events ret E.
  - rewrite app_nil_r. split; [done|]. destruct Hi as (mi & Hi & Pi), Ho as (mo & Ho & Po).
    split; [exists mi|exists mo]; (split; [|done]); eapply holds_outside;
      eauto using in_box_ok, out_box_ok.
Qed.

Lemma steps_balanced w tr w' : balanced [] w -> steps w tr w' -> balanced tr w'.
Proof. intros Hw. induction 1; [done|]. eapply step_balanced; eauto. Qed.

(** * Draining *)

(** The receiver's loop [while (0 == get_in_buffer(message, &len));], with the
    messages that pass through the buffer. *)
Fixpoint drain (fuel : nat) (message message_len : Z) (m : mem) : option (list (list Z) * Z * mem) :=
  match fuel with
  | O => None
  | S fuel =>
      match get_in_buffer within base message message_len m with
      | None => None
      | Some (ret, n, m) =>
          if ret =? 0 then
            match drain fuel message n m with
            | Some (msgs, n', m') => Some (load m message msg_bytes :: msgs, n', m')
            | None => None
            end
          else Some ([], n, m)
      end
  end.

Lemma drain_pending fuel message message_len m mi mo :
  within message MSG_SIZE <> 0 -> disjoint message MSG_SIZE base SHM_SIZE ->
  all_bytes m -> holds (in_box base) m mi -> holds (out_box base) m mo ->
  (length (Mailbox.pending mi) < fuel)%nat ->
  exists m', drain fuel message message_len m =
      Some (Mailbox.pending mi, if decide (mi = Mailbox.empty) then message_len else MSG_SIZE, m') /\
    holds (in_box base) m' Mailbox.empty /\ holds (out_box base) m' mo /\ all_bytes m' /\
    load m' message msg_bytes = default (load m message msg_bytes) (last (Mailbox.pending mi)) /\
    untouched base message MSG_SIZE m m'.
Proof.
  intros Hw Hd. revert message_len m mi.
  induction fuel as [|fuel IH]; intros message_len m mi Hm Hi Ho Hf; [lia|]. cbn [drain].
  rewrite get_in_buffer_at by done.
  pose proof (get_at_refines Hmax base _ _ (in_box_ok base) (out_box_ok base) (in_out_apart base)
    message message_len m mi mo Hm Hi Ho Hd) as HR.
  destruct (Mailbox.get mi) as [[msg mi1]|] eqn:Eg.
  - destruct HR as (m1 & -> & Hmsg & Hi1 & Ho1 & Hm1 & HU). cbn [Z.eqb].
    rewrite (Mailbox.get_pending_cons _ _ _ Eg) in *. cbn [length] in Hf.
    destruct (IH MSG_SIZE m1 mi1 Hm1 Hi1 Ho1 ltac:(lia)) as (m2 & -> & Hi2 & Ho2 & Hm2 & Hl & HU2).
    exists m2. split; [|split; [done|split; [done|split; [done|split]]]].
    + rewrite Hmsg. do 3 f_equal. destruct (decide (mi = _)) as [->|_]; [done|].
      by destruct (decide (mi1 = _)).
    + rewrite Hl, Hmsg, last_cons. by destruct (last (Mailbox.pending mi1)).
    + intros x Hx Hx'. rewrite HU2, HU by done. done.
  - rewrite HR. cbn [Z.eqb]. apply Mailbox.get_pending in Eg. rewrite Eg.
    apply Mailbox.pending_nil in Eg. rewrite (proj1 Hi) in Eg. subst mi.
    exists m. rewrite decide_True by done. split_and!; try done.
Qed.
End Channel.

(** * Properties *)

(** C2 After the region has been set up, whatever the interleaving of sends, receives,
    failed operations and local computation that does not write to the region, its 64 IN
    packets are in memory a mailbox (each slot is free, or full with a packet that opens
    to its message), and the messages in it and those that the enclave received are exactly
    the messages the supervisor sent, each once. Likewise in the other direction. The
    buffers in which the two sides keep their messages are outside of the region. *)
Theorem channel_conserves {A max} {Laws : AeadLaws A max}
    {RS} {FS : RandomFill RS} {FLS : RandomFillLaws RS}
    {RG} {FG : RandomFill RG} {FLG : RandomFillLaws RG}
    within smm_local sgx_local m (rs : RS) (rg : RG) tr w :
  MSG_SIZE <= max -> all_bytes m ->
  let '(base, m0) := init_ring_buffer m in
  local_ok (F := FS) smm_local base -> local_ok (F := FG) sgx_local base ->
  steps (RS := RS) (RG := RG) within smm_local sgx_local base (World m0 rs rg) tr w ->
  exists mi mo, holds (in_box base) (w_mem w) mi /\ holds (out_box base) (w_mem w) mo /\
    smm_sent tr ≡ₚ sgx_received tr ++ Mailbox.pending mi /\
    sgx_sent tr ≡ₚ smm_received tr ++ Mailbox.pending mo.
Proof.
  intros Hmax Hm. pose proof (init_holds m) as Hinit. pose proof (init_bytes m Hm) as Hm0.
  destruct (init_ring_buffer m) as [base m0]. destruct Hinit as (Hi & Ho & _).
  intros Hs Hg Hsteps.
  assert (balanced base [] (World m0 rs rg)) as Hb.
  { split; [done|]. split; exists Mailbox.empty; done. }
  apply (steps_balanced Hmax within smm_local sgx_local base Hs Hg _ _ _ Hb) in Hsteps.
  destruct Hsteps as (_ & (mi & Hmi & Pi) & (mo & Hmo & Po)).
  by exists mi, mo.
Qed.

(** A run in which the supervisor sends one message. *)
Lemma demo_run :
  let F := rdrand_fill RdRand.demo_cpuid RdRand.demo_drng in
  exists msg w, length msg = msg_bytes /\
    steps (FS := F) (FG := F) (fun _ _ => 1) demo_message demo_message demo_base
      (World demo_mem RdRand.boot_rng RdRand.boot_rng) [SmmSent msg] w.
Proof.
  intros F. destruct (put_at_refines (A := aes256gcm) (F := F)
    (FL := rdrand_fill_laws RdRand.demo_cpuid RdRand.demo_drng)
    (max := AesGcm.crypto_aead_aes256gcm_MESSAGEBYTES_MAX) ltac:(by vm_compute) demo_message demo_base
    demo_local _ _ (in_box_ok demo_base) (out_box_ok demo_base) (in_out_apart demo_base) 0x2000 5
    demo_mem RdRand.boot_rng _ _ demo_bytes (proj1 demo_empty) (proj2 demo_empty) ltac:(split; by vm_compute))
    as (msg & ret & m' & r' & E & _ & Hl & Hmsg & _ & Hput & _).
  assert (ret = 0) as -> by apply Hput. exists msg, (World m' r' RdRand.boot_rng). split; [done|].
  rewrite <- put_in_buffer_at in E by (split; by vm_compute).
  apply (StepPutIn (FS := F) (FG := F) (fun _ _ => 1) demo_message demo_message demo_base
    _ _ RdRand.boot_rng) in E. rewrite Hmsg in E. cbn [Z.eqb] in E.
  eapply (StepsTrans _ _ _ _ _ [] _ _ _ (StepsRefl _ _ _ _ _) E).
Qed.

Lemma channel_conserves_witness :
  let F := rdrand_fill RdRand.demo_cpuid RdRand.demo_drng in
  exists msg w, length msg = msg_bytes /\
    steps (FS := F) (FG := F) (fun _ _ => 1) demo_message demo_message demo_base
      (World demo_mem RdRand.boot_rng RdRand.boot_rng) [SmmSent msg] w /\
    exists mi mo, holds (in_box demo_base) (w_mem w) mi /\ holds (out_box demo_base) (w_mem w) mo /\
      smm_sent [SmmSent msg] ≡ₚ sgx_received [SmmSent msg] ++ Mailbox.pending mi /\
      sgx_sent [SmmSent msg] ≡ₚ smm_received [SmmSent msg] ++ Mailbox.pending mo.
Proof.
  intros F. destruct demo_run as (msg & w & Hl & Hs). exists msg, w. split; [done|]. split; [done|].
  pose proof (channel_conserves (A := aes256gcm) (FS := F) (FG := F)
    (FLS := rdrand_fill_laws RdRand.demo_cpuid RdRand.demo_drng)
    (FLG := rdrand_fill_laws RdRand.demo_cpuid RdRand.demo_drng)
    (fun _ _ => 1) demo_message demo_message (store_le (fun _ => 0) 0x64 8 demo_base)
    RdRand.boot_rng RdRand.boot_rng [SmmSent msg] w) as H.
  apply H.
  - by vm_compute.
  - apply is_byte_store; [done|apply bytes_le_bytes].
  - exact demo_local.
  - exact demo_local.
  - exact Hs.
Defined.

(** C36 The receiver's drain loop ends, and hands over all pending messages in
    slot order; the buffer then holds the last of them, the IN mailbox is empty
    and the OUT one unchanged. *)
Theorem drain_delivers {A max} {Laws : AeadLaws A max} within base message message_len m mi mo :
  MSG_SIZE <= max -> within message MSG_SIZE <> 0 -> disjoint message MSG_SIZE base SHM_SIZE ->
  all_bytes m -> holds (in_box base) m mi -> holds (out_box base) m mo ->
  exists m', drain within base (S MAX_ENTRY) message message_len m =
      Some (Mailbox.pending mi, if decide (mi = Mailbox.empty) then message_len else MSG_SIZE, m') /\
    holds (in_box base) m' Mailbox.empty /\ holds (out_box base) m' mo /\ all_bytes m' /\
    load m' message msg_bytes = default (load m message msg_bytes) (last (Mailbox.pending mi)) /\
    untouched base message MSG_SIZE m m'.
Proof.
  intros Hmax Hw Hd Hm Hi Ho. eapply drain_pending; eauto.
  pose proof (Mailbox.length_pending mi) as Hl. rewrite (proj1 Hi) in Hl. lia.
Qed.

Lemma drain_delivers_witness :
  exists m', drain (fun _ _ => 1) demo_base (S MAX_ENTRY) 0x3000 7 demo_mem =
      Some (Mailbox.pending Mailbox.empty,
            if decide (Mailbox.empty = Mailbox.empty) then 7 else MSG_SIZE, m') /\
    holds (in_box demo_base) m' Mailbox.empty /\ holds (out_box demo_base) m' Mailbox.empty /\
    all_bytes m' /\
    load m' 0x3000 msg_bytes =
      default (load demo_mem 0x3000 msg_bytes) (last (Mailbox.pending Mailbox.empty)) /\
    untouched demo_base 0x3000 MSG_SIZE demo_mem m'.
Proof.
  unshelve eapply (drain_delivers (max := AesGcm.crypto_aead_aes256gcm_MESSAGEBYTES_MAX)).
  - by vm_compute.
  - done.
  - left. by vm_compute.
  - exact demo_bytes.
  - exact (proj1 demo_empty).
  - exact (proj2 demo_empty).
Defined.
