(* ===== verification/SodiumUtils.v ===== *)
(** utils.cpp of the enclave, a port of libsodium's utils: constant-time
    comparison, arithmetic on little-endian numbers, ISO 7816-4 padding and the
    allocation wrappers, in the configuration of the enclave's build (none of the
    HAVE_ macros is defined there) and for a 64-bit [size_t]. *)

From Stdlib Require Import ZArith Lia Bool.
From stdpp Require Import base list.
From S2P Require Import Prelude.

Definition SIZE_MAX : Z := 2 ^ 64 - 1.

(** * Comparison *)

(** [d |= b1[i] ^ b2[i]] over the two buffers. *)
Definition memcmp_acc (b1 b2 : list Z) : Z :=
  foldl (fun d p => u8 (Z.lor d (Z.lxor (fst p) (snd p)))) 0 (zip b1 b2).

Definition sodium_memcmp (b1 b2 : list Z) : Z :=
  let d := memcmp_acc b1 b2 in
  Z.land 1 (Z.shiftr (d - 1) 8) - 1.

(** The loop runs from the last byte to the first; [gt] and [eq] are bytes. *)
Definition compare_step (p : Z * Z) (st : Z * Z) : Z * Z :=
  let '(x1, x2) := p in
  let '(gt, eq) := st in
  let gt := u8 (Z.lor gt (Z.land (Z.shiftr (x2 - x1) 8) eq)) in
  let eq := u8 (Z.land eq (Z.shiftr (Z.lxor x2 x1 - 1) 8)) in
  (gt, eq).

Definition sodium_compare (b1 b2 : list Z) : Z :=
  let '(gt, eq) := foldr compare_step (0, 1) (zip b1 b2) in
  gt + gt + eq - 1.

Definition sodium_is_zero (n : list Z) : Z :=
  let d := foldl (fun d x => u8 (Z.lor d x)) 0 n in
  Z.land 1 (Z.shiftr (d - 1) 8).

(** * Arithmetic; [c] is the carry *)

Fixpoint increment_loop (c : Z) (n : list Z) : list Z :=
  match n with
  | [] => []
  | x :: n => let c := c + x in u8 c :: increment_loop (Z.shiftr c 8) n
  end.
Definition sodium_increment (n : list Z) : list Z := increment_loop 1 n.

Fixpoint add_loop (c : Z) (a b : list Z) : list Z :=
  match a, b with
  | x :: a, y :: b => let c := c + (x + y) in u8 c :: add_loop (Z.shiftr c 8) a b
  | _, _ => []
  end.
Definition sodium_add (a b : list Z) : list Z := add_loop 0 a b.

(** * Memory *)

Definition sodium_memzero (m : mem) (pnt len : Z) : mem := store m pnt (replicate (Z.to_nat len) 0).

Section Alloc.
(** The enclave's [malloc]: a pointer, 0 for failure, and the heap after it. *)
Context {H : Type} (malloc : Z -> H -> Z * H) (free : Z -> H -> H).
Definition GARBAGE_VALUE : Z := 0xdb.

Definition sodium_malloc_raw (size : Z) (h : H) : Z * H :=
  malloc (if 0 <? size then size else 1) h.

Definition sodium_malloc (size : Z) (m : mem) (h : H) : Z * mem * H :=
  let '(ptr, h) := sodium_malloc_raw size h in
  if ptr =? 0 then (0, m, h)
  else (ptr, store m ptr (replicate (Z.to_nat size) GARBAGE_VALUE), h).

Definition sodium_allocarray (count size : Z) (m : mem) (h : H) : Z * mem * H :=
  if (0 <? count) && (SIZE_MAX / count <=? size) then (0, m, h)
  else sodium_malloc (wrap 64 (count * size)) m h.

Definition sodium_free (ptr : Z) (h : H) : H := free ptr h.

(** Without [mlock] and page protection these fail with ENOSYS. *)
Definition sodium_mlock (addr len : Z) (m : mem) : Z * mem := (-1, m).
Definition sodium_munlock (addr len : Z) (m : mem) : Z * mem := (-1, sodium_memzero m addr len).
Definition sodium_mprotect_noaccess (ptr : Z) : Z := -1.
Definition sodium_mprotect_readonly (ptr : Z) : Z := -1.
Definition sodium_mprotect_readwrite (ptr : Z) : Z := -1.
End Alloc.

(** * Padding *)

(** The number of bytes before the barrier that padding adds. *)
Definition pad_len (unpadded_buflen blocksize : Z) : Z :=
  let xpadlen := blocksize - 1 in
  if Z.land blocksize (blocksize - 1) =? 0
  then wrap 64 (xpadlen - Z.land unpadded_buflen (blocksize - 1))
  else wrap 64 (xpadlen - unpadded_buflen mod blocksize).

(** The masking loop, over the bytes of the buffer read backwards from [tail]. *)
Fixpoint pad_loop (n : nat) (i mask xpadlen : Z) (rtail : list Z) : list Z :=
  match n, rtail with
  | S n, t :: rtail =>
      let barrier_mask := u8 (Z.shiftr (wrap 64 (Z.lxor i xpadlen - 1)) 8) in
      let t := Z.lor (Z.land t mask) (Z.land 0x80 barrier_mask) in
      t :: pad_loop n (i + 1) (Z.lor mask barrier_mask) xpadlen rtail
  | _, _ => rtail
  end.

(** [buf] is the whole buffer of [max_buflen] bytes; the result is the return
    code, the padded length and the buffer. [None] on [sodium_misuse]. *)
Definition sodium_pad (buf : list Z) (unpadded_buflen blocksize : Z) : option (Z * Z * list Z) :=
  let max_buflen := Z.of_nat (length buf) in
  if blocksize <=? 0 then Some (-1, 0, buf) else
  let xpadlen := pad_len unpadded_buflen blocksize in
  if SIZE_MAX - unpadded_buflen <=? xpadlen then None else
  let xpadded_len := unpadded_buflen + xpadlen in
  if max_buflen <=? xpadded_len then Some (-1, 0, buf) else
  let k := Z.to_nat (xpadded_len + 1) in
  let head := reverse (pad_loop (Z.to_nat blocksize) 0 0 xpadlen (reverse (take k buf))) in
  Some (0, xpadded_len + 1, head ++ drop k buf).

Record unpad_state := Unpad { acc : Z; valid : Z; padlen : Z }.

Definition unpad_step (i c : Z) (st : unpad_state) : unpad_state :=
  let is_barrier :=
    Z.land (Z.shiftr (Z.land (Z.land (wrap 32 (acc st - 1)) (wrap 64 (padlen st - 1)))
                             (wrap 32 (Z.lxor c 0x80 - 1))) 8) 1 in
  Unpad (Z.lor (acc st) c) (Z.lor (valid st) is_barrier)
        (Z.lor (padlen st) (Z.land i (wrap 64 (1 + Z.lnot is_barrier)))).

Fixpoint unpad_loop (n : nat) (i : Z) (rtail : list Z) (st : unpad_state) : unpad_state :=
  match n, rtail with
  | S n, c :: rtail => unpad_loop n (i + 1) rtail (unpad_step i c st)
  | _, _ => st
  end.

(** The return code and [*unpadded_buflen_p], if written. *)
Definition sodium_unpad (buf : list Z) (padded_buflen blocksize : Z) : Z * option Z :=
  if (padded_buflen <? blocksize) || (blocksize <=? 0) then (-1, None) else
  let rtail := reverse (take (Z.to_nat padded_buflen) buf) in
  let st := unpad_loop (Z.to_nat blocksize) 0 rtail (Unpad 0 0 0) in
  (to_signed 32 (valid st - 1), Some (wrap 64 (padded_buflen - 1 - padlen st))).

(** * Comparison is exact *)

Lemma mask_zero d : 0 <= d < 256 -> Z.land 1 (Z.shiftr (d - 1) 8) = if d =? 0 then 1 else 0.
Proof.
  intros Hd. destruct (Z.eqb_spec d 0) as [->|Hne]; [done|].
  rewrite Z.shiftr_div_pow2, Z.div_small by lia. done.
Qed.

Lemma memcmp_acc_zero b1 b2 :
  bytes b1 -> bytes b2 -> length b1 = length b2 ->
  is_byte (memcmp_acc b1 b2) /\ (memcmp_acc b1 b2 = 0 <-> b1 = b2).
Proof.
  unfold memcmp_acc.
  assert (forall d, is_byte d -> bytes b1 -> bytes b2 -> length b1 = length b2 ->
    let r := foldl (fun d p => u8 (Z.lor d (Z.lxor (fst p) (snd p)))) d (zip b1 b2) in
    is_byte r /\ (r = 0 <-> d = 0 /\ b1 = b2)) as HG.
  { revert b2. induction b1 as [|x b1 IH]; intros [|y b2] d Hd H1 H2 Hl; try discriminate.
    - cbn. naive_solver.
    - apply Forall_cons in H1 as [Hx H1]. apply Forall_cons in H2 as [Hy H2].
      cbn [zip zip_with foldl fst snd].
      assert (is_byte (Z.lor d (Z.lxor x y))) as Ho
        by (apply (lor_range 8); [lia|done|by apply is_byte_lxor]).
      rewrite u8_small by done. specialize (IH b2 (Z.lor d (Z.lxor x y)) Ho H1 H2 ltac:(simpl in Hl; lia)).
      destruct IH as [Hb IH]. split; [done|]. rewrite IH, Z.lor_eq_0_iff, Z.lxor_eq_0_iff.
      naive_solver. }
  intros H1 H2 Hl. destruct (HG 0 ltac:(done) H1 H2 Hl) as [Hb HE]. split; [done|]. rewrite HE. naive_solver.
Qed.

Lemma is_zero_acc n : foldl (fun d x => u8 (Z.lor d x)) 0 n = memcmp_acc n (replicate (length n) 0).
Proof.
  unfold memcmp_acc. assert (forall d, foldl (fun d x => u8 (Z.lor d x)) d n =
    foldl (fun d p => u8 (Z.lor d (Z.lxor (fst p) (snd p)))) d (zip n (replicate (length n) 0))) as HG; [|apply HG].
  induction n as [|x n IH]; intros d; [done|].
  cbn [length replicate zip zip_with foldl fst snd]. rewrite Z.lxor_0_r. apply IH.
Qed.

Lemma le_val_cons x l : is_byte x -> le_val (x :: l) = x + 256 * le_val l.
Proof.
  intros Hx. cbn [le_val].
  assert (Z.land x (Z.shiftl (le_val l) 8) = 0) as HL.
  { apply Z.bits_inj'. intros i Hi. rewrite Z.land_spec, testbit_shiftl, Z.bits_0.
    destruct (Z.lt_ge_cases i 8).
    - rewrite (Z.testbit_neg_r _ (i - 8)) by lia. by rewrite !andb_false_r.
    - rewrite (testbit_high 8 x) by (unfold is_byte in Hx; lia). done. }
  pose proof (Z.add_lor_land x (Z.shiftl (le_val l) 8)) as HA. rewrite HL, Z.add_0_r in HA.
  rewrite HA, Z.shiftl_mul_pow2 by lia. change (2 ^ 8) with 256. lia.
Qed.

(** The state of the comparison after the most significant bytes. *)
Definition cmp_state (v1 v2 : Z) : Z * Z :=
  if v2 <? v1 then (1, 0) else if v1 =? v2 then (0, 1) else (0, 0).

Lemma shiftr_byte_diff x y : is_byte x -> is_byte y -> Z.shiftr (x - y) 8 = if x <? y then -1 else 0.
Proof.
  unfold is_byte. intros Hx Hy. rewrite Z.shiftr_div_pow2 by lia. change (2 ^ 8) with 256.
  destruct (Z.ltb_spec x y).
  - symmetry. apply (Z.div_unique _ _ _ (x - y + 256)); lia.
  - apply Z.div_small. lia.
Qed.

Lemma compare_step_state x y l1 l2 :
  is_byte x -> is_byte y -> bytes l1 -> bytes l2 ->
  compare_step (x, y) (cmp_state (le_val l1) (le_val l2)) =
  cmp_state (le_val (x :: l1)) (le_val (y :: l2)).
Proof.
  intros Hx Hy H1 H2. rewrite !le_val_cons by done.
  assert (Z.shiftr (Z.lxor y x - 1) 8 = if x =? y then -1 else 0) as HE.
  { pose proof (is_byte_lxor y x Hy Hx) as Hxy. destruct (Z.eqb_spec x y) as [->|Hne].
    - by rewrite Z.lxor_nilpotent.
    - rewrite shiftr_byte_diff by (done || by split). destruct (Z.ltb_spec (Z.lxor y x) 1); [|done].
      destruct Hne. symmetry. apply Z.lxor_eq_0_iff. unfold is_byte in Hxy. lia. }
  pose proof (shiftr_byte_diff y x Hy Hx) as HG.
  unfold compare_step, cmp_state. rewrite HE, HG. unfold is_byte in Hx, Hy.
  destruct (Z.ltb_spec (le_val l2) (le_val l1)), (Z.eqb_spec (le_val l1) (le_val l2)),
    (Z.ltb_spec y x), (Z.eqb_spec x y),
    (Z.ltb_spec (y + 256 * le_val l2) (x + 256 * le_val l1)),
    (Z.eqb_spec (x + 256 * le_val l1) (y + 256 * le_val l2)); try lia; reflexivity.
Qed.

Lemma compare_fold b1 b2 :
  bytes b1 -> bytes b2 -> length b1 = length b2 ->
  foldr compare_step (0, 1) (zip b1 b2) = cmp_state (le_val b1) (le_val b2).
Proof.
  intros H1. revert b2. induction H1 as [|x l1 Hx H1 IH]; intros [|y l2] H2 Hl; try discriminate; [done|].
  apply Forall_cons in H2 as [Hy H2]. cbn [zip zip_with foldr].
  rewrite IH by (done || simpl in Hl; lia). by apply compare_step_state.
Qed.

(** * Arithmetic *)

Lemma pow_len_S n : 2 ^ (8 * Z.of_nat (S n)) = 256 * 2 ^ (8 * Z.of_nat n).
Proof. change 256 with (2 ^ 8). rewrite <- Z.pow_add_r by lia. f_equal. lia. Qed.

Lemma carry_split c : u8 c + 256 * Z.shiftr c 8 = c.
Proof. unfold wrap. rewrite Z.shiftr_div_pow2 by lia. change (2 ^ 8) with 256. pose proof (Z.div_mod c 256). lia. Qed.

(** A byte and the rest of a sum reduced modulo a power of 256. *)
Lemma sum_mod b v N : 0 <= b < 256 -> 0 < N -> b + 256 * (v mod N) = (b + 256 * v) mod (256 * N).
Proof.
  intros Hb HN. pose proof (Z.div_mod v N ltac:(lia)). pose proof (Z.mod_pos_bound v N ltac:(lia)).
  apply (Z.mod_unique _ _ (v / N)); [left|]; nia.
Qed.

Lemma increment_loop_spec c n :
  bytes n -> 0 <= c ->
  le_val (increment_loop c n) = (le_val n + c) mod 2 ^ (8 * Z.of_nat (length n)).
Proof.
  intros Hn. revert c. induction Hn as [|x n Hx Hn IH]; intros c Hc; [cbn; by rewrite Z.mod_1_r|].
  cbn [increment_loop length]. rewrite (le_val_cons (u8 _)), IH, (le_val_cons x)
    by (done || apply is_byte_u8 || apply Z.shiftr_nonneg; unfold is_byte in Hx; lia).
  rewrite pow_len_S, sum_mod by (apply is_byte_u8 || apply Z.pow_pos_nonneg; lia).
  f_equal. pose proof (carry_split (c + x)). lia.
Qed.

Lemma add_loop_spec c a b :
  bytes a -> bytes b -> length a = length b -> 0 <= c ->
  le_val (add_loop c a b) = (le_val a + le_val b + c) mod 2 ^ (8 * Z.of_nat (length a)).
Proof.
  intros Ha. revert b c. induction Ha as [|x a Hx Ha IH]; intros [|y b] c Hb Hl Hc; try discriminate;
    [cbn; by rewrite Z.mod_1_r|].
  apply Forall_cons in Hb as [Hy Hb]. cbn [add_loop length].
  rewrite (le_val_cons (u8 _)), IH, (le_val_cons x), (le_val_cons y)
    by (done || apply is_byte_u8 || (apply Z.shiftr_nonneg; unfold is_byte in *; lia) || simpl in Hl; lia).
  rewrite pow_len_S, sum_mod by (apply is_byte_u8 || apply Z.pow_pos_nonneg; lia).
  f_equal. pose proof (carry_split (c + (x + y))). lia.
Qed.

(** * Padding *)

(** The test [(b & (b - 1)) == 0] recognises the powers of two. *)
Lemma pow2_test b : 0 < b -> Z.land b (b - 1) = 0 -> b = 2 ^ Z.log2 b.
Proof.
  intros Hb Hp. pose proof (Z.log2_spec b Hb) as [Hlo Hhi]. pose proof (Z.log2_nonneg b).
  destruct (Z.eq_dec b (2 ^ Z.log2 b)) as [|Hne]; [done|exfalso].
  assert (0 < 2 ^ Z.log2 b) by (apply Z.pow_pos_nonneg; lia).
  assert (Z.log2 (b - 1) = Z.log2 b) as Hl by (apply Z.log2_unique; lia).
  apply (f_equal (fun z => Z.testbit z (Z.log2 b))) in Hp.
  rewrite Z.land_spec, Z.bit_log2, <- Hl, Z.bit_log2, Z.bits_0 in Hp by lia. discriminate.
Qed.

Lemma pad_len_mod u b : 0 <= u -> 0 < b <= 2 ^ 64 -> pad_len u b = b - 1 - u mod b.
Proof.
  intros Hu Hb. pose proof (Z.mod_pos_bound u b ltac:(lia)). unfold pad_len.
  destruct (Z.eqb_spec (Z.land b (b - 1)) 0) as [Hp|_]; [|apply wrap_small; lia].
  apply pow2_test in Hp; [|lia].
  assert (Z.land u (b - 1) = u mod b) as ->; [|apply wrap_small; lia].
  rewrite Hp at 1 2. rewrite <- Z.land_ones by apply Z.log2_nonneg. by rewrite Z.ones_equiv, <- Z.sub_1_r.
Qed.

Lemma barrier_mask_spec i x :
  is_byte i -> is_byte x ->
  u8 (Z.shiftr (wrap 64 (Z.lxor i x - 1)) 8) = if i =? x then 0xff else 0.
Proof.
  intros Hi Hx. destruct (Z.eqb_spec i x) as [->|Hne]; [by rewrite Z.lxor_nilpotent|].
  pose proof (is_byte_lxor i x Hi Hx) as Hb. unfold is_byte in Hb.
  assert (Z.lxor i x <> 0) by (intros E; apply Hne, Z.lxor_eq_0_iff, E).
  rewrite (wrap_small 64), Z.shiftr_div_pow2, Z.div_small by lia. done.
Qed.

Lemma pad_loop_after n i x l :
  bytes l -> is_byte x -> x < i -> i + Z.of_nat n <= 256 -> pad_loop n i 0xff x l = l.
Proof.
  intros Hl Hx. revert i l Hl. induction n as [|n IH]; intros i l Hl Hi Hn; [done|].
  destruct Hl as [|t l Ht Hl]; [done|]. cbn [pad_loop].
  rewrite barrier_mask_spec by (done || unfold is_byte in *; lia).
  destruct (Z.eqb_spec i x); [lia|]. cbn [Z.land]. rewrite land_ff, u8_small by done.
  change (Z.lor 0xff 0) with 0xff. rewrite IH by (done || lia). by rewrite Z.land_0_r, Z.lor_0_r.
Qed.

Lemma pad_loop_before k n i x l :
  bytes l -> is_byte x -> 0 <= i -> x = i + Z.of_nat k -> (k < n)%nat -> i + Z.of_nat n <= 256 ->
  (k < length l)%nat ->
  pad_loop n i 0 x l = replicate k 0 ++ 0x80 :: drop (S k) l.
Proof.
  intros Hl Hx. revert n i l Hl. induction k as [|k IH]; intros [|n] i l Hl Hi Hk Hn Hb Hlen; try lia;
    destruct Hl as [|t l Ht Hl]; try (simpl in Hlen; lia); cbn [pad_loop];
    rewrite barrier_mask_spec by (done || unfold is_byte in *; lia).
  - replace i with x by lia. rewrite Z.eqb_refl, Z.land_0_r. change (Z.lor 0 0xff) with 0xff.
    rewrite pad_loop_after by (done || lia). done.
  - destruct (Z.eqb_spec i x); [lia|]. rewrite !Z.land_0_r. change (Z.lor 0 0) with 0.
    rewrite (IH n (i + 1) l) by (done || simpl in Hlen; lia). done.
Qed.

(** Bit 8 of a decremented byte, at any unsigned width. *)
Lemma bit8_pred w v : 8 < w -> 0 <= v <= 256 -> Z.testbit (wrap w (v - 1)) 8 = (v =? 0).
Proof.
  intros Hw Hv. unfold wrap. rewrite Z.mod_pow2_bits_low by lia.
  destruct (Z.eqb_spec v 0) as [->|]; [done|]. apply (testbit_high 8); lia.
Qed.

Lemma is_barrier_spec a p c :
  is_byte a -> 0 <= p <= 256 -> is_byte c ->
  Z.land (Z.shiftr (Z.land (Z.land (wrap 32 (a - 1)) (wrap 64 (p - 1))) (wrap 32 (Z.lxor c 0x80 - 1))) 8) 1 =
  Z.b2z ((a =? 0) && (p =? 0) && (c =? 0x80)).
Proof.
  intros Ha Hp Hc. pose proof (is_byte_lxor c 0x80 Hc ltac:(done)) as Hx. unfold is_byte in Ha, Hx.
  change 1 with (Z.ones 1) at 4. rewrite Z.land_ones, <- Z.bit0_mod, Z.shiftr_spec, !Z.land_spec by lia.
  cbn [Z.add]. rewrite !bit8_pred by lia. do 2 f_equal.
  destruct (Z.eqb_spec c 0x80) as [->|Hne]; [done|]. apply Z.eqb_neq. intros E. by apply Hne, Z.lxor_eq_0_iff.
Qed.

Lemma unpad_loop_after n i l a p :
  bytes l -> is_byte a -> a <> 0 -> 0 <= p <= 256 ->
  exists a', unpad_loop n i l (Unpad a 1 p) = Unpad a' 1 p.
Proof.
  intros Hl. revert n i a. induction Hl as [|c l Hc Hl IH]; intros [|n] i a Ha Hne Hp; cbn [unpad_loop]; try by eexists.
  unfold unpad_step. cbn [acc valid padlen]. rewrite is_barrier_spec by done.
  rewrite (proj2 (Z.eqb_neq _ _) Hne). cbn [andb Z.b2z]. change (wrap 64 (1 + Z.lnot 0)) with 0.
  rewrite Z.land_0_r, !Z.lor_0_r. apply IH; [by apply (lor_range 8)| |done].
  rewrite Z.lor_eq_0_iff. naive_solver.
Qed.

Lemma unpad_loop_before k n i l :
  bytes l -> 0 <= i -> (k < n)%nat -> i + Z.of_nat k < 256 ->
  exists a', unpad_loop n i (replicate k 0 ++ 0x80 :: l) (Unpad 0 0 0) = Unpad a' 1 (i + Z.of_nat k).
Proof.
  intros Hl. revert n i. induction k as [|k IH]; intros [|n] i Hi Hk Hb; try lia; cbn [replicate app unpad_loop].
  - change (unpad_step i 0x80 (Unpad 0 0 0)) with (Unpad 0x80 1 (Z.lor 0 (Z.land i (2 ^ 64 - 1)))).
    rewrite Z.lor_0_l. change (2 ^ 64 - 1) with (Z.ones 64). rewrite Z.land_ones, Z.mod_small by lia.
    destruct (unpad_loop_after n (i + 1) l 0x80 i Hl) as [a' ->]; [done|done|lia|].
    exists a'. f_equal. lia.
  - assert (unpad_step i 0 (Unpad 0 0 0) = Unpad 0 0 0) as ->.
    { unfold unpad_step. cbn [acc valid padlen]. change (Z.land _ 1) with 0.
      change (wrap 64 (1 + Z.lnot 0)) with 0. by rewrite Z.land_0_r. }
    destruct (IH n (i + 1)) as [a' ->]; [lia..|]. exists a'. f_equal. lia.
Qed.

(** What padding leaves in the buffer. *)
Lemma pad_buffer buf k x n :
  bytes buf -> (k <= length buf)%nat -> (x < n <= k)%nat -> (n <= 256)%nat ->
  reverse (pad_loop n 0 0 (Z.of_nat x) (reverse (take k buf))) =
  take (k - S x) buf ++ 0x80 :: replicate x 0.
Proof.
  intros Hb Hk Hx Hn.
  rewrite (pad_loop_before x) by (rewrite ?length_reverse, ?length_take; try lia;
    first [by apply Forall_reverse, Forall_take|unfold is_byte; lia]).
  rewrite reverse_app, reverse_cons, reverse_replicate, reverse_drop, reverse_involutive.
  rewrite length_reverse, take_take, length_take, <- app_assoc. do 2 f_equal. lia.
Qed.

(** * Theorems *)

(** The constant-time comparisons decide what they promise: [sodium_memcmp] is 0
    exactly on equal buffers and -1 otherwise, [sodium_is_zero] is 1 exactly on the
    zero buffer, and [sodium_compare] is the sign of the comparison of the
    little-endian numbers. *)
Theorem sodium_compare_correct (b1 b2 : list Z) :
  bytes b1 -> bytes b2 -> length b1 = length b2 ->
  sodium_memcmp b1 b2 = (if decide (b1 = b2) then 0 else -1) /\
  sodium_is_zero b1 = (if decide (b1 = replicate (length b1) 0) then 1 else 0) /\
  sodium_compare b1 b2 = match le_val b1 ?= le_val b2 with Lt => -1 | Eq => 0 | Gt => 1 end.
Proof.
  intros H1 H2 Hl. split_and!.
  - destruct (memcmp_acc_zero b1 b2 H1 H2 Hl) as [Hb HE]. unfold sodium_memcmp. rewrite mask_zero by done.
    case_decide as Hd; [apply HE in Hd as ->; done|]. destruct (Z.eqb_spec (memcmp_acc b1 b2) 0); tauto.
  - assert (bytes (replicate (length b1) 0)) as H0 by by apply Forall_replicate.
    destruct (memcmp_acc_zero b1 (replicate (length b1) 0) H1 H0 ltac:(by rewrite length_replicate)) as [Hb HE].
    unfold sodium_is_zero. rewrite is_zero_acc, mask_zero by done.
    case_decide as Hd; [apply HE in Hd as ->; done|]. destruct (Z.eqb_spec (memcmp_acc b1 (replicate (length b1) 0)) 0); tauto.
  - unfold sodium_compare. rewrite compare_fold by done. unfold cmp_state.
    destruct (Z.compare_spec (le_val b1) (le_val b2)) as [->| |].
    + by rewrite Z.ltb_irrefl, Z.eqb_refl.
    + rewrite (proj2 (Z.ltb_ge _ _)), (proj2 (Z.eqb_neq _ _)) by lia. done.
    + rewrite (proj2 (Z.ltb_lt _ _)) by lia. done.
Qed.

Lemma sodium_compare_correct_witness :
  sodium_memcmp [1; 2; 3] [1; 2; 4] = -1 /\ sodium_compare [1; 2; 3] [1; 2; 4] = -1.
Proof.
  destruct (sodium_compare_correct [1; 2; 3] [1; 2; 4]) as (HM & _ & HC);
    [repeat constructor; done|repeat constructor; done|done|].
  split; [rewrite HM|rewrite HC]; reflexivity.
Defined.

(** Little-endian arithmetic: [sodium_increment] adds one and [sodium_add] adds
    two numbers of the same length, modulo 256 to the length, with the carry carried
    through every byte. *)
Theorem sodium_arithmetic_correct (a b : list Z) :
  bytes a -> bytes b -> length a = length b ->
  le_val (sodium_increment a) = (le_val a + 1) mod 2 ^ (8 * Z.of_nat (length a)) /\
  le_val (sodium_add a b) = (le_val a + le_val b) mod 2 ^ (8 * Z.of_nat (length a)).
Proof.
  intros Ha Hb Hl. split; [by apply increment_loop_spec|].
  unfold sodium_add. rewrite add_loop_spec, Z.add_0_r by done. done.
Qed.

Lemma sodium_arithmetic_correct_witness :
  le_val (sodium_increment [255; 255; 7]) = 0x080000 /\ le_val (sodium_add [255; 255; 7] [1; 0; 248]) = 0.
Proof.
  destruct (sodium_arithmetic_correct [255; 255; 7] [1; 0; 248]) as [HI HA];
    [repeat constructor; done|repeat constructor; done|done|].
  split; [rewrite HI|rewrite HA]; reflexivity.
Defined.

(** Padding round trip: for blocks of up to 256 bytes and a buffer with room for
    the padded message, [sodium_pad] keeps the message and everything after the
    padded length, writes 0x80 and zeros in between up to the next multiple of the
    block, and [sodium_unpad] recovers the length of the message. *)
Theorem sodium_pad_unpad (buf : list Z) (ulen bs : Z) :
  bytes buf -> 0 < bs <= 256 -> 0 <= ulen -> ulen + bs < 2 ^ 64 ->
  (ulen / bs + 1) * bs <= Z.of_nat (length buf) ->
  let padded := (ulen / bs + 1) * bs in
  let buf' := take (Z.to_nat ulen) buf ++ 0x80 :: replicate (Z.to_nat (padded - ulen - 1)) 0
              ++ drop (Z.to_nat padded) buf in
  sodium_pad buf ulen bs = Some (0, padded, buf') /\ sodium_unpad buf' padded bs = (0, Some ulen).
Proof.
  intros Hb Hbs Hu Hmax Hfit padded buf'.
  pose proof (Z.div_mod ulen bs ltac:(lia)) as HD. pose proof (Z.mod_pos_bound ulen bs ltac:(lia)) as HM.
  set (x := bs - 1 - ulen mod bs) in *.
  assert (padded = ulen + x + 1) as HP by (unfold padded, x; lia).
  assert (0 <= ulen / bs) by (apply Z.div_pos; lia).
  assert (bs <= padded) by (unfold padded; nia).
  split.
  - unfold sodium_pad. rewrite pad_len_mod by lia. fold x. rewrite <- HP. unfold SIZE_MAX.
    rewrite !(proj2 (Z.leb_gt _ _)) by lia.
    replace x with (Z.of_nat (Z.to_nat x)) at 1 by lia. rewrite pad_buffer by (done || lia).
    rewrite <- app_assoc. cbn [app]. unfold buf'.
    replace (Z.to_nat padded - S (Z.to_nat x))%nat with (Z.to_nat ulen) by lia.
    replace (padded - ulen - 1) with x by lia. reflexivity.
  - unfold sodium_unpad. rewrite (proj2 (Z.ltb_ge _ _)), (proj2 (Z.leb_gt _ _)) by lia. cbn [orb].
    assert (take (Z.to_nat padded) buf' = take (Z.to_nat ulen) buf ++ 0x80 :: replicate (Z.to_nat x) 0) as ->.
    { unfold buf'. rewrite app_comm_cons, app_assoc, take_app_length'; [repeat (lia || f_equal)|].
      rewrite length_app, length_take. simpl. rewrite length_replicate. lia. }
    rewrite reverse_app, reverse_cons, reverse_replicate, <- app_assoc. cbn [app].
    destruct (unpad_loop_before (Z.to_nat x) (Z.to_nat bs) 0 (reverse (take (Z.to_nat ulen) buf)))
      as [a' ->]; [by apply Forall_reverse, Forall_take|lia..|].
    cbn [valid padlen]. rewrite wrap_small by lia. f_equal. f_equal. lia.
Qed.

Lemma sodium_pad_unpad_witness :
  sodium_pad [9; 8; 7; 6; 5; 4; 3; 2; 1] 5 4 = Some (0, 8, [9; 8; 7; 6; 5; 0x80; 0; 0; 1]) /\
  sodium_unpad [9; 8; 7; 6; 5; 0x80; 0; 0; 1] 8 4 = (0, Some 5).
Proof. apply (sodium_pad_unpad [9; 8; 7; 6; 5; 4; 3; 2; 1] 5 4); [repeat constructor; done|vm_compute; by repeat split..]. Defined.

(** The masks of [sodium_pad] are taken from bits 8 to 15 of [(i ^ xpadlen) - 1], so
    for a block of more than 256 bytes they are wrong: padding a one-byte message to a
    512-byte block succeeds and reports 512 bytes, but [sodium_unpad] then rejects the
    buffer. *)
Theorem sodium_pad_wide_block :
  exists buf', sodium_pad (replicate 600 0xff) 1 512 = Some (0, 512, buf') /\
    fst (sodium_unpad buf' 512 512) = -1.
Proof.
  exists (match sodium_pad (replicate 600 0xff) 1 512 with Some r => snd r | None => [] end).
  split; vm_compute; reflexivity.
Qed.
