(* ===== verification/Hw.v ===== *)
(** The machine the supervisor runs on: programs that thread a state and may not
    return, the device accesses of the sources as a class, the documented
    behaviour of the devices as laws on it, and a concrete platform. *)

From Stdlib Require Import ZArith Lia Bool.
From stdpp Require Import base list.
From S2P Require Import Prelude RdRand.

(** * Programs *)

(** [None] when the program does not return: it aborts, or the fuel given for its
    polling loops runs out. *)
Definition prog (S A : Type) : Type := S -> option (A * S).

Definition ret {S A} (a : A) : prog S A := fun s => Some (a, s).
Definition bind {S A B} (p : prog S A) (k : A -> prog S B) : prog S B :=
  fun s => match p s with Some (a, s) => k a s | None => None end.
Definition gets {S A} (f : S -> A) : prog S A := fun s => Some (f s, s).
Definition modify {S} (f : S -> S) : prog S unit := fun s => Some (tt, f s).
Definition stuck {S A} : prog S A := fun _ => None.

Notation "'let*' x ':=' p 'in' k" := (bind p (fun x => k))
  (at level 10, x name, p at level 100, k at level 200,
   format "'[v' 'let*'  x  ':='  p  'in' '/' k ']'") : aurora_scope.
#[global] Open Scope aurora_scope.

Definition when {S} (b : bool) (p : prog S unit) : prog S unit := if b then p else ret tt.

(** [for (...) p(x)] over the values the loop variable takes. *)
Fixpoint for_each {S X} (xs : list X) (p : X -> prog S unit) : prog S unit :=
  match xs with
  | [] => ret tt
  | x :: xs => let* _ := p x in for_each xs p
  end.

(** [while (c()) p();] with fuel: the condition may read devices. *)
Fixpoint while {S} (fuel : nat) (c : prog S bool) (p : prog S unit) : prog S unit :=
  match fuel with
  | O => stuck
  | S fuel => let* b := c in if b : bool then let* _ := p in while fuel c p else ret tt
  end.

Lemma bind_ret {S A B} (a : A) (k : A -> prog S B) s : bind (ret a) k s = k a s.
Proof. done. Qed.

Lemma bind_some {S A B} (p : prog S A) (k : A -> prog S B) s a s' :
  p s = Some (a, s') -> bind p k s = k a s'.
Proof. intros E. unfold bind. by rewrite E. Qed.

Lemma bind_assoc {S A B C} (p : prog S A) (k : A -> prog S B) (l : B -> prog S C) s :
  bind (bind p k) l s = bind p (fun a => bind (k a) l) s.
Proof. unfold bind. by destruct (p s) as [[]|]. Qed.

Lemma for_each_app {S X} (xs ys : list X) (p : X -> prog S unit) s :
  for_each (xs ++ ys) p s = (let* _ := for_each xs p in for_each ys p) s.
Proof.
  revert s. induction xs as [|x xs IH]; intros s; [done|]. cbn [for_each app].
  unfold bind in *. destruct (p x s) as [[[] s']|]; [|done]. apply IH.
Qed.

Lemma for_each_ext {S X} (xs : list X) (p q : X -> prog S unit) s :
  Forall (fun x => forall s, p x s = q x s) xs -> for_each xs p s = for_each xs q s.
Proof.
  intros H. revert s. induction H as [|x xs Hx _ IH]; intros s; [done|]. cbn [for_each]. unfold bind.
  rewrite Hx. destruct (q x s) as [[[] s']|]; [apply IH|done].
Qed.

(** * Device accesses *)

(** Volatile accesses to device addresses, model-specific registers, [cpuid], the
    I/O ports and the time stamp counter; the arguments are in the order of the functions of x86.h. *)
Class Devices (D : Type) := {
  readl : Z -> D -> Z * D;
  writel : Z -> Z -> D -> D;
  rdmsr : Z -> D -> Z * Z * D;
  wrmsr : Z -> Z -> Z -> D -> D;
  cpuid : Z -> cpu_info;
  inb : Z -> D -> Z * D;
  outb : Z -> Z -> D -> D;
  inw : Z -> D -> Z * D;
  outw : Z -> Z -> D -> D;
  inl : Z -> D -> Z * D;
  outl : Z -> Z -> D -> D;
  rdtscll : D -> Z * D;
}.

(** * The interrupt hardware

    What the supervisor relies on, in terms of four observations of the device
    state: the register file and the select register of the I/O APIC, the
    self-directed interrupts sent so far, and the 8042 output buffer. *)

Definition IOREGSEL : Z := 0xfec00000.
Definition IOWIN : Z := 0xfec00010.
Definition LAPIC : Z := 0xfee00000.

(** The writable bits of the low word of a redirection entry. *)
Definition REDIR_RW : Z := 0x1afff.

Class Platform (D : Type) {H : Devices D} := {
  ioregsel : D -> Z;
  ioapic : D -> Z -> Z;
  ipis : D -> list Z;
  kbd_out : D -> Z;
  apic_base : D -> Z * Z;
  icr_busy : D -> nat;
  keystroke : Z -> D -> D;
}.

(** The observations other than the register selection agree. *)
Record quiet {D} `{Platform D} (d d' : D) : Prop := {
  quiet_ioapic r : ioapic d' r = ioapic d r;
  quiet_ipis : ipis d' = ipis d;
  quiet_kbd : kbd_out d' = kbd_out d;
}.
Global Arguments quiet {D H H0} d d'.

(** x2APIC mode: bit 10 of the base register. *)
Definition x2apic_on {D} `{Platform D} (d : D) : bool := Z.testbit (fst (apic_base d)) 10.

(** In the laws on the command register, the value selects the sender itself as
    destination and fixed delivery. *)
Class PlatformLaws (D : Type) `{Platform D} : Prop := {
  (** I/O APIC: index and window *)
  select_ok v d : ioregsel (writel IOREGSEL v d) = Z.land v 0xff /\ quiet d (writel IOREGSEL v d);
  window_read_ok d : fst (readl IOWIN d) = ioapic d (ioregsel d) /\ quiet d (snd (readl IOWIN d)) /\
    ioregsel (snd (readl IOWIN d)) = ioregsel d;
  window_write_ok v d : 0x10 <= ioregsel d < 0x40 -> Z.even (ioregsel d) = true ->
    Z.land (ioapic (writel IOWIN v d) (ioregsel d)) REDIR_RW = Z.land v REDIR_RW /\
    (forall r, r <> ioregsel d -> ioapic (writel IOWIN v d) r = ioapic d r) /\
    ipis (writel IOWIN v d) = ipis d /\ kbd_out (writel IOWIN v d) = kbd_out d;
  ioapic_range d r : 0 <= ioapic d r < 2 ^ 32;
  (** Local APIC: the base register, and the interrupt command register *)
  apic_base_read d : fst (rdmsr 0x1b d) = apic_base d /\ quiet d (snd (rdmsr 0x1b d)) /\
    apic_base (snd (rdmsr 0x1b d)) = apic_base d;
  apic_base_write a e d : apic_base (wrmsr 0x1b a e d) = (a, e) /\ quiet d (wrmsr 0x1b a e d);
  x2apic_icr_ok v d : x2apic_on d = true -> Z.land v 0xc0700 = 0x40000 ->
    ipis (wrmsr 0x830 v 0 d) = ipis d ++ [Z.land v 0xff] /\
    (forall r, ioapic (wrmsr 0x830 v 0 d) r = ioapic d r) /\ kbd_out (wrmsr 0x830 v 0 d) = kbd_out d;
  xapic_icr_read d : x2apic_on d = false ->
    Z.testbit (fst (readl (LAPIC + 0x300) d)) 12 = (0 <? icr_busy d)%nat /\
    icr_busy (snd (readl (LAPIC + 0x300) d)) = Nat.pred (icr_busy d) /\
    apic_base (snd (readl (LAPIC + 0x300) d)) = apic_base d /\
    quiet d (snd (readl (LAPIC + 0x300) d));
  xapic_icr2_ok v d : x2apic_on d = false ->
    icr_busy (writel (LAPIC + 0x310) v d) = icr_busy d /\
    apic_base (writel (LAPIC + 0x310) v d) = apic_base d /\
    quiet d (writel (LAPIC + 0x310) v d);
  xapic_icr_ok v d : x2apic_on d = false -> icr_busy d = O -> Z.land v 0xc0700 = 0x40000 ->
    ipis (writel (LAPIC + 0x300) v d) = ipis d ++ [Z.land v 0xff] /\
    (forall r, ioapic (writel (LAPIC + 0x300) v d) r = ioapic d r) /\
    kbd_out (writel (LAPIC + 0x300) v d) = kbd_out d;
  (** 8042: a key code arrives in the output buffer, reading the data port takes it *)
  kbd_read_ok d : fst (inb 0x60 d) = kbd_out d /\ (forall r, ioapic (snd (inb 0x60 d)) r = ioapic d r) /\
    ipis (snd (inb 0x60 d)) = ipis d;
  keystroke_ok k d : kbd_out (keystroke k d) = k /\ (forall r, ioapic (keystroke k d) r = ioapic d r) /\
    ipis (keystroke k d) = ipis d;
}.

Section Quiet.
Context {D : Type} `{PlatformLaws D}.
Global Instance quiet_refl : Reflexive quiet.
Proof. done. Qed.
Global Instance quiet_trans : Transitive quiet.
Proof. intros x y z [] []. split; congruence. Qed.
End Quiet.

(** * A concrete platform *)

Record pc := Pc {
  pc_sel : Z; pc_regs : Z -> Z; pc_sent : list Z; pc_out : Z; pc_base : Z * Z;
}.

Definition pc_self (v : Z) (d : pc) : pc :=
  if Z.land v 0xc0700 =? 0x40000
  then Pc (pc_sel d) (pc_regs d) (pc_sent d ++ [Z.land v 0xff]) (pc_out d) (pc_base d) else d.

(** A PC whose processor reports what [leaf] says. *)
Section Pc.
Context (leaf : Z -> cpu_info).

Definition pc_devices : Devices pc := {|
  readl a d :=
    if a =? IOWIN then (u32 (pc_regs d (pc_sel d)), d) else (0, d);
  writel a v d :=
    if a =? IOREGSEL then Pc (Z.land v 0xff) (pc_regs d) (pc_sent d) (pc_out d) (pc_base d)
    else if a =? IOWIN then
      Pc (pc_sel d) (fun r => if r =? pc_sel d then Z.land v REDIR_RW else pc_regs d r)
         (pc_sent d) (pc_out d) (pc_base d)
    else if a =? LAPIC + 0x300 then pc_self v d else d;
  rdmsr r d := if r =? 0x1b then (pc_base d, d) else (0, 0, d);
  wrmsr r a e d :=
    if r =? 0x1b then Pc (pc_sel d) (pc_regs d) (pc_sent d) (pc_out d) (a, e)
    else if r =? 0x830 then pc_self a d else d;
  cpuid := leaf;
  inb p d := if p =? 0x60 then (pc_out d, d) else (0xff, d);
  outb v p d := d; inw p d := (0xffff, d); outw v p d := d; inl p d := (2 ^ 32 - 1, d); outl v p d := d;
  rdtscll d := (0, d);
|}.

Definition pc_platform : @Platform pc pc_devices := {|
  ioregsel := pc_sel; ioapic d r := u32 (pc_regs d r); ipis := pc_sent; kbd_out := pc_out;
  apic_base := pc_base; icr_busy d := O;
  keystroke k d := Pc (pc_sel d) (pc_regs d) (pc_sent d) k (pc_base d);
|}.

Lemma pc_laws : @PlatformLaws pc pc_devices pc_platform.
Proof.
  split; cbn; intros; try done.
  - rewrite Z.eqb_refl. split; [|split; [|done]].
    + rewrite wrap_small by (rewrite Z.land_comm; apply land_range; by vm_compute).
      by rewrite <- Z.land_assoc, Z.land_diag.
    + intros r Hr. by rewrite (proj2 (Z.eqb_neq _ _)).
  - apply wrap_range. lia.
  - unfold pc_self. destruct (Z.eqb_spec (Z.land v 0xc0700) 0x40000); done.
  - unfold pc_self. destruct (Z.eqb_spec (Z.land v 0xc0700) 0x40000); done.
Qed.
End Pc.
