(* ===== verification/Apic.v ===== *)
(** apic.c of the supervisor: local APIC and I/O APIC accesses, and the helpers of
    supervisor.c that are the same in every variant: enabling SSE, the
    self-directed interrupt and the scan of the redirection table. *)

From Stdlib Require Import ZArith Lia Bool.
From stdpp Require Import base list.
From S2P Require Import Prelude RdRand Hw.

Definition APIC_ID : Z := 0x20.
Definition APIC_ICR : Z := 0x300.
Definition APIC_ICR2 : Z := 0x310.
Definition APIC_ICR_BUSY : Z := 0x1000.
Definition APIC_DEST_SELF : Z := 0x40000.
Definition APIC_DEST_PHYSICAL : Z := 0.
Definition APIC_DM_FIXED : Z := 0.
Definition APIC_DM_SMI : Z := 0x200.
Definition APIC_BASE_MSR : Z := 0x800.
Definition MSR_IA32_APICBASE : Z := 0x1b.
Definition g_apic : Z := 0xfee00000.
Definition g_ioapic : Z := 0xfec00000.

(** * The machine *)

(** What [apic_ops] points to. *)
Inductive apic_sel := xapic | x2apic.
#[global] Instance apic_sel_eq_dec : EqDecision apic_sel.
Proof. solve_decision. Defined.

(** Memory, the random source, the devices, the control registers, the pointer
    [apic_ops] and the other static variables of a supervisor. *)
Record machine (D R G : Type) := Machine {
  m_mem : mem; m_rng : R; m_dev : D; m_cr0 : Z; m_cr4 : Z; m_apic : apic_sel; m_glob : G;
}.
Global Arguments Machine {D R G}.
Global Arguments m_mem {D R G}.
Global Arguments m_rng {D R G}.
Global Arguments m_dev {D R G}.
Global Arguments m_cr0 {D R G}.
Global Arguments m_cr4 {D R G}.
Global Arguments m_apic {D R G}.
Global Arguments m_glob {D R G}.

Section Machine.
Context {D R G : Type}.
Implicit Types s : machine D R G.
Definition set_mem (m : mem) s := Machine m (m_rng s) (m_dev s) (m_cr0 s) (m_cr4 s) (m_apic s) (m_glob s).
Definition set_dev (d : D) s := Machine (m_mem s) (m_rng s) d (m_cr0 s) (m_cr4 s) (m_apic s) (m_glob s).
Definition set_apic (a : apic_sel) s :=
  Machine (m_mem s) (m_rng s) (m_dev s) (m_cr0 s) (m_cr4 s) a (m_glob s).
Definition set_glob (g : G) s := Machine (m_mem s) (m_rng s) (m_dev s) (m_cr0 s) (m_cr4 s) (m_apic s) g.

Definition on_dev {A} (p : prog D A) : prog (machine D R G) A :=
  fun s => match p (m_dev s) with Some (a, d) => Some (a, set_dev d s) | None => None end.
Definition on_mem (f : mem -> mem) : prog (machine D R G) unit := modify (fun s => set_mem (f (m_mem s)) s).
Definition on_glob (f : G -> G) : prog (machine D R G) unit := modify (fun s => set_glob (f (m_glob s)) s).
Definition glob {A} (f : G -> A) : prog (machine D R G) A := gets (fun s => f (m_glob s)).
(** A function on memory and the random source, or on memory alone. *)
Definition on_side {A} (f : mem * R -> option (A * (mem * R))) : prog (machine D R G) A :=
  fun s => match f (m_mem s, m_rng s) with
    | Some (a, (m, r)) => Some (a, Machine m r (m_dev s) (m_cr0 s) (m_cr4 s) (m_apic s) (m_glob s))
    | None => None
    end.
Definition on_memory {A} (f : mem -> option (A * mem)) : prog (machine D R G) A :=
  fun s => match f (m_mem s) with Some (a, m) => Some (a, set_mem m s) | None => None end.
End Machine.

Section Apic.
Context {D : Type} {Dev : Devices D}.

(** A device read or write as a program. *)
Definition rd {A} (f : D -> A * D) : prog D A := fun d => Some (f d).
Definition wr (f : D -> D) : prog D unit := fun d => Some (tt, f d).

(** * Local APIC *)

Record apic_ops := ApicOps {
  reg_read : Z -> prog D Z;
  reg_write : Z -> Z -> prog D unit;
  icr_write : Z -> Z -> prog D unit;
  id : prog D Z;
}.

Definition xapic_read (reg : Z) : prog D Z := rd (readl (g_apic + reg)).
Definition xapic_write (reg val : Z) : prog D unit := wr (writel (g_apic + reg) val).

(** [fuel] bounds the wait for the command register. *)
Definition xapic_icr_write (fuel : nat) (val dest : Z) : prog D unit :=
  let* _ := while fuel (let* v := xapic_read APIC_ICR in ret (negb (Z.land v APIC_ICR_BUSY =? 0))) (ret tt) in
  let* _ := xapic_write APIC_ICR2 (u32 (Z.shiftl dest 24)) in
  xapic_write APIC_ICR val.

Definition xapic_id : prog D Z := let* v := xapic_read APIC_ID in ret (Z.shiftr v 24).

Definition xapic_ops (fuel : nat) : apic_ops :=
  ApicOps xapic_read xapic_write (xapic_icr_write fuel) xapic_id.

Definition x2apic_read (reg : Z) : prog D Z :=
  let* ad := rd (rdmsr (APIC_BASE_MSR + reg / 16)) in
  ret (u32 (Z.lor (fst ad) (Z.shiftl (snd ad) 32))).
Definition x2apic_write (reg val : Z) : prog D unit := wr (wrmsr (APIC_BASE_MSR + reg / 16) val 0).
Definition x2apic_icr_write (val dest : Z) : prog D unit :=
  wr (wrmsr (APIC_BASE_MSR + APIC_ICR / 16) val dest).
Definition x2apic_id : prog D Z := x2apic_read APIC_ID.

Definition x2apic_ops : apic_ops := ApicOps x2apic_read x2apic_write x2apic_icr_write x2apic_id.

Definition the_ops (fuel : nat) (a : apic_sel) : apic_ops :=
  match a with xapic => xapic_ops fuel | x2apic => x2apic_ops end.

(** * I/O APIC *)

Definition ioapic_read_reg (reg : Z) : prog D Z :=
  let* _ := wr (writel g_ioapic reg) in rd (readl (g_ioapic + 0x10)).

Definition ioapic_write_reg (reg value : Z) : prog D unit :=
  let* _ := wr (writel g_ioapic reg) in wr (writel (g_ioapic + 0x10) value).

(** [ioapic_redir_entry_t], as its two words. *)
Record ioapic_redir_entry := Redir { redir_lo : Z; redir_hi : Z }.

Definition ioapic_write_redir (line : Z) (e : ioapic_redir_entry) : prog D unit :=
  let* _ := ioapic_write_reg (0x10 + line * 2 + 0) (redir_lo e) in
  ioapic_write_reg (0x10 + line * 2 + 1) (redir_hi e).

Definition ioapic_read_redir (line : Z) : prog D ioapic_redir_entry :=
  let* lo := ioapic_read_reg (0x10 + line * 2 + 0) in
  let* hi := ioapic_read_reg (0x10 + line * 2 + 1) in
  ret (Redir lo hi).

(** * Programs of the supervisor *)

Section Supervisor.
Context {R G : Type} (fuel : nat).
Abbreviation M := (prog (machine D R G)).

Definition apic_read (reg : Z) : M Z := let* a := gets m_apic in on_dev (reg_read (the_ops fuel a) reg).
Definition apic_write (reg val : Z) : M unit :=
  let* a := gets m_apic in on_dev (reg_write (the_ops fuel a) reg val).
Definition apic_icr_write (val dest : Z) : M unit :=
  let* a := gets m_apic in on_dev (icr_write (the_ops fuel a) val dest).

Definition enable_x2apic : M Z :=
  if negb (Z.land (ecx (cpuid 1)) (Z.shiftl 1 21) =? 0) then
    let* ad := on_dev (rd (rdmsr MSR_IA32_APICBASE)) in
    let* _ := on_dev (wr (wrmsr MSR_IA32_APICBASE (Z.lor (fst ad) (Z.shiftl 1 10)) (snd ad))) in
    let* _ := modify (set_apic x2apic) in
    ret 1
  else ret 0.

Definition trigger_self_ipi (vec : Z) : M unit :=
  let* _ := enable_x2apic in
  apic_icr_write (Z.lor (Z.lor (Z.lor APIC_DEST_SELF APIC_DEST_PHYSICAL) APIC_DM_FIXED) vec) 0.

(** The instructions of the assembly block, with their AT&T operands: [andl %eax,
    0xFFFB] and [orl %eax, 0x2] have a memory destination. *)
Definition enable_sse : M unit :=
  let* eax := gets m_cr0 in
  let* _ := on_mem (fun m => store_le m 0xfffb 4 (Z.land (load_le m 0xfffb 4) eax)) in
  let* _ := on_mem (fun m => store_le m 0x2 4 (Z.lor (load_le m 0x2 4) eax)) in
  modify (fun s => Machine (m_mem s) (m_rng s) (m_dev s) eax (Z.lor (m_cr4 s) 1536) (m_apic s) (m_glob s)).

Definition IOREDTBL (x : Z) : Z := 0x10 + 2 * x.

(** The scan of the 24 redirection entries: [note i vector_address] is what the
    loop body assigns for entry [i]. *)
Definition show_ioredtbl (note : Z -> Z -> G -> G) : M unit :=
  for_each (Z.of_nat <$> seq 0 24) (fun i =>
    let* v := on_dev (ioapic_read_reg (IOREDTBL i)) in
    on_glob (note i (Z.land 0xff v))).
End Supervisor.
End Apic.

(** * Behaviour under the platform laws *)

Lemma bind_side {D R G A B} (f : mem * R -> option (A * (mem * R))) (k : A -> prog (machine D R G) B) s a m r :
  f (m_mem s, m_rng s) = Some (a, (m, r)) ->
  bind (on_side f) k s = k a (Machine m r (m_dev s) (m_cr0 s) (m_cr4 s) (m_apic s) (m_glob s)).
Proof. intros E. apply bind_some. unfold on_side. by rewrite E. Qed.

Lemma bind_dev {D R G A B} (p : prog D A) (k : A -> prog (machine D R G) B) s a d' :
  p (m_dev s) = Some (a, d') -> bind (on_dev p) k s = k a (set_dev d' s).
Proof. intros E. apply bind_some. unfold on_dev. by rewrite E. Qed.

Lemma enable_sse_spec {D R G} (s : machine D R G) :
  exists m', enable_sse s =
      Some (tt, Machine m' (m_rng s) (m_dev s) (m_cr0 s) (Z.lor (m_cr4 s) 1536) (m_apic s) (m_glob s)) /\
    (forall x, 6 <= x -> x < 0xfffb \/ 0xffff <= x -> m' x = m_mem s x) /\
    ((forall x, is_byte (m_mem s x)) -> forall x, is_byte (m' x)).
Proof.
  eexists. split; [reflexivity|]. split.
  - intros x Hx Hx'. cbn. unfold store_le. rewrite !store_out by (rewrite length_le_bytes; lia). done.
  - intros Hm. cbn. repeat (apply is_byte_store; [|apply bytes_le_bytes]). done.
Qed.

Section Laws.
Context {D : Type} `{PL : PlatformLaws D}.

Lemma read_reg_spec r d :
  0 <= r < 256 -> exists d', ioapic_read_reg r d = Some (ioapic d r, d') /\ quiet d d'.
Proof.
  intros Hr. destruct (select_ok r d) as [Hs Hq].
  assert (Z.land r 0xff = r) as Hl by (rewrite land_ff; by apply u8_small). rewrite Hl in Hs.
  destruct (window_read_ok (writel IOREGSEL r d)) as (Hv & Hq' & _).
  eexists. split; [|etransitivity; [exact Hq|exact Hq']].
  unfold ioapic_read_reg, rd, wr, bind. change g_ioapic with IOREGSEL. change (IOREGSEL + 0x10) with IOWIN.
  rewrite Hs in Hv. rewrite <- (quiet_ioapic _ _ Hq), <- Hv. by destruct (readl IOWIN _).
Qed.

Lemma write_reg_spec r v d :
  0x10 <= r < 0x40 -> Z.even r = true ->
  exists d', ioapic_write_reg r v d = Some (tt, d') /\
    Z.land (ioapic d' r) REDIR_RW = Z.land v REDIR_RW /\
    (forall r', r' <> r -> ioapic d' r' = ioapic d r') /\ ipis d' = ipis d /\ kbd_out d' = kbd_out d.
Proof.
  intros Hr He. destruct (select_ok r d) as [Hs [Hq1 Hq2 Hq3]].
  assert (Z.land r 0xff = r) as Hl by (rewrite land_ff; apply u8_small; unfold is_byte; lia).
  rewrite Hl in Hs. destruct (window_write_ok v (writel IOREGSEL r d)) as (Hv & Ho & Hi & Hk);
    rewrite ?Hs in *; [done..|].
  exists (writel IOWIN v (writel IOREGSEL r d)). split; [reflexivity|]. split_and!; [done| |congruence..].
  intros r' Hr'. rewrite Ho by done. apply Hq1.
Qed.

(** The scan leaves the devices alone and notes the low byte of every entry. *)
Lemma show_ioredtbl_reads {R G} note regs (s : machine D R G) :
  (forall r, ioapic (m_dev s) r = regs r) ->
  exists d', show_ioredtbl note s =
      Some (tt, set_glob (foldl (fun g i => note i (Z.land 0xff (regs (IOREDTBL i))) g) (m_glob s)
        (Z.of_nat <$> seq 0 24)) (set_dev d' s)) /\
    quiet (m_dev s) d'.
Proof.
  unfold show_ioredtbl.
  assert (Forall (fun i => 0 <= IOREDTBL i < 256) (Z.of_nat <$> seq 0 24)) as Hin.
  { apply Forall_fmap, Forall_seq. intros j Hj. cbn. unfold IOREDTBL. lia. }
  revert s. induction Hin as [|i xs Hi Hxs IH]; intros s Hr.
  - exists (m_dev s). split; [by destruct s|done].
  - cbn [for_each foldl]. destruct (read_reg_spec (IOREDTBL i) (m_dev s) Hi) as (d1 & E1 & Hq).
    rewrite Hr in E1. set (g1 := note i (Z.land 0xff (regs (IOREDTBL i))) (m_glob s)).
    assert ((let* v := on_dev (ioapic_read_reg (IOREDTBL i)) in on_glob (note i (Z.land 0xff v))) s =
      Some (tt, set_glob g1 (set_dev d1 s))) as E by (by rewrite (bind_dev _ _ _ _ _ E1)).
    rewrite (bind_some _ _ _ _ _ E). destruct (IH (set_glob g1 (set_dev d1 s))) as (d' & -> & Hq').
    { intros r. cbn. rewrite (quiet_ioapic _ _ Hq). apply Hr. }
    exists d'. by split; [|etransitivity].
Qed.

(** The processor reports x2APIC. *)
Definition has_x2apic : Prop := negb (Z.land (ecx (cpuid (D := D) 1)) (Z.shiftl 1 21) =? 0) = true.

(** The command register can be used: in x2APIC mode, or once its busy bit clears. *)
Definition apic_ready {R G} (fuel : nat) (s : machine D R G) : Prop :=
  has_x2apic \/
  ~ has_x2apic /\ m_apic s = xapic /\ x2apic_on (m_dev s) = false /\ (icr_busy (m_dev s) < fuel)%nat.

Lemma self_ipi_value vec :
  0 <= vec < 256 ->
  let v := Z.lor (Z.lor (Z.lor APIC_DEST_SELF APIC_DEST_PHYSICAL) APIC_DM_FIXED) vec in
  Z.land v 0xc0700 = 0x40000 /\ Z.land v 0xff = vec.
Proof.
  intros Hv. change (Z.lor (Z.lor APIC_DEST_SELF APIC_DEST_PHYSICAL) APIC_DM_FIXED) with 0x40000. cbv zeta.
  rewrite !Z.land_lor_distr_l, (land_ff vec), u8_small by done. split; [|done].
  assert (Z.land vec 0xc0700 = 0) as ->; [|done].
  apply Z.bits_inj'. intros i Hi. rewrite Z.land_spec, Z.bits_0.
  destruct (Z.lt_ge_cases i 8); [|by rewrite (testbit_high 8)].
  assert (i = 0 \/ i = 1 \/ i = 2 \/ i = 3 \/ i = 4 \/ i = 5 \/ i = 6 \/ i = 7) as Hc by lia.
  destruct_or? Hc; subst; by rewrite andb_false_r.
Qed.

(** Waiting for the command register ends once the busy count is used up. *)
Lemma icr_wait fuel d :
  x2apic_on d = false -> (icr_busy d < fuel)%nat ->
  exists d', while fuel (let* v := xapic_read APIC_ICR in ret (negb (Z.land v APIC_ICR_BUSY =? 0))) (ret tt) d =
      Some (tt, d') /\ icr_busy d' = O /\ apic_base d' = apic_base d /\ quiet d d'.
Proof.
  revert d. induction fuel as [|fuel IH]; intros d Hx Hf; [lia|].
  destruct (xapic_icr_read d Hx) as (Hb & Hn & Ha & Hq).
  destruct (readl (LAPIC + 0x300) d) as [v d1] eqn:Er. cbn [fst snd] in *.
  assert (bind (xapic_read APIC_ICR) (fun v => ret (negb (Z.land v APIC_ICR_BUSY =? 0))) d =
    Some (Z.testbit v 12, d1)) as E1.
  { unfold bind, xapic_read, rd, ret. change (g_apic + APIC_ICR) with (LAPIC + 0x300). rewrite Er.
    change APIC_ICR_BUSY with (2 ^ 12). by rewrite land_pow2_test by lia. }
  cbn [while]. rewrite (bind_some _ _ _ _ _ E1).
  rewrite Hb. destruct (Nat.ltb_spec 0 (icr_busy d)).
  - assert (x2apic_on d1 = false) as Hx1 by (unfold x2apic_on in *; by rewrite Ha).
    destruct (IH d1 Hx1 ltac:(lia)) as (d' & E & Hb' & Ha' & Hq'). rewrite bind_ret, E.
    exists d'. split_and!; try done; [congruence|by etransitivity].
  - exists d1. split_and!; try done. lia.
Qed.

Lemma trigger_self_ipi_spec {R G} fuel vec (s : machine D R G) :
  0 <= vec < 256 -> apic_ready fuel s ->
  exists d' a, trigger_self_ipi fuel vec s = Some (tt, set_apic a (set_dev d' s)) /\
    ipis d' = ipis (m_dev s) ++ [vec] /\ (forall r, ioapic d' r = ioapic (m_dev s) r) /\
    kbd_out d' = kbd_out (m_dev s).
Proof.
  intros Hv Hready. destruct (self_ipi_value vec Hv) as [Hv1 Hv2].
  set (v := Z.lor _ vec) in *. unfold trigger_self_ipi. fold v.
  destruct Hready as [Hx|(Hx & Ha & Hoff & Hf)].
  - unfold enable_x2apic. rewrite Hx. destruct s as [m r d cr0 cr4 a g]. cbn [m_dev] in *.
    destruct (apic_base_read d) as (Hb & [Hq1 Hq2 Hq3] & _). unfold bind, on_dev, rd, wr, ret, gets, modify.
    cbn [m_dev]. change MSR_IA32_APICBASE with 0x1b. destruct (rdmsr 0x1b d) as [[lo hi] d1]. cbn [fst snd] in *.
    destruct (apic_base_write (Z.lor lo (Z.shiftl 1 10)) hi d1) as (Hb' & [Hr1 Hr2 Hr3]).
    set (d2 := wrmsr 0x1b _ _ d1) in *. cbn. change (APIC_BASE_MSR + APIC_ICR / 16) with 0x830.
    destruct (x2apic_icr_ok v d2) as (Hi & Hio & Hk);
      [unfold x2apic_on; rewrite Hb'; cbn [fst]; by rewrite Z.lor_spec, orb_true_r|done|].
    exists (wrmsr 0x830 v 0 d2), x2apic. split; [reflexivity|].
    split_and!; [rewrite Hi, Hv2; congruence|intros r0; rewrite Hio, Hr1; apply Hq1|congruence].
  - assert (negb (Z.land (ecx (cpuid (D := D) 1)) (Z.shiftl 1 21) =? 0) = false) as Hn
      by (unfold has_x2apic in Hx; by destruct (negb _)).
    unfold enable_x2apic. rewrite Hn, bind_ret. unfold apic_icr_write, gets, on_dev, bind at 1. rewrite Ha.
    cbn [the_ops xapic_ops icr_write].
    unfold xapic_icr_write. destruct (icr_wait fuel (m_dev s) Hoff Hf) as (d1 & E & Hb1 & Ha1 & [Hq1 Hq2 Hq3]).
    rewrite (bind_some _ _ _ _ _ E).
    assert (x2apic_on d1 = false) as Hoff1 by (unfold x2apic_on in *; by rewrite Ha1).
    destruct (xapic_icr2_ok (u32 (Z.shiftl 0 24)) d1 Hoff1) as (Hb2 & Ha2 & [Hr1 Hr2 Hr3]).
    unfold xapic_write, wr, bind. change (g_apic + APIC_ICR2) with (LAPIC + 0x310).
    change (g_apic + APIC_ICR) with (LAPIC + 0x300). set (d2 := writel (LAPIC + 0x310) _ d1) in *.
    destruct (xapic_icr_ok v d2) as (Hi & Hio & Hk);
      [unfold x2apic_on in *; by rewrite Ha2|lia|done|].
    exists (writel (LAPIC + 0x300) v d2), (m_apic s). split; [by destruct s|].
    split_and!; [rewrite Hi, Hv2; congruence|intros r0; rewrite Hio, Hr1; apply Hq1|congruence].
Qed.
End Laws.

(** * Properties *)

(** A self-directed interrupt: whether the processor has x2APIC or not,
    [trigger_self_ipi] returns once the command register is free and sends exactly
    one interrupt with the vector, leaving the I/O APIC and the keyboard alone. *)
Theorem trigger_self_ipi_sends {D R G} `{PL : PlatformLaws D} fuel vec (s : machine D R G) :
  0 <= vec < 256 -> apic_ready fuel s ->
  exists s', trigger_self_ipi fuel vec s = Some (tt, s') /\
    ipis (m_dev s') = ipis (m_dev s) ++ [vec] /\
    (forall r, ioapic (m_dev s') r = ioapic (m_dev s) r) /\
    m_mem s' = m_mem s /\ m_glob s' = m_glob s.
Proof.
  intros Hv Hr. destruct (trigger_self_ipi_spec fuel vec s Hv Hr) as (d' & a & E & Hi & Hio & _).
  eexists. split; [exact E|]. by split_and!.
Qed.

Lemma trigger_self_ipi_sends_witness :
  let H := pc_devices (fun _ => Info 0 0 0 0) in
  let s := Machine (fun _ => 0) tt (Pc 0 (fun _ => 0) [] 0 (0xfee00800, 0)) 0 0 xapic tt in
  exists s', trigger_self_ipi 1 0x3a s = Some (tt, s') /\
    pc_sent (m_dev s') = [] ++ [0x3a] /\
    (forall r, u32 (pc_regs (m_dev s') r) = 0) /\ m_mem s' = m_mem s /\ m_glob s' = m_glob s.
Proof.
  apply (trigger_self_ipi_sends (PL := pc_laws (fun _ => Info 0 0 0 0)) 1 0x3a); [lia|].
  right. split_and!; [done|done|done|cbn; lia].
Defined.

(** [enable_sse] does not enable SSE: its logical instructions have memory
    operands, so CR0 keeps its value, the emulation bit included, while the four
    bytes at 2 are or-ed with CR0 and those at 0xfffb masked by it. *)
Theorem enable_sse_leaves_cr0 {D R G} (s : machine D R G) :
  (forall x, is_byte (m_mem s x)) -> 0 <= m_cr0 s < 2 ^ 32 ->
  exists s', enable_sse s = Some (tt, s') /\ m_cr0 s' = m_cr0 s /\
    load_le (m_mem s') 0x2 4 = Z.lor (load_le (m_mem s) 0x2 4) (m_cr0 s) /\
    load_le (m_mem s') 0xfffb 4 = Z.land (load_le (m_mem s) 0xfffb 4) (m_cr0 s).
Proof.
  intros Hm Hc. eexists. split; [reflexivity|]. cbn -[store_le load_le]. split; [done|].
  assert (forall a, 0 <= load_le (m_mem s) a 4 < 2 ^ 32) as Hr.
  { intros a. pose proof (le_val_range (load (m_mem s) a 4)) as HR. rewrite length_load in HR.
    apply HR, Forall_fmap, Forall_true. intros i. apply Hm. }
  assert (forall m m' a v, (forall x, a <= x < a + 4 -> m' x = store_le m a 4 v x) -> 0 <= v < 2 ^ 32 ->
    load_le m' a 4 = v) as Hst.
  { intros m m' a v HE Hv. unfold load_le. rewrite (load_ext m' (store_le m a 4 v)) by (intros x Hx; apply HE; lia).
    unfold store_le. rewrite load_store_eq by done. rewrite le_val_le_bytes. by apply wrap_small. }
  split.
  - rewrite (Hst (store_le (m_mem s) 0xfffb 4 (Z.land (load_le (m_mem s) 0xfffb 4) (m_cr0 s)))
      _ 0x2 _ (fun x _ => eq_refl)).
    + reflexivity.
    + apply (lor_range 32); [lia| |done]. unfold load_le, store_le.
      rewrite load_store_ne by (right; lia). apply Hr.
  - apply (Hst (m_mem s)); [|apply (land_range 32); [lia|apply Hr]].
    intros x Hx. apply store_out. rewrite length_le_bytes. lia.
Qed.

Lemma enable_sse_leaves_cr0_witness :
  exists s', enable_sse (Machine (fun _ => 0) tt tt 0x80000015 0 xapic tt) = Some (tt, s') /\
    m_cr0 s' = 0x80000015 /\
    load_le (m_mem s') 0x2 4 = Z.lor 0 0x80000015 /\ load_le (m_mem s') 0xfffb 4 = Z.land 0 0x80000015.
Proof.
  apply (enable_sse_leaves_cr0 (Machine (fun _ => 0) tt tt 0x80000015 0 xapic tt)); [done|cbn; lia].
Defined.
