(* ===== verification/Keyboard.v ===== *)
(** supervisor.c of the keyboard variant: the handler that takes the keyboard
    interrupt from the operating system, collects what is typed in SMRAM and sends
    it to the enclave when Enter is released. *)

From Stdlib Require Import ZArith Lia Bool.
From stdpp Require Import base list.
From S2P Require Import Prelude RdRand Aead RingBuffer Hw Apic.

Definition KBD_IRQ : Z := 1.
Definition NIC_IRQ : Z := 11.
Definition HIJACKED_IRQ : Z := 0x12.
Definition UIO_VECTOR : Z := 0x3a.
Definition I8042_DATA_REG : Z := 0x60.

(** The translation table of key codes, row by row as in the source; the string is
    shorter than the 128-byte array, whose rest is zero. *)
Definition pckbd_sysrq_xlate : list Z :=
  [0; 27; 49; 50; 51; 52; 53; 54; 55; 56; 57; 48; 45; 61; 127; 9;
   113; 119; 101; 114; 116; 121; 117; 105; 111; 112; 91; 93; 13; 0; 97; 115;
   100; 102; 103; 104; 106; 107; 108; 59; 39; 96; 0; 92; 122; 120; 99; 118;
   98; 110; 109; 44; 46; 47; 0; 42; 0; 32; 0; 129; 130; 131; 132; 133;
   134; 135; 136; 137; 138; 0; 0; 55; 56; 57; 45; 52; 53; 54; 43; 49;
   50; 51; 48; 127; 0; 0; 139; 140; 0; 0; 0; 0; 0; 0; 0; 0; 0; 0;
   13; 0; 47] ++ replicate 27 0.

Definition xlate (k : Z) : Z := nth (Z.to_nat k) pckbd_sysrq_xlate 0.

(** The static variables; [kbd_buffer] is in memory. *)
Record kbd_glob := KbdGlob {
  kbd_data : Z; kbd_i : Z; isFirstPhrase : Z; kbd_vec : Z; nic_vec : Z; shmem_base : Z;
}.
Definition set_kbd_data v g := KbdGlob v (kbd_i g) (isFirstPhrase g) (kbd_vec g) (nic_vec g) (shmem_base g).
Definition set_kbd_i v g := KbdGlob (kbd_data g) v (isFirstPhrase g) (kbd_vec g) (nic_vec g) (shmem_base g).
Definition set_isFirstPhrase v g := KbdGlob (kbd_data g) (kbd_i g) v (kbd_vec g) (nic_vec g) (shmem_base g).
Definition set_kbd_vec v g := KbdGlob (kbd_data g) (kbd_i g) (isFirstPhrase g) v (nic_vec g) (shmem_base g).
Definition set_nic_vec v g := KbdGlob (kbd_data g) (kbd_i g) (isFirstPhrase g) (kbd_vec g) v (shmem_base g).
Definition set_shmem_base v g := KbdGlob (kbd_data g) (kbd_i g) (isFirstPhrase g) (kbd_vec g) (nic_vec g) v.

Section Keyboard.
Context {A : Aead} {R : Type} {F : RandomFill R} {D : Type} {Dev : Devices D}.
(** The fuel of the APIC wait, and the addresses of [kbd_buffer] and of the local
    [message] of [put_in_buffer]. *)
Context (fuel : nat) (kbd_buffer message_at : Z).
Abbreviation M := (prog (machine D R kbd_glob)).

Definition i8042_read_data : prog D Z := rd (inb I8042_DATA_REG).

(** Calls into ring_buffer.c. *)
Definition do_init_ring_buffer : M unit :=
  fun s => let '(base, m) := init_ring_buffer (m_mem s) in
    Some (tt, set_glob (set_shmem_base base (m_glob s)) (set_mem m s)).
Definition do_put_in_buffer (raw len : Z) : M Z :=
  fun s =>
    match put_in_buffer message_at (shmem_base (m_glob s)) raw len (m_mem s, m_rng s) with
    | Some (r, (m, rng)) =>
        Some (r, Machine m rng (m_dev s) (m_cr0 s) (m_cr4 s) (m_apic s) (m_glob s))
    | None => None
    end.

(** The assignments of the loop body of [show_ioredtbl]. *)
Definition note_vector (i vector_address : Z) (g : kbd_glob) : kbd_glob :=
  let g := if KBD_IRQ =? i then set_kbd_vec vector_address g else g in
  if NIC_IRQ =? i then set_nic_vec vector_address g else g.

Definition hijack_keyboard : M unit :=
  let* v := on_dev (ioapic_read_reg HIJACKED_IRQ) in
  let* _ := on_glob (set_kbd_vec (s32 v)) in
  on_dev (ioapic_write_reg HIJACKED_IRQ APIC_DM_SMI).

Definition recover_keyboard : M unit :=
  let* v := glob kbd_vec in
  on_dev (ioapic_write_reg HIJACKED_IRQ (u32 v)).

Definition clear_kbd_buffer : M unit := on_mem (fun m => memset m kbd_buffer 0 256).

(** Enter released: send the buffer and give the interrupt back. *)
Definition submit : M unit :=
  let* _ := do_put_in_buffer kbd_buffer 4080 in
  let* _ := trigger_self_ipi fuel UIO_VECTOR in
  let* _ := on_glob (set_kbd_i (-1)) in
  recover_keyboard.

(** [kbd_buffer[i] = pckbd_sysrq_xlate[kbd_data]; i++;] *)
Definition append_key (k : Z) : M unit :=
  let* i := glob kbd_i in
  let* _ := on_mem (fun m => store m (kbd_buffer + i) [xlate k]) in
  on_glob (set_kbd_i (s32 (i + 1))).

Definition supervisor : M unit :=
  let* _ := enable_sse in
  let* first := glob isFirstPhrase in
  if negb (first =? 0) then
    let* _ := do_init_ring_buffer in
    let* _ := show_ioredtbl note_vector in
    let* _ := hijack_keyboard in
    let* _ := clear_kbd_buffer in
    on_glob (set_isFirstPhrase 0)
  else
    let* i := glob kbd_i in
    if -1 =? i then
      let* _ := hijack_keyboard in
      let* _ := clear_kbd_buffer in
      on_glob (set_kbd_i 0)
    else
      let* k := on_dev i8042_read_data in
      let* _ := on_glob (set_kbd_data k) in
      let* _ := when (0x9c =? k) submit in
      when ((0x00 <=? k) && (k <=? 0x6f)) (append_key k).
End Keyboard.

(** * What the handler does *)

Section KeyboardLaws.
Context {A : Aead} {max : Z} {Laws : AeadLaws A max} (Hmax : MSG_SIZE <= max).
Context {R : Type} {F : RandomFill R} {FL : RandomFillLaws R}.
Context {D : Type} `{PL : PlatformLaws D} (Hx2 : has_x2apic (D := D)).
Context (fuel : nat) (kbd_buffer message_at base : Z).

(** Where the static buffer, the local message and the shared region are. *)
Record kbd_layout : Prop := {
  buf_shm : disjoint kbd_buffer 256 base SHM_SIZE;
  buf_high : 0x10000 <= kbd_buffer;
  shm_high : 0x10000 <= base;
  buf_local : local_ok message_at base;
}.
Context (Hlay : kbd_layout).
Abbreviation machine := (machine D R kbd_glob).
Abbreviation supervisor := (supervisor fuel kbd_buffer message_at).

(** A key code arrives and raises the SMI; a sequence of them. *)
Definition key (k : Z) : prog machine unit :=
  let* _ := modify (fun s => set_dev (keystroke k (m_dev s)) s) in supervisor.
Definition type_keys (ks : list Z) : prog machine unit := for_each ks key.

(** Between sessions: the interrupt belongs to the operating system, as in [regs]. *)
Record idle (regs : Z -> Z) (sent : list Z) (mi mo : Mailbox.t) (s : machine) : Prop := {
  id_first : isFirstPhrase (m_glob s) = 0;
  id_base : shmem_base (m_glob s) = base;
  id_i : kbd_i (m_glob s) = -1;
  id_bytes : all_bytes (m_mem s);
  id_in : holds (in_box base) (m_mem s) mi;
  id_out : holds (out_box base) (m_mem s) mo;
  id_irq : Z.land (ioapic (m_dev s) HIJACKED_IRQ) REDIR_RW = Z.land (regs HIJACKED_IRQ) REDIR_RW;
  id_regs r : r <> HIJACKED_IRQ -> ioapic (m_dev s) r = regs r;
  id_ipis : ipis (m_dev s) = sent;
}.

(** In a session: the interrupt raises SMIs, and [txt] is in the buffer. *)
Record armed (txt : list Z) (regs : Z -> Z) (sent : list Z) (mo : Mailbox.t) (s : machine) : Prop := {
  ar_first : isFirstPhrase (m_glob s) = 0;
  ar_base : shmem_base (m_glob s) = base;
  ar_i : kbd_i (m_glob s) = Z.of_nat (length txt);
  ar_vec : u32 (kbd_vec (m_glob s)) = regs HIJACKED_IRQ;
  ar_bytes : all_bytes (m_mem s);
  ar_len : (length txt <= 256)%nat;
  ar_buf : load (m_mem s) kbd_buffer 256 = txt ++ replicate (256 - length txt) 0;
  ar_in : holds (in_box base) (m_mem s) Mailbox.empty;
  ar_out : holds (out_box base) (m_mem s) mo;
  ar_irq : Z.land (ioapic (m_dev s) HIJACKED_IRQ) REDIR_RW = APIC_DM_SMI;
  ar_regs r : r <> HIJACKED_IRQ -> ioapic (m_dev s) r = regs r;
  ar_ipis : ipis (m_dev s) = sent;
}.

Lemma u32_s32 v : 0 <= v < 2 ^ 32 -> u32 (s32 v) = v.
Proof.
  intros Hv. unfold to_signed. rewrite (wrap_small 32 v) by lia. change (2 ^ (32 - 1)) with 0x80000000.
  destruct (Z.ltb_spec v 0x80000000); [apply wrap_small; lia|].
  unfold wrap. symmetry. apply (Z.mod_unique _ _ (-1)); lia.
Qed.

(** Memory that only changed in the low page read by [enable_sse]. *)
Lemma holds_low b m m' mb :
  box_ok base b -> (forall x, 6 <= x -> x < 0xfffb \/ 0xffff <= x -> m' x = m x) ->
  holds b m mb -> holds b m' mb.
Proof.
  intros Hb Hm. apply (holds_outside base); [done|]. intros x Hx. pose proof (shm_high Hlay).
  apply Hm; lia.
Qed.

Lemma load_low m m' n :
  (forall x, 6 <= x -> x < 0xfffb \/ 0xffff <= x -> m' x = m x) ->
  load m' kbd_buffer n = load m kbd_buffer n.
Proof. intros Hm. apply load_ext. intros x Hx. pose proof (buf_high Hlay). apply Hm; lia. Qed.

Lemma hijack_spec (s : machine) :
  exists d', hijack_keyboard s =
      Some (tt, set_dev d' (set_glob (set_kbd_vec (s32 (ioapic (m_dev s) HIJACKED_IRQ)) (m_glob s)) s)) /\
    Z.land (ioapic d' HIJACKED_IRQ) REDIR_RW = APIC_DM_SMI /\
    (forall r, r <> HIJACKED_IRQ -> ioapic d' r = ioapic (m_dev s) r) /\ ipis d' = ipis (m_dev s).
Proof.
  destruct (read_reg_spec HIJACKED_IRQ (m_dev s)) as (d1 & E1 & [Hq1 Hq2 _]); [done|].
  destruct (write_reg_spec HIJACKED_IRQ APIC_DM_SMI d1) as (d2 & E2 & Hw & Ho & Hi & _); [done|done|].
  exists d2. split_and!; [|by rewrite Hw|intros r Hr; rewrite Ho by done; apply Hq1|congruence].
  unfold hijack_keyboard. rewrite (bind_dev _ _ _ _ _ E1).
  unfold bind, on_glob, modify. unfold on_dev. cbn [m_dev set_glob set_dev]. by rewrite E2.
Qed.

Lemma clear_holds b m mb :
  box_ok base b -> holds b m mb -> holds b (memset m kbd_buffer 0 256) mb.
Proof.
  intros Hb. apply (holds_outside base); [done|]. intros x Hx. pose proof (buf_shm Hlay).
  apply memset_out. shm_lia.
Qed.

Lemma clear_load m : load (memset m kbd_buffer 0 256) kbd_buffer 256 = replicate 256 0.
Proof. unfold memset. by rewrite load_store_eq. Qed.

(** What [hijack_keyboard] and the clearing of the buffer make of a state, before
    the program [k] that follows them. *)
Lemma arm_spec (s : machine) mo :
  all_bytes (m_mem s) -> shmem_base (m_glob s) = base ->
  holds (in_box base) (m_mem s) Mailbox.empty -> holds (out_box base) (m_mem s) mo ->
  exists s',
    (forall k : prog machine unit,
      (let* _ := hijack_keyboard in let* _ := clear_kbd_buffer kbd_buffer in k) s = k s') /\
    armed [] (ioapic (m_dev s)) (ipis (m_dev s)) mo
      (set_glob (set_kbd_i 0 (set_isFirstPhrase 0 (m_glob s'))) s') /\
    isFirstPhrase (m_glob s') = isFirstPhrase (m_glob s) /\ kbd_i (m_glob s') = kbd_i (m_glob s).
Proof.
  intros Hm Hbase Hi Ho. destruct (hijack_spec s) as (d' & E & Hirq & Hregs & Hsent).
  eexists. split; [intros k; rewrite (bind_some _ _ _ _ _ E); reflexivity|]. split; [|done].
  split; try done; cbn.
  - apply u32_s32, ioapic_range.
  - apply is_byte_store; [done|]. apply bytes_replicate, is_byte_u8.
  - lia.
  - apply clear_load.
  - by apply clear_holds; [apply in_box_ok|].
  - by apply clear_holds; [apply out_box_ok|].
Qed.

Lemma armed_ext txt regs regs' sent mo s s' :
  (forall r, regs' r = regs r) -> s' = s -> armed txt regs sent mo s -> armed txt regs' sent mo s'.
Proof. intros Hr -> []. split; try done; [congruence|]. intros r Hne. rewrite Hr. auto. Qed.

(** The statics that [show_ioredtbl] leaves alone. *)
Definition same_session (g g' : kbd_glob) : Prop :=
  kbd_i g' = kbd_i g /\ isFirstPhrase g' = isFirstPhrase g /\ shmem_base g' = shmem_base g.

Lemma note_vector_same i v g : same_session g (note_vector i v g).
Proof. unfold note_vector. by destruct (KBD_IRQ =? i), (NIC_IRQ =? i). Qed.

Lemma show_ioredtbl_spec (s : machine) :
  exists d' g', show_ioredtbl note_vector s = Some (tt, set_glob g' (set_dev d' s)) /\
    quiet (m_dev s) d' /\ same_session (m_glob s) g'.
Proof.
  destruct (show_ioredtbl_reads note_vector (ioapic (m_dev s)) s (fun _ => eq_refl)) as (d' & E & Hq).
  eexists d', _. split; [exact E|]. split; [done|]. clear E. generalize (m_glob s).
  induction (Z.of_nat <$> seq 0 24) as [|i xs IH]; intros g; [done|]. cbn [foldl].
  destruct (IH (note_vector i (Z.land 0xff (ioapic (m_dev s) (IOREDTBL i))) g)) as (H1 & H2 & H3).
  destruct (note_vector_same i (Z.land 0xff (ioapic (m_dev s) (IOREDTBL i))) g) as (H4 & H5 & H6).
  unfold same_session. split_and!; congruence.
Qed.

(** Before the first call of the handler: the statics as initialised, and the
    address of the shared region at 0x64. *)
Record boot (s : machine) : Prop := {
  bt_first : isFirstPhrase (m_glob s) <> 0;
  bt_i : kbd_i (m_glob s) = 0;
  bt_bytes : all_bytes (m_mem s);
  bt_base : u32 (load_le (m_mem s) 0x64 8) = base;
}.

Lemma first_phrase_spec (s : machine) :
  boot s ->
  exists s', supervisor s = Some (tt, s') /\
    armed [] (ioapic (m_dev s)) (ipis (m_dev s)) Mailbox.empty s'.
Proof.
  intros [Hf Hi Hm Hbase]. destruct (enable_sse_spec s) as (m1 & E1 & Hlow & Hm1).
  unfold Keyboard.supervisor. rewrite (bind_some _ _ _ _ _ E1).
  unfold glob. rewrite (bind_some _ _ _ _ _ (eq_refl (Some (_, _)))). cbn [m_glob].
  rewrite (proj2 (Z.eqb_neq _ _) Hf). cbn [negb].
  assert (init_ring_buffer m1 = (base, snd (init_ring_buffer m1))) as Einit.
  { rewrite (surjective_pairing (init_ring_buffer m1)) at 1. f_equal. rewrite <- Hbase.
    unfold init_ring_buffer, load_le. cbn [fst]. do 2 f_equal. apply load_ext. intros x Hx. apply Hlow; lia. }
  pose proof (init_holds m1) as HI. rewrite Einit in HI. destruct HI as (Hin & Hout & _).
  pose proof (init_bytes m1 (Hm1 Hm)) as Hb. set (m2 := snd (init_ring_buffer m1)) in *.
  set (s1 := Machine m1 _ _ _ _ _ _).
  assert (do_init_ring_buffer s1 = Some (tt, set_glob (set_shmem_base base (m_glob s1)) (set_mem m2 s1))) as E2
    by (unfold do_init_ring_buffer; cbn [m_mem s1]; by rewrite Einit).
  rewrite (bind_some _ _ _ _ _ E2).
  destruct (show_ioredtbl_spec (set_glob (set_shmem_base base (m_glob s1)) (set_mem m2 s1)))
    as (d3 & g3 & E3 & Hq & (G1 & G2 & G3)). rewrite (bind_some _ _ _ _ _ E3).
  destruct (arm_spec (set_glob g3 (set_dev d3 (set_glob (set_shmem_base base (m_glob s1)) (set_mem m2 s1))))
    Mailbox.empty Hb G3 Hin Hout) as (s4 & E4 & Har & F1 & F2).
  rewrite E4. eexists. split; [reflexivity|]. cbn [m_glob m_dev set_glob set_dev] in *.
  change (m_dev (set_mem m2 s1)) with (m_dev s) in Hq. rewrite (quiet_ipis _ _ Hq) in Har.
  eapply armed_ext; [..|exact Har].
  - intros r. symmetry. apply (quiet_ioapic _ _ Hq).
  - assert (kbd_i (m_glob s4) = 0) as Hi4 by (rewrite F2; exact (eq_trans G1 Hi)).
    unfold set_glob, set_isFirstPhrase, set_kbd_i. cbn. by rewrite Hi4.
Qed.

(** The call that opens a later session. *)
Lemma resume_spec (s : machine) regs sent mo :
  idle regs sent Mailbox.empty mo s ->
  exists s', supervisor s = Some (tt, s') /\ armed [] (ioapic (m_dev s)) sent mo s'.
Proof.
  intros [Hf Hbase Hi Hm Hin Hout _ _ Hsent]. destruct (enable_sse_spec s) as (m1 & E1 & Hlow & Hm1).
  unfold Keyboard.supervisor. rewrite (bind_some _ _ _ _ _ E1).
  unfold glob. rewrite (bind_some _ _ _ _ _ (eq_refl (Some (_, _)))). cbn [m_glob].
  rewrite Hf. cbn [negb Z.eqb]. rewrite (bind_some _ _ _ _ _ (eq_refl (Some (_, _)))). cbn [m_glob].
  rewrite Hi. cbn [Z.eqb Pos.eqb]. set (s1 := Machine m1 _ _ _ _ _ _).
  destruct (arm_spec s1 mo (Hm1 Hm) Hbase) as (s2 & E2 & Har & F1 & F2);
    [by apply (holds_low _ _ _ _ (in_box_ok base) Hlow)|by apply (holds_low _ _ _ _ (out_box_ok base) Hlow)|].
  rewrite E2. eexists. split; [reflexivity|]. eapply armed_ext; [done| |rewrite <- Hsent; exact Har].
  assert (isFirstPhrase (m_glob s2) = 0) as Hf2 by (rewrite F1; exact Hf).
  unfold set_glob, set_isFirstPhrase, set_kbd_i. cbn. by rewrite Hf2.
Qed.

(** An SMI in a session, up to the evaluation of the key code. *)
Lemma key_run (s : machine) txt regs sent mo k :
  armed txt regs sent mo s ->
  exists s1, key k s =
      (let* _ := when (0x9c =? k) (submit fuel kbd_buffer message_at) in
       when ((0x00 <=? k) && (k <=? 0x6f)) (append_key kbd_buffer k)) s1 /\
    armed txt regs sent mo s1.
Proof.
  intros [Hf Hbase Hi Hvec Hm Hlen Hbuf Hin Hout Hirq Hregs Hsent].
  destruct (keystroke_ok k (m_dev s)) as (K1 & K2 & K3).
  set (s0 := set_dev (keystroke k (m_dev s)) s).
  destruct (enable_sse_spec s0) as (m1 & E1 & Hlow & Hm1).
  unfold key. rewrite (bind_some _ _ _ _ _ (eq_refl (Some (tt, s0)))).
  unfold Keyboard.supervisor. rewrite (bind_some _ _ _ _ _ E1).
  unfold glob. rewrite (bind_some _ _ _ _ _ (eq_refl (Some (_, _)))). cbn [m_glob s0 set_dev].
  rewrite Hf, Z.eqb_refl. cbn [negb]. rewrite (bind_some _ _ _ _ _ (eq_refl (Some (_, _)))). cbn [m_glob].
  rewrite Hi, (proj2 (Z.eqb_neq _ _)) by lia. cbv beta iota.
  destruct (kbd_read_ok (keystroke k (m_dev s))) as (B1 & B2 & B3).
  assert (i8042_read_data (keystroke k (m_dev s)) = Some (k, snd (inb 0x60 (keystroke k (m_dev s))))) as E2.
  { unfold i8042_read_data, rd. change I8042_DATA_REG with 0x60.
    rewrite (surjective_pairing (inb 0x60 _)). cbn [snd]. by rewrite B1, K1. }
  set (s1 := Machine m1 _ _ _ _ _ _). rewrite (bind_dev _ _ s1 _ _ E2), (bind_some _ _ _ _ _ (eq_refl (Some (_, _)))).
  eexists. split; [reflexivity|]. split; try done; cbn -[load holds].
  - auto.
  - by rewrite (load_low (m_mem s) m1 256 Hlow).
  - by apply (holds_low _ _ _ _ (in_box_ok base) Hlow).
  - by apply (holds_low _ _ _ _ (out_box_ok base) Hlow).
  - by rewrite B2, K2.
  - intros r Hr. rewrite B2, K2. auto.
  - congruence.
Qed.

Lemma load_append m txt x :
  load m kbd_buffer 256 = txt ++ replicate (256 - length txt) 0 -> (length txt < 256)%nat ->
  load (store m (kbd_buffer + Z.of_nat (length txt)) [x]) kbd_buffer 256 =
    (txt ++ [x]) ++ replicate (256 - length (txt ++ [x])) 0.
Proof.
  intros Hb Hn. set (n := length txt) in *. assert (256 = n + (1 + (255 - n)))%nat as E by lia.
  rewrite E, !load_app in Hb |- *. rewrite load_one in Hb.
  replace (n + (1 + (255 - n)) - n)%nat with (S (255 - n)) in Hb by lia. cbn [replicate] in Hb.
  apply app_inj_1 in Hb as [Ht Hr]; [|by rewrite length_load].
  apply (f_equal (drop 1)) in Hr. cbn [app drop] in Hr. rewrite !drop_0 in Hr.
  rewrite load_store_ne by (cbn [length]; unfold disjoint; lia).
  rewrite load_store_eq by done.
  rewrite load_store_ne by (cbn [length]; unfold disjoint; lia).
  rewrite Ht, Hr, length_app, <- app_assoc. cbn [length]. do 3 f_equal. unfold n. lia.
Qed.

Lemma is_byte_xlate k : is_byte (xlate k).
Proof.
  unfold xlate. apply bytes_nth. unfold pckbd_sysrq_xlate.
  apply bytes_app; [repeat constructor; done|by apply bytes_replicate].
Qed.

Lemma append_spec (s : machine) txt regs sent mo k :
  armed txt regs sent mo s -> (length txt < 256)%nat ->
  exists s', append_key kbd_buffer k s = Some (tt, s') /\ armed (txt ++ [xlate k]) regs sent mo s'.
Proof.
  intros [Hf Hbase Hi Hvec Hm Hlen Hbuf Hin Hout Hirq Hregs Hsent] Hn.
  eexists. split; [reflexivity|].
  assert (forall b mb, box_ok base b -> holds b (m_mem s) mb ->
    holds b (store (m_mem s) (kbd_buffer + Z.of_nat (length txt)) [xlate k]) mb) as Hst.
  { intros b mb Hb. apply (holds_outside base); [done|]. intros x Hx. pose proof (buf_shm Hlay).
    apply store_out. cbn [length]. shm_lia. }
  split; try done; cbn -[load holds]; rewrite ?Hi.
  - rewrite length_app, to_signed_small by (cbn [length]; lia). cbn [length]. lia.
  - apply is_byte_store; [done|]. apply Forall_singleton, is_byte_xlate.
  - rewrite length_app. cbn [length]. lia.
  - by apply load_append.
  - by apply Hst; [apply in_box_ok|].
  - by apply Hst; [apply out_box_ok|].
Qed.

(** Enter released: the packet is sent, the enclave's driver is notified, and the
    interrupt goes back to the operating system. *)
Lemma submit_spec (s : machine) txt regs sent mo :
  armed txt regs sent mo s ->
  exists s' msg mi, submit fuel kbd_buffer message_at s = Some (tt, s') /\
    Mailbox.put msg Mailbox.empty = Some mi /\ bytes msg /\ length msg = msg_bytes /\
    msg = load (m_mem s) kbd_buffer msg_bytes /\
    idle regs (sent ++ [UIO_VECTOR]) mi mo s'.
Proof.
  intros [Hf Hbase Hi Hvec Hm Hlen Hbuf Hin Hout Hirq Hregs Hsent].
  assert (0 <= 4080 <= MSG_SIZE) as H4080 by (by vm_compute).
  destruct (put_at_refines (max := max) Hmax message_at base (buf_local Hlay) _ _ (in_box_ok base) (out_box_ok base)
    (in_out_apart base) kbd_buffer 4080 (m_mem s) (m_rng s) _ _ Hm Hin Hout H4080)
    as (msg & r & m' & rng' & E & Hb & Hl & _ & Ht & Hput & Hout' & Hm' & _).
  rewrite <- put_in_buffer_at in E by done.
  destruct (Mailbox.put msg Mailbox.empty) as [mi|] eqn:Eput; [|done].
  destruct Hput as [-> Hin'].
  set (s1 := Machine m' rng' (m_dev s) (m_cr0 s) (m_cr4 s) (m_apic s) (m_glob s)).
  assert (do_put_in_buffer message_at kbd_buffer 4080 s = Some (0, s1)) as E1
    by (unfold do_put_in_buffer; rewrite Hbase; exact (f_equal (fun o => match o with
      | Some (r, (m, rng)) => Some (r, Machine m rng (m_dev s) (m_cr0 s) (m_cr4 s) (m_apic s) (m_glob s))
      | None => None end) E)).
  destruct (trigger_self_ipi_spec fuel UIO_VECTOR s1) as (d2 & a2 & E2 & I1 & I2 & _);
    [by vm_compute|by left|].
  destruct (write_reg_spec HIJACKED_IRQ (u32 (kbd_vec (m_glob s))) d2) as (d3 & E3 & W1 & W2 & W3 & _);
    [by vm_compute|done|].
  unfold submit. rewrite (bind_some _ _ _ _ _ E1), (bind_some _ _ _ _ _ E2).
  rewrite (bind_some _ _ _ _ _ (eq_refl (Some (tt, _)))). unfold recover_keyboard, glob.
  rewrite (bind_some _ _ _ _ _ (eq_refl (Some (_, _)))). unfold on_dev.
  cbn [m_dev m_glob set_glob set_dev set_apic s1 kbd_vec set_kbd_i]. rewrite E3.
  eexists _, msg, mi. split; [reflexivity|]. split; [done|]. split; [done|]. split; [done|]. split.
  - change (load (m_mem s) kbd_buffer msg_bytes) with (load (m_mem s) kbd_buffer (Z.to_nat 4080)).
    rewrite <- Ht. symmetry. apply take_ge. by rewrite Hl.
  - split; try done; cbn.
    + by rewrite W1, Hvec.
    + intros r Hr. rewrite W2, I2 by done. auto.
    + rewrite W3, I1. cbn. by rewrite Hsent.
Qed.

(** The text of a sequence of key codes: the codes of pressed keys, translated. *)
Definition typed (ks : list Z) : list Z := xlate <$> filter (fun k => k <= 0x6f) ks.

Definition key_codes (ks : list Z) : Prop := Forall (fun k => is_byte k /\ k <> 0x9c) ks.

Lemma type_spec ks (s : machine) txt regs sent mo :
  armed txt regs sent mo s -> key_codes ks -> (length (txt ++ typed ks) <= 256)%nat ->
  exists s', type_keys ks s = Some (tt, s') /\ armed (txt ++ typed ks) regs sent mo s'.
Proof.
  intros Har Hks. revert s txt Har. induction Hks as [|k ks [Hk Hne] Hks IH]; intros s txt Har Hlen.
  - exists s. split; [done|]. by rewrite app_nil_r.
  - destruct (key_run s txt regs sent mo k Har) as (s1 & E & Har1).
    unfold type_keys. cbn [for_each]. fold (type_keys ks).
    unfold is_byte in Hk. unfold typed in *. rewrite filter_cons in Hlen |- *.
    rewrite (proj2 (Z.eqb_neq _ _)), (proj2 (Z.leb_le _ _)) in E by lia. cbn [when andb] in E. rewrite bind_ret in E.
    case_decide as Hd.
    + rewrite (proj2 (Z.leb_le _ _)) in E by lia. cbn [when] in E.
      rewrite fmap_cons, cons_middle, app_assoc in Hlen |- *.
      assert (length txt < 256)%nat as Hn by (rewrite !length_app in Hlen; cbn in Hlen; lia).
      destruct (append_spec s1 txt regs sent mo k Har1 Hn) as (s2 & E2 & Har2).
      rewrite E2 in E. rewrite (bind_some _ _ _ _ _ E). by apply IH.
    + rewrite (proj2 (Z.leb_gt _ _)) in E by lia. cbn [when] in E.
      rewrite (bind_some _ _ _ _ _ E). by apply IH.
Qed.

(** Typing and releasing Enter. *)
Lemma session_spec ks (s : machine) regs sent mo :
  armed [] regs sent mo s -> key_codes ks -> (length (typed ks) <= 256)%nat ->
  exists s' msg mi, type_keys (ks ++ [0x9c]) s = Some (tt, s') /\
    Mailbox.put msg Mailbox.empty = Some mi /\ bytes msg /\ length msg = msg_bytes /\
    take 256 msg = typed ks ++ replicate (256 - length (typed ks)) 0 /\
    idle regs (sent ++ [UIO_VECTOR]) mi mo s'.
Proof.
  intros Har Hks Hlen. destruct (type_spec ks s [] regs sent mo Har Hks Hlen) as (s1 & E1 & Har1).
  destruct (key_run s1 _ regs sent mo 0x9c Har1) as (s2 & E2 & Har2).
  destruct (submit_spec s2 _ regs sent mo Har2) as (s3 & msg & mi & E3 & Hput & Hb & Hl & Hmsg & Hid).
  exists s3, msg, mi. split_and!; try done.
  - unfold type_keys. rewrite for_each_app. rewrite (bind_some _ _ _ _ _ E1).
    cbn [for_each]. rewrite (bind_some _ _ _ tt s3); [done|]. rewrite E2.
    change (when (0x9c =? 0x9c) (submit fuel kbd_buffer message_at)) with (submit fuel kbd_buffer message_at).
    by rewrite (bind_some _ _ _ _ _ E3).
  - rewrite Hmsg. change msg_bytes with (256 + 3824)%nat. rewrite load_app.
    rewrite take_app_length' by by rewrite length_load. apply (ar_buf _ _ _ _ _ Har2).
Qed.

(** Past the end of the buffer nothing stops the typing. *)
Lemma overrun_spec k (s : machine) txt regs sent mo :
  armed txt regs sent mo s -> length txt = 256%nat -> 0 <= k <= 0x6f ->
  exists s', key k s = Some (tt, s') /\ m_mem s' (kbd_buffer + 256) = xlate k.
Proof.
  intros Har Hlen Hk. destruct (key_run s txt regs sent mo k Har) as (s1 & E & Har1).
  rewrite (proj2 (Z.eqb_neq _ _)), !(proj2 (Z.leb_le _ _)) in E by lia. cbn [when andb] in E. rewrite bind_ret in E.
  eexists. split; [rewrite E; reflexivity|]. cbn [m_mem set_glob set_mem m_glob].
  rewrite (ar_i _ _ _ _ _ Har1), Hlen. change (Z.of_nat 256) with 256.
  pose proof (load_store_eq (m_mem s1) (kbd_buffer + 256) [xlate k] 1 eq_refl) as HL.
  rewrite load_one in HL. by injection HL.
Qed.
End KeyboardLaws.

(** * Properties *)

(** C7 A secure input session on a processor with an x2APIC: from an idle supervisor
    whose IN mailbox is empty, or one that has not been called since power-on, the SMI
    that opens the session and the SMIs of any sequence of key codes that makes at most
    256 characters, up to the release of Enter, leave in the IN mailbox one packet that
    starts with the translated text padded with zeros to the 256 bytes of the buffer;
    the enclave's driver is interrupted exactly once, and the redirection entry of the
    keyboard is given back with the bits it had, every other entry unchanged. (The
    257th character is written behind the buffer: [keyboard_overrun].) *)
Theorem keyboard_session {A max} {Laws : AeadLaws A max} {R} {F : RandomFill R} {FL : RandomFillLaws R}
    {D} `{PL : PlatformLaws D} fuel kbd_buffer message_at base (s : machine D R kbd_glob) regs sent mo ks :
  MSG_SIZE <= max -> has_x2apic (D := D) -> kbd_layout kbd_buffer message_at base ->
  idle base regs sent Mailbox.empty mo s \/ boot base s /\ sent = ipis (m_dev s) /\ mo = Mailbox.empty ->
  key_codes ks -> (length (typed ks) <= 256)%nat ->
  exists s' msg mi,
    (let* _ := supervisor fuel kbd_buffer message_at in type_keys fuel kbd_buffer message_at (ks ++ [0x9c])) s =
      Some (tt, s') /\
    Mailbox.put msg Mailbox.empty = Some mi /\ bytes msg /\ length msg = msg_bytes /\
    take 256 msg = typed ks ++ replicate (256 - length (typed ks)) 0 /\
    idle base (ioapic (m_dev s)) (sent ++ [UIO_VECTOR]) mi mo s'.
Proof.
  intros Hmax Hx2 Hlay Hid Hks Hlen.
  assert (exists s1, supervisor fuel kbd_buffer message_at s = Some (tt, s1) /\
    armed kbd_buffer base [] (ioapic (m_dev s)) sent mo s1) as (s1 & E1 & Har).
  { destruct Hid as [Hid | (Hbt & -> & ->)];
      [exact (resume_spec fuel kbd_buffer message_at base Hlay s regs sent mo Hid)
      |exact (first_phrase_spec fuel kbd_buffer message_at base Hlay s Hbt)]. }
  rewrite (bind_some _ _ _ _ _ E1).
  exact (session_spec Hmax Hx2 fuel kbd_buffer message_at base Hlay ks s1 _ _ _ Har Hks Hlen).
Qed.

(** A PC with x2APIC, an idle supervisor and two empty mailboxes. *)
Definition demo_leaf (leaf : Z) : cpu_info := Info 0 0 (Z.shiftl 1 21) 0.
#[local] Existing Instance pc_platform.
#[local] Instance demo_devices : Devices pc := pc_devices demo_leaf.
#[local] Instance demo_fill : RandomFill rng := rdrand_fill demo_cpuid demo_drng.
Definition demo_pc : pc := Pc 0 (fun r => 0x31) [] 0 (0xfee00900, 0).
Definition demo_kbd_buffer : Z := 0xa2000.
Definition demo_machine : machine pc rng kbd_glob :=
  Machine demo_mem boot_rng demo_pc 0x11 0 xapic (KbdGlob 0 (-1) 0 0 0 demo_base).

Lemma demo_layout : kbd_layout demo_kbd_buffer demo_message demo_base.
Proof. split; [left; by vm_compute|by vm_compute..|exact demo_local]. Qed.

Lemma demo_idle : idle demo_base (ioapic demo_pc) [] Mailbox.empty Mailbox.empty demo_machine.
Proof.
  split; try reflexivity; [exact demo_bytes|exact (proj1 demo_empty)|exact (proj2 demo_empty)].
Qed.

(** The keys of "sgx", Enter pressed and released. *)
Lemma keyboard_session_witness :
  exists s' msg mi,
    (let* _ := supervisor 1 demo_kbd_buffer demo_message in
     type_keys 1 demo_kbd_buffer demo_message ([0x1f; 0x9f; 0x22; 0xa2; 0x2d; 0xad; 0x1c] ++ [0x9c])) demo_machine =
      Some (tt, s') /\
    Mailbox.put msg Mailbox.empty = Some mi /\ bytes msg /\ length msg = msg_bytes /\
    take 256 msg = [115; 103; 120; 13] ++ replicate 252 0 /\
    idle demo_base (ioapic demo_pc) ([] ++ [UIO_VECTOR]) mi Mailbox.empty s'.
Proof.
  apply (keyboard_session (Laws := aes256gcm_laws) (FL := rdrand_fill_laws demo_cpuid demo_drng)
    (PL := pc_laws demo_leaf) 1 demo_kbd_buffer demo_message demo_base demo_machine (ioapic demo_pc) []
    Mailbox.empty [0x1f; 0x9f; 0x22; 0xa2; 0x2d; 0xad; 0x1c]);
    [by vm_compute|by vm_compute|exact demo_layout|left; exact demo_idle| |by vm_compute; lia].
  repeat constructor; done.
Defined.

(** The buffer has no bound: after 256 characters the next key writes its
    character into the byte that follows the buffer. *)
Theorem keyboard_overrun {A : Aead} {R} {F : RandomFill R} {D} `{PL : PlatformLaws D}
    fuel kbd_buffer message_at base (s : machine D R kbd_glob) txt regs sent mo k :
  kbd_layout kbd_buffer message_at base -> armed kbd_buffer base txt regs sent mo s ->
  length txt = 256%nat -> 0 <= k <= 0x6f ->
  exists s', key fuel kbd_buffer message_at k s = Some (tt, s') /\ m_mem s' (kbd_buffer + 256) = xlate k.
Proof. intros Hlay. by apply overrun_spec. Qed.

(** The demo machine in a session with 256 characters typed. *)
Definition demo_full : machine pc rng kbd_glob :=
  Machine (store demo_mem demo_kbd_buffer (replicate 256 97)) boot_rng (Pc 0 (fun r => 0x200) [] 0 (0, 0))
    0x11 0 xapic (KbdGlob 0 256 0 0x200 0 demo_base).

Lemma demo_full_armed :
  armed demo_kbd_buffer demo_base (replicate 256 97) (fun _ => 0x200) [] Mailbox.empty demo_full.
Proof.
  assert (forall b mb, box_ok demo_base b -> holds b demo_mem mb ->
    holds b (store demo_mem demo_kbd_buffer (replicate 256 97)) mb) as Hst.
  { intros b mb Hb. apply (holds_outside demo_base); [done|]. intros x Hx. apply store_out.
    rewrite length_replicate. unfold demo_kbd_buffer, demo_base in *. lia. }
  split; try reflexivity; cbn [m_mem demo_full].
  - apply is_byte_store; [exact demo_bytes|by apply bytes_replicate].
  - apply Hst; [apply in_box_ok|exact (proj1 demo_empty)].
  - apply Hst; [apply out_box_ok|exact (proj2 demo_empty)].
Qed.

Lemma keyboard_overrun_witness :
  exists s', key 1 demo_kbd_buffer demo_message 0x1e demo_full = Some (tt, s') /\
    m_mem s' (demo_kbd_buffer + 256) = 97.
Proof.
  apply (keyboard_overrun (PL := pc_laws demo_leaf) 1 demo_kbd_buffer demo_message demo_base demo_full
    (replicate 256 97) (fun _ => 0x200) [] Mailbox.empty 0x1e demo_layout demo_full_armed);
    [by vm_compute|lia].
Defined.
