(* ===== verification/Enclave.v ===== *)
(** Enclave.cpp and randombytes.cpp of the SSH enclave: the calls into the enclave
    that use the channel, and the end of the secure input path. *)

From Stdlib Require Import ZArith Lia Bool.
From stdpp Require Import base list.
From S2P Require Import Prelude RdRand Aead RingBuffer Channel Hw Apic Keyboard.

Definition MAX_SMI_CNT : Z := 1.
Definition RDRAND_RETRY_LOOPS : nat := 10.

(** * Random numbers *)

(** [get_random_number_32]: up to ten draws from [rdrand], which leaves a word in
    [*rand] and reports the carry; the return code, the word and the position. *)
Fixpoint get_random_number_32 (drng : nat -> bool * Z) (n pos : nat) (rand : Z) : Z * Z * nat :=
  match n with
  | O => (-1, rand, pos)
  | S n =>
      let '(carry, w) := drng pos in
      if carry : bool then (0, u32 w, S pos) else get_random_number_32 drng n (S pos) (u32 w)
  end.

(** * Strings *)

(** [strlen], reading at most [fuel] bytes. *)
Fixpoint strlen (fuel : nat) (m : mem) (p : Z) : option Z :=
  match fuel with
  | O => None
  | S fuel => if m p =? 0 then Some 0 else n ← strlen fuel m (p + 1); Some (1 + n)
  end.

(** The characters before the first NUL. *)
Fixpoint c_string (l : list Z) : list Z :=
  match l with
  | [] => []
  | x :: l => if x =? 0 then [] else x :: c_string l
  end.

(** * The enclave's calls *)

Section Ecalls.
Context {A : Aead} {D R : Type}.
(** The machine outside the enclave with its memory, which the enclave shares, and
    the enclave's static variables. *)
Record enclave := Enclave { e_machine : machine D R kbd_glob; uio_ram : Z; smi_counter : Z }.
(** The calls out of the enclave, and the enclave test of the SDK. *)
Context (ocall_smi ocall_uio_poll : prog (machine D R kbd_glob) unit) (within : Z -> Z -> Z).

Definition outside {X} (p : prog (machine D R kbd_glob) X) : prog enclave X :=
  fun e => match p (e_machine e) with
           | Some (x, s) => Some (x, Enclave s (uio_ram e) (smi_counter e))
           | None => None
           end.

Definition try_trigger_smi : prog enclave unit :=
  let* _ := modify (fun e => Enclave (e_machine e) (uio_ram e) (s16 (smi_counter e + 1))) in
  let* counter := gets smi_counter in
  when (MAX_SMI_CNT <=? counter)
    (let* _ := outside ocall_smi in
     modify (fun e => Enclave (e_machine e) (uio_ram e) 0)).

Definition ecall_aurora_init (uio_mem : Z) : prog enclave unit :=
  modify (fun e => Enclave (e_machine e) uio_mem (smi_counter e)).

(** The receive loop [while (0 == get_in_buffer(recv_msg, &recv_len));]. *)
Definition receive_all (fuel : nat) (recv_msg : Z) : prog enclave unit :=
  fun e =>
    match drain within (uio_ram e) fuel recv_msg 0 (m_mem (e_machine e)) with
    | Some (_, _, m) => Some (tt, Enclave (set_mem m (e_machine e)) (uio_ram e) (smi_counter e))
    | None => None
    end.

(** [recv_msg] is the address of the local array. *)
Definition ecall_secure_input (recv_msg pass max_length : Z) : prog enclave unit :=
  let* _ := outside ocall_smi in
  let* _ := outside ocall_uio_poll in
  let* _ := outside (on_mem (fun m => memset m recv_msg 0 (Z.to_nat PKT_SIZE))) in
  let* _ := receive_all (S MAX_ENTRY) recv_msg in
  let* len := gets (fun e => strlen (Z.to_nat PKT_SIZE) (m_mem (e_machine e)) recv_msg) in
  match len with
  | None => stuck
  | Some n =>
      let min_len := s32 n in
      let min_len := if max_length <? min_len then max_length else min_len in
      outside (on_mem (fun m => store m pass (load m recv_msg (Z.to_nat (u64 min_len)))))
  end.
End Ecalls.
Global Arguments enclave : clear implicits.

(** * Lemmas *)

Lemma length_c_string l : (length (c_string l) <= length l)%nat.
Proof. induction l as [|x l IH]; cbn; [done|]. destruct (x =? 0); cbn; lia. Qed.

Lemma strlen_spec fuel m p l :
  load m p (S (length l)) = l ++ [0] -> (length l < fuel)%nat ->
  strlen fuel m p = Some (Z.of_nat (length (c_string l))) /\
  load m p (length (c_string l)) = c_string l.
Proof.
  revert fuel p. induction l as [|x l IH]; intros [|fuel] p Hl Hf; cbn [length] in Hf; try lia.
  - rewrite load_one in Hl. injection Hl as Hp. cbn [strlen]. by rewrite Hp.
  - cbn [length] in Hl. change (S (S (length l))) with (1 + S (length l))%nat in Hl.
    rewrite load_app, load_one in Hl. cbn [app] in Hl. injection Hl as Hp Hl.
    change (Z.of_nat 1) with 1 in Hl. cbn [strlen c_string]. rewrite Hp.
    destruct (x =? 0); [done|]. destruct (IH fuel (p + 1) Hl ltac:(lia)) as [-> HL]. split.
    + cbn [mbind option_bind length]. f_equal. lia.
    + cbn [length]. change (S (length (c_string l))) with (1 + length (c_string l))%nat.
      rewrite load_app, load_one, Hp. change (Z.of_nat 1) with 1. by rewrite HL.
Qed.

Lemma c_string_prefix l k : take (length (c_string l)) (l ++ k) = c_string l.
Proof.
  induction l as [|x l IH]; cbn; [done|]. destruct (x =? 0); cbn; [done|]. by rewrite IH.
Qed.

Lemma put_empty_pending msg mi :
  Mailbox.put msg Mailbox.empty = Some mi -> Mailbox.pending mi = [msg].
Proof.
  intros Hp. apply Mailbox.put_pending in Hp.
  change (Mailbox.pending Mailbox.empty) with (@nil (list Z)) in Hp.
  apply Permutation_singleton_r in Hp || apply Permutation_length_1_inv in Hp. done.
Qed.

Lemma bind_outside {D R X Y} (p : prog (machine D R kbd_glob) X) (k : X -> prog (enclave D R) Y) e x s :
  p (e_machine e) = Some (x, s) -> bind (outside p) k e = k x (Enclave s (uio_ram e) (smi_counter e)).
Proof. intros E. apply bind_some. unfold outside. by rewrite E. Qed.

Section SecureInput.
Context {A : Aead} {max : Z} {Laws : AeadLaws A max} (Hmax : MSG_SIZE <= max).
Context {R : Type} {F : RandomFill R} {FL : RandomFillLaws R}.
Context {D : Type} `{PL : PlatformLaws D} (Hx2 : has_x2apic (D := D)).
Context (fuel : nat) (kbd_buffer message_at base recv_msg : Z) (within : Z -> Z -> Z).
Context (Hlay : kbd_layout kbd_buffer message_at base).
(** The local array is in the enclave and outside the shared region. *)
Context (Hwithin : within recv_msg MSG_SIZE <> 0) (Hrecv : disjoint recv_msg PKT_SIZE base SHM_SIZE).

Lemma idle_mem regs sent mi mi' mo m (s : machine D R kbd_glob) :
  idle base regs sent mi mo s -> all_bytes m -> holds (in_box base) m mi' -> holds (out_box base) m mo ->
  idle base regs sent mi' mo (set_mem m s).
Proof. intros [] Hm Hi Ho. by split. Qed.

Lemma holds_store b m mb a bs :
  box_ok base b -> disjoint a (Z.of_nat (length bs)) base SHM_SIZE -> holds b m mb -> holds b (store m a bs) mb.
Proof.
  intros Hb Hd. apply (holds_outside base); [done|]. intros x Hx. apply store_out. unfold disjoint in Hd. lia.
Qed.

(** What the receive loop and [strlen] find after a session. *)
Lemma receive_spec m msg mi mo txt :
  all_bytes m -> holds (in_box base) m mi -> holds (out_box base) m mo ->
  Mailbox.put msg Mailbox.empty = Some mi -> length msg = msg_bytes ->
  take 256 msg = txt ++ replicate (256 - length txt) 0 -> (length txt < 256)%nat ->
  exists m', drain within base (S MAX_ENTRY) recv_msg 0 (memset m recv_msg 0 (Z.to_nat PKT_SIZE)) =
      Some ([msg], MSG_SIZE, m') /\
    all_bytes m' /\ holds (in_box base) m' Mailbox.empty /\ holds (out_box base) m' mo /\
    strlen (Z.to_nat PKT_SIZE) m' recv_msg = Some (Z.of_nat (length (c_string txt))) /\
    load m' recv_msg (length (c_string txt)) = c_string txt.
Proof.
  intros Hm Hi Ho Hput Hl Htake Hlen. set (m0 := memset m recv_msg 0 (Z.to_nat PKT_SIZE)).
  assert (forall b mb, box_ok base b -> holds b m mb -> holds b m0 mb) as Hst
    by (intros b mb Hb; apply holds_store; [done|by rewrite length_replicate]).
  assert (all_bytes m0) as Hm0 by (apply is_byte_store; [done|apply bytes_replicate, is_byte_u8]).
  assert (disjoint recv_msg MSG_SIZE base SHM_SIZE) as Hd
    by (unfold disjoint in *; change PKT_SIZE with 4096 in Hrecv; change MSG_SIZE with 4080; lia).
  pose proof (put_empty_pending _ _ Hput) as Hp.
  destruct (drain_pending Hmax within base (S MAX_ENTRY) recv_msg 0 m0 mi mo Hwithin Hd Hm0
    (Hst _ _ (in_box_ok base) Hi) (Hst _ _ (out_box_ok base) Ho)) as (m' & E & Hi' & Ho' & Hm' & Hload & _);
    [rewrite Hp; cbn; unfold MAX_ENTRY; lia|].
  assert (mi <> Mailbox.empty) as Hne by (intros ->; discriminate Hp).
  rewrite Hp, decide_False in E by done. rewrite Hp in Hload. change (load m' recv_msg msg_bytes = msg) in Hload.
  exists m'. split; [exact E|]. split; [done|]. split; [done|]. split; [done|].
  assert (load m' recv_msg 256 = txt ++ replicate (256 - length txt) 0) as H256.
  { rewrite <- Htake, <- Hload. change msg_bytes with (256 + 3824)%nat. rewrite load_app.
    by rewrite take_app_length' by by rewrite length_load. }
  apply strlen_spec; [|change (Z.to_nat PKT_SIZE) with 4096%nat; lia].
  replace 256%nat with (S (length txt) + (255 - length txt))%nat in H256 at 1 by lia. rewrite load_app in H256.
  apply (f_equal (take (S (length txt)))) in H256. rewrite take_app_length' in H256 by by rewrite length_load.
  rewrite H256. replace (256 - length txt)%nat with (S (255 - length txt)) by lia. cbn [replicate].
  by rewrite cons_middle, app_assoc, take_app_length' by (rewrite length_app; cbn; lia).
Qed.
End SecureInput.

(** * Properties *)

(** C1 Secure input, end to end: when the enclave asks for input and the user types
    fewer than 256 characters and Enter, [ecall_secure_input] returns with the typed
    text, up to its first NUL and up to [max_length], in the caller's buffer: through
    the SMI handler's capture, the sealed packet in untrusted memory, and the
    authenticated receive. The supervisor is idle again, both mailboxes are as
    before, and the keyboard interrupt is back with the operating system, so that
    sessions can follow one another. *)
Theorem secure_input_end_to_end {A max} {Laws : AeadLaws A max} {R} {F : RandomFill R}
    {FL : RandomFillLaws R} {D} `{PL : PlatformLaws D}
    fuel kbd_buffer message_at base recv_msg within pass max_length (e : enclave D R) regs sent mo ks :
  MSG_SIZE <= max -> has_x2apic (D := D) -> kbd_layout kbd_buffer message_at base ->
  within recv_msg MSG_SIZE <> 0 -> disjoint recv_msg PKT_SIZE base SHM_SIZE ->
  0 <= max_length < 2 ^ 31 -> disjoint pass max_length base SHM_SIZE ->
  uio_ram e = base -> idle base regs sent Mailbox.empty mo (e_machine e) ->
  key_codes ks -> (length (typed ks) < 256)%nat ->
  let text := c_string (typed ks) in
  let n := Nat.min (Z.to_nat max_length) (length text) in
  exists e', ecall_secure_input (supervisor fuel kbd_buffer message_at)
      (type_keys fuel kbd_buffer message_at (ks ++ [0x9c])) within recv_msg pass max_length e = Some (tt, e') /\
    load (m_mem (e_machine e')) pass n = take n text /\
    idle base (ioapic (m_dev (e_machine e))) (sent ++ [UIO_VECTOR]) Mailbox.empty mo (e_machine e').
Proof.
  intros Hmax Hx2 Hlay Hw Hrecv Hml Hpass Hram Hid Hks Hlen text n.
  destruct (resume_spec fuel kbd_buffer message_at base Hlay _ _ _ _ Hid) as (s1 & E1 & Har).
  destruct (session_spec Hmax Hx2 fuel kbd_buffer message_at base Hlay ks s1 _ _ _ Har Hks ltac:(lia))
    as (s2 & msg & mi & E2 & Hput & Hb & Hl & Htake & Hid2).
  destruct (receive_spec Hmax base recv_msg within Hw Hrecv (m_mem s2) msg mi mo (typed ks)
    (id_bytes _ _ _ _ _ _ Hid2) (id_in _ _ _ _ _ _ Hid2) (id_out _ _ _ _ _ _ Hid2) Hput Hl Htake Hlen)
    as (m3 & E3 & Hm3 & Hi3 & Ho3 & Hstr & Hload).
  pose proof (length_c_string (typed ks)) as Htl. fold text in Htl, Hstr, Hload.
  unfold ecall_secure_input. rewrite (bind_outside _ _ e _ _ E1), (bind_outside _ _ (Enclave s1 _ _) _ _ E2).
  erewrite (bind_outside _ _ (Enclave s2 _ _)) by reflexivity.
  rewrite (bind_some _ _ _ tt (Enclave (set_mem m3 s2) base (smi_counter e)))
    by (unfold receive_all; cbn [uio_ram e_machine m_mem set_mem smi_counter]; rewrite Hram, E3; reflexivity).
  unfold gets. erewrite bind_some by reflexivity. cbn [e_machine m_mem set_mem]. rewrite Hstr.
  assert (s32 (Z.of_nat (length text)) = Z.of_nat (length text)) as ->
    by (apply to_signed_small; lia).
  assert (Z.to_nat (u64 (if max_length <? Z.of_nat (length text) then max_length else Z.of_nat (length text))) = n)
    as -> by (rewrite wrap_small; destruct (Z.ltb_spec max_length (Z.of_nat (length text))); unfold n; lia).
  eexists. split; [reflexivity|]. cbn [e_machine m_mem set_mem].
  assert (load m3 recv_msg n = take n text) as HL.
  { rewrite <- Hload. replace (length text) with (n + (length text - n))%nat by (unfold n; lia).
    rewrite load_app, take_app_length' by by rewrite length_load. done. }
  assert (disjoint pass (Z.of_nat (length (load m3 recv_msg n))) base SHM_SIZE) as Hd
    by (rewrite length_load; unfold disjoint in *; unfold n; lia).
  split; [by rewrite load_store_eq by by rewrite length_load|].
  apply (idle_mem base _ _ mi _ _ _ s2 Hid2).
  - apply is_byte_store; [done|by apply bytes_load].
  - by apply (holds_store base); [apply in_box_ok|..].
  - by apply (holds_store base); [apply out_box_ok|..].
Qed.

(** The user types "sgx" and Enter; the caller has room for 16 bytes. *)
Lemma secure_input_end_to_end_witness :
  let H := pc_devices demo_leaf in
  let P := pc_platform demo_leaf in
  let F := rdrand_fill demo_cpuid demo_drng in
  exists e', ecall_secure_input (supervisor 1 demo_kbd_buffer demo_message)
      (type_keys 1 demo_kbd_buffer demo_message ([0x1f; 0x9f; 0x22; 0xa2; 0x2d; 0xad; 0x1c] ++ [0x9c]))
      (fun _ _ => 1) 0x3000000 0x4000000 16 (Enclave demo_machine demo_base 0) = Some (tt, e') /\
    load (m_mem (e_machine e')) 0x4000000 4 = [115; 103; 120; 13] /\
    idle demo_base (ioapic demo_pc) ([] ++ [UIO_VECTOR]) Mailbox.empty Mailbox.empty (e_machine e').
Proof.
  intros H P F.
  apply (secure_input_end_to_end (Laws := aes256gcm_laws) (FL := rdrand_fill_laws demo_cpuid demo_drng)
    (PL := pc_laws demo_leaf) 1 demo_kbd_buffer demo_message demo_base 0x3000000 (fun _ _ => 1) 0x4000000 16
    (Enclave demo_machine demo_base 0) (ioapic demo_pc) [] Mailbox.empty [0x1f; 0x9f; 0x22; 0xa2; 0x2d; 0xad; 0x1c]);
    [by vm_compute|by vm_compute|exact demo_layout|done|right; by vm_compute|lia|right; by vm_compute|done
    |exact demo_idle| |by vm_compute; lia].
  repeat constructor; done.
Defined.

Lemma c_string_nul l k : c_string (l ++ 0 :: k) = c_string l.
Proof. induction l as [|x l IH]; cbn; [done|]. destruct (x =? 0); [done|]. by rewrite IH. Qed.

(** Modifier keys cut the input: the left Shift key translates to NUL, which is
    stored in the buffer, so the text that reaches the caller ends where Shift was
    first pressed. *)
Theorem shift_truncates_input ks1 ks2 :
  c_string (typed (ks1 ++ 0x2a :: ks2)) = c_string (typed ks1).
Proof.
  unfold typed. rewrite filter_app, fmap_app, filter_cons, decide_True by lia. apply c_string_nul.
Qed.
