(* ===== verification/Md5.v ===== *)
(** md5.c of the storage supervisor (and of the USB enclave): the unrolled
    compression function and the message hasher, against a table-driven definition
    of MD5 after RFC 1321. *)

From Stdlib Require Import ZArith Lia Bool.
From stdpp Require Import base list.
From S2P Require Import Prelude.

Definition BLOCK_LEN : nat := 64.
Definition LENGTH_SIZE : nat := 8.

(** * The code *)

Definition LOADSCHEDULE (block : list Z) (i : nat) : Z :=
  Z.lor (Z.lor (Z.lor (Z.shiftl (nth (i * 4 + 0) block 0) 0) (Z.shiftl (nth (i * 4 + 1) block 0) 8))
               (Z.shiftl (nth (i * 4 + 2) block 0) 16))
        (Z.shiftl (nth (i * 4 + 3) block 0) 24).

Definition ROTL32 (x n : Z) : Z := Z.lor (u32 (Z.shiftl x n)) (Z.shiftr x (32 - n)).

Definition ROUND_TAIL (schedule : list Z) (a b expr : Z) (k : nat) (s t : Z) : Z :=
  let a := u32 (a + expr + t + nth k schedule 0) in
  u32 (b + ROTL32 a s).
Definition ROUND0 (schedule : list Z) (a b c d : Z) (k : nat) (s t : Z) : Z :=
  ROUND_TAIL schedule a b (Z.lxor d (Z.land b (Z.lxor c d))) k s t.
Definition ROUND1 (schedule : list Z) (a b c d : Z) (k : nat) (s t : Z) : Z :=
  ROUND_TAIL schedule a b (Z.lxor c (Z.land d (Z.lxor b c))) k s t.
Definition ROUND2 (schedule : list Z) (a b c d : Z) (k : nat) (s t : Z) : Z :=
  ROUND_TAIL schedule a b (Z.lxor (Z.lxor b c) d) k s t.
Definition ROUND3 (schedule : list Z) (a b c d : Z) (k : nat) (s t : Z) : Z :=
  ROUND_TAIL schedule a b (Z.lxor c (Z.lor b (u32 (Z.lnot d)))) k s t.

(** The state: the four words [state[0]] to [state[3]]. *)
Definition md5_state : Type := Z * Z * Z * Z.

(** A line [ROUNDj(x, ...)] assigns to its first argument, one of the four
    variables; the other arguments are the variables after it, cyclically. *)
Inductive var := Va | Vb | Vc | Vd.
Definition md5_line : Type := var * (list Z -> Z -> Z -> Z -> Z -> nat -> Z -> Z -> Z) * nat * Z * Z.

Definition assign (schedule : list Z) (st : md5_state) (l : md5_line) : md5_state :=
  let '(a, b, c, d) := st in
  let '(v, round, k, s, t) := l in
  match v with
  | Va => (round schedule a b c d k s t, b, c, d)
  | Vd => (a, b, c, round schedule d a b c k s t)
  | Vc => (a, b, round schedule c d a b k s t, d)
  | Vb => (a, round schedule b c d a k s t, c, d)
  end.

(** The 64 lines of the function, in order. *)
Definition md5_rounds : list md5_line :=
  [(Va, ROUND0, 0%nat, 7, 0xD76AA478);
   (Vd, ROUND0, 1%nat, 12, 0xE8C7B756);
   (Vc, ROUND0, 2%nat, 17, 0x242070DB);
   (Vb, ROUND0, 3%nat, 22, 0xC1BDCEEE);
   (Va, ROUND0, 4%nat, 7, 0xF57C0FAF);
   (Vd, ROUND0, 5%nat, 12, 0x4787C62A);
   (Vc, ROUND0, 6%nat, 17, 0xA8304613);
   (Vb, ROUND0, 7%nat, 22, 0xFD469501);
   (Va, ROUND0, 8%nat, 7, 0x698098D8);
   (Vd, ROUND0, 9%nat, 12, 0x8B44F7AF);
   (Vc, ROUND0, 10%nat, 17, 0xFFFF5BB1);
   (Vb, ROUND0, 11%nat, 22, 0x895CD7BE);
   (Va, ROUND0, 12%nat, 7, 0x6B901122);
   (Vd, ROUND0, 13%nat, 12, 0xFD987193);
   (Vc, ROUND0, 14%nat, 17, 0xA679438E);
   (Vb, ROUND0, 15%nat, 22, 0x49B40821);
   (Va, ROUND1, 1%nat, 5, 0xF61E2562);
   (Vd, ROUND1, 6%nat, 9, 0xC040B340);
   (Vc, ROUND1, 11%nat, 14, 0x265E5A51);
   (Vb, ROUND1, 0%nat, 20, 0xE9B6C7AA);
   (Va, ROUND1, 5%nat, 5, 0xD62F105D);
   (Vd, ROUND1, 10%nat, 9, 0x02441453);
   (Vc, ROUND1, 15%nat, 14, 0xD8A1E681);
   (Vb, ROUND1, 4%nat, 20, 0xE7D3FBC8);
   (Va, ROUND1, 9%nat, 5, 0x21E1CDE6);
   (Vd, ROUND1, 14%nat, 9, 0xC33707D6);
   (Vc, ROUND1, 3%nat, 14, 0xF4D50D87);
   (Vb, ROUND1, 8%nat, 20, 0x455A14ED);
   (Va, ROUND1, 13%nat, 5, 0xA9E3E905);
   (Vd, ROUND1, 2%nat, 9, 0xFCEFA3F8);
   (Vc, ROUND1, 7%nat, 14, 0x676F02D9);
   (Vb, ROUND1, 12%nat, 20, 0x8D2A4C8A);
   (Va, ROUND2, 5%nat, 4, 0xFFFA3942);
   (Vd, ROUND2, 8%nat, 11, 0x8771F681);
   (Vc, ROUND2, 11%nat, 16, 0x6D9D6122);
   (Vb, ROUND2, 14%nat, 23, 0xFDE5380C);
   (Va, ROUND2, 1%nat, 4, 0xA4BEEA44);
   (Vd, ROUND2, 4%nat, 11, 0x4BDECFA9);
   (Vc, ROUND2, 7%nat, 16, 0xF6BB4B60);
   (Vb, ROUND2, 10%nat, 23, 0xBEBFBC70);
   (Va, ROUND2, 13%nat, 4, 0x289B7EC6);
   (Vd, ROUND2, 0%nat, 11, 0xEAA127FA);
   (Vc, ROUND2, 3%nat, 16, 0xD4EF3085);
   (Vb, ROUND2, 6%nat, 23, 0x04881D05);
   (Va, ROUND2, 9%nat, 4, 0xD9D4D039);
   (Vd, ROUND2, 12%nat, 11, 0xE6DB99E5);
   (Vc, ROUND2, 15%nat, 16, 0x1FA27CF8);
   (Vb, ROUND2, 2%nat, 23, 0xC4AC5665);
   (Va, ROUND3, 0%nat, 6, 0xF4292244);
   (Vd, ROUND3, 7%nat, 10, 0x432AFF97);
   (Vc, ROUND3, 14%nat, 15, 0xAB9423A7);
   (Vb, ROUND3, 5%nat, 21, 0xFC93A039);
   (Va, ROUND3, 12%nat, 6, 0x655B59C3);
   (Vd, ROUND3, 3%nat, 10, 0x8F0CCC92);
   (Vc, ROUND3, 10%nat, 15, 0xFFEFF47D);
   (Vb, ROUND3, 1%nat, 21, 0x85845DD1);
   (Va, ROUND3, 8%nat, 6, 0x6FA87E4F);
   (Vd, ROUND3, 15%nat, 10, 0xFE2CE6E0);
   (Vc, ROUND3, 6%nat, 15, 0xA3014314);
   (Vb, ROUND3, 13%nat, 21, 0x4E0811A1);
   (Va, ROUND3, 4%nat, 6, 0xF7537E82);
   (Vd, ROUND3, 11%nat, 10, 0xBD3AF235);
   (Vc, ROUND3, 2%nat, 15, 0x2AD7D2BB);
   (Vb, ROUND3, 9%nat, 21, 0xEB86D391)].

Definition md5_compress (state : md5_state) (block : list Z) : md5_state :=
  let schedule := LOADSCHEDULE block <$> seq 0 16 in
  let '(s0, s1, s2, s3) := state in
  let '(a, b, c, d) := foldl (assign schedule) (s0, s1, s2, s3) md5_rounds in
  (u32 (s0 + a), u32 (s1 + b), u32 (s2 + c), u32 (s3 + d)).

(** The loop over the whole blocks: the state and the bytes from [off] on. *)
Fixpoint md5_blocks (fuel : nat) (hash : md5_state) (message : list Z) : md5_state * list Z :=
  match fuel with
  | O => (hash, message)
  | S fuel =>
      if (BLOCK_LEN <=? length message)%nat
      then md5_blocks fuel (md5_compress hash (take BLOCK_LEN message)) (drop BLOCK_LEN message)
      else (hash, message)
  end.

(** [for (int i = 1; i < LENGTH_SIZE; i++, len >>= 8) block[...] = len & 0xFF;] *)
Fixpoint length_loop (n : nat) (len : Z) : list Z :=
  match n with
  | O => []
  | S n => u8 (Z.land len 0xff) :: length_loop n (Z.shiftr len 8)
  end.

(** The last eight bytes of the last block. *)
Definition length_bytes (len : Z) : list Z :=
  u8 (Z.shiftl (Z.land len 0x1f) 3) :: length_loop 7 (Z.shiftr len 5).

Definition md5_hash (message : list Z) : md5_state :=
  let len := Z.of_nat (length message) in
  let hash := (0x67452301, 0xefcdab89, 0x98badcfe, 0x10325476) in
  let '(hash, rest) := md5_blocks (length message) hash message in
  let block := rest ++ 0x80 :: replicate (BLOCK_LEN - S (length rest)) 0 in
  let rem := S (length rest) in
  let '(hash, block) :=
    if (BLOCK_LEN - rem <? LENGTH_SIZE)%nat
    then (md5_compress hash block, replicate BLOCK_LEN 0) else (hash, block) in
  md5_compress hash (take (BLOCK_LEN - LENGTH_SIZE) block ++ length_bytes len).

(** The array [hash] in memory. *)
Definition hash_bytes (h : md5_state) : list Z :=
  let '(a, b, c, d) := h in le_bytes 4 a ++ le_bytes 4 b ++ le_bytes 4 c ++ le_bytes 4 d.

(** * The storage enclave *)

Definition STATE_LEN : nat := 4.
Definition AURORA : list Z := [65; 85; 82; 79; 82; 65].

(** [ecall_test] of the storage enclave: [sgx_read_rand] is what that call writes,
    if it succeeds. The result is the memory and the arguments of [ocall_write]. *)
Definition ecall_test (sgx_read_rand : option (list Z)) (buffer : Z) (m : mem) : mem * (Z * Z * Z) :=
  let m := memset m buffer 0 (Z.to_nat (Z.shiftl 1 12)) in
  let m := match sgx_read_rand with Some r => store m (buffer + 10) r | None => m end in
  let m := store m buffer AURORA in
  let hash := md5_hash (load m (buffer + 10) (Z.to_nat (Z.shiftl 1 12 - 10))) in
  let m := store m (buffer + 6) (take STATE_LEN (hash_bytes hash)) in
  let pos := Z.shiftl 1 12 in
  let wLen := Z.land (u32 (pos + 4095)) (u32 (Z.lnot 4095)) in
  (m, (buffer, wLen, pos)).

(** * MD5 *)

Module Rfc1321.
(** The table [T] of section 3.4, the shift amounts and the word order. *)
Definition T : list Z :=
  [0xD76AA478; 0xE8C7B756; 0x242070DB; 0xC1BDCEEE;
   0xF57C0FAF; 0x4787C62A; 0xA8304613; 0xFD469501;
   0x698098D8; 0x8B44F7AF; 0xFFFF5BB1; 0x895CD7BE;
   0x6B901122; 0xFD987193; 0xA679438E; 0x49B40821;
   0xF61E2562; 0xC040B340; 0x265E5A51; 0xE9B6C7AA;
   0xD62F105D; 0x02441453; 0xD8A1E681; 0xE7D3FBC8;
   0x21E1CDE6; 0xC33707D6; 0xF4D50D87; 0x455A14ED;
   0xA9E3E905; 0xFCEFA3F8; 0x676F02D9; 0x8D2A4C8A;
   0xFFFA3942; 0x8771F681; 0x6D9D6122; 0xFDE5380C;
   0xA4BEEA44; 0x4BDECFA9; 0xF6BB4B60; 0xBEBFBC70;
   0x289B7EC6; 0xEAA127FA; 0xD4EF3085; 0x04881D05;
   0xD9D4D039; 0xE6DB99E5; 0x1FA27CF8; 0xC4AC5665;
   0xF4292244; 0x432AFF97; 0xAB9423A7; 0xFC93A039;
   0x655B59C3; 0x8F0CCC92; 0xFFEFF47D; 0x85845DD1;
   0x6FA87E4F; 0xFE2CE6E0; 0xA3014314; 0x4E0811A1;
   0xF7537E82; 0xBD3AF235; 0x2AD7D2BB; 0xEB86D391].
Definition S_ (i : nat) : Z :=
  nth (i mod 4) (nth (i / 16) [[7; 12; 17; 22]; [5; 9; 14; 20]; [4; 11; 16; 23]; [6; 10; 15; 21]] []) 0.
Definition K (i : nat) : nat :=
  match (i / 16)%nat with
  | 0%nat => i
  | 1%nat => (5 * i + 1) mod 16
  | 2%nat => (3 * i + 5) mod 16
  | _ => (7 * i) mod 16
  end.

(** The auxiliary functions, on 32-bit words. *)
Definition F (x y z : Z) : Z := Z.lor (Z.land x y) (Z.land (Z.lnot x) z).
Definition G (x y z : Z) : Z := Z.lor (Z.land x z) (Z.land y (Z.lnot z)).
Definition H (x y z : Z) : Z := Z.lxor x (Z.lxor y z).
Definition I (x y z : Z) : Z := Z.lxor y (Z.lor x (u32 (Z.lnot z))).
Definition aux (i : nat) : Z -> Z -> Z -> Z :=
  match (i / 16)%nat with 0%nat => F | 1%nat => G | 2%nat => H | _ => I end.

(** Rotation of a 32-bit word. *)
Definition rotl (x n : Z) : Z := Z.lor (u32 (Z.shiftl x n)) (Z.shiftr x (32 - n)).

(** One of the 64 steps: [a = b + ((a + f(b,c,d) + X[k] + T[i]) <<< s)], after
    which the words change places. *)
Definition step (X : list Z) (st : md5_state) (i : nat) : md5_state :=
  let '(a, b, c, d) := st in
  (d, u32 (b + rotl (u32 (a + aux i b c d + nth i T 0 + nth (K i) X 0)) (S_ i)), b, c).

Definition add (s t : md5_state) : md5_state :=
  let '(a, b, c, d) := s in let '(a', b', c', d') := t in
  (u32 (a + a'), u32 (b + b'), u32 (c + c'), u32 (d + d')).

(** The sixteen words of a block, little-endian. *)
Definition words (block : list Z) : list Z :=
  (fun i => le_val (take 4 (drop (4 * i) block))) <$> seq 0 16.

Definition process (st : md5_state) (block : list Z) : md5_state :=
  add st (foldl (step (words block)) st (seq 0 64)).

(** Padding: a one bit, zeros up to 56 modulo 64, and the length in bits. *)
Definition pad (message : list Z) : list Z :=
  message ++ 0x80 :: replicate ((119 - length message mod 64) mod 64) 0 ++
  le_bytes 8 (8 * Z.of_nat (length message)).

Fixpoint chunks (n : nat) (l : list Z) : list (list Z) :=
  match n with
  | O => []
  | S n => take 64 l :: chunks n (drop 64 l)
  end.

Definition md5 (message : list Z) : md5_state :=
  let p := pad message in
  foldl process (0x67452301, 0xefcdab89, 0x98badcfe, 0x10325476) (chunks (length p / 64) p).
End Rfc1321.

(** * The unrolled compression function is MD5's *)

Lemma F_code b c d : Z.lxor d (Z.land b (Z.lxor c d)) = Rfc1321.F b c d.
Proof.
  apply Z.bits_inj'. intros i Hi. unfold Rfc1321.F.
  rewrite !Z.lxor_spec, !Z.lor_spec, !Z.land_spec, Z.lxor_spec, Z.lnot_spec by lia.
  by destruct (Z.testbit b i), (Z.testbit c i), (Z.testbit d i).
Qed.

Lemma G_code b c d : Z.lxor c (Z.land d (Z.lxor b c)) = Rfc1321.G b c d.
Proof.
  apply Z.bits_inj'. intros i Hi. unfold Rfc1321.G.
  rewrite !Z.lxor_spec, !Z.lor_spec, !Z.land_spec, Z.lxor_spec, Z.lnot_spec by lia.
  by destruct (Z.testbit b i), (Z.testbit c i), (Z.testbit d i).
Qed.

Lemma H_code b c d : Z.lxor (Z.lxor b c) d = Rfc1321.H b c d.
Proof. apply Z.lxor_assoc. Qed.

(** A step of the specification in the notation of the code. *)
Lemma step_code X a b c d i :
  Rfc1321.step X (a, b, c, d) i =
  (d, match (i / 16)%nat with 0%nat => ROUND0 | 1%nat => ROUND1 | 2%nat => ROUND2 | _ => ROUND3 end
        X a b c d (Rfc1321.K i) (Rfc1321.S_ i) (nth i Rfc1321.T 0), b, c).
Proof.
  unfold Rfc1321.step, Rfc1321.aux. f_equal. f_equal. f_equal.
  destruct (i / 16)%nat as [|[|[|n]]]; unfold ROUND0, ROUND1, ROUND2, ROUND3, ROUND_TAIL;
    [rewrite (F_code b c d)|rewrite (G_code b c d)|rewrite (H_code b c d)|]; reflexivity.
Qed.

(** Four lines of the code are four steps: the words are back in their places. *)
Lemma group_code X st g :
  (g < 16)%nat ->
  foldl (Rfc1321.step X) st (seq (4 * g) 4) = foldl (assign X) st (take 4 (drop (4 * g) md5_rounds)).
Proof.
  intros Hg. destruct st as [[[a b] c] d].
  change (seq (4 * g) 4) with [4 * g; S (4 * g); S (S (4 * g)); S (S (S (4 * g)))]%nat. cbn [foldl].
  rewrite !step_code.
  do 16 (destruct g as [|g]; [reflexivity|]). lia.
Qed.

Lemma rounds_code X st : foldl (Rfc1321.step X) st (seq 0 64) = foldl (assign X) st md5_rounds.
Proof.
  assert (forall g, (g <= 16)%nat ->
    foldl (Rfc1321.step X) st (seq 0 (4 * g)) = foldl (assign X) st (take (4 * g) md5_rounds)) as HG.
  { induction g as [|g IH]; intros Hg; [done|]. replace (4 * S g)%nat with (4 * g + 4)%nat by lia.
    rewrite seq_app, foldl_app, IH, Nat.add_0_l, group_code by lia. rewrite <- foldl_app. f_equal.
    by rewrite <- take_take_drop. }
  exact (HG 16%nat ltac:(lia)).
Qed.

Lemma schedule_words block :
  length block = BLOCK_LEN -> LOADSCHEDULE block <$> seq 0 16 = Rfc1321.words block.
Proof.
  intros Hl. apply list_fmap_ext. intros j i Hi. apply lookup_seq in Hi as [-> Hi]. cbn [Nat.add].
  unfold LOADSCHEDULE.
  assert (exists x0 x1 x2 x3 l, drop (4 * j) block = x0 :: x1 :: x2 :: x3 :: l) as (x0 & x1 & x2 & x3 & l & E).
  { pose proof (length_drop block (4 * j)) as HL. rewrite Hl in HL. unfold BLOCK_LEN in HL.
    destruct (drop (4 * j) block) as [|x0 [|x1 [|x2 [|x3 l]]]]; cbn in HL; try lia. by repeat eexists. }
  assert (forall k, nth (j * 4 + k) block 0 = nth k (drop (4 * j) block) 0) as Hn.
  { intros k. rewrite !nth_lookup, lookup_drop. do 3 f_equal. lia. }
  rewrite !Hn, E. cbn [nth take le_val]. rewrite Z.shiftl_0_r, Z.shiftl_0_l, Z.lor_0_r.
  rewrite !Z.shiftl_lor, !Z.shiftl_shiftl by lia. by rewrite <- !Z.lor_assoc.
Qed.

Lemma compress_process st block :
  length block = BLOCK_LEN -> md5_compress st block = Rfc1321.process st block.
Proof.
  intros Hl. unfold md5_compress, Rfc1321.process. rewrite schedule_words by done.
  destruct st as [[[s0 s1] s2] s3]. rewrite rounds_code.
  by destruct (foldl (assign _) _ _) as [[[a b] c] d].
Qed.

(** * The padding *)

Lemma length_loop_bytes n len : length_loop n len = le_bytes n len.
Proof.
  revert len. induction n as [|n IH]; intros len; [done|]. cbn [length_loop le_bytes]. rewrite IH. f_equal.
  rewrite land_ff. apply wrap_wrap.
Qed.

Lemma length_bytes_bits len : length_bytes len = le_bytes 8 (8 * len).
Proof.
  unfold length_bytes. rewrite length_loop_bytes.
  change (le_bytes 8 (8 * len)) with (Z.land (8 * len) 0xff :: le_bytes 7 (Z.shiftr (8 * len) 8)). f_equal.
  - rewrite land_ff. change 0x1f with (Z.ones 5). rewrite Z.land_ones, Z.shiftl_mul_pow2 by lia.
    unfold wrap. change (2 ^ 8) with (8 * 2 ^ 5). change (2 ^ 3) with 8.
    rewrite (Z.mul_comm _ 8), Z.mul_mod_distr_l by lia. rewrite Z.mul_mod_distr_l by lia. by rewrite Zmod_mod.
  - f_equal. rewrite !Z.shiftr_div_pow2 by lia. change (2 ^ 8) with (8 * 2 ^ 5).
    by rewrite Z.div_mul_cancel_l by lia.
Qed.

Lemma chunks_app q k l1 l2 :
  length l1 = (64 * q)%nat -> Rfc1321.chunks (q + k) (l1 ++ l2) = Rfc1321.chunks q l1 ++ Rfc1321.chunks k l2.
Proof.
  revert l1. induction q as [|q IH]; intros l1 Hl.
  - destruct l1; [done|simpl in Hl; lia].
  - cbn [Nat.add Rfc1321.chunks app]. rewrite take_app_le, drop_app_le by lia. f_equal. apply IH.
    rewrite length_drop. lia.
Qed.

Lemma chunks_take q l : (64 * q <= length l)%nat -> Rfc1321.chunks q (take (64 * q) l) = Rfc1321.chunks q l.
Proof.
  intros Hl. rewrite <- (take_drop (64 * q) l) at 2. rewrite <- (Nat.add_0_r q) at 3.
  rewrite chunks_app by (rewrite length_take; lia). by rewrite app_nil_r.
Qed.

Lemma md5_blocks_spec q fuel hash message r :
  length message = (64 * q + r)%nat -> (r < 64)%nat -> (q <= fuel)%nat ->
  md5_blocks fuel hash message =
  (foldl Rfc1321.process hash (Rfc1321.chunks q message), drop (64 * q) message).
Proof.
  revert fuel hash message. induction q as [|q IH]; intros fuel hash message Hl Hr Hf.
  - destruct fuel as [|fuel]; [done|]. cbn [md5_blocks]. unfold BLOCK_LEN.
    rewrite (proj2 (Nat.leb_gt _ _)) by lia. done.
  - destruct fuel as [|fuel]; [lia|]. cbn [md5_blocks]. unfold BLOCK_LEN.
    rewrite (proj2 (Nat.leb_le _ _)) by lia.
    rewrite IH by (rewrite ?length_drop; lia). rewrite drop_drop.
    rewrite compress_process by (rewrite length_take; unfold BLOCK_LEN; lia).
    cbn [Rfc1321.chunks foldl]. f_equal. f_equal. lia.
Qed.

(** The blocks the code compresses last, and the zeros of the padding. *)
Lemma last_blocks hash rest L :
  (length rest < 64)%nat -> length L = 8%nat ->
  let z := ((119 - length rest) mod 64)%nat in
  let tail := rest ++ 0x80 :: replicate z 0 ++ L in
  (let block := rest ++ 0x80 :: replicate (BLOCK_LEN - S (length rest)) 0 in
   let '(hash, block) :=
     if (BLOCK_LEN - S (length rest) <? LENGTH_SIZE)%nat
     then (md5_compress hash block, replicate BLOCK_LEN 0) else (hash, block) in
   md5_compress hash (take (BLOCK_LEN - LENGTH_SIZE) block ++ L)) =
  foldl Rfc1321.process hash (Rfc1321.chunks (length tail / 64) tail) /\
  (length tail = 64 \/ length tail = 128)%nat.
Proof.
  intros Hr HL z tail. unfold BLOCK_LEN, LENGTH_SIZE. change (64 - 8)%nat with 56%nat.
  assert (length tail = length rest + 1 + z + 8)%nat as Ht
    by (unfold tail; rewrite length_app; cbn [length]; rewrite length_app, length_replicate; lia).
  destruct (Nat.ltb_spec (64 - S (length rest)) 8) as [Hlt|Hge].
  - assert (z = 119 - length rest)%nat as Hz by (apply Nat.mod_small; lia).
    assert (length tail = 128)%nat as HT by lia. split; [|by right].
    rewrite HT. change (128 / 64)%nat with (1 + 1)%nat.
    assert (tail = (rest ++ 0x80 :: replicate (64 - S (length rest)) 0) ++ replicate 56 0 ++ L) as ->.
    { unfold tail. rewrite Hz. replace (119 - length rest)%nat with (64 - S (length rest) + 56)%nat by lia.
      by rewrite replicate_add, <- !app_assoc. }
    rewrite chunks_app by (rewrite length_app; cbn [length]; rewrite length_replicate; lia).
    change (take 56 (replicate 64 0)) with (replicate 56 0). cbn [Rfc1321.chunks app foldl]. rewrite !take_ge
      by (rewrite ?length_app; cbn [length]; rewrite ?length_replicate; lia).
    rewrite !compress_process
      by (unfold BLOCK_LEN; rewrite ?length_app, ?length_take; cbn [length]; rewrite ?length_replicate; lia).
    done.
  - assert (z = 55 - length rest)%nat as Hz.
    { unfold z. replace (119 - length rest)%nat with (55 - length rest + 1 * 64)%nat by lia.
      rewrite Nat.Div0.mod_add. apply Nat.mod_small. lia. }
    assert (length tail = 64)%nat as HT by lia. split; [|by left].
    rewrite HT. change (64 / 64)%nat with 1%nat. cbn [Rfc1321.chunks foldl]. rewrite (take_ge tail) by lia.
    assert (take 56 (rest ++ 0x80 :: replicate (64 - S (length rest)) 0) ++ L = tail) as ->.
    { unfold tail. rewrite Hz. replace (64 - S (length rest))%nat with (55 - length rest + 8)%nat by lia.
      rewrite replicate_add, app_comm_cons, app_assoc, take_app_length'
        by (rewrite length_app; cbn [length]; rewrite length_replicate; lia).
      by rewrite <- app_assoc. }
    by apply compress_process.
Qed.

Lemma md5_hash_value (message : list Z) : md5_hash message = Rfc1321.md5 message.
Proof.
  set (n := length message). set (q := (n / 64)%nat). set (r := (n mod 64)%nat).
  pose proof (Nat.div_mod n 64 ltac:(lia)) as Hn. pose proof (Nat.mod_upper_bound n 64 ltac:(lia)) as Hr.
  fold q r in Hn, Hr.
  unfold md5_hash, Rfc1321.md5. rewrite (md5_blocks_spec q _ _ _ r) by (fold n; lia).
  assert (length (drop (64 * q) message) = r) as Hd by (rewrite length_drop; fold n; lia).
  rewrite length_bytes_bits. fold n.
  destruct (last_blocks (foldl Rfc1321.process (0x67452301, 0xefcdab89, 0x98badcfe, 0x10325476)
    (Rfc1321.chunks q message)) (drop (64 * q) message) (le_bytes 8 (8 * Z.of_nat n))) as [HB HT];
    [by rewrite Hd|by rewrite length_le_bytes|].
  etransitivity; [exact HB|]. clear HB.
  set (tail := drop (64 * q) message ++ _) in *.
  assert (Rfc1321.pad message = take (64 * q) message ++ tail) as ->.
  { unfold Rfc1321.pad, tail. fold n. fold r. rewrite app_assoc, take_drop, Hd. done. }
  rewrite length_app, length_take. fold n. rewrite Nat.min_l by lia.
  replace ((64 * q + length tail) / 64)%nat with (q + length tail / 64)%nat
    by (rewrite (Nat.mul_comm 64), Nat.div_add_l; lia).
  rewrite chunks_app by (rewrite length_take; fold n; lia).
  rewrite foldl_app, chunks_take by (fold n; lia). done.
Qed.

(** * Properties *)

(** C34 The hasher computes MD5 as RFC 1321 defines it, for messages of every
    length: the unrolled rounds are the 64 table-driven steps, and the last one or
    two blocks carry the one bit, the zeros and the length in bits. *)
Theorem md5_hash_rfc1321 (message : list Z) : md5_hash message = Rfc1321.md5 message.
Proof. apply md5_hash_value. Qed.

(** * The block of the storage enclave *)

Lemma tagged_load m buffer k body t : load m (buffer + 10) k = body -> length t = 4%nat ->
  load (store (store m buffer AURORA) (buffer + 6) t) buffer (10 + k) = AURORA ++ t ++ body.
Proof.
  intros Hl Ht. change (10 + k)%nat with (6 + (4 + k))%nat. rewrite !load_app. f_equal; [|f_equal].
  - rewrite (load_ext _ (store m buffer AURORA)); [by apply load_store_eq|]. intros x Hx. apply store_out. lia.
  - change (buffer + Z.of_nat 6) with (buffer + 6). by apply load_store_eq.
  - rewrite <- Hl. apply load_shift. intros i Hi. rewrite !store_out by (rewrite ?Ht; cbn [length AURORA]; lia).
    f_equal. lia.
Qed.

(** The body: the random bytes, or the zeros below them. *)
Lemma body_load r buffer m n :
  (forall l, r = Some l -> length l = n) ->
  let m0 := memset m buffer 0 (10 + n) in
  let m1 := match r with Some l => store m0 (buffer + 10) l | None => m0 end in
  load m1 (buffer + 10) n = default (replicate n 0) r /\ frame buffer (10 + Z.of_nat n) m m1.
Proof.
  intros Hr m0 m1. assert (frame buffer (10 + Z.of_nat n) m m0) as Hf
    by (apply frame_store; [lia|]; rewrite length_replicate; lia).
  unfold m1. destruct r as [l|]; cbn [default].
  - specialize (Hr l eq_refl). split; [by apply load_store_eq|].
    eapply frame_trans; [exact Hf|]. apply frame_store; lia.
  - split; [|done]. assert (load m0 buffer (10 + n) = replicate (10 + n) 0) as E
      by (apply load_store_eq; by rewrite length_replicate).
    change (buffer + 10) with (buffer + Z.of_nat 10). rewrite (load_sub _ _ _ _ 10 n E) by lia. rewrite drop_replicate, take_replicate. f_equal. lia.
Qed.

(** The block that the storage enclave writes: the magic word, the first four bytes
    of the MD5 hash of the rest, and 4086 random bytes, which are zeros when the
    random source fails. *)
Theorem ecall_test_block r buffer m n :
  n = Z.to_nat 4086 -> (forall l, r = Some l -> length l = n) ->
  let '(m', args) := ecall_test r buffer m in
  let body := default (replicate n 0) r in
  load m' buffer (10 + n) = AURORA ++ take 4 (hash_bytes (Rfc1321.md5 body)) ++ body /\
  args = (buffer, 4096, 4096) /\ frame buffer 4096 m m'.
Proof.
  intros Hn Hr. unfold ecall_test. change (Z.shiftl 1 12 - 10) with 4086.
  replace (Z.to_nat (Z.shiftl 1 12)) with (10 + n)%nat by (rewrite Hn; change (Z.shiftl 1 12) with 4096; lia). rewrite <- Hn.
  destruct (body_load r buffer m n Hr) as [Hl Hf]. set (m1 := match r with Some _ => _ | None => _ end) in *.
  assert (load (store m1 buffer AURORA) (buffer + 10) n = default (replicate n 0) r) as Hl'.
  { rewrite <- Hl. apply load_ext. intros x Hx. apply store_out. cbn [length AURORA]. lia. }
  rewrite Hl', md5_hash_value. set (h := Rfc1321.md5 _).
  assert (length (take STATE_LEN (hash_bytes h)) = 4%nat) as Ht by (by destruct h as [[[]]]).
  split_and!; [by apply tagged_load|done|].
  rewrite Hn in Hf. change (10 + Z.of_nat (Z.to_nat 4086)) with 4096 in Hf.
  eapply frame_trans; [exact Hf|]. eapply frame_trans; apply frame_store; rewrite ?Ht; cbn [length AURORA]; lia.
Qed.
