(* ===== verification/Clock.v ===== *)
(** Time sources: rtc.c (the CMOS real-time clock) and clock.c of the supervisor,
    and the timer routines of hw/timer.c they rest on. *)

From Stdlib Require Import ZArith Lia Bool.
From stdpp Require Import base list.
From S2P Require Import Prelude RdRand Hw Apic.

(** * The real-time clock *)

Definition CMOS_ADDRESS : Z := 0x70.
Definition CMOS_DATA : Z := 0x71.
Definition RTC_SEC : Z := 0x00.
Definition RTC_MIN : Z := 0x02.
Definition RTC_HOUR : Z := 0x04.
Definition RTC_MDAY : Z := 0x07.
Definition RTC_MON : Z := 0x08.
Definition RTC_YEAR : Z := 0x09.
Definition RTC_STATUS_A : Z := 0x0a.
Definition RTC_STATUS_A_UPDATE_IN_PROGRESS : Z := 0x80.
Definition RTC_STATUS_B : Z := 0x0b.
Definition RTC_STATUS_B_24_HOUR : Z := 0x02.
Definition RTC_STATUS_B_BINARY : Z := 0x04.

Record tm := Tm { tm_sec : Z; tm_min : Z; tm_hour : Z; tm_mday : Z; tm_mon : Z; tm_year : Z }.

Section Rtc.
Context {D : Type} {Dev : Devices D}.
(** The C library's [mktime], and the fuel of the waiting loops. *)
Context (mktime : tm -> Z) (fuel : nat).

Definition rtc_readb (address : Z) : prog D Z :=
  let* _ := wr (outb address CMOS_ADDRESS) in rd (inb CMOS_DATA).

Definition rtc_is_busy : prog D Z :=
  let* v := rtc_readb RTC_STATUS_A in ret (Z.land v RTC_STATUS_A_UPDATE_IN_PROGRESS).

Definition rtc_readb_bcd (address : Z) : prog D Z :=
  let* bcd := rtc_readb address in ret (u32 (bcd - 6 * Z.shiftr bcd 4)).

(** The hour of the day from the hour register in 12-hour mode. *)
Definition hour_of_12 (hour : Z) : Z :=
  let is_pm := 80 <=? hour in
  (Z.land hour 0x7f mod 80) mod 12 + (if is_pm then 12 else 0).

Definition rtc_read_time : prog D Z :=
  let* _ := while fuel (let* b := rtc_is_busy in ret (negb (b =? 0))) (ret tt) in
  let* status_b := rtc_readb RTC_STATUS_B in
  let is_binary := negb (Z.land status_b RTC_STATUS_B_BINARY =? 0) in
  let is_24hour := negb (Z.land status_b RTC_STATUS_B_24_HOUR =? 0) in
  let read_component := if is_binary then rtc_readb else rtc_readb_bcd in
  let* sec := read_component RTC_SEC in
  let* min := read_component RTC_MIN in
  let* hour := read_component RTC_HOUR in
  let hour := if is_24hour then hour else hour_of_12 hour in
  let* mday := read_component RTC_MDAY in
  let* mon := read_component RTC_MON in
  let* year := read_component RTC_YEAR in
  ret (mktime (Tm sec min hour mday (mon - 1) (year + 100))).

(** [do { last_time = time; time = rtc_read_time(); } while (time != last_time);] *)
Fixpoint rtc_now_loop (n : nat) (time : Z) : prog D Z :=
  match n with
  | O => stuck
  | S n =>
      let last_time := time in
      let* time := rtc_read_time in
      if time =? last_time then ret time else rtc_now_loop n time
  end.

Definition rtc_now (n : nat) : prog D Z := rtc_now_loop n 0.
End Rtc.

(** * Timers *)

Definition PORT_PIT_COUNTER0 : Z := 0x40.
Definition PORT_PIT_MODE : Z := 0x43.
Definition PORT_PIT_COUNTER2 : Z := 0x42.
Definition PORT_PS2_CTRLB : Z := 0x61.
Definition PM_SEL_TIMER0 : Z := Z.shiftl 0 6.
Definition PM_SEL_TIMER2 : Z := Z.shiftl 2 6.
Definition PM_ACCESS_WORD : Z := Z.shiftl 3 4.
Definition PM_MODE0 : Z := Z.shiftl 0 1.
Definition PM_MODE2 : Z := Z.shiftl 2 1.
Definition PM_CNT_BINARY : Z := Z.shiftl 0 0.
Definition PPCB_T2GATE : Z := Z.shiftl 1 0.
Definition PPCB_SPKR : Z := Z.shiftl 1 1.
Definition PPCB_T2OUT : Z := Z.shiftl 1 5.
Definition CALIBRATE_COUNT : Z := 0x800.
Definition CPUID_TSC : Z := Z.shiftl 1 4.
Definition PM_SEL_READBACK : Z := Z.shiftl 3 6.
Definition PM_READ_COUNTER0 : Z := Z.shiftl 1 1.
Definition PM_READ_VALUE : Z := Z.shiftl 1 4.
Definition HPET_COUNTER : Z := 0xf0.
Definition PMTIMER_HZ : Z := 3579545.
Definition PMTIMER_TO_PIT : Z := 3.
Definition PIT_TICK_INTERVAL : Z := 65536.
(** The macro, for operands of [w] bits. *)
Definition DIV_ROUND_UP (w n d : Z) : Z := wrap w (n + d - 1) / d.

(** The variables of hw/timer.c. *)
Record timer_glob := TimerGlob { TimerKHz : Z; TimerPort : Z; ShiftTSC : Z; TimerLast : Z }.
Definition timer_init : timer_glob :=
  TimerGlob (DIV_ROUND_UP 32 PMTIMER_HZ (1000 * PMTIMER_TO_PIT)) PORT_PIT_COUNTER0 0 0.
Definition set_TimerLast v g := TimerGlob (TimerKHz g) (TimerPort g) (ShiftTSC g) v.

(** [while (t >= (1<<24)) { ShiftTSC++; t = (t + 1) >> 1; }]: 64 iterations are
    more than a 64-bit [t] takes. *)
Fixpoint scale_tsc (n : nat) (shift t : Z) : Z * Z :=
  match n with
  | O => (shift, t)
  | S n => if Z.shiftl 1 24 <=? t then scale_tsc n (u8 (shift + 1)) (Z.shiftr (u64 (t + 1)) 1) else (shift, t)
  end.

Section Timer.
Context {D : Type} {Dev : Devices D} (BUILD_HPET_ADDRESS : Z).
(** CONFIG_TSC_TIMER and CONFIG_PMTIMER of the build. *)
Context (CONFIG_TSC_TIMER CONFIG_PMTIMER : bool).
Abbreviation M := (prog (timer_glob * D)).

Definition tdev {A} (p : prog D A) : M A :=
  fun s => match p (snd s) with Some (a, d) => Some (a, (fst s, d)) | None => None end.

Definition timer_adjust_bits (value validbits : Z) : M Z :=
  let* last := gets (fun s => TimerLast (fst s)) in
  let value := Z.lor (Z.land last (u32 (Z.lnot validbits))) (Z.land value validbits) in
  let value := if value <? last then u32 (value + validbits + 1) else value in
  let* _ := modify (fun s => (set_TimerLast value (fst s), snd s)) in
  ret value.

Definition tsc_now : M Z :=
  let* t := tdev (rd rdtscll) in
  let* sh := gets (fun s => ShiftTSC (fst s)) in
  ret (Z.shiftr t sh).

Definition pmtimer_now : M Z :=
  let* port := gets (fun s => TimerPort (fst s)) in
  let* v := tdev (rd (inl port)) in
  timer_adjust_bits v 0xffffff.

Definition pit_now : M Z :=
  let* _ := tdev (wr (outb (Z.lor (Z.lor PM_SEL_READBACK PM_READ_VALUE) PM_READ_COUNTER0) PORT_PIT_MODE)) in
  let* lo := tdev (rd (inb PORT_PIT_COUNTER0)) in
  let* hi := tdev (rd (inb PORT_PIT_COUNTER0)) in
  timer_adjust_bits (Z.lor lo (Z.shiftl hi 8)) 0xffff.

Definition hpet_now : M Z := tdev (rd (readl (BUILD_HPET_ADDRESS + HPET_COUNTER))).

Definition time_service : M unit :=
  let* _ := tsc_now in let* _ := pmtimer_now in let* _ := pit_now in let* _ := hpet_now in ret tt.

Definition timer_read : M Z :=
  let* port := gets (fun s => TimerPort (fst s)) in
  if CONFIG_TSC_TIMER && (port =? 0) then let* t := tsc_now in ret (u32 t)
  else if CONFIG_PMTIMER && negb (port =? PORT_PIT_COUNTER0) then pmtimer_now
  else pit_now.

Definition timer_calc (msecs : Z) : M Z :=
  let* cur := timer_read in
  let* khz := gets (fun s => TimerKHz (fst s)) in
  ret (u32 (cur + u32 (khz * msecs))).

Definition timer_calc_usec (usecs : Z) : M Z :=
  let* cur := timer_read in
  let* khz := gets (fun s => TimerKHz (fst s)) in
  if 500000 <? usecs then ret (u32 (cur + u32 (DIV_ROUND_UP 32 usecs 1000 * khz)))
  else ret (u32 (cur + DIV_ROUND_UP 32 (u32 (usecs * khz)) 1000)).

Definition timer_calc_nsec (nsecs : Z) : M Z :=
  let* cur := timer_read in
  let* khz := gets (fun s => TimerKHz (fst s)) in
  if 500000 <? nsecs then ret (u32 (cur + u32 (DIV_ROUND_UP 32 nsecs 1000000 * khz)))
  else ret (u32 (cur + DIV_ROUND_UP 32 (u32 (nsecs * khz)) 1000000)).

Definition timer_check (end_ : Z) : M bool :=
  let* cur := timer_read in ret (0 <? s32 (cur - end_)).

(** [while (!timer_check(end)) cpu_relax();] *)
Definition timer_delay (fuel : nat) (end_ : Z) : M unit :=
  while fuel (let* b := timer_check end_ in ret (negb b)) (ret tt).

Definition ndelay (fuel : nat) (count : Z) : M unit := let* e := timer_calc_nsec count in timer_delay fuel e.
Definition udelay (fuel : nat) (count : Z) : M unit := let* e := timer_calc_usec count in timer_delay fuel e.
Definition mdelay (fuel : nat) (count : Z) : M unit := let* e := timer_calc count in timer_delay fuel e.

(** ** Setup *)

Definition pit_setup (CONFIG_HARDWARE_IRQ : bool) : M unit :=
  if negb CONFIG_HARDWARE_IRQ then ret tt else
  let* _ := tdev (wr (outb (Z.lor (Z.lor (Z.lor PM_SEL_TIMER0 PM_ACCESS_WORD) PM_MODE2) PM_CNT_BINARY) PORT_PIT_MODE)) in
  let* _ := tdev (wr (outb 0 PORT_PIT_COUNTER0)) in
  tdev (wr (outb 0 PORT_PIT_COUNTER0)).

Definition tsctimer_setup (fuel : nat) : M unit :=
  let* orig := tdev (rd (inb PORT_PS2_CTRLB)) in
  let* _ := tdev (wr (outb (Z.lor (Z.land orig (u8 (Z.lnot PPCB_SPKR))) PPCB_T2GATE) PORT_PS2_CTRLB)) in
  let* _ := tdev (wr (outb (Z.lor (Z.lor (Z.lor PM_SEL_TIMER2 PM_ACCESS_WORD) PM_MODE0) PM_CNT_BINARY) PORT_PIT_MODE)) in
  let* _ := tdev (wr (outb (Z.land CALIBRATE_COUNT 0xff) PORT_PIT_COUNTER2)) in
  let* _ := tdev (wr (outb (Z.shiftr CALIBRATE_COUNT 8) PORT_PIT_COUNTER2)) in
  let* start := tdev (rd rdtscll) in
  let* _ := tdev (while fuel (let* v := rd (inb PORT_PS2_CTRLB) in ret (Z.land v PPCB_T2OUT =? 0)) (ret tt)) in
  let* end_ := tdev (rd rdtscll) in
  let* _ := tdev (wr (outb orig PORT_PS2_CTRLB)) in
  let diff := u64 (end_ - start) in
  let t := DIV_ROUND_UP 64 (u64 (diff * PMTIMER_HZ)) CALIBRATE_COUNT in
  let* shift := gets (fun s => ShiftTSC (fst s)) in
  let '(shift, t) := scale_tsc 64 shift t in
  let khz := DIV_ROUND_UP 32 (u32 t) (1000 * PMTIMER_TO_PIT) in
  modify (fun s => (TimerGlob khz 0 shift (TimerLast (fst s)), snd s)).

Definition timer_setup (fuel : nat) : M unit :=
  let* port := gets (fun s => TimerPort (fst s)) in
  if negb CONFIG_TSC_TIMER || (CONFIG_PMTIMER && negb (port =? PORT_PIT_COUNTER0)) then ret tt else
  let cpuid_features := if 0 <? eax (cpuid (D := D) 0) then edx (cpuid (D := D) 1) else 0 in
  when (negb (Z.land cpuid_features CPUID_TSC =? 0)) (tsctimer_setup fuel).

Definition pmtimer_setup (ioport : Z) : M unit :=
  if negb CONFIG_PMTIMER then ret tt else
  modify (fun s => (TimerGlob (DIV_ROUND_UP 32 PMTIMER_HZ 1000) ioport (ShiftTSC (fst s)) (TimerLast (fst s)), snd s)).
End Timer.

Definition ticks_to_ms (ticks : Z) : Z :=
  let t := u32 (PIT_TICK_INTERVAL * 1000 * PMTIMER_TO_PIT * ticks) in
  DIV_ROUND_UP 32 t PMTIMER_HZ.

Definition ticks_from_ms (ms : Z) : Z :=
  let t := u32 (DIV_ROUND_UP 64 (u64 (ms * PMTIMER_HZ)) PIT_TICK_INTERVAL) in
  DIV_ROUND_UP 32 t (1000 * PMTIMER_TO_PIT).

(** * The clock's encoding *)

Definition to_bcd (x : Z) : Z := 16 * (x / 10) + x mod 10.

(** The hour register: 1 to 12 with the PM bit, or 0 to 23. *)
Definition hour_register (binary mode24 : bool) (h : Z) : Z :=
  let code x := if binary then x else to_bcd x in
  if mode24 then code h
  else code (if h mod 12 =? 0 then 12 else h mod 12) + (if 12 <=? h then 0x80 else 0).

(** The registers that show [t], with [tm_mon] from 0 and [tm_year] from 1900. *)
Record shows (binary mode24 : bool) (t : tm) (cmos : Z -> Z) : Prop := {
  show_b : Z.testbit (cmos RTC_STATUS_B) 2 = binary /\ Z.testbit (cmos RTC_STATUS_B) 1 = mode24;
  show_sec : cmos RTC_SEC = if binary then tm_sec t else to_bcd (tm_sec t);
  show_min : cmos RTC_MIN = if binary then tm_min t else to_bcd (tm_min t);
  show_hour : cmos RTC_HOUR = hour_register binary mode24 (tm_hour t);
  show_mday : cmos RTC_MDAY = if binary then tm_mday t else to_bcd (tm_mday t);
  show_mon : cmos RTC_MON = if binary then tm_mon t + 1 else to_bcd (tm_mon t + 1);
  show_year : cmos RTC_YEAR = if binary then tm_year t - 100 else to_bcd (tm_year t - 100);
}.

Record valid_tm (t : tm) : Prop := {
  v_sec : 0 <= tm_sec t < 60; v_min : 0 <= tm_min t < 60; v_hour : 0 <= tm_hour t < 24;
  v_mday : 1 <= tm_mday t < 32; v_mon : 0 <= tm_mon t < 12; v_year : 100 <= tm_year t < 200;
}.

(** The registers are read through the index and data ports; bit 7 of status A is
    set for [uip] reads. *)
Class Cmos (D : Type) {H : Devices D} := {
  cmos_index : D -> Z; cmos : D -> Z -> Z; uip : D -> nat;
}.
Class CmosLaws (D : Type) `{Cmos D} : Prop := {
  cmos_select v d : 0 <= v < 128 ->
    let d' := outb v 0x70 d in cmos_index d' = v /\ (forall r, cmos d' r = cmos d r) /\ uip d' = uip d;
  cmos_data d : cmos_index d <> RTC_STATUS_A ->
    fst (inb 0x71 d) = cmos d (cmos_index d) /\ (forall r, cmos (snd (inb 0x71 d)) r = cmos d r) /\
    uip (snd (inb 0x71 d)) = uip d;
  cmos_status d : cmos_index d = RTC_STATUS_A ->
    Z.testbit (fst (inb 0x71 d)) 7 = (0 <? uip d)%nat /\
    (forall r, cmos (snd (inb 0x71 d)) r = cmos d r) /\ uip (snd (inb 0x71 d)) = Nat.pred (uip d);
}.

(** * Reading the clock *)

Lemma from_bcd x : 0 <= x < 100 -> u32 (to_bcd x - 6 * Z.shiftr (to_bcd x) 4) = x.
Proof.
  intros Hx. apply Z.eqb_eq. revert x Hx.
  apply (check_range 100 (fun x => u32 (to_bcd x - 6 * Z.shiftr (to_bcd x) 4) =? x)). by vm_compute.
Qed.

(** Decoding the hour register gives the hour, in each of the four modes. *)
Lemma hour_decodes (binary mode24 : bool) h :
  0 <= h < 24 ->
  let r := hour_register binary mode24 h in
  let r := if binary then r else u32 (r - 6 * Z.shiftr r 4) in
  (if mode24 then r else hour_of_12 r) = h.
Proof.
  intros Hh. cbv zeta. apply Z.eqb_eq. revert h Hh. destruct binary, mode24;
    match goal with |- forall h, _ -> (@?f h =? h) = true => apply (check_range 24 (fun h => f h =? h)) end;
    by vm_compute.
Qed.

Section ReadTime.
Context {D : Type} `{CL : CmosLaws D} (mktime : tm -> Z).

Lemma readb_spec r d :
  0 <= r < 128 -> r <> RTC_STATUS_A ->
  exists d', rtc_readb r d = Some (cmos d r, d') /\ (forall x, cmos d' x = cmos d x) /\ uip d' = uip d.
Proof.
  intros Hr Hne. destruct (cmos_select r d Hr) as (Hi & Hc & Hu).
  destruct (cmos_data (outb r 0x70 d)) as (Hv & Hc' & Hu'); [by rewrite Hi|].
  exists (snd (inb 0x71 (outb r 0x70 d))). rewrite Hi, Hc in Hv. split_and!; [|intros x; by rewrite Hc'|by rewrite Hu'].
  unfold rtc_readb, bind, wr, rd. change CMOS_ADDRESS with 0x70. change CMOS_DATA with 0x71.
  rewrite <- Hv. by destruct (inb 0x71 _).
Qed.

Lemma component_spec (binary : bool) r d :
  0 <= r < 128 -> r <> RTC_STATUS_A ->
  exists d', (if binary then rtc_readb else rtc_readb_bcd) r d =
      Some (if binary then cmos d r else u32 (cmos d r - 6 * Z.shiftr (cmos d r) 4), d') /\
    (forall x, cmos d' x = cmos d x) /\ uip d' = uip d.
Proof.
  intros Hr Hne. destruct (readb_spec r d Hr Hne) as (d' & E & Hc & Hu). exists d'. split; [|done].
  destruct binary; [done|]. unfold rtc_readb_bcd. by rewrite (bind_some _ _ _ _ _ E).
Qed.

Lemma wait_spec fuel d :
  (uip d < fuel)%nat ->
  exists d', while fuel (let* b := rtc_is_busy in ret (negb (b =? 0))) (ret tt) d = Some (tt, d') /\
    (forall x, cmos d' x = cmos d x) /\ uip d' = O.
Proof.
  revert d. induction fuel as [|fuel IH]; intros d Hf; [lia|].
  destruct (cmos_select RTC_STATUS_A d ltac:(done)) as (Hi & Hc & Hu).
  destruct (cmos_status (outb RTC_STATUS_A 0x70 d) Hi) as (Hb & Hc' & Hu'). rewrite Hu in Hb, Hu'.
  destruct (inb 0x71 (outb RTC_STATUS_A 0x70 d)) as [v d1] eqn:Er. cbn [fst snd] in *.
  assert (bind rtc_is_busy (fun b => ret (negb (b =? 0))) d = Some ((0 <? uip d)%nat, d1)) as E1.
  { unfold rtc_is_busy, rtc_readb, bind, wr, rd, ret. change CMOS_ADDRESS with 0x70. change CMOS_DATA with 0x71.
    rewrite Er. change RTC_STATUS_A_UPDATE_IN_PROGRESS with (2 ^ 7). by rewrite land_pow2_test, Hb by lia. }
  cbn [while]. rewrite (bind_some _ _ _ _ _ E1). destruct (Nat.ltb_spec 0 (uip d)).
  - destruct (IH d1 ltac:(lia)) as (d' & E & Hc1 & Hu1). exists d'. rewrite bind_ret, E.
    split_and!; [done|intros x; by rewrite Hc1, Hc', Hc|done].
  - exists d1. split_and!; [done|intros x; by rewrite Hc', Hc|lia].
Qed.

(** Run the read of one component. *)
Ltac component binary r :=
  match goal with |- context [bind (_ r) _ ?d] =>
    let d' := fresh "d" in let E := fresh "E" in let Hc := fresh "Hc" in let Hu := fresh "Hu" in
    destruct (component_spec binary r d ltac:(done) ltac:(done)) as (d' & E & Hc & Hu);
    rewrite (bind_some _ _ _ _ _ E); clear E end.

Lemma read_time_spec fuel d t binary mode24 :
  shows binary mode24 t (cmos d) -> valid_tm t -> (uip d < fuel)%nat ->
  exists d', rtc_read_time mktime fuel d = Some (mktime t, d') /\
    (forall x, cmos d' x = cmos d x) /\ uip d' = O.
Proof.
  intros [[Hb H24] Hsec Hmin Hhour Hmday Hmon Hyear] [Vs Vm Vh Vd Vo Vy] Hf.
  unfold rtc_read_time. destruct (wait_spec fuel d Hf) as (d0 & E & Hc0 & Hu0).
  rewrite (bind_some _ _ _ _ _ E). clear E.
  destruct (readb_spec RTC_STATUS_B d0) as (d1 & E & Hc1 & Hu1); [done|done|].
  rewrite (bind_some _ _ _ _ _ E). clear E. cbv zeta.
  change RTC_STATUS_B_BINARY with (2 ^ 2). change RTC_STATUS_B_24_HOUR with (2 ^ 1).
  rewrite !land_pow2_test, Hc0, Hb, H24 by lia.
  component binary RTC_SEC. component binary RTC_MIN. component binary RTC_HOUR.
  component binary RTC_MDAY. component binary RTC_MON. component binary RTC_YEAR.
  eexists. split; [|split; [intros x; repeat match goal with H : forall x, cmos _ x = cmos _ x |- _ => rewrite H end; done|congruence]].
  unfold ret. f_equal. f_equal. f_equal.
  repeat match goal with H : forall x, cmos _ x = cmos _ x |- _ => rewrite H end.
  rewrite Hsec, Hmin, Hhour, Hmday, Hmon, Hyear.
  pose proof (hour_decodes binary mode24 (tm_hour t) Vh) as Hh. cbv zeta in Hh. rewrite Hh.
  destruct t as [sec min hour mday mon year]. cbn [tm_sec tm_min tm_hour tm_mday tm_mon tm_year] in *.
  destruct binary; rewrite ?from_bcd by lia; f_equal; lia.
Qed.
End ReadTime.

(** * Extending a short counter *)

(** The high part of a word and a low part are put together. *)
Lemma join_low k last v :
  0 < k < 32 -> 0 <= last < 2 ^ 32 ->
  Z.lor (Z.land last (u32 (Z.lnot (2 ^ k - 1)))) (Z.land v (2 ^ k - 1)) = last - last mod 2 ^ k + v mod 2 ^ k.
Proof.
  intros Hk Hl. replace (2 ^ k - 1) with (Z.ones k) by (rewrite Z.ones_equiv; lia).
  assert (0 < 2 ^ k) by (apply Z.pow_pos_nonneg; lia).
  assert (Z.land last (u32 (Z.lnot (Z.ones k))) = last - last mod 2 ^ k) as HL.
  { pose proof (Z.div_mod last (2 ^ k) ltac:(lia)) as HD.
    replace (last - last mod 2 ^ k) with (Z.shiftl (Z.shiftr last k) k)
      by (rewrite Z.shiftl_mul_pow2, Z.shiftr_div_pow2 by lia; lia).
    apply Z.bits_inj'. intros i Hi. rewrite Z.land_spec, testbit_wrap, Z.lnot_spec, testbit_shiftl by lia.
    destruct (Z.lt_ge_cases i k).
    - rewrite Z.ones_spec_low, (Z.testbit_neg_r _ (i - k)) by lia. by rewrite !andb_false_r.
    - rewrite Z.ones_spec_high, Z.shiftr_spec by lia. replace (i - k + k) with i by lia.
      destruct (Z.ltb_spec i 32); [by rewrite andb_true_r, (proj2 (Z.leb_le _ _)) by lia|].
      by rewrite (testbit_high 32) by lia; rewrite ?andb_false_r. }
  rewrite HL, Z.land_ones by lia.
  pose proof (Z.add_lor_land (last - last mod 2 ^ k) (v mod 2 ^ k)) as HA.
  enough (Z.land (last - last mod 2 ^ k) (v mod 2 ^ k) = 0) by lia.
  rewrite <- HL. apply Z.bits_inj'. intros i Hi. rewrite !Z.land_spec, testbit_wrap, Z.lnot_spec, Z.bits_0 by lia.
  destruct (Z.lt_ge_cases i k).
  - rewrite Z.ones_spec_low by lia. cbn [negb]. by rewrite !andb_false_r.
  - rewrite Z.mod_pow2_bits_high by lia. apply andb_false_r.
Qed.

Lemma adjust_spec {D} k v T0 T1 (g : timer_glob) (d : D) :
  0 < k < 32 -> TimerLast g = T0 mod 2 ^ 32 -> v mod 2 ^ k = T1 mod 2 ^ k -> T0 <= T1 < T0 + 2 ^ k ->
  timer_adjust_bits v (2 ^ k - 1) (g, d) = Some (T1 mod 2 ^ 32, (set_TimerLast (T1 mod 2 ^ 32) g, d)).
Proof.
  intros Hk Hlast Hv HT. assert (0 < 2 ^ k) by (apply Z.pow_pos_nonneg; lia).
  assert (2 ^ 32 = 2 ^ k * 2 ^ (32 - k)) as H32 by (rewrite <- Z.pow_add_r by lia; f_equal; lia).
  assert (0 < 2 ^ (32 - k)) by (apply Z.pow_pos_nonneg; lia).
  pose proof (Z.mod_pos_bound T0 (2 ^ 32) ltac:(lia)) as HL. set (L := T0 mod 2 ^ 32) in *.
  unfold timer_adjust_bits, gets, bind, modify, ret. cbn [fst snd]. rewrite Hlast, join_low, Hv by done.
  assert (L mod 2 ^ k = T0 mod 2 ^ k) as HLk.
  { unfold L. pose proof (Z.div_mod T0 (2 ^ 32) ltac:(lia)). rewrite (Z.mod_eq T0 (2 ^ 32)) by lia.
    rewrite H32 at 1. replace (T0 - 2 ^ k * 2 ^ (32 - k) * (T0 / 2 ^ 32))
      with (T0 + (- (2 ^ (32 - k) * (T0 / 2 ^ 32))) * 2 ^ k) by lia. apply Z.mod_add. lia. }
  rewrite HLk. pose proof (Z.div_mod T0 (2 ^ k) ltac:(lia)) as D0.
  pose proof (Z.mod_pos_bound T0 (2 ^ k) ltac:(lia)) as B0. pose proof (Z.div_mod L (2 ^ k) ltac:(lia)) as DL.
  rewrite HLk in DL.
  assert (T1 mod 2 ^ 32 = (L + (T1 - T0)) mod 2 ^ 32) as HT1
    by (unfold L; rewrite Zplus_mod_idemp_l; f_equal; lia).
  enough ((if L - T0 mod 2 ^ k + T1 mod 2 ^ k <? L then u32 (L - T0 mod 2 ^ k + T1 mod 2 ^ k + (2 ^ k - 1) + 1)
    else L - T0 mod 2 ^ k + T1 mod 2 ^ k) = T1 mod 2 ^ 32) as -> by done.
  destruct (Z.lt_ge_cases (T0 mod 2 ^ k + (T1 - T0)) (2 ^ k)).
  - assert (T1 mod 2 ^ k = T0 mod 2 ^ k + (T1 - T0)) as E
      by (symmetry; apply (Z.mod_unique _ _ (T0 / 2 ^ k)); lia).
    rewrite E. rewrite (proj2 (Z.ltb_ge _ _)) by lia. 
    assert (L / 2 ^ k < 2 ^ (32 - k)) by (apply Z.div_lt_upper_bound; lia).
    assert (2 ^ k * (L / 2 ^ k + 1) <= 2 ^ k * 2 ^ (32 - k)) by (apply Z.mul_le_mono_nonneg_l; lia).
    rewrite HT1, (Z.mod_small (L + _)) by lia. ring.
  - assert (T1 mod 2 ^ k = T0 mod 2 ^ k + (T1 - T0) - 2 ^ k) as E
      by (symmetry; apply (Z.mod_unique _ _ (T0 / 2 ^ k + 1)); lia).
    rewrite E. rewrite (proj2 (Z.ltb_lt _ _)) by lia. rewrite HT1. unfold wrap. f_equal. lia.
Qed.

Lemma scale_spec n sh t :
  0 <= t <= 2 ^ (24 + Z.of_nat n) -> t < 2 ^ 64 - 1 -> 0 <= sh < 256 ->
  exists k t', scale_tsc n sh t = (u8 (sh + k), t') /\ 0 <= k <= Z.of_nat n /\
    0 <= t' <= 2 ^ 24 /\ (k < Z.of_nat n -> t' < 2 ^ 24) /\ t <= t' * 2 ^ k < t + 2 ^ k.
Proof.
  revert sh t. induction n as [|n IH]; intros sh t Ht H64 Hsh; cbn [scale_tsc].
  { exists 0, t. rewrite Z.add_0_r, (wrap_small 8) by lia. replace (24 + Z.of_nat 0) with 24 in Ht by lia.
    repeat split; lia. }
  change (Z.shiftl 1 24) with (2 ^ 24). destruct (Z.leb_spec (2 ^ 24) t) as [Hge|Hlt].
  2: { exists 0, t. rewrite Z.add_0_r, (wrap_small 8) by lia. repeat split; lia. }
  rewrite (wrap_small 64), Z.shiftr_div_pow2 by lia. change (2 ^ 1) with 2. set (t1 := (t + 1) / 2).
  assert (t <= 2 * t1 <= t + 1) as H1 by (unfold t1; pose proof (Z.div_mod (t + 1) 2); pose proof (Z.mod_pos_bound (t + 1) 2); lia).
  replace (24 + Z.of_nat (S n)) with (1 + (24 + Z.of_nat n)) in Ht by lia. rewrite Z.pow_add_r in Ht by lia.
  destruct (IH (u8 (sh + 1)) t1) as (k & t' & -> & Hk & Ht' & Hlt' & Hr); [lia|lia|apply wrap_range; lia|].
  exists (1 + k), t'. rewrite Z.pow_add_r by lia. change (2 ^ 1) with 2. split; [|repeat split; lia].
  f_equal. unfold wrap. rewrite Zplus_mod_idemp_l. f_equal. lia.
Qed.

(** * Properties *)

(** Reading the real-time clock: in each of its four modes (BCD or binary, 12 or
    24 hours), once an update in progress ends, two reads give the same time and
    [rtc_now] returns the seconds of the date and time the registers show. *)
Theorem rtc_now_correct {D} `{CL : CmosLaws D} mktime fuel n d t binary mode24 :
  shows binary mode24 t (cmos d) -> valid_tm t -> (uip d < fuel)%nat -> (2 <= n)%nat ->
  exists d', rtc_now mktime fuel n d = Some (mktime t, d').
Proof.
  intros Hs Hv Hf Hn. destruct n as [|[|n]]; try lia. unfold rtc_now. cbn [rtc_now_loop].
  destruct (read_time_spec mktime fuel d t binary mode24 Hs Hv Hf) as (d1 & E1 & Hc1 & Hu1).
  rewrite (bind_some _ _ _ _ _ E1). destruct (mktime t =? 0); [by exists d1|].
  assert (shows binary mode24 t (cmos d1)) as Hs1 by (destruct Hs; split; rewrite ?Hc1; done).
  destruct (read_time_spec mktime fuel d1 t binary mode24 Hs1 Hv ltac:(lia)) as (d2 & E2 & _).
  rewrite (bind_some _ _ _ _ _ E2), Z.eqb_refl. by exists d2.
Qed.

(** A clock in BCD and 12-hour mode that shows 23:59:58 on 2020-02-29, and finishes
    an update during the first two reads of status A. *)
Definition demo_cmos (r : Z) : Z :=
  if r =? RTC_SEC then 0x58 else if r =? RTC_MIN then 0x59 else if r =? RTC_HOUR then 0x91
  else if r =? RTC_MDAY then 0x29 else if r =? RTC_MON then 0x02 else if r =? RTC_YEAR then 0x20 else 0.
Definition demo_clock : Type := Z * nat.
#[local] Instance demo_clock_devices : Devices demo_clock := {|
  readl a d := (0, d); writel a v d := d; rdmsr r d := (0, 0, d); wrmsr r a e d := d;
  cpuid l := Info 0 0 0 0;
  inb p d := if negb (p =? 0x71) then (0, d)
             else if fst d =? RTC_STATUS_A then (if (0 <? snd d)%nat then 0x80 else 0, (fst d, Nat.pred (snd d)))
             else (demo_cmos (fst d), d);
  outb v p d := if p =? 0x70 then (v, snd d) else d;
  inw p d := (0, d); outw v p d := d; inl p d := (0, d); outl v p d := d; rdtscll d := (0, d);
|}.
#[local] Instance demo_clock_cmos : Cmos demo_clock := {| cmos_index := fst; cmos d := demo_cmos; uip := snd |}.
#[local] Instance demo_clock_laws : CmosLaws demo_clock.
Proof.
  split; intros; cbn in *; try done.
  - by rewrite (proj2 (Z.eqb_neq _ _)).
  - rewrite H, Z.eqb_refl. by destruct (snd d).
Qed.

Lemma rtc_now_correct_witness :
  exists d', rtc_now tm_hour 3 2 (0, 2%nat) = Some (23, d').
Proof.
  apply (rtc_now_correct tm_hour 3 2 (0, 2%nat) (Tm 58 59 23 29 1 120) false false);
    [by split|split; cbn; lia|cbn; lia|lia].
Defined.

(** A counter of [k] bits is extended to 32: if [TimerLast] is the time modulo
    2^32 and less than a period of the counter has passed since, the adjusted
    reading is the new time modulo 2^32, across the wrap of the counter and of the
    32-bit word, and becomes [TimerLast]. *)
Theorem timer_adjust_extends {D} k v T0 T1 (g : timer_glob) (d : D) :
  0 < k < 32 -> TimerLast g = T0 mod 2 ^ 32 -> v mod 2 ^ k = T1 mod 2 ^ k -> T0 <= T1 < T0 + 2 ^ k ->
  exists g', timer_adjust_bits v (2 ^ k - 1) (g, d) = Some (T1 mod 2 ^ 32, (g', d)) /\
    TimerLast g' = T1 mod 2 ^ 32.
Proof. intros Hk Hl Hv HT. eexists. split; [by eapply adjust_spec|done]. Qed.

Lemma timer_adjust_extends_witness :
  exists g', timer_adjust_bits 0x100 (2 ^ 24 - 1) (TimerGlob 0 0 0 0xffffff00, tt) = Some (0x100, (g', tt)) /\
    TimerLast g' = 0x100.
Proof.
  apply (timer_adjust_extends 24 0x100 0xffffff00 0x100000100); [lia|reflexivity|reflexivity|lia].
Defined.

(** Calibrating the time stamp counter: the scaling loop ends with a rate below
    2^24 that is the measured rate divided by 2^k and rounded up, and adds [k] to the
    shift applied to every later reading. *)
Theorem tsc_scale_rounds_up shift t :
  0 <= t < 2 ^ 64 - 1 -> 0 <= shift < 256 ->
  exists k t', scale_tsc 64 shift t = (u8 (shift + k), t') /\ 0 <= k /\ 0 <= t' < 2 ^ 24 /\
    t <= t' * 2 ^ k < t + 2 ^ k.
Proof.
  intros Ht Hs. destruct (scale_spec 64 shift t) as (k & t' & E & Hk & Ht' & Hlt & Hr); [lia..|].
  exists k, t'. split; [done|]. repeat split; try lia.
  destruct (decide (k < 64)) as [|]; [by apply Hlt|]. replace k with 64 in Hr by lia. lia.
Qed.

Lemma tsc_scale_rounds_up_witness :
  exists k t', scale_tsc 64 0 8948862500 = (u8 (0 + k), t') /\ 0 <= k /\ 0 <= t' < 2 ^ 24 /\
    8948862500 <= t' * 2 ^ k < 8948862500 + 2 ^ k.
Proof. apply (tsc_scale_rounds_up 0 8948862500); lia. Defined.
