(* ===== verification/Smm.v ===== *)
(** System management mode: PCI configuration accesses (hw/pci.c, hw/pcidevice.c), the
    SMI handler and the relocation of SMBASE (fw/smm.c), with the delivery of an SMI
    as the processor documents it, and the parts of the chipset that decide about it. *)

From Stdlib Require Import ZArith Lia Bool.
From stdpp Require Import base list.
From S2P Require Import Prelude Hw Apic.

(** * PCI configuration space *)

Definition PORT_PCI_CMD : Z := 0xcf8.
Definition PORT_PCI_DATA : Z := 0xcfc.

Section Pci.
Context {D : Type} {Dev : Devices D}.

(** [0x80000000 | (bdf << 8) | (addr & 0xfc)] *)
Definition pci_address (bdf addr : Z) : Z := Z.lor (Z.lor 0x80000000 (Z.shiftl bdf 8)) (Z.land addr 0xfc).

Definition pci_config_writel (bdf addr val : Z) : prog D unit :=
  let* _ := wr (outl (pci_address bdf addr) PORT_PCI_CMD) in wr (outl val PORT_PCI_DATA).
Definition pci_config_writew (bdf addr val : Z) : prog D unit :=
  let* _ := wr (outl (pci_address bdf addr) PORT_PCI_CMD) in wr (outw val (PORT_PCI_DATA + Z.land addr 2)).
Definition pci_config_writeb (bdf addr val : Z) : prog D unit :=
  let* _ := wr (outl (pci_address bdf addr) PORT_PCI_CMD) in wr (outb val (PORT_PCI_DATA + Z.land addr 3)).
Definition pci_config_readl (bdf addr : Z) : prog D Z :=
  let* _ := wr (outl (pci_address bdf addr) PORT_PCI_CMD) in rd (inl PORT_PCI_DATA).
Definition pci_config_readw (bdf addr : Z) : prog D Z :=
  let* _ := wr (outl (pci_address bdf addr) PORT_PCI_CMD) in rd (inw (PORT_PCI_DATA + Z.land addr 2)).
Definition pci_config_readb (bdf addr : Z) : prog D Z :=
  let* _ := wr (outl (pci_address bdf addr) PORT_PCI_CMD) in rd (inb (PORT_PCI_DATA + Z.land addr 3)).
Definition pci_config_maskw (bdf addr off on : Z) : prog D unit :=
  let* val := pci_config_readw bdf addr in
  pci_config_writew bdf addr (u16 (Z.lor (Z.land val (u16 (Z.lnot off))) on)).
End Pci.

Record pci_device := PciDevice { bdf : Z; vendor : Z; device : Z }.

(** The first entry of [PCIDevices] with the given ids. *)
Fixpoint pci_find_device (PCIDevices : list pci_device) (vendid devid : Z) : option pci_device :=
  match PCIDevices with
  | [] => None
  | pci :: rest =>
      if (vendor pci =? vendid) && (device pci =? devid) then Some pci else pci_find_device rest vendid devid
  end.

(** * Constants of the firmware *)

Definition PCI_VENDOR_ID_INTEL : Z := 0x8086.
Definition PCI_DEVICE_ID_INTEL_82441 : Z := 0x1237.
Definition PCI_DEVICE_ID_INTEL_82371AB_3 : Z := 0x7113.
Definition PCI_DEVICE_ID_INTEL_Q35_MCH : Z := 0x29c0.
Definition PCI_DEVICE_ID_INTEL_ICH9_LPC : Z := 0x2918.
Definition PCI_DEVICE_ID : Z := 0x02.
Definition I440FX_SMRAM : Z := 0x72.
Definition PIIX_DEVACTB : Z := 0x58.
Definition PIIX_DEVACTB_APMC_EN : Z := Z.shiftl 1 25.
Definition PIIX_PMIO_GLBCTL : Z := 0x28.
Definition PIIX_PMIO_GLBCTL_SMI_EN : Z := 1.
Definition Q35_HOST_BRIDGE_SMRAM : Z := 0x9d.
Definition ICH9_LPC_GEN_PMCON_1 : Z := 0xa0.
Definition ICH9_LPC_GEN_PMCON_1_SMI_LOCK : Z := Z.shiftl 1 4.
Definition ICH9_PMIO_SMI_EN : Z := 0x30.
Definition ICH9_PMIO_SMI_EN_APMC_EN : Z := Z.shiftl 1 5.
Definition ICH9_PMIO_SMI_EN_GLB_SMI_EN : Z := Z.shiftl 1 0.
Definition PORT_SMI_CMD : Z := 0xb2.
Definition PORT_SMI_STATUS : Z := 0xb3.
Definition PORT_A20 : Z := 0x92.
Definition A20_ENABLE_BIT : Z := 0x02.
Definition BUILD_BIOS_ADDR : Z := 0xf0000.
Definition BUILD_SMM_INIT_ADDR : Z := 0x30000.
Definition BUILD_SMM_ADDR : Z := 0xa0000.
Definition SEG_BIOS : Z := 0xf000.
Definition CALL32SMM_CMDID : Z := 0xb5.
Definition CALL32SMM_ENTERID : Z := 0x1234.
Definition CALL32SMM_RETURNID : Z := 0x5678.
Definition SMM_REV_MASK : Z := 0x0002ffff.
Definition SMM_REV_I32 : Z := 0x00020000.
Definition SMM_REV_I64 : Z := 0x00020064.

(** [struct smm_state], by the offsets of its fields in the two formats, and
    [struct smm_layout]. *)
Definition sizeof_smm_state : nat := 0x200.
Definition i32_smm_base : Z := 0xf8.
Definition i32_smm_rev : Z := 0xfc.
Definition i32_eax : Z := 0x1d0.
Definition i32_ecx : Z := 0x1d4.
Definition i32_eip : Z := 0x1f0.
Definition i64_smm_base : Z := 0x100.
Definition i64_rip : Z := 0x178.
Definition i64_rdi : Z := 0x1c0.
Definition i64_rcx : Z := 0x1f0.
Definition backup1 : Z := 0.
Definition backup2 : Z := 0x200.
Definition backup_a20 : Z := 0x400.
Definition codeentry : Z := 0x8000.
Definition cpu : Z := 0xfe00.

Ltac unfold_layout :=
  unfold sizeof_smm_state, backup1, backup2, backup_a20, codeentry, cpu, BUILD_SMM_ADDR, BUILD_SMM_INIT_ADDR in *.

(** The machine, the variables of the firmware, and the SMBASE of the processor. *)
Record bios (D R G : Type) := Bios {
  b_machine : machine D R G; HaveSmmCall32 : Z; acpi_pm_base : Z;
  SMMISADeviceBDF : Z; SMMPMDeviceBDF : Z; smbase : Z;
}.
Global Arguments Bios {D R G}.
Global Arguments b_machine {D R G}.
Global Arguments HaveSmmCall32 {D R G}.
Global Arguments acpi_pm_base {D R G}.
Global Arguments SMMISADeviceBDF {D R G}.
Global Arguments SMMPMDeviceBDF {D R G}.
Global Arguments smbase {D R G}.

(** What software can see of the chipset: the command and status ports of advanced
    power management, the A20 gate, the selected PCI register, the SMRAM control
    register of the host bridge, and whether a write to the command port is an SMI
    source, whether SMIs are on at all, and whether that is locked. *)
Record chip := Chip {
  c_cmd : Z; c_status : Z; c_a20 : bool; c_select : Z; c_smram : Z; c_apmc : bool; c_glb : bool; c_lock : bool;
}.
Class Chipset (D : Type) {H : Devices D} := chipset : D -> chip.
Definition apm_cmd `{Chipset D} (d : D) : Z := c_cmd (chipset d).
Definition a20 `{Chipset D} (d : D) : bool := c_a20 (chipset d).
(** The bits D_OPEN (the window on SMRAM is open to code outside SMM) and G_SMRAME
    (SMRAM is there at all). *)
Definition smram_open (c : chip) : bool := Z.testbit (c_smram c) 6.
Definition smram_enabled (c : chip) : bool := Z.testbit (c_smram c) 3.

Section Smm.
Context {D R G : Type} {Dev : Devices D} {Chp : Chipset D}.
(** The options of the build, the address of [entry_smi], and the supervisor. *)
Context (CONFIG_USE_SMM CONFIG_CALL32_SMM : bool) (entry_smi : Z).
Context (supervisor : prog (machine D R G) unit).
Abbreviation bios := (bios D R G).

Definition lift {A} (p : prog (machine D R G) A) : prog bios A :=
  fun s => match p (b_machine s) with
    | Some (a, m) => Some (a, Bios m (HaveSmmCall32 s) (acpi_pm_base s) (SMMISADeviceBDF s) (SMMPMDeviceBDF s) (smbase s))
    | None => None
    end.
Definition bdev {A} (p : prog D A) : prog bios A := lift (on_dev p).
Definition bmem (f : mem -> mem) : prog bios unit := lift (on_mem f).
Definition bread {A} (f : mem -> A) : prog bios A := gets (fun s => f (m_mem (b_machine s))).

Definition set_a20 (cond : Z) : prog D Z :=
  let* val := rd (inb PORT_A20) in
  let a20_enabled := negb (Z.land val A20_ENABLE_BIT =? 0) in
  let* _ := when (negb (eqb a20_enabled (negb (cond =? 0)))) (wr (outb (Z.lxor val A20_ENABLE_BIT) PORT_A20)) in
  ret (Z.b2z a20_enabled).

(** The call branch, for the format whose [n] bytes of registers start at offset
    [regs_at] and whose program counter has [pcn] bytes at [pc_at]. *)
Definition call32_enter (smm regs_at : Z) (n : nat) (pc_at : Z) (pcn : nat) (pc : Z) : prog bios unit :=
  let* regs := bread (fun m => load m (smm + cpu + regs_at) n) in
  let* _ := bmem (fun m => memcpy m (smm + backup2) (smm + cpu) sizeof_smm_state) in
  let* _ := bmem (fun m => memcpy m (smm + cpu) (smm + backup1) sizeof_smm_state) in
  let* _ := bmem (fun m => store m (smm + cpu + regs_at) regs) in
  let* _ := bmem (fun m => store_le m (smm + cpu + pc_at) pcn pc) in
  let* a20 := bdev (set_a20 1) in
  bmem (fun m => store_le m (smm + backup_a20) 4 a20).

(** The return branch. *)
Definition call32_return (smm regs_at : Z) (n : nat) (pc_at : Z) (pcn : nat) (pc : Z) : prog bios unit :=
  let* regs := bread (fun m => load m (smm + cpu + regs_at) n) in
  let* _ := bmem (fun m => memcpy m (smm + cpu) (smm + backup2) sizeof_smm_state) in
  let* _ := bmem (fun m => store m (smm + cpu + regs_at) regs) in
  let* a20 := bread (fun m => load_le m (smm + backup_a20) 4) in
  let* _ := when (a20 =? 0) (let* _ := bdev (set_a20 0) in ret tt) in
  bmem (fun m => store_le m (smm + cpu + pc_at) pcn pc).

Definition handle_smi (cs : Z) : prog bios unit :=
  if negb CONFIG_USE_SMM then ret tt else
  let* cmd := bdev (rd (inb PORT_SMI_CMD)) in
  let smm := Z.shiftl cs 4 in
  let* rev := bread (fun m => Z.land (load_le m (smm + cpu + i32_smm_rev) 4) SMM_REV_MASK) in
  let* _ := when (0xa0 =? cmd) (lift supervisor) in
  if smm =? BUILD_SMM_INIT_ADDR then
    if negb ((rev =? SMM_REV_I32) || (rev =? SMM_REV_I64)) then ret tt else
    let* _ := bmem (fun m => store_le m (smm + cpu + (if rev =? SMM_REV_I32 then i32_smm_base else i64_smm_base))
                               4 BUILD_SMM_ADDR) in
    let* _ := bdev (wr (outb 0 PORT_SMI_STATUS)) in
    when CONFIG_CALL32_SMM
      (let* _ := bmem (fun m => memcpy m (BUILD_SMM_ADDR + backup1) (smm + cpu) sizeof_smm_state) in
       let* _ := bmem (fun m => memcpy m (BUILD_SMM_ADDR + backup2) (smm + cpu) sizeof_smm_state) in
       modify (fun s => Bios (b_machine s) 1 (acpi_pm_base s) (SMMISADeviceBDF s) (SMMPMDeviceBDF s) (smbase s)))
  else if CONFIG_CALL32_SMM && (cmd =? CALL32SMM_CMDID) then
    if rev =? SMM_REV_I32 then
      let* ecx := bread (fun m => load_le m (smm + cpu + i32_ecx) 4) in
      let* pc := bread (fun m => load_le m (smm + cpu + i32_eax + 3 * 4) 4) in
      if ecx =? CALL32SMM_ENTERID then call32_enter smm i32_eax 32 i32_eip 4 pc
      else if ecx =? CALL32SMM_RETURNID then call32_return smm i32_eax 32 i32_eip 4 pc
      else ret tt
    else if rev =? SMM_REV_I64 then
      let* rcx := bread (fun m => load_le m (smm + cpu + i64_rcx) 8) in
      let* rbx := bread (fun m => load_le m (smm + cpu + i64_rdi + 4 * 8) 8) in
      if u32 rcx =? CALL32SMM_ENTERID then call32_enter smm i64_rdi 64 i64_rip 8 (u32 rbx)
      else if u32 rcx =? CALL32SMM_RETURNID then call32_return smm i64_rdi 64 i64_rip 8 (u32 rbx)
      else ret tt
    else ret tt
  else ret tt.

(** ** Relocation *)

Definition SMI_INSN : Z :=
  Z.lor (Z.lor 0xeac88c (u64 (Z.shiftl SEG_BIOS 40))) (u64 (Z.shiftl (u32 (entry_smi - BUILD_BIOS_ADDR)) 24)).

(** An access to SMRAM by code outside SMM: with the window closed it goes to the
    display adapter, which is not modelled. *)
Definition smram (f : mem -> mem) : prog bios unit :=
  let* open := gets (fun s => smram_open (chipset (m_dev (b_machine s)))) in
  if open then bmem f else stuck.

Definition smm_save_and_copy : prog bios unit :=
  let* _ := smram (fun m => memcpy m (BUILD_SMM_ADDR + cpu) (BUILD_SMM_INIT_ADDR + cpu) sizeof_smm_state) in
  let* _ := smram (fun m => memcpy m (BUILD_SMM_ADDR + codeentry) (BUILD_SMM_INIT_ADDR + codeentry) 8) in
  bmem (fun m => store_le m (BUILD_SMM_INIT_ADDR + codeentry) 8 SMI_INSN).

(** [raise] is what the chipset does when the command port is written; [fuel]
    bounds the wait on the status port. *)
Definition smm_relocate_and_restore (raise : prog bios unit) (fuel : nat) : prog bios unit :=
  let* _ := bdev (wr (outb 1 PORT_SMI_STATUS)) in
  let* _ := bdev (wr (outb 0 PORT_SMI_CMD)) in
  let* _ := raise in
  let* _ := bdev (while fuel (let* v := rd (inb PORT_SMI_STATUS) in ret (negb (v =? 0))) (ret tt)) in
  let* _ := smram (fun m => memcpy m (BUILD_SMM_INIT_ADDR + cpu) (BUILD_SMM_ADDR + cpu) sizeof_smm_state) in
  let* _ := smram (fun m => memcpy m (BUILD_SMM_INIT_ADDR + codeentry) (BUILD_SMM_ADDR + codeentry) 8) in
  smram (fun m => store_le m (BUILD_SMM_ADDR + codeentry) 8 SMI_INSN).

Definition piix4_apmc_smm_setup (raise : prog bios unit) (fuel : nat) (isabdf i440_bdf : Z) : prog bios unit :=
  let* value := bdev (pci_config_readl isabdf PIIX_DEVACTB) in
  if negb (Z.land value PIIX_DEVACTB_APMC_EN =? 0) then ret tt else
  let* _ := bdev (pci_config_writeb i440_bdf I440FX_SMRAM (Z.lor 0x02 0x48)) in
  let* _ := smm_save_and_copy in
  let* _ := bdev (pci_config_writel isabdf PIIX_DEVACTB (Z.lor value PIIX_DEVACTB_APMC_EN)) in
  let* pm := gets acpi_pm_base in
  let* value := bdev (rd (inl (pm + PIIX_PMIO_GLBCTL))) in
  let* _ := bdev (wr (outl (Z.lor value PIIX_PMIO_GLBCTL_SMI_EN) (pm + PIIX_PMIO_GLBCTL))) in
  let* _ := smm_relocate_and_restore raise fuel in
  bdev (pci_config_writeb i440_bdf I440FX_SMRAM (Z.lor 0x02 0x08)).

Definition ich9_lpc_apmc_smm_setup (raise : prog bios unit) (fuel : nat) (isabdf mch_bdf : Z) : prog bios unit :=
  let* pm := gets acpi_pm_base in
  let* value := bdev (rd (inl (pm + ICH9_PMIO_SMI_EN))) in
  if negb (Z.land value ICH9_PMIO_SMI_EN_APMC_EN =? 0) then ret tt else
  let* _ := bdev (pci_config_writeb mch_bdf Q35_HOST_BRIDGE_SMRAM (Z.lor 0x02 0x48)) in
  let* _ := smm_save_and_copy in
  let* _ := bdev (wr (outl (Z.lor (Z.lor value ICH9_PMIO_SMI_EN_APMC_EN) ICH9_PMIO_SMI_EN_GLB_SMI_EN)
                       (pm + ICH9_PMIO_SMI_EN))) in
  let* value := bdev (pci_config_readw isabdf ICH9_LPC_GEN_PMCON_1) in
  let* _ := bdev (pci_config_writel isabdf ICH9_LPC_GEN_PMCON_1 (Z.lor value ICH9_LPC_GEN_PMCON_1_SMI_LOCK)) in
  let* _ := smm_relocate_and_restore raise fuel in
  bdev (pci_config_writeb mch_bdf Q35_HOST_BRIDGE_SMRAM (Z.lor 0x02 0x08)).

Definition set_bdfs (isapci pmpci : pci_device) (s : bios) : bios :=
  Bios (b_machine s) (HaveSmmCall32 s) (acpi_pm_base s) (bdf isapci) (bdf pmpci) (smbase s).

Definition smm_device_setup (PCIDevices : list pci_device) : prog bios unit :=
  if negb CONFIG_USE_SMM then ret tt else
  match pci_find_device PCIDevices PCI_VENDOR_ID_INTEL PCI_DEVICE_ID_INTEL_82371AB_3,
        pci_find_device PCIDevices PCI_VENDOR_ID_INTEL PCI_DEVICE_ID_INTEL_82441 with
  | Some isapci, Some pmpci => modify (set_bdfs isapci pmpci)
  | _, _ =>
      match pci_find_device PCIDevices PCI_VENDOR_ID_INTEL PCI_DEVICE_ID_INTEL_ICH9_LPC,
            pci_find_device PCIDevices PCI_VENDOR_ID_INTEL PCI_DEVICE_ID_INTEL_Q35_MCH with
      | Some isapci, Some pmpci => modify (set_bdfs isapci pmpci)
      | _, _ => ret tt
      end
  end.

Definition smm_setup (raise : prog bios unit) (fuel : nat) : prog bios unit :=
  let* isa := gets SMMISADeviceBDF in
  let* pm := gets SMMPMDeviceBDF in
  if negb CONFIG_USE_SMM || (isa <? 0) then ret tt else
  let* device := bdev (pci_config_readw isa PCI_DEVICE_ID) in
  if device =? PCI_DEVICE_ID_INTEL_82371AB_3 then piix4_apmc_smm_setup raise fuel isa pm
  else ich9_lpc_apmc_smm_setup raise fuel isa pm.

(** * Delivery of an SMI *)

(** The processor writes its state [image] to the save area, runs the code at the
    entry point of SMBASE, which must be the jump to [entry_smi], and on RSM takes
    SMBASE from the save area. The handler uses SMRAM, which must be enabled. *)
Definition smi (image : list Z) : prog bios unit :=
  let* enabled := gets (fun s => smram_enabled (chipset (m_dev (b_machine s)))) in
  if negb enabled then stuck else
  let* base := gets smbase in
  let* _ := bmem (fun m => store m (base + cpu) image) in
  let* entry := bread (fun m => load m (base + codeentry) 8) in
  if negb (bool_decide (entry = le_bytes 8 SMI_INSN)) then stuck else
  let* _ := handle_smi (Z.shiftr base 4) in
  let* rev := bread (fun m => Z.land (load_le m (base + cpu + i32_smm_rev) 4) SMM_REV_MASK) in
  let* new := bread (fun m => load_le m (base + cpu + (if rev =? SMM_REV_I32 then i32_smm_base else i64_smm_base)) 4) in
  modify (fun s => Bios (b_machine s) (HaveSmmCall32 s) (acpi_pm_base s) (SMMISADeviceBDF s) (SMMPMDeviceBDF s) new).

(** The chipset turns a write to the command port into an SMI when both the source
    and SMIs as a whole are on. *)
Definition deliver (image : list Z) : prog bios unit :=
  let* on := gets (fun s => let c := chipset (m_dev (b_machine s)) in c_apmc c && c_glb c) in
  when on (smi image).
End Smm.

(** * The chipset *)

Definition with_cmd v c := Chip v (c_status c) (c_a20 c) (c_select c) (c_smram c) (c_apmc c) (c_glb c) (c_lock c).
Definition with_status v c := Chip (c_cmd c) v (c_a20 c) (c_select c) (c_smram c) (c_apmc c) (c_glb c) (c_lock c).
Definition with_a20 b c := Chip (c_cmd c) (c_status c) b (c_select c) (c_smram c) (c_apmc c) (c_glb c) (c_lock c).
Definition with_select v c := Chip (c_cmd c) (c_status c) (c_a20 c) v (c_smram c) (c_apmc c) (c_glb c) (c_lock c).
Definition with_smram v c := Chip (c_cmd c) (c_status c) (c_a20 c) (c_select c) v (c_apmc c) (c_glb c) (c_lock c).
Definition with_smis a g c := Chip (c_cmd c) (c_status c) (c_a20 c) (c_select c) (c_smram c) a g (c_lock c).
Definition with_lock l c := Chip (c_cmd c) (c_status c) (c_a20 c) (c_select c) (c_smram c) (c_apmc c) (c_glb c) l.

(** The command and status ports read back what was written; bit 1 of port 92h is
    the A20 gate, and bit 0, which reads as zero, resets the processor when set. *)
Class ApmLaws (D : Type) `{Chipset D} : Prop := {
  in_cmd d : fst (inb PORT_SMI_CMD d) = c_cmd (chipset d) /\ chipset (snd (inb PORT_SMI_CMD d)) = chipset d;
  in_status d : fst (inb PORT_SMI_STATUS d) = c_status (chipset d) /\
    chipset (snd (inb PORT_SMI_STATUS d)) = chipset d;
  in_a20 d : Z.testbit (fst (inb PORT_A20 d)) 1 = c_a20 (chipset d) /\ Z.testbit (fst (inb PORT_A20 d)) 0 = false /\
    chipset (snd (inb PORT_A20 d)) = chipset d;
  out_cmd v d : chipset (outb v PORT_SMI_CMD d) = with_cmd v (chipset d);
  out_status v d : chipset (outb v PORT_SMI_STATUS d) = with_status v (chipset d);
  out_a20 v d : Z.testbit v 0 = false -> chipset (outb v PORT_A20 d) = with_a20 (Z.testbit v 1) (chipset d);
}.

(** The board: which of the two chipsets it has, where its ISA bridge and its host
    bridge are on the PCI bus, and the I/O base of its power management. *)
Record board := Board { piix : bool; isa_bdf : Z; host_bdf : Z; pm_base : Z }.
Definition device_id (hw : board) : Z := if piix hw then 0x7113 else 0x2918.
Definition smram_at (hw : board) : Z := if piix hw then 0x72 else 0x9d.

(** The registers of the two chipsets that the setup uses. The SMRAM control register
    keeps what is written unless bit 4 (D_LCK) is set. On the PIIX4, bit 25 of DEVACTB
    makes the command port a source of SMIs and bit 0 of GLBCTL turns SMIs on; on the
    ICH9, bits 5 and 0 of SMI_EN do, and bit 4 of GEN_PMCON_1, once set, locks them. *)
Class BoardLaws (hw : board) (D : Type) `{Chipset D} : Prop := {
  out_select v d : chipset (outl v 0xcf8 d) = with_select v (chipset d);
  in_device d : c_select (chipset d) = pci_address (isa_bdf hw) 0 ->
    fst (inw 0xcfe d) = device_id hw /\ chipset (snd (inw 0xcfe d)) = chipset d;
  out_smram v d : c_select (chipset d) = pci_address (host_bdf hw) (smram_at hw) ->
    Z.testbit (c_smram (chipset d)) 4 = false ->
    chipset (outb v (0xcfc + Z.land (smram_at hw) 3) d) = with_smram v (chipset d);
  in_devactb d : piix hw = true -> c_select (chipset d) = pci_address (isa_bdf hw) 0x58 ->
    Z.testbit (fst (inl 0xcfc d)) 25 = c_apmc (chipset d) /\ chipset (snd (inl 0xcfc d)) = chipset d;
  out_devactb v d : piix hw = true -> c_select (chipset d) = pci_address (isa_bdf hw) 0x58 ->
    chipset (outl v 0xcfc d) = with_smis (Z.testbit v 25) (c_glb (chipset d)) (chipset d);
  in_glbctl d : piix hw = true ->
    Z.testbit (fst (inl (pm_base hw + 0x28) d)) 0 = c_glb (chipset d) /\
    chipset (snd (inl (pm_base hw + 0x28) d)) = chipset d;
  out_glbctl v d : piix hw = true ->
    chipset (outl v (pm_base hw + 0x28) d) = with_smis (c_apmc (chipset d)) (Z.testbit v 0) (chipset d);
  in_smi_en d : piix hw = false ->
    Z.testbit (fst (inl (pm_base hw + 0x30) d)) 5 = c_apmc (chipset d) /\
    Z.testbit (fst (inl (pm_base hw + 0x30) d)) 0 = c_glb (chipset d) /\
    chipset (snd (inl (pm_base hw + 0x30) d)) = chipset d;
  out_smi_en v d : piix hw = false -> c_lock (chipset d) = false ->
    chipset (outl v (pm_base hw + 0x30) d) = with_smis (Z.testbit v 5) (Z.testbit v 0) (chipset d);
  in_pmcon d : piix hw = false -> c_select (chipset d) = pci_address (isa_bdf hw) 0xa0 ->
    Z.testbit (fst (inw 0xcfc d)) 4 = c_lock (chipset d) /\ chipset (snd (inw 0xcfc d)) = chipset d;
  out_pmcon v d : piix hw = false -> c_select (chipset d) = pci_address (isa_bdf hw) 0xa0 ->
    chipset (outl v 0xcfc d) = with_lock (c_lock (chipset d) || Z.testbit v 4) (chipset d);
}.

Section Chipset.
Context {D R G : Type} `{AL : ApmLaws D}.
Context (entry_smi : Z) (supervisor : prog (machine D R G) unit).
Abbreviation bios := (bios D R G).
Abbreviation handle_smi := (handle_smi true true supervisor).

Abbreviation set_machine m s :=
  (Bios m (HaveSmmCall32 s) (acpi_pm_base s) (SMMISADeviceBDF s) (SMMPMDeviceBDF s) (smbase s)).
(** The state with memory [m] and devices [d]. *)
Definition at_state (m : mem) (d : D) (s : bios) : bios := set_machine (set_mem m (set_dev d (b_machine s))) s.
Abbreviation bmm s := (m_mem (b_machine s)).
Abbreviation bdd s := (m_dev (b_machine s)).

Lemma bind_bdev {A B} (p : prog D A) (k : A -> prog bios B) m d s a d' :
  p d = Some (a, d') -> bind (bdev p) k (at_state m d s) = k a (at_state m d' s).
Proof. intros E. apply bind_some. unfold bdev, lift, on_dev. cbn. by rewrite E. Qed.

Lemma bind_bdev_last (p : prog D unit) m d s d' :
  p d = Some (tt, d') -> bdev p (at_state m d s) = Some (tt, at_state m d' s).
Proof. intros E. unfold bdev, lift, on_dev. cbn. by rewrite E. Qed.

Lemma bind_bmem {B} f (k : unit -> prog bios B) m d s :
  bind (bmem f) k (at_state m d s) = k tt (at_state (f m) d s).
Proof. done. Qed.

Lemma bind_bread {A B} (f : mem -> A) (k : A -> prog bios B) m d s :
  bind (bread f) k (at_state m d s) = k (f m) (at_state m d s).
Proof. done. Qed.

Lemma at_state_id (s : bios) : s = at_state (bmm s) (bdd s) s.
Proof. by destruct s as [[]]. Qed.

Lemma set_a20_spec c d :
  exists d', set_a20 c d = Some (Z.b2z (a20 d), d') /\ a20 d' = negb (c =? 0).
Proof.
  destruct (in_a20 d) as (H1 & H0' & Hc). unfold set_a20, rd, a20. destruct (inb PORT_A20 d) as [v d1] eqn:E.
  cbn [fst snd] in *. rewrite (bind_some _ _ _ _ _ (f_equal Some E)). change A20_ENABLE_BIT with (2 ^ 1).
  rewrite (land_pow2_test v 1) by lia. rewrite H1.
  pose proof (out_a20 (Z.lxor v (2 ^ 1)) d1 ltac:(by rewrite Z.lxor_spec, H0')) as Hb.
  rewrite Z.lxor_spec, H1 in Hb. change (Z.testbit (2 ^ 1) 1) with true in Hb.
  destruct (c_a20 (chipset d)) eqn:Ea, (negb (c =? 0)) eqn:Ec; cbn [eqb negb when];
    (eexists; split; [reflexivity|]); try congruence; by rewrite Hb.
Qed.

(** ** Calls through the SMM trampoline *)

(** Where each format of the save area holds the general registers, the program
    counter, and the low words of the two registers that carry the request. *)
Record format := Format {
  f_rev : Z; f_regs : Z; f_nregs : nat; f_pc : Z; f_npc : nat; f_request : Z; f_target : Z;
}.
Definition format32 : format := Format SMM_REV_I32 0x1d0 32 0x1f0 4 0x1d4 0x1dc.
Definition format64 : format := Format SMM_REV_I64 0x1c0 64 0x178 8 0x1f0 0x1e0.

Abbreviation SMM := BUILD_SMM_ADDR.

(** The processor raised an SMI at SMBASE [SMM] that asks for [id]. *)
Record asks (f : format) (id : Z) (s : bios) : Prop := {
  asks_bytes x : is_byte (bmm s x);
  asks_cmd : apm_cmd (bdd s) = CALL32SMM_CMDID;
  asks_rev : Z.land (load_le (bmm s) (SMM + cpu + 0xfc) 4) SMM_REV_MASK = f_rev f;
  asks_id : load_le (bmm s) (SMM + cpu + f_request f) 4 = id;
}.

(** Memory [m'] has the save area of [base], except for the registers of [m] and the
    program counter, which is the target that [m] asks for. *)
Record resumes (f : format) (base : Z -> Z) (m m' : mem) : Prop := {
  resumes_regs : load m' (SMM + cpu + f_regs f) (f_nregs f) = load m (SMM + cpu + f_regs f) (f_nregs f);
  resumes_pc : load_le m' (SMM + cpu + f_pc f) (f_npc f) = load_le m (SMM + cpu + f_target f) 4;
  resumes_rest i : 0 <= i < 0x200 -> i < f_regs f \/ f_regs f + Z.of_nat (f_nregs f) <= i ->
    i < f_pc f \/ f_pc f + Z.of_nat (f_npc f) <= i -> m' (SMM + cpu + i) = base i;
}.

(** What both branches need of a format. *)
Definition wf_format (f : format) : Prop :=
  0 <= f_regs f /\ f_regs f + Z.of_nat (f_nregs f) <= 0x200 /\
  0 <= f_pc f /\ f_pc f + Z.of_nat (f_npc f) <= 0x200 /\
  disjoint (f_regs f) (Z.of_nat (f_nregs f)) (f_pc f) (Z.of_nat (f_npc f)) /\ (4 <= f_npc f)%nat.

(** Writing the registers and the program counter over a save area. *)
Lemma resume_mem f m regs pc :
  wf_format f -> length regs = f_nregs f -> 0 <= pc < 2 ^ 32 ->
  let m' := store_le (store m (SMM + cpu + f_regs f) regs) (SMM + cpu + f_pc f) (f_npc f) pc in
  load m' (SMM + cpu + f_regs f) (f_nregs f) = regs /\ load_le m' (SMM + cpu + f_pc f) (f_npc f) = pc /\
  (forall i, i < f_regs f \/ f_regs f + Z.of_nat (f_nregs f) <= i ->
    i < f_pc f \/ f_pc f + Z.of_nat (f_npc f) <= i -> m' (SMM + cpu + i) = m (SMM + cpu + i)) /\
  frame (SMM + cpu) 0x200 m m'.
Proof.
  intros (Hr & Hr' & Hp & Hp' & Hd & Hn) HR Hpc m'. unfold disjoint in Hd.
  split; [|split; [|split]].
  - unfold m', store_le. rewrite load_store_ne, load_store_eq; [done|done|].
    rewrite length_le_bytes. unfold disjoint. lia.
  - apply load_le_store_same. pose proof (Z.pow_le_mono_r 2 32 (8 * Z.of_nat (f_npc f))). lia.
  - intros i H1 H2. unfold m', store_le. rewrite !store_out by (rewrite ?length_le_bytes; lia). done.
  - intros x Hx. unfold m', store_le. rewrite !store_out by (rewrite ?length_le_bytes; lia). done.
Qed.

Lemma enter_spec f m d s :
  wf_format f -> (forall x, is_byte (m x)) ->
  exists m' d', call32_enter SMM (f_regs f) (f_nregs f) (f_pc f) (f_npc f) (load_le m (SMM + cpu + f_target f) 4)
      (at_state m d s) = Some (tt, at_state m' d' s) /\ a20 d' = true /\
    resumes f (fun i => m (SMM + backup1 + i)) m m' /\
    load m' (SMM + backup2) 0x200 = load m (SMM + cpu) 0x200 /\
    load_le m' (SMM + backup_a20) 4 = Z.b2z (a20 d).
Proof.
  intros Hf Hm. unfold call32_enter. rewrite bind_bread, !bind_bmem.
  destruct (set_a20_spec 1 d) as (d' & E & Ha). rewrite (bind_bdev _ _ _ _ _ _ _ E). clear E.
  set (regs := load m (SMM + cpu + f_regs f) (f_nregs f)). set (pc := load_le m (SMM + cpu + f_target f) 4).
  assert (0 <= pc < 2 ^ 32) as Hpc by (apply (le_val_range (load m _ 4)); by apply bytes_load).
  set (m2 := memcpy (memcpy m (SMM + backup2) (SMM + cpu) sizeof_smm_state) (SMM + cpu) (SMM + backup1) sizeof_smm_state).
  destruct (resume_mem f m2 regs pc Hf (length_load _ _ _) Hpc) as (H1 & H2 & H3 & H4).
  set (m4 := store_le (store m2 _ regs) _ _ pc) in *.
  assert (frame (SMM + backup_a20) 4 m4 (store_le m4 (SMM + backup_a20) 4 (Z.b2z (a20 d)))) as Hfr
    by (by apply frame_store).
  exists (store_le m4 (SMM + backup_a20) 4 (Z.b2z (a20 d))), d'. split; [reflexivity|]. split; [done|].
  destruct Hf as (Hr & Hr' & Hp & Hp' & Hd & Hn). split; [split|split]; unfold_layout.
  - rewrite (frame_load _ _ _ _ _ _ Hfr); [done|]. unfold disjoint. lia.
  - unfold load_le in *. rewrite (frame_load _ _ _ _ _ _ Hfr); [done|]. unfold disjoint. lia.
  - intros i Hi H5 H6. rewrite Hfr, H3 by lia. unfold m2. mem_at. f_equal. lia.
  - apply load_shift. intros i Hi. rewrite Hfr, H4 by lia. unfold m2. mem_at. f_equal. lia.
  - apply load_le_store_same. destruct (a20 d); cbn; lia.
Qed.

Lemma return_spec f m d s b :
  wf_format f -> (forall x, is_byte (m x)) -> load_le m (SMM + backup_a20) 4 = Z.b2z b ->
  exists m' d', call32_return SMM (f_regs f) (f_nregs f) (f_pc f) (f_npc f) (load_le m (SMM + cpu + f_target f) 4)
      (at_state m d s) = Some (tt, at_state m' d' s) /\ a20 d' = b && a20 d /\
    resumes f (fun i => m (SMM + backup2 + i)) m m'.
Proof.
  intros Hf Hm Hb. unfold call32_return. rewrite bind_bread, !bind_bmem, bind_bread.
  set (regs := load m (SMM + cpu + f_regs f) (f_nregs f)). set (pc := load_le m (SMM + cpu + f_target f) 4).
  assert (0 <= pc < 2 ^ 32) as Hpc by (apply (le_val_range (load m _ 4)); by apply bytes_load).
  set (m1 := memcpy m (SMM + cpu) (SMM + backup2) sizeof_smm_state).
  destruct (resume_mem f m1 regs pc Hf (length_load _ _ _) Hpc) as (H1 & H2 & H3 & _).
  assert (load_le (store m1 (SMM + cpu + f_regs f) regs) (SMM + backup_a20) 4 = Z.b2z b) as ->.
  { rewrite <- Hb. unfold load_le. f_equal. apply load_ext. intros x Hx.
    destruct Hf as (Hr & Hr' & _). unfold m1, regs; unfold_layout. by mem_at. }
  assert (exists d', (let* _ := when (Z.b2z b =? 0) (let* _ := bdev (set_a20 0) in ret tt) in
    bmem (fun m => store_le m (SMM + cpu + f_pc f) (f_npc f) pc)) (at_state (store m1 (SMM + cpu + f_regs f) regs) d s) =
    Some (tt, at_state (store_le (store m1 (SMM + cpu + f_regs f) regs) (SMM + cpu + f_pc f) (f_npc f) pc) d' s) /\ a20 d' = b && a20 d)
    as (d' & -> & Hd').
  { destruct b; cbn [Z.b2z Z.eqb when]; [by exists d|]. rewrite bind_assoc.
    destruct (set_a20_spec 0 d) as (d' & E & Ha'). rewrite (bind_bdev _ _ _ _ _ _ _ E). by exists d'. }
  eexists _, d'. split; [reflexivity|]. split; [done|]. split; [done..|].
  intros i Hi H5 H6. rewrite H3 by done. unfold m1; unfold_layout. mem_at. f_equal. lia.
Qed.

Definition branch (f : format) (id : Z) (m : mem) : prog bios unit :=
  let pc := load_le m (SMM + cpu + f_target f) 4 in
  if id =? CALL32SMM_ENTERID then call32_enter SMM (f_regs f) (f_nregs f) (f_pc f) (f_npc f) pc
  else if id =? CALL32SMM_RETURNID then call32_return SMM (f_regs f) (f_nregs f) (f_pc f) (f_npc f) pc
  else ret tt.

Lemma dispatch f id s :
  f = format32 \/ f = format64 -> asks f id s ->
  exists d, a20 d = a20 (bdd s) /\ handle_smi 0xa000 s = branch f id (bmm s) (at_state (bmm s) d s).
Proof.
  intros Hf [Hb Hc Hr Hid]. destruct (in_cmd (bdd s)) as [Hv Hs].
  destruct (inb PORT_SMI_CMD (bdd s)) as [v d] eqn:E. cbn [fst snd] in *. exists d.
  split; [unfold a20; by rewrite Hs|]. unfold apm_cmd in Hc. rewrite (at_state_id s) at 1. unfold handle_smi, Smm.handle_smi. cbn [negb].
  rewrite (bind_bdev (rd (inb PORT_SMI_CMD)) _ (bmm s) (bdd s) s v d (f_equal Some E)), bind_bread.
  rewrite Hv, Hc. change (0xa0 =? CALL32SMM_CMDID) with false. cbn [when]. rewrite bind_ret.
  change (Z.shiftl 0xa000 4) with SMM. change (SMM =? BUILD_SMM_INIT_ADDR) with false.
  change (true && (CALL32SMM_CMDID =? CALL32SMM_CMDID)) with true. change i32_smm_rev with 0xfc. rewrite Hr.
  unfold branch. destruct Hf as [-> | ->].
  - change (f_rev format32 =? SMM_REV_I32) with true. cbv iota. rewrite !bind_bread.
    change i32_ecx with (f_request format32). rewrite Hid. done.
  - change (f_rev format64 =? SMM_REV_I32) with false. change (f_rev format64 =? SMM_REV_I64) with true.
    cbv iota. rewrite !bind_bread. change i64_rcx with (f_request format64).
    pose proof (load_le_low (bmm s) (SMM + cpu + f_request format64) 4 4 Hb) as E1. rewrite Hid in E1.
    change (wrap 32 (load_le (bmm s) (SMM + cpu + f_request format64) 8) = id) in E1. rewrite E1.
    pose proof (load_le_low (bmm s) (SMM + cpu + f_target format64) 4 4 Hb) as E2.
    change (wrap 32 (load_le (bmm s) (SMM + cpu + i64_rdi + 4 * 8) 8) = load_le (bmm s) (SMM + cpu + f_target format64) 4) in E2.
    rewrite E2. done.
Qed.

Lemma wf_formats f : f = format32 \/ f = format64 -> wf_format f.
Proof. intros [-> | ->]; unfold wf_format, disjoint; cbn; lia. Qed.

(** ** Relocation of SMBASE *)

Abbreviation INIT := BUILD_SMM_INIT_ADDR.
Abbreviation smi := (smi true true entry_smi supervisor).
Abbreviation deliver := (deliver true true entry_smi supervisor).

Definition base_field (f : format) : Z := if f_rev f =? SMM_REV_I32 then i32_smm_base else i64_smm_base.

(** The state [image] with SMBASE set to [SMM]. *)
Definition relocated (f : format) (image : list Z) : list Z :=
  take (Z.to_nat (base_field f)) image ++ le_bytes 4 SMM ++ drop (Z.to_nat (base_field f) + 4) image.

(** A saved state of the processor in format [f]. *)
Record saved_state (f : format) (image : list Z) : Prop := {
  saved_format : f = format32 \/ f = format64;
  saved_length : length image = 0x200%nat;
  saved_rev : Z.land (le_val (take 4 (drop 0xfc image))) SMM_REV_MASK = f_rev f;
}.

Lemma load_splice m a l i bs n :
  (i + length bs <= n)%nat -> length l = n ->
  load (store (store m a l) (a + Z.of_nat i) bs) a n = take i l ++ bs ++ drop (i + length bs) l.
Proof.
  intros Hi Hl. replace n with (i + (length bs + (n - i - length bs)))%nat at 1 by lia.
  rewrite !load_app. f_equal; [|f_equal].
  - rewrite load_store_ne by (unfold disjoint; lia). rewrite <- (load_store_eq m a l n ltac:(done)) at 2.
    replace n with (i + (n - i))%nat by lia. by rewrite load_app, take_app_length' by (by rewrite length_load).
  - by apply load_store_eq.
  - rewrite load_store_ne by (unfold disjoint; lia). rewrite <- (load_store_eq m a l n ltac:(done)) at 2.
    replace n with ((i + length bs) + (n - i - length bs))%nat at 2 by lia.
    rewrite load_app, drop_app_length' by (by rewrite length_load). f_equal. lia.
Qed.

Lemma rev_of_image f m image :
  saved_state f image ->
  Z.land (load_le (store m (INIT + cpu) image) (INIT + cpu + 0xfc) 4) SMM_REV_MASK = f_rev f.
Proof.
  intros [_ Hl Hr]. rewrite <- Hr. unfold load_le. do 2 f_equal.
  rewrite <- (load_store_eq m (INIT + cpu) image 0x200 ltac:(done)) at 2.
  change 0x200%nat with (0xfc + (4 + 0x100))%nat. rewrite load_app, drop_app_length' by (by rewrite length_load).
  rewrite load_app, take_app_length' by (by rewrite length_load). done.
Qed.

(** What the handler does at the initial SMBASE. *)
Lemma handle_init f image m d s :
  saved_state f image -> c_cmd (chipset d) = 0 ->
  let m1 := store_le (store m (INIT + cpu) image) (INIT + cpu + base_field f) 4 SMM in
  let m3 := memcpy (memcpy m1 (SMM + backup1) (INIT + cpu) 0x200) (SMM + backup2) (INIT + cpu) 0x200 in
  exists d', chipset d' = with_status 0 (chipset d) /\
    handle_smi 0x3000 (at_state (store m (INIT + cpu) image) d s) =
    Some (tt, Bios (b_machine (at_state m3 d' s)) 1 (acpi_pm_base s) (SMMISADeviceBDF s) (SMMPMDeviceBDF s) (smbase s)).
Proof.
  intros Hi Hc m1 m3. destruct (in_cmd d) as [Hv Hs]. destruct (inb PORT_SMI_CMD d) as [v d1] eqn:E. cbn [fst snd] in *.
  exists (outb 0 PORT_SMI_STATUS d1). split; [by rewrite out_status, Hs|].
  unfold handle_smi, Smm.handle_smi. cbn [negb].
  rewrite (bind_bdev (rd (inb PORT_SMI_CMD)) _ _ d s v d1 (f_equal Some E)), bind_bread, Hv, Hc.
  change (0xa0 =? 0) with false. cbn [when]. rewrite bind_ret. change (Z.shiftl 0x3000 4) with INIT.
  rewrite Z.eqb_refl. change i32_smm_rev with 0xfc. rewrite (rev_of_image f m image Hi).
  assert (negb ((f_rev f =? SMM_REV_I32) || (f_rev f =? SMM_REV_I64)) = false) as ->
    by (by destruct (saved_format f image Hi) as [-> | ->]).
  rewrite bind_bmem. rewrite (bind_bdev (wr (outb 0 PORT_SMI_STATUS)) _ _ d1 s tt _ eq_refl), !bind_bmem. done.
Qed.

(** The variables after the relocation. *)
Definition moved (s : bios) : bios :=
  Bios (b_machine s) 1 (acpi_pm_base s) (SMMISADeviceBDF s) (SMMPMDeviceBDF s) SMM.
Definition smi_mem (f : format) (image : list Z) (m : mem) : mem :=
  memcpy (memcpy (store_le (store m (INIT + cpu) image) (INIT + cpu + base_field f) 4 SMM)
    (SMM + backup1) (INIT + cpu) 0x200) (SMM + backup2) (INIT + cpu) 0x200.

Lemma base_field_range f image : saved_state f image -> base_field f = 0xf8 \/ base_field f = 0x100.
Proof. intros [[-> | ->] _ _]; [by left|by right]. Qed.

Lemma smi_spec f image m d s :
  saved_state f image -> c_cmd (chipset d) = 0 -> smram_enabled (chipset d) = true -> smbase s = INIT ->
  load m (INIT + codeentry) 8 = le_bytes 8 (SMI_INSN entry_smi) ->
  exists d', chipset d' = with_status 0 (chipset d) /\
    smi image (at_state m d s) = Some (tt, at_state (smi_mem f image m) d' (moved s)).
Proof.
  intros Hi Hc Hen Hb He. destruct (handle_init f image m d s Hi Hc) as (d' & Hst & E). cbv zeta in E.
  exists d'. split; [done|]. unfold smi, Smm.smi.
  rewrite (bind_some (gets _) _ (at_state m d s) true (at_state m d s)) by (unfold gets; do 2 f_equal; exact Hen).
  cbn [negb].
  rewrite (bind_some (gets smbase) _ (at_state m d s) INIT (at_state m d s)) by (unfold gets; cbn; by rewrite Hb).
  rewrite bind_bmem, bind_bread. pose proof (saved_length _ _ Hi) as Hl.
  rewrite load_store_ne, He by (rewrite Hl; unfold disjoint; unfold_layout; lia).
  rewrite bool_decide_eq_true_2 by done. cbn [negb].
  change (Z.shiftr INIT 4) with 0x3000. rewrite (bind_some _ _ _ _ _ E). clear E.
  change (Bios (b_machine (at_state ?m ?d ?s)) 1 _ _ _ (smbase s))
    with (at_state m d (Bios (b_machine s) 1 (acpi_pm_base s) (SMMISADeviceBDF s) (SMMPMDeviceBDF s) (smbase s))).
  rewrite !bind_bread. fold (smi_mem f image m). change i32_smm_rev with 0xfc.
  pose proof (base_field_range f image Hi) as Hbf.
  assert (load_le (smi_mem f image m) (INIT + cpu + 0xfc) 4 =
          load_le (store m (INIT + cpu) image) (INIT + cpu + 0xfc) 4) as ->.
  { unfold load_le. f_equal. apply load_ext. intros x Hx. unfold smi_mem, store_le; unfold_layout. by mem_at. }
  rewrite (rev_of_image f m image Hi). fold (base_field f).
  assert (load_le (smi_mem f image m) (INIT + cpu + base_field f) 4 = SMM) as ->; [|done].
  etransitivity; [|apply (load_le_store_same (store m (INIT + cpu) image) (INIT + cpu + base_field f) 4 SMM); by vm_compute].
  unfold load_le. f_equal. apply load_ext. intros x Hx. unfold smi_mem; unfold_layout. by mem_at.
Qed.

Abbreviation entry := (SMI_INSN entry_smi).
Definition save_mem (m : mem) : mem :=
  store_le (memcpy (memcpy m (SMM + cpu) (INIT + cpu) 0x200) (SMM + codeentry) (INIT + codeentry) 8)
    (INIT + codeentry) 8 entry.
Definition restore_mem (m : mem) : mem :=
  store_le (memcpy (memcpy m (INIT + cpu) (SMM + cpu) 0x200) (INIT + codeentry) (SMM + codeentry) 8)
    (SMM + codeentry) 8 entry.
Definition setup_mem (f : format) (image : list Z) (m : mem) : mem :=
  restore_mem (smi_mem f image (save_mem m)).

Lemma smram_run f m d s :
  smram_open (chipset d) = true -> smram f (at_state m d s) = Some (tt, at_state (f m) d s).
Proof.
  intros Ho. unfold smram.
  by rewrite (bind_some (gets _) _ (at_state m d s) true (at_state m d s)) by (unfold gets; do 2 f_equal; exact Ho).
Qed.

Lemma bind_smram {B} f (k : unit -> prog bios B) m d s :
  smram_open (chipset d) = true -> bind (smram f) k (at_state m d s) = k tt (at_state (f m) d s).
Proof. intros Ho. by apply bind_some, smram_run. Qed.

(** The window on SMRAM is open, SMRAM is on, and the command port raises SMIs. *)
Record ready (c : chip) : Prop := {
  ready_open : smram_open c = true;
  ready_enabled : smram_enabled c = true;
  ready_apmc : c_apmc c = true;
  ready_glb : c_glb c = true;
}.

Lemma relocate_spec f image fuel m d s :
  saved_state f image -> smbase s = INIT -> load m (INIT + codeentry) 8 = le_bytes 8 entry -> ready (chipset d) ->
  exists d', chipset d' = with_status 0 (with_cmd 0 (chipset d)) /\
    smm_relocate_and_restore entry_smi (deliver image) (S fuel) (at_state m d s) =
    Some (tt, at_state (restore_mem (smi_mem f image m)) d' (moved s)).
Proof.
  intros Hi Hb He [Ho Hen Ha Hg]. unfold smm_relocate_and_restore.
  rewrite (bind_bdev (wr (outb 1 PORT_SMI_STATUS)) _ _ d s tt _ eq_refl).
  set (d1 := outb 1 PORT_SMI_STATUS d). rewrite (bind_bdev (wr (outb 0 PORT_SMI_CMD)) _ _ d1 s tt _ eq_refl).
  pose proof (out_cmd 0 d1) as Hc. unfold d1 in Hc at 2. rewrite out_status in Hc. set (d2 := outb 0 PORT_SMI_CMD d1) in *.
  destruct (smi_spec f image m d2 s Hi) as (d3 & Hst & E); [by rewrite Hc|by rewrite Hc|done..|].
  assert (deliver image (at_state m d2 s) = Some (tt, at_state (smi_mem f image m) d3 (moved s))) as E'.
  { unfold deliver, Smm.deliver. rewrite (bind_some (gets _) _ (at_state m d2 s) true (at_state m d2 s)); [exact E|].
    unfold gets. do 2 f_equal. change (c_apmc (chipset d2) && c_glb (chipset d2) = true). rewrite Hc. cbn. by rewrite Ha, Hg. }
  rewrite (bind_some _ _ _ _ _ E'). clear E E'.
  destruct (in_status d3) as [Hv Hs]. destruct (inb PORT_SMI_STATUS d3) as [v d4] eqn:E3. cbn [fst snd] in Hv, Hs.
  rewrite Hst, Hc in Hs, Hv. exists d4. split; [by rewrite Hs|].
  rewrite (bind_bdev (while (S fuel) _ _) _ _ d3 _ tt d4) by (unfold while, rd, bind; by rewrite E3, Hv).
  assert (smram_open (chipset d4) = true) as Ho4 by (by rewrite Hs).
  rewrite !bind_smram by done. rewrite smram_run by done. reflexivity.
Qed.

Lemma setup_low f image m x :
  saved_state f image -> x < SMM \/ SMM + 0x10000 <= x -> setup_mem f image m x = m x.
Proof.
  intros Hi Hx. pose proof (saved_length _ _ Hi). pose proof (base_field_range f image Hi).
  unfold setup_mem, restore_mem, smi_mem, save_mem, store_le; unfold_layout.
  destruct (decide (0x30000 + 0xfe00 <= x < 0x30000 + 0xfe00 + 0x200)).
  { mem_at. f_equal. lia. }
  destruct (decide (0x30000 + 0x8000 <= x < 0x30000 + 0x8000 + 8)).
  { mem_at. f_equal. lia. }
  by mem_at.
Qed.

Lemma setup_entry f image m : load (setup_mem f image m) (SMM + codeentry) 8 = le_bytes 8 entry.
Proof. by apply load_store_eq. Qed.

Lemma setup_backups f image m :
  saved_state f image ->
  load (setup_mem f image m) (SMM + backup1) 0x200 = relocated f image /\
  load (setup_mem f image m) (SMM + backup2) 0x200 = relocated f image.
Proof.
  intros Hi. pose proof (saved_length _ _ Hi) as Hl. pose proof (base_field_range f image Hi) as Hb.
  set (m1 := store_le (store (save_mem m) (INIT + cpu) image) (INIT + cpu + base_field f) 4 SMM).
  assert (load m1 (INIT + cpu) 0x200 = relocated f image) as Hm1.
  { unfold m1, store_le. replace (base_field f) with (Z.of_nat (Z.to_nat (base_field f))) by lia.
    rewrite load_splice; [|rewrite length_le_bytes; lia|done]. done. }
  rewrite <- Hm1. split; apply load_shift; intros i Hr; unfold setup_mem, restore_mem, smi_mem, store_le;
    fold (store_le (store (save_mem m) (INIT + cpu) image) (INIT + cpu + base_field f) 4 SMM); fold m1;
    unfold_layout; mem_at; f_equal; lia.
Qed.

Lemma save_entry m : load (save_mem m) (INIT + codeentry) 8 = le_bytes 8 entry.
Proof. by apply load_store_eq. Qed.

(** Before the setup, the variables of the firmware describe the board, the command
    port is not a source of SMIs, and neither SMRAM nor SMIs are locked. *)
Record unset (hw : board) (s : bios) : Prop := {
  unset_base : smbase s = INIT;
  unset_isa : SMMISADeviceBDF s = isa_bdf hw;
  unset_isa_range : 0 <= isa_bdf hw;
  unset_host : SMMPMDeviceBDF s = host_bdf hw;
  unset_pm : acpi_pm_base s = pm_base hw;
  unset_apmc : c_apmc (chipset (bdd s)) = false;
  unset_smram : Z.testbit (c_smram (chipset (bdd s))) 4 = false;
  unset_lock : c_lock (chipset (bdd s)) = false;
}.

(** After it, the window is closed, SMRAM is on, SMIs are on and, on the ICH9, locked. *)
Record configured (hw : board) (c : chip) : Prop := {
  configured_open : smram_open c = false;
  configured_enabled : smram_enabled c = true;
  configured_apmc : c_apmc c = true;
  configured_glb : c_glb c = true;
  configured_lock : c_lock c = negb (piix hw);
}.

Lemma save_and_copy_spec {B} (k : unit -> prog bios B) m d s :
  smram_open (chipset d) = true ->
  bind (smm_save_and_copy entry_smi) k (at_state m d s) = k tt (at_state (save_mem m) d s).
Proof. intros Ho. unfold smm_save_and_copy. by rewrite !bind_assoc, bind_smram, !bind_assoc, bind_smram. Qed.

Section Board.
Context (hw : board) {BL : BoardLaws hw D}.

Lemma config_device d :
  exists d', pci_config_readw (isa_bdf hw) PCI_DEVICE_ID d = Some (device_id hw, d') /\
    chipset d' = with_select (pci_address (isa_bdf hw) 0) (chipset d).
Proof.
  destruct (in_device (outl (pci_address (isa_bdf hw) 0) 0xcf8 d)) as [Hv Hs]; [by rewrite out_select|].
  rewrite out_select in Hs. rewrite <- Hs, <- Hv. eexists. split; [|reflexivity].
  unfold pci_config_readw, rd, wr, bind. by rewrite <- surjective_pairing.
Qed.

Lemma config_smram v d :
  Z.testbit (c_smram (chipset d)) 4 = false ->
  exists d', pci_config_writeb (host_bdf hw) (smram_at hw) v d = Some (tt, d') /\
    chipset d' = with_smram v (with_select (pci_address (host_bdf hw) (smram_at hw)) (chipset d)).
Proof. intros Hl. eexists. split; [reflexivity|]. rewrite out_smram; rewrite out_select; done. Qed.

Lemma read_devactb d :
  piix hw = true ->
  exists v d', pci_config_readl (isa_bdf hw) PIIX_DEVACTB d = Some (v, d') /\ Z.testbit v 25 = c_apmc (chipset d) /\
    chipset d' = with_select (pci_address (isa_bdf hw) 0x58) (chipset d).
Proof.
  intros Hp. destruct (in_devactb (outl (pci_address (isa_bdf hw) 0x58) 0xcf8 d) Hp) as [Hv Hs]; [by rewrite out_select|].
  rewrite out_select in Hs, Hv. rewrite <- Hs. eexists _, _. split; [|split; [exact Hv|reflexivity]].
  unfold pci_config_readl, rd, wr, bind. by rewrite <- surjective_pairing.
Qed.

Lemma write_devactb v d :
  piix hw = true ->
  exists d', pci_config_writel (isa_bdf hw) PIIX_DEVACTB v d = Some (tt, d') /\
    chipset d' = with_smis (Z.testbit v 25) (c_glb (chipset d)) (with_select (pci_address (isa_bdf hw) 0x58) (chipset d)).
Proof. intros Hp. eexists. split; [reflexivity|]. rewrite out_devactb; rewrite ?out_select; done. Qed.

Lemma read_pmcon d :
  piix hw = false ->
  exists v d', pci_config_readw (isa_bdf hw) ICH9_LPC_GEN_PMCON_1 d = Some (v, d') /\ Z.testbit v 4 = c_lock (chipset d) /\
    chipset d' = with_select (pci_address (isa_bdf hw) 0xa0) (chipset d).
Proof.
  intros Hp. destruct (in_pmcon (outl (pci_address (isa_bdf hw) 0xa0) 0xcf8 d) Hp) as [Hv Hs]; [by rewrite out_select|].
  rewrite out_select in Hs, Hv. rewrite <- Hs. eexists _, _. split; [|split; [exact Hv|reflexivity]].
  unfold pci_config_readw, rd, wr, bind. by rewrite <- surjective_pairing.
Qed.

Lemma write_pmcon v d :
  piix hw = false ->
  exists d', pci_config_writel (isa_bdf hw) ICH9_LPC_GEN_PMCON_1 v d = Some (tt, d') /\
    chipset d' = with_lock (c_lock (chipset d) || Z.testbit v 4) (with_select (pci_address (isa_bdf hw) 0xa0) (chipset d)).
Proof. intros Hp. eexists. split; [reflexivity|]. rewrite out_pmcon; rewrite ?out_select; done. Qed.

(** Runs the next device access by its lemma [H]. *)
Tactic Notation "device" constr(H) "as" ident(d) ident(Hd) :=
  let E := fresh "E" in destruct H as (d & E & Hd); rewrite (bind_bdev _ _ _ _ _ _ _ E); clear E.
Tactic Notation "device" constr(H) "as" ident(v) ident(Hv) ident(d) ident(Hd) :=
  let E := fresh "E" in destruct H as (v & d & E & Hv & Hd); rewrite (bind_bdev _ _ _ _ _ _ _ E); clear E.

Lemma read_port (p : Z) d : exists v d', rd (inl p) d = Some (v, d') /\ v = fst (inl p d) /\ d' = snd (inl p d).
Proof. exists (fst (inl p d)), (snd (inl p d)). split; [|done]. unfold rd. by rewrite <- surjective_pairing. Qed.

Lemma piix4_spec f image fuel m d s :
  piix hw = true -> acpi_pm_base s = pm_base hw -> smbase s = INIT -> saved_state f image ->
  c_apmc (chipset d) = false -> Z.testbit (c_smram (chipset d)) 4 = false -> c_lock (chipset d) = false ->
  exists d', configured hw (chipset d') /\
    piix4_apmc_smm_setup entry_smi (deliver image) (S fuel) (isa_bdf hw) (host_bdf hw) (at_state m d s) =
    Some (tt, at_state (setup_mem f image m) d' (moved s)).
Proof.
  intros Hp Hpm Hb Hi Ha Hs Hl. unfold piix4_apmc_smm_setup.
  pose proof config_smram as Hsm. unfold smram_at in Hsm. rewrite Hp in Hsm.
  device (read_devactb d Hp) as v Hv d1 H1. change PIIX_DEVACTB_APMC_EN with (2 ^ 25).
  rewrite (land_pow2_test v 25), Hv, Ha by lia. cbn [negb].
  device (Hsm (Z.lor 0x02 0x48) d1 ltac:(by rewrite H1)) as d2 H2. rewrite H1 in H2.
  rewrite save_and_copy_spec by (by rewrite H2).
  device (write_devactb (Z.lor v (2 ^ 25)) d2 Hp) as d3 H3. rewrite H2, Z.lor_spec, orb_true_r in H3.
  rewrite (bind_some (gets acpi_pm_base) _ _ _ _ eq_refl).
  change (acpi_pm_base (at_state (save_mem m) d3 s)) with (acpi_pm_base s). rewrite Hpm.
  device (read_port (pm_base hw + PIIX_PMIO_GLBCTL) d3) as w Hw d4 H4.
  assert (chipset d4 = chipset d3) as H4' by (rewrite H4; apply (in_glbctl d3 Hp)). clear H4.
  rewrite (bind_bdev (wr _) _ _ d4 _ tt _ eq_refl).
  pose proof (out_glbctl (Z.lor w PIIX_PMIO_GLBCTL_SMI_EN) d4 Hp) as H5.
  set (d5 := outl _ _ d4) in *. rewrite Z.lor_spec, orb_true_r, H4', H3 in H5.
  destruct (relocate_spec f image fuel (save_mem m) d5 s Hi Hb (save_entry m)) as (d6 & H6 & E); [by split; rewrite H5|].
  rewrite (bind_some _ _ _ _ _ E). rewrite H5 in H6. clear E.
  destruct (Hsm (Z.lor 0x02 0x08) d6 ltac:(by rewrite H6)) as (d7 & E & H7). rewrite H6 in H7.
  exists d7. split; [by split; rewrite H7, ?Hp|]. by apply bind_bdev_last.
Qed.

Lemma ich9_spec f image fuel m d s :
  piix hw = false -> acpi_pm_base s = pm_base hw -> smbase s = INIT -> saved_state f image ->
  c_apmc (chipset d) = false -> Z.testbit (c_smram (chipset d)) 4 = false -> c_lock (chipset d) = false ->
  exists d', configured hw (chipset d') /\
    ich9_lpc_apmc_smm_setup entry_smi (deliver image) (S fuel) (isa_bdf hw) (host_bdf hw) (at_state m d s) =
    Some (tt, at_state (setup_mem f image m) d' (moved s)).
Proof.
  intros Hp Hpm Hb Hi Ha Hs Hl. unfold ich9_lpc_apmc_smm_setup.
  pose proof config_smram as Hsm. unfold smram_at in Hsm. rewrite Hp in Hsm.
  rewrite (bind_some (gets acpi_pm_base) _ _ _ _ eq_refl).
  change (acpi_pm_base (at_state m d s)) with (acpi_pm_base s). rewrite Hpm.
  device (read_port (pm_base hw + ICH9_PMIO_SMI_EN) d) as v Hv d1 H1.
  destruct (in_smi_en d Hp) as (Hv5 & _ & H1'). change 0x30 with ICH9_PMIO_SMI_EN in Hv5, H1'.
  rewrite <- Hv in Hv5. rewrite <- H1 in H1'. clear H1. change ICH9_PMIO_SMI_EN_APMC_EN with (2 ^ 5).
  rewrite (land_pow2_test v 5), Hv5, Ha by lia. cbn [negb].
  device (Hsm (Z.lor 0x02 0x48) d1 ltac:(by rewrite H1')) as d2 H2. rewrite H1' in H2.
  rewrite save_and_copy_spec by (by rewrite H2).
  rewrite (bind_bdev (wr _) _ _ d2 _ tt _ eq_refl).
  pose proof (out_smi_en (Z.lor (Z.lor v (2 ^ 5)) ICH9_PMIO_SMI_EN_GLB_SMI_EN) d2 Hp ltac:(by rewrite H2)) as H3.
  set (d3 := outl _ _ d2) in *. rewrite !Z.lor_spec, !orb_true_r, H2 in H3.
  device (read_pmcon d3 Hp) as w Hw d4 H4. rewrite H3 in H4.
  device (write_pmcon (Z.lor w ICH9_LPC_GEN_PMCON_1_SMI_LOCK) d4 Hp) as d5 H5. rewrite Z.lor_spec, !orb_true_r, H4 in H5.
  destruct (relocate_spec f image fuel (save_mem m) d5 s Hi Hb (save_entry m)) as (d6 & H6 & E); [by split; rewrite H5|].
  rewrite (bind_some _ _ _ _ _ E). rewrite H5 in H6. clear E.
  destruct (Hsm (Z.lor 0x02 0x08) d6 ltac:(by rewrite H6)) as (d7 & E & H7). rewrite H6 in H7.
  exists d7. split; [by split; rewrite H7, ?Hp|]. by apply bind_bdev_last.
Qed.

Lemma setup_spec f image fuel s :
  saved_state f image -> unset hw s ->
  exists d', configured hw (chipset d') /\ smm_setup true entry_smi (deliver image) (S fuel) (at_state (bmm s) (bdd s) s) =
    Some (tt, at_state (setup_mem f image (bmm s)) d' (moved s)).
Proof.
  intros Hi [Hb Hisa Hr Hh Hpm Ha Hs Hl]. unfold smm_setup.
  rewrite (bind_some (gets SMMISADeviceBDF) _ _ _ _ eq_refl), (bind_some (gets SMMPMDeviceBDF) _ _ _ _ eq_refl).
  change (SMMISADeviceBDF (at_state _ _ s)) with (SMMISADeviceBDF s).
  change (SMMPMDeviceBDF (at_state _ _ s)) with (SMMPMDeviceBDF s).
  rewrite Hisa, Hh. cbn [negb orb]. rewrite (proj2 (Z.ltb_ge _ _)) by done.
  device (config_device (bdd s)) as d1 H1. unfold device_id.
  destruct (piix hw) eqn:Hp; cbn [Z.eqb].
  - apply piix4_spec; rewrite ?H1; done.
  - apply ich9_spec; rewrite ?H1; done.
Qed.
End Board.

(** * Properties *)

(** C9 Calls through the SMM trampoline, in both formats of the save area: a call
    resumes the processor in the state recorded at boot, at the requested address,
    with its registers and the A20 gate open; a return resumes the processor in the
    state of the call, at the requested address, with the registers of the called
    code, as long as the called code leaves the second backup and the saved gate in
    SMRAM alone. The return closes an A20 gate that was closed at the call and
    otherwise leaves it as the called code did. *)
Theorem smm_call32_returns f s :
  f = format32 \/ f = format64 -> asks f CALL32SMM_ENTERID s ->
  exists s1, handle_smi 0xa000 s = Some (tt, s1) /\ a20 (bdd s1) = true /\
    resumes f (fun i => bmm s (SMM + backup1 + i)) (bmm s) (bmm s1) /\
    forall s2, asks f CALL32SMM_RETURNID s2 ->
      load (bmm s2) (SMM + backup2) 0x204 = load (bmm s1) (SMM + backup2) 0x204 ->
      exists s3, handle_smi 0xa000 s2 = Some (tt, s3) /\ a20 (bdd s3) = a20 (bdd s) && a20 (bdd s2) /\
        resumes f (fun i => bmm s (SMM + cpu + i)) (bmm s2) (bmm s3).
Proof.
  intros Hf Ha. destruct (dispatch f _ s Hf Ha) as (d & Hd & E). rewrite E.
  destruct (enter_spec f (bmm s) d s (wf_formats f Hf) (asks_bytes _ _ _ Ha)) as (m1 & d1 & E1 & Ha1 & Hr1 & Hb2 & Hba).
  exists (at_state m1 d1 s). split; [exact E1|]. split; [done|]. split; [done|]. cbn [b_machine at_state].
  intros s2 Hs2 Hsame. destruct (dispatch f _ s2 Hf Hs2) as (d2 & Hd2 & E2). rewrite E2.
  change (m_mem (set_mem m1 _)) with m1 in Hsame.
  change 0x204%nat with (0x200 + 4)%nat in Hsame. rewrite !load_app in Hsame.
  apply app_inj_1 in Hsame as [Hs1 Hs4]; [|by rewrite !length_load].
  destruct (return_spec f (bmm s2) d2 s2 (a20 (bdd s)) (wf_formats f Hf) (asks_bytes _ _ _ Hs2))
    as (m3 & d3 & E3 & Ha3 & [R1 R2 R3]); [unfold load_le in *; rewrite <- Hd, <- Hba; by f_equal|].
  exists (at_state m3 d3 s2). split; [exact E3|]. split; [by rewrite <- Hd2|]. split; [done..|].
  intros i Hi H1 H2. cbn [b_machine at_state]. change (m_mem (set_mem m3 _)) with m3. rewrite R3 by done.
  rewrite <- (load_at _ _ _ _ _ i Hb2) by done. by apply (load_at _ _ _ _ 0x200).
Qed.

(** C10 Relocation of SMBASE on both chipsets, when the command port does not raise
    SMIs yet and neither SMRAM nor SMIs are locked: the setup opens the window on
    SMRAM and turns SMIs on in time, so it returns, with the processor's SMBASE in
    SMRAM and the jump to the handler at its entry point; it records the state of the
    processor with its new SMBASE in both backups, announces the trampoline, leaves
    memory outside SMRAM as it was, and leaves the window closed, SMRAM and SMIs on
    and, on the ICH9, locked. *)
Theorem smm_setup_relocates hw `{!BoardLaws hw D} f image fuel s :
  saved_state f image -> unset hw s ->
  exists s', smm_setup true entry_smi (deliver image) (S fuel) s = Some (tt, s') /\
    smbase s' = SMM /\ HaveSmmCall32 s' = 1 /\
    load (bmm s') (SMM + codeentry) 8 = le_bytes 8 (SMI_INSN entry_smi) /\
    load (bmm s') (SMM + backup1) 0x200 = relocated f image /\
    load (bmm s') (SMM + backup2) 0x200 = relocated f image /\
    (forall x, x < SMM \/ SMM + 0x10000 <= x -> bmm s' x = bmm s x) /\
    configured hw (chipset (bdd s')).
Proof.
  intros Hi Hu. destruct (setup_spec hw f image fuel s Hi Hu) as (d' & Hset & E).
  rewrite <- at_state_id in E. eexists. split; [exact E|]. split; [done|]. split; [done|].
  split; [apply setup_entry|]. destruct (setup_backups f image (bmm s) Hi) as [H1 H2].
  split; [exact H1|]. split; [exact H2|]. split; [|exact Hset]. intros x Hx. by apply setup_low.
Qed.
End Chipset.

(** A board with the ICH9 that consists of these registers only. *)
Definition demo_board : board := Board false 0xf8 0 0x600.
#[local] Instance demo_chipset_devices : Devices chip := {|
  readl a d := (0, d); writel a v d := d; rdmsr r d := (0, 0, d); wrmsr r a e d := d;
  cpuid l := RdRand.Info 0 0 0 0;
  inb p d :=
    if p =? PORT_SMI_CMD then (c_cmd d, d) else if p =? PORT_SMI_STATUS then (c_status d, d)
    else if p =? PORT_A20 then (2 * Z.b2z (c_a20 d), d) else (0, d);
  outb v p d :=
    if p =? PORT_SMI_CMD then with_cmd v d else if p =? PORT_SMI_STATUS then with_status v d
    else if p =? PORT_A20 then with_a20 (Z.testbit v 1) d else if p =? 0xcfd then with_smram v d else d;
  inw p d := (if p =? 0xcfe then 0x2918 else 16 * Z.b2z (c_lock d), d); outw v p d := d;
  inl p d := (Z.b2z (c_glb d) + 32 * Z.b2z (c_apmc d), d);
  outl v p d :=
    if p =? 0xcf8 then with_select v d else if p =? 0x630 then with_smis (Z.testbit v 5) (Z.testbit v 0) d
    else if p =? 0xcfc then with_lock (c_lock d || Z.testbit v 4) d else d;
  rdtscll d := (0, d);
|}.
#[local] Instance demo_chipset : Chipset chip := fun d => d.
#[local] Instance demo_chipset_laws : ApmLaws chip.
Proof. split; intros; repeat match goal with d : chip |- _ => destruct d as [? ? [] ? ? ? ? ?] end; done. Qed.
#[local] Instance demo_board_laws : BoardLaws demo_board chip.
Proof. split; intros; repeat match goal with d : chip |- _ => destruct d as [? ? ? ? ? [] [] []] end; done. Qed.

Definition demo_bios (m : mem) (d : chip) (base : Z) : bios chip unit unit :=
  Bios (Machine m tt d 0x11 0 xapic tt) 0 0x600 0xf8 0 base.
(** A processor in 64-bit format asks for a call to 0xf1234. *)
Definition demo_call : mem :=
  store_le (store_le (store_le (fun _ => 0) (BUILD_SMM_ADDR + cpu + 0xfc) 4 SMM_REV_I64)
    (BUILD_SMM_ADDR + cpu + 0x1f0) 4 CALL32SMM_ENTERID) (BUILD_SMM_ADDR + cpu + 0x1e0) 4 0xf1234.

Definition demo_caller : bios chip unit unit := 
  demo_bios demo_call (Chip CALL32SMM_CMDID 0 false 0 0x0a true true true) BUILD_SMM_ADDR.

Lemma demo_asks : asks format64 CALL32SMM_ENTERID demo_caller.
Proof.
  split; [|by vm_compute..]. cbn [b_machine demo_caller demo_bios m_mem].
  repeat (apply is_byte_store; [|apply bytes_le_bytes]). intros x. by vm_compute.
Qed.

Lemma smm_call32_returns_witness :
  exists s1, handle_smi true true (ret tt) 0xa000 demo_caller = Some (tt, s1) /\ a20 (m_dev (b_machine s1)) = true /\
    resumes format64 (fun i => demo_call (BUILD_SMM_ADDR + backup1 + i)) demo_call (m_mem (b_machine s1)) /\
    forall s2 : bios chip unit unit, asks format64 CALL32SMM_RETURNID s2 ->
      load (m_mem (b_machine s2)) (BUILD_SMM_ADDR + backup2) 0x204 =
        load (m_mem (b_machine s1)) (BUILD_SMM_ADDR + backup2) 0x204 ->
      exists s3, handle_smi true true (ret tt) 0xa000 s2 = Some (tt, s3) /\ a20 (m_dev (b_machine s3)) = false /\
        resumes format64 (fun i => demo_call (BUILD_SMM_ADDR + cpu + i)) (m_mem (b_machine s2)) (m_mem (b_machine s3)).
Proof.
  exact (smm_call32_returns (ret tt) format64 demo_caller (or_intror eq_refl) demo_asks).
Defined.

Definition demo_image : list Z := replicate 0xfc 0 ++ le_bytes 4 SMM_REV_I32 ++ replicate 0x100 0.

Definition demo_unset : bios chip unit unit :=
  demo_bios (fun _ => 7) (Chip 0 0 true 0 0x02 false false false) BUILD_SMM_INIT_ADDR.

Lemma smm_setup_relocates_witness :
  exists s', smm_setup true 0xfe05b (deliver true true 0xfe05b (ret tt) demo_image) 1 demo_unset = Some (tt, s') /\
    smbase s' = BUILD_SMM_ADDR /\ HaveSmmCall32 s' = 1 /\
    load (m_mem (b_machine s')) (BUILD_SMM_ADDR + codeentry) 8 = le_bytes 8 (SMI_INSN 0xfe05b) /\
    load (m_mem (b_machine s')) (BUILD_SMM_ADDR + backup1) 0x200 = relocated format32 demo_image /\
    load (m_mem (b_machine s')) (BUILD_SMM_ADDR + backup2) 0x200 = relocated format32 demo_image /\
    (forall x, x < BUILD_SMM_ADDR \/ BUILD_SMM_ADDR + 0x10000 <= x -> m_mem (b_machine s') x = 7) /\
    configured demo_board (chipset (m_dev (b_machine s'))).
Proof.
  apply (smm_setup_relocates 0xfe05b (ret tt) demo_board format32 demo_image 0 demo_unset).
  - split; [by left|by vm_compute..].
  - split; first [reflexivity | cbn; lia].
Defined.
