(* ===== verification/Ehci.v ===== *)
(** supervisor.c of the USB and of the storage variant: both take the interrupt of
    the EHCI controller from the operating system, look at what the controller
    transferred, and pass the interrupt on. *)

From Stdlib Require Import ZArith Lia Bool.
From stdpp Require Import base list.
From S2P Require Import Prelude RdRand Aead RingBuffer Hw Apic Md5.

(** The constants that differ: the interrupt lines and the redirection entry. *)
Record variant := Variant { USB_IRQ : Z; EHCI_NIC_IRQ : Z; HIJACKED_OFF : Z }.
Definition usb : variant := Variant 10 11 0x24.
Definition storage : variant := Variant 11 10 0x26.
Definition EHCI_KBD_IRQ : Z := 1.

(** The static variables of the two files; [started] is [isSupervisorOn] of the USB
    variant, and [isFirstPhrase] negated of the other. [log] is what the USB variant
    prints: a key and its character, if the tables have one. *)
Record ehci_glob := EhciGlob {
  started : bool; ehci_nic_vec : Z; ehci_kbd_vec : Z; usb_vec : Z; ehci_shmem_base : Z; data : Z; log : list (Z * option Z);
}.
Definition set_started v g :=
  EhciGlob v (ehci_nic_vec g) (ehci_kbd_vec g) (usb_vec g) (ehci_shmem_base g) (data g) (log g).
Definition set_ehci_nic_vec v g :=
  EhciGlob (started g) v (ehci_kbd_vec g) (usb_vec g) (ehci_shmem_base g) (data g) (log g).
Definition set_ehci_kbd_vec v g :=
  EhciGlob (started g) (ehci_nic_vec g) v (usb_vec g) (ehci_shmem_base g) (data g) (log g).
Definition set_usb_vec v g :=
  EhciGlob (started g) (ehci_nic_vec g) (ehci_kbd_vec g) v (ehci_shmem_base g) (data g) (log g).
Definition set_ehci_shmem_base v g :=
  EhciGlob (started g) (ehci_nic_vec g) (ehci_kbd_vec g) (usb_vec g) v (data g) (log g).
Definition set_data v g :=
  EhciGlob (started g) (ehci_nic_vec g) (ehci_kbd_vec g) (usb_vec g) (ehci_shmem_base g) v (log g).
Definition set_log v g :=
  EhciGlob (started g) (ehci_nic_vec g) (ehci_kbd_vec g) (usb_vec g) (ehci_shmem_base g) (data g) v.

(** The scan code of a USB key code. *)
Definition KeyToScanCode : list Z :=
  [0x0000; 0x0000; 0x0000; 0x0000; 0x001e; 0x0030; 0x002e; 0x0020;
   0x0012; 0x0021; 0x0022; 0x0023; 0x0017; 0x0024; 0x0025; 0x0026;
   0x0032; 0x0031; 0x0018; 0x0019; 0x0010; 0x0013; 0x001f; 0x0014;
   0x0016; 0x002f; 0x0011; 0x002d; 0x0015; 0x002c; 0x0002; 0x0003;
   0x0004; 0x0005; 0x0006; 0x0007; 0x0008; 0x0009; 0x000a; 0x000b;
   0x001c; 0x0001; 0x000e; 0x000f; 0x0039; 0x000c; 0x000d; 0x001a;
   0x001b; 0x002b; 0x0000; 0x0027; 0x0028; 0x0029; 0x0033; 0x0034;
   0x0035; 0x003a; 0x003b; 0x003c; 0x003d; 0x003e; 0x003f; 0x0040;
   0x0041; 0x0042; 0x0043; 0x0044; 0x0057; 0x0058; 0xe037; 0x0046;
   0xe145; 0xe052; 0xe047; 0xe049; 0xe053; 0xe04f; 0xe051; 0xe04d;
   0xe04b; 0xe050; 0xe048; 0x0045; 0xe035; 0x0037; 0x004a; 0x004e;
   0xe01c; 0x004f; 0x0050; 0x0051; 0x004b; 0x004c; 0x004d; 0x0047;
   0x0048; 0x0049; 0x0052; 0x0053].

(** The character of a scan code; the array of 128 is longer than its string. *)
Definition pckbd : list Z :=
  [0; 27; 49; 50; 51; 52; 53; 54; 55; 56; 57; 48; 45; 61; 127; 9;
   113; 119; 101; 114; 116; 121; 117; 105; 111; 112; 91; 93; 13; 0; 97; 115;
   100; 102; 103; 104; 106; 107; 108; 59; 39; 96; 0; 92; 122; 120; 99; 118;
   98; 110; 109; 44; 46; 47; 0; 42; 0; 32; 0; 129; 130; 131; 132; 133;
   134; 135; 136; 137; 138; 0; 0; 55; 56; 57; 45; 52; 53; 54; 43; 49;
   50; 51; 48; 127; 0; 0; 139; 140; 0; 0; 0; 0; 0; 0; 0; 0; 0; 0;
   13; 0; 47] ++ replicate 27 0.

(** [pckbd[_KeyToScanCode[k]]], unless an index is out of range. *)
Definition key_char (k : Z) : option Z := KeyToScanCode !! Z.to_nat k ≫= fun c => pckbd !! Z.to_nat c.

(** The offset of [keys] in [struct _keyevent]. *)
Definition keys : Z := 2.

Section Ehci.
Context {R : Type} {D : Type} {Dev : Devices D}.
(** The fuel of the APIC wait and the address of the local [hash]. *)
Context (fuel : nat) (hash : Z) (V : variant).
Abbreviation M := (prog (machine D R ehci_glob)).

(** The assignments of the loop body of [show_ioredtbl]. *)
Definition note_ehci_vector (i vector_address : Z) (g : ehci_glob) : ehci_glob :=
  let g := if EHCI_KBD_IRQ =? i then set_ehci_kbd_vec vector_address g else g in
  let g := if USB_IRQ V =? i then set_usb_vec vector_address g else g in
  if EHCI_NIC_IRQ V =? i then set_ehci_nic_vec vector_address g else g.

Definition intercept_ehci : M unit :=
  let* v := on_dev (ioapic_read_reg (HIJACKED_OFF V)) in
  let* _ := on_glob (set_ehci_kbd_vec (s32 v)) in
  on_dev (ioapic_write_reg (HIJACKED_OFF V) APIC_DM_SMI).

Definition recover_ehci : M unit :=
  let* v := glob usb_vec in
  on_dev (ioapic_write_reg (HIJACKED_OFF V) (u32 v)).

Definition usb_supervisor : M unit :=
  let* _ := enable_sse in
  let* on := glob started in
  if negb on then
    let* base := on_memory (fun m => Some (init_ring_buffer m)) in
    let* _ := on_glob (set_ehci_shmem_base base) in
    let* _ := show_ioredtbl note_ehci_vector in
    let* _ := intercept_ehci in
    let* p := gets (fun s => load_le (m_mem s) 0x100 4) in
    let* _ := on_glob (set_data p) in
    on_glob (set_started true)
  else
    let* p := glob data in
    let* k := gets (fun s => m_mem s (p + keys)) in
    let* _ := when (negb (k =? 0)) (on_glob (fun g => set_log (log g ++ [(k, key_char k)]) g)) in
    let* _ := on_mem (fun m => store_le m (p + keys) 1 0) in
    let* v := glob usb_vec in
    trigger_self_ipi fuel v.

Definition storage_supervisor : M unit :=
  let* _ := enable_sse in
  let* on := glob started in
  if negb on then
    let* _ := show_ioredtbl note_ehci_vector in
    let* _ := intercept_ehci in
    on_glob (set_started true)
  else
    let* _ := on_mem (fun m => store m hash (hash_bytes (md5_hash (load m 0 (Z.to_nat (Z.shiftl 1 12)))))) in
    let* v := glob usb_vec in
    trigger_self_ipi fuel v.
End Ehci.

(** * What the handlers do *)

(** The source has one of two sets of constants. *)
Definition known (V : variant) : Prop := V = usb \/ V = storage.

(** What the scan and the interception leave alone. *)
Definition same_report (g g' : ehci_glob) : Prop :=
  data g' = data g /\ log g' = log g /\ started g' = started g.

Section EhciLaws.
Context {R : Type} {D : Type} `{PL : PlatformLaws D} (Hx2 : has_x2apic (D := D)).
Context (fuel : nat) (hash : Z) (V : variant) (HV : known V).
Abbreviation machine := (machine D R ehci_glob).

Lemma notes_spec regs g :
  let g' := foldl (fun g i => note_ehci_vector V i (Z.land 0xff (regs (IOREDTBL i))) g) g (Z.of_nat <$> seq 0 24) in
  usb_vec g' = Z.land 0xff (regs (HIJACKED_OFF V)) /\ same_report g g'.
Proof. by destruct HV as [-> | ->]. Qed.

(** The entry of the controller delivers an SMI, the others are as [regs] says, and
    the vector it had is known. *)
Record taken (regs : Z -> Z) (sent : list Z) (s : machine) : Prop := {
  tk_started : started (m_glob s) = true;
  tk_vec : usb_vec (m_glob s) = Z.land 0xff (regs (HIJACKED_OFF V));
  tk_entry : Z.land (ioapic (m_dev s) (HIJACKED_OFF V)) REDIR_RW = APIC_DM_SMI;
  tk_others r : r <> HIJACKED_OFF V -> ioapic (m_dev s) r = regs r;
  tk_sent : ipis (m_dev s) = sent;
}.

(** The scan and the interception, before the program [k] that follows them. *)
Lemma take_spec (s : machine) :
  exists s', (forall k : prog machine unit,
      (let* _ := show_ioredtbl (note_ehci_vector V) in let* _ := intercept_ehci V in k) s = k s') /\
    m_mem s' = m_mem s /\ same_report (m_glob s) (m_glob s') /\
    taken (ioapic (m_dev s)) (ipis (m_dev s)) (set_glob (set_started true (m_glob s')) s').
Proof.
  destruct (show_ioredtbl_reads (note_ehci_vector V) (ioapic (m_dev s)) s (fun _ => eq_refl)) as (d1 & E1 & Hq).
  set (g1 := foldl _ _ _) in E1. destruct (notes_spec (ioapic (m_dev s)) (m_glob s)) as [Hv Hs]. fold g1 in Hv, Hs.
  assert (0x10 <= HIJACKED_OFF V < 0x40 /\ Z.even (HIJACKED_OFF V) = true) as [Hr He] by (by destruct HV as [-> | ->]).
  destruct (read_reg_spec (HIJACKED_OFF V) d1) as (d2 & E2 & Hq2); [lia|].
  destruct (write_reg_spec (HIJACKED_OFF V) APIC_DM_SMI d2) as (d3 & E3 & Hw & Ho & Hi & _); [done..|].
  assert (intercept_ehci V (set_glob g1 (set_dev d1 s)) =
    Some (tt, set_dev d3 (set_glob (set_ehci_kbd_vec (s32 (ioapic d1 (HIJACKED_OFF V))) g1) (set_dev d2 s)))) as E4.
  { unfold intercept_ehci, bind, on_dev, on_glob, modify. cbn [m_dev set_glob set_dev m_glob]. rewrite E2.
    cbn [m_dev set_glob set_dev m_glob]. by rewrite E3. }
  eexists. split; [intros k; rewrite (bind_some _ _ _ _ _ E1), (bind_some _ _ _ _ _ E4); reflexivity|].
  split_and!; [done|done|]. split; cbn; [done|done|by rewrite Hw| |].
  - intros r Hne. rewrite Ho by done. by rewrite (quiet_ioapic _ _ Hq2), (quiet_ioapic _ _ Hq).
  - by rewrite Hi, (quiet_ipis _ _ Hq2), (quiet_ipis _ _ Hq).
Qed.

(** Passing the interrupt on. *)
Lemma forward_spec regs sent (s : machine) :
  taken regs sent s ->
  exists s', (let* v := glob usb_vec in trigger_self_ipi fuel v) s = Some (tt, s') /\
    m_mem s' = m_mem s /\ m_glob s' = m_glob s /\
    taken regs (sent ++ [Z.land 0xff (regs (HIJACKED_OFF V))]) s'.
Proof.
  intros [Hs Hv He Ho Hi]. destruct (trigger_self_ipi_spec fuel (usb_vec (m_glob s)) s) as (d & a & E & Hd & Hr & _).
  { rewrite Hv, Z.land_comm, land_ff. apply is_byte_u8. }
  { by left. }
  eexists. split; [unfold glob; rewrite (bind_some _ _ _ _ _ (eq_refl (Some (_, _)))); exact E|].
  split_and!; [done..|]. split; cbn; [done|done|by rewrite Hr|intros r Hne; rewrite Hr; auto|by rewrite Hd, Hi, Hv].
Qed.

(** An SMI when the controller has left memory as [m]. *)
Definition transfer (sup : prog machine unit) (m : mem) : prog machine unit :=
  let* _ := on_mem (fun _ => m) in sup.

(** The keys that the reports at [p] hold, and their characters. *)
Definition report (p : Z) (ms : list mem) : list (Z * option Z) :=
  (fun k => (k, key_char k)) <$> filter (fun k => k <> 0) ((fun m => m (p + keys)) <$> ms).

Lemma usb_first (s : machine) :
  started (m_glob s) = false -> 0x104 <= u32 (load_le (m_mem s) 0x64 8) ->
  exists s', usb_supervisor fuel V s = Some (tt, s') /\ taken (ioapic (m_dev s)) (ipis (m_dev s)) s' /\
    data (m_glob s') = load_le (m_mem s) 0x100 4 /\ log (m_glob s') = log (m_glob s).
Proof.
  intros Hf Hb. destruct (enable_sse_spec s) as (m1 & E1 & Hlow & _).
  unfold usb_supervisor. rewrite (bind_some _ _ _ _ _ E1).
  unfold glob. rewrite (bind_some _ _ _ _ _ (eq_refl (Some (_, _)))). cbn [m_glob]. rewrite Hf. cbn [negb].
  set (s1 := Machine m1 _ _ _ _ _ _). set (base := u32 (load_le (m_mem s) 0x64 8)) in Hb.
  assert (fst (init_ring_buffer m1) = base) as Hbase.
  { unfold init_ring_buffer, base, load_le. cbn [fst]. do 2 f_equal. apply load_ext. intros x Hx. apply Hlow; lia. }
  pose proof (init_holds m1) as HI. destruct (init_ring_buffer m1) as [b m2] eqn:E2. cbn [fst] in Hbase. subst b.
  destruct HI as (_ & _ & Hfr).
  assert (on_memory (fun m => Some (init_ring_buffer m)) s1 = Some (base, set_mem m2 s1)) as E3
    by (unfold on_memory; cbn [m_mem s1]; by rewrite E2).
  rewrite (bind_some _ _ _ _ _ E3), (bind_some _ _ _ _ _ (eq_refl (Some (_, _)))).
  set (s2 := set_glob _ _). destruct (take_spec s2) as (s3 & E4 & Hm & (Hd & Hl & Hs) & Ht). rewrite E4.
  eexists. split; [reflexivity|]. split_and!; [by destruct Ht| |exact Hl].
  transitivity (load_le (m_mem s3) 0x100 4); [done|]. rewrite Hm. unfold load_le. apply (f_equal le_val), load_ext. intros x Hx. cbn. rewrite Hfr by lia. apply Hlow; lia.
Qed.

Lemma usb_next regs sent m (s : machine) :
  let p := data (m_glob s) in
  taken regs sent s -> 6 <= p + keys -> p + keys < 0xfffb \/ 0xffff <= p + keys ->
  exists s', transfer (usb_supervisor fuel V) m s = Some (tt, s') /\
    taken regs (sent ++ [Z.land 0xff (regs (HIJACKED_OFF V))]) s' /\
    data (m_glob s') = p /\ log (m_glob s') = log (m_glob s) ++ report p [m] /\ m_mem s' (p + keys) = 0.
Proof.
  intros p Ht Hp1 Hp2. unfold transfer. rewrite (bind_some _ _ _ _ _ (eq_refl (Some (tt, set_mem m s)))).
  destruct (enable_sse_spec (set_mem m s)) as (m1 & E1 & Hlow & _).
  unfold usb_supervisor. rewrite (bind_some _ _ _ _ _ E1).
  unfold glob at 1. rewrite (bind_some _ _ _ _ _ (eq_refl (Some (_, _)))). cbn [m_glob set_mem].
  rewrite (tk_started _ _ _ Ht). cbn [negb].
  unfold glob at 1. do 2 rewrite (bind_some _ _ _ _ _ (eq_refl (Some (_, _)))). cbn [m_glob set_mem m_mem].
  fold p. rewrite (Hlow (p + keys)) by done. cbn [m_mem set_mem].
  set (k := m (p + keys)). set (s1 := Machine m1 _ _ _ _ _ _).
  assert (exists g2, when (negb (k =? 0)) (on_glob (fun g => set_log (log g ++ [(k, key_char k)]) g)) s1 =
      Some (tt, set_glob g2 s1) /\ log g2 = log (m_glob s) ++ report p [m] /\
      data g2 = p /\ started g2 = started (m_glob s) /\ usb_vec g2 = usb_vec (m_glob s)) as (g2 & E2 & Hl & Hd & Hs & Hv).
  { unfold report. cbn [fmap list_fmap]. rewrite filter_cons. fold k. destruct (Z.eqb_spec k 0) as [Hk|Hk].
    - eexists. split; [reflexivity|]. rewrite decide_False by auto. by rewrite app_nil_r.
    - eexists. split; [reflexivity|]. by rewrite decide_True. }
  rewrite (bind_some _ _ _ _ _ E2), (bind_some _ _ _ _ _ (eq_refl (Some (_, _)))).
  set (s3 := set_mem _ _). destruct (forward_spec regs sent s3) as (s' & -> & Hm' & Hg' & Ht').
  { destruct Ht. split; cbn; [congruence..|done|done|done]. }
  exists s'. split_and!; [done|done|by rewrite Hg'..|]. rewrite Hm'. cbn [m_mem s3 set_mem].
  unfold store_le. rewrite store_in by (rewrite length_le_bytes; lia). by rewrite Z.sub_diag.
Qed.

Lemma report_app p xs ys : report p (xs ++ ys) = report p xs ++ report p ys.
Proof. unfold report. by rewrite fmap_app, filter_app, fmap_app. Qed.

Lemma usb_run regs sent ms (s : machine) :
  let p := data (m_glob s) in
  taken regs sent s -> 6 <= p + keys -> p + keys < 0xfffb \/ 0xffff <= p + keys ->
  exists s', for_each ms (transfer (usb_supervisor fuel V)) s = Some (tt, s') /\
    taken regs (sent ++ replicate (length ms) (Z.land 0xff (regs (HIJACKED_OFF V)))) s' /\
    data (m_glob s') = p /\ log (m_glob s') = log (m_glob s) ++ report p ms /\
    (ms <> [] -> m_mem s' (p + keys) = 0).
Proof.
  intros p Ht Hp1 Hp2. induction ms as [|m ms IH] using rev_ind.
  - exists s. split_and!; [done| |done|by rewrite app_nil_r|done]. by rewrite app_nil_r.
  - destruct IH as (s1 & E1 & Ht1 & Hd1 & Hl1 & _). rewrite <- Hd1 in Hp1, Hp2.
    destruct (usb_next regs _ m s1 Ht1 Hp1 Hp2) as (s2 & E2 & Ht2 & Hd2 & Hl2 & Hz). rewrite Hd1 in *.
    exists s2. rewrite for_each_app, (bind_some _ _ _ _ _ E1). cbn [for_each]. rewrite (bind_some _ _ _ _ _ E2).
    split_and!; [done| |done| |done].
    + rewrite length_app, replicate_add, app_assoc. exact Ht2.
    + by rewrite Hl2, Hl1, report_app, app_assoc.
Qed.

Lemma storage_first (s : machine) :
  started (m_glob s) = false ->
  exists s', storage_supervisor fuel hash V s = Some (tt, s') /\ taken (ioapic (m_dev s)) (ipis (m_dev s)) s'.
Proof.
  intros Hf. destruct (enable_sse_spec s) as (m1 & E1 & _).
  unfold storage_supervisor. rewrite (bind_some _ _ _ _ _ E1).
  unfold glob. rewrite (bind_some _ _ _ _ _ (eq_refl (Some (_, _)))). cbn [m_glob]. rewrite Hf. cbn [negb].
  set (s1 := Machine m1 _ _ _ _ _ _). destruct (take_spec s1) as (s2 & E2 & _ & _ & Ht). rewrite E2.
  by eexists.
Qed.

(** The page that the storage variant hashes, in memory left as [m]. *)
Definition hashed (m m' : mem) : Prop :=
  exists page, length page = 4096%nat /\ (forall i b, page !! i = Some b -> 6 <= Z.of_nat i -> b = m (Z.of_nat i)) /\
    load m' hash 16 = hash_bytes (md5_hash page).

Lemma storage_next regs sent m (s : machine) :
  taken regs sent s ->
  exists s', transfer (storage_supervisor fuel hash V) m s = Some (tt, s') /\
    taken regs (sent ++ [Z.land 0xff (regs (HIJACKED_OFF V))]) s' /\ hashed m (m_mem s').
Proof.
  intros Ht. unfold transfer. rewrite (bind_some _ _ _ _ _ (eq_refl (Some (tt, set_mem m s)))).
  destruct (enable_sse_spec (set_mem m s)) as (m1 & E1 & Hlow & _).
  unfold storage_supervisor. rewrite (bind_some _ _ _ _ _ E1).
  unfold glob at 1. rewrite (bind_some _ _ _ _ _ (eq_refl (Some (_, _)))). cbn [m_glob set_mem].
  rewrite (tk_started _ _ _ Ht). cbn [negb]. rewrite (bind_some _ _ _ _ _ (eq_refl (Some (_, _)))).
  set (s2 := set_mem _ (Machine m1 _ _ _ _ _ _)). destruct (forward_spec regs sent s2) as (s' & -> & Hm' & _ & Ht').
  { by destruct Ht. }
  exists s'. split_and!; [done..|]. exists (load m1 0 (Z.to_nat (Z.shiftl 1 12))).
  split_and!; [apply length_load| |].
  - intros i b Hi H6. pose proof (lookup_lt_Some _ _ _ Hi) as Hlt. rewrite length_load in Hlt.
    rewrite lookup_load in Hi by done. simplify_eq. rewrite Z.add_0_l. apply Hlow; [done|].
    change (Z.to_nat (Z.shiftl 1 12)) with 4096%nat in Hlt. lia.
  - rewrite Hm'. cbn [m_mem s2 set_mem]. apply load_store_eq. by destruct (md5_hash _) as [[[]]].
Qed.
End EhciLaws.

(** * Properties *)

(** C31 The USB variant: the first SMI takes the interrupt of the controller and
    leaves every other redirection entry alone. Each later one, whatever the
    controller has transferred by then, records the key of the report with its
    character, wipes it from the report, and sends on the vector that the entry had:
    the system gets one interrupt for each it would have got. *)
Theorem usb_interception {R D} `{PL : PlatformLaws D} fuel ms (s : machine D R ehci_glob) :
  has_x2apic (D := D) -> started (m_glob s) = false -> 0x104 <= u32 (load_le (m_mem s) 0x64 8) ->
  let p := load_le (m_mem s) 0x100 4 in
  6 <= p + keys -> p + keys < 0xfffb \/ 0xffff <= p + keys ->
  let entry := HIJACKED_OFF usb in
  exists s', (let* _ := usb_supervisor fuel usb in for_each ms (transfer (usb_supervisor fuel usb))) s = Some (tt, s') /\
    ipis (m_dev s') = ipis (m_dev s) ++ replicate (length ms) (Z.land 0xff (ioapic (m_dev s) entry)) /\
    Z.land (ioapic (m_dev s') entry) REDIR_RW = APIC_DM_SMI /\
    (forall r, r <> entry -> ioapic (m_dev s') r = ioapic (m_dev s) r) /\
    log (m_glob s') = log (m_glob s) ++ report p ms /\
    (ms <> [] -> m_mem s' (p + keys) = 0).
Proof.
  intros Hx Hf Hb p Hp1 Hp2 entry.
  destruct (usb_first fuel usb (or_introl eq_refl) s Hf Hb) as (s1 & E1 & Ht & Hd & Hl).
  unfold p in Hp1, Hp2. rewrite <- Hd in Hp1, Hp2.
  destruct (usb_run Hx fuel usb _ _ ms s1 Ht Hp1 Hp2) as (s2 & E2 & [_ _ He Ho Hs] & _ & Hl2 & Hz).
  exists s2. rewrite (bind_some _ _ _ _ _ E1). rewrite Hd, Hl in *. by split_and!.
Qed.

Definition demo_leaf (leaf : Z) : cpu_info := Info 0 0 (Z.shiftl 1 21) 0.
#[local] Existing Instance pc_platform.
#[local] Instance demo_devices : Devices pc := pc_devices demo_leaf.
(** The region at 1 MB, the report of the controller at 2 MB. *)
Definition demo_ehci : machine pc unit ehci_glob :=
  Machine (store_le (store_le (fun _ => 0) 0x64 8 0x100000) 0x100 4 0x200000) tt
    (Pc 0 (fun r => 0x2b) [] 0 (0xfee00900, 0)) 0x11 0 xapic (EhciGlob false 0 0 0 0 0 []).

(** The key "a", and an empty report. *)
Lemma usb_interception_witness :
  exists s', (let* _ := usb_supervisor 1 usb in
      for_each [store_le (fun _ => 0) 0x200002 1 4; fun _ => 0] (transfer (usb_supervisor 1 usb))) demo_ehci = Some (tt, s') /\
    ipis (m_dev s') = [0x2b; 0x2b] /\ log (m_glob s') = [(4, Some 97)].
Proof.
  destruct (usb_interception (PL := pc_laws demo_leaf) 1 [store_le (fun _ => 0) 0x200002 1 4; fun _ => 0] demo_ehci)
    as (s' & E & Hi & _ & _ & Hl & _); [by vm_compute..|by right; vm_compute|].
  exists s'. split; [exact E|]. split; [exact Hi|exact Hl].
Defined.

(** The storage variant passes every interrupt on in the same way, and hashes the
    first page of memory. *)
Theorem storage_interception {R D} `{PL : PlatformLaws D} fuel hash ms m (s : machine D R ehci_glob) :
  has_x2apic (D := D) -> started (m_glob s) = false ->
  let entry := HIJACKED_OFF storage in
  exists s', (let* _ := storage_supervisor fuel hash storage in
      for_each (ms ++ [m]) (transfer (storage_supervisor fuel hash storage))) s = Some (tt, s') /\
    ipis (m_dev s') = ipis (m_dev s) ++ replicate (S (length ms)) (Z.land 0xff (ioapic (m_dev s) entry)) /\
    (forall r, r <> entry -> ioapic (m_dev s') r = ioapic (m_dev s) r) /\ hashed hash m (m_mem s').
Proof.
  intros Hx Hf entry. destruct (storage_first fuel hash storage (or_intror eq_refl) s Hf) as (s1 & E1 & Ht).
  rewrite (bind_some _ _ _ _ _ E1). 
  assert (exists s2, for_each ms (transfer (storage_supervisor fuel hash storage)) s1 = Some (tt, s2) /\
    taken storage (ioapic (m_dev s)) (ipis (m_dev s) ++ replicate (length ms) (Z.land 0xff (ioapic (m_dev s) entry))) s2)
    as (s2 & E2 & Ht2).
  { induction ms as [|m' ms IH] using rev_ind; [exists s1; by rewrite app_nil_r|].
    destruct IH as (s2 & E2 & Ht2). destruct (storage_next Hx fuel hash storage _ _ m' s2 Ht2) as (s3 & E3 & Ht3 & _).
    exists s3. rewrite for_each_app, (bind_some _ _ _ _ _ E2). cbn [for_each]. rewrite (bind_some _ _ _ _ _ E3).
    split; [done|]. rewrite length_app, replicate_add, app_assoc. exact Ht3. }
  destruct (storage_next Hx fuel hash storage _ _ m s2 Ht2) as (s3 & E3 & [_ _ _ Ho Hs] & Hh).
  exists s3. rewrite for_each_app, (bind_some _ _ _ _ _ E2). cbn [for_each]. rewrite (bind_some _ _ _ _ _ E3).
  split_and!; [done| |done|done]. by rewrite Hs, replicate_S_end, app_assoc.
Qed.

(** [recover_ehci] writes the vector only: the trigger mode, polarity and mask that
    the entry had are lost. *)
Theorem recover_ehci_drops_modes {R D} `{PL : PlatformLaws D} V (s : machine D R ehci_glob) regs sent :
  known V -> taken V regs sent s ->
  exists s', recover_ehci V s = Some (tt, s') /\
    Z.land (ioapic (m_dev s') (HIJACKED_OFF V)) REDIR_RW = Z.land (Z.land 0xff (regs (HIJACKED_OFF V))) REDIR_RW.
Proof.
  intros HV Ht. assert (0x10 <= HIJACKED_OFF V < 0x40 /\ Z.even (HIJACKED_OFF V) = true) as [Hr He]
    by (by destruct HV as [-> | ->]).
  assert (u32 (usb_vec (m_glob s)) = Z.land 0xff (regs (HIJACKED_OFF V))) as Hv.
  { rewrite (tk_vec _ _ _ _ Ht), Z.land_comm, land_ff. apply wrap_small. pose proof (is_byte_u8 (regs (HIJACKED_OFF V))) as Hb.
    unfold is_byte in Hb. lia. }
  destruct (write_reg_spec (HIJACKED_OFF V) (u32 (usb_vec (m_glob s))) (m_dev s) Hr He) as (d & E & Hw & _).
  exists (set_dev d s). split; [|by rewrite <- Hv].
  unfold recover_ehci, glob. rewrite (bind_some _ _ _ _ _ (eq_refl (Some (_, _)))). unfold on_dev. by rewrite E.
Qed.

(** The tables are shorter than what a report can hold: the scan code of Print Screen
    is beyond the characters, and key code 100 beyond the scan codes. *)
Theorem key_char_outside : key_char 0x46 = None /\ key_char 100 = None.
Proof. done. Qed.
