(* ===== verification/Output.v ===== *)
(** Formatted output of the firmware (output.c): the conversions of [bvprintf], and
    [snprintf]. A format is the list of its characters, the arguments are the 32-bit
    words on the stack, and the output is the list of characters passed to [putc]. *)

From Stdlib Require Import ZArith Lia Bool.
From stdpp Require Import base list.
From S2P Require Import Prelude.

(** * Numbers *)

(** The loop of [putuint]: digits are put in front of [buf]; ten iterations print
    every 32-bit number. *)
Fixpoint putuint_loop (n : nat) (val : Z) (buf : list Z) : list Z :=
  match n with
  | O => buf
  | S n =>
      let buf := val mod 10 + 48 :: buf in
      if val / 10 =? 0 then buf else putuint_loop n (val / 10) buf
  end.
Definition putuint (val : Z) : list Z := putuint_loop 10 val [].

Definition putsinglehex (val : Z) : Z := if val <=? 9 then 48 + val else 97 + val - 10.

(** The fall-through switch: [width] digits, and eight outside 1 to 7. *)
Definition puthex (val width : Z) : list Z :=
  let w := if (1 <=? width) && (width <=? 7) then width else 8 in
  (fun i => putsinglehex (Z.land (Z.shiftr val (4 * (w - 1 - Z.of_nat i))) 0xf)) <$> seq 0 (Z.to_nat w).

(** [while (tmp >>= 4) count++;] *)
Fixpoint hex_count (n : nat) (tmp count : Z) : Z :=
  match n with
  | O => count
  | S n => let tmp := Z.shiftr tmp 4 in if tmp =? 0 then count else hex_count n tmp (count + 1)
  end.
Definition putprettyhex (val width padchar : Z) : list Z :=
  let count := hex_count 8 val 1 in
  replicate (Z.to_nat (width - count)) padchar ++ puthex val count.

Definition isdigit (c : Z) : bool := u8 (c - 48) <? 10.

(** * Formats *)

Section Printf.
(** Memory, for the strings and devices that arguments point to; [fuel] bounds the
    length of a string. *)
Context (m : mem) (fuel : nat).

(** [puts] and [puts_cs]: up to the NUL. *)
Fixpoint puts (n : nat) (s : Z) : option (list Z) :=
  match n with
  | O => None
  | S n => if m s =? 0 then Some [] else (fun l => m s :: l) <$> puts n (s + 1)
  end.
(** "(NULL)" for the null pointer. *)
Definition puts_or_null (s : Z) : option (list Z) :=
  if s =? 0 then Some [40; 78; 85; 76; 76; 41] else puts fuel s.

(** [bdf] is the first field of the device. *)
Definition put_pci_device (pci : Z) : list Z :=
  let bdf := load_le m pci 2 in
  puthex (Z.shiftr bdf 8) 2 ++ [58] ++ puthex (Z.land (Z.shiftr bdf 3) 0x1f) 2 ++ [46] ++ puthex (Z.land bdf 7) 1.

(** The digits after a percent sign: field width, pad character, and the rest. *)
Fixpoint width_digits (n : list Z) (field_width padchar : Z) : Z * Z * list Z :=
  match n with
  | c :: r =>
      if isdigit c then
        if (field_width =? 0) && (c =? 48) then width_digits r field_width 48
        else width_digits r (field_width * 10 + c - 48) padchar
      else (field_width, padchar, n)
  | [] => (field_width, padchar, [])
  end.

(** [va_arg(args, s32)], as an unsigned word. *)
Definition va_arg {A} (args : list Z) (k : Z -> list Z -> option A) : option A :=
  match args with v :: args => k v args | [] => None end.
Definition skip_upper {A} (is64 : bool) (args : list Z) (k : list Z -> option A) : option A :=
  if is64 then va_arg args (fun _ args => k args) else k args.

(** The switch: [c] is the conversion and [n] what follows it. Returns the output,
    the rest of the format and the remaining arguments; the default case resumes
    after the percent sign, at [s]. *)
Definition convert (c : Z) (n s : list Z) (field_width padchar : Z) (is64 : bool) (args : list Z)
    : option (list Z * list Z * list Z) :=
  if c =? 37 then Some ([37], n, args)
  else if c =? 100 then
    va_arg args (fun v args => skip_upper is64 args (fun args =>
      let val := s32 v in
      Some (if val <? 0 then 45 :: putuint (u32 (- val)) else putuint v, n, args)))
  else if c =? 117 then
    va_arg args (fun v args => skip_upper is64 args (fun args => Some (putuint v, n, args)))
  else if c =? 112 then
    va_arg args (fun v args =>
      if hd 0 n =? 80 then Some (put_pci_device v, tl n, args)
      else Some ([48; 120] ++ puthex v 8, n, args))
  else if c =? 120 then
    va_arg args (fun v args =>
      if is64 then
        va_arg args (fun upper args =>
          if negb (upper =? 0)
          then Some (putprettyhex upper (field_width - 8) padchar ++ puthex v 8, n, args)
          else Some (putprettyhex v field_width padchar, n, args))
      else Some (putprettyhex v field_width padchar, n, args))
  else if c =? 99 then va_arg args (fun v args => Some ([u8 v], n, args))
  else if c =? 46 then
    if negb (hd 0 n =? 115) then Some ([], n, args)
    else va_arg args (fun v args => match puts_or_null v with Some l => Some (l, tl n, args) | None => None end)
  else if c =? 115 then
    va_arg args (fun v args => match puts fuel v with Some l => Some (l, n, args) | None => None end)
  else Some ([37], s, args).

(** One pass of the outer loop on the rest of a format that is not empty. *)
Definition directive (c : Z) (s args : list Z) : option (list Z * list Z * list Z) :=
  if negb (c =? 37) then Some ([c], s, args) else
  let '(field_width, padchar, n) := width_digits s 0 32 in
  let n := if hd 0 n =? 108 then tl n else n in
  let is64 := hd 0 n =? 108 in
  let n := if is64 then tl n else n in
  convert (hd 0 n) (tl n) s field_width padchar is64 args.

Fixpoint bvprintf_loop (n : nat) (s args : list Z) : option (list Z) :=
  match n, s with
  | O, _ | _, [] => Some []
  | S n, c :: s =>
      match directive c s args with
      | Some (out, s, args) => (fun l => out ++ l) <$> bvprintf_loop n s args
      | None => None
      end
  end.
(** Every pass consumes a character of the format. *)
Definition bvprintf (fmt args : list Z) : option (list Z) := bvprintf_loop (length fmt) fmt args.

(** The characters that [putc_str] lets through, the NUL, and the length. *)
Definition snprintf (str size : Z) (fmt args : list Z) : option (Z * mem) :=
  if size =? 0 then Some (0, m) else
  match bvprintf fmt args with
  | Some out =>
      let n := Z.of_nat (length out) in
      let end_ := if size <=? n then size - 1 else n in
      Some (end_, store (store m str (take (Z.to_nat size) out)) (str + end_) [0])
  | None => None
  end.
End Printf.

(** * Behaviour *)

Lemma width_digits_shorter n fw pad fw' pad' n' :
  width_digits n fw pad = (fw', pad', n') -> (length n' <= length n)%nat.
Proof.
  revert fw pad. induction n as [|c r IH]; intros fw pad; cbn [width_digits]; [by intros [= _ _ <-]|].
  destruct (isdigit c); [|by intros [= _ _ <-]].
  destruct ((fw =? 0) && (c =? 48)); intros E%IH; cbn; lia.
Qed.

Lemma length_tl_le {A} (l : list A) : (length (tl l) <= length l)%nat.
Proof. destruct l; cbn; lia. Qed.

Lemma convert_shorter m fuel c n s fw pad is64 args out s' args' :
  (length n <= length s)%nat -> convert m fuel c n s fw pad is64 args = Some (out, s', args') ->
  (length s' <= length s)%nat.
Proof.
  intros Hn. pose proof (length_tl_le n). unfold convert, skip_upper, va_arg.
  repeat case_match; intros; simplify_eq; lia.
Qed.

Lemma directive_shorter m fuel c s args out s' args' :
  directive m fuel c s args = Some (out, s', args') -> (length s' <= length s)%nat.
Proof.
  unfold directive. destruct (negb (c =? 37)); [by intros [= _ <- _]|].
  destruct (width_digits s 0 32) as [[fw pad] n] eqn:E. apply width_digits_shorter in E.
  pose proof (length_tl_le n). intros Hc. eapply convert_shorter; [|exact Hc].
  repeat case_match; repeat (etransitivity; [apply length_tl_le|]); lia.
Qed.

(** The fuel of the loop is enough. *)
Lemma bvprintf_fuel m fuel n k s args :
  (length s <= n)%nat -> (length s <= k)%nat ->
  bvprintf_loop m fuel n s args = bvprintf_loop m fuel k s args.
Proof.
  revert k s args. induction n as [|n IH]; intros k s args Hn Hk.
  - destruct s; [|cbn in Hn; lia]. by destruct k.
  - destruct s as [|c s]; [by destruct k|]. destruct k as [|k]; [cbn in Hk; lia|]. cbn [bvprintf_loop].
    destruct (directive m fuel c s args) as [[[out s'] args']|] eqn:E; [|done].
    apply directive_shorter in E. cbn in Hn, Hk. rewrite (IH k) by lia. done.
Qed.

Lemma bvprintf_step m fuel c s args out s' args' :
  directive m fuel c s args = Some (out, s', args') ->
  bvprintf m fuel (c :: s) args = (fun l => out ++ l) <$> bvprintf m fuel s' args'.
Proof.
  intros E. unfold bvprintf at 1. cbn [length bvprintf_loop]. rewrite E. apply directive_shorter in E.
  unfold bvprintf. by rewrite (bvprintf_fuel m fuel (length s) (length s')).
Qed.

(** The text is truncated to the buffer, ends in NUL, and nothing else is written. *)
Lemma snprintf_spec m fuel str size fmt args out :
  0 < size -> bvprintf m fuel fmt args = Some out ->
  let n := Z.min (Z.of_nat (length out)) (size - 1) in
  exists m', snprintf m fuel str size fmt args = Some (n, m') /\
    load m' str (Z.to_nat n + 1) = take (Z.to_nat n) out ++ [0] /\ frame str size m m'.
Proof.
  intros Hs E n. unfold snprintf. rewrite (proj2 (Z.eqb_neq _ _)), E by lia.
  assert ((if size <=? Z.of_nat (length out) then size - 1 else Z.of_nat (length out)) = n) as ->
    by (unfold n; destruct (Z.leb_spec size (Z.of_nat (length out))); lia).
  eexists. split; [reflexivity|]. split.
  - rewrite load_app. f_equal.
    + rewrite load_store_ne by (unfold disjoint; cbn; lia).
      replace (take (Z.to_nat size) out) with (take (Z.to_nat n) out ++ drop (Z.to_nat n) (take (Z.to_nat size) out)).
      2: { rewrite <- (take_drop (Z.to_nat n) (take (Z.to_nat size) out)) at 2. f_equal.
           rewrite take_take. f_equal. lia. }
      rewrite <- store_app, load_store_ne by (rewrite length_take; unfold disjoint; lia).
      apply load_store_eq. rewrite length_take. lia.
    + rewrite Z2Nat.id by lia. by apply load_store_eq.
  - intros x Hx. rewrite !store_out; [done| |].
    + rewrite length_take. lia.
    + cbn. lia.
Qed.
