(* ===== verification/Ether.v ===== *)
(** Ethernet and IP addresses (smx.h): classification, the random address, and the
    conversions between addresses and text. *)

From Stdlib Require Import ZArith Lia Bool.
From stdpp Require Import base list.
From S2P Require Import Prelude Output.

Definition ETH_ALEN : nat := 6.
Definition eth_broadcast : list Z := replicate ETH_ALEN 0xff.

(** * Classification *)

(** The six bytes at [addr]. *)
Definition addr_bytes (m : mem) (addr : Z) (i : nat) : Z := m (addr + Z.of_nat i).

Definition is_zero_ether_addr (m : mem) (addr : Z) : Z :=
  let b := addr_bytes m addr in
  Z.b2z (Z.lor (Z.lor (Z.lor (Z.lor (Z.lor (b 0%nat) (b 1%nat)) (b 2%nat)) (b 3%nat)) (b 4%nat)) (b 5%nat) =? 0).
Definition is_multicast_ether_addr (m : mem) (addr : Z) : Z := Z.land (addr_bytes m addr 0) 0x01.
Definition is_local_ether_addr (m : mem) (addr : Z) : Z := Z.land (addr_bytes m addr 0) 0x02.
Definition is_broadcast_ether_addr (m : mem) (addr : Z) : Z :=
  let b := addr_bytes m addr in
  Z.b2z (Z.land (Z.land (Z.land (Z.land (Z.land (b 0%nat) (b 1%nat)) (b 2%nat)) (b 3%nat)) (b 4%nat)) (b 5%nat) =? 0xff).
Definition is_valid_ether_addr (m : mem) (addr : Z) : Z :=
  Z.b2z ((is_multicast_ether_addr m addr =? 0) && (is_zero_ether_addr m addr =? 0)).

(** The six calls pass the byte itself where a pointer is expected. *)
Definition eth_random_addr (get_random_number_8 : Z -> mem -> mem) (hw_addr : Z) (m : mem) : mem :=
  let m := foldl (fun m i => get_random_number_8 (m (hw_addr + Z.of_nat i)) m) m (seq 0 ETH_ALEN) in
  let m := store m hw_addr [Z.land (m hw_addr) (Z.lnot 0x01)] in
  store m hw_addr [Z.lor (m hw_addr) 0x02].

(** * Text *)

(** "%0x:%0x:%0x:%0x:%0x:%0x" into the static [buf] of 18 bytes. *)
Definition ntoa_format : list Z :=
  [37; 48; 120; 58; 37; 48; 120; 58; 37; 48; 120; 58; 37; 48; 120; 58; 37; 48; 120; 58; 37; 48; 120].
Definition eth_ntoa (buf ll_addr : Z) (m : mem) : option (Z * mem) :=
  match snprintf m 0 buf 18 ntoa_format (load m ll_addr ETH_ALEN) with
  | Some (_, m) => Some (buf, m)
  | None => None
  end.

(** The value of a character as a digit. *)
Definition hex_digit (c : Z) : option Z :=
  if (48 <=? c) && (c <=? 57) then Some (c - 48)
  else if (97 <=? c) && (c <=? 102) then Some (c - 97 + 10)
  else if (65 <=? c) && (c <=? 70) then Some (c - 65 + 10)
  else None.
Definition dec_digit (c : Z) : option Z := if (48 <=? c) && (c <=? 57) then Some (c - 48) else None.

(** The loop of [str2mac] and [str2ip]: [i] is an unsigned char. *)
Fixpoint fields_loop (digit : Z -> option Z) (radix : Z) (fuel : nat) (str i acc out : Z) (m : mem) : option mem :=
  match fuel with
  | O => None
  | S fuel =>
      let c := m (str + i) in
      let '(acc, out, m) :=
        match digit c with
        | Some v => (s32 (acc * radix + v), out, m)
        | None => (0, out + 1, store m out [u8 acc])
        end in
      if c =? 0 then Some m else fields_loop digit radix fuel str (u8 (i + 1)) acc out m
  end.
Definition str2mac (fuel : nat) (str mac : Z) (m : mem) : option mem := fields_loop hex_digit 16 fuel str 0 0 mac m.
Definition str2ip (fuel : nat) (str ip : Z) (m : mem) : option mem := fields_loop dec_digit 10 fuel str 0 0 ip m.

(** * Parsing *)

Section Fields.
Context (digit : Z -> option Z) (radix : Z) (Hnul : digit 0 = None).

(** The bytes that the loop writes for the rest [l] of a text. *)
Fixpoint fields (l : list Z) (acc : Z) : list Z :=
  match l with
  | [] => [u8 acc]
  | c :: l => match digit c with Some v => fields l (s32 (acc * radix + v)) | None => u8 acc :: fields l 0 end
  end.

Lemma fields_loop_spec l str i acc out m fuel :
  load m (str + i) (length l + 1) = l ++ [0] -> Forall (fun c => c <> 0) l ->
  0 <= i -> i + Z.of_nat (length l) < 256 -> (length l < fuel)%nat ->
  disjoint out (Z.of_nat (length (fields l acc))) (str + i) (Z.of_nat (length l + 1)) ->
  exists m', fields_loop digit radix fuel str i acc out m = Some m' /\ m' ≡ store m out (fields l acc).
Proof.
  revert i acc out m fuel. induction l as [|c l IH]; intros i acc out m fuel Hl Hnz Hi Hlen Hf Hd;
    (destruct fuel as [|fuel]; [cbn in Hf; lia|]); cbn [fields_loop fields] in *.
  - cbn in Hl. rewrite Z.add_0_r in Hl. injection Hl as Hc. rewrite Hc, Hnul. by eexists.
  - change (length (c :: l) + 1)%nat with (1 + (length l + 1))%nat in Hl.
    rewrite load_app, load_one in Hl. cbn [app] in Hl. injection Hl as Hc Hl.
    inversion Hnz as [|? ? Hc0 Hnz']; subst. rewrite (proj2 (Z.eqb_neq _ _) Hc0). cbn [length] in *.
    rewrite (wrap_small 8 (i + 1)) by lia. rewrite <- Z.add_assoc in Hl. change (Z.of_nat 1) with 1 in Hl.
    destruct (digit (m (str + i))) as [v|].
    + apply IH; try done; [lia|lia|lia|]. unfold disjoint in *. lia.
    + cbn [length] in Hd. edestruct (IH (i + 1) 0 (out + 1) (store m out [u8 acc]) fuel) as (m' & E & Hm');
        [|done|lia|lia|lia|unfold disjoint in *; lia|].
      * rewrite load_store_ne by (cbn; unfold disjoint in *; lia). exact Hl.
      * exists m'. split; [exact E|]. rewrite Hm'. change (u8 acc :: fields l 0) with ([u8 acc] ++ fields l 0).
        apply (store_app m out [u8 acc]).
Qed.

(** A run of digits. *)
Lemma fields_digits ds vs rest acc :
  Forall2 (fun c v => digit c = Some v) ds vs ->
  fields (ds ++ rest) acc = fields rest (foldl (fun acc v => s32 (acc * radix + v)) acc vs).
Proof. intros H. revert acc. induction H as [|c v ds vs Hc _ IH]; intros acc; [done|]. cbn. by rewrite Hc, IH. Qed.

(** The text [t] is a number in digits with value [b], at most [k] characters long. *)
Definition reads_back (k : nat) (t : list Z) (b : Z) : bool :=
  match mapM digit t with
  | Some vs => (foldl (fun acc v => s32 (acc * radix + v)) 0 vs =? b) && (length t <=? k)%nat
  | None => false
  end.

Lemma reads_back_fields k t b rest :
  reads_back k t b = true -> exists acc, acc = b /\ fields (t ++ rest) 0 = fields rest acc.
Proof.
  unfold reads_back. destruct (mapM digit t) as [vs|] eqn:E; [|done]. intros [Hv%Z.eqb_eq _]%andb_true_iff.
  apply mapM_Some in E. eexists. split; [exact Hv|]. by apply fields_digits.
Qed.

Lemma reads_back_chars k t b : reads_back k t b = true -> Forall (fun c => c <> 0) t /\ (length t <= k)%nat.
Proof.
  unfold reads_back. destruct (mapM digit t) as [vs|] eqn:E; [|done]. intros [_ Hk%Nat.leb_le]%andb_true_iff.
  split; [|done]. apply mapM_Some in E. clear Hk. induction E as [|c v t vs Hc _ IH]; constructor; [|done].
  intros ->. congruence.
Qed.

(** The texts [ts] with [sep] between them. *)
Fixpoint join (sep : Z) (ts : list (list Z)) : list Z :=
  match ts with
  | [] => []
  | [t] => t
  | t :: ts => t ++ sep :: join sep ts
  end.

Lemma fields_join k sep ts bs :
  digit sep = None -> Forall2 (fun t b => reads_back k t b = true /\ is_byte b) ts bs -> ts <> [] ->
  fields (join sep ts) 0 = bs.
Proof.
  intros Hs H. induction H as [|t b ts bs [Ht Hb] H IH]; [done|]. intros _. destruct H as [|t' b' ts bs H' H].
  - cbn [join]. destruct (reads_back_fields k t b [] Ht) as (acc & -> & E). rewrite app_nil_r in E. rewrite E.
    cbn. by rewrite u8_small.
  - change (join sep (t :: t' :: ts)) with (t ++ sep :: join sep (t' :: ts)).
    destruct (reads_back_fields k t b (sep :: join sep (t' :: ts)) Ht) as (acc & -> & ->).
    cbn [fields]. rewrite Hs, u8_small by done. f_equal. by apply IH.
Qed.

Lemma join_chars k sep ts bs :
  sep <> 0 -> Forall2 (fun t b => reads_back k t b = true /\ is_byte b) ts bs -> ts <> [] ->
  Forall (fun c => c <> 0) (join sep ts) /\ (length (join sep ts) < (k + 1) * length ts)%nat.
Proof.
  intros Hs H. induction H as [|t b ts bs [Ht _] H IH]; [done|]. intros _. apply reads_back_chars in Ht as [H1 H2].
  destruct ts as [|t' ts]; [cbn; split; [done|lia]|]. destruct (IH ltac:(done)) as [IH1 IH2].
  change (join sep (t :: t' :: ts)) with (t ++ sep :: join sep (t' :: ts)).
  split; [by apply Forall_app; split; [|apply Forall_cons]|]. rewrite length_app. cbn [length] in *. lia.
Qed.

(** Parsing a text in memory. *)
Lemma parse_join k sep ts bs str out m fuel :
  digit sep = None -> sep <> 0 -> Forall2 (fun t b => reads_back k t b = true /\ is_byte b) ts bs -> ts <> [] ->
  ((k + 1) * length ts < fuel)%nat -> (fuel <= 256)%nat ->
  load m str (length (join sep ts) + 1) = join sep ts ++ [0] ->
  disjoint out (Z.of_nat (length bs)) str (Z.of_nat (length (join sep ts) + 1)) ->
  exists m', fields_loop digit radix fuel str 0 0 out m = Some m' /\ m' ≡ store m out bs.
Proof.
  intros Hd Hs H Hne Hf Hf' Hl Hdis. destruct (join_chars k sep ts bs Hs H Hne) as [Hz Hlen].
  pose proof (fields_join k sep ts bs Hd H Hne) as E. rewrite <- E in Hdis |- *.
  apply fields_loop_spec; rewrite ?Z.add_0_r; try done; lia.
Qed.
End Fields.

(** ** Printed bytes *)

Lemma hex_byte b : is_byte b -> reads_back hex_digit 16 2 (putprettyhex b 0 48) b = true.
Proof. revert b. apply (check_range 256). by vm_compute. Qed.

Lemma dec_byte b : is_byte b -> reads_back dec_digit 10 3 (putuint b) b = true.
Proof. revert b. apply (check_range 256). by vm_compute. Qed.

Lemma print_hex m fuel s v args :
  bvprintf m fuel (37 :: 48 :: 120 :: s) (v :: args) = (fun l => putprettyhex v 0 48 ++ l) <$> bvprintf m fuel s args.
Proof. by apply bvprintf_step. Qed.

Lemma print_colon m fuel s args : bvprintf m fuel (58 :: s) args = (fun l => [58] ++ l) <$> bvprintf m fuel s args.
Proof. by apply bvprintf_step. Qed.

Lemma ntoa_text m fuel b0 b1 b2 b3 b4 b5 :
  bvprintf m fuel ntoa_format [b0; b1; b2; b3; b4; b5] =
  Some (join 58 ((fun b => putprettyhex b 0 48) <$> [b0; b1; b2; b3; b4; b5])).
Proof.
  unfold ntoa_format. do 5 rewrite print_hex, print_colon. rewrite print_hex. unfold bvprintf.
  cbn [bvprintf_loop length fmap option_fmap option_map]. by rewrite app_nil_r.
Qed.

(** * Properties *)

(** Addresses survive as text: [str2mac] parses the text that [eth_ntoa] prints
    for six bytes back to the same six bytes, and writes nothing else. *)
Theorem mac_text_roundtrip buf ll_addr mac m :
  (forall x, is_byte (m x)) -> disjoint mac 6 buf 18 ->
  exists m1 m2, eth_ntoa buf ll_addr m = Some (buf, m1) /\ frame buf 18 m m1 /\
    str2mac 256 buf mac m1 = Some m2 /\ m2 ≡ store m1 mac (load m ll_addr 6).
Proof.
  intros Hm Hd. unfold eth_ntoa. pose proof (bytes_load m ll_addr 6 Hm) as Hb.
  pose proof (length_load m ll_addr 6) as Hl. unfold ETH_ALEN.
  destruct (load m ll_addr 6) as [|b0 [|b1 [|b2 [|b3 [|b4 [|b5 []]]]]]]; try discriminate. clear Hl.
  set (ts := (fun b => putprettyhex b 0 48) <$> [b0; b1; b2; b3; b4; b5]).
  assert (Forall2 (fun t b => reads_back hex_digit 16 2 t b = true /\ is_byte b) ts [b0; b1; b2; b3; b4; b5]) as Hts.
  { unfold ts. apply Forall2_fmap_l, Forall_Forall2_diag. eapply Forall_impl; [exact Hb|].
    intros b Hb'. split; [by apply hex_byte|done]. }
  destruct (join_chars hex_digit 16 eq_refl 2 58 ts _ ltac:(lia) Hts ltac:(done)) as [_ Hlen]. change (length ts) with 6%nat in Hlen.
  destruct (snprintf_spec m 0 buf 18 ntoa_format _ _ ltac:(lia) (ntoa_text m 0 b0 b1 b2 b3 b4 b5))
    as (m1 & -> & Ht & Hf). fold ts in Ht. fold ts in Hlen. rewrite Z.min_l, Nat2Z.id, take_ge in Ht by lia.
  destruct (parse_join hex_digit 16 eq_refl 2 58 ts [b0; b1; b2; b3; b4; b5] buf mac m1 256) as (m2 & E & Hm2);
    try done; [cbn; lia| |].
  - unfold disjoint in *. cbn [length]. lia.
  - exists m1, m2. done.
Qed.

Lemma mac_text_roundtrip_witness :
  exists m1 m2, eth_ntoa 0x100 0x200 (fun x => u8 (37 * x)) = Some (0x100, m1) /\ frame 0x100 18 (fun x => u8 (37 * x)) m1 /\
    str2mac 256 0x100 0x300 m1 = Some m2 /\ m2 ≡ store m1 0x300 (load (fun x => u8 (37 * x)) 0x200 6).
Proof. apply mac_text_roundtrip; [intros x; apply is_byte_u8|right; lia]. Defined.

(** Dotted decimal text: [str2ip] reads back four printed bytes. *)
Lemma ip_text_roundtrip str ip m bs :
  bytes bs -> length bs = 4%nat -> disjoint ip 4 str 16 ->
  load m str (length (join 46 (putuint <$> bs)) + 1) = join 46 (putuint <$> bs) ++ [0] ->
  exists m', str2ip 256 str ip m = Some m' /\ m' ≡ store m ip bs.
Proof.
  intros Hb Hl Hd Ht.
  assert (Forall2 (fun t b => reads_back dec_digit 10 3 t b = true /\ is_byte b) (putuint <$> bs) bs) as Hts.
  { apply Forall2_fmap_l, Forall_Forall2_diag. eapply Forall_impl; [exact Hb|].
    intros b Hb'. split; [by apply dec_byte|done]. }
  assert (putuint <$> bs <> []) as Hne by (by destruct bs).
  destruct (join_chars dec_digit 10 eq_refl 3 46 _ _ ltac:(lia) Hts Hne) as [_ Hlen]. rewrite length_fmap, Hl in Hlen.
  apply (parse_join dec_digit 10 eq_refl 3 46 (putuint <$> bs)); try done; [rewrite length_fmap; lia|].
  rewrite Hl. unfold disjoint in *. lia.
Qed.

(** The address generator leaves the address as it was, but for the two bits it
    sets: the generator is called on the values of the bytes, so what it draws goes
    to the first 256 bytes of memory. *)
Lemma eth_random_addr_not_random get hw_addr m :
  (forall p m, frame p 1 m (get p m)) -> (forall x, is_byte (m x)) ->
  256 <= hw_addr -> (forall p m, (forall x, is_byte (m x)) -> forall x, is_byte (get p m x)) ->
  let m' := eth_random_addr get hw_addr m in
  m' hw_addr = Z.lor (Z.land (m hw_addr) (Z.lnot 1)) 2 /\
  forall i, 0 < i < 6 -> m' (hw_addr + i) = m (hw_addr + i).
Proof.
  intros Hget Hm Hhw Hgb m'. unfold m', eth_random_addr.
  assert (forall js m0, (forall x, is_byte (m0 x)) -> (forall x, 256 <= x -> m0 x = m x) ->
    forall x, 256 <= x -> foldl (fun m i => get (m (hw_addr + Z.of_nat i)) m) m0 js x = m x) as Hfold.
  { induction js as [|i js IH]; intros m0 Hb0 Hsame x Hx; [by apply Hsame|]. cbn [foldl]. apply IH; [by apply Hgb| |done].
    intros y Hy. rewrite Hget; [by apply Hsame|]. right. pose proof (Hb0 (hw_addr + Z.of_nat i)) as [_ Hb]. lia. }
  specialize (Hfold (seq 0 ETH_ALEN) m Hm ltac:(done)). set (m1 := foldl _ m _) in *. split.
  - rewrite (store_in _ hw_addr) by (cbn; lia). rewrite Z.sub_diag. cbn [Z.to_nat nth].
    rewrite (store_in _ hw_addr) by (cbn; lia). rewrite Z.sub_diag. cbn [Z.to_nat nth]. by rewrite Hfold.
  - intros i Hi. rewrite !store_out by (cbn; lia). apply Hfold. lia.
Qed.

(** The two bits make it a valid, locally assigned address. *)
Lemma random_bits_valid m addr b :
  is_byte b -> m addr = Z.lor (Z.land b (Z.lnot 1)) 2 ->
  is_multicast_ether_addr m addr = 0 /\ is_local_ether_addr m addr = 2 /\ is_broadcast_ether_addr m addr = 0.
Proof.
  intros Hb E. unfold is_multicast_ether_addr, is_local_ether_addr, is_broadcast_ether_addr, addr_bytes.
  rewrite Z.add_0_r, E. set (v := Z.lor _ 2).
  assert (Z.testbit v 0 = false) as H0 by (unfold v; rewrite Z.lor_spec, Z.land_spec; change (Z.testbit (Z.lnot 1) 0) with false; by rewrite andb_false_r).
  split_and!.
  - change 1 with (2 ^ 0). apply Z.bits_inj'. intros i Hi. rewrite Z.land_spec, Z.pow2_bits_eqb, Z.bits_0 by lia.
    destruct (Z.eqb_spec 0 i); [subst; by rewrite H0|by rewrite andb_false_r].
  - unfold v. rewrite Z.land_comm, Z.land_lor_distr_r. change (Z.land 2 2) with 2.
    apply Z.bits_inj'. intros i Hi. rewrite Z.lor_spec, !Z.land_spec. by destruct (Z.testbit 2 i); rewrite ?orb_true_r, ?andb_false_l.
  - match goal with |- Z.b2z (?x =? 0xff) = 0 => destruct (Z.eqb_spec x 0xff) as [Ex|]; [|done] end.
    exfalso. assert (Z.testbit 0xff 0 = false) as H by (rewrite <- Ex, !Z.land_spec, H0; done). done.
Qed.
