(* ===== verification/Chksum.v ===== *)
(** The Internet checksum of the network stack in the enclave (inet_chksum.cpp): its
    three summing routines, the checksum of a chain of buffers and the one with the
    IPv4 pseudo header, against RFC 1071. *)

From Stdlib Require Import ZArith Lia Bool.
From stdpp Require Import base list.
From S2P Require Import Prelude.

Definition SWAP_BYTES_IN_WORD (w : Z) : Z :=
  Z.lor (Z.shiftl (Z.land w 0xff) 8) (Z.shiftr (Z.land w 0xff00) 8).
Definition FOLD_U32T (u : Z) : Z := u32 (Z.shiftr u 16 + Z.land u 0xffff).
Definition lwip_htons (n : Z) : Z := u16 (Z.lor (Z.shiftl (Z.land n 0x00ff) 8) (Z.shiftr (Z.land n 0xff00) 8)).

Section Sums.
Context (m : mem).

(** * Version 1: in network order, a byte at a time *)

Fixpoint octets_loop (n : nat) (octetptr len acc : Z) : Z * Z * Z :=
  match n with
  | O => (octetptr, len, acc)
  | S n =>
      if 1 <? len then
        let src := u16 (Z.shiftl (m octetptr) 8) in
        let src := Z.lor src (m (octetptr + 1)) in
        octets_loop n (octetptr + 2) (len - 2) (u32 (acc + src))
      else (octetptr, len, acc)
  end.

Definition lwip_standard_chksum_1 (dataptr len : Z) : Z :=
  let '(octetptr, len, acc) := octets_loop (Z.to_nat len) dataptr len 0 in
  let acc := if 0 <? len then u32 (acc + u16 (Z.shiftl (m octetptr) 8)) else acc in
  let acc := u32 (Z.shiftr acc 16 + Z.land acc 0xffff) in
  let acc := if negb (Z.land acc 0xffff0000 =? 0) then u32 (Z.shiftr acc 16 + Z.land acc 0xffff) else acc in
  lwip_htons (u16 acc).

(** * Version 2: two bytes at a time *)

(** [while (len > 1) { sum += *ps++; len -= 2; }] *)
Fixpoint words_loop (n : nat) (ps len sum : Z) : Z * Z * Z :=
  match n with
  | O => (ps, len, sum)
  | S n => if 1 <? len then words_loop n (ps + 2) (len - 2) (u32 (sum + load_le m ps 2)) else (ps, len, sum)
  end.

(** The bytes of [t] that an odd start and an odd end fill. *)
Definition head_byte (dataptr len : Z) : Z * Z * Z :=
  if negb (Z.land dataptr 1 =? 0) && (0 <? len) then (dataptr + 1, len - 1, Z.shiftl (m dataptr) 8) else (dataptr, len, 0).
Definition tail_byte (ps len t : Z) : Z := if 0 <? len then Z.lor (Z.land t 0xff00) (m ps) else t.

Definition lwip_standard_chksum (dataptr len : Z) : Z :=
  let odd := Z.land dataptr 1 in
  let '(pb, len, t) := head_byte dataptr len in
  let '(ps, len, sum) := words_loop (Z.to_nat len) pb len 0 in
  let t := tail_byte ps len t in
  let sum := u32 (sum + t) in
  let sum := FOLD_U32T sum in
  let sum := FOLD_U32T sum in
  let sum := if negb (odd =? 0) then SWAP_BYTES_IN_WORD sum else sum in
  u16 sum.

(** * Version 3: eight bytes at a time *)

(** One addition with the carry added back. *)
Definition add_carry (sum w : Z) : Z :=
  let tmp := u32 (sum + w) in if tmp <? sum then u32 (tmp + 1) else tmp.

Fixpoint longs_loop (n : nat) (pl len sum : Z) : Z * Z * Z :=
  match n with
  | O => (pl, len, sum)
  | S n =>
      if 7 <? len then
        let tmp := add_carry sum (load_le m pl 4) in
        let sum := add_carry tmp (load_le m (pl + 4) 4) in
        longs_loop n (pl + 8) (len - 8) sum
      else (pl, len, sum)
  end.

Definition lwip_standard_chksum_3 (dataptr len : Z) : Z :=
  let odd := Z.land dataptr 1 in
  let '(ps, len, t) := head_byte dataptr len in
  let '(ps, len, sum) :=
    if negb (Z.land ps 3 =? 0) && (1 <? len) then (ps + 2, len - 2, load_le m ps 2) else (ps, len, 0) in
  let '(pl, len, sum) := longs_loop (Z.to_nat len) ps len sum in
  let sum := FOLD_U32T sum in
  let '(ps, len, sum) := words_loop (Z.to_nat len) pl len sum in
  let t := tail_byte ps len t in
  let sum := u32 (sum + t) in
  let sum := FOLD_U32T sum in
  let sum := FOLD_U32T sum in
  let sum := if negb (odd =? 0) then SWAP_BYTES_IN_WORD sum else sum in
  u16 sum.

(** * Checksums of packets *)

Definition inet_chksum (dataptr len : Z) : Z := u16 (Z.lnot (lwip_standard_chksum dataptr len)).

(** A chain of buffers: the payload and length of each. *)
Record pbuf := Pbuf { payload : Z; len : Z }.

(** The loop over the chain: [acc] and [swapped]. *)
Definition chain_step (st : Z * bool) (q : pbuf) : Z * bool :=
  let '(acc, swapped) := st in
  let acc := u32 (acc + lwip_standard_chksum (payload q) (len q)) in
  let acc := FOLD_U32T acc in
  if negb (len q `mod` 2 =? 0) then (SWAP_BYTES_IN_WORD acc, negb swapped) else (acc, swapped).
Definition chain_sum (p : list pbuf) (acc : Z) : Z :=
  let '(acc, swapped) := foldl chain_step (acc, false) p in
  if swapped : bool then SWAP_BYTES_IN_WORD acc else acc.

Definition inet_chksum_pbuf (p : list pbuf) : Z :=
  let acc := chain_sum p 0 in
  u16 (Z.lnot (Z.land acc 0xffff)).

Definition inet_cksum_pseudo_base (p : list pbuf) (proto proto_len acc : Z) : Z :=
  let acc := chain_sum p acc in
  let acc := u32 (acc + lwip_htons (u16 proto)) in
  let acc := u32 (acc + lwip_htons proto_len) in
  let acc := FOLD_U32T acc in
  let acc := FOLD_U32T acc in
  u16 (Z.lnot (Z.land acc 0xffff)).

(** The addresses are given by the 32-bit words that hold them in network order. *)
Definition pseudo_addresses (src dest : Z) : Z :=
  let acc := Z.land src 0xffff in
  let acc := u32 (acc + Z.land (Z.shiftr src 16) 0xffff) in
  let acc := u32 (acc + Z.land dest 0xffff) in
  let acc := u32 (acc + Z.land (Z.shiftr dest 16) 0xffff) in
  let acc := FOLD_U32T acc in
  FOLD_U32T acc.

Definition inet_chksum_pseudo (p : list pbuf) (proto proto_len src dest : Z) : Z :=
  inet_cksum_pseudo_base p proto proto_len (pseudo_addresses src dest).
(** With IPv4 only. *)
Definition ip_chksum_pseudo (p : list pbuf) (proto proto_len src dest : Z) : Z := inet_chksum_pseudo p proto proto_len src dest.

(** The loop over the part of the chain that [chksum_len] covers, without its
    assertion: [LWIP_NOASSERT] is defined in lwipopts.h. *)
Fixpoint partial_loop (p : list pbuf) (chksum_len acc : Z) (swapped : bool) : Z * bool :=
  match p with
  | [] => (acc, swapped)
  | q :: p =>
      if 0 <? chksum_len then
        let chklen := len q in
        let chklen := if chksum_len <? chklen then chksum_len else chklen in
        let acc := u32 (acc + lwip_standard_chksum (payload q) chklen) in
        let chksum_len := u16 (chksum_len - chklen) in
        let acc := FOLD_U32T acc in
        if negb (len q `mod` 2 =? 0) then partial_loop p chksum_len (SWAP_BYTES_IN_WORD acc) (negb swapped)
        else partial_loop p chksum_len acc swapped
      else (acc, swapped)
  end.

(** What [LWIP_ASSERT("delete me", chksum_len < 0x7fff)] in the body of the loop
    tests: that it holds in each iteration. *)
Fixpoint partial_asserts (p : list pbuf) (chksum_len : Z) : bool :=
  match p with
  | [] => true
  | q :: p =>
      if 0 <? chksum_len then
        let chklen := len q in
        let chklen := if chksum_len <? chklen then chksum_len else chklen in
        let chksum_len := u16 (chksum_len - chklen) in
        (chksum_len <? 0x7fff) && partial_asserts p chksum_len
      else true
  end.

Definition inet_cksum_pseudo_partial_base (p : list pbuf) (proto proto_len chksum_len acc : Z) : Z :=
  let '(acc, swapped) := partial_loop p chksum_len acc false in
  let acc := if swapped : bool then SWAP_BYTES_IN_WORD acc else acc in
  let acc := u32 (acc + lwip_htons (u16 proto)) in
  let acc := u32 (acc + lwip_htons proto_len) in
  let acc := FOLD_U32T acc in
  let acc := FOLD_U32T acc in
  u16 (Z.lnot (Z.land acc 0xffff)).

Definition inet_chksum_pseudo_partial (p : list pbuf) (proto proto_len chksum_len src dest : Z) : Z :=
  inet_cksum_pseudo_partial_base p proto proto_len chksum_len (pseudo_addresses src dest).
Definition ip_chksum_pseudo_partial (p : list pbuf) (proto proto_len chksum_len src dest : Z) : Z :=
  inet_chksum_pseudo_partial p proto proto_len chksum_len src dest.
End Sums.

(** [MEMCPY], then the checksum of the copy. *)
Definition lwip_chksum_copy (dst src len : Z) (m : mem) : Z * mem :=
  let m := memcpy m dst src (Z.to_nat len) in
  (lwip_standard_chksum m dst len, m).

(** * RFC 1071 *)

Module Rfc1071.
(** One's complement addition of 16-bit numbers: the carry is added back. *)
Definition add (a b : Z) : Z := if a + b <? 65536 then a + b else a + b - 65535.
(** The bytes in pairs, the first the more significant, padded with a zero. *)
Fixpoint words (l : list Z) : list Z :=
  match l with
  | a :: b :: l => 256 * a + b :: words l
  | [a] => [256 * a]
  | [] => []
  end.
Definition sum (l : list Z) : Z := foldl add 0 (words l).
Definition checksum (l : list Z) : Z := 65535 - sum l.
End Rfc1071.

(** * One's complement sums *)

(** The 16-bit number that stands for a sum: zero only for zero, and otherwise the
    residue modulo 65535 between 1 and 65535. *)
Definition oc (s : Z) : Z := if s =? 0 then 0 else (s - 1) `mod` 65535 + 1.

Lemma oc_range s : 0 <= oc s <= 65535.
Proof. unfold oc. destruct (s =? 0); [lia|]. pose proof (Z.mod_pos_bound (s - 1) 65535). lia. Qed.

Lemma oc_small s : 0 <= s <= 65535 -> oc s = s.
Proof. intros Hs. unfold oc. destruct (Z.eqb_spec s 0); [lia|]. rewrite Z.mod_small; lia. Qed.

Lemma oc_le s : 0 <= s -> oc s <= s.
Proof.
  intros Hs. unfold oc. destruct (Z.eqb_spec s 0); [lia|]. pose proof (Z.mod_le (s - 1) 65535). lia.
Qed.

Lemma oc_iff a b : 0 <= a -> 0 <= b ->
  oc a = oc b <-> ((a = 0 <-> b = 0) /\ (65535 | a - b)).
Proof.
  intros Ha Hb. unfold oc. destruct (Z.eqb_spec a 0) as [->|Ha0], (Z.eqb_spec b 0) as [->|Hb0].
  - split; [|done]. intros _. split; [done|]. by exists 0.
  - pose proof (Z.mod_pos_bound (b - 1) 65535). split; [lia|]. intros [[] _]. lia.
  - pose proof (Z.mod_pos_bound (a - 1) 65535). split; [lia|]. intros [[] _]. lia.
  - pose proof (Z.div_mod (a - 1) 65535). pose proof (Z.div_mod (b - 1) 65535). split.
    + intros E. split; [lia|]. exists ((a - 1) / 65535 - (b - 1) / 65535). lia.
    + intros [_ [k Hk]]. f_equal. replace (a - 1) with (b - 1 + k * 65535) by lia. apply Z.mod_add. lia.
Qed.

Lemma oc_eq a b k : 0 <= a -> 0 <= b -> (a = 0 <-> b = 0) -> a = b + 65535 * k -> oc a = oc b.
Proof. intros Ha Hb Hz E. apply oc_iff; [done..|]. split; [done|]. exists k. lia. Qed.

Lemma oc_add a a' b b' : 0 <= a -> 0 <= a' -> 0 <= b -> 0 <= b' ->
  oc a = oc a' -> oc b = oc b' -> oc (a + b) = oc (a' + b').
Proof.
  intros Ha Ha' Hb Hb' E1 E2. apply oc_iff in E1 as [Z1 [k1 K1]], E2 as [Z2 [k2 K2]]; [|done..].
  apply oc_iff; [lia..|]. split; [lia|]. exists (k1 + k2). lia.
Qed.

Lemma oc_mul c a a' : 0 < c -> 0 <= a -> 0 <= a' -> oc a = oc a' -> oc (c * a) = oc (c * a').
Proof.
  intros Hc Ha Ha' E. apply oc_iff in E as [Hz [k K]]; [|done..]. apply oc_iff; [nia..|].
  split; [nia|]. exists (c * k). nia.
Qed.

Lemma oc_oc a : oc (oc a) = oc a.
Proof. apply oc_small, oc_range. Qed.

(** A sum and its complement. *)
Lemma oc_complement a : 0 <= a -> oc (a + (65535 - oc a)) = 65535.
Proof.
  intros Ha. pose proof (oc_range a). pose proof (oc_le a Ha). assert (oc (oc a) = oc a) as Eo by apply oc_oc. apply oc_iff in Eo as [_ [k Hk]]; [|lia..].
  transitivity (oc 65535); [|done]. apply (oc_eq _ _ (- k)); lia.
Qed.

Lemma oc_65536 a b : 0 <= a -> 0 <= b -> oc (a + 65536 * b) = oc (a + b).
Proof. intros Ha Hb. apply (oc_eq _ _ b); lia. Qed.

Lemma fold_value s : 0 <= s < 2 ^ 32 -> FOLD_U32T s = s / 65536 + s `mod` 65536 /\ 0 <= FOLD_U32T s <= 0x1fffe.
Proof.
  intros Hs. unfold FOLD_U32T. rewrite Z.shiftr_div_pow2 by lia. change 0xffff with (Z.ones 16). rewrite Z.land_ones by lia.
  change (2 ^ 16) with 65536. pose proof (Z.div_mod s 65536). pose proof (Z.mod_pos_bound s 65536).
  rewrite (wrap_small 32) by lia. split; [done|lia].
Qed.

Lemma fold_oc s : 0 <= s < 2 ^ 32 -> oc (FOLD_U32T s) = oc s.
Proof.
  intros Hs. destruct (fold_value s Hs) as [-> _]. pose proof (Z.div_mod s 65536). pose proof (Z.mod_pos_bound s 65536).
  symmetry. apply (oc_eq _ _ (s / 65536)); lia.
Qed.

Lemma fold_once s : 0 <= s <= 0x1fffe -> FOLD_U32T s = oc s.
Proof.
  intros Hs. rewrite <- fold_oc by lia. destruct (fold_value s ltac:(lia)) as [E _]. symmetry. apply oc_small. rewrite E.
  pose proof (Z.div_mod s 65536). pose proof (Z.mod_pos_bound s 65536). lia.
Qed.

Lemma fold_twice s : 0 <= s < 2 ^ 32 -> FOLD_U32T (FOLD_U32T s) = oc s.
Proof. intros Hs. rewrite fold_once by (by apply fold_value). by apply fold_oc. Qed.

Lemma swap_value w : 0 <= w <= 65535 -> SWAP_BYTES_IN_WORD w = 256 * (w `mod` 256) + w / 256.
Proof.
  intros Hw. unfold SWAP_BYTES_IN_WORD. change 0xff with (Z.ones 8). rewrite Z.land_ones by lia.
  replace (Z.shiftr (Z.land w 0xff00) 8) with (w / 256).
  - change (2 ^ 8) with 256. pose proof (Z.div_mod w 256). pose proof (Z.mod_pos_bound w 256).
    rewrite lor_shiftl_add by lia. lia.
  - change 0xff00 with (Z.shiftl 0xff 8). rewrite Z.shiftr_land, Z.shiftr_shiftl_l, Z.shiftl_0_r by lia.
    change 0xff with (Z.ones 8). rewrite Z.land_ones, Z.shiftr_div_pow2 by lia. symmetry. apply Z.mod_small.
    change (2 ^ 8) with 256. pose proof (Z.div_mod w 256). pose proof (Z.mod_pos_bound w 256). lia.
Qed.

Lemma swap_oc w : 0 <= w <= 65535 -> SWAP_BYTES_IN_WORD w = oc (256 * w).
Proof.
  intros Hw. rewrite swap_value by done. pose proof (Z.div_mod w 256). pose proof (Z.mod_pos_bound w 256).
  rewrite <- (oc_small (256 * _ + _)) by lia. symmetry. apply (oc_eq _ _ (w / 256)); lia.
Qed.

Lemma htons_oc w : 0 <= w <= 65535 -> lwip_htons w = oc (256 * w).
Proof.
  intros Hw. unfold lwip_htons. change (Z.lor _ _) with (SWAP_BYTES_IN_WORD w). rewrite swap_oc by done.
  apply (wrap_small 16). pose proof (oc_range (256 * w)). lia.
Qed.

(** * The value of a string of bytes *)

(** Least significant first; modulo 65535 it does not matter where a byte at an even
    offset stands. *)
Fixpoint val (l : list Z) : Z :=
  match l with
  | [] => 0
  | b :: l => b + 256 * val l
  end.

Lemma val_nonneg l : bytes l -> 0 <= val l.
Proof. induction 1 as [|b l Hb _ IH]; cbn [val]; unfold is_byte in *; lia. Qed.

Lemma val_pair a b l : 0 <= a -> 0 <= b -> 0 <= val l -> oc (val (a :: b :: l)) = oc (a + 256 * b + val l).
Proof. intros Ha Hb Hl. cbn [val]. rewrite <- (oc_65536 (a + 256 * b)) by lia. f_equal. lia. Qed.

(** What follows an even or an odd number of bytes. *)
Lemma val_app c l k : bytes l -> bytes k -> 0 < c ->
  oc (c * val (l ++ k)) = oc (c * val l + (if Nat.even (length l) then c else 256 * c) * val k).
Proof.
  intros Hl Hk. revert c. induction Hl as [|b l Hb Hl IH]; intros c Hc; [f_equal; cbn [val app]; by rewrite Z.mul_0_r|].
  pose proof (val_nonneg _ Hl). pose proof (val_nonneg _ Hk).
  assert (0 <= val (l ++ k)) by (by apply val_nonneg, Forall_app).
  pose proof (IH (256 * c) ltac:(lia)) as E. cbn [app val length]. unfold is_byte in Hb.
  replace (c * (b + 256 * val (l ++ k))) with (c * b + 256 * c * val (l ++ k)) by lia.
  rewrite Nat.even_succ, <- Nat.negb_even. destruct (Nat.even (length l)); cbn [negb].
  - replace (c * (b + 256 * val l) + 256 * c * val k) with (c * b + (256 * c * val l + 256 * c * val k)) by lia.
    apply oc_add; [nia..|done|done].
  - rewrite (oc_add (c * b) (c * b) _ (256 * c * val l + 256 * (256 * c) * val k)) by (nia || done).
    replace (c * b + (256 * c * val l + 256 * (256 * c) * val k))
      with (c * (b + 256 * val l) + 65536 * (c * val k)) by lia.
    apply oc_65536; nia.
Qed.

Lemma le_val_val l : bytes l -> le_val l = val l.
Proof.
  induction 1 as [|b l Hb _ IH]; [done|]. cbn [le_val val]. unfold is_byte in Hb.
  rewrite Z.lor_comm, lor_shiftl_add, IH by lia. lia.
Qed.

Section Code.
Context (m : mem) (Hm : forall a, is_byte (m a)).

(** The value of the [n] bytes at [p]. *)
Definition at_ (p n : Z) : Z := val (load m p (Z.to_nat n)).

Lemma at_nonneg p n : 0 <= at_ p n.
Proof. by apply val_nonneg, bytes_load. Qed.

Lemma at_0 p n : n <= 0 -> at_ p n = 0.
Proof. intros Hn. unfold at_. by replace (Z.to_nat n) with O by lia. Qed.

Lemma at_S p n : 0 < n -> at_ p n = m p + 256 * at_ (p + 1) (n - 1).
Proof.
  intros Hn. unfold at_. replace (Z.to_nat n) with (1 + Z.to_nat (n - 1))%nat by lia.
  rewrite load_app. cbn [load seq fmap list_fmap app val]. by rewrite Z.add_0_r.
Qed.

Lemma load_le_at p k : load_le m p k = at_ p (Z.of_nat k).
Proof. unfold load_le, at_. rewrite Nat2Z.id. by apply le_val_val, bytes_load. Qed.

(** Splitting off an even number of bytes. *)
Lemma at_split p k n : 0 <= k <= n -> k `mod` 2 = 0 -> oc (at_ p n) = oc (at_ p k + at_ (p + k) (n - k)).
Proof.
  intros Hk He. unfold at_. replace (Z.to_nat n) with (Z.to_nat k + Z.to_nat (n - k))%nat by lia.
  rewrite load_app, <- (Z.mul_1_l (val (_ ++ _))), val_app by (by apply bytes_load || lia).
  rewrite length_load, Z.mul_1_l, Z2Nat.id by lia.
  assert (Nat.even (Z.to_nat k) = true) as ->; [|by rewrite Z.mul_1_l].
  apply Nat.even_spec. exists (Z.to_nat (k / 2)). pose proof (Z.div_mod k 2). lia.
Qed.

Lemma at_word p : 0 <= load_le m p 2 <= 65535.
Proof. rewrite load_le_at. change (Z.of_nat 2) with 2. rewrite !at_S, at_0 by lia. pose proof (Hm p). pose proof (Hm (p + 1)). unfold is_byte in *. lia. Qed.

Lemma words_loop_spec n : forall p len sum, 0 <= len <= 2 * Z.of_nat n + 1 -> 0 <= sum ->
  sum + 65535 * (len / 2) < 2 ^ 32 ->
  exists sum', words_loop m n p len sum = (p + 2 * (len / 2), len `mod` 2, sum') /\
    0 <= sum' <= sum + 65535 * (len / 2) /\ oc sum' = oc (sum + at_ p (2 * (len / 2))).
Proof.
  induction n as [|n IH]; intros p len sum Hlen Hsum Hmax; cbn [words_loop].
  { assert (len / 2 = 0 /\ len `mod` 2 = len) as [E1 E2] by (pose proof (Z.div_mod len 2); pose proof (Z.mod_pos_bound len 2); lia).
    rewrite E1, E2, at_0, !Z.add_0_r by lia. exists sum. split_and!; [done|lia..|done]. }
  destruct (Z.ltb_spec 1 len) as [Hl|Hl].
  2:{ assert (len / 2 = 0 /\ len `mod` 2 = len) as [E1 E2] by (pose proof (Z.div_mod len 2); pose proof (Z.mod_pos_bound len 2); lia).
    rewrite E1, E2, at_0, !Z.add_0_r by lia. exists sum. split_and!; [done|lia..|done]. }
  assert ((len - 2) / 2 = len / 2 - 1 /\ (len - 2) `mod` 2 = len `mod` 2) as [E1 E2].
  { replace (len - 2) with (len + (-1) * 2) by lia. rewrite Z.div_add, Z.mod_add by lia. lia. }
  pose proof (at_word p) as Hw. pose proof (Z.div_mod len 2). pose proof (Z.mod_pos_bound len 2).
  rewrite (wrap_small 32) by lia.
  destruct (IH (p + 2) (len - 2) (sum + load_le m p 2)) as (sum' & -> & Hr & Ho); [lia..|].
  rewrite E1, E2 in *. exists sum'. split_and!; [do 2 f_equal; lia|lia..|]. rewrite Ho.
  rewrite <- Z.add_assoc. pose proof (at_nonneg (p + 2) (2 * (len / 2 - 1))). pose proof (at_nonneg p (2 * (len / 2))).
  apply oc_add; [lia..|done|]. rewrite (at_split p 2 (2 * (len / 2))), load_le_at by (lia || done).
  by replace (2 * (len / 2) - 2) with (2 * (len / 2 - 1)) by lia.
Qed.

Lemma parity p : Z.land p 1 = p `mod` 2.
Proof. change 1 with (Z.ones 1). by rewrite Z.land_ones by lia. Qed.

(** The bytes of [t] as a number. *)
Lemma tail_byte_spec p len x : 0 <= len <= 1 -> 0 <= x < 256 ->
  tail_byte m p len (256 * x) = 256 * x + at_ p len.
Proof.
  intros Hlen Hx. unfold tail_byte. destruct (Z.ltb_spec 0 len).
  - pose proof (Hm p) as Hp. unfold is_byte in Hp. replace len with 1 by lia. rewrite at_S, at_0 by lia.
    replace (Z.land (256 * x) 0xff00) with (Z.shiftl x 8).
    + rewrite lor_shiftl_add by lia. lia.
    + replace (256 * x) with (Z.shiftl x 8) by (rewrite Z.shiftl_mul_pow2; lia).
      change 0xff00 with (Z.shiftl 0xff 8). rewrite <- Z.shiftl_land. f_equal. change 0xff with (Z.ones 8).
      rewrite Z.land_ones by lia. symmetry. by apply Z.mod_small.
  - rewrite at_0 by lia. lia.
Qed.

Lemma head_byte_shape p len pb len1 t0 : 0 <= len -> head_byte m p len = (pb, len1, t0) ->
  exists x, t0 = 256 * x /\ 0 <= x < 256 /\ (len1 = len /\ x = 0 \/ len1 = len - 1 /\ 0 < len).
Proof.
  intros Hlen. unfold head_byte. pose proof (Hm p) as Hp. unfold is_byte in Hp.
  destruct (negb _ && _) eqn:E; intros; simplify_eq; [|exists 0; lia].
  apply andb_true_iff in E as [_ E]. apply Z.ltb_lt in E. rewrite Z.shiftl_mul_pow2 by lia. exists (m p). lia.
Qed.

Lemma tail_byte_le p r x : 0 <= x < 256 -> 0 <= r <= 1 -> 0 <= tail_byte m p r (256 * x) <= 256 * x + 255 * r.
Proof.
  intros Hx Hr. pose proof (Hm p). unfold is_byte in *. rewrite tail_byte_spec by lia.
  destruct (Z.eq_dec r 0) as [->|]; [rewrite at_0; lia|]. replace r with 1 by lia. rewrite at_S, at_0 by lia. lia.
Qed.

(** The end of versions 2 and 3: [sum] holds the words between the two end bytes. *)
Lemma finish_spec p len pb len1 t0 sum r :
  0 <= len -> head_byte m p len = (pb, len1, t0) -> 0 <= r <= 1 -> r <= len1 -> (len1 - r) `mod` 2 = 0 ->
  0 <= sum -> oc sum = oc (at_ pb (len1 - r)) ->
  let t := tail_byte m (pb + (len1 - r)) r t0 in
  sum + t < 2 ^ 32 ->
  let sum := FOLD_U32T (FOLD_U32T (u32 (sum + t))) in
  u16 (if negb (Z.land p 1 =? 0) then SWAP_BYTES_IN_WORD sum else sum) = oc (at_ p len).
Proof.
  intros Hlen Hh Hr Hrl He Hsum Ho t Ht. subst t.
  destruct (head_byte_shape p len pb len1 t0 Hlen Hh) as (x & -> & Hx & _). unfold head_byte in Hh. rewrite parity in *.
  rewrite tail_byte_spec in * by done. pose proof (at_nonneg (pb + (len1 - r)) r).
  rewrite (wrap_small 32), fold_twice by lia.
  assert (oc (sum + (256 * x + at_ (pb + (len1 - r)) r)) = oc (256 * x + at_ pb len1)) as ->.
  { rewrite (oc_add sum (at_ pb (len1 - r)) _ (256 * x + at_ (pb + (len1 - r)) r)) by (done || lia || apply at_nonneg).
    replace (at_ pb (len1 - r) + (256 * x + at_ (pb + (len1 - r)) r))
      with (256 * x + (at_ pb (len1 - r) + at_ (pb + (len1 - r)) r)) by lia.
    pose proof (at_nonneg pb (len1 - r)). pose proof (at_nonneg pb len1).
    apply oc_add; [lia..|done|]. rewrite (at_split pb (len1 - r) len1) by (lia || done).
    by replace (len1 - (len1 - r)) with r by lia. }
  pose proof (oc_range (256 * x + at_ pb len1)). pose proof (at_nonneg pb len1).
  destruct (Z.eqb_spec (p `mod` 2) 0) as [Hp|Hp]; cbn [negb andb] in *.
  - simplify_eq. assert (x = 0) as -> by lia. by rewrite (wrap_small 16) by lia.
  - destruct (Z.ltb_spec 0 len).
    + simplify_eq. pose proof (Hm p). unfold is_byte in *. assert (x = m p) as -> by (rewrite Z.shiftl_mul_pow2 in *; lia).
      rewrite swap_oc by lia. rewrite (wrap_small 16) by (pose proof (oc_range (256 * oc (256 * m p + at_ (p + 1) (len - 1)))); lia).
      rewrite (oc_mul 256 _ (256 * m p + at_ (p + 1) (len - 1))) by (lia || apply oc_oc).
      replace (256 * (256 * m p + at_ (p + 1) (len - 1))) with (256 * at_ (p + 1) (len - 1) + 65536 * m p) by lia.
      rewrite oc_65536, (at_S p len) by lia. f_equal. lia.
    + simplify_eq. assert (x = 0) as -> by lia. by rewrite at_0 by lia.
Qed.

(** Version 2 computes the canonical sum for lengths up to 0x20000. *)
Lemma chksum_value p len : 0 <= len <= 0x20000 -> lwip_standard_chksum m p len = oc (at_ p len).
Proof.
  intros Hlen. unfold lwip_standard_chksum. destruct (head_byte m p len) as [[pb len1] t0] eqn:Hh.
  destruct (head_byte_shape p len pb len1 t0 ltac:(lia) Hh) as (x & -> & Hx & Hc).
  pose proof (Z.div_mod len1 2). pose proof (Z.mod_pos_bound len1 2).
  destruct (words_loop_spec (Z.to_nat len1) pb len1 0) as (sum & -> & Hs & Ho); [lia..|].
  assert (2 * (len1 / 2) = len1 - len1 `mod` 2) as E by lia.
  pose proof (tail_byte_le (pb + 2 * (len1 / 2)) (len1 `mod` 2) x Hx ltac:(lia)). rewrite E in *.
  apply (finish_spec p len pb len1 (256 * x)); [lia|done|lia|lia| |lia|done|lia].
  rewrite <- E. rewrite Z.mul_comm. by apply Z.mod_mul.
Qed.

Lemma add_carry_spec a b : 0 <= a < 2 ^ 32 -> 0 <= b < 2 ^ 32 ->
  0 <= add_carry a b < 2 ^ 32 /\ oc (add_carry a b) = oc (a + b).
Proof.
  intros Ha Hb. unfold add_carry, wrap. destruct (Z.lt_ge_cases (a + b) (2 ^ 32)).
  - rewrite Z.mod_small by lia. destruct (Z.ltb_spec (a + b) a); [lia|]. split; [lia|done].
  - assert ((a + b) `mod` 2 ^ 32 = a + b - 2 ^ 32) as -> by (symmetry; apply (Z.mod_unique _ _ 1); lia).
    destruct (Z.ltb_spec (a + b - 2 ^ 32) a); [|lia]. rewrite Z.mod_small by lia.
    split; [lia|]. apply (oc_eq _ _ (-65537)); lia.
Qed.

Lemma at_long p : 0 <= load_le m p 4 < 2 ^ 32.
Proof. exact (load_le_range m p 4 Hm). Qed.

Lemma longs_loop_spec n : forall p len sum, 0 <= len <= 8 * Z.of_nat n + 7 -> 0 <= sum < 2 ^ 32 ->
  exists sum', longs_loop m n p len sum = (p + 8 * (len / 8), len `mod` 8, sum') /\
    0 <= sum' < 2 ^ 32 /\ oc sum' = oc (sum + at_ p (8 * (len / 8))).
Proof.
  induction n as [|n IH]; intros p len sum Hlen Hsum; cbn [longs_loop].
  { rewrite Z.div_small, Z.mod_small, at_0, !Z.add_0_r by lia. by exists sum. }
  destruct (Z.ltb_spec 7 len) as [Hl|Hl].
  2:{ rewrite Z.div_small, Z.mod_small, at_0, !Z.add_0_r by lia. by exists sum. }
  assert ((len - 8) / 8 = len / 8 - 1 /\ (len - 8) `mod` 8 = len `mod` 8) as [E1 E2].
  { replace (len - 8) with (len + (-1) * 8) by lia. rewrite Z.div_add, Z.mod_add by lia. lia. }
  pose proof (Z.div_mod len 8). pose proof (Z.mod_pos_bound len 8).
  destruct (add_carry_spec sum (load_le m p 4) Hsum (at_long p)) as [R1 O1]. set (s1 := add_carry sum _) in *.
  destruct (add_carry_spec s1 (load_le m (p + 4) 4) R1 (at_long (p + 4))) as [R2 O2]. set (s2 := add_carry s1 _) in *.
  destruct (IH (p + 8) (len - 8) s2) as (sum' & -> & Hr & Ho); [lia|done|].
  rewrite E1, E2 in *. exists sum'. split_and!; [do 2 f_equal; lia|lia..|]. rewrite Ho. set (k := 8 * (len / 8)).
  replace (8 * (len / 8 - 1)) with (k - 8) by lia. pose proof (at_nonneg (p + 8) (k - 8)).
  pose proof (at_long p). pose proof (at_long (p + 4)). pose proof (at_nonneg p k). pose proof (at_nonneg p 8).
  transitivity (oc (sum + at_ p 8 + at_ (p + 8) (k - 8))).
  - apply oc_add; [lia..| |done]. rewrite O2.
    rewrite (oc_add s1 (sum + load_le m p 4) _ (load_le m (p + 4) 4)) by (lia || done).
    rewrite <- Z.add_assoc. apply oc_add; [lia..|done|]. rewrite !load_le_at. change (Z.of_nat 4) with 4.
    symmetry. exact (at_split p 4 8 ltac:(lia) eq_refl).
  - rewrite <- Z.add_assoc. apply oc_add; [lia..|done|]. symmetry. apply at_split; [lia|done].
Qed.

(** Version 3 computes it for every length. *)
Lemma chksum_3_value p len : 0 <= len < 2 ^ 31 -> lwip_standard_chksum_3 m p len = oc (at_ p len).
Proof.
  intros Hlen. unfold lwip_standard_chksum_3. destruct (head_byte m p len) as [[pb len1] t0] eqn:Hh.
  destruct (head_byte_shape p len pb len1 t0 ltac:(lia) Hh) as (x & -> & Hx & Hc).
  assert (exists k sum0, (if negb (Z.land pb 3 =? 0) && (1 <? len1) then (pb + 2, len1 - 2, load_le m pb 2) else (pb, len1, 0)) =
    (pb + k, len1 - k, sum0) /\ 0 <= k <= len1 /\ k `mod` 2 = 0 /\ 0 <= sum0 <= 65535 /\ sum0 = at_ pb k)
    as (k & sum0 & -> & Hk & Hke & Hs0 & Ha0).
  { destruct (negb _ && _) eqn:E.
    - apply andb_true_iff in E as [_ E]. apply Z.ltb_lt in E. exists 2, (load_le m pb 2). pose proof (at_word pb).
      split_and!; try done; try lia. by rewrite load_le_at.
    - exists 0, 0. rewrite at_0, Z.add_0_r, Z.sub_0_r by lia. split_and!; try done; lia. }
  destruct (longs_loop_spec (Z.to_nat (len1 - k)) (pb + k) (len1 - k) sum0) as (sum1 & -> & Hs1 & Ho1); [lia..|].
  set (q := 8 * ((len1 - k) / 8)) in *. set (r8 := (len1 - k) `mod` 8).
  assert (len1 - k = q + r8 /\ 0 <= r8 < 8 /\ q `mod` 2 = 0) as (Eq & Hr8 & Hq).
  { unfold q, r8. pose proof (Z.div_mod (len1 - k) 8). pose proof (Z.mod_pos_bound (len1 - k) 8). split_and!; try lia.
    replace (8 * ((len1 - k) / 8)) with (4 * ((len1 - k) / 8) * 2) by lia. by apply Z.mod_mul. }
  destruct (fold_value sum1 Hs1) as [_ Hf]. pose proof (fold_oc sum1 Hs1) as Hfo. set (f := FOLD_U32T sum1) in *.
  pose proof (Z.div_mod r8 2). pose proof (Z.mod_pos_bound r8 2).
  destruct (words_loop_spec (Z.to_nat r8) (pb + k + q) r8 f) as (sum & -> & Hs & Ho); [lia..|].
  set (r := r8 `mod` 2) in *. assert (len1 - r = k + q + 2 * (r8 / 2)) as EL by lia.
  assert (oc sum = oc (at_ pb (len1 - r))) as HO.
  { rewrite Ho. pose proof (at_nonneg (pb + k + q) (2 * (r8 / 2))). pose proof (at_nonneg pb (k + q)).
    pose proof (at_nonneg (pb + k) q). pose proof (at_nonneg pb (len1 - r)).
    rewrite (oc_add f (at_ pb (k + q)) _ (at_ (pb + k + q) (2 * (r8 / 2)))); [|lia..| |done].
    - rewrite EL, (at_split pb (k + q)); [|lia|rewrite Zplus_mod, Hke, Hq; done].
      replace (k + q + 2 * (r8 / 2) - (k + q)) with (2 * (r8 / 2)) by lia. by rewrite Z.add_assoc.
    - rewrite Hfo, Ho1, Ha0, (at_split pb k (k + q)) by (lia || done).
      by replace (k + q - k) with q by lia. }
  pose proof (tail_byte_le (pb + (len1 - r)) r x Hx ltac:(lia)).
  replace (pb + k + q + 2 * (r8 / 2)) with (pb + (len1 - r)) by lia.
  apply (finish_spec p len pb len1 (256 * x)); [lia|done|lia|lia| |lia|done|lia].
  rewrite EL. replace (2 * (r8 / 2)) with (r8 / 2 * 2) by lia. rewrite Z.mod_add by done.
  by rewrite Zplus_mod, Hke, Hq.
Qed.

Lemma octets_loop_spec n : forall p len acc, 0 <= len <= 2 * Z.of_nat n + 1 -> 0 <= acc ->
  acc + 65535 * (len / 2) < 2 ^ 32 ->
  exists acc', octets_loop m n p len acc = (p + 2 * (len / 2), len `mod` 2, acc') /\
    0 <= acc' <= acc + 65535 * (len / 2) /\ oc (256 * acc') = oc (256 * acc + at_ p (2 * (len / 2))).
Proof.
  induction n as [|n IH]; intros p len acc Hlen Hacc Hmax; cbn [octets_loop].
  { rewrite Z.div_small, Z.mod_small, at_0, !Z.add_0_r by lia. exists acc. split_and!; [done|lia..|done]. }
  destruct (Z.ltb_spec 1 len) as [Hl|Hl].
  2:{ rewrite Z.div_small, Z.mod_small, at_0, !Z.add_0_r by lia. exists acc. split_and!; [done|lia..|done]. }
  assert ((len - 2) / 2 = len / 2 - 1 /\ (len - 2) `mod` 2 = len `mod` 2) as [E1 E2].
  { replace (len - 2) with (len + (-1) * 2) by lia. rewrite Z.div_add, Z.mod_add by lia. lia. }
  pose proof (Hm p) as Hp. pose proof (Hm (p + 1)) as Hp1. unfold is_byte in Hp, Hp1.
  pose proof (Z.div_mod len 2). pose proof (Z.mod_pos_bound len 2).
  rewrite (wrap_small 16) by (rewrite Z.shiftl_mul_pow2; lia). rewrite lor_shiftl_add by lia.
  rewrite (wrap_small 32) by lia. change (2 ^ 8) with 256.
  destruct (IH (p + 2) (len - 2) (acc + (m p * 256 + m (p + 1)))) as (acc' & -> & Hr & Ho); [lia..|].
  rewrite E1, E2 in *. exists acc'. split_and!; [do 2 f_equal; lia|lia..|]. rewrite Ho.
  set (k := 2 * (len / 2)). replace (2 * (len / 2 - 1)) with (k - 2) by lia. pose proof (at_nonneg (p + 2) (k - 2)).
  rewrite (at_S p), (at_S (p + 1)) by lia. replace (p + 1 + 1) with (p + 2) by lia. replace (k - 1 - 1) with (k - 2) by lia.
  replace (256 * (acc + (m p * 256 + m (p + 1))) + at_ (p + 2) (k - 2))
    with (256 * acc + 256 * m (p + 1) + at_ (p + 2) (k - 2) + 65536 * m p) by lia.
  replace (256 * acc + (m p + 256 * (m (p + 1) + 256 * at_ (p + 2) (k - 2))))
    with (256 * acc + 256 * m (p + 1) + m p + 65536 * at_ (p + 2) (k - 2)) by lia.
  rewrite !oc_65536 by lia. f_equal. lia.
Qed.

(** Version 1 computes it for lengths up to 0x20000. *)
Lemma chksum_1_value p len : 0 <= len <= 0x20000 -> lwip_standard_chksum_1 m p len = oc (at_ p len).
Proof.
  intros Hlen. unfold lwip_standard_chksum_1. pose proof (Z.div_mod len 2). pose proof (Z.mod_pos_bound len 2).
  destruct (octets_loop_spec (Z.to_nat len) p len 0) as (acc & -> & Hr & Ho); [lia..|].
  pose proof (Hm (p + 2 * (len / 2))) as Hp. unfold is_byte in Hp.
  assert (exists acc', (if 0 <? len `mod` 2 then u32 (acc + u16 (Z.shiftl (m (p + 2 * (len / 2))) 8)) else acc) = acc' /\
    0 <= acc' < 2 ^ 32 /\ oc (256 * acc') = oc (at_ p len)) as (acc' & -> & Hr' & Ho').
  { destruct (Z.ltb_spec 0 (len `mod` 2)).
    - rewrite Z.shiftl_mul_pow2, (wrap_small 16), (wrap_small 32) by lia. eexists. split; [done|]. split; [lia|].
      pose proof (at_nonneg p (2 * (len / 2))).
      rewrite (at_split p (2 * (len / 2)) len); [|lia|rewrite Z.mul_comm; by apply Z.mod_mul].
      replace (len - 2 * (len / 2)) with 1 by lia.
      rewrite (at_S (p + 2 * (len / 2)) 1), (at_0 (p + 2 * (len / 2) + 1)) by lia.
      replace (256 * (acc + m (p + 2 * (len / 2)) * 2 ^ 8)) with (256 * acc + 65536 * m (p + 2 * (len / 2))) by lia.
      rewrite oc_65536 by lia. apply oc_add; [lia..|exact Ho|]. f_equal. lia.
    - exists acc. split; [done|]. split; [lia|]. rewrite Ho. by replace (2 * (len / 2)) with len by lia. }
  change (u32 (Z.shiftr acc' 16 + Z.land acc' 0xffff)) with (FOLD_U32T acc').
  destruct (fold_value acc' Hr') as [_ Hf]. pose proof (fold_oc acc' Hr') as Hfo. set (f := FOLD_U32T acc') in *.
  assert ((if negb (Z.land f 0xffff0000 =? 0) then u32 (Z.shiftr f 16 + Z.land f 0xffff) else f) = oc acc') as ->.
  { change (u32 (Z.shiftr f 16 + Z.land f 0xffff)) with (FOLD_U32T f). rewrite <- Hfo.
    destruct (Z.eqb_spec (Z.land f 0xffff0000) 0) as [Hz|]; cbn [negb]; [|by apply fold_once].
    symmetry. apply oc_small.
    assert (Z.land (f / 65536) (Z.ones 16) = 0) as Hh.
    { change 0xffff0000 with (Z.shiftl (Z.ones 16) 16) in Hz. apply (f_equal (fun z => Z.shiftr z 16)) in Hz.
      rewrite Z.shiftr_land, Z.shiftr_shiftl_l, Z.shiftl_0_r, Z.shiftr_div_pow2 in Hz by lia. exact Hz. }
    pose proof (Z.div_mod f 65536). pose proof (Z.mod_pos_bound f 65536).
    rewrite Z.land_ones, Z.mod_small in Hh by lia. lia. }
  pose proof (oc_range acc'). rewrite (wrap_small 16), htons_oc by lia. rewrite <- Ho'.
  apply oc_mul; [lia..|]. by apply oc_oc.
Qed.
End Code.

(** * RFC 1071 in these terms *)

Lemma rfc_add a b : 0 <= a <= 65535 -> 0 <= b <= 65535 -> Rfc1071.add a b = oc (a + b).
Proof.
  intros Ha Hb. unfold Rfc1071.add. destruct (Z.ltb_spec (a + b) 65536); [by rewrite oc_small by lia|].
  rewrite <- (oc_small (a + b - 65535)) by lia. apply (oc_eq _ _ (-1)); lia.
Qed.

Lemma words_val l : bytes l -> forall a, 0 <= a <= 65535 ->
  0 <= foldl Rfc1071.add a (Rfc1071.words l) <= 65535 /\
  oc (256 * foldl Rfc1071.add a (Rfc1071.words l)) = oc (256 * a + val l).
Proof.
  intros Hl. remember (length l) as n eqn:Hn. revert l Hl Hn.
  induction n as [n IH] using lt_wf_ind. intros [|x [|y l]] Hl -> a Ha; cbn [Rfc1071.words foldl val].
  - split; [done|]. by rewrite Z.add_0_r.
  - apply Forall_cons in Hl as [Hx _]. unfold is_byte in Hx. rewrite rfc_add by lia. split; [apply oc_range|].
    rewrite (oc_mul 256 _ (a + 256 * x)) by (lia || apply oc_oc || apply oc_range).
    replace (256 * (a + 256 * x)) with (256 * a + 65536 * x) by lia. rewrite oc_65536 by lia. f_equal. lia.
  - apply Forall_cons in Hl as [Hx Hl]. apply Forall_cons in Hl as [Hy Hl]. unfold is_byte in Hx, Hy.
    rewrite rfc_add by lia. destruct (IH (length l) ltac:(cbn; lia) l Hl eq_refl (oc (a + (256 * x + y))) (oc_range _)) as [Hr ->].
    split; [done|]. pose proof (val_nonneg _ Hl). pose proof (oc_range (a + (256 * x + y))).
    rewrite (oc_add _ (256 * (a + (256 * x + y))) _ (val l));
      [|lia..|apply oc_mul; [lia..|apply oc_oc]|done].
    replace (256 * (a + (256 * x + y)) + val l) with (256 * a + 256 * y + val l + 65536 * x) by lia.
    replace (256 * a + (x + 256 * (y + 256 * val l))) with (256 * a + 256 * y + x + 65536 * val l) by lia.
    rewrite !oc_65536 by lia. f_equal. lia.
Qed.

Lemma rfc_sum_range l : bytes l -> 0 <= Rfc1071.sum l <= 65535.
Proof. intros Hl. by apply (words_val l Hl 0). Qed.

(** In host order the sum is the canonical one. *)
Lemma rfc_sum_val l : bytes l -> lwip_htons (Rfc1071.sum l) = oc (val l).
Proof. intros Hl. rewrite htons_oc by (by apply rfc_sum_range). by apply (words_val l Hl 0). Qed.

Lemma htons_complement x : 0 <= x <= 65535 -> lwip_htons (65535 - x) = 65535 - lwip_htons x.
Proof.
  intros Hx. unfold lwip_htons. change (Z.lor _ _) with (SWAP_BYTES_IN_WORD (65535 - x)) at 1.
  change (Z.lor (Z.shiftl (Z.land x 255) 8) _) with (SWAP_BYTES_IN_WORD x). rewrite !swap_value by lia.
  pose proof (Z.div_mod x 256). pose proof (Z.mod_pos_bound x 256).
  assert ((65535 - x) / 256 = 255 - x / 256) as -> by (symmetry; apply (Z.div_unique _ _ _ (255 - x `mod` 256)); lia).
  assert ((65535 - x) `mod` 256 = 255 - x `mod` 256) as -> by (symmetry; apply (Z.mod_unique _ _ (255 - x / 256)); lia).
  rewrite !(wrap_small 16) by lia. lia.
Qed.

Lemma rfc_checksum_val l : bytes l -> lwip_htons (Rfc1071.checksum l) = 65535 - oc (val l).
Proof.
  intros Hl. unfold Rfc1071.checksum. rewrite htons_complement by (by apply rfc_sum_range). by rewrite rfc_sum_val.
Qed.

Lemma lnot_16 x : 0 <= x <= 65535 -> u16 (Z.lnot x) = 65535 - x.
Proof. intros Hx. unfold wrap, Z.lnot. symmetry. apply (Z.mod_unique _ _ (-1)); lia. Qed.

(** * Chains of buffers *)

Section Packets.
Context (m : mem) (Hm : forall a, is_byte (m a)).

Definition pbuf_bytes (q : pbuf) : list Z := load m (payload q) (Z.to_nat (len q)).
Definition chain_bytes (p : list pbuf) : list Z := p ≫= pbuf_bytes.
(** The lengths are 16-bit numbers. *)
Definition chain_ok (p : list pbuf) : Prop := Forall (fun q => 0 <= len q < 65536) p.

Lemma bytes_chain p : bytes (chain_bytes p).
Proof. induction p as [|q p IH]; [constructor|]. apply Forall_app. split; [by apply bytes_load|done]. Qed.

(** [acc] is the sum so far, multiplied by 256 as long as [swapped] is set. *)
Definition weight (swapped : bool) : Z := if swapped then 256 else 1.

Lemma weight_pos sw : 0 < weight sw.
Proof. by destruct sw. Qed.

Lemma add_weight T v sw : 0 <= T -> 0 <= v ->
  FOLD_U32T (u32 (oc (weight sw * T) + oc v)) = oc (weight sw * (T + weight sw * v)).
Proof.
  intros HT Hv. pose proof (oc_range (weight sw * T)). pose proof (oc_range v). pose proof (weight_pos sw).
  rewrite (wrap_small 32), fold_once by lia. rewrite (oc_add _ (weight sw * T) _ v) by (apply oc_oc || nia).
  destruct sw; cbn [weight]; [|f_equal; lia].
  replace (256 * (T + 256 * v)) with (256 * T + 65536 * v) by lia. by rewrite oc_65536 by lia.
Qed.

Lemma swap_weight T sw : 0 <= T -> SWAP_BYTES_IN_WORD (oc (weight sw * T)) = oc (weight (negb sw) * T).
Proof.
  intros HT. pose proof (oc_range (weight sw * T)). pose proof (weight_pos sw). rewrite swap_oc by lia.
  rewrite (oc_mul 256 _ (weight sw * T)) by (apply oc_oc || nia). destruct sw; cbn [weight negb]; [|f_equal; lia].
  replace (256 * (256 * T)) with (0 + 65536 * T) by lia. rewrite oc_65536 by lia. f_equal. lia.
Qed.

Lemma even_len q : 0 <= len q -> Nat.even (length (pbuf_bytes q)) = (len q `mod` 2 =? 0).
Proof.
  intros Hq. unfold pbuf_bytes. rewrite length_load. pose proof (Z.div_mod (len q) 2). pose proof (Z.mod_pos_bound (len q) 2).
  destruct (Z.eqb_spec (len q `mod` 2) 0) as [Hz|Hz].
  - apply Nat.even_spec. exists (Z.to_nat (len q / 2)). lia.
  - rewrite <- Nat.negb_odd. apply negb_false_iff, Nat.odd_spec. exists (Z.to_nat (len q / 2)). lia.
Qed.

Lemma chain_step_spec T swapped q : 0 <= T -> 0 <= len q < 65536 ->
  let '(acc, swapped') := chain_step m (oc (weight swapped * T), swapped) q in
  swapped' = xorb swapped (negb (Nat.even (length (pbuf_bytes q)))) /\
  acc = oc (weight swapped' * (T + weight swapped * val (pbuf_bytes q))).
Proof.
  intros HT Hq. unfold chain_step. rewrite chksum_value by (done || lia).
  change (at_ m (payload q) (len q)) with (val (pbuf_bytes q)).
  pose proof (val_nonneg (pbuf_bytes q) (bytes_load _ _ _ Hm)) as Hv. pose proof (weight_pos swapped).
  rewrite add_weight, even_len by lia.
  destruct (len q `mod` 2 =? 0); cbn [negb]; [by rewrite xorb_false_r|]. rewrite xorb_true_r.
  split; [done|]. apply swap_weight. nia.
Qed.

(** What follows a buffer counts with the weight the buffer leaves. *)
Lemma weight_app q rest T sw : 0 <= T -> bytes rest ->
  let sw1 := xorb sw (negb (Nat.even (length (pbuf_bytes q)))) in
  oc (T + weight sw * val (pbuf_bytes q) + weight sw1 * val rest) = oc (T + weight sw * val (pbuf_bytes q ++ rest)).
Proof.
  intros HT Hr sw1. assert (bytes (pbuf_bytes q)) as Hb by (by apply bytes_load). pose proof (val_nonneg _ Hb).
  pose proof (val_nonneg _ Hr). assert (0 <= val (pbuf_bytes q ++ rest)) by (apply val_nonneg; by apply Forall_app).
  pose proof (weight_pos sw). pose proof (weight_pos sw1). rewrite <- Z.add_assoc.
  apply oc_add; [nia..|done|]. rewrite val_app by done. unfold sw1.
  destruct (Nat.even (length (pbuf_bytes q))); cbn [negb]; [by rewrite xorb_false_r|]. rewrite xorb_true_r.
  destruct sw; cbn [weight negb]; [|done].
  replace (256 * 256 * val rest) with (65536 * val rest) by lia. rewrite oc_65536 by lia. f_equal. lia.
Qed.

Lemma chain_loop_spec p : chain_ok p -> forall T swapped, 0 <= T ->
  let '(acc, swapped') := foldl (chain_step m) (oc (weight swapped * T), swapped) p in
  acc = oc (weight swapped' * (T + weight swapped * val (chain_bytes p))).
Proof.
  induction 1 as [|q p Hq _ IH]; intros T swapped HT; cbn [foldl].
  { cbn. f_equal. lia. }
  pose proof (chain_step_spec T swapped q HT Hq) as Hs.
  destruct (chain_step m (oc (weight swapped * T), swapped) q) as [acc1 sw1]. destruct Hs as [-> ->].
  pose proof (val_nonneg (pbuf_bytes q) (bytes_load _ _ _ Hm)). pose proof (weight_pos swapped).
  pose proof (val_nonneg _ (bytes_chain p)). pose proof (val_nonneg _ (bytes_chain (q :: p))).
  set (sw1 := xorb swapped _). specialize (IH (T + weight swapped * val (pbuf_bytes q)) sw1 ltac:(nia)).
  destruct (foldl _ _ p) as [acc sw2]. rewrite IH. pose proof (weight_pos sw1).
  apply oc_mul; [apply weight_pos|nia|nia|]. apply weight_app; [done|apply bytes_chain].
Qed.

Lemma chain_sum_value p acc : chain_ok p -> 0 <= acc <= 65535 -> chain_sum m p acc = oc (acc + val (chain_bytes p)).
Proof.
  intros Hp Ha. unfold chain_sum. pose proof (chain_loop_spec p Hp acc false ltac:(lia)) as E.
  cbn [weight] in E. rewrite Z.mul_1_l, oc_small in E by lia.
  destruct (foldl _ _ p) as [acc' sw]. rewrite !Z.mul_1_l in E. pose proof (val_nonneg _ (bytes_chain p)).
  rewrite E. destruct sw; [rewrite swap_weight by lia|]; cbn [weight negb]; by rewrite Z.mul_1_l.
Qed.

Lemma partial_loop_spec p : chain_ok p -> forall n T swapped, 0 <= T -> 0 <= n < 65536 ->
  let '(acc, swapped') := partial_loop m p n (oc (weight swapped * T)) swapped in
  acc = oc (weight swapped' * (T + weight swapped * val (take (Z.to_nat n) (chain_bytes p)))).
Proof.
  induction 1 as [|q p Hq _ IH]; intros n T swapped HT Hn; cbn [partial_loop].
  { change (chain_bytes []) with (@nil Z). rewrite take_nil. cbn [val]. f_equal. lia. }
  destruct (Z.ltb_spec 0 n) as [Hpos|Hz].
  2:{ replace (Z.to_nat n) with O by lia. rewrite take_0. cbn [val]. by rewrite Z.mul_0_r, Z.add_0_r. }
  change (chain_bytes (q :: p)) with (pbuf_bytes q ++ chain_bytes p). pose proof (weight_pos swapped).
  destruct (Z.ltb_spec n (len q)) as [Hlt|Hge].
  - rewrite chksum_value by (done || lia). rewrite take_app_le by (unfold pbuf_bytes; rewrite length_load; lia).
    assert (take (Z.to_nat n) (pbuf_bytes q) = load m (payload q) (Z.to_nat n)) as ->.
    { unfold pbuf_bytes. replace (Z.to_nat (len q)) with (Z.to_nat n + Z.to_nat (len q - n))%nat by lia.
      rewrite load_app. apply take_app_length'. by rewrite length_load. }
    fold (at_ m (payload q) n). pose proof (at_nonneg m Hm (payload q) n).
    rewrite Z.sub_diag, add_weight by lia. change (u16 0) with 0.
    destruct (negb _); destruct p; cbn [partial_loop Z.ltb Z.compare]; rewrite ?swap_weight by nia; done.
  - rewrite chksum_value by (done || lia). fold (pbuf_bytes q).
    change (at_ m (payload q) (len q)) with (val (pbuf_bytes q)).
    pose proof (val_nonneg (pbuf_bytes q) (bytes_load _ _ _ Hm)) as Hv.
    rewrite (wrap_small 16 (n - len q)), add_weight by lia.
    assert (length (pbuf_bytes q) = Z.to_nat (len q)) as Hl by (unfold pbuf_bytes; by rewrite length_load).
    rewrite take_app_ge by lia. rewrite Hl. replace (Z.to_nat n - Z.to_nat (len q))%nat with (Z.to_nat (n - len q)) by lia.
    set (rest := take _ _). assert (bytes rest) as Hr by (apply Forall_take, bytes_chain).
    pose proof (val_nonneg _ Hr). pose proof (weight_app q rest T swapped HT Hr) as HW. cbn zeta in HW.
    rewrite even_len in HW by lia.
    assert (0 <= val (pbuf_bytes q ++ rest)) by (apply val_nonneg, Forall_app; split; [by apply bytes_load|done]).
    destruct (len q `mod` 2 =? 0); cbn [negb] in *.
    + specialize (IH (n - len q) (T + weight swapped * val (pbuf_bytes q)) swapped ltac:(nia) ltac:(lia)). fold rest in IH.
      destruct (partial_loop _ _ _ _ _) as [acc sw2]. rewrite IH. apply oc_mul; [apply weight_pos|nia..|].
      rewrite xorb_false_r in HW. exact HW.
    + rewrite swap_weight by nia.
      specialize (IH (n - len q) (T + weight swapped * val (pbuf_bytes q)) (negb swapped) ltac:(nia) ltac:(lia)). fold rest in IH.
      destruct (partial_loop _ _ _ _ _) as [acc sw2]. rewrite IH. pose proof (weight_pos (negb swapped)).
      apply oc_mul; [apply weight_pos|nia..|]. rewrite xorb_true_r in HW. exact HW.
Qed.

(** The first iteration decides: afterwards less is left. *)
Lemma partial_asserts_small p : chain_ok p -> forall n, 0 <= n < 0x7fff -> partial_asserts p n = true.
Proof.
  induction 1 as [|q p Hq _ IH]; intros n Hn; cbn [partial_asserts]; [done|]. destruct (Z.ltb_spec 0 n); [|done].
  set (k := if n <? len q then n else len q). assert (0 <= k <= n) by (unfold k; destruct (Z.ltb_spec n (len q)); lia).
  rewrite (wrap_small 16) by lia. rewrite IH by lia. rewrite (proj2 (Z.ltb_lt _ _)) by lia. done.
Qed.

Lemma partial_asserts_spec q p n : chain_ok (q :: p) -> 0 <= n < 65536 ->
  partial_asserts (q :: p) n = (n - len q <? 0x7fff).
Proof.
  intros [Hq Hp]%Forall_cons Hn. cbn [partial_asserts]. destruct (Z.ltb_spec 0 n); [|symmetry; apply Z.ltb_lt; lia].
  set (k := if n <? len q then n else len q).
  assert (k = Z.min n (len q)) as -> by (unfold k; destruct (Z.ltb_spec n (len q)); lia). rewrite (wrap_small 16) by lia.
  destruct (Z.ltb_spec (n - len q) 0x7fff).
  - rewrite partial_asserts_small by (done || lia). rewrite (proj2 (Z.ltb_lt _ _)) by lia. done.
  - rewrite (proj2 (Z.ltb_ge _ _)) by lia. done.
Qed.

(** The pseudo header of RFC 768 and RFC 793, as bytes. *)
Definition pseudo_header (src dest proto proto_len : Z) : list Z :=
  le_bytes 4 src ++ le_bytes 4 dest ++ [0; proto] ++ [proto_len / 256; proto_len `mod` 256].

Lemma le_bytes_val n x : 0 <= x < 2 ^ (8 * Z.of_nat n) -> val (le_bytes n x) = x.
Proof. intros Hx. rewrite <- le_val_val by apply bytes_le_bytes. by rewrite le_val_le_bytes, wrap_small. Qed.

Lemma addresses_value src dest : 0 <= src < 2 ^ 32 -> 0 <= dest < 2 ^ 32 ->
  pseudo_addresses src dest = oc (src + dest).
Proof.
  intros Hs Hd. unfold pseudo_addresses. change 0xffff with (Z.ones 16). rewrite !Z.land_ones, !Z.shiftr_div_pow2 by lia.
  change (2 ^ 16) with 65536. pose proof (Z.div_mod src 65536). pose proof (Z.mod_pos_bound src 65536).
  pose proof (Z.div_mod dest 65536). pose proof (Z.mod_pos_bound dest 65536).
  rewrite (Z.mod_small (src / 65536)), (Z.mod_small (dest / 65536)) by lia. rewrite (wrap_small 32 (src `mod` _ + _)) by lia.
  rewrite (wrap_small 32 (_ + dest `mod` _)) by lia. rewrite (wrap_small 32), fold_twice by lia.
  symmetry. apply (oc_eq _ _ (src / 65536 + dest / 65536)); lia.
Qed.

Lemma pseudo_header_value src dest proto proto_len l :
  0 <= src < 2 ^ 32 -> 0 <= dest < 2 ^ 32 -> is_byte proto -> 0 <= proto_len < 65536 -> bytes l ->
  bytes (pseudo_header src dest proto proto_len) /\
  oc (val (pseudo_header src dest proto proto_len ++ l)) =
    oc (src + dest + val l + 256 * proto + (proto_len / 256 + 256 * (proto_len `mod` 256))).
Proof.
  intros Hs Hd Hp Hlen Hl. pose proof (Z.div_mod proto_len 256). pose proof (Z.mod_pos_bound proto_len 256).
  assert (bytes (pseudo_header src dest proto proto_len)) as Hb.
  { unfold pseudo_header. rewrite !Forall_app. split_and!; try apply bytes_le_bytes; repeat constructor; unfold is_byte in *; lia. }
  split; [done|]. pose proof (val_nonneg _ Hl). unfold is_byte in Hp.
  rewrite <- (Z.mul_1_l (val _)), val_app by (done || lia). change (Nat.even (length (pseudo_header _ _ _ _))) with true.
  cbn iota. rewrite !Z.mul_1_l.
  assert (oc (val (pseudo_header src dest proto proto_len)) =
    oc (src + dest + 256 * proto + (proto_len / 256 + 256 * (proto_len `mod` 256)))) as E.
  { unfold pseudo_header. set (pl := [0; proto] ++ _).
    assert (bytes pl) as Hpl by (unfold pseudo_header in Hb; apply Forall_app in Hb as [_ Hb]; by apply Forall_app in Hb as [_ Hb]).
    assert (oc (val pl) = oc (256 * proto + (proto_len / 256 + 256 * (proto_len `mod` 256)))) as Epl.
    { unfold pl. cbn [app]. rewrite val_pair by (cbn [val]; lia). cbn [val]. f_equal. lia. }
    pose proof (val_nonneg _ Hpl). assert (bytes (le_bytes 4 dest ++ pl)) as Hb2 by (apply Forall_app; split; [apply bytes_le_bytes|done]).
    rewrite <- (Z.mul_1_l (val _)), val_app by (done || apply bytes_le_bytes || lia).
    change (Nat.even (length (le_bytes 4 src))) with true. cbn iota. rewrite !Z.mul_1_l, le_bytes_val by done.
    pose proof (val_nonneg _ Hb2). rewrite <- !Z.add_assoc. apply oc_add; [lia..|done|].
    rewrite <- (Z.mul_1_l (val _)), val_app by (done || apply bytes_le_bytes || lia).
    change (Nat.even (length (le_bytes 4 dest))) with true. cbn iota. rewrite !Z.mul_1_l, le_bytes_val by done.
    apply oc_add; [lia..|done|exact Epl]. }
  pose proof (val_nonneg _ Hb).
  transitivity (oc (src + dest + 256 * proto + (proto_len / 256 + 256 * (proto_len `mod` 256)) + val l)).
  - apply oc_add; [lia..|exact E|done].
  - f_equal. lia.
Qed.

(** The end of both pseudo header sums. *)
Lemma pseudo_finish src dest proto proto_len l :
  0 <= src < 2 ^ 32 -> 0 <= dest < 2 ^ 32 -> is_byte proto -> 0 <= proto_len < 65536 -> bytes l ->
  u16 (Z.lnot (Z.land (FOLD_U32T (FOLD_U32T (u32 (u32 (oc (oc (src + dest) + val l) + lwip_htons (u16 proto)) +
    lwip_htons proto_len)))) 0xffff)) =
  lwip_htons (Rfc1071.checksum (pseudo_header src dest proto proto_len ++ l)).
Proof.
  intros Hs Hd Hp Hlen Hl. destruct (pseudo_header_value src dest proto proto_len l) as [Hb E]; [done..|].
  rewrite rfc_checksum_val, E by (apply Forall_app; by split). pose proof (val_nonneg _ Hl). unfold is_byte in Hp.
  rewrite (wrap_small 16 proto), !htons_oc by lia.
  pose proof (oc_range (src + dest)). pose proof (oc_range (oc (src + dest) + val l)).
  pose proof (oc_range (256 * proto)). pose proof (oc_range (256 * proto_len)).
  rewrite (wrap_small 32 (_ + oc (256 * proto))) by lia. rewrite (wrap_small 32), fold_twice by lia. change 0xffff with (Z.ones 16). rewrite Z.land_ones by lia.
  set (T := oc (oc (src + dest) + val l) + oc (256 * proto) + oc (256 * proto_len)). pose proof (oc_range T).
  rewrite Z.mod_small, lnot_16 by lia. f_equal. unfold T.
  pose proof (Z.div_mod proto_len 256). pose proof (Z.mod_pos_bound proto_len 256).
  apply oc_add; [lia..| |].
  - apply oc_add; [lia..| |apply oc_oc]. rewrite oc_oc. apply oc_add; [lia..|apply oc_oc|done].
  - rewrite oc_oc. apply (oc_eq _ _ (proto_len / 256)); lia.
Qed.
End Packets.

(** * Properties *)

(** The three summing routines agree with RFC 1071, in host order: version 2,
    which the build uses, and version 1 for up to 128 KB, version 3 for every
    length, each at even and at odd addresses. *)
Theorem chksum_rfc1071 (m : mem) (p n : Z) :
  (forall a, is_byte (m a)) -> 0 <= n <= 0x20000 ->
  let sum := lwip_htons (Rfc1071.sum (load m p (Z.to_nat n))) in
  lwip_standard_chksum m p n = sum /\ lwip_standard_chksum_1 m p n = sum /\ lwip_standard_chksum_3 m p n = sum.
Proof.
  intros Hm Hn sum. unfold sum. rewrite rfc_sum_val by (by apply bytes_load).
  rewrite chksum_value, chksum_1_value, chksum_3_value by (done || lia). done.
Qed.

(** The header of a datagram, 20 bytes at an odd address. *)
Definition demo_packet : mem :=
  store (fun _ => 0) 0x1001 [0x45; 0; 0; 0x73; 0; 0; 0x40; 0; 0x40; 0x11; 0; 0; 0xc0; 0xa8; 0; 1; 0xc0; 0xa8; 0; 0xc7].

Lemma demo_packet_bytes a : is_byte (demo_packet a).
Proof. apply is_byte_store; [done|]. repeat constructor; lia. Qed.

Lemma chksum_rfc1071_witness :
  lwip_standard_chksum demo_packet 0x1001 20 = 0x9e47 /\ lwip_htons (0xffff - 0x9e47) = 0xb861.
Proof.
  destruct (chksum_rfc1071 demo_packet 0x1001 20 demo_packet_bytes ltac:(lia)) as (E & _).
  split; [rewrite E; by vm_compute|by vm_compute].
Defined.

Lemma pbuf_checksum (m : mem) (p : list pbuf) :
  (forall a, is_byte (m a)) -> chain_ok p -> inet_chksum_pbuf m p = lwip_htons (Rfc1071.checksum (chain_bytes m p)).
Proof.
  intros Hm Hp. unfold inet_chksum_pbuf. rewrite chain_sum_value, rfc_checksum_val by (done || lia || by apply bytes_chain).
  pose proof (oc_range (val (chain_bytes m p))). rewrite Z.add_0_l. change 0xffff with (Z.ones 16).
  by rewrite Z.land_ones, Z.mod_small, lnot_16 by lia.
Qed.

Lemma pseudo_checksum (m : mem) (p : list pbuf) (proto proto_len src dest : Z) :
  (forall a, is_byte (m a)) -> chain_ok p -> 0 <= src < 2 ^ 32 -> 0 <= dest < 2 ^ 32 -> is_byte proto -> 0 <= proto_len < 65536 ->
  ip_chksum_pseudo m p proto proto_len src dest = lwip_htons (Rfc1071.checksum (pseudo_header src dest proto proto_len ++ chain_bytes m p)).
Proof.
  intros Hm Hp Hs Hd Hpr Hl. pose proof (oc_range (src + dest)).
  unfold ip_chksum_pseudo, inet_chksum_pseudo, inet_cksum_pseudo_base. rewrite addresses_value, chain_sum_value by (done || lia).
  apply pseudo_finish; [done..|by apply bytes_chain].
Qed.

(** C35 The checksum of a chain of buffers is that of the bytes it holds, wherever
    the chain is cut and wherever its buffers lie; the checksums of UDP and TCP add
    the IPv4 pseudo header, and the partial one, in the build without assertions,
    covers a prefix of the data of any length below 64 KB. The assertion in its loop
    would stop it exactly when the prefix has 0x7fff bytes or more behind the first
    buffer. *)
Theorem packet_checksums (m : mem) (p : list pbuf) (proto proto_len src dest : Z) :
  (forall a, is_byte (m a)) -> chain_ok p ->
  0 <= src < 2 ^ 32 -> 0 <= dest < 2 ^ 32 -> is_byte proto -> 0 <= proto_len < 65536 ->
  let header := pseudo_header src dest proto proto_len in
  inet_chksum_pbuf m p = lwip_htons (Rfc1071.checksum (chain_bytes m p)) /\
  ip_chksum_pseudo m p proto proto_len src dest = lwip_htons (Rfc1071.checksum (header ++ chain_bytes m p)) /\
  (forall n, 0 <= n < 65536 ->
    ip_chksum_pseudo_partial m p proto proto_len n src dest =
      lwip_htons (Rfc1071.checksum (header ++ take (Z.to_nat n) (chain_bytes m p)))) /\
  (forall q r n, p = q :: r -> 0 <= n < 65536 -> partial_asserts p n = (n - len q <? 0x7fff)).
Proof.
  intros Hm Hp Hs Hd Hpr Hl header. subst header. pose proof (oc_range (src + dest)). split_and!.
  - by apply pbuf_checksum.
  - by apply pseudo_checksum.
  - intros n Hn. unfold ip_chksum_pseudo_partial, inet_chksum_pseudo_partial, inet_cksum_pseudo_partial_base. rewrite addresses_value by done.
    pose proof (partial_loop_spec m Hm p Hp n (oc (src + dest)) false ltac:(lia) Hn) as E. cbn [weight] in E.
    rewrite !Z.mul_1_l, oc_oc in E. destruct (partial_loop m p n (oc (src + dest)) false) as [acc sw].
    assert (bytes (take (Z.to_nat n) (chain_bytes m p))) as Hb by (by apply Forall_take, bytes_chain).
    pose proof (val_nonneg _ Hb). rewrite <- pseudo_finish by done. do 8 f_equal.
    rewrite E. destruct sw; [rewrite swap_weight by lia|]; cbn [weight negb]; by rewrite Z.mul_1_l.
  - intros q r n ->. by apply partial_asserts_spec.
Qed.

(** The same header cut into 3, 4 and 13 bytes, and the pseudo header of a datagram. *)
Lemma packet_checksums_witness :
  inet_chksum_pbuf demo_packet [Pbuf 0x1001 3; Pbuf 0x1004 4; Pbuf 0x1008 13] = 0x61b8 /\
  ip_chksum_pseudo demo_packet [Pbuf 0x1001 3; Pbuf 0x1004 4] 17 7 0x0100a8c0 0xc700a8c0 =
    lwip_htons (Rfc1071.checksum ([0xc0; 0xa8; 0; 1; 0xc0; 0xa8; 0; 0xc7; 0; 17; 0; 7] ++ [0x45; 0; 0; 0x73; 0; 0; 0x40])).
Proof.
  assert (chain_ok [Pbuf 0x1001 3; Pbuf 0x1004 4; Pbuf 0x1008 13]) as H1 by (repeat constructor; cbn; lia).
  assert (chain_ok [Pbuf 0x1001 3; Pbuf 0x1004 4]) as H2 by (repeat constructor; cbn; lia).
  split.
  - destruct (packet_checksums demo_packet _ 17 7 0x0100a8c0 0xc700a8c0 demo_packet_bytes H1) as (E & _); [lia..|done|lia|].
    rewrite E. by vm_compute.
  - destruct (packet_checksums demo_packet _ 17 7 0x0100a8c0 0xc700a8c0 demo_packet_bytes H2) as (_ & E & _); [lia..|done|lia|].
    rewrite E. by vm_compute.
Defined.

(** A header verifies: once the checksum computed with a zero field is stored
    in that field, at an even offset, the receiver's checksum of the whole is 0. *)
Theorem chksum_verifies (m : mem) (p n off : Z) :
  (forall a, is_byte (m a)) -> 0 <= off -> off `mod` 2 = 0 -> off + 2 <= n -> n < 65536 ->
  m (p + off) = 0 -> m (p + off + 1) = 0 ->
  inet_chksum (store_le m (p + off) 2 (inet_chksum m p n)) p n = 0.
Proof.
  intros Hm Ho He Hn Hn' Z0 Z1. set (c := inet_chksum m p n). set (m' := store_le m (p + off) 2 c).
  assert (forall a, is_byte (m' a)) as Hm' by (apply is_byte_store; [done|apply bytes_le_bytes]).
  pose proof (oc_range (at_ m p n)). assert (c = 65535 - oc (at_ m p n)) as Ec
    by (unfold c, inet_chksum; rewrite chksum_value, lnot_16 by (done || lia); done).
  unfold inet_chksum at 1. rewrite chksum_value by (done || lia).
  assert (forall m, (forall a, is_byte (m a)) -> oc (at_ m p n) =
    oc (at_ m p off + (at_ m (p + off) 2 + at_ m (p + off + 2) (n - off - 2)))) as Hsplit.
  { intros m1 H1. rewrite (at_split m1 H1 p off n) by (lia || done).
    pose proof (at_nonneg m1 H1 p off). pose proof (at_nonneg m1 H1 (p + off) (n - off)).
    pose proof (at_nonneg m1 H1 (p + off) 2). pose proof (at_nonneg m1 H1 (p + off + 2) (n - off - 2)).
    apply oc_add; [lia..|done|]. by rewrite (at_split m1 H1 (p + off) 2) by (lia || done). }
  assert (forall b k, b + k <= p + off \/ p + off + 2 <= b -> 0 <= k -> at_ m' b k = at_ m b k) as Hout.
  { intros b k Hb Hk. unfold at_. f_equal. apply load_ext. intros x Hx. apply store_out. rewrite length_le_bytes. lia. }
  assert (at_ m' (p + off) 2 = c) as Hc.
  { change 2 with (Z.of_nat 2). rewrite <- load_le_at by done. apply load_le_store_same. cbn. lia. }
  assert (at_ m (p + off) 2 = 0) as Hc0 by (rewrite !at_S, at_0, Z0, Z1 by lia; lia).
  pose proof (Hsplit m Hm) as E. rewrite Hc0, Z.add_0_l in E.
  rewrite (Hsplit m' Hm'), Hc, !Hout by lia.
  set (X := at_ m p off) in *. set (Y := at_ m (p + off + 2) (n - off - 2)) in *.
  pose proof (at_nonneg m Hm p off). pose proof (at_nonneg m Hm (p + off + 2) (n - off - 2)). fold X Y in H0, H1.
  assert (oc (X + (c + Y)) = 65535) as ->; [|done].
  rewrite Ec, E. replace (X + (65535 - oc (X + Y) + Y)) with (X + Y + (65535 - oc (X + Y))) by lia. apply oc_complement. lia.
Qed.

Lemma chksum_verifies_witness :
  inet_chksum (store_le demo_packet (0x1001 + 10) 2 (inet_chksum demo_packet 0x1001 20)) 0x1001 20 = 0.
Proof. apply (chksum_verifies demo_packet 0x1001 20 10 demo_packet_bytes); [lia|done|lia|lia|done|done]. Defined.

(** A copy has the checksum of what was copied. *)
Lemma chksum_copy_spec (m : mem) (dst src n : Z) :
  (forall a, is_byte (m a)) -> 0 <= n < 65536 ->
  fst (lwip_chksum_copy dst src n m) = lwip_standard_chksum m src n /\
  load (snd (lwip_chksum_copy dst src n m)) dst (Z.to_nat n) = load m src (Z.to_nat n).
Proof.
  intros Hm Hn. unfold lwip_chksum_copy, memcpy. cbn [fst snd].
  assert (load (store m dst (load m src (Z.to_nat n))) dst (Z.to_nat n) = load m src (Z.to_nat n)) as E
    by (apply load_store_eq; by rewrite length_load).
  split; [|exact E]. rewrite !chksum_value; [unfold at_; by rewrite E|done|lia| |lia].
  apply is_byte_store; [done|by apply bytes_load].
Qed.
