(* ===== verification/Network.v ===== *)
(** The network supervisor: the PCnet controller's registers (ipxe/pcnet32.h), its
    driver in SMM (pcnet32.c), and the SMI handler (supervisor.c of the network
    firmware). *)

From Stdlib Require Import ZArith Lia Bool.
From stdpp Require Import base list.
From S2P Require Import Prelude Smram Aead RingBuffer Hw Apic Ether.

(** * Constants *)

Definition TX_RING_SIZE : Z := Z.shiftl 1 4.
Definition RX_RING_SIZE : Z := Z.shiftl 1 5.
Definition PCNET32_WIO_RDP : Z := 0x10.
Definition PCNET32_WIO_RAP : Z := 0x12.
Definition PCNET32_WIO_RESET : Z := 0x14.
Definition PCNET32_WIO_BDP : Z := 0x16.
Definition PCNET32_DWIO_RDP : Z := 0x10.
Definition PCNET32_DWIO_RAP : Z := 0x14.
Definition PCNET32_DWIO_RESET : Z := 0x18.
Definition PCNET32_DWIO_BDP : Z := 0x1c.
Definition PCNET32_SWSTYLE_PCNET32 : Z := 0x02.
Definition DescOwn : Z := Z.shiftl 1 15.
Definition StartOfPacket : Z := Z.shiftl 1 9.
Definition EndOfPacket : Z := Z.shiftl 1 8.
Definition RxInt : Z := Z.shiftl 1 10.
Definition TxInt : Z := Z.shiftl 1 9.
Definition IntEnable : Z := Z.shiftl 1 6.
Definition TxDemand : Z := Z.shiftl 1 3.
Definition RxIntMask : Z := Z.shiftl 1 10.
Definition TxIntMask : Z := Z.shiftl 1 9.
Definition NIC_IRQ : Z := 11.
Definition KBD_IRQ : Z := 1.

(** Fields of [struct pcnet32_rx_desc], [struct pcnet32_tx_desc] and [struct
    pcnet32_init_block], by offset. *)
Definition sizeof_desc : Z := 16.
Definition desc_base : Z := 0.
Definition desc_length : Z := 4.
Definition desc_status : Z := 6.
Definition rx_msg_length : Z := 8.
Definition tx_misc : Z := 8.
Definition init_rx_ring : Z := 20.
Definition init_tx_ring : Z := 24.
Definition sizeof_ether_header : Z := 14.

(** * Registers *)

Section Registers.
Context {D : Type} {Dev : Devices D}.

Record pcnet32_access := Access {
  read_csr : Z -> Z -> prog D Z;
  write_csr : Z -> Z -> Z -> prog D unit;
  read_bcr : Z -> Z -> prog D Z;
  write_bcr : Z -> Z -> Z -> prog D unit;
  read_rap : Z -> prog D Z;
  write_rap : Z -> Z -> prog D unit;
  reset : Z -> prog D unit;
}.

Definition pcnet32_wio_read_csr (addr index : Z) : prog D Z :=
  let* _ := wr (outw index (addr + PCNET32_WIO_RAP)) in rd (inw (addr + PCNET32_WIO_RDP)).
Definition pcnet32_wio_write_csr (addr index val : Z) : prog D unit :=
  let* _ := wr (outw index (addr + PCNET32_WIO_RAP)) in wr (outw val (addr + PCNET32_WIO_RDP)).
Definition pcnet32_wio_read_bcr (addr index : Z) : prog D Z :=
  let* _ := wr (outw index (addr + PCNET32_WIO_RAP)) in rd (inw (addr + PCNET32_WIO_BDP)).
Definition pcnet32_wio_write_bcr (addr index val : Z) : prog D unit :=
  let* _ := wr (outw index (addr + PCNET32_WIO_RAP)) in wr (outw val (addr + PCNET32_WIO_BDP)).
Definition pcnet32_wio_read_rap (addr : Z) : prog D Z := rd (inw (addr + PCNET32_WIO_RAP)).
Definition pcnet32_wio_write_rap (addr val : Z) : prog D unit := wr (outw val (addr + PCNET32_WIO_RAP)).
Definition pcnet32_wio_reset (addr : Z) : prog D unit :=
  let* _ := rd (inw (addr + PCNET32_WIO_RESET)) in ret tt.
Definition pcnet32_wio_check (addr : Z) : prog D bool :=
  let* _ := wr (outw 88 (addr + PCNET32_WIO_RAP)) in
  let* v := rd (inw (addr + PCNET32_WIO_RAP)) in ret (v =? 88).

Definition pcnet32_dwio_read_csr (addr index : Z) : prog D Z :=
  let* _ := wr (outl index (addr + PCNET32_DWIO_RAP)) in
  let* v := rd (inl (addr + PCNET32_DWIO_RDP)) in ret (Z.land v 0xffff).
Definition pcnet32_dwio_write_csr (addr index val : Z) : prog D unit :=
  let* _ := wr (outl index (addr + PCNET32_DWIO_RAP)) in wr (outl val (addr + PCNET32_DWIO_RDP)).
Definition pcnet32_dwio_read_bcr (addr index : Z) : prog D Z :=
  let* _ := wr (outl index (addr + PCNET32_DWIO_RAP)) in
  let* v := rd (inl (addr + PCNET32_DWIO_BDP)) in ret (Z.land v 0xffff).
Definition pcnet32_dwio_write_bcr (addr index val : Z) : prog D unit :=
  let* _ := wr (outl index (addr + PCNET32_DWIO_RAP)) in wr (outl val (addr + PCNET32_DWIO_BDP)).
Definition pcnet32_dwio_read_rap (addr : Z) : prog D Z :=
  let* v := rd (inl (addr + PCNET32_DWIO_RAP)) in ret (Z.land v 0xffff).
Definition pcnet32_dwio_write_rap (addr val : Z) : prog D unit := wr (outl val (addr + PCNET32_DWIO_RAP)).
Definition pcnet32_dwio_reset (addr : Z) : prog D unit :=
  let* _ := rd (inl (addr + PCNET32_DWIO_RESET)) in ret tt.
Definition pcnet32_dwio_check (addr : Z) : prog D bool :=
  let* _ := wr (outl 88 (addr + PCNET32_DWIO_RAP)) in
  let* v := rd (inl (addr + PCNET32_DWIO_RAP)) in ret (Z.land v 0xffff =? 88).

Definition pcnet32_wio : pcnet32_access :=
  Access pcnet32_wio_read_csr pcnet32_wio_write_csr pcnet32_wio_read_bcr pcnet32_wio_write_bcr
    pcnet32_wio_read_rap pcnet32_wio_write_rap pcnet32_wio_reset.
Definition pcnet32_dwio : pcnet32_access :=
  Access pcnet32_dwio_read_csr pcnet32_dwio_write_csr pcnet32_dwio_read_bcr pcnet32_dwio_write_bcr
    pcnet32_dwio_read_rap pcnet32_dwio_write_rap pcnet32_dwio_reset.
End Registers.

(** * The driver *)

(** The static variables: those of supervisor.c, [shmem_base] of ring_buffer.c, the
    address that pciinit.c found, and those of pcnet32.c. *)
Record net_glob := NetGlob {
  isFirstPhrase : Z; kbd_vec : Z; nic_vec : Z; shmem_base : Z; pcnet32_ioaddr : Z;
  ioaddr : Z; p_init_block : Z; hw_addr : list Z; CSR5 : Z; XMTRC : Z; rx_ints : Z; tx_ints : Z;
}.
Definition set_isFirstPhrase v g :=
  NetGlob v (kbd_vec g) (nic_vec g) (shmem_base g) (pcnet32_ioaddr g) (ioaddr g) (p_init_block g) (hw_addr g)
    (CSR5 g) (XMTRC g) (rx_ints g) (tx_ints g).
Definition set_vecs k n g :=
  NetGlob (isFirstPhrase g) k n (shmem_base g) (pcnet32_ioaddr g) (ioaddr g) (p_init_block g) (hw_addr g)
    (CSR5 g) (XMTRC g) (rx_ints g) (tx_ints g).
Definition set_shmem_base v g :=
  NetGlob (isFirstPhrase g) (kbd_vec g) (nic_vec g) v (pcnet32_ioaddr g) (ioaddr g) (p_init_block g) (hw_addr g)
    (CSR5 g) (XMTRC g) (rx_ints g) (tx_ints g).
Definition set_ioaddr v g :=
  NetGlob (isFirstPhrase g) (kbd_vec g) (nic_vec g) (shmem_base g) (pcnet32_ioaddr g) v (p_init_block g) (hw_addr g)
    (CSR5 g) (XMTRC g) (rx_ints g) (tx_ints g).
Definition set_p_init_block v g :=
  NetGlob (isFirstPhrase g) (kbd_vec g) (nic_vec g) (shmem_base g) (pcnet32_ioaddr g) (ioaddr g) v (hw_addr g)
    (CSR5 g) (XMTRC g) (rx_ints g) (tx_ints g).
Definition set_hw_addr v g :=
  NetGlob (isFirstPhrase g) (kbd_vec g) (nic_vec g) (shmem_base g) (pcnet32_ioaddr g) (ioaddr g) (p_init_block g) v
    (CSR5 g) (XMTRC g) (rx_ints g) (tx_ints g).
Definition set_CSR5 v g :=
  NetGlob (isFirstPhrase g) (kbd_vec g) (nic_vec g) (shmem_base g) (pcnet32_ioaddr g) (ioaddr g) (p_init_block g)
    (hw_addr g) v (XMTRC g) (rx_ints g) (tx_ints g).
Definition set_XMTRC v g :=
  NetGlob (isFirstPhrase g) (kbd_vec g) (nic_vec g) (shmem_base g) (pcnet32_ioaddr g) (ioaddr g) (p_init_block g)
    (hw_addr g) (CSR5 g) v (rx_ints g) (tx_ints g).
Definition set_ints r t g :=
  NetGlob (isFirstPhrase g) (kbd_vec g) (nic_vec g) (shmem_base g) (pcnet32_ioaddr g) (ioaddr g) (p_init_block g)
    (hw_addr g) (CSR5 g) (XMTRC g) r t.

Section Driver.
Context {A : Aead} {R : Type} {F : RandomFill R} {D : Type} {Dev : Devices D}.
(** The fuel of the APIC wait, and the addresses of the local [message] of
    [put_in_buffer], of [smm_tmp_buf], of [smm_tmp], of [tx_frame], and of the text of
    the next hop's address. *)
Context (fuel : nat) (message_at smm_tmp_buf smm_tmp tx_frame next_hop : Z).
Abbreviation M := (prog (machine D R net_glob)).

(** The access functions that [a] points to. *)
Definition a : pcnet32_access (D := D) := pcnet32_wio.
Definition csr_read (index : Z) : M Z := let* io := glob ioaddr in on_dev (read_csr a io index).
Definition csr_write (index val : Z) : M unit := let* io := glob ioaddr in on_dev (write_csr a io index val).
Definition bcr_write (index val : Z) : M unit := let* io := glob ioaddr in on_dev (write_bcr a io index val).
(** A field of memory, of [n] bytes. *)
Definition field (addr : Z) (n : nat) : M Z := gets (fun s => load_le (m_mem s) addr n).
Definition set_field (addr : Z) (n : nat) (v : Z) : M unit := on_mem (fun m => store_le m addr n v).

Definition pcnet32_backdoor_step1 : M unit :=
  let* v := csr_read 5 in
  let* _ := on_glob (set_CSR5 v) in
  let* _ := csr_write 5 0x0001 in
  let* v := csr_read 74 in
  let* _ := on_glob (set_XMTRC (s16 v)) in
  let* v := glob CSR5 in
  csr_write 5 (u16 v).

Definition pcnet32_backdoor_step2 : M unit :=
  let* v := csr_read 5 in
  let* _ := on_glob (set_CSR5 v) in
  let* x := glob XMTRC in
  let* _ := csr_write 74 (u16 x) in
  let* v := glob CSR5 in
  csr_write 5 (u16 v).

Definition do_pcnet32_transmit (data len : Z) : M unit :=
  let tx_len := if len <? 64 then 64 else len in
  let* init := glob p_init_block in
  let* ring := field (init + init_tx_ring) 4 in
  let* x := glob XMTRC in
  let tx_curr_desc := u32 (ring + (TX_RING_SIZE - x) * sizeof_desc) in
  let* _ := set_field (tx_curr_desc + desc_length) 2 (- tx_len) in
  let* _ := set_field (tx_curr_desc + tx_misc) 4 0 in
  let* _ := set_field (tx_curr_desc + desc_base) 4 data in
  let* _ := set_field (tx_curr_desc + desc_status) 2 (Z.lor (Z.lor DescOwn StartOfPacket) EndOfPacket) in
  let* _ := csr_write 0 (Z.lor IntEnable TxDemand) in
  on_mem (fun m => memset m tx_frame 0 1600).

(** One pass of the loop that reads the station address from CSR 12 to 14. *)
Definition read_hw_addr (i : nat) : M unit :=
  let* val := csr_read (Z.of_nat i + 12) in
  let val := Z.land val 0xffff in
  on_glob (fun g => set_hw_addr
    (<[(2 * i + 1)%nat := Z.land (Z.shiftr val 8) 0xff]> (<[(2 * i)%nat := Z.land val 0xff]> (hw_addr g))) g).

Definition pcnet32_probe : M unit :=
  let* io := glob pcnet32_ioaddr in
  if io =? 0 then ret tt else
  let* _ := on_glob (set_ioaddr io) in
  let* _ := csr_read 88 in
  let* _ := csr_read 89 in
  let* _ := for_each (seq 0 3) read_hw_addr in
  let* hi := csr_read 2 in
  let* lo := csr_read 1 in
  let* _ := on_glob (set_p_init_block (Z.lor (Z.shiftl hi 16) lo)) in
  let* _ := bcr_write 20 PCNET32_SWSTYLE_PCNET32 in
  let* _ := csr_write 4 0x0915 in
  let* val := csr_read 3 in
  let* _ := csr_write 3 (Z.land val (u16 (Z.lnot (Z.lor RxIntMask TxIntMask)))) in
  csr_write 0 IntEnable.

(** The loop of [pcnet32_tx_enclave_packet]; [n] bounds the packets taken. *)
Fixpoint pcnet32_tx_enclave_packet (n : nat) : M unit :=
  match n with
  | O => stuck
  | S n =>
      let* base := glob shmem_base in
      let* r := on_memory (fun m => match get_out_buffer base smm_tmp m with
        | Some (r, len, m) => Some (r, m) | None => None end) in
      if negb (0 =? r) then ret tt else
      let frame := smm_tmp + 4 in
      let* _ := on_memory (fun m => match str2mac 256 next_hop frame m with Some m => Some (tt, m) | None => None end) in
      let* hw := glob hw_addr in
      let* _ := on_mem (fun m => store m (frame + 6) hw) in
      let* ulen := field smm_tmp 4 in
      let* _ := on_mem (fun m => memcpy m tx_frame frame (Z.to_nat ulen)) in
      let* ulen := field smm_tmp 4 in
      let* _ := do_pcnet32_transmit tx_frame (s32 ulen) in
      pcnet32_tx_enclave_packet n
  end.

Definition pcnet32_dispatch_rx_packets (rxs : Z) : M unit :=
  let* base := field (rxs + desc_base) 4 in
  let* ip_vhl := field (u32 (base + 14)) 1 in
  if negb (70 =? ip_vhl) then ret tt else
  let* pPacket := field (u32 (base + 34)) 4 in
  when (pPacket =? 0)
    (let* msg_length := field (rxs + rx_msg_length) 4 in
     let ulen := u32 (msg_length - sizeof_ether_header) in
     let* _ := set_field smm_tmp_buf 4 ulen in
     let* _ := on_mem (fun m => memcpy m (smm_tmp_buf + 4) (u32 (base + sizeof_ether_header)) (Z.to_nat ulen)) in
     let* shm := glob shmem_base in
     let* _ := on_side (put_in_buffer_checked message_at shm smm_tmp_buf (Z.shiftl 1 12 - 64)) in
     let* _ := on_mem (fun m => memset m rxs 0 (Z.to_nat sizeof_desc)) in
     trigger_self_ipi fuel 0x3a).

(** The loop body: a descriptor whose frame has been received. *)
Definition process_rx_descriptor (rxs : Z) : M unit :=
  let* status := field (rxs + desc_status) 2 in
  when (0x340 =? status) (pcnet32_dispatch_rx_packets rxs).
Definition pcnet32_process_rx_packets : M unit :=
  let* init := glob p_init_block in
  let* ring := field (init + init_rx_ring) 4 in
  for_each (seq 0 (Z.to_nat RX_RING_SIZE)) (fun i => process_rx_descriptor (u32 (ring + sizeof_desc * Z.of_nat i))).

(** Counts the descriptors in use, for a message that is not printed. *)
Definition pcnet32_process_tx_packets : M Z :=
  let* init := glob p_init_block in
  let* ring := field (init + init_tx_ring) 4 in
  gets (fun s => Z.of_nat (length (filter (fun i => load_le (m_mem s) (u32 (ring + sizeof_desc * Z.of_nat i)) 4 <> 0)
    (seq 0 (Z.to_nat TX_RING_SIZE))))).

Definition pcnet32_handler : M unit :=
  let* Int := csr_read 0 in
  let tx := negb (Z.land Int TxInt =? 0) in
  let rx := negb (Z.land Int RxInt =? 0) in
  let* _ := when tx
    (let* _ := on_glob (fun g => set_ints (rx_ints g) (s32 (tx_ints g + 1)) g) in
     let* _ := pcnet32_backdoor_step1 in
     let* _ := pcnet32_backdoor_step2 in
     trigger_self_ipi fuel 0x3b) in
  let* _ := when rx
    (let* _ := on_glob (fun g => set_ints (s32 (rx_ints g + 1)) (tx_ints g) g) in
     let* _ := pcnet32_process_rx_packets in
     trigger_self_ipi fuel 0x3b) in
  when (negb tx && negb rx)
    (let* _ := pcnet32_backdoor_step1 in
     pcnet32_backdoor_step2).

(** The variant of the keyboard firmware's pcnet32.c sends the enclave's packets. *)
Definition pcnet32_handler_tx : M unit :=
  let* Int := csr_read 0 in
  let tx := negb (Z.land Int TxInt =? 0) in
  let rx := negb (Z.land Int RxInt =? 0) in
  let* _ := when tx (trigger_self_ipi fuel 0x3b) in
  let* _ := when rx
    (let* _ := pcnet32_process_rx_packets in
     trigger_self_ipi fuel 0x3b) in
  when (negb tx && negb rx)
    (let* _ := pcnet32_backdoor_step1 in
     let* _ := pcnet32_tx_enclave_packet (S MAX_ENTRY) in
     pcnet32_backdoor_step2).

(** * The SMI handler *)

Definition note_vector (i vector_address : Z) (g : net_glob) : net_glob :=
  let g := if KBD_IRQ =? i then set_vecs vector_address (nic_vec g) g else g in
  if NIC_IRQ =? i then set_vecs (kbd_vec g) vector_address g else g.

Definition supervisor : M unit :=
  let* _ := enable_sse in
  let* first := glob isFirstPhrase in
  if negb (first =? 0) then
    let* base := on_memory (fun m => Some (init_ring_buffer m)) in
    let* _ := on_glob (set_shmem_base base) in
    let* _ := show_ioredtbl note_vector in
    let* nic := glob nic_vec in
    let* _ := when (0x3b =? nic)
      (let* _ := on_dev (ioapic_write_reg (IOREDTBL NIC_IRQ) APIC_DM_SMI) in pcnet32_probe) in
    on_glob (set_isFirstPhrase 0)
  else
    let* _ := pcnet32_handler in
    trigger_self_ipi fuel 0x3b.
End Driver.

(** * Received frames *)

(** A received frame that carries an IP packet for the enclave: header length and
    options as the code tests them. *)
Definition enclave_frame (m : mem) (rxs : Z) : bool :=
  (load_le m (rxs + desc_status) 2 =? 0x340) &&
  (load_le m (load_le m rxs 4 + 14) 1 =? 70) && (load_le m (load_le m rxs 4 + 34) 4 =? 0).

(** Its IP packet with the length in front. *)
Definition packet_bytes (m : mem) (rxs : Z) : nat := Z.to_nat (load_le m (rxs + rx_msg_length) 4 - 14).
Definition payload (m : mem) (rxs : Z) : list Z :=
  le_bytes 4 (load_le m (rxs + rx_msg_length) 4 - 14) ++ load m (load_le m rxs 4 + 14) (packet_bytes m rxs).

(** The mailbox after an attempt to deliver. *)
Definition deliver (mi : Mailbox.t) (msg : list Z) : Mailbox.t := default mi (Mailbox.put msg mi).

Section Rx.
Context {A : Aead} {max : Z} {Laws : AeadLaws A max} (Hmax : MSG_SIZE <= max).
Context {R : Type} {F : RandomFill R} {FL : RandomFillLaws R}.
Context {D : Type} `{PL : PlatformLaws D} (Hx2 : has_x2apic (D := D)).
Context (fuel : nat) (message_at smm_tmp_buf base : Z).
Abbreviation machine := (machine D R net_glob).

(** Where the locals and the shared region are. *)
Record rx_layout : Prop := {
  tmp_smram : is_within_smram smm_tmp_buf 4032 <> 0;
  tmp_shm : disjoint smm_tmp_buf 1600 base SHM_SIZE;
  rx_local : local_ok message_at base;
}.
Context (Hlay : rx_layout).

(** A region apart from the locals and the shared region. *)
Definition safe (lo n : Z) : Prop :=
  disjoint lo n smm_tmp_buf 1600 /\ disjoint lo n message_at MSG_SIZE /\ disjoint lo n base SHM_SIZE.

(** A descriptor, and its frame if one has been received: in memory of the operating
    system and, for the enclave, not longer than [smm_tmp_buf]. *)
Record frame_ok (m : mem) (rxs : Z) : Prop := {
  fr_desc : safe rxs 16;
  fr_safe : load_le m (rxs + desc_status) 2 = 0x340 ->
    safe (load_le m rxs 4) (Z.max 38 (load_le m (rxs + rx_msg_length) 4)) /\
    load_le m rxs 4 + 38 < 2 ^ 32;
  fr_length : enclave_frame m rxs = true -> 14 <= load_le m (rxs + rx_msg_length) 4 <= 1610;
}.

(** The supervisor between interrupts. *)
Record ready (mi mo : Mailbox.t) (s : machine) : Prop := {
  rd_base : shmem_base (m_glob s) = base;
  rd_bytes : all_bytes (m_mem s);
  rd_in : holds (in_box base) (m_mem s) mi;
  rd_out : holds (out_box base) (m_mem s) mo;
}.

(** Addresses that only the processing of descriptors writes. *)
Definition unwritten (x : Z) : Prop := safe x 1.

Lemma field_run {B} addr n (k : Z -> prog machine B) s : bind (field addr n) k s = k (load_le (m_mem s) addr n) s.
Proof. done. Qed.

Lemma set_field_run {B} addr n v (k : unit -> prog machine B) s :
  bind (set_field addr n v) k s = k tt (set_mem (store_le (m_mem s) addr n v) s).
Proof. done. Qed.

Lemma on_mem_run {B} f (k : unit -> prog machine B) s : bind (on_mem f) k s = k tt (set_mem (f (m_mem s)) s).
Proof. done. Qed.

Lemma glob_run {X B} (f : net_glob -> X) (k : X -> prog machine B) s : bind (glob f) k s = k (f (m_glob s)) s.
Proof. done. Qed.

(** What the code does with the packet of an enclave's frame. *)
Definition take_packet (m : mem) (rxs : Z) : prog machine unit :=
  let ulen := u32 (load_le m (rxs + rx_msg_length) 4 - 14) in
  let* _ := set_field smm_tmp_buf 4 ulen in
  let* _ := on_mem (fun m' => memcpy m' (smm_tmp_buf + 4) (load_le m rxs 4 + 14) (Z.to_nat ulen)) in
  let* shm := glob shmem_base in
  let* _ := on_side (put_in_buffer_checked message_at shm smm_tmp_buf 4032) in
  let* _ := on_mem (fun m => memset m rxs 0 16) in
  trigger_self_ipi fuel 0x3a.

Lemma descriptor_run s rxs :
  all_bytes (m_mem s) -> frame_ok (m_mem s) rxs ->
  process_rx_descriptor fuel message_at smm_tmp_buf rxs s =
  (if enclave_frame (m_mem s) rxs then take_packet (m_mem s) rxs else ret tt) s.
Proof.
  intros Hm [_ Hs _]. unfold process_rx_descriptor, enclave_frame. rewrite field_run, (Z.eqb_sym 0x340).
  destruct (Z.eqb_spec (load_le (m_mem s) (rxs + desc_status) 2) 0x340) as [E|]; [|done].
  destruct (Hs E) as [_ Hb]. pose proof (load_le_range (m_mem s) rxs 4 Hm) as Hr. cbn [when andb].
  unfold pcnet32_dispatch_rx_packets. rewrite field_run. change (rxs + desc_base) with (rxs + 0).
  rewrite Z.add_0_r, field_run, !(wrap_small 32 (load_le (m_mem s) rxs 4 + _)) by (unfold sizeof_ether_header; lia).
  rewrite (Z.eqb_sym 70). destruct (load_le (m_mem s) (load_le (m_mem s) rxs 4 + 14) 1 =? 70); [|done].
  cbn [negb andb]. rewrite field_run. destruct (_ =? 0); [|done]. reflexivity.
Qed.

(** The packet in [smm_tmp_buf]. *)
Lemma staged m v src n :
  disjoint src (Z.of_nat n) smm_tmp_buf 4 ->
  load (memcpy (store_le m smm_tmp_buf 4 v) (smm_tmp_buf + 4) src n) smm_tmp_buf (4 + n) = le_bytes 4 v ++ load m src n.
Proof.
  intros Hd. rewrite load_app. unfold disjoint in Hd. f_equal.
  - unfold memcpy. rewrite load_store_ne by (rewrite length_load; unfold disjoint; lia). by apply load_store_eq.
  - change (Z.of_nat 4) with 4. unfold memcpy at 1. rewrite load_store_eq by (by rewrite length_load).
    apply load_store_ne. rewrite length_le_bytes. unfold disjoint. lia.
Qed.

(** Taking a packet: it is in the mailbox, unless that is full, the descriptor is
    clear, and the enclave's driver is interrupted. *)
Lemma take_packet_spec s rxs mi mo :
  ready mi mo s -> frame_ok (m_mem s) rxs -> enclave_frame (m_mem s) rxs = true ->
  exists s' msg, take_packet (m_mem s) rxs s = Some (tt, s') /\
    length msg = msg_bytes /\ take (4 + packet_bytes (m_mem s) rxs) msg = payload (m_mem s) rxs /\
    ready (deliver mi msg) mo s' /\ m_glob s' = m_glob s /\ ipis (m_dev s') = ipis (m_dev s) ++ [0x3a] /\
    load (m_mem s') rxs 16 = replicate 16 0 /\
    (forall x, unwritten x -> x < rxs \/ rxs + 16 <= x -> m_mem s' x = m_mem s x).
Proof.
  intros [Hbase Hm Hin Hout] [Hd Hs Hlen] He. specialize (Hlen He). set (m := m_mem s) in *.
  assert (load_le m (rxs + desc_status) 2 = 0x340) as Hst.
  { unfold enclave_frame in He. apply andb_true_iff in He as [[He _]%andb_true_iff _]. by apply Z.eqb_eq. }
  destruct (Hs Hst) as [Hfr Hb]. set (b := load_le m rxs 4) in *. set (len := load_le m (rxs + rx_msg_length) 4) in *.
  pose proof (tmp_shm Hlay) as Htmp. destruct Hd as (Hd1 & Hd2 & Hd3). destruct Hfr as (Hf1 & Hf2 & Hf3).
  unfold take_packet. fold m b len. rewrite (wrap_small 32 (len - 14)) by lia.
  rewrite set_field_run, on_mem_run, glob_run. cbn [m_mem m_glob set_mem]. rewrite Hbase.
  set (m1 := store_le m smm_tmp_buf 4 (len - 14)). set (n := Z.to_nat (len - 14)).
  set (m2 := memcpy m1 (smm_tmp_buf + 4) (b + 14) n).
  assert (forall x, x < smm_tmp_buf \/ smm_tmp_buf + 1600 <= x -> m2 x = m x) as Hm2.
  { intros x Hx. unfold m2. rewrite memcpy_out by lia. apply store_out. rewrite length_le_bytes. lia. }
  assert (all_bytes m1) as Hb1 by (apply is_byte_store; [done|apply bytes_le_bytes]).
  assert (all_bytes m2) as Hb2 by (apply is_byte_store; [done|by apply bytes_load]).
  assert (forall bx mb, box_ok base bx -> holds bx m mb -> holds bx m2 mb) as Hh
    by (intros bx mb Hok; apply (holds_outside base); [done|]; intros x Hx; apply Hm2; unfold disjoint in Htmp; lia).
  assert (0 <= 4032 <= MSG_SIZE) as H4032 by (by vm_compute).
  destruct (put_at_refines (max := max) Hmax message_at base (rx_local Hlay) _ _ (in_box_ok base) (out_box_ok base)
    (in_out_apart base) smm_tmp_buf 4032 m2 (m_rng s) mi mo Hb2 (Hh _ _ (in_box_ok base) Hin)
    (Hh _ _ (out_box_ok base) Hout) H4032) as (msg & r & m3 & rng' & E & Hbm & Hl & _ & Ht & Hput & Hout3 & Hb3 & Hun).
  rewrite <- put_in_buffer_at in E by done. set (s2 := set_mem m2 s).
  change (set_mem _ (set_mem _ s)) with s2.
  assert (put_in_buffer_checked message_at base smm_tmp_buf 4032 (m_mem s2, m_rng s2) = Some (r, (m3, rng'))) as E'
    by (unfold put_in_buffer_checked; rewrite (proj2 (Z.eqb_neq _ _) (tmp_smram Hlay)); exact E).
  rewrite (bind_side _ _ _ _ _ _ E'), on_mem_run. cbn [m_mem m_rng m_dev m_cr0 m_cr4 m_apic m_glob].
  set (s4 := set_mem _ _). destruct (trigger_self_ipi_spec fuel 0x3a s4) as (d5 & a5 & E5 & Hi & _); [by vm_compute|by left|].
  rewrite E5. eexists _, msg. split; [reflexivity|]. split; [done|]. cbn [m_mem m_glob m_dev set_apic set_dev s4 set_mem].
  assert (forall bx mb, box_ok base bx -> holds bx m3 mb -> holds bx (memset m3 rxs 0 16) mb) as Hh4
    by (intros bx mb Hok; apply (holds_outside base); [done|]; intros x Hx; apply memset_out; unfold disjoint in Hd3; lia).
  split; [|split; [split|split; [|split; [|split]]]]; try done.
  - replace (take (4 + packet_bytes m rxs) msg) with (take (4 + n) (take (Z.to_nat 4032) msg))
      by (rewrite take_take; f_equal; unfold packet_bytes, n; fold len; lia).
    rewrite Ht. replace (Z.to_nat 4032) with ((4 + n) + (4028 - n))%nat by (unfold n; lia).
    rewrite load_app, take_app_length' by (by rewrite length_load). apply staged. unfold disjoint in *. lia.
  - cbn. apply is_byte_store; [done|]. apply bytes_replicate, is_byte_u8.
  - unfold deliver. destruct (Mailbox.put msg mi) as [mi'|]; destruct Hput as [_ Hp]; by apply Hh4; [apply in_box_ok|].
  - by apply Hh4; [apply out_box_ok|].
  - by apply load_store_eq.
  - intros x (Hx1 & Hx2' & Hx3) Hx. rewrite memset_out by done.
    rewrite Hun, Hm2 by (unfold disjoint in *; lia). done.
Qed.

(** ** The ring *)

Definition desc (ring : Z) (i : nat) : Z := ring + sizeof_desc * Z.of_nat i.
Definition carries (m : mem) (rxs : Z) (msg : list Z) : Prop :=
  length msg = msg_bytes /\ take (4 + packet_bytes m rxs) msg = payload m rxs.

(** Memory that agrees on a descriptor and its frame. *)
Lemma same_frame m0 m rxs :
  (forall x, rxs <= x < rxs + 16 -> m x = m0 x) ->
  (load_le m0 (rxs + desc_status) 2 = 0x340 ->
   forall x, load_le m0 rxs 4 <= x < load_le m0 rxs 4 + Z.max 38 (load_le m0 (rxs + rx_msg_length) 4) -> m x = m0 x) ->
  frame_ok m0 rxs ->
  frame_ok m rxs /\ enclave_frame m rxs = enclave_frame m0 rxs /\ packet_bytes m rxs = packet_bytes m0 rxs /\
  (enclave_frame m0 rxs = true -> payload m rxs = payload m0 rxs).
Proof.
  intros Hd Hf Hok.
  assert (load_le m (rxs + desc_status) 2 = load_le m0 (rxs + desc_status) 2 /\ load_le m rxs 4 = load_le m0 rxs 4 /\
    load_le m (rxs + rx_msg_length) 4 = load_le m0 (rxs + rx_msg_length) 4) as (E1 & E2 & E3).
  { unfold desc_status, rx_msg_length, load_le.
    split_and!; f_equal; apply load_ext; intros x Hx; apply Hd; lia. }
  assert (enclave_frame m rxs = enclave_frame m0 rxs) as E4.
  { unfold enclave_frame. rewrite E1, E2. destruct (Z.eqb_spec (load_le m0 (rxs + desc_status) 2) 0x340) as [Hst|]; [|done].
    specialize (Hf Hst). assert (forall o n, 0 <= o -> o + Z.of_nat n <= 38 ->
      load_le m (load_le m0 rxs 4 + o) n = load_le m0 (load_le m0 rxs 4 + o) n) as Hl
      by (intros o n Ho Hn; unfold load_le at 1 3; f_equal; apply load_ext; intros x Hx; apply Hf; lia).
    by rewrite !Hl by lia. }
  split; [|split; [done|]].
  - destruct Hok as [H1 H2 H3]. split; rewrite ?E1, ?E2, ?E3, ?E4; done.
  - unfold packet_bytes, payload, packet_bytes. rewrite E2, E3. split; [done|]. intros He. f_equal.
    assert (load_le m0 (rxs + desc_status) 2 = 0x340) as Hst
      by (unfold enclave_frame in He; apply andb_true_iff in He as [[He _]%andb_true_iff _]; by apply Z.eqb_eq).
    pose proof (fr_length _ _ Hok He). apply load_ext. intros x Hx. apply (Hf Hst). lia.
Qed.

Section Ring.
Context (m0 : mem) (ring : Z).
(** Every descriptor is in order, and no frame lies in the ring. *)
Context (Hring : forall i, (i < 32)%nat -> frame_ok m0 (desc ring i)).
Context (Hapart : forall i, (i < 32)%nat -> load_le m0 (desc ring i + desc_status) 2 = 0x340 ->
  disjoint (load_le m0 (desc ring i) 4) (Z.max 38 (load_le m0 (desc ring i + rx_msg_length) 4)) ring 512).

(** The state before descriptor [j]: the ring from there on and the frames are as
    they were. *)
Definition agrees (j : nat) (m : mem) : Prop :=
  forall x, unwritten x -> x < ring \/ ring + 16 * Z.of_nat j <= x -> m x = m0 x.

Lemma safe_unwritten lo n x : safe lo n -> lo <= x < lo + n -> unwritten x.
Proof. unfold safe, unwritten, safe, disjoint. lia. Qed.

Lemma agrees_frame j i m :
  agrees j m -> (j <= i < 32)%nat ->
  frame_ok m (desc ring i) /\ enclave_frame m (desc ring i) = enclave_frame m0 (desc ring i) /\
  packet_bytes m (desc ring i) = packet_bytes m0 (desc ring i) /\
  (enclave_frame m0 (desc ring i) = true -> payload m (desc ring i) = payload m0 (desc ring i)).
Proof.
  intros Ha Hi. pose proof (Hring i ltac:(lia)) as Hok. apply same_frame; [| |done].
  - intros x Hx. apply Ha; [exact (safe_unwritten _ _ _ (fr_desc _ _ Hok) Hx)|]. unfold desc, sizeof_desc in Hx. lia.
  - intros Hst x Hx. destruct (fr_safe _ _ Hok Hst) as [Hs _]. pose proof (Hapart i ltac:(lia) Hst) as Hd.
    apply Ha; [exact (safe_unwritten _ _ _ Hs Hx)|]. unfold disjoint in Hd. lia.
Qed.

Definition for_enclave : list nat -> list nat := filter (fun i => enclave_frame m0 (desc ring i) = true).

Lemma rx_loop n : forall j s mi mo,
  (j + n = 32)%nat -> ready mi mo s -> agrees j (m_mem s) ->
  exists s' msgs, for_each (seq j n) (fun i => process_rx_descriptor fuel message_at smm_tmp_buf (desc ring i)) s = Some (tt, s') /\
    Forall2 (fun i => carries m0 (desc ring i)) (for_enclave (seq j n)) msgs /\
    ready (foldl deliver mi msgs) mo s' /\ m_glob s' = m_glob s /\
    ipis (m_dev s') = ipis (m_dev s) ++ replicate (length msgs) 0x3a /\
    (forall i, i ∈ for_enclave (seq j n) -> load (m_mem s') (desc ring i) 16 = replicate 16 0) /\
    (forall x, unwritten x -> (forall i, i ∈ for_enclave (seq j n) -> x < desc ring i \/ desc ring i + 16 <= x) ->
      m_mem s' x = m_mem s x).
Proof.
  induction n as [|n IH]; intros j s mi mo Hj Hr Ha.
  { exists s, []. cbn. rewrite app_nil_r. split_and!; try done. intros i Hi. by apply not_elem_of_nil in Hi. }
  destruct (agrees_frame j j _ Ha ltac:(lia)) as (Hok & He & Hn & Hp).
  cbn [seq for_each]. unfold for_enclave. rewrite filter_cons. fold for_enclave.
  destruct (enclave_frame m0 (desc ring j)) eqn:E; [rewrite decide_True by done|rewrite decide_False by done].
  - destruct (take_packet_spec s _ mi mo Hr Hok ltac:(congruence)) as (s1 & msg & E1 & Hl & Ht & Hr1 & Hg & Hi & Hz & Hm).
    assert (agrees (S j) (m_mem s1)) as Ha1.
    { intros x Hx Hx'. rewrite Hm, Ha; try done; [lia|]. unfold desc, sizeof_desc. lia. }
    destruct (IH (S j) s1 (deliver mi msg) mo ltac:(lia) Hr1 Ha1) as (s' & msgs & E2 & Hc & Hr2 & Hg2 & Hi2 & Hz2 & Hm2).
    exists s', (msg :: msgs). split; [|split; [|split; [done|split; [congruence|split; [|split]]]]].
    + rewrite (bind_some _ _ _ tt s1); [exact E2|]. rewrite descriptor_run, He by (done || apply (rd_bytes _ _ _ Hr)). done.
    + constructor; [|done]. split; [done|]. by rewrite <- Hn, Ht, Hp.
    + rewrite Hi2, Hi, <- app_assoc. done.
    + intros i [->|Hin]%elem_of_cons; [|by apply Hz2]. rewrite <- Hz. apply load_ext. intros x Hx.
      apply Hm2; [exact (safe_unwritten _ _ _ (fr_desc _ _ Hok) Hx)|].
      intros i [_ Hi'%elem_of_seq]%list_elem_of_filter. unfold desc, sizeof_desc in *. lia.
    + intros x Hx Hout. rewrite Hm2, Hm; try done; [apply Hout, elem_of_cons; by left|].
      intros i Hi'. apply Hout, elem_of_cons. by right.
  - assert (agrees (S j) (m_mem s)) as Ha1 by (intros x Hx Hx'; apply Ha; [done|lia]).
    destruct (IH (S j) s mi mo ltac:(lia) Hr Ha1) as (s' & msgs & E2 & H'). exists s', msgs. split; [|exact H'].
    rewrite (bind_some _ _ _ tt s); [exact E2|]. rewrite descriptor_run, He by (done || apply (rd_bytes _ _ _ Hr)). done.
Qed.
End Ring.
End Rx.

(** * Properties *)

(** C26 Receiving: one pass over the ring hands the IP packet of every frame that is
    for the enclave to the IN mailbox, in ring order, as a message that starts with
    its length and its bytes; such a descriptor is cleared and the enclave's driver
    interrupted once for it. Descriptors and frames of others, and all memory but
    the locals and the shared region, are left as they were. A packet that finds
    the mailbox full is dropped. *)
Theorem pcnet32_rx_delivers {A max} {Laws : AeadLaws A max} {R} {F : RandomFill R} {FL : RandomFillLaws R}
    {D} `{PL : PlatformLaws D} fuel message_at smm_tmp_buf base (s : machine D R net_glob) mi mo ring :
  let m := m_mem s in
  MSG_SIZE <= max -> has_x2apic (D := D) -> rx_layout message_at smm_tmp_buf base -> ready base mi mo s ->
  load_le m (p_init_block (m_glob s) + init_rx_ring) 4 = ring -> ring + 512 <= 2 ^ 32 ->
  (forall i, (i < 32)%nat -> frame_ok message_at smm_tmp_buf base m (desc ring i)) ->
  (forall i, (i < 32)%nat -> load_le m (desc ring i + desc_status) 2 = 0x340 ->
    disjoint (load_le m (desc ring i) 4) (Z.max 38 (load_le m (desc ring i + rx_msg_length) 4)) ring 512) ->
  exists s' msgs, pcnet32_process_rx_packets fuel message_at smm_tmp_buf s = Some (tt, s') /\
    Forall2 (fun i => carries m (desc ring i)) (for_enclave m ring (seq 0 32)) msgs /\
    ready base (foldl deliver mi msgs) mo s' /\
    ipis (m_dev s') = ipis (m_dev s) ++ replicate (length msgs) 0x3a /\
    (forall i, i ∈ for_enclave m ring (seq 0 32) -> load (m_mem s') (desc ring i) 16 = replicate 16 0) /\
    (forall x, unwritten message_at smm_tmp_buf base x ->
      (forall i, i ∈ for_enclave m ring (seq 0 32) -> x < desc ring i \/ desc ring i + 16 <= x) -> m_mem s' x = m x).
Proof.
  intros m Hmax Hx2 Hlay Hr Hring Hhi Hok Hapart.
  destruct (rx_loop Hmax Hx2 fuel message_at smm_tmp_buf base Hlay m ring Hok Hapart 32 0 s mi mo eq_refl Hr
    ltac:(by intros x _ _)) as (s' & msgs & E & Hc & Hr' & _ & Hi & Hz & Hm).
  exists s', msgs. split; [|by split_and!]. unfold pcnet32_process_rx_packets. rewrite glob_run, field_run.
  change (m_mem s) with m. rewrite Hring, <- E.
  apply for_each_ext, Forall_seq. intros i Hi' s0. unfold desc. rewrite wrap_small; [done|].
  pose proof (load_le_range m (p_init_block (m_glob s) + init_rx_ring) 4 (rd_bytes _ _ _ _ Hr)) as Hr0.
  rewrite Hring in Hr0. unfold sizeof_desc. change (Z.to_nat RX_RING_SIZE) with 32%nat in Hi'. lia.
Qed.

(** A machine whose first descriptor holds a frame for the enclave, the others being
    with the controller. *)
#[local] Existing Instance pc_platform.
Definition demo_leaf (leaf : Z) : RdRand.cpu_info := RdRand.Info 0 0 (Z.shiftl 1 21) 0.
#[local] Instance demo_devices : Devices pc := pc_devices demo_leaf.
#[local] Instance demo_fill : RandomFill RdRand.rng := rdrand_fill RdRand.demo_cpuid RdRand.demo_drng.
Definition demo_ring_bytes : list Z :=
  le_bytes 4 0x400000 ++ le_bytes 2 (- 1536) ++ le_bytes 2 0x340 ++ le_bytes 4 60 ++ le_bytes 4 0 ++ replicate 496 0.
Definition demo_frame_bytes : list Z :=
  replicate 14 1 ++ [70] ++ replicate 19 2 ++ replicate 4 0 ++ replicate 22 3.
Definition demo_net_mem : mem :=
  store_le (store (store demo_mem 0x300000 demo_ring_bytes) 0x400000 demo_frame_bytes) 0x500014 4 0x300000.
Definition demo_net : machine pc RdRand.rng net_glob :=
  Machine demo_net_mem RdRand.boot_rng (Pc 0 (fun _ => 0) [] 0 (0xfee00900, 0)) 0x11 0 xapic
    (NetGlob 0 0 0x3b demo_base 0xc000 0xc000 0x500000 (replicate 6 0) 0 0 0 0).

Lemma demo_ring_load : load demo_net_mem 0x300000 512 = demo_ring_bytes.
Proof.
  unfold demo_net_mem, store_le. rewrite load_store_ne by (right; by vm_compute).
  rewrite load_store_ne by (right; by vm_compute). by apply load_store_eq.
Qed.
Lemma demo_frame_load : load demo_net_mem 0x400000 60 = demo_frame_bytes.
Proof. unfold demo_net_mem, store_le. rewrite load_store_ne by (right; by vm_compute). by apply load_store_eq. Qed.

Lemma demo_field i o k :
  (16 * i + o + k <= 512)%nat ->
  load_le demo_net_mem (desc 0x300000 i + Z.of_nat o) k = le_val (take k (drop (16 * i + o) demo_ring_bytes)).
Proof.
  intros H. unfold load_le. f_equal. rewrite <- (load_sub _ _ _ _ (16 * i + o) k demo_ring_load) by done.
  f_equal. unfold desc, sizeof_desc. lia.
Qed.

Lemma demo_status i :
  (i < 32)%nat -> load_le demo_net_mem (desc 0x300000 i + desc_status) 2 = if decide (i = 0%nat) then 0x340 else 0.
Proof.
  intros Hi. change desc_status with (Z.of_nat 6). rewrite demo_field by lia. apply Z.eqb_eq.
  assert (forallb (fun i => le_val (take 2 (drop (16 * i + 6) demo_ring_bytes)) =? if decide (i = 0%nat) then 0x340 else 0)
    (seq 0 32) = true) as H by (by vm_compute).
  rewrite forallb_forall in H. apply (H i), list_elem_of_In, elem_of_seq. lia.
Qed.

Lemma demo_first :
  load_le demo_net_mem (desc 0x300000 0) 4 = 0x400000 /\ load_le demo_net_mem (desc 0x300000 0 + rx_msg_length) 4 = 60 /\
  enclave_frame demo_net_mem (desc 0x300000 0) = true.
Proof.
  assert (load_le demo_net_mem (desc 0x300000 0) 4 = 0x400000) as E1 by exact (demo_field 0 0 4 ltac:(lia)).
  split; [exact E1|]. split; [exact (demo_field 0 8 4 ltac:(lia))|]. unfold enclave_frame.
  rewrite E1, (demo_status 0) by lia. unfold load_le.
  change (0x400000 + 14) with (0x400000 + Z.of_nat 14). change (0x400000 + 34) with (0x400000 + Z.of_nat 34).
  rewrite (load_sub _ _ _ _ 14 1 demo_frame_load), (load_sub _ _ _ _ 34 4 demo_frame_load) by lia. by vm_compute.
Qed.

Lemma demo_others i : (i < 32)%nat -> enclave_frame demo_net_mem (desc 0x300000 i) = bool_decide (i = 0%nat).
Proof.
  intros Hi. destruct (decide (i = 0%nat)) as [->|Hne]; [exact (proj2 (proj2 demo_first))|].
  unfold enclave_frame. by rewrite demo_status, decide_False, bool_decide_eq_false_2.
Qed.

Lemma demo_rx_layout : rx_layout demo_message 0xa1000 demo_base.
Proof. split; [by vm_compute|left; by vm_compute|exact demo_local]. Qed.

Lemma demo_frame_ok i : (i < 32)%nat -> frame_ok demo_message 0xa1000 demo_base demo_net_mem (desc 0x300000 i).
Proof.
  intros Hi. split.
  - unfold safe, desc, sizeof_desc, demo_message, demo_base. shm_lia.
  - rewrite demo_status by done. case_decide; [subst|done]. destruct demo_first as (-> & -> & _). intros _.
    unfold safe, demo_message, demo_base. shm_lia.
  - rewrite demo_others by done. intros ->%bool_decide_eq_true. rewrite (proj1 (proj2 demo_first)). lia.
Qed.

Lemma demo_ring_ok : bytes demo_ring_bytes.
Proof. do 5 (apply bytes_app; [apply bytes_le_bytes|]). by apply bytes_replicate. Qed.
Lemma demo_frame_bytes_ok : bytes demo_frame_bytes.
Proof.
  apply bytes_app; [by apply bytes_replicate|]. apply bytes_app; [by apply Forall_singleton|].
  do 2 (apply bytes_app; [by apply bytes_replicate|]). by apply bytes_replicate.
Qed.

Lemma demo_ready_net : ready demo_base Mailbox.empty Mailbox.empty demo_net.
Proof.
  assert (forall b mb, box_ok demo_base b -> holds b demo_mem mb -> holds b demo_net_mem mb) as Hh.
  { intros b mb Hb. apply (holds_outside demo_base); [done|]. intros x Hx. unfold demo_base in Hx.
    unfold demo_net_mem, store_le. rewrite !store_out; [done|..];
      right; (etransitivity; [|exact (proj1 Hx)]); by vm_compute. }
  split; [done| | |].
  - cbn [m_mem demo_net]. unfold demo_net_mem. apply is_byte_store; [|apply bytes_le_bytes].
    apply is_byte_store; [apply is_byte_store; [exact demo_bytes|exact demo_ring_ok]|exact demo_frame_bytes_ok].
  - apply Hh; [apply in_box_ok|exact (proj1 demo_empty)].
  - apply Hh; [apply out_box_ok|exact (proj2 demo_empty)].
Qed.

Lemma filter_agree {X} (P Q : X -> Prop) `{!forall x, Decision (P x), !forall x, Decision (Q x)} l :
  Forall (fun x => P x <-> Q x) l -> filter P l = filter Q l.
Proof.
  intros Hl. induction Hl as [|x l Hx _ IH]; [done|]. rewrite !filter_cons, IH. repeat case_decide; tauto.
Qed.

Lemma demo_for_enclave : for_enclave demo_net_mem 0x300000 (seq 0 32) = [0%nat].
Proof.
  unfold for_enclave. transitivity (filter (fun i => i = 0%nat) (seq 0 32)); [|by vm_compute].
  apply filter_agree, Forall_forall. intros i Hi%elem_of_seq. rewrite demo_others by lia.
  by rewrite bool_decide_eq_true.
Qed.

Lemma pcnet32_rx_delivers_witness :
  exists s' msgs, pcnet32_process_rx_packets 1 demo_message 0xa1000 demo_net = Some (tt, s') /\
    Forall2 (fun i => carries demo_net_mem (desc 0x300000 i)) [0%nat] msgs /\
    ready demo_base (foldl deliver Mailbox.empty msgs) Mailbox.empty s' /\
    ipis (m_dev s') = [] ++ replicate (length msgs) 0x3a /\
    (forall i, i ∈ [0%nat] -> load (m_mem s') (desc 0x300000 i) 16 = replicate 16 0) /\
    (forall x, unwritten demo_message 0xa1000 demo_base x ->
      (forall i, i ∈ [0%nat] -> x < desc 0x300000 i \/ desc 0x300000 i + 16 <= x) -> m_mem s' x = demo_net_mem x).
Proof.
  rewrite <- demo_for_enclave.
  apply (pcnet32_rx_delivers (Laws := aes256gcm_laws) (FL := rdrand_fill_laws RdRand.demo_cpuid RdRand.demo_drng)
    (PL := pc_laws demo_leaf) 1 demo_message 0xa1000 demo_base demo_net Mailbox.empty Mailbox.empty 0x300000);
    [by vm_compute|by vm_compute|exact demo_rx_layout|exact demo_ready_net| |by vm_compute|exact demo_frame_ok|].
  - apply load_le_store_same. by vm_compute.
  - intros i Hi. cbn [m_mem demo_net]. rewrite demo_status by done. case_decide; [subst|done].
    destruct demo_first as (-> & -> & _). intros _. right. by vm_compute.
Defined.
