(* ===== verification/Transmit.v ===== *)
(** Packets of the enclave's network stack: the network interface of lwIP in the
    enclave (ethernetif.cpp, sys_arch.cpp and Enclave.cpp of Aurora-lwip-sgx), its
    variants of the mailbox operations (ring_buffer.cpp), the supervisor that a packet
    enters (supervisor.c, pcnet32.c), and the function of the driver that hands the
    packets of the mailbox to the controller, which the firmware does not call. *)

From Stdlib Require Import ZArith Lia Bool.
From stdpp Require Import base list.
From S2P Require Import Prelude Smram Aead RingBuffer Hw Apic Ether Chksum Network.

(** * The enclave's side *)



Section Lwip.
Context {A : Aead} {R : Type} {F : RandomFill R} {D G : Type}.
(** The addresses of the local [message] of [put_out_buffer], of [__packet] and of the
    shared region, and the way to the supervisor. *)
Context (message_at packet uio_ram : Z) (ocall_smi : prog (machine D R G) unit).



End Lwip.

Lemma bind_memory {D R G X Y} (f : mem -> option (X * mem)) (k : X -> prog (machine D R G) Y) s x m :
  f (m_mem s) = Some (x, m) -> bind (on_memory f) k s = k x (set_mem m s).
Proof. intros E. apply bind_some. unfold on_memory. by rewrite E. Qed.


(** * The supervisor's side *)

(** The text of the next hop's address, "f4:8e:38:f2:fa:a0", and the address. *)
Definition next_hop_text : list Z := [102; 52; 58; 56; 101; 58; 51; 56; 58; 102; 50; 58; 102; 97; 58; 97; 48].
Definition next_hop_mac : list Z := [0xf4; 0x8e; 0x38; 0xf2; 0xfa; 0xa0].

(** The length that a message starts with, and the frame that is sent for it: its
    addresses are replaced, and a short one is filled up with zeros. *)
Definition ulen (msg : list Z) : Z := le_val (take 4 msg).
Definition readdressed (hw frame : list Z) : list Z := next_hop_mac ++ hw ++ drop 12 frame.
Definition padded (frame : list Z) : list Z := frame ++ replicate (64 - length frame) 0.
Definition wire_frame (hw msg : list Z) : list Z :=
  padded (readdressed hw (take (Z.to_nat (ulen msg)) (drop 4 msg))).
(** A message that [tx_frame] can hold. *)
Definition sendable (msg : list Z) : Prop := 12 <= ulen msg <= 1600.

Lemma next_hop_bytes : bytes next_hop_mac.
Proof. apply (bool_decide_unpack _). by vm_compute. Qed.

Lemma next_hop_parse m str out :
  load m str 18 = next_hop_text ++ [0] -> disjoint out 6 str 18 ->
  exists m', str2mac 256 str out m = Some m' /\ m' ≡ store m out next_hop_mac.
Proof.
  intros Ht Hd. change next_hop_mac with (fields hex_digit 16 next_hop_text 0).
  apply (fields_loop_spec hex_digit 16 eq_refl); rewrite ?Z.add_0_r; try done; [|cbn; lia..].
  repeat (apply Forall_cons; split; [done|]). by apply Forall_nil.
Qed.

Section Tx.
Context {A : Aead} {max : Z} {Laws : AeadLaws A max} (Hmax : MSG_SIZE <= max).
Context {R : Type} {D : Type} {Dev : Devices D}.
(** Where [smm_tmp], [tx_frame] and the text of the next hop are, and the value of the
    static variables. *)
Context (smm_tmp tx_frame next_hop : Z) (g : net_glob).
Abbreviation machine := (machine D R net_glob).

(** The descriptor that [do_pcnet32_transmit] takes, in the ring at [ring]. *)
Definition tx_desc (ring : Z) : Z := u32 (ring + (TX_RING_SIZE - XMTRC g) * sizeof_desc).

(** A region apart from what sending a packet writes to. *)
Definition quiet_region (lo n : Z) : Prop :=
  disjoint lo n smm_tmp MSG_SIZE /\ disjoint lo n tx_frame 1600 /\ disjoint lo n (shmem_base g) SHM_SIZE.

Lemma quiet_sub lo n x : quiet_region lo n -> lo <= x < lo + n -> quiet_region x 1.
Proof. unfold quiet_region, disjoint. lia. Qed.

Record tx_layout (ring : Z) : Prop := {
  txl_smram : is_within_smram smm_tmp MSG_SIZE <> 0;
  txl_tmp : disjoint smm_tmp MSG_SIZE (shmem_base g) SHM_SIZE;
  txl_frame : disjoint tx_frame 1600 (shmem_base g) SHM_SIZE /\ disjoint tx_frame 1600 smm_tmp MSG_SIZE;
  txl_addr : 0 <= tx_frame < 2 ^ 32;
  txl_hop : quiet_region next_hop 18 /\ disjoint (tx_desc ring) 16 next_hop 18;
  txl_init : quiet_region (p_init_block g + init_tx_ring) 4 /\
    disjoint (tx_desc ring) 16 (p_init_block g + init_tx_ring) 4;
  txl_desc : quiet_region (tx_desc ring) 16;
  txl_hw : length (hw_addr g) = 6%nat /\ bytes (hw_addr g);
}.

(** The supervisor between two packets. *)
Record tx_ready (ring : Z) (mi mo : Mailbox.t) (s : machine) : Prop := {
  txr_glob : m_glob s = g;
  txr_bytes : all_bytes (m_mem s);
  txr_in : holds (in_box (shmem_base g)) (m_mem s) mi;
  txr_out : holds (out_box (shmem_base g)) (m_mem s) mo;
  txr_clear : load (m_mem s) tx_frame 1600 = replicate 1600 0;
  txr_hop : load (m_mem s) next_hop 18 = next_hop_text ++ [0];
  txr_ring : load_le (m_mem s) (p_init_block g + init_tx_ring) 4 = ring;
}.

(** The controller's view: the descriptor at [desc] hands it the bytes [f]. *)
Record posted (desc : Z) (f : list Z) (m : mem) : Prop := {
  post_base : load m (load_le m (desc + desc_base) 4) (length f) = f;
  post_length : load_le m (desc + desc_length) 2 = u16 (- Z.of_nat (length f));
  post_status : load_le m (desc + desc_status) 2 = 0x8300;
  post_misc : load_le m (desc + tx_misc) 4 = 0;
}.

(** The demand for a poll of the ring. *)
Definition demand : prog machine unit := csr_write 0 (Z.lor IntEnable TxDemand).

(** From one state of the devices to another by one demand for each of the frames,
    while the descriptor hands that frame to the controller. *)
Inductive demands (desc : Z) : list (list Z) -> D -> D -> Prop :=
| demands_none d : demands desc [] d d
| demands_one f fs s s' d : posted desc f (m_mem s) -> demand s = Some (tt, s') ->
    demands desc fs (m_dev s') d -> demands desc (f :: fs) (m_dev s) d.
(** ** One packet *)

(** The descriptor's fields, and the frame's bytes. *)
Definition post (m : mem) (desc data len : Z) : mem :=
  store_le (store_le (store_le (store_le m (desc + desc_length) 2 (- len)) (desc + tx_misc) 4 0)
    (desc + desc_base) 4 data) (desc + desc_status) 2 0x8300.

Lemma post_out m desc data len x : x < desc \/ desc + 16 <= x -> post m desc data len x = m x.
Proof.
  intros Hx. unfold post, store_le, desc_length, tx_misc, desc_base, desc_status.
  rewrite !store_out by (rewrite length_le_bytes; lia). done.
Qed.

Lemma post_bytes m desc data len : all_bytes m -> all_bytes (post m desc data len).
Proof. intros Hm. unfold post, store_le. repeat (apply is_byte_store; [|apply bytes_le_bytes]). exact Hm. Qed.

Lemma post_posted m desc data f :
  0 <= data < 2 ^ 32 -> disjoint data (Z.of_nat (length f)) desc 16 -> load m data (length f) = f ->
  posted desc f (post m desc data (Z.of_nat (length f))).
Proof.
  intros Hd Hdis Hf. unfold disjoint in Hdis.
  assert (forall v a n b k w, disjoint a (Z.of_nat n) b (Z.of_nat k) -> load_le (store_le v a n w) b k = load_le v b k) as Hne.
  { intros v a n b k w Hab. unfold load_le, store_le. by rewrite load_store_ne by (by rewrite length_le_bytes). }
  unfold post, desc_length, tx_misc, desc_base, desc_status. split; cbv [desc_length tx_misc desc_base desc_status].
  - rewrite Hne, load_le_store_same by (done || (unfold disjoint; lia)).
    etransitivity; [|exact Hf]. apply load_ext. intros x Hx. apply (post_out m desc data). lia.
  - rewrite !Hne by (unfold disjoint; lia). unfold load_le, store_le. rewrite load_store_eq by done.
    apply le_val_le_bytes.
  - by apply load_le_store_same.
  - rewrite !Hne by (unfold disjoint; lia). by apply load_le_store_same.
Qed.

Lemma do_transmit_run data len s :
  m_glob s = g ->
  let desc := tx_desc (load_le (m_mem s) (p_init_block g + init_tx_ring) 4) in
  do_pcnet32_transmit tx_frame data len s =
  (let* _ := demand in on_mem (fun m => memset m tx_frame 0 1600))
    (set_mem (post (m_mem s) desc data (Z.max 64 len)) s).
Proof.
  intros Hg desc. unfold do_pcnet32_transmit. rewrite glob_run, Hg, field_run, glob_run, Hg, !set_field_run.
  cbn [m_mem set_mem]. fold (tx_desc (load_le (m_mem s) (p_init_block g + init_tx_ring) 4)). fold desc.
  replace (if len <? 64 then 64 else len) with (Z.max 64 len) by (destruct (Z.ltb_spec len 64); lia). done.
Qed.

(** The message, with its addresses replaced, behind its length. *)
Lemma readdressed_load m msg hw n :
  load m smm_tmp msg_bytes = msg -> length hw = 6%nat -> (12 <= n <= 1600)%nat ->
  load (store (store m (smm_tmp + 4) next_hop_mac) (smm_tmp + 4 + 6) hw) (smm_tmp + 4) n =
  readdressed hw (take n (drop 4 msg)).
Proof.
  intros Hl Hhw Hn. replace n with (6 + (6 + (n - 12)))%nat at 1 by lia. rewrite !load_app.
  unfold readdressed. f_equal; [|f_equal].
  - rewrite load_store_ne by (rewrite Hhw; unfold disjoint; lia). by apply load_store_eq.
  - by apply load_store_eq.
  - rewrite !load_store_ne by (rewrite ?Hhw; unfold disjoint; cbn; lia).
    rewrite skipn_firstn_comm, drop_drop. change (4 + 12)%nat with 16%nat.
    rewrite <- (load_sub m smm_tmp msg_bytes msg 16 (n - 12) Hl); [f_equal; lia|].
    unfold msg_bytes. change (Z.to_nat MSG_SIZE) with 4080%nat. lia.
Qed.

Lemma padded_load m m' n f :
  load m tx_frame 1600 = replicate 1600 0 -> (n <= 1600)%nat -> length f = n ->
  m' = store m tx_frame f -> load m' tx_frame (Nat.max 64 n) = padded f.
Proof.
  intros Hz Hn Hf ->. replace (Nat.max 64 n) with (n + (64 - n))%nat by lia. rewrite load_app. unfold padded. f_equal.
  - by apply load_store_eq.
  - rewrite load_store_ne by (rewrite Hf; unfold disjoint; lia). rewrite (load_sub _ _ _ _ n (64 - n) Hz) by lia.
    rewrite drop_replicate, take_replicate, Hf. f_equal. lia.
Qed.
Lemma demand_run s : exists d, demand s = Some (tt, set_dev d s).
Proof. by eexists. Qed.

Lemma length_wire hw msg :
  length hw = 6%nat -> length msg = msg_bytes -> sendable msg ->
  length (readdressed hw (take (Z.to_nat (ulen msg)) (drop 4 msg))) = Z.to_nat (ulen msg) /\
  length (wire_frame hw msg) = Nat.max 64 (Z.to_nat (ulen msg)).
Proof.
  intros Hhw Hl Hs. unfold sendable in Hs. change msg_bytes with 4080%nat in Hl.
  assert (length (readdressed hw (take (Z.to_nat (ulen msg)) (drop 4 msg))) = Z.to_nat (ulen msg)) as E.
  { unfold readdressed. rewrite !length_app, Hhw, length_drop, length_take, length_drop, Hl.
    change (length next_hop_mac) with 6%nat. lia. }
  split; [exact E|]. unfold wire_frame, padded. rewrite length_app, length_replicate, E. lia.
Qed.

(** Taking a message and staging its frame, up to the call of [do_pcnet32_transmit]. *)
Lemma stage_spec n ring mi mo s msg mo' :
  tx_layout ring -> tx_ready ring mi mo s -> Mailbox.get mo = Some (msg, mo') -> sendable msg ->
  exists m', pcnet32_tx_enclave_packet smm_tmp tx_frame next_hop (S n) s =
      (let* _ := do_pcnet32_transmit tx_frame tx_frame (ulen msg) in
       pcnet32_tx_enclave_packet smm_tmp tx_frame next_hop n) (set_mem m' s) /\
    length msg = msg_bytes /\ all_bytes m' /\ load m' tx_frame (Nat.max 64 (Z.to_nat (ulen msg))) = wire_frame (hw_addr g) msg /\
    holds (in_box (shmem_base g)) m' mi /\ holds (out_box (shmem_base g)) m' mo' /\
    (forall x, quiet_region x 1 -> m' x = m_mem s x).
Proof.
  intros HL [Hg Hm Hi Ho Hz Ht Hring] Hget Hs. unfold sendable in Hs. destruct (txl_hw ring HL) as [Hhw Hhb].
  pose proof (get_at_refines (max := max) Hmax (shmem_base g) _ _ (out_box_ok _) (in_box_ok _) (apart_sym _ _ (in_out_apart _))
    smm_tmp 0 (m_mem s) mo mi Hm Ho Hi (txl_tmp ring HL)) as H1. rewrite Hget in H1.
  destruct H1 as (m1 & E1 & Hmsg & Ho1 & Hi1 & Hm1 & Hun1). rewrite <- get_out_buffer_at in E1 by exact (txl_smram ring HL).
  assert (length msg = msg_bytes) as Hl by (rewrite <- Hmsg; apply length_load).
  destruct (txl_hop ring HL) as [(Hh1 & Hh2 & Hh3) _]. destruct (txl_frame ring HL) as [Hf1 Hf2].
  pose proof (txl_tmp ring HL) as Htmp.
  destruct (next_hop_parse m1 next_hop (smm_tmp + 4)) as (m2 & E2 & Hm2).
  { rewrite <- Ht. apply load_ext. intros x Hx. apply Hun1; shm_lia. }
  { shm_lia. }
  set (m3 := store m2 (smm_tmp + 4 + 6) (hw_addr g)). set (k := Z.to_nat (ulen msg)).
  assert (forall x, x < smm_tmp + 4 \/ smm_tmp + 16 <= x -> m3 x = m1 x) as Hm3.
  { intros x Hx. unfold m3. rewrite store_out by (rewrite Hhw; lia). rewrite (Hm2 x). apply store_out. cbn. lia. }
  assert (load_le m3 smm_tmp 4 = ulen msg) as Hu.
  { unfold load_le, ulen. f_equal. rewrite <- Hmsg. change msg_bytes with (4 + 4076)%nat. rewrite load_app, take_app_length'
      by (by rewrite length_load). apply load_ext. intros x Hx. apply Hm3. lia. }
  assert (all_bytes m3) as Hb3.
  { apply is_byte_store; [|exact Hhb]. intros x. rewrite (Hm2 x). apply is_byte_store; [exact Hm1|exact next_hop_bytes]. }
  set (m4 := memcpy m3 tx_frame (smm_tmp + 4) k).
  assert (forall x, x < tx_frame \/ tx_frame + 1600 <= x -> m4 x = m3 x) as Hm4
    by (intros x Hx; apply memcpy_out; lia).
  exists m4. split_and!; [|done|..].
  - cbn [pcnet32_tx_enclave_packet]. rewrite glob_run, Hg.
    erewrite bind_memory by (rewrite E1; reflexivity). cbn [Z.eqb negb].
    erewrite bind_memory by (cbn [m_mem set_mem]; rewrite E2; reflexivity).
    rewrite glob_run. cbn [m_glob set_mem]. rewrite Hg, on_mem_run, field_run, on_mem_run, field_run. cbn [m_mem set_mem].
    fold m3. rewrite Hu. fold k m4.
    assert (load_le m4 smm_tmp 4 = ulen msg) as ->.
    { rewrite <- Hu. unfold load_le. f_equal. apply load_ext. intros x Hx. apply Hm4. shm_lia. }
    rewrite to_signed_small by lia. reflexivity.
  - apply is_byte_store; [exact Hb3|by apply bytes_load].
  - unfold wire_frame. fold k. apply (padded_load m3); [|lia|by apply length_wire|].
    + rewrite <- Hz. apply load_ext. intros x Hx. rewrite Hm3 by shm_lia. apply Hun1; shm_lia.
    + unfold m4, memcpy. f_equal. unfold m3. rewrite <- (readdressed_load m1 msg) by (done || lia).
      apply load_proper; [|done..]. apply store_proper; [exact Hm2|done..].
  - revert Hi1. apply (holds_outside (shmem_base g)); [apply in_box_ok|]. intros x Hx. rewrite Hm4, Hm3 by shm_lia. done.
  - revert Ho1. apply (holds_outside (shmem_base g)); [apply out_box_ok|]. intros x Hx. rewrite Hm4, Hm3 by shm_lia. done.
  - intros x (Hx1 & Hx2 & Hx3). rewrite Hm4, Hm3, Hun1 by shm_lia. done.
Qed.
(** Sending one packet: the frame is handed over, [tx_frame] is cleared, and the
    supervisor is ready for the next one. *)
Definition unsent (ring x : Z) : Prop := quiet_region x 1 /\ (x < tx_desc ring \/ tx_desc ring + 16 <= x).

Lemma send_one n ring mi mo s msg mo' :
  tx_layout ring -> tx_ready ring mi mo s -> Mailbox.get mo = Some (msg, mo') -> sendable msg ->
  exists s1 s2 s', posted (tx_desc ring) (wire_frame (hw_addr g) msg) (m_mem s1) /\ m_dev s1 = m_dev s /\
    demand s1 = Some (tt, s2) /\ m_dev s' = m_dev s2 /\
    pcnet32_tx_enclave_packet smm_tmp tx_frame next_hop (S n) s =
      pcnet32_tx_enclave_packet smm_tmp tx_frame next_hop n s' /\
    tx_ready ring mi mo' s' /\ (forall x, unsent ring x -> m_mem s' x = m_mem s x).
Proof.
  intros HL Hr Hget Hs. destruct (stage_spec n ring mi mo s msg mo' HL Hr Hget Hs) as (m' & -> & Hl & Hb & Hf & Hi & Ho & Hq).
  destruct Hr as [Hg _ _ _ Hz Ht Hring]. destruct (txl_hw ring HL) as [Hhw _].
  destruct (length_wire (hw_addr g) msg Hhw Hl Hs) as [_ Hlen]. unfold sendable in Hs.
  destruct (txl_hop ring HL) as [Hh Hhd]. destruct (txl_init ring HL) as [Hin Hid].
  pose proof (txl_desc ring HL) as (Hd1 & Hd2 & Hd3). destruct (txl_frame ring HL) as [Hf1 Hf2].
  assert (load_le m' (p_init_block g + init_tx_ring) 4 = ring) as Hring'.
  { rewrite <- Hring. unfold load_le. f_equal. apply load_ext. intros x Hx. apply Hq.
    by apply (quiet_sub _ _ _ Hin). }
  set (f := wire_frame (hw_addr g) msg) in *. set (desc := tx_desc ring) in *.
  set (s1 := set_mem (post m' desc tx_frame (Z.of_nat (length f))) s).
  destruct (demand_run s1) as (d & Ed). set (s2 := set_dev d s1). set (s' := set_mem (memset (m_mem s1) tx_frame 0 1600) s2).
  assert (forall x, unsent ring x -> m_mem s' x = m_mem s x) as Hsame.
  { intros x [Hx1 Hx2]. cbn [s' s2 s1 m_mem set_mem set_dev]. rewrite memset_out by (destruct Hx1 as (_ & Hx1 & _); shm_lia).
    rewrite post_out by done. by apply Hq. }
  assert (forall b mb, box_ok (shmem_base g) b -> holds b m' mb -> holds b (m_mem s') mb) as Hh'.
  { intros b mb Hbok. apply (holds_outside (shmem_base g)); [done|]. intros x Hx. cbn [s' s2 s1 m_mem set_mem set_dev].
    rewrite memset_out, post_out by shm_lia. done. }
  exists s1, s2, s'. split; [|split; [done|split; [exact Ed|split; [done|split; [|split; [|exact Hsame]]]]]].
  - apply post_posted; [exact (txl_addr ring HL)|shm_lia|]. by rewrite Hlen.
  - etransitivity; [apply bind_some with (a := tt) (s' := s')|done].
    rewrite do_transmit_run by done. cbn [m_mem set_mem]. rewrite Hring'. fold desc.
    replace (Z.max 64 (ulen msg)) with (Z.of_nat (length f)) by lia. change (set_mem _ (set_mem m' s)) with s1.
    rewrite (bind_some _ _ _ _ _ Ed). done.
  - split; [exact Hg|..].
    + apply is_byte_store; [by apply post_bytes|]. by apply bytes_replicate.
    + by apply Hh'; [apply in_box_ok|].
    + by apply Hh'; [apply out_box_ok|].
    + by apply load_store_eq.
    + rewrite <- Ht. apply load_ext. intros x Hx. apply Hsame. split; [by apply (quiet_sub _ _ _ Hh)|].
      fold desc. unfold disjoint in Hhd. lia.
    + rewrite <- Hring. unfold load_le. f_equal. apply load_ext. intros x Hx. apply Hsame.
      split; [by apply (quiet_sub _ _ _ Hin)|]. fold desc. unfold disjoint in Hid. lia.
Qed.

(** The loop: every pending message is sent. *)
Lemma send_all n : forall ring mi mo s,
  tx_layout ring -> tx_ready ring mi mo s -> Forall sendable (Mailbox.pending mo) ->
  (length (Mailbox.pending mo) < n)%nat ->
  exists s' mo', pcnet32_tx_enclave_packet smm_tmp tx_frame next_hop n s = Some (tt, s') /\
    demands (tx_desc ring) (wire_frame (hw_addr g) <$> Mailbox.pending mo) (m_dev s) (m_dev s') /\
    tx_ready ring mi mo' s' /\ Mailbox.pending mo' = [] /\ (forall x, unsent ring x -> m_mem s' x = m_mem s x).
Proof.
  induction n as [|n IH]; intros ring mi mo s HL Hr Hs Hn; [lia|].
  destruct (Mailbox.get mo) as [[msg mo1]|] eqn:Hget.
  - pose proof (Mailbox.get_pending_cons _ _ _ Hget) as Hp. rewrite Hp in Hs, Hn |- *. apply Forall_cons in Hs as [Hs1 Hs].
    destruct (send_one n ring mi mo s msg mo1 HL Hr Hget Hs1) as (s1 & s2 & s3 & Hpost & Hd1 & Ed & Hd3 & -> & Hr3 & Hx3).
    destruct (IH ring mi mo1 s3 HL Hr3 Hs ltac:(cbn in Hn; lia)) as (s' & mo' & E & Hdem & Hr' & Hp' & Hx').
    exists s', mo'. split_and!; try done; [|intros x Hx; by rewrite Hx', Hx3].
    rewrite <- Hd1. cbn [fmap list_fmap]. eapply demands_one; [exact Hpost|exact Ed|]. by rewrite <- Hd3.
  - pose proof (proj1 (Mailbox.get_pending mo) Hget) as Hp. rewrite Hp. exists s, mo. split_and!; try done; [|constructor].
    destruct Hr as [Hg Hm Hi Ho _ _ _]. cbn [pcnet32_tx_enclave_packet]. rewrite glob_run, Hg.
    pose proof (get_at_refines (max := max) Hmax (shmem_base g) _ _ (out_box_ok _) (in_box_ok _)
      (apart_sym _ _ (in_out_apart _)) smm_tmp 0 (m_mem s) mo mi Hm Ho Hi (txl_tmp ring HL)) as H1. rewrite Hget in H1.
    rewrite <- get_out_buffer_at in H1 by exact (txl_smram ring HL).
    erewrite bind_memory by (rewrite H1; reflexivity). by destruct s.
Qed.

(** With the whole mailbox as the bound, which the loop cannot exceed. *)
Lemma send_mailbox ring mi mo s :
  tx_layout ring -> tx_ready ring mi mo s -> Forall sendable (Mailbox.pending mo) ->
  exists s', pcnet32_tx_enclave_packet smm_tmp tx_frame next_hop (S MAX_ENTRY) s = Some (tt, s') /\
    demands (tx_desc ring) (wire_frame (hw_addr g) <$> Mailbox.pending mo) (m_dev s) (m_dev s') /\
    tx_ready ring mi Mailbox.empty s' /\ (forall x, unsent ring x -> m_mem s' x = m_mem s x).
Proof.
  intros HL Hr Hs. assert (length mo = MAX_ENTRY) as Hmo by exact (proj1 (txr_out _ _ _ _ Hr)).
  destruct (send_all (S MAX_ENTRY) ring mi mo s HL Hr Hs) as (s2 & mo' & E2 & Hd & Hr2 & Hp & Hx).
  { pose proof (Mailbox.length_pending mo). lia. }
  apply Mailbox.pending_nil in Hp. rewrite (proj1 (txr_out _ _ _ _ Hr2)) in Hp. rewrite Hp in Hr2. by exists s2.
Qed.
End Tx.


(** * From the chain to the mailbox *)




Section Output.
Context {A : Aead} {max : Z} {Laws : AeadLaws A max} (Hmax : MSG_SIZE <= max).
Context {R : Type} {F : RandomFill R} {FL : RandomFillLaws R} {D G : Type}.
Context (message_at packet base : Z) (Hlocal : local_ok message_at base).
Context (Hpk : disjoint packet 2000 base SHM_SIZE).



End Output.

(** * The interrupt *)

Section Handler.
Context {A : Aead} {max : Z} {Laws : AeadLaws A max} (Hmax : MSG_SIZE <= max).
Context {R : Type} {F : RandomFill R} {D : Type} {Dev : Devices D}.
Context (fuel : nat) (message_at smm_tmp_buf smm_tmp tx_frame next_hop : Z).
Abbreviation machine := (machine D R net_glob).

(** What [pcnet32_backdoor_step1] does with the controller at [io]: CSR 5 and the
    counter of the transmit ring. *)
Definition ring_counter (io : Z) : prog D (Z * Z) :=
  let* v := read_csr pcnet32_wio io 5 in
  let* _ := write_csr pcnet32_wio io 5 0x0001 in
  let* x := read_csr pcnet32_wio io 74 in
  let* _ := write_csr pcnet32_wio io 5 (u16 v) in
  ret (v, x).
Definition counted (v x : Z) (g : net_glob) : net_glob := set_XMTRC (s16 x) (set_CSR5 v g).

Lemma step1_run (s : machine) v x d :
  ring_counter (ioaddr (m_glob s)) (m_dev s) = Some ((v, x), d) ->
  pcnet32_backdoor_step1 s = Some (tt, set_glob (counted v x (m_glob s)) (set_dev d s)).
Proof.
  destruct s as [mm rr dd c0 c4 ap g]. cbn [m_glob m_dev]. intros E.
  unfold pcnet32_backdoor_step1, csr_read, csr_write, ring_counter, bind, glob, on_dev, on_glob, gets, modify, a in *.
  cbn [m_glob m_dev read_csr write_csr pcnet32_wio set_dev set_glob] in *.
  unfold pcnet32_wio_read_csr, pcnet32_wio_write_csr, bind, rd, wr, ret in *.
  destruct (inw _ _) as [v1 e1]. cbn [m_glob m_dev ioaddr set_dev set_glob CSR5 set_CSR5] in *.
  destruct (inw _ _) as [x1 e2]. by injection E as <- <- <-.
Qed.

Lemma step2_run (s : machine) :
  exists d v, pcnet32_backdoor_step2 s = Some (tt, set_glob (set_CSR5 v (m_glob s)) (set_dev d s)).
Proof.
  unfold pcnet32_backdoor_step2, csr_read, csr_write, bind, glob, on_dev, on_glob, gets, modify, a.
  cbn [m_glob m_dev read_csr write_csr pcnet32_wio set_dev set_glob].
  unfold pcnet32_wio_read_csr, pcnet32_wio_write_csr, bind, rd, wr, ret.
  destruct (inw _ _) as [v1 e1]. by eexists _, _.
Qed.






(** A supervisor that is ready with one value of the counters is so with any. *)
Lemma ready_counted g ring mi mo (s s' : machine) v x :
  tx_ready tx_frame next_hop g ring mi mo s -> m_mem s' = m_mem s -> m_glob s' = counted v x g ->
  tx_ready tx_frame next_hop (counted v x g) ring mi mo s'.
Proof. intros [Hg Hm Hi Ho Hz Ht Hr] Em Eg. split; rewrite ?Em; done. Qed.

(** An interrupt without a cause of the controller's: the pending messages are sent. *)
Lemma handler_sends g ring mi mo (s : machine) int d0 v x d1 :
  read_csr pcnet32_wio (ioaddr g) 0 (m_dev s) = Some (int, d0) -> Z.land int TxInt = 0 -> Z.land int RxInt = 0 ->
  ring_counter (ioaddr g) d0 = Some ((v, x), d1) ->
  tx_layout smm_tmp tx_frame next_hop (counted v x g) ring -> tx_ready tx_frame next_hop g ring mi mo s ->
  Forall sendable (Mailbox.pending mo) ->
  exists s2 s', pcnet32_handler_tx fuel message_at smm_tmp_buf smm_tmp tx_frame next_hop s = Some (tt, s') /\
    demands (R := R) (tx_desc (counted v x g) ring) (wire_frame (hw_addr g) <$> Mailbox.pending mo) d1 (m_dev s2) /\
    pcnet32_backdoor_step2 s2 = Some (tt, s') /\ m_mem s' = m_mem s2 /\
    tx_ready tx_frame next_hop (counted v x g) ring mi Mailbox.empty s2 /\
    (forall y, unsent smm_tmp tx_frame (counted v x g) ring y -> m_mem s2 y = m_mem s y).
Proof.
  intros E0 Ht Hr Ec HL Hrd Hs. pose proof (txr_glob _ _ _ _ _ _ _ Hrd) as Hg.
  set (s1 := set_glob (counted v x g) (set_dev d1 (set_dev d0 s))).
  pose proof (ready_counted g ring mi mo s s1 v x Hrd eq_refl eq_refl) as Hrd1.
  destruct (send_mailbox (max := max) Hmax smm_tmp tx_frame next_hop (counted v x g) ring mi mo s1 HL Hrd1 Hs)
    as (s2 & E2 & Hd & Hrd2 & Hx).
  destruct (step2_run s2) as (d3 & g3 & E3).
  eexists s2, _. split; [|split; [exact Hd|split; [exact E3|split; [done|split; [exact Hrd2|exact Hx]]]]].
  unfold pcnet32_handler_tx, csr_read. rewrite bind_assoc, glob_run, Hg. erewrite bind_dev by exact E0.
  rewrite Ht, Hr. cbn [Z.eqb negb andb when]. rewrite !bind_ret.
  rewrite (bind_some _ _ _ tt s1) by (rewrite step1_run with (v := v) (x := x) (d := d1); cbn [m_glob set_dev m_dev];
    rewrite ?Hg; done).
  by rewrite (bind_some _ _ _ _ _ E2).
Qed.
End Handler.

(** * Properties *)









(** A controller at 0xc000 whose registers keep what is written, on a machine where the
    enclave sends a chain of two buffers. *)
Record nic := Nic { nic_rap : Z; nic_csr : Z -> Z }.
#[local] Instance nic_devices : Devices nic := {|
  readl a d := (0, d); writel a v d := d; rdmsr r d := (0, 0, d); wrmsr r a e d := d; cpuid := demo_leaf;
  inb p d := (0xff, d); outb v p d := d;
  inw p d := (if p =? 0xc010 then nic_csr d (nic_rap d) else 0xffff, d);
  outw v p d :=
    if p =? 0xc012 then Nic v (nic_csr d)
    else if p =? 0xc010 then Nic (nic_rap d) (fun r => if r =? nic_rap d then v else nic_csr d r) else d;
  inl p d := (2 ^ 32 - 1, d); outl v p d := d; rdtscll d := (0, d);
|}.
#[local] Existing Instance demo_fill.







