(* ===== verification/Pbuf.v ===== *)
(** Packet buffers of the lwIP stack (pbuf.cpp, and the parts of mem.cpp and memp.cpp
    that it calls): the structures, allocation, reference counts and chains. *)

From Stdlib Require Import ZArith Lia Bool.
From stdpp Require Import base list gmap.
From S2P Require Import Prelude Hw.

(** * Configuration

    lwipopts.h takes memory from the C library, disables assertions and keeps
    statistics; MEM_ALIGNMENT is 1 by default, so that the alignment macros are the
    identity. *)

Definition MEM_ALIGNMENT : Z := 1.
Definition LWIP_MEM_ALIGN_SIZE (size : Z) : Z := Z.land (size + MEM_ALIGNMENT - 1) (Z.lnot (MEM_ALIGNMENT - 1)).
Definition LWIP_MEM_ALIGN (addr : Z) : Z := Z.land (addr + MEM_ALIGNMENT - 1) (Z.lnot (MEM_ALIGNMENT - 1)).
Definition PBUF_LINK_HLEN : Z := 14.
Definition TCP_MSS : Z := 536.
Definition PBUF_POOL_BUFSIZE : Z := LWIP_MEM_ALIGN_SIZE (TCP_MSS + 40 + 0 + PBUF_LINK_HLEN).

(** sizeof (struct pbuf) on a 64-bit machine. *)
Definition sizeof_pbuf : Z := 24.
Definition SIZEOF_STRUCT_PBUF : Z := LWIP_MEM_ALIGN_SIZE sizeof_pbuf.
Definition PBUF_POOL_BUFSIZE_ALIGNED : Z := LWIP_MEM_ALIGN_SIZE PBUF_POOL_BUFSIZE.
(** sizeof (mem_size_t). *)
Definition MEM_LIBC_STATSHELPER_SIZE : Z := LWIP_MEM_ALIGN_SIZE 8.

(** * Types *)

Definition PBUF_TRANSPORT_HLEN : Z := 20.
Definition PBUF_IP_HLEN : Z := 20.
Inductive pbuf_layer := PBUF_TRANSPORT | PBUF_IP | PBUF_LINK | PBUF_RAW_TX | PBUF_RAW.
Definition layer_offset (l : pbuf_layer) : Z :=
  match l with
  | PBUF_TRANSPORT => 0 + PBUF_LINK_HLEN + PBUF_IP_HLEN + PBUF_TRANSPORT_HLEN
  | PBUF_IP => 0 + PBUF_LINK_HLEN + PBUF_IP_HLEN
  | PBUF_LINK => 0 + PBUF_LINK_HLEN
  | PBUF_RAW_TX => 0
  | PBUF_RAW => 0
  end.

Definition PBUF_TYPE_FLAG_STRUCT_DATA_CONTIGUOUS : Z := 0x80.
Definition PBUF_TYPE_FLAG_DATA_VOLATILE : Z := 0x40.
Definition PBUF_TYPE_ALLOC_SRC_MASK : Z := 0x0f.
Definition PBUF_ALLOC_FLAG_RX : Z := 0x0100.
Definition PBUF_ALLOC_FLAG_DATA_CONTIGUOUS : Z := 0x0200.
Definition PBUF_TYPE_ALLOC_SRC_MASK_STD_HEAP : Z := 0x00.
Definition PBUF_TYPE_ALLOC_SRC_MASK_STD_MEMP_PBUF : Z := 0x01.
Definition PBUF_TYPE_ALLOC_SRC_MASK_STD_MEMP_PBUF_POOL : Z := 0x02.

Inductive pbuf_type := PBUF_RAM | PBUF_ROM | PBUF_REF | PBUF_POOL.
Definition type_bits (t : pbuf_type) : Z :=
  match t with
  | PBUF_RAM => Z.lor (Z.lor PBUF_ALLOC_FLAG_DATA_CONTIGUOUS PBUF_TYPE_FLAG_STRUCT_DATA_CONTIGUOUS)
      PBUF_TYPE_ALLOC_SRC_MASK_STD_HEAP
  | PBUF_ROM => PBUF_TYPE_ALLOC_SRC_MASK_STD_MEMP_PBUF
  | PBUF_REF => Z.lor PBUF_TYPE_FLAG_DATA_VOLATILE PBUF_TYPE_ALLOC_SRC_MASK_STD_MEMP_PBUF
  | PBUF_POOL => Z.lor (Z.lor PBUF_ALLOC_FLAG_RX PBUF_TYPE_FLAG_STRUCT_DATA_CONTIGUOUS)
      PBUF_TYPE_ALLOC_SRC_MASK_STD_MEMP_PBUF_POOL
  end.

Definition PBUF_FLAG_IS_CUSTOM : Z := 0x02.
Definition PBUF_FLAG_TCP_FIN : Z := 0x20.
Definition NETIF_NO_INDEX : Z := 0.

(** struct pbuf; addresses are numbers, NULL is 0. *)
Record struct_pbuf := StructPbuf {
  next : Z; payload : Z; tot_len : Z; len : Z; type_internal : Z; flags : Z; ref : Z; if_idx : Z;
}.
Definition set_next v b := StructPbuf v (payload b) (tot_len b) (len b) (type_internal b) (flags b) (ref b) (if_idx b).
Definition set_payload v b := StructPbuf (next b) v (tot_len b) (len b) (type_internal b) (flags b) (ref b) (if_idx b).
Definition set_tot_len v b := StructPbuf (next b) (payload b) v (len b) (type_internal b) (flags b) (ref b) (if_idx b).
Definition set_len v b := StructPbuf (next b) (payload b) (tot_len b) v (type_internal b) (flags b) (ref b) (if_idx b).
Definition set_flags v b := StructPbuf (next b) (payload b) (tot_len b) (len b) (type_internal b) v (ref b) (if_idx b).
Definition set_ref v b := StructPbuf (next b) (payload b) (tot_len b) (len b) (type_internal b) (flags b) v (if_idx b).

Definition pbuf_get_allocsrc (b : struct_pbuf) : Z := Z.land (type_internal b) PBUF_TYPE_ALLOC_SRC_MASK.
Definition pbuf_match_allocsrc (b : struct_pbuf) (type : Z) : bool :=
  pbuf_get_allocsrc b =? Z.land type PBUF_TYPE_ALLOC_SRC_MASK.

(** * The state *)

(** What is outside the stack: the C library's heap, and the queue of the stack's
    thread. *)
Class Outside (H : Type) := {
  clib_malloc : Z -> H -> Z * H;
  clib_free : Z -> H -> H;
  tcpip_try_callback : H -> Z * H;
}.

(** struct stats_mem, and the two pools of pbufs. *)
Record stats_mem := StatsMem { st_err : Z; st_used : Z; st_max : Z }.
Inductive memp_t := MEMP_PBUF | MEMP_PBUF_POOL.
Definition memp_size (t : memp_t) : Z :=
  match t with
  | MEMP_PBUF => LWIP_MEM_ALIGN_SIZE sizeof_pbuf + LWIP_MEM_ALIGN_SIZE 0
  | MEMP_PBUF_POOL => LWIP_MEM_ALIGN_SIZE sizeof_pbuf + LWIP_MEM_ALIGN_SIZE PBUF_POOL_BUFSIZE
  end.
Definition used_inc (y : Z) (st : stats_mem) : stats_mem :=
  let used := u64 (st_used st + y) in StatsMem (st_err st) used (if st_max st <? used then used else st_max st).
Definition used_dec (y : Z) (st : stats_mem) : stats_mem := StatsMem (st_err st) (u64 (st_used st - y)) (st_max st).
Definition err_inc (st : stats_mem) : stats_mem := StatsMem (u16 (st_err st + 1)) (st_used st) (st_max st).

(** The structures by address, the other memory, the statistics of the heap and of
    the two pools, and [pbuf_free_ooseq_pending]. *)
Record lwip (H : Type) := Lwip {
  heap : gmap Z struct_pbuf; data : mem; outside : H;
  mem_stats : stats_mem; pbuf_stats : stats_mem; pool_stats : stats_mem; ooseq_pending : Z;
}.
Global Arguments Lwip {H}.
Global Arguments heap {H}.
Global Arguments data {H}.
Global Arguments outside {H}.
Global Arguments mem_stats {H}.
Global Arguments pbuf_stats {H}.
Global Arguments pool_stats {H}.
Global Arguments ooseq_pending {H}.

Section Lwip.
Context {H : Type} {Out : Outside H}.
Abbreviation M := (prog (lwip H)).

Definition with_heap (f : gmap Z struct_pbuf -> gmap Z struct_pbuf) : M unit := modify (fun s =>
  Lwip (f (heap s)) (data s) (outside s) (mem_stats s) (pbuf_stats s) (pool_stats s) (ooseq_pending s)).
Definition with_data (f : mem -> mem) : M unit := modify (fun s =>
  Lwip (heap s) (f (data s)) (outside s) (mem_stats s) (pbuf_stats s) (pool_stats s) (ooseq_pending s)).
Definition with_mem_stats (f : stats_mem -> stats_mem) : M unit := modify (fun s =>
  Lwip (heap s) (data s) (outside s) (f (mem_stats s)) (pbuf_stats s) (pool_stats s) (ooseq_pending s)).
Definition with_memp_stats (t : memp_t) (f : stats_mem -> stats_mem) : M unit := modify (fun s =>
  match t with
  | MEMP_PBUF => Lwip (heap s) (data s) (outside s) (mem_stats s) (f (pbuf_stats s)) (pool_stats s) (ooseq_pending s)
  | MEMP_PBUF_POOL => Lwip (heap s) (data s) (outside s) (mem_stats s) (pbuf_stats s) (f (pool_stats s)) (ooseq_pending s)
  end).
Definition set_pending (v : Z) : M unit := modify (fun s =>
  Lwip (heap s) (data s) (outside s) (mem_stats s) (pbuf_stats s) (pool_stats s) v).
Definition call_outside {A} (f : H -> A * H) : M A := fun s =>
  let '(a, h) := f (outside s) in
  Some (a, Lwip (heap s) (data s) h (mem_stats s) (pbuf_stats s) (pool_stats s) (ooseq_pending s)).

(** A structure is read and written through a pointer to one that exists. *)
Definition deref (p : Z) : M struct_pbuf := fun s =>
  match heap s !! p with Some b => Some (b, s) | None => None end.
Definition update (p : Z) (f : struct_pbuf -> struct_pbuf) : M unit :=
  let* b := deref p in with_heap (insert p (f b)).

(** * Memory: mem.cpp and memp.cpp *)

Definition mem_malloc (size : Z) : M Z :=
  let* r := call_outside (clib_malloc (u64 (size + MEM_LIBC_STATSHELPER_SIZE))) in
  if r =? 0 then
    let* _ := with_mem_stats err_inc in ret r
  else
    let* _ := with_data (fun m => store_le m r 8 size) in
    let* _ := with_mem_stats (used_inc size) in
    ret (r + MEM_LIBC_STATSHELPER_SIZE).

(** A freed block holds no structure any more. *)
Definition mem_free (rmem : Z) : M unit :=
  let r := rmem - MEM_LIBC_STATSHELPER_SIZE in
  let* size := gets (fun s => load_le (data s) r 8) in
  let* _ := with_mem_stats (used_dec size) in
  let* _ := with_heap (delete rmem) in
  call_outside (fun h => (tt, clib_free r h)).

Definition mem_trim (p size : Z) : M Z := ret p.

Definition do_memp_malloc_pool (t : memp_t) : M Z :=
  let* memp := mem_malloc (0 + LWIP_MEM_ALIGN_SIZE (memp_size t)) in
  if memp =? 0 then
    let* _ := with_memp_stats t err_inc in ret 0
  else
    let* _ := with_memp_stats t (used_inc 1) in ret (memp + 0).
Definition memp_malloc (t : memp_t) : M Z := do_memp_malloc_pool t.

Definition do_memp_free_pool (t : memp_t) (p : Z) : M unit :=
  let* _ := with_memp_stats t (used_dec 1) in
  mem_free (p - 0).
Definition memp_free (t : memp_t) (p : Z) : M unit :=
  if p =? 0 then ret tt else do_memp_free_pool t p.

(** * Reference counts *)

(** The function that a custom pbuf brings along. *)
Context (custom_free_function : Z -> M unit).

(** The loop of [pbuf_free]; [fuel] bounds the pbufs of the chain. *)
Fixpoint pbuf_free_loop (fuel : nat) (p count : Z) : M Z :=
  if p =? 0 then ret count else
  match fuel with
  | O => stuck
  | S fuel =>
      let* b := deref p in
      let r := u8 (ref b - 1) in
      let* _ := update p (set_ref r) in
      if r =? 0 then
        let q := next b in
        let alloc_src := pbuf_get_allocsrc b in
        let* _ :=
          if negb (Z.land (flags b) PBUF_FLAG_IS_CUSTOM =? 0) then custom_free_function p
          else if alloc_src =? PBUF_TYPE_ALLOC_SRC_MASK_STD_MEMP_PBUF_POOL then memp_free MEMP_PBUF_POOL p
          else if alloc_src =? PBUF_TYPE_ALLOC_SRC_MASK_STD_MEMP_PBUF then memp_free MEMP_PBUF p
          else if alloc_src =? PBUF_TYPE_ALLOC_SRC_MASK_STD_HEAP then mem_free p
          else ret tt in
        pbuf_free_loop fuel q (u8 (count + 1))
      else ret count
  end.
(** Enough fuel for every walk along a chain. *)
Definition walk_fuel : M nat := gets (fun s => S (size (heap s))).
Definition pbuf_free (p : Z) : M Z :=
  if p =? 0 then ret 0 else
  let* fuel := walk_fuel in pbuf_free_loop fuel p 0.

Definition pbuf_ref (p : Z) : M unit :=
  when (negb (p =? 0)) (update p (fun b => set_ref (u8 (ref b + 1)) b)).

Fixpoint clen_loop (fuel : nat) (p n : Z) : M Z :=
  if p =? 0 then ret n else
  match fuel with
  | O => stuck
  | S fuel => let* b := deref p in clen_loop fuel (next b) (u16 (n + 1))
  end.
Definition pbuf_clen (p : Z) : M Z := let* fuel := walk_fuel in clen_loop fuel p 0.

(** * Allocation *)

Definition pbuf_init_alloced_pbuf (p payload tot_len len type flags : Z) : M unit :=
  with_heap (insert p (StructPbuf 0 payload tot_len len (u8 type) flags 1 NETIF_NO_INDEX)).

Definition pbuf_alloc_reference (payload length : Z) (type : pbuf_type) : M Z :=
  let* p := memp_malloc MEMP_PBUF in
  if p =? 0 then ret 0 else
  let* _ := pbuf_init_alloced_pbuf p payload length length (type_bits type) 0 in
  ret p.

Definition pbuf_pool_is_empty : M unit :=
  let* queued := gets ooseq_pending in
  let* _ := set_pending 1 in
  when (queued =? 0)
    (let* err := call_outside tcpip_try_callback in
     when (negb (err =? 0)) (set_pending 0)).

(** The loop for PBUF_POOL: the chain so far starts at [p] and ends with [last]. *)
Fixpoint alloc_pool_loop (fuel : nat) (p last rem_len offset : Z) : M Z :=
  match fuel with
  | O => stuck
  | S fuel =>
      let* q := memp_malloc MEMP_PBUF_POOL in
      if q =? 0 then
        let* _ := pbuf_pool_is_empty in
        let* _ := when (negb (p =? 0)) (let* _ := pbuf_free p in ret tt) in
        ret 0
      else
        let qlen := Z.min rem_len (u16 (PBUF_POOL_BUFSIZE_ALIGNED - LWIP_MEM_ALIGN_SIZE offset)) in
        let* _ := pbuf_init_alloced_pbuf q (LWIP_MEM_ALIGN (q + SIZEOF_STRUCT_PBUF + offset)) rem_len qlen
          (type_bits PBUF_POOL) 0 in
        let* _ := when (negb (p =? 0)) (update last (set_next q)) in
        let p := if p =? 0 then q else p in
        let rem_len := u16 (rem_len - qlen) in
        if 0 <? rem_len then alloc_pool_loop fuel p q rem_len 0 else ret p
  end.

(** 65535 bytes are at most 123 buffers, and the loop runs at least once. *)
Definition pbuf_alloc (layer : pbuf_layer) (length : Z) (type : pbuf_type) : M Z :=
  let offset := layer_offset layer in
  match type with
  | PBUF_REF | PBUF_ROM => pbuf_alloc_reference 0 length type
  | PBUF_POOL => alloc_pool_loop 124 0 0 length offset
  | PBUF_RAM =>
      let payload_len := u16 (LWIP_MEM_ALIGN_SIZE offset + LWIP_MEM_ALIGN_SIZE length) in
      let alloc_len := LWIP_MEM_ALIGN_SIZE SIZEOF_STRUCT_PBUF + payload_len in
      if (payload_len <? LWIP_MEM_ALIGN_SIZE length) || (alloc_len <? LWIP_MEM_ALIGN_SIZE length) then ret 0 else
      let* p := mem_malloc alloc_len in
      if p =? 0 then ret 0 else
      let* _ := pbuf_init_alloced_pbuf p (LWIP_MEM_ALIGN (p + SIZEOF_STRUCT_PBUF + offset)) length length
        (type_bits PBUF_RAM) 0 in
      ret p
  end.

(** A structure that the caller has provided at [p]. *)
Definition pbuf_alloced_custom (layer : pbuf_layer) (length : Z) (type : pbuf_type) (p payload_mem payload_mem_len : Z) : M Z :=
  let offset := layer_offset layer in
  if payload_mem_len <? LWIP_MEM_ALIGN_SIZE offset + length then ret 0 else
  let payload := if payload_mem =? 0 then 0 else payload_mem + LWIP_MEM_ALIGN_SIZE offset in
  let* _ := pbuf_init_alloced_pbuf p payload length length (type_bits type) PBUF_FLAG_IS_CUSTOM in
  ret p.

(** * Shrinking, headers *)

(** Steps over the pbufs that stay, to the new last one and its new length. *)
Fixpoint realloc_loop (fuel : nat) (q rem_len shrink : Z) : M (Z * Z) :=
  match fuel with
  | O => stuck
  | S fuel =>
      let* b := deref q in
      if len b <? rem_len then
        let* _ := update q (set_tot_len (u16 (tot_len b - shrink))) in
        realloc_loop fuel (next b) (u16 (rem_len - len b)) shrink
      else ret (q, rem_len)
  end.
Definition pbuf_realloc (p new_len : Z) : M unit :=
  let* b := deref p in
  if tot_len b <=? new_len then ret tt else
  let shrink := u16 (tot_len b - new_len) in
  let* fuel := walk_fuel in
  let* r := realloc_loop fuel p new_len shrink in
  let '(q, rem_len) := r in
  let* b := deref q in
  let* q :=
    if pbuf_match_allocsrc b PBUF_TYPE_ALLOC_SRC_MASK_STD_HEAP && negb (rem_len =? len b)
      && (Z.land (flags b) PBUF_FLAG_IS_CUSTOM =? 0)
    then mem_trim q (payload b - q + rem_len) else ret q in
  let* _ := update q (set_len rem_len) in
  let* _ := update q (fun b => set_tot_len (len b) b) in
  let* b := deref q in
  let* _ := when (negb (next b =? 0)) (let* _ := pbuf_free (next b) in ret tt) in
  update q (set_next 0).

Definition pbuf_add_header_impl (p header_size_increment force : Z) : M Z :=
  if (header_size_increment =? 0) || (p =? 0) || (0xffff <? header_size_increment) then ret 0 else
  let increment_magnitude := u16 header_size_increment in
  let* b := deref p in
  if u16 (increment_magnitude + tot_len b) <? increment_magnitude then ret 1 else
  let payload := payload b - header_size_increment in
  if (if negb (Z.land (type_internal b) PBUF_TYPE_FLAG_STRUCT_DATA_CONTIGUOUS =? 0)
      then payload <? p + SIZEOF_STRUCT_PBUF else force =? 0)
  then ret 1
  else
    let* _ := update p (set_payload payload) in
    let* _ := update p (fun b => set_len (u16 (len b + increment_magnitude)) b) in
    let* _ := update p (fun b => set_tot_len (u16 (tot_len b + increment_magnitude)) b) in
    ret 0.
Definition pbuf_add_header (p header_size_increment : Z) : M Z := pbuf_add_header_impl p header_size_increment 0.
Definition pbuf_add_header_force (p header_size_increment : Z) : M Z := pbuf_add_header_impl p header_size_increment 1.

Definition pbuf_remove_header (p header_size_decrement : Z) : M Z :=
  if (header_size_decrement =? 0) || (p =? 0) || (0xffff <? header_size_decrement) then ret 0 else
  let increment_magnitude := u16 header_size_decrement in
  let* b := deref p in
  if negb (increment_magnitude <=? len b) then ret 1 else
  let* _ := update p (fun b => set_payload (payload b + header_size_decrement) b) in
  let* _ := update p (fun b => set_len (u16 (len b - increment_magnitude)) b) in
  let* _ := update p (fun b => set_tot_len (u16 (tot_len b - increment_magnitude)) b) in
  ret 0.

Definition pbuf_header_impl (p header_size_increment force : Z) : M Z :=
  if header_size_increment <? 0 then pbuf_remove_header p (- header_size_increment)
  else pbuf_add_header_impl p header_size_increment force.
Definition pbuf_header (p header_size_increment : Z) : M Z := pbuf_header_impl p header_size_increment 0.
Definition pbuf_header_force (p header_size_increment : Z) : M Z := pbuf_header_impl p header_size_increment 1.

Fixpoint free_header_loop (fuel : nat) (p free_left : Z) : M Z :=
  if (free_left =? 0) || (p =? 0) then ret p else
  match fuel with
  | O => stuck
  | S fuel =>
      let* b := deref p in
      if len b <=? free_left then
        let* _ := update p (set_next 0) in
        let* _ := pbuf_free p in
        free_header_loop fuel (next b) (u16 (free_left - len b))
      else
        let* _ := pbuf_remove_header p free_left in
        free_header_loop fuel p 0
  end.
Definition pbuf_free_header (q size : Z) : M Z := let* fuel := walk_fuel in free_header_loop fuel q size.

(** * Chains *)

(** To the last pbuf, adding the length of the tail to all totals on the way. *)
Fixpoint cat_loop (fuel : nat) (p t : Z) : M Z :=
  match fuel with
  | O => stuck
  | S fuel =>
      let* b := deref p in
      if next b =? 0 then ret p else
      let* c := deref t in
      let* _ := update p (set_tot_len (u16 (tot_len b + tot_len c))) in
      cat_loop fuel (next b) t
  end.
Definition pbuf_cat (h t : Z) : M unit :=
  if (h =? 0) || (t =? 0) then ret tt else
  let* fuel := walk_fuel in
  let* p := cat_loop fuel h t in
  let* c := deref t in
  let* _ := update p (fun b => set_tot_len (u16 (tot_len b + tot_len c)) b) in
  update p (set_next t).

Definition pbuf_chain (h t : Z) : M unit :=
  let* _ := pbuf_cat h t in
  pbuf_ref t.

Definition pbuf_dechain (p : Z) : M Z :=
  let* b := deref p in
  let q := next b in
  let* tail_gone :=
    if negb (q =? 0) then
      let* _ := update q (set_tot_len (u16 (tot_len b - len b))) in
      let* _ := update p (set_next 0) in
      let* _ := update p (fun b => set_tot_len (len b) b) in
      pbuf_free q
    else ret 1 in
  ret (if 0 <? tail_gone then 0 else q).
End Lwip.

(** * The packet buffers in a larger state *)

(** The modules above have state of their own besides. *)
Class HasLwip (T H : Type) := {
  lwip_of : T -> lwip H;
  set_lwip : lwip H -> T -> T;
  lwip_set l s : lwip_of (set_lwip l s) = l;
  set_set l l' s : set_lwip l (set_lwip l' s) = set_lwip l s;
  set_same s : set_lwip (lwip_of s) s = s;
}.

Section OnLwip.
Context {T H : Type} {HL : HasLwip T H}.

Definition on_lwip {X} (f : prog (lwip H) X) : prog T X := fun s =>
  match f (lwip_of s) with Some (x, l) => Some (x, set_lwip l s) | None => None end.

Lemma on_lwip_bind {X Y} (f : prog (lwip H) X) (k : X -> prog T Y) s x l :
  f (lwip_of s) = Some (x, l) -> bind (on_lwip f) k s = k x (set_lwip l s).
Proof. intros E. apply bind_some. unfold on_lwip. by rewrite E. Qed.
End OnLwip.

#[export] Instance lwip_itself {H} : HasLwip (lwip H) H.
Proof. by refine {| lwip_of s := s; set_lwip l _ := l |}. Defined.
