(* ===== verification/PbufRef.v ===== *)
(** The reference counts of the packet buffers: an invariant of the heap, the
    operations that keep it, and what follows from it: nothing that is in use is
    freed, nothing that is freed is used, and nothing is left behind. *)

From Stdlib Require Import ZArith Lia Bool.
From stdpp Require Import base list gmap.
From S2P Require Import Prelude Hw Pbuf.

(** * The graph of pointers *)

(** For each pbuf its successor and its reference count. *)
Abbreviation graph := (gmap Z (Z * Z)).

(** The pbufs from [p] to the end of the chain. *)
Fixpoint chain (g : graph) (p : Z) (l : list Z) : Prop :=
  match l with
  | [] => p = 0
  | a :: l => p = a /\ a <> 0 /\ exists q r, g !! a = Some (q, r) /\ chain g q l
  end.

(** Some pbuf has [a] as its successor. *)
Definition linked (g : graph) (a : Z) : Prop := exists c r, g !! c = Some (a, r).

(** References held from outside the heap, by address. *)
Abbreviation owners := (Z -> Z).
Definition own_add (a k : Z) (own : owners) : owners := fun x => if decide (x = a) then own x + k else own x.

(** The reference count of a pbuf is the number of references to it: those held
    outside, and one if it has a predecessor. Chains end, and do not join. *)
Record links (g : graph) (own : owners) : Prop := {
  lk_null : g !! 0 = None;
  lk_own a : 0 <= own a;
  lk_owned a : 0 < own a -> is_Some (g !! a);
  lk_chain a q r : g !! a = Some (q, r) -> exists l, chain g q l /\ a ∉ l;
  lk_inj a a' q r r' : g !! a = Some (q, r) -> g !! a' = Some (q, r') -> q <> 0 -> a = a';
  lk_ref a q r : g !! a = Some (q, r) -> 1 <= r < 256 /\ (linked g a /\ r = own a + 1 \/ ~ linked g a /\ r = own a);
}.

Lemma own_add_eq a k own : own_add a k own a = own a + k.
Proof. unfold own_add. by rewrite decide_True. Qed.

Lemma own_add_ne a k own x : x <> a -> own_add a k own x = own x.
Proof. intros Hx. unfold own_add. by rewrite decide_False. Qed.

Lemma links_ext g own own' : (forall x, own x = own' x) -> links g own -> links g own'.
Proof.
  intros E [H1 H2 H3 H4 H5 H6]. split; try done; intros a; [rewrite <- E; apply H2|rewrite <- E; apply H3|].
  intros q r Ha. rewrite <- E. by apply (H6 a q r).
Qed.

(** ** Chains *)

Lemma chain_det g p l l' : chain g p l -> chain g p l' -> l = l'.
Proof.
  revert p l'. induction l as [|a l IH]; intros p [|a' l'] H H'; cbn [chain] in *; [done| | |].
  - destruct H' as (-> & Hne & _). done.
  - destruct H as (-> & Hne & _). done.
  - destruct H as (-> & _ & q & r & Ha & Hc), H' as (<- & _ & q' & r' & Ha' & Hc'). simplify_eq.
    f_equal. by eapply IH.
Qed.

Lemma chain_insert g p l a v : a ∉ l -> chain g p l -> chain (<[a := v]> g) p l.
Proof.
  revert p. induction l as [|x l IH]; intros p Ha; cbn [chain]; [done|]. apply not_elem_of_cons in Ha as [Hx Ha].
  intros (-> & Hne & q & r & Hg & Hc). split; [done|]. split; [done|]. exists q, r.
  rewrite lookup_insert_ne by done. auto.
Qed.

Lemma chain_delete g p l a : a ∉ l -> chain g p l -> chain (delete a g) p l.
Proof.
  revert p. induction l as [|x l IH]; intros p Ha; cbn [chain]; [done|]. apply not_elem_of_cons in Ha as [Hx Ha].
  intros (-> & Hne & q & r & Hg & Hc). split; [done|]. split; [done|]. exists q, r.
  rewrite lookup_delete_ne by done. auto.
Qed.

(** The count of an element is of no concern. *)
Lemma chain_recount g p l a q r r' : g !! a = Some (q, r) -> chain g p l -> chain (<[a := (q, r')]> g) p l.
Proof.
  intros Ha. revert p. induction l as [|x l IH]; intros p; cbn [chain]; [done|].
  intros (-> & Hne & q' & r1 & Hg & Hc). split; [done|]. split; [done|].
  destruct (decide (x = a)) as [->|Hx].
  - rewrite Ha in Hg. injection Hg as <- <-. exists q, r'. rewrite lookup_insert_eq. auto.
  - exists q', r1. rewrite lookup_insert_ne by done. auto.
Qed.

Lemma chain_app g p l l' : chain g p (l ++ l') -> exists q, chain g q l' /\
  (l = [] /\ p = q \/ exists x r, last l = Some x /\ g !! x = Some (q, r)).
Proof.
  revert p. induction l as [|x l IH]; intros p; cbn [app chain]; [eauto|].
  intros (-> & Hne & q & r & Hg & Hc). destruct (IH _ Hc) as (q' & Hc' & [[-> ->]|(y & r' & Hy & Hgy)]).
  - exists q'. split; [done|]. right. by exists x, r.
  - exists q'. split; [done|]. right. exists y, r'. split; [|done]. by rewrite last_cons, Hy.
Qed.

Lemma chain_elem g p l a : chain g p l -> a ∈ l -> a <> 0 /\ is_Some (g !! a).
Proof.
  revert p. induction l as [|x l IH]; intros p; cbn [chain]; [by intros _ ?%elem_of_nil|].
  intros (-> & Hne & q & r & Hg & Hc) [->|Ha]%elem_of_cons; [by rewrite Hg|]. by eapply IH.
Qed.

(** Every element but the first has a predecessor. *)
Lemma chain_linked g p l a : chain g p l -> a ∈ l -> a = p \/ linked g a.
Proof.
  revert p. induction l as [|x l IH]; intros p; cbn [chain]; [by intros _ ?%elem_of_nil|].
  intros (-> & Hne & q & r & Hg & Hc) [->|Ha]%elem_of_cons; [by left|]. right.
  destruct (IH _ Hc Ha) as [->|Hl]; [by exists x, r|done].
Qed.

Lemma nodup_before {X} (l1 l2 : list X) x : NoDup (l1 ++ x :: l2) -> x ∉ l1.
Proof. intros (_ & H & _)%NoDup_app Hin. by apply (H x Hin); left. Qed.

(** The rest of a chain. *)
Lemma chain_rest g p l a q r lq : chain g p l -> a ∈ l -> g !! a = Some (q, r) -> chain g q lq -> forall x, x ∈ lq -> x ∈ l.
Proof.
  intros Hc (l1 & l2 & ->)%list_elem_of_split Ha Hq x Hx.
  destruct (chain_app g p l1 (a :: l2) Hc) as (q1 & (-> & _ & q2 & r2 & Ha2 & Hc2) & _). rewrite Ha in Ha2.
  injection Ha2 as <- <-. rewrite (chain_det _ _ _ _ Hq Hc2) in Hx. apply elem_of_app. right. by right.
Qed.

(** An element gets another successor. *)
Lemma chain_relink g q l1 p l2 t r lt :
  chain g q (l1 ++ p :: l2) -> p ∉ l1 -> chain (<[p := (t, r)]> g) t lt -> chain (<[p := (t, r)]> g) q (l1 ++ p :: lt).
Proof.
  intros Hc Hp Ht. revert q Hc. induction l1 as [|x l1 IH]; intros q; cbn [app chain].
  - intros (-> & ? & _). split; [done|]. split; [done|]. exists t, r. by rewrite lookup_insert_eq.
  - intros (-> & ? & q1 & r1 & Hx & Hc). apply not_elem_of_cons in Hp as [Hxp Hp]. split; [done|]. split; [done|].
    exists q1, r1. rewrite lookup_insert_ne by done. auto.
Qed.

Section Links.
Context (g : graph) (own : owners) (Hlk : links g own).

Lemma chain_from p : is_Some (g !! p) -> exists l, chain g p (p :: l) /\ p ∉ l.
Proof.
  intros [[q r] Hp]. destruct (lk_chain _ _ Hlk p q r Hp) as (l & Hc & Hl). exists l. split; [|done].
  split; [done|]. split; [|by exists q, r]. intros ->. by rewrite (lk_null _ _ Hlk) in Hp.
Qed.

Lemma chain_nodup p l : chain g p l -> NoDup l.
Proof.
  revert p. induction l as [|a l IH]; intros p Hc; [constructor|]. destruct Hc as (_ & Hne & q & r & Ha & Hc).
  constructor; [|by eapply IH]. destruct (lk_chain _ _ Hlk a q r Ha) as (l' & Hc' & Hl').
  by rewrite (chain_det _ _ _ _ Hc Hc').
Qed.

(** A chain has no more elements than the heap. *)
Lemma chain_size p l : chain g p l -> (length l <= size g)%nat.
Proof.
  intros Hc. rewrite <- (size_dom (D := gset Z)), <- (size_list_to_set (C := gset Z) l) by (by eapply chain_nodup).
  apply subseteq_size. intros a Ha%elem_of_list_to_set. apply elem_of_dom. by eapply chain_elem.
Qed.

(** What is owned and counted once has no predecessor. *)
Lemma last_reference p q : g !! p = Some (q, 1) -> 0 < own p -> own p = 1 /\ ~ linked g p.
Proof. intros Hp Ho. destruct (lk_ref _ _ Hlk p q 1 Hp) as [_ [[_ E]|[Hn E]]]; [lia|]. split; [lia|done]. Qed.

Lemma next_ok p q r : g !! p = Some (q, r) -> q = 0 \/ is_Some (g !! q).
Proof.
  intros Hp. destruct (lk_chain _ _ Hlk p q r Hp) as ([|x l] & Hc & _); [by left|]. right.
  destruct Hc as (-> & _ & q' & r' & Hx & _). by rewrite Hx.
Qed.

End Links.

(** * Elementary changes *)

Section Steps.
Context (g : graph) (own : owners) (Hlk : links g own).

Lemma linked_recount a p q r r' : g !! p = Some (q, r) -> linked (<[p := (q, r')]> g) a <-> linked g a.
Proof.
  intros Hp. split; intros (c & r1 & Hc).
  - destruct (decide (c = p)) as [->|Hne].
    + rewrite lookup_insert_eq in Hc. injection Hc as <- <-. by exists p, r.
    + rewrite lookup_insert_ne in Hc by done. by exists c, r1.
  - destruct (decide (c = p)) as [->|Hne].
    + rewrite Hp in Hc. injection Hc as <- <-. exists p, r'. by rewrite lookup_insert_eq.
    + exists c, r1. by rewrite lookup_insert_ne.
Qed.

(** A reference more or less. *)
Lemma links_recount p q r k :
  g !! p = Some (q, r) -> 1 <= r + k < 256 -> 0 <= own p + k -> links (<[p := (q, r + k)]> g) (own_add p k own).
Proof.
  intros Hp Hr Hk. destruct Hlk as [H1 H2 H3 H4 H5 H6].
  assert (forall a q' r', <[p := (q, r + k)]> g !! a = Some (q', r') -> exists r1, g !! a = Some (q', r1)) as Hold.
  { intros a q' r' Ha. destruct (decide (a = p)) as [->|Hne].
    - rewrite lookup_insert_eq in Ha. injection Ha as <- <-. by exists r.
    - rewrite lookup_insert_ne in Ha by done. by exists r'. }
  split.
  - rewrite lookup_insert_ne; [done|]. intros ->. congruence.
  - intros a. unfold own_add. case_decide; [subst; lia|apply H2].
  - intros a Ha. apply lookup_insert_is_Some'. unfold own_add in Ha. case_decide; [subst; by left|right; by apply H3].
  - intros a q' r' Ha. destruct (Hold _ _ _ Ha) as (r1 & Ha'). destruct (H4 _ _ _ Ha') as (l & Hc & Hl).
    exists l. split; [|done]. by eapply chain_recount.
  - intros a a' q' r1 r2 Ha Ha'. destruct (Hold _ _ _ Ha) as (? & ?), (Hold _ _ _ Ha') as (? & ?). by eapply H5.
  - intros a q' r' Ha. rewrite (linked_recount a p q r (r + k) Hp). destruct (decide (a = p)) as [->|Hne].
    + rewrite lookup_insert_eq in Ha. injection Ha as <- <-. rewrite own_add_eq. destruct (H6 p q r Hp) as [_ [[Hl E]|[Hl E]]];
        (split; [lia|]); [left|right]; (split; [done|lia]).
    + rewrite lookup_insert_ne in Ha by done. rewrite own_add_ne by done. by apply (H6 a q' r').
Qed.

(** A pbuf whose last reference goes: its link becomes a reference held outside. *)
Definition handed (q : Z) (own : owners) : owners := if decide (q = 0) then own else own_add q 1 own.

Lemma links_delete p q :
  g !! p = Some (q, 1) -> 0 < own p -> links (delete p g) (handed q (own_add p (-1) own)).
Proof.
  intros Hp Ho. destruct (last_reference g own Hlk p q Hp Ho) as [Ho1 Hnl]. pose proof (next_ok g own Hlk p q 1 Hp) as Hq.
  destruct (lk_chain _ _ Hlk p q 1 Hp) as (lq & Hcq & Hpq).
  assert (q <> p) as Hqp by (intros ->; apply Hnl; by exists p, 1).
  destruct Hlk as [H1 H2 H3 H4 H5 H6].
  assert (forall a v, delete p g !! a = Some v -> a <> p /\ g !! a = Some v) as Hold
    by (intros a v Ha; by apply lookup_delete_Some in Ha as [? ?]).
  assert (forall x, x <> p -> own_add p (-1) own x = own x) as Ho' by (intros x; apply own_add_ne).
  assert (own_add p (-1) own p = 0) as Hop by (rewrite own_add_eq; lia).
  assert (forall x, x <> p -> handed q (own_add p (-1) own) x = own x + (if decide (x = q) then if decide (q = 0) then 0 else 1 else 0)) as Hown.
  { intros x Hx. unfold handed. destruct (decide (q = 0)) as [->|Hq0].
    - rewrite Ho' by done. case_decide; lia.
    - unfold own_add at 1. case_decide; rewrite Ho' by done; lia. }
  assert (handed q (own_add p (-1) own) p = 0) as Hownp.
  { unfold handed. case_decide; [done|]. rewrite own_add_ne by done. done. }
  split.
  - apply lookup_delete_None. by right.
  - intros a. destruct (decide (a = p)) as [->|Hne]; [lia|]. rewrite Hown by done. pose proof (H2 a). repeat case_decide; lia.
  - intros a Ha. destruct (decide (a = p)) as [->|Hne]; [lia|]. rewrite lookup_delete_ne by done. rewrite Hown in Ha by done.
    destruct (decide (a = q)) as [->|]; [|apply H3; lia]. destruct Hq as [->|Hq]; [|done]. apply H3. rewrite decide_True in Ha by done. lia.
  - intros a q' r' [Hne Ha]%Hold. destruct (H4 _ _ _ Ha) as (l & Hc & Hl). exists l. split; [|done].
    apply chain_delete; [|done]. intros Hin. destruct (chain_linked _ _ _ _ Hc Hin) as [->|Hl']; [|done]. apply Hnl. by exists a, r'.
  - intros a a' q' r1 r2 [_ Ha]%Hold [_ Ha']%Hold. by eapply H5.
  - intros a q' r' [Hne Ha]%Hold. destruct (H6 a q' r' Ha) as [Hr Hcase]. split; [done|]. rewrite Hown by done.
    destruct (decide (a = q)) as [->|Haq].
    + assert (q <> 0) as Hq0 by (intros ->; congruence). rewrite decide_False by done. right. split.
      * intros (c & r1 & [Hcp Hc]%Hold). apply Hcp. by eapply H5.
      * destruct Hcase as [[_ ->]|[Hno _]]; [lia|]. destruct Hno. by exists p, 1.
    + destruct Hcase as [[(c & r1 & Hc) E]|[Hno E]]; [left|right]; (split; [|lia]).
      * exists c, r1. apply lookup_delete_Some. split; [|done]. intros <-. rewrite Hp in Hc. injection Hc as -> _. done.
      * intros (c & r1 & [_ Hc]%Hold). apply Hno. by exists c, r1.
Qed.

(** A new pbuf. *)
Lemma links_new p : g !! p = None -> p <> 0 -> links (<[p := (0, 1)]> g) (own_add p 1 own).
Proof.
  intros Hp Hp0. pose proof (next_ok g own Hlk) as Hnext. destruct Hlk as [H1 H2 H3 H4 H5 H6].
  assert (own p = 0) as Ho. { pose proof (H2 p). destruct (decide (own p = 0)); [done|]. destruct (H3 p) as [v Hv]; [lia|congruence]. }
  assert (forall a, linked (<[p := (0, 1)]> g) a -> a = 0 \/ linked g a) as Hl.
  { intros a (c & r & Hc). destruct (decide (c = p)) as [->|]; [rewrite lookup_insert_eq in Hc; injection Hc as <- _; by left|].
    rewrite lookup_insert_ne in Hc by done. right. by exists c, r. }
  assert (~ linked g p) as Hnl. { intros (c & r & Hc). destruct (Hnext _ _ _ Hc) as [->|[v Hv]]; congruence. }
  split.
  - by rewrite lookup_insert_ne.
  - intros a. unfold own_add. case_decide; [subst; lia|apply H2].
  - intros a Ha. apply lookup_insert_is_Some'. unfold own_add in Ha. case_decide; [subst; by left|right; by apply H3].
  - intros a q r Ha. destruct (decide (a = p)) as [->|Hne].
    + rewrite lookup_insert_eq in Ha. injection Ha as <- <-. exists []. split; [done|]. apply not_elem_of_nil.
    + rewrite lookup_insert_ne in Ha by done. destruct (H4 _ _ _ Ha) as (l & Hc & Hl'). exists l. split; [|done].
      apply chain_insert; [|done]. intros Hin. destruct (chain_elem _ _ _ _ Hc Hin) as [_ [v Hv]]. congruence.
  - intros a a' q r r' Ha Ha' Hq.
    assert (forall c r1, <[p := (0, 1)]> g !! c = Some (q, r1) -> g !! c = Some (q, r1)) as Hold.
    { intros c r1 Hc. destruct (decide (c = p)) as [->|]; [|by rewrite lookup_insert_ne in Hc].
      rewrite lookup_insert_eq in Hc. by injection Hc as <- _. }
    by eapply H5; [apply Hold|apply Hold|].
  - intros a q r Ha. destruct (decide (a = p)) as [->|Hne].
    + rewrite lookup_insert_eq in Ha. injection Ha as <- <-. rewrite own_add_eq. split; [lia|]. right. split; [|lia].
      intros [?|?]%Hl; [lia|done].
    + rewrite lookup_insert_ne in Ha by done. rewrite own_add_ne by done. destruct (H6 a q r Ha) as [Hr [[(c & r1 & Hc) E]|[Hno E]]];
        (split; [done|]); [left|right]; (split; [|done]).
      * exists c, r1. rewrite lookup_insert_ne; [done|congruence].
      * intros [->|?]%Hl; [congruence|done].
Qed.

(** The last pbuf of a chain gets a successor: a reference held outside becomes a link. *)
Lemma links_link p r t lt :
  g !! p = Some (0, r) -> chain g t lt -> t <> 0 -> p ∉ lt -> ~ linked g t -> 0 < own t ->
  links (<[p := (t, r)]> g) (own_add t (-1) own).
Proof.
  intros Hp Hct Ht0 Hpt Hnl Ho. destruct Hlk as [H1 H2 H3 H4 H5 H6].
  assert (p <> 0) as Hp0 by congruence.
  assert (t ∈ lt) as Htl by (destruct lt; [done|destruct Hct as (-> & _); by left]).
  assert (t <> p) as Htp by congruence.
  assert (forall c a r1, <[p := (t, r)]> g !! c = Some (a, r1) -> c = p /\ a = t \/ c <> p /\ g !! c = Some (a, r1)) as Hold.
  { intros c a r1 Hc. destruct (decide (c = p)) as [->|]; [rewrite lookup_insert_eq in Hc; left; by simplify_eq|].
    rewrite lookup_insert_ne in Hc by done. by right. }
  assert (chain (<[p := (t, r)]> g) t lt) as Hct' by (by apply chain_insert).
  split.
  - by rewrite lookup_insert_ne.
  - intros a. unfold own_add. case_decide; [subst; lia|apply H2].
  - intros a Ha. apply lookup_insert_is_Some'. right. apply H3. unfold own_add in Ha. case_decide; [subst; lia|done].
  - intros a q r1 Ha. destruct (Hold _ _ _ Ha) as [[-> ->]|[Hne Ha']]; [by exists lt|].
    destruct (H4 _ _ _ Ha') as (l & Hc & Hal). destruct (decide (p ∈ l)) as [Hin|Hnin].
    + assert (a ∉ lt) as Halt.
      { intros Halt. by apply Hpt, (chain_rest _ _ _ _ _ _ _ Hct Halt Ha' Hc). }
      apply list_elem_of_split in Hin as (l1 & l2 & ->). exists (l1 ++ p :: lt).
      assert (p ∉ l1) as Hpl by (eapply nodup_before, chain_nodup; [|exact Hc]; by split).
      split; [by eapply chain_relink|]. rewrite not_elem_of_app, not_elem_of_cons in Hal |- *. tauto.
    + exists l. split; [by apply chain_insert|done].
  - intros a a' q r1 r2 Ha Ha' Hq. destruct (Hold _ _ _ Ha) as [[-> ->]|[Hne Ha1]], (Hold _ _ _ Ha') as [[-> E]|[Hne' Ha1']]; try done.
    + destruct Hnl. by exists a', r2.
    + subst q. destruct Hnl. by exists a, r1.
    + by eapply H5.
  - intros a q r1 Ha. assert (exists q0, g !! a = Some (q0, r1)) as [q0 Ha0].
    { destruct (decide (a = p)) as [->|Hne]; [rewrite lookup_insert_eq in Ha; injection Ha as _ <-; by exists 0|].
      rewrite lookup_insert_ne in Ha by done. by exists q. }
    destruct (H6 a q0 r1 Ha0) as [Hr Hcase]. split; [done|]. destruct (decide (a = t)) as [->|Hat].
    + left. rewrite own_add_eq. split; [exists p, r; by rewrite lookup_insert_eq|].
      destruct Hcase as [[? _]|[_ ?]]; [done|lia].
    + rewrite own_add_ne by done. destruct Hcase as [[(c & r2 & Hc) E]|[Hno E]]; [left|right]; (split; [|done]).
      * exists c, r2. rewrite lookup_insert_ne; [done|]. intros <-. rewrite Hp in Hc. injection Hc as <- _. congruence.
      * intros (c & r2 & Hc). destruct (Hold _ _ _ Hc) as [[_ ->]|[_ Hc']]; [done|]. apply Hno. by exists c, r2.
Qed.

(** A pbuf loses its successor: the link becomes a reference held outside. *)
Lemma links_unlink p q r : g !! p = Some (q, r) -> q <> 0 -> links (<[p := (0, r)]> g) (own_add q 1 own).
Proof.
  intros Hp Hq0. destruct (lk_chain _ _ Hlk p q r Hp) as (lq & Hcq & Hpq).
  destruct (next_ok g own Hlk p q r Hp) as [?|Hq]; [done|]. destruct Hlk as [H1 H2 H3 H4 H5 H6].
  assert (p <> 0) as Hp0 by congruence.
  assert (forall c a r1, <[p := (0, r)]> g !! c = Some (a, r1) -> c = p /\ a = 0 \/ c <> p /\ g !! c = Some (a, r1)) as Hold.
  { intros c a r1 Hc. destruct (decide (c = p)) as [->|]; [rewrite lookup_insert_eq in Hc; left; by simplify_eq|].
    rewrite lookup_insert_ne in Hc by done. by right. }
  split.
  - by rewrite lookup_insert_ne.
  - intros a. unfold own_add. pose proof (H2 a). case_decide; lia.
  - intros a Ha. apply lookup_insert_is_Some'. right. unfold own_add in Ha. case_decide; [by subst|by apply H3].
  - intros a q' r1 Ha. destruct (Hold _ _ _ Ha) as [[-> ->]|[Hne Ha']]; [exists []; split; [done|apply not_elem_of_nil]|].
    destruct (H4 _ _ _ Ha') as (l & Hc & Hal). destruct (decide (p ∈ l)) as [Hin|Hnin].
    + apply list_elem_of_split in Hin as (l1 & l2 & ->). exists (l1 ++ [p]).
      assert (p ∉ l1) as Hpl by (eapply nodup_before, chain_nodup; [|exact Hc]; by split).
      split; [by eapply chain_relink|]. rewrite not_elem_of_app, not_elem_of_cons in Hal |- *.
      pose proof (not_elem_of_nil a). tauto.
    + exists l. split; [by apply chain_insert|done].
  - intros a a' q' r1 r2 Ha Ha' Hq'. destruct (Hold _ _ _ Ha) as [[-> ->]|[Hne Ha1]], (Hold _ _ _ Ha') as [[-> E]|[Hne' Ha1']]; try done.
    by eapply H5.
  - intros a q' r1 Ha. assert (exists q0, g !! a = Some (q0, r1)) as [q0 Ha0].
    { destruct (decide (a = p)) as [->|Hne]; [rewrite lookup_insert_eq in Ha; injection Ha as _ <-; by exists q|].
      rewrite lookup_insert_ne in Ha by done. by exists q'. }
    destruct (H6 a q0 r1 Ha0) as [Hr Hcase]. split; [done|]. destruct (decide (a = q)) as [->|Haq].
    + right. rewrite own_add_eq. split.
      * intros (c & r2 & Hc). destruct (Hold _ _ _ Hc) as [[_ ->]|[Hcp Hc']]; [done|]. apply Hcp. by eapply H5.
      * destruct Hcase as [[_ ?]|[Hno _]]; [lia|]. destruct Hno. by exists p, r.
    + rewrite own_add_ne by done. destruct Hcase as [[(c & r2 & Hc) E]|[Hno E]]; [left|right]; (split; [|done]).
      * exists c, r2. rewrite lookup_insert_ne; [done|]. intros <-. rewrite Hp in Hc. injection Hc as <- _. done.
      * intros (c & r2 & Hc). destruct (Hold _ _ _ Hc) as [[_ ->]|[_ Hc']]; [congruence|]. apply Hno. by exists c, r2.
Qed.
End Steps.

(** * The heap *)

Definition shape (b : struct_pbuf) : Z * Z := (next b, ref b).
Definition graph_of (h : gmap Z struct_pbuf) : graph := shape <$> h.

Lemma graph_lookup h a b : h !! a = Some b -> graph_of h !! a = Some (next b, ref b).
Proof. intros Ha. unfold graph_of. by rewrite lookup_fmap, Ha. Qed.

Lemma graph_lookup_inv h a q r : graph_of h !! a = Some (q, r) -> exists b, h !! a = Some b /\ next b = q /\ ref b = r.
Proof. unfold graph_of. rewrite lookup_fmap. intros (b & Hb & E)%fmap_Some. injection E as -> ->. by exists b. Qed.

Lemma graph_insert h a b : graph_of (<[a := b]> h) = <[a := (next b, ref b)]> (graph_of h).
Proof. unfold graph_of. by rewrite fmap_insert. Qed.

Lemma graph_delete h a : graph_of (delete a h) = delete a (graph_of h).
Proof. unfold graph_of. by rewrite fmap_delete. Qed.

(** Fields other than those two do not matter. *)
Lemma graph_same h a b b' : h !! a = Some b -> shape b' = shape b -> graph_of (<[a := b']> h) = graph_of h.
Proof.
  intros Ha E. unfold graph_of. rewrite fmap_insert, E. apply insert_id. by rewrite lookup_fmap, Ha.
Qed.

Lemma graph_size h : size (graph_of h) = size h.
Proof. apply map_size_fmap. Qed.

(** The C library: the region of its heap, and the blocks that are allocated, with
    their sizes. *)
Class OutsideLaws (H : Type) {Out : Outside H} := {
  heap_start : Z;
  heap_end : Z;
  live : H -> gmap Z Z;
  live_range h p n : live h !! p = Some n -> 0 < heap_start <= p /\ p + n <= heap_end <= 2 ^ 64;
  live_apart h p n q k : live h !! p = Some n -> live h !! q = Some k -> p <> q -> disjoint p n q k;
  malloc_ok n h : 0 < n ->
    let '(p, h') := clib_malloc n h in
    p = 0 /\ live h' = live h \/ p <> 0 /\ live h !! p = None /\ live h' = <[p := n]> (live h);
  free_ok p n h : live h !! p = Some n -> live (clib_free p h) = delete p (live h);
  callback_ok h : live (snd (tcpip_try_callback h)) = live h;
}.

Section Heap.
Context {H : Type} `{OL : OutsideLaws H} (custom_free_function : Z -> prog (lwip H) unit).

(** The structure at [a] is in a block of its own, behind the size that mem.cpp
    keeps, and so is its data, unless that is somewhere else. *)
Definition contiguous (b : struct_pbuf) : Prop := Z.land (type_internal b) PBUF_TYPE_FLAG_STRUCT_DATA_CONTIGUOUS <> 0.
Record placed (blocks : gmap Z Z) (a : Z) (b : struct_pbuf) : Prop := {
  pl_block : exists n, blocks !! (a - 8) = Some n /\ 32 <= n /\
    (contiguous b -> a + 24 <= payload b /\ payload b + len b <= a - 8 + n);
  pl_len : 0 <= len b < 2 ^ 16;
  pl_custom : Z.land (flags b) PBUF_FLAG_IS_CUSTOM = 0;
  pl_source : pbuf_get_allocsrc b = 0 \/ pbuf_get_allocsrc b = 1 \/ pbuf_get_allocsrc b = 2;
}.

Record sound (s : lwip H) (own : owners) : Prop := {
  so_links : links (graph_of (heap s)) own;
  so_placed a b : heap s !! a = Some b -> placed (live (outside s)) a b;
}.

Definition put_heap (h : gmap Z struct_pbuf) (s : lwip H) : lwip H :=
  Lwip h (data s) (outside s) (mem_stats s) (pbuf_stats s) (pool_stats s) (ooseq_pending s).

Lemma deref_run {X} p (k : struct_pbuf -> prog (lwip H) X) s b : heap s !! p = Some b -> bind (deref p) k s = k b s.
Proof. intros E. apply bind_some. unfold deref. by rewrite E. Qed.

Lemma update_run {X} p f (k : unit -> prog (lwip H) X) s b :
  heap s !! p = Some b -> bind (update p f) k s = k tt (put_heap (<[p := f b]> (heap s)) s).
Proof. intros E. unfold update. rewrite bind_assoc. by rewrite (deref_run _ _ _ _ E). Qed.

(** Giving a block back. *)
Definition deallocated (p : Z) (s s' : lwip H) : Prop :=
  heap s' = delete p (heap s) /\ outside s' = clib_free (p - 8) (outside s) /\ data s' = data s.

Lemma mem_free_run p s : exists s', mem_free p s = Some (tt, s') /\ deallocated p s s'.
Proof. by eexists. Qed.

Lemma memp_free_run t p s : p <> 0 -> exists s', memp_free t p s = Some (tt, s') /\ deallocated p s s'.
Proof.
  intros Hp. unfold memp_free, do_memp_free_pool. rewrite (proj2 (Z.eqb_neq _ _) Hp). rewrite Z.sub_0_r. destruct t; by eexists.
Qed.

(** One pbuf of the loop of [pbuf_free]: the last reference, or one of several. *)
Lemma free_step_last L fuel p count s b :
  p <> 0 -> heap s !! p = Some b -> placed L p b -> ref b = 1 ->
  exists s', pbuf_free_loop custom_free_function (S fuel) p count s =
      pbuf_free_loop custom_free_function fuel (next b) (u8 (count + 1)) s' /\ deallocated p s s'.
Proof.
  intros Hp Hb [_ _ Hc Hs] Hr. cbn [pbuf_free_loop]. rewrite (proj2 (Z.eqb_neq _ _) Hp), (deref_run _ _ _ _ Hb), Hr.
  change (u8 (1 - 1)) with 0. rewrite (update_run _ _ _ _ _ Hb). cbn [Z.eqb]. rewrite Hc. cbn [Z.eqb negb].
  set (s1 := put_heap _ s).
  assert (exists s', (if pbuf_get_allocsrc b =? PBUF_TYPE_ALLOC_SRC_MASK_STD_MEMP_PBUF_POOL then memp_free MEMP_PBUF_POOL p
      else if pbuf_get_allocsrc b =? PBUF_TYPE_ALLOC_SRC_MASK_STD_MEMP_PBUF then memp_free MEMP_PBUF p
      else if pbuf_get_allocsrc b =? PBUF_TYPE_ALLOC_SRC_MASK_STD_HEAP then mem_free p else ret tt) s1 = Some (tt, s') /\
      deallocated p s1 s') as (s' & E & Hh & Ho & Hd).
  { destruct Hs as [-> | [-> | ->]]; cbn [Z.eqb]; [apply mem_free_run|by apply memp_free_run..]. }
  exists s'. rewrite (bind_some _ _ _ _ _ E). split; [done|]. split; [|by split].
  rewrite Hh. cbn [s1 put_heap heap]. apply delete_insert_eq.
Qed.

Lemma free_step_more fuel p count s b :
  p <> 0 -> heap s !! p = Some b -> 2 <= ref b < 256 ->
  pbuf_free_loop custom_free_function (S fuel) p count s = Some (count, put_heap (<[p := set_ref (ref b - 1) b]> (heap s)) s).
Proof.
  intros Hp Hb Hr. cbn [pbuf_free_loop]. rewrite (proj2 (Z.eqb_neq _ _) Hp), (deref_run _ _ _ _ Hb).
  rewrite (wrap_small 8 (ref b - 1)) by lia. rewrite (update_run _ _ _ _ _ Hb).
  by rewrite (proj2 (Z.eqb_neq _ _)) by lia.
Qed.

(** What [pbuf_free] does along the chain [l]: the pbufs before the first one with
    another reference go, that one loses a reference. *)
Fixpoint drop_refs (h : gmap Z struct_pbuf) (l : list Z) : gmap Z struct_pbuf * Z :=
  match l with
  | [] => (h, 0)
  | p :: l =>
      match h !! p with
      | None => (h, 0)
      | Some b =>
          if ref b =? 1 then let '(h, n) := drop_refs (delete p h) l in (h, n + 1)
          else (<[p := set_ref (ref b - 1) b]> h, 0)
      end
  end.

Lemma sound_delete s s' own p b :
  sound s own -> heap s !! p = Some b -> ref b = 1 -> 0 < own p -> deallocated p s s' ->
  sound s' (handed (next b) (own_add p (-1) own)).
Proof.
  intros [Hl Hpl] Hb Hr Ho (Eh & Eo & _). split.
  - rewrite Eh, graph_delete. apply links_delete; [done| |done]. rewrite <- Hr. by apply graph_lookup.
  - intros a c. rewrite Eh, Eo. intros [Hne Hc]%lookup_delete_Some.
    destruct (pl_block _ _ _ (Hpl p b Hb)) as (n & Hn & _). destruct (Hpl a c Hc) as [(k & Hk & Hk') H2 H3 H4]. split; [|done..].
    exists k. rewrite (free_ok _ n) by done. rewrite lookup_delete_ne by lia. done.
Qed.

Lemma sound_recount s own p b k :
  sound s own -> heap s !! p = Some b -> 1 <= ref b + k < 256 -> 0 <= own p + k ->
  sound (put_heap (<[p := set_ref (ref b + k) b]> (heap s)) s) (own_add p k own).
Proof.
  intros [Hl Hpl] Hb Hr Ho. split; cbn [put_heap heap outside].
  - rewrite graph_insert. apply (links_recount _ own Hl p (next b) (ref b) k); [by apply graph_lookup|done..].
  - intros a c Hc. destruct (decide (a = p)) as [->|Hne].
    + rewrite lookup_insert_eq in Hc. injection Hc as <-. destruct (Hpl p b Hb) as [? ? ? ?]. by split.
    + rewrite lookup_insert_ne in Hc by done. by apply Hpl.
Qed.

Lemma pbuf_not_null s own p b : sound s own -> heap s !! p = Some b -> p <> 0.
Proof.
  intros [Hl _] Hb ->. apply graph_lookup in Hb. by rewrite (lk_null _ _ Hl) in Hb.
Qed.

(** The loop of [pbuf_free] returns; it drops one reference to its argument. *)
Lemma free_loop_spec l : forall fuel p count s own,
  sound s own -> chain (graph_of (heap s)) p l -> (p <> 0 -> 0 < own p) -> (length l <= fuel)%nat -> u8 count = count ->
  exists s' n, pbuf_free_loop custom_free_function fuel p count s = Some (u8 (count + n), s') /\
    drop_refs (heap s) l = (heap s', n) /\ 0 <= n <= Z.of_nat (length l) /\ data s' = data s /\
    sound s' (if decide (p = 0) then own else own_add p (-1) own).
Proof.
  induction l as [|p' l IH]; intros fuel p count s own Hs Hc Ho Hf Hcount.
  { cbn in Hc. subst p. exists s, 0. rewrite Z.add_0_r, Hcount. destruct fuel; by rewrite decide_True. }
  destruct Hc as (<- & Hp & q & r & Hg & Hc). destruct (graph_lookup_inv _ _ _ _ Hg) as (b & Hb & <- & <-).
  rewrite decide_False by done. specialize (Ho Hp). destruct fuel as [|fuel]; [cbn in Hf; lia|]. cbn [drop_refs]. rewrite Hb.
  pose proof (so_links _ _ Hs) as Hl. destruct (lk_ref _ _ Hl p _ _ Hg) as [Hr _]. destruct (Z.eqb_spec (ref b) 1) as [E|E].
  - destruct (free_step_last _ fuel p count s b Hp Hb (so_placed _ _ Hs p b Hb) E) as (s1 & -> & Hd).
    pose proof (sound_delete s s1 own p b Hs Hb E Ho Hd) as Hs1. destruct Hd as (Eh & _ & Ed).
    destruct (lk_chain _ _ Hl p _ _ Hg) as (l' & Hc' & Hnin). rewrite <- (chain_det _ _ _ _ Hc Hc') in Hnin.
    destruct (IH fuel (next b) (u8 (count + 1)) s1 _ Hs1) as (s' & n & -> & Edrop & Hn & Ed' & Hs'); [|..].
    + rewrite Eh, graph_delete. by apply chain_delete.
    + intros Hq. unfold handed. rewrite decide_False, own_add_eq by done.
      pose proof (lk_own _ _ (so_links _ _ Hs1) (next b)) as Hx. unfold handed in Hx. rewrite decide_False, own_add_eq in Hx by done.
      unfold own_add at 1. case_decide as Hqp; [|pose proof (lk_own _ _ Hl (next b)); lia].
      destruct (last_reference _ _ Hl p (next b)) as [_ Hnl]; [by rewrite <- E|done|]. destruct Hnl. rewrite Hqp in Hg. by exists p, (ref b).
    + cbn in Hf. lia.
    + apply wrap_wrap.
    + rewrite <- Eh, Edrop. exists s', (n + 1). cbn [length]. split; [|split; [done|split; [lia|split; [congruence|]]]].
      * f_equal. f_equal. unfold wrap. rewrite Zplus_mod_idemp_l. f_equal. lia.
      * destruct Hs' as [Hl' Hpl']. split; [|done]. unfold handed in Hl'. case_decide; [done|].
        eapply links_ext; [|exact Hl']. intros x. unfold own_add. repeat case_decide; lia.
  - rewrite free_step_more with (b := b) by (done || lia). eexists _, 0. rewrite Z.add_0_r, Hcount.
    split; [reflexivity|]. split; [done|]. split; [lia|]. split; [done|].
    by apply (sound_recount s own p b (-1)); [..|lia|lia].
Qed.

Lemma pbuf_free_spec p l s own :
  sound s own -> chain (graph_of (heap s)) p l -> p <> 0 -> 0 < own p ->
  exists s' n, pbuf_free custom_free_function p s = Some (u8 n, s') /\
    drop_refs (heap s) l = (heap s', n) /\ 0 <= n <= Z.of_nat (length l) /\ data s' = data s /\
    sound s' (own_add p (-1) own).
Proof.
  intros Hs Hc Hp Ho. unfold pbuf_free. rewrite (proj2 (Z.eqb_neq _ _) Hp).
  destruct (free_loop_spec l (S (size (heap s))) p 0 s own Hs Hc) as (s' & n & E & Hrest); [done| |done|].
  - pose proof (chain_size _ _ (so_links _ _ Hs) p l Hc) as Hsz. rewrite graph_size in Hsz. lia.
  - exists s', n. unfold walk_fuel, gets. erewrite bind_some by reflexivity. rewrite decide_False in Hrest by done. by split.
Qed.

(** *** What else changes *)

(** The blocks of the pbufs in [l] are given back to the C library, in this order. *)
Definition frees (l : list Z) (h : H) : H := foldl (fun h a => clib_free (a - 8) h) h l.

(** Nothing but the pbufs of [l] has changed, and nothing but blocks of theirs has been
    given back. *)
Record confined (l : list Z) (s s' : lwip H) : Prop := {
  cf_rest x : x ∉ l -> heap s' !! x = heap s !! x;
  cf_freed : exists freed, (forall x, x ∈ freed -> x ∈ l) /\ outside s' = frees freed (outside s);
}.

Lemma confined_refl l s s' : (forall x, x ∉ l -> heap s' !! x = heap s !! x) -> outside s' = outside s -> confined l s s'.
Proof. intros Hh Ho. split; [done|]. exists []. split; [by intros x ?%elem_of_nil|done]. Qed.

Lemma confined_trans l s1 s2 s3 : confined l s1 s2 -> confined l s2 s3 -> confined l s1 s3.
Proof.
  intros [H1 (f1 & F1 & E1)] [H2 (f2 & F2 & E2)]. split; [intros x Hx; by rewrite H2, H1|].
  exists (f1 ++ f2). split; [intros x [?|?]%elem_of_app; auto|]. unfold frees in *. by rewrite foldl_app, <- E1.
Qed.

Lemma confined_mono l l' s s' : (forall x, x ∈ l -> x ∈ l') -> confined l s s' -> confined l' s s'.
Proof. intros Hl [Hh (f & F & E)]. split; [intros x Hx; apply Hh; auto|]. exists f. split; [auto|done]. Qed.

Lemma free_loop_confined l : forall fuel p count s r s',
  chain (graph_of (heap s)) p l -> NoDup l ->
  (forall x b, x ∈ l -> heap s !! x = Some b -> (exists L, placed L x b) /\ 1 <= ref b < 256) ->
  pbuf_free_loop custom_free_function fuel p count s = Some (r, s') -> confined l s s'.
Proof.
  induction l as [|p' l IH]; intros fuel p count s r s' Hc Hnd Hst E.
  { cbn in Hc. subst p. destruct fuel; cbn in E; injection E as _ <-; by apply confined_refl. }
  destruct Hc as (<- & Hp & q & k & Hg & Hc). destruct (graph_lookup_inv _ _ _ _ Hg) as (b & Hb & <- & <-). apply NoDup_cons in Hnd as [Hpl Hnd].
  destruct (Hst p b ltac:(by left) Hb) as [[L HL] Hr].
  destruct fuel as [|fuel]; [cbn in E; by rewrite (proj2 (Z.eqb_neq _ _) Hp) in E|]. destruct (decide (ref b = 1)) as [E1|E1].
  - destruct (free_step_last L fuel p count s b Hp Hb HL E1) as (s1 & Es & Eh & Eo & _). rewrite Es in E.
    apply (confined_trans _ _ s1).
    + split; [intros x [Hx _]%not_elem_of_cons; by rewrite Eh, lookup_delete_ne|].
      exists [p]. split; [intros x ->%list_elem_of_singleton; by left|exact Eo].
    + apply (confined_mono l); [by right|]. eapply IH; [|exact Hnd| |exact E].
      * rewrite Eh, graph_delete. by apply chain_delete.
      * intros x c Hx. rewrite Eh. intros [_ Hxc]%lookup_delete_Some. apply Hst; [by right|done].
  - rewrite (free_step_more _ _ _ _ b) in E by (done || lia). injection E as _ <-.
    apply confined_refl; [|done]. intros x [Hx _]%not_elem_of_cons. cbn [put_heap heap]. by rewrite lookup_insert_ne.
Qed.

Lemma pbuf_free_confined p l s own r s' :
  sound s own -> chain (graph_of (heap s)) p l -> pbuf_free custom_free_function p s = Some (r, s') -> confined l s s'.
Proof.
  intros Hs Hc E. unfold pbuf_free in E. destruct (Z.eqb_spec p 0) as [->|Hp]; [injection E as _ <-; by apply confined_refl|].
  unfold walk_fuel, gets in E. erewrite bind_some in E by reflexivity. eapply free_loop_confined; [exact Hc| |intros x b _ Hb|exact E].
  - eapply chain_nodup; [exact (so_links _ _ Hs)|exact Hc].
  - split; [eexists; exact (so_placed _ _ Hs x b Hb)|]. apply (lk_ref _ _ (so_links _ _ Hs) x _ _ (graph_lookup _ _ _ Hb)).
Qed.

(** ** Total lengths *)

Definition tot_of (h : gmap Z struct_pbuf) (q : Z) : Z := match h !! q with Some c => tot_len c | None => 0 end.
(** The total of a pbuf is its own length and the total of its successor. *)
Definition totals (h : gmap Z struct_pbuf) : Prop :=
  forall a b, h !! a = Some b -> tot_len b = u16 (len b + tot_of h (next b)).

Record valid (s : lwip H) (own : owners) : Prop := {
  va_sound : sound s own;
  va_totals : totals (heap s);
}.

(** A heap with fewer pbufs, that differ in the reference counts only. *)
Definition shrunk (h h' : gmap Z struct_pbuf) : Prop :=
  forall x b', h' !! x = Some b' -> exists b, h !! x = Some b /\ b' = set_ref (ref b') b.

Lemma shrunk_refl h : shrunk h h.
Proof. intros x b Hb. exists b. split; [done|]. by destruct b. Qed.

Lemma drop_refs_shrunk l h : shrunk h (fst (drop_refs h l)).
Proof.
  revert h. induction l as [|p l IH]; intros h; cbn [drop_refs]; [apply shrunk_refl|].
  destruct (h !! p) as [b|] eqn:Hb; [|apply shrunk_refl]. destruct (ref b =? 1).
  - specialize (IH (delete p h)). destruct (drop_refs (delete p h) l) as [h' n]. intros x b' Hx.
    destruct (IH x b' Hx) as (c & [_ Hc]%lookup_delete_Some & E). by exists c.
  - intros x b' Hx. cbn [fst] in Hx. destruct (decide (x = p)) as [->|Hne].
    + rewrite lookup_insert_eq in Hx. injection Hx as <-. by exists b.
    + rewrite lookup_insert_ne in Hx by done. by apply shrunk_refl.
Qed.

Lemma shrunk_totals h h' own own' :
  shrunk h h' -> totals h -> links (graph_of h) own -> links (graph_of h') own' -> totals h'.
Proof.
  intros Hsh Ht Hl Hl' a b' Hb'. destruct (Hsh a b' Hb') as (b & Hb & E). rewrite E. cbn [tot_len set_ref len next].
  rewrite (Ht a b Hb). do 2 f_equal. unfold tot_of.
  destruct (next_ok _ _ Hl' a _ _ (graph_lookup _ _ _ Hb')) as [Hq|[[q r] Hq]]; rewrite E in Hq; cbn [next set_ref] in Hq.
  - pose proof (lk_null _ _ Hl) as H1. pose proof (lk_null _ _ Hl') as H2. unfold graph_of in H1, H2.
    rewrite lookup_fmap, fmap_None in H1, H2. by rewrite Hq, H1, H2.
  - destruct (graph_lookup_inv _ _ _ _ Hq) as (c' & Hc' & _). destruct (Hsh _ _ Hc') as (c & Hc & Ec).
    rewrite Hc, Hc', Ec. done.
Qed.

(** Dropping a reference keeps everything in order. *)
Lemma pbuf_free_valid p l s own :
  valid s own -> chain (graph_of (heap s)) p l -> p <> 0 -> 0 < own p ->
  exists s' n, pbuf_free custom_free_function p s = Some (u8 n, s') /\
    drop_refs (heap s) l = (heap s', n) /\ 0 <= n <= Z.of_nat (length l) /\ data s' = data s /\
    valid s' (own_add p (-1) own).
Proof.
  intros [Hs Ht] Hc Hp Ho. destruct (pbuf_free_spec p l s own Hs Hc Hp Ho) as (s' & n & E & Ed & Hn & Hd & Hs').
  exists s', n. split; [exact E|split; [exact Ed|split; [exact Hn|split; [exact Hd|]]]]. split; [done|]. pose proof (drop_refs_shrunk l (heap s)) as Hsh. rewrite Ed in Hsh.
  by eapply shrunk_totals; [exact Hsh|done|apply Hs|apply Hs'].
Qed.

(** A field that is not concerned with pointers, counts or totals. *)
Lemma totals_recount h p b r : totals h -> h !! p = Some b -> totals (<[p := set_ref r b]> h).
Proof.
  intros Ht Hb. assert (forall q, tot_of (<[p := set_ref r b]> h) q = tot_of h q) as E.
  { intros q. unfold tot_of. destruct (decide (q = p)) as [->|]; [by rewrite lookup_insert_eq, Hb|by rewrite lookup_insert_ne]. }
  intros a c Hc. rewrite E. destruct (decide (a = p)) as [->|Hne].
  - rewrite lookup_insert_eq in Hc. injection Hc as <-. by apply (Ht p b).
  - rewrite lookup_insert_ne in Hc by done. by apply (Ht a c).
Qed.

Lemma pbuf_ref_valid p b s own :
  valid s own -> heap s !! p = Some b -> ref b < 255 ->
  exists s', pbuf_ref p s = Some (tt, s') /\ s' = put_heap (<[p := set_ref (ref b + 1) b]> (heap s)) s /\
    valid s' (own_add p 1 own).
Proof.
  intros [Hs Ht] Hb Hr. pose proof (pbuf_not_null _ _ _ _ Hs Hb) as Hp. eexists. split; [|split; [reflexivity|]].
  - unfold pbuf_ref. rewrite (proj2 (Z.eqb_neq _ _) Hp). cbn [when negb]. unfold update. rewrite (deref_run _ _ _ _ Hb).
    destruct (lk_ref _ _ (so_links _ _ Hs) p _ _ (graph_lookup _ _ _ Hb)) as [Hr' _].
    rewrite (wrap_small 8 (ref b + 1)) by lia. done.
  - destruct (lk_ref _ _ (so_links _ _ Hs) p _ _ (graph_lookup _ _ _ Hb)) as [Hr' _].
    pose proof (lk_own _ _ (so_links _ _ Hs) p). split; [by apply sound_recount; [..|lia|lia]|by apply totals_recount].
Qed.

(** ** Allocation *)

(** A block is there, or it is not; data outside the block does not change. *)
Definition allocated (size r : Z) (s s' : lwip H) : Prop :=
  heap s' = heap s /\
  (r = 0 /\ live (outside s') = live (outside s) /\ data s' = data s \/
   r <> 0 /\ live (outside s) !! (r - 8) = None /\ live (outside s') = <[r - 8 := size + 8]> (live (outside s)) /\
     data s' = store_le (data s) (r - 8) 8 size).

Lemma mem_malloc_run size s :
  0 < size < 2 ^ 32 -> exists r s', mem_malloc size s = Some (r, s') /\ allocated size r s s'.
Proof.
  intros Hs. unfold mem_malloc, call_outside, bind. change MEM_LIBC_STATSHELPER_SIZE with 8. rewrite wrap_small by lia.
  pose proof (malloc_ok (size + 8) (outside s) ltac:(lia)) as Hm. destruct (clib_malloc (size + 8) (outside s)) as [p h'].
  destruct (Z.eqb_spec p 0) as [->|Hp]; destruct Hm as [[? Hl]|(? & Hn & Hl)]; try done.
  - eexists _, _. split; [reflexivity|]. split; [done|]. by left.
  - eexists _, _. split; [reflexivity|]. split; [done|]. right. replace (p + 8 - 8) with p by lia. split_and!; try done.
    cbn [outside] in *. assert (<[p := size + 8]> (live (outside s)) !! p = Some (size + 8)) as Hp' by apply lookup_insert_eq.
    rewrite <- Hl in Hp'. apply live_range in Hp'. lia.
Qed.

Lemma memp_malloc_run t s :
  exists r s', memp_malloc t s = Some (r, s') /\ allocated (memp_size t) r s s'.
Proof.
  unfold memp_malloc, do_memp_malloc_pool. assert (0 + LWIP_MEM_ALIGN_SIZE (memp_size t) = memp_size t) as -> by (by destruct t).
  destruct (mem_malloc_run (memp_size t) s) as (r & s1 & E & Ha); [by destruct t|]. rewrite (bind_some _ _ _ _ _ E).
  destruct (Z.eqb_spec r 0) as [->|Hr]; destruct t; eexists _, _; (split; [reflexivity|]); rewrite ?Z.add_0_r; exact Ha.
Qed.

(** Data outside the C library's heap, and in the blocks [L], is as in [d]; it is still bytes. *)
Record kept (L : gmap Z Z) (d d' : mem) : Prop := {
  kp_same y : (y < heap_start \/ heap_end <= y \/ exists q n, L !! q = Some n /\ q <= y < q + n) -> d' y = d y;
  kp_bytes : (forall x, is_byte (d x)) -> forall x, is_byte (d' x);
}.

Lemma allocated_kept size r s s' L d :
  allocated size r s s' -> 0 <= size -> L ⊆ live (outside s) -> kept L d (data s) ->
  L ⊆ live (outside s') /\ kept L d (data s').
Proof.
  intros (_ & [(_ & -> & ->)|(_ & Hn & El & Ed)]) Hsz HL Hk; [done|].
  assert (L ⊆ live (outside s')) as HL'
    by (rewrite El; apply insert_subseteq_r; [by eapply lookup_weaken_None|done]).
  assert (live (outside s') !! (r - 8) = Some (size + 8)) as Hr by (by rewrite El, lookup_insert_eq).
  split; [done|]. destruct Hk as [Hk Hby]. split; [|intros Hd; rewrite Ed; apply is_byte_store; [by apply Hby|apply bytes_le_bytes]].
  intros y Hy. rewrite Ed, <- Hk by done. apply store_out. rewrite length_le_bytes.
  pose proof (live_range _ _ _ Hr). destruct Hy as [?|[?|(q & n & Hq & ?)]]; [lia..|].
  assert (live (outside s) !! q = Some n) as Hq1 by (by eapply lookup_weaken).
  destruct (decide (q = r - 8)) as [->|Hne]; [congruence|].
  pose proof (live_apart _ _ _ _ _ Hr (lookup_weaken _ _ _ _ Hq HL') ltac:(done)) as Hd. unfold disjoint in Hd. lia.
Qed.

Lemma allocated_fresh s s1 own size r : sound s own -> allocated size r s s1 -> r <> 0 -> heap s !! r = None.
Proof.
  intros [_ Hpl] (_ & [(-> & _)|(_ & Hnone & _)]) Hr; [done|].
  destruct (heap s !! r) as [c|] eqn:Hc; [|done]. destruct (pl_block _ _ _ (Hpl r c Hc)) as (n & Hn & _). congruence.
Qed.

(** The structure that is put into a new block. *)
Lemma sound_new s s1 own size r b :
  sound s own -> allocated size r s s1 -> r <> 0 -> next b = 0 -> ref b = 1 -> placed (live (outside s1)) r b ->
  heap s !! r = None /\ sound (put_heap (<[r := b]> (heap s1)) s1) (own_add r 1 own).
Proof.
  intros Hs Ha Hr Hn Href Hb. pose proof (allocated_fresh s s1 own size r Hs Ha Hr) as Hfresh. destruct Hs as [Hl Hpl].
  destruct Ha as (Eh & [(? & _)|(_ & Hnone & El & _)]); [done|].
  split; [done|]. split; cbn [put_heap heap outside].
  - rewrite Eh, graph_insert, Hn, Href. apply links_new; [done| |done]. unfold graph_of. by rewrite lookup_fmap, Hfresh.
  - rewrite Eh. intros a c Hc. destruct (decide (a = r)) as [->|Hne].
    + rewrite lookup_insert_eq in Hc. by injection Hc as <-.
    + rewrite lookup_insert_ne in Hc by done. destruct (Hpl a c Hc) as [(n & Hn' & Hrest) H2 H3 H4]. split; [|done..].
      exists n. rewrite El, lookup_insert_ne by lia. done.
Qed.

Lemma totals_new h own r b :
  totals h -> links (graph_of h) own -> h !! r = None -> r <> 0 -> next b = 0 -> tot_len b = len b -> 0 <= len b < 2 ^ 16 ->
  totals (<[r := b]> h).
Proof.
  intros Ht Hl Hr Hr0 Hn Htot Hlen a c Hc. pose proof (lk_null _ _ Hl) as H0. unfold graph_of in H0. rewrite lookup_fmap, fmap_None in H0.
  destruct (decide (a = r)) as [->|Hne].
  - rewrite lookup_insert_eq in Hc. injection Hc as <-. rewrite Hn. unfold tot_of. rewrite lookup_insert_ne, H0, Z.add_0_r by done.
    by rewrite wrap_small.
  - rewrite lookup_insert_ne in Hc by done. rewrite (Ht a c Hc). do 2 f_equal. unfold tot_of. rewrite lookup_insert_ne; [done|].
    intros Hrc. destruct (next_ok _ _ Hl a _ _ (graph_lookup _ _ _ Hc)) as [?|[[q r'] Hq]]; [congruence|].
    destruct (graph_lookup_inv _ _ _ _ Hq) as (c' & Hc' & _). congruence.
Qed.

Lemma align_size x : LWIP_MEM_ALIGN_SIZE x = x.
Proof. unfold LWIP_MEM_ALIGN_SIZE, MEM_ALIGNMENT. rewrite Z.add_simpl_r. change (Z.lnot (1 - 1)) with (-1). apply Z.land_m1_r. Qed.
Lemma align_addr x : LWIP_MEM_ALIGN x = x.
Proof. apply align_size. Qed.

(** An unused reference, for a result that may be NULL. *)
Definition granted (p : Z) (own : owners) : owners := if decide (p = 0) then own else own_add p 1 own.

(** What an allocation of one piece comes to: no memory and nothing changed, or a new
    pbuf that the caller holds. *)
Definition gained (b : Z -> struct_pbuf) (s : lwip H) (own : owners) (r : Z) (s' : lwip H) : Prop :=
  valid s' (granted r own) /\ kept (live (outside s)) (data s) (data s') /\
  (r = 0 /\ heap s' = heap s /\ data s' = data s \/ r <> 0 /\ heap s !! r = None /\ heap s' = <[r := b r]> (heap s)).

Lemma valid_outside s s' own :
  valid s own -> heap s' = heap s -> live (outside s') = live (outside s) -> valid s' own.
Proof. intros [[Hl Hp] Ht] Eh El. split; [split|]; rewrite Eh; try done. intros a b Hb. rewrite El. by apply Hp. Qed.

Lemma init_gained s s1 own size r (b : Z -> struct_pbuf) :
  valid s own -> allocated size r s s1 -> 0 <= size -> next (b r) = 0 -> ref (b r) = 1 -> tot_len (b r) = len (b r) ->
  (r <> 0 -> placed (live (outside s1)) r (b r)) ->
  gained b s own r (if decide (r = 0) then s1 else put_heap (<[r := b r]> (heap s1)) s1).
Proof.
  intros [Hs Ht] Ha Hsize Hn Href Htot Hpl. unfold gained, granted.
  destruct (allocated_kept size r s s1 (live (outside s)) (data s) Ha Hsize ltac:(done) ltac:(done)) as [_ Hk].
  destruct (decide (r = 0)) as [->|Hr].
  - destruct Ha as (Eh & [(_ & El & Ed)|[? _]]); [|done]. split; [|split; [done|left; by split_and!]]. by eapply valid_outside; [split| |].
  - specialize (Hpl Hr). destruct (sound_new s s1 own size r (b r) Hs Ha Hr Hn Href Hpl) as [Hf Hs']. pose proof (proj1 Ha) as Eh.
    split; [|split; [done|right; split_and!; [done|done|by cbn; rewrite Eh]]]. split; [done|]. cbn [heap put_heap]. rewrite Eh.
    eapply totals_new; [done|apply Hs|done|done|done|done|apply Hpl].
Qed.

Lemma pbuf_alloc_reference_valid payload length type s own :
  valid s own -> 0 <= length < 2 ^ 16 -> type = PBUF_ROM \/ type = PBUF_REF ->
  exists r s', pbuf_alloc_reference payload length type s = Some (r, s') /\
    gained (fun _ => StructPbuf 0 payload length length (u8 (type_bits type)) 0 1 NETIF_NO_INDEX) s own r s'.
Proof.
  intros Hv Hlen Hty. destruct (memp_malloc_run MEMP_PBUF s) as (r & s1 & E & Ha).
  unfold pbuf_alloc_reference. rewrite (bind_some _ _ _ _ _ E). eexists r, _. split; cycle 1.
  - apply (init_gained s s1 own _ r _ Hv Ha); [done..|]. intros Hr. destruct Ha as (_ & [[? _]|(_ & _ & El & _)]); [done|].
    split; [|done|done|destruct Hty as [-> | ->]; by right; left].
    exists 32. rewrite El. split; [by rewrite lookup_insert_eq|]. split; [lia|]. intros Hc. destruct Hc. by destruct Hty as [-> | ->].
  - case_decide as Hr; [by subst r|]. by rewrite (proj2 (Z.eqb_neq _ _) Hr).
Qed.

Lemma pbuf_alloc_ram_valid layer length s own :
  valid s own -> 0 <= length < 2 ^ 16 ->
  exists r s', pbuf_alloc custom_free_function layer length PBUF_RAM s = Some (r, s') /\
    gained (fun r => StructPbuf 0 (r + 24 + layer_offset layer) length length (u8 (type_bits PBUF_RAM)) 0 1 NETIF_NO_INDEX)
      s own r s'.
Proof.
  intros Hv Hlen. unfold pbuf_alloc. rewrite !align_size.
  assert (0 <= layer_offset layer <= 54) as Hoff by (by destruct layer).
  change SIZEOF_STRUCT_PBUF with 24. set (pl := u16 _).
  destruct (Z.ltb_spec pl length) as [Hpl|Hpl]; cbn [orb].
  { exists 0, s. split; [done|]. split; [|split; [done|by left]]. unfold granted. by rewrite decide_True. }
  assert (pl = layer_offset layer + length) as Epl.
  { unfold pl, wrap in *. pose proof (Z.div_mod (layer_offset layer + length) (2 ^ 16) ltac:(done)).
    pose proof (Z.mod_pos_bound (layer_offset layer + length) (2 ^ 16) ltac:(done)). lia. }
  rewrite (proj2 (Z.ltb_ge _ _)) by lia.
  destruct (mem_malloc_run (24 + pl) s) as (r & s1 & E & Ha); [lia|]. rewrite (bind_some _ _ _ _ _ E).
  eexists r, _. split; cycle 1.
  - apply (init_gained s s1 own _ r _ Hv Ha); [lia|done..|]. intros Hr. destruct Ha as (_ & [[? _]|(_ & _ & El & _)]); [done|].
    split; [|done|done|by left]. exists (24 + pl + 8). rewrite El. split; [by rewrite lookup_insert_eq|]. split; [lia|].
    intros _. cbn [payload len]. lia.
  - case_decide as Hr; [by subst r|]. by rewrite (proj2 (Z.eqb_neq _ _) Hr), align_addr.
Qed.

(** *** The chain of PBUF_POOL *)

Definition bufs (h : gmap Z struct_pbuf) (l : list Z) : list struct_pbuf := omap (fun a => h !! a) l.
Definition sum_len (bs : list struct_pbuf) : Z := foldr (fun b n => len b + n) 0 bs.

Lemma drop_refs_all l : forall h,
  NoDup l -> (forall x, x ∈ l -> exists b, h !! x = Some b /\ ref b = 1) ->
  snd (drop_refs h l) = Z.of_nat (length l) /\
  forall x, fst (drop_refs h l) !! x = if decide (x ∈ l) then None else h !! x.
Proof.
  induction l as [|p l IH]; intros h Hnd Hones; cbn [drop_refs].
  { split; [done|]. intros x. rewrite decide_False by apply not_elem_of_nil. done. }
  apply NoDup_cons in Hnd as [Hp Hnd]. destruct (Hones p ltac:(by left)) as (b & -> & ->). rewrite Z.eqb_refl.
  destruct (IH (delete p h) Hnd) as [Hn Hx].
  { intros x Hx. destruct (Hones x ltac:(by right)) as (c & Hc & Hr). exists c. rewrite lookup_delete_ne; [done|congruence]. }
  destruct (drop_refs (delete p h) l) as [h' n]. cbn [fst snd length] in *.
  split; [lia|]. intros x. rewrite Hx. destruct (decide (x ∈ l)) as [Hin|Hnin].
  - by rewrite decide_True by (by right).
  - destruct (decide (x = p)) as [->|Hne]; [by rewrite lookup_delete_eq, decide_True by (by left)|].
    rewrite decide_False by (rewrite elem_of_cons; tauto). by rewrite lookup_delete_ne.
Qed.

Lemma pool_is_empty_run s : exists s', pbuf_pool_is_empty s = Some (tt, s') /\
  heap s' = heap s /\ data s' = data s /\ live (outside s') = live (outside s).
Proof.
  unfold pbuf_pool_is_empty, bind, gets, set_pending, modify. destruct (ooseq_pending s =? 0); cbn [when]; [|by eexists].
  unfold bind, call_outside. cbn [outside]. pose proof (callback_ok (outside s)) as Hc.
  destruct (tcpip_try_callback (outside s)) as [err h]. cbn [snd] in Hc. destruct (negb (err =? 0)); by eexists.
Qed.

(** The pbufs in [l] have been allocated and [rem] bytes are missing; the rest of the
    heap is [h0]. *)
Record building (h0 : gmap Z struct_pbuf) (L0 : gmap Z Z) (d0 : mem) (own : owners) (total : Z) (s : lwip H) (p lst rem : Z) (l : list Z) : Prop := {
  bl_sound : sound s (granted p own);
  bl_chain : chain (graph_of (heap s)) p l;
  bl_last : l = [] \/ last l = Some lst;
  bl_new x : x ∈ l -> h0 !! x = None /\ exists b, heap s !! x = Some b /\ ref b = 1 /\ contiguous b;
  bl_rest x : x ∉ l -> heap s !! x = h0 !! x;
  bl_tot x b : x ∈ l -> heap s !! x = Some b ->
    tot_len b = len b + (if next b =? 0 then rem else tot_of (heap s) (next b)) /\ 0 <= tot_len b <= total;
  bl_sum : sum_len (bufs (heap s) l) + rem = total;
  bl_live : L0 ⊆ live (outside s) /\ kept L0 d0 (data s);
}.

Lemma bufs_app h l l' : bufs h (l ++ l') = bufs h l ++ bufs h l'.
Proof. apply omap_app. Qed.

Lemma sum_len_app bs bs' : sum_len (bs ++ bs') = sum_len bs + sum_len bs'.
Proof. induction bs as [|b bs IH]; [done|]. unfold sum_len in *. cbn [app foldr]. lia. Qed.

Lemma sum_len_ext h h' l : (forall x, x ∈ l -> len <$> h' !! x = len <$> h !! x) -> sum_len (bufs h' l) = sum_len (bufs h l).
Proof.
  induction l as [|x l IH]; intros Hx; [done|]. pose proof (Hx x ltac:(by left)) as E. unfold bufs in *. cbn [omap list_omap].
  assert (sum_len (omap (fun a => h' !! a) l) = sum_len (omap (fun a => h !! a) l)) as IH' by (apply IH; intros y Hy; apply Hx; by right).
  destruct (h' !! x), (h !! x); cbn in E; try discriminate; [|done]. unfold sum_len in *.
  cbn [foldr]. rewrite IH'. by injection E as ->.
Qed.

(** Only the last pbuf of a chain has no successor. *)
Lemma chain_end g p l x r : chain g p l -> x ∈ l -> g !! x = Some (0, r) -> last l = Some x.
Proof.
  intros Hc (l1 & l2 & ->)%list_elem_of_split Hx.
  destruct (chain_app _ _ _ _ Hc) as (q & (-> & _ & q' & r' & Hx' & Hc2) & _). rewrite Hx in Hx'. injection Hx' as <- <-.
  destruct l2 as [|y l2]; [apply last_snoc|]. by destruct Hc2 as (<- & ? & _).
Qed.

Lemma chain_last_null g p l x q r : chain g p l -> last l = Some x -> g !! x = Some (q, r) -> q = 0.
Proof.
  intros Hc (l1 & ->)%last_Some Hx. destruct (chain_app _ _ _ _ Hc) as (q' & (-> & _ & q1 & r' & Hx' & Hc2) & _).
  rewrite Hx in Hx'. by injection Hx' as <- <-.
Qed.

(** The successor of an element is in the chain. *)
Lemma chain_next g p l x q r : chain g p l -> x ∈ l -> g !! x = Some (q, r) -> q = 0 \/ q ∈ l.
Proof.
  intros Hc (l1 & l2 & ->)%list_elem_of_split Hx.
  destruct (chain_app _ _ _ _ Hc) as (q' & (-> & _ & q1 & r' & Hx' & Hc2) & _). rewrite Hx in Hx'. injection Hx' as <- <-.
  destruct l2 as [|y l2]; [by left|]. right. destruct Hc2 as (-> & _). apply elem_of_app. right. right. by left.
Qed.

(** Appending the pbuf [b] at [q], a block of its own, to the pbuf [lst]. *)
Definition append_pbuf (p lst q : Z) (b : struct_pbuf) (h : gmap Z struct_pbuf) : gmap Z struct_pbuf :=
  let h := <[q := b]> h in
  if decide (p = 0) then h else match h !! lst with Some c => <[lst := set_next q c]> h | None => h end.

Lemma append_sound h0 L0 d0 own total s s1 p lst rem l q b :
  building h0 L0 d0 own total s p lst rem l -> allocated (memp_size MEMP_PBUF_POOL) q s s1 -> q <> 0 ->
  next b = 0 -> ref b = 1 -> placed (live (outside s1)) q b ->
  let p' := if decide (p = 0) then q else p in
  let s' := put_heap (append_pbuf p lst q b (heap s1)) s1 in
  heap s !! q = None /\ sound s' (granted p' own) /\ chain (graph_of (heap s')) p' (l ++ [q]).
Proof.
  intros [Hs Hc Hlast Hnew Hrest _ _ _] Ha Hq Hn Hr Hpl p' s'. pose proof (proj1 Ha) as Eh.
  destruct (sound_new s s1 _ _ q b Hs Ha Hq Hn Hr Hpl) as [Hfresh Hs1]. split; [done|]. unfold p', s', append_pbuf.
  destruct (decide (p = 0)) as [Hp|Hp].
  - assert (l = []) as -> by (destruct l; [done|]; destruct Hc as (-> & ? & _); done). unfold granted in *. rewrite decide_True in Hs1 by done.
    rewrite decide_False by done. split; [done|]. cbn [heap put_heap app chain]. split; [done|]. split; [done|].
    exists 0, 1. rewrite graph_insert, lookup_insert_eq, Hn, Hr. done.
  - assert (last l = Some lst) as Hlst by (destruct Hlast as [->|]; [by destruct Hp|done]).
    assert (lst ∈ l) as Hin by (by apply last_Some_elem_of). destruct (Hnew lst Hin) as (_ & c & Hc' & Hrc & _).
    assert (q <> lst) as Hql by congruence. pose proof (chain_last_null _ _ _ _ _ _ Hc Hlst (graph_lookup _ _ _ Hc')) as Hnc.
    assert (<[q := b]> (heap s1) !! lst = Some c) as Hc1 by (rewrite lookup_insert_ne, Eh by done; done). rewrite Hc1.
    set (h1 := <[q := b]> (heap s1)) in *. cbn [put_heap heap] in Hs1.
    assert (graph_of h1 !! lst = Some (0, 1)) as Hg by (rewrite <- Hnc, <- Hrc; by apply graph_lookup).
    assert (chain (graph_of h1) q [q]) as Hcq.
    { split; [done|]. split; [done|]. exists 0, 1. unfold h1. by rewrite graph_insert, lookup_insert_eq, Hn, Hr. }
    unfold granted in *. rewrite decide_False in Hs1 |- * by done. destruct Hs1 as [Hl1 Hp1]. cbn [put_heap heap outside] in *.
    fold h1 in Hl1, Hp1. split.
    + split; cbn [put_heap heap outside].
      * rewrite graph_insert. cbn [next ref set_next]. rewrite Hrc. eapply links_ext; [|eapply (links_link _ _ Hl1 lst 1 q [q])]; try done.
        -- intros x. unfold own_add. repeat case_decide; lia.
        -- rewrite list_elem_of_singleton. congruence.
        -- intros (x & r & Hx). destruct (lk_ref _ _ Hl1 q 0 1) as [_ [[_ E]|[Hno _]]].
           ++ unfold h1. by rewrite graph_insert, lookup_insert_eq, Hn, Hr.
           ++ rewrite own_add_eq in E. pose proof (lk_own _ _ (so_links _ _ Hs) q). unfold granted in *. rewrite decide_False in * by done. lia.
           ++ apply Hno. by exists x, r.
        -- rewrite own_add_eq. pose proof (lk_own _ _ (so_links _ _ Hs) q). unfold granted in *. rewrite decide_False in * by done. lia.
      * intros a e He. destruct (decide (a = lst)) as [->|Hne].
        -- rewrite lookup_insert_eq in He. injection He as <-. destruct (Hp1 lst c Hc1) as [? ? ? ?]. by split.
        -- rewrite lookup_insert_ne in He by done. by apply Hp1.
    + cbn [put_heap heap]. rewrite graph_insert. cbn [next ref set_next]. apply last_Some in Hlst as (l1 & ->). rewrite <- app_assoc. cbn [app].
      eapply (chain_relink _ p l1 lst []); [|eapply nodup_before, chain_nodup; [exact (so_links _ _ Hs)|exact Hc]|].
      * unfold h1. rewrite graph_insert. apply chain_insert; [|by rewrite Eh]. intros Hq'. destruct (Hnew q Hq') as (_ & ? & ? & _). congruence.
      * apply chain_insert; [|exact Hcq]. rewrite list_elem_of_singleton. congruence.
Qed.

(** The pbuf that the loop puts into a new block. *)
Definition pool_pbuf (q rem qlen offset : Z) : struct_pbuf :=
  StructPbuf 0 (q + 24 + offset) rem qlen (u8 (type_bits PBUF_POOL)) 0 1 NETIF_NO_INDEX.

Lemma append_lookup p lst q b h : (p <> 0 -> lst <> q) ->
  append_pbuf p lst q b h !! q = Some b /\
  forall x, x <> q -> append_pbuf p lst q b h !! x = (fun c => if decide (p <> 0 /\ x = lst) then set_next q c else c) <$> h !! x.
Proof.
  intros Hlq. unfold append_pbuf. destruct (decide (p = 0)) as [Hp|Hp].
  { split; [apply lookup_insert_eq|]. intros x Hx. rewrite lookup_insert_ne by done.
    destruct (h !! x); cbn [fmap option_fmap option_map]; [|done]. by rewrite decide_False by tauto. }
  specialize (Hlq Hp). split; [rewrite lookup_insert_ne by done; case_match; [rewrite lookup_insert_ne by done|]; apply lookup_insert_eq|].
  intros x Hx. rewrite lookup_insert_ne by done. destruct (decide (x = lst)) as [->|Hxl].
  - destruct (h !! lst) as [c|] eqn:E; cbn [fmap option_fmap option_map]; [|by rewrite lookup_insert_ne]. rewrite lookup_insert_eq. by rewrite decide_True.
  - assert (forall c, (if decide (p <> 0 /\ x = lst) then set_next q c else c) = c) as Hid by (intros c; by rewrite decide_False by tauto).
    destruct (h !! lst); rewrite ?lookup_insert_ne by done; destruct (h !! x); cbn [fmap option_fmap option_map]; by rewrite ?Hid.
Qed.

Lemma building_add h0 L0 d0 own total s s1 p lst rem l q qlen offset :
  building h0 L0 d0 own total s p lst rem l -> allocated (memp_size MEMP_PBUF_POOL) q s s1 -> q <> 0 ->
  0 <= offset -> 0 <= qlen <= rem -> qlen + offset <= 590 -> rem <= total < 2 ^ 16 ->
  let b := pool_pbuf q rem qlen offset in
  building h0 L0 d0 own total (put_heap (append_pbuf p lst q b (heap s1)) s1) (if decide (p = 0) then q else p) q (rem - qlen) (l ++ [q]).
Proof.
  intros Hb Ha Hq Hoff Hqlen Hsize Hrem b. assert (placed (live (outside s1)) q b) as Hpl.
  { destruct Ha as (_ & [[? _]|(_ & _ & El & _)]); [done|]. split; [|cbn; lia|done|by right; right].
    exists 622. rewrite El. split; [by rewrite lookup_insert_eq|]. split; [lia|]. cbn. lia. }
  destruct (append_sound h0 L0 d0 own total s s1 p lst rem l q b Hb Ha Hq eq_refl eq_refl Hpl) as (Hfresh & Hs' & Hc').
  pose proof (proj1 Ha) as Eh. destruct Hb as [Hs Hc Hlast Hnew Hrest Htot Hsum [HL Hk]].
  assert (q ∉ l) as Hql by (intros Hin; destruct (Hnew q Hin) as (_ & ? & ? & _); congruence).
  assert (p <> 0 -> last l = Some lst) as Hll by (intros Hp; destruct Hlast as [->|]; done).
  assert (p <> 0 -> lst <> q) as Hlq by (intros Hp Heq; apply Hql; rewrite <- Heq; by apply last_Some_elem_of, Hll).
  set (h' := append_pbuf p lst q b (heap s1)) in *. destruct (append_lookup p lst q b (heap s1) Hlq) as [Hq' Hx']. fold h' in Hq', Hx'. rewrite Eh in Hx'.
  assert (forall y, y <> q -> tot_of h' y = tot_of (heap s) y) as Ht.
  { intros y Hy. unfold tot_of. rewrite Hx' by done. destruct (heap s !! y); cbn [fmap option_fmap option_map]; [|done]. by destruct (decide (p <> 0 /\ y = lst)). }
  split; cbn [put_heap heap]; try done.
  - right. apply last_snoc.
  - intros x [Hx|Hx%list_elem_of_singleton]%elem_of_app; [|subst x].
    + destruct (Hnew x Hx) as (Hx0 & c & Hxc & Hr & Hcont). split; [done|]. rewrite Hx' by congruence. rewrite Hxc. cbn [fmap option_fmap option_map].
      eexists. split; [reflexivity|]. by destruct (decide (p <> 0 /\ x = lst)).
    + split; [|exists b; split; [exact Hq'|by split]]. rewrite <- Hrest by done. done.
  - intros x [Hx Hxq]%not_elem_of_app. rewrite list_elem_of_singleton in Hxq. rewrite Hx' by done. rewrite <- Hrest by done.
    destruct (heap s !! x) eqn:E; cbn [fmap option_fmap option_map]; [|done]. destruct (decide (p <> 0 /\ x = lst)) as [[Hp ->]|]; [|done].
    by destruct Hx; apply last_Some_elem_of, Hll.
  - intros x c Hx Hxc. destruct (decide (x = q)) as [->|Hxq].
    + rewrite Hq' in Hxc. injection Hxc as <-. cbn [b pool_pbuf tot_len len next Z.eqb]. lia.
    + apply elem_of_app in Hx as [Hx|Hx%list_elem_of_singleton]; [|done]. rewrite Hx' in Hxc by done.
      apply fmap_Some in Hxc as (e & He & ->). destruct (Htot x e Hx He) as [E1 E2]. destruct (decide (p <> 0 /\ x = lst)) as [[Hp ->]|Hnl].
      * cbn [tot_len len next set_next]. rewrite (proj2 (Z.eqb_neq _ _) Hq). unfold tot_of. rewrite Hq'. cbn [b pool_pbuf tot_len].
        rewrite (chain_last_null _ _ _ _ _ _ Hc (Hll Hp) (graph_lookup _ _ _ He)) in E1. cbn in E1. lia.
      * assert (next e <> 0) as Hn.
        { intros Hn. pose proof (graph_lookup _ _ _ He) as Hg. rewrite Hn in Hg. pose proof (chain_end _ _ _ _ _ Hc Hx Hg) as Hl.
          apply Hnl. split; [intros ->; destruct l; [by apply elem_of_nil in Hx|]; by destruct Hc as (<- & ? & _)|].
          destruct Hlast as [->|Hl']; [by apply elem_of_nil in Hx|congruence]. }
        rewrite (proj2 (Z.eqb_neq _ _) Hn) in E1 |- *. rewrite Ht; [done|].
        destruct (chain_next _ _ _ _ _ _ Hc Hx (graph_lookup _ _ _ He)) as [?|?]; [done|congruence].
  - rewrite bufs_app, sum_len_app, (sum_len_ext (heap s) h' l).
    + unfold bufs at 2. cbn [omap list_omap]. rewrite Hq'. unfold sum_len at 2. cbn [foldr b pool_pbuf len]. lia.
    + intros x Hx. rewrite Hx' by congruence. destruct (heap s !! x); cbn [fmap option_fmap option_map]; [|done]. by destruct (decide (p <> 0 /\ x = lst)).
  - by apply (allocated_kept _ _ _ _ _ _ Ha).
Qed.

(** The two writes of the loop. *)
Lemma link_last h0 L0 d0 own total s s1 p lst rem l q b :
  building h0 L0 d0 own total s p lst rem l -> heap s1 = heap s -> heap s !! q = None ->
  when (negb (p =? 0)) (update lst (set_next q)) (put_heap (<[q := b]> (heap s1)) s1) =
  Some (tt, put_heap (append_pbuf p lst q b (heap s1)) s1).
Proof.
  intros Hb Eh Hq. unfold append_pbuf. destruct (Z.eqb_spec p 0) as [Hp|Hp]; [by rewrite decide_True|].
  rewrite decide_False by done. cbn [negb when].
  assert (lst ∈ l) as Hin.
  { destruct (bl_last _ _ _ _ _ _ _ _ _ _ Hb) as [->|Hl]; [|by apply last_Some_elem_of].
    by pose proof (bl_chain _ _ _ _ _ _ _ _ _ _ Hb). }
  destruct (bl_new _ _ _ _ _ _ _ _ _ _ Hb lst Hin) as (_ & c & Hc & _).
  assert (<[q := b]> (heap s1) !! lst = Some c) as Hc' by (rewrite lookup_insert_ne, Eh by congruence; done).
  unfold update. rewrite (deref_run _ _ _ c) by done. by rewrite Hc'.
Qed.

(** The first pbuf keeps its length, or is the next one to be filled. *)
Definition first_len (p rem offset : Z) (h : gmap Z struct_pbuf) (r : Z) (h' : gmap Z struct_pbuf) : Prop :=
  if decide (p = 0) then len <$> h' !! r = Some (Z.min rem (590 - offset)) else r = p /\ len <$> h' !! p = len <$> h !! p.

Lemma append_first p lst q rem qlen offset h : (p <> 0 -> lst <> q /\ p <> q) -> qlen = Z.min rem (590 - offset) ->
  first_len p rem offset h (if decide (p = 0) then q else p) (append_pbuf p lst q (pool_pbuf q rem qlen offset) h).
Proof.
  intros Hq ->. destruct (append_lookup p lst q (pool_pbuf q rem (Z.min rem (590 - offset)) offset) h) as [Eq Ex]; [intros Hp; by apply Hq|]. unfold first_len.
  destruct (decide (p = 0)) as [Hp|Hp]; [by rewrite Eq|]. split; [done|]. rewrite Ex by (by apply Hq). destruct (h !! p); [|done].
  cbn. by destruct (decide _).
Qed.

(** The loop ends with a chain of the whole length, or with the heap as it was. *)
Lemma pool_loop_spec h0 L0 d0 own total : forall fuel p lst rem offset s l,
  building h0 L0 d0 own total s p lst rem l -> 0 <= rem <= total -> total < 2 ^ 16 -> 0 <= offset <= 54 ->
  rem + offset <= 590 * Z.of_nat fuel -> (0 < fuel)%nat -> (forall x, 0 <= own x) ->
  exists r s', alloc_pool_loop custom_free_function fuel p lst rem offset s = Some (r, s') /\
    (r = 0 /\ heap s' = h0 /\ sound s' own /\ kept L0 d0 (data s') \/
     r <> 0 /\ first_len p rem offset (heap s) r (heap s') /\ exists lst' l', building h0 L0 d0 own total s' r lst' 0 l').
Proof.
  induction fuel as [|fuel IH]; intros p lst rem offset s l Hb Hrem Htot Hoff Hfuel Hpos Hown; [lia|]. cbn [alloc_pool_loop].
  destruct (memp_malloc_run MEMP_PBUF_POOL s) as (q & s1 & E & Ha). rewrite (bind_some _ _ _ _ _ E).
  destruct (Z.eqb_spec q 0) as [->|Hq].
  - destruct (pool_is_empty_run s1) as (s2 & E2 & Eh2 & Ed2 & El2). rewrite (bind_some _ _ _ _ _ E2).
    destruct (allocated_kept _ _ _ _ L0 d0 Ha ltac:(done) (proj1 (bl_live _ _ _ _ _ _ _ _ _ _ Hb)) (proj2 (bl_live _ _ _ _ _ _ _ _ _ _ Hb))) as [_ Hk].
    destruct Ha as (Eh & [(_ & El & _)|[? _]]); [|done].
    assert (sound s2 (granted p own)) as Hs2.
    { destruct (bl_sound _ _ _ _ _ _ _ _ _ _ Hb) as [Hl Hp]. split; rewrite Eh2, Eh; [done|]. intros a c Hc. rewrite El2, El. by apply Hp. }
    destruct (decide (p = 0)) as [->|Hp].
    + cbn [Z.eqb negb when]. exists 0, s2. split; [done|]. left. unfold granted in Hs2. rewrite decide_True in Hs2 by done.
      split_and!; try done; [|by rewrite Ed2]. rewrite Eh2, Eh. apply map_eq. intros x. apply (bl_rest _ _ _ _ _ _ _ _ _ _ Hb).
      pose proof (bl_chain _ _ _ _ _ _ _ _ _ _ Hb) as Hc. destruct l; [apply not_elem_of_nil|]. by destruct Hc as (<- & ? & _).
    + rewrite (proj2 (Z.eqb_neq _ _) Hp). cbn [negb when]. unfold granted in Hs2. rewrite decide_False in Hs2 by done.
      pose proof (bl_chain _ _ _ _ _ _ _ _ _ _ Hb) as Hc. rewrite <- Eh, <- Eh2 in Hc.
      destruct (pbuf_free_spec p l s2 _ Hs2 Hc Hp) as (s3 & n & E3 & Edrop & _ & Ed3 & Hs3).
      { rewrite own_add_eq. specialize (Hown p). lia. }
      rewrite (bind_some _ _ _ tt s3) by (by rewrite (bind_some _ _ _ _ _ E3)). exists 0, s3. split; [done|]. left.
      destruct (drop_refs_all l (heap s2)) as [_ Hall].
      { eapply chain_nodup; [exact (so_links _ _ Hs2)|exact Hc]. }
      { intros x Hx. destruct (bl_new _ _ _ _ _ _ _ _ _ _ Hb x Hx) as (_ & c & Hxc & Hr & _). exists c. by rewrite Eh2, Eh. }
      rewrite Edrop in Hall. cbn [fst] in Hall. split_and!; try done; [|..].
      * apply map_eq. intros x. rewrite Hall. destruct (decide (x ∈ l)) as [Hin|Hnin].
        -- by destruct (bl_new _ _ _ _ _ _ _ _ _ _ Hb x Hin) as [-> _].
        -- rewrite Eh2, Eh. by apply (bl_rest _ _ _ _ _ _ _ _ _ _ Hb).
      * destruct Hs3 as [Hl3 Hp3]. split; [|done]. eapply links_ext; [|exact Hl3]. intros x. unfold own_add. repeat case_decide; lia.
      * by rewrite Ed3, Ed2.
  - rewrite align_size. change PBUF_POOL_BUFSIZE_ALIGNED with 590. change SIZEOF_STRUCT_PBUF with 24. rewrite align_addr.
    rewrite (wrap_small 16 (590 - offset)) by lia. set (qlen := Z.min rem (590 - offset)).
    pose proof (building_add h0 L0 d0 own total s s1 p lst rem l q qlen offset Hb Ha Hq ltac:(lia) ltac:(lia) ltac:(lia) ltac:(lia)) as Hb'.
    cbn zeta in Hb'. set (s2 := put_heap _ s1) in Hb'.
    set (s1' := put_heap (<[q := pool_pbuf q rem qlen offset]> (heap s1)) s1).
    rewrite (bind_some (pbuf_init_alloced_pbuf q (q + 24 + offset) rem qlen (type_bits PBUF_POOL) 0) _ s1 tt s1' eq_refl).
    rewrite (bind_some _ _ s1' tt s2) by (apply (link_last h0 L0 d0 own total s s1 p lst rem l q); [done|apply Ha|];
      by eapply allocated_fresh; [apply Hb|exact Ha|]).
    replace (if p =? 0 then q else p) with (if decide (p = 0) then q else p)
      by (destruct (Z.eqb_spec p 0), (decide (p = 0)); done).
    assert (first_len p rem offset (heap s) (if decide (p = 0) then q else p) (heap s2)) as Hfirst.
    { unfold s2. cbn [put_heap heap]. rewrite (proj1 Ha). apply append_first; [|done]. intros Hp. pose proof (bl_chain _ _ _ _ _ _ _ _ _ _ Hb) as Hc.
      assert (heap s !! q = None) as Hqn by (by eapply allocated_fresh; [apply Hb|exact Ha|]).
      assert (forall x, x ∈ l -> x <> q) as Hne by (intros x Hx ->; destruct (bl_new _ _ _ _ _ _ _ _ _ _ Hb q Hx) as (_ & ? & ? & _); congruence).
      destruct l as [|a l]; [done|]. destruct Hc as (-> & _). split; [|apply Hne; left].
      apply Hne. destruct (bl_last _ _ _ _ _ _ _ _ _ _ Hb) as [?|Hl]; [done|by apply last_Some_elem_of]. }
    rewrite (wrap_small 16 (rem - qlen)) by lia. destruct (Z.ltb_spec 0 (rem - qlen)) as [Hmore|Hdone].
    + destruct (IH _ _ _ 0 _ _ Hb') as (r & s' & E' & Hres); try lia; [done|]. exists r, s'. split; [exact E'|]. destruct Hres as [?|(Hr & Hf & Hex)]; [by left|right].
      split; [done|]. split; [|done]. unfold first_len in *.
      destruct (decide (p = 0)) as [_|Hp]; (rewrite decide_False in Hf by done); destruct Hf as [-> Hf]; [by rewrite Hf|]. split; [done|]. rewrite Hf. apply Hfirst.
    + replace (rem - qlen) with 0 in Hb' by lia. eexists _, s2. split; [reflexivity|]. right.
      split; [by case_decide|]. split; [exact Hfirst|]. by exists q, (l ++ [q]).
Qed.

(** The total of a chain is the sum of its lengths. *)
Lemma chain_total h own p l :
  totals h -> links (graph_of h) own -> chain (graph_of h) p l -> tot_of h p = u16 (sum_len (bufs h l)).
Proof.
  intros Ht Hl. revert p. induction l as [|a l IH]; intros p Hc.
  - cbn in Hc. subst p. pose proof (lk_null _ _ Hl) as H0. unfold graph_of in H0. rewrite lookup_fmap, fmap_None in H0.
    unfold tot_of. by rewrite H0.
  - destruct Hc as (-> & _ & q & r & Hg & Hc). destruct (graph_lookup_inv _ _ _ _ Hg) as (b & Hb & <- & _).
    unfold tot_of, bufs. cbn [omap list_omap]. rewrite Hb. unfold sum_len. cbn [foldr]. rewrite (Ht a b Hb), (IH _ Hc).
    unfold wrap. by rewrite Zplus_mod_idemp_r.
Qed.

Lemma building_totals h0 L0 d0 own total s r lst l :
  building h0 L0 d0 own total s r lst 0 l -> totals h0 -> links (graph_of h0) own -> total < 2 ^ 16 -> totals (heap s).
Proof.
  intros [Hs Hc _ Hnew Hrest Htot _ _] Ht0 Hl0 Hmax x b Hb. pose proof (lk_null _ _ (so_links _ _ Hs)) as H0.
  unfold graph_of in H0. rewrite lookup_fmap, fmap_None in H0. destruct (decide (x ∈ l)) as [Hin|Hnin].
  - destruct (Htot x b Hin Hb) as [E Hr]. destruct (Z.eqb_spec (next b) 0) as [En|_].
    + rewrite En. unfold tot_of. rewrite H0. rewrite wrap_small by lia. done.
    + rewrite wrap_small by lia. done.
  - rewrite Hrest in Hb by done. rewrite (Ht0 x b Hb). do 2 f_equal. unfold tot_of. destruct (decide (next b ∈ l)) as [Hn|Hn].
    + destruct (Hnew _ Hn) as [Hnone _]. destruct (next_ok _ _ Hl0 x _ _ (graph_lookup _ _ _ Hb)) as [E|[[q r'] Hq]].
      * destruct (chain_elem _ _ _ _ Hc Hn) as [? _]. done.
      * destruct (graph_lookup_inv _ _ _ _ Hq) as (c & Hc' & _). congruence.
    + by rewrite Hrest.
Qed.

(** A chain that has been added to the heap [h], with room for [room] bytes in its first pbuf. *)
Record new_chain (h h' : gmap Z struct_pbuf) (r total room : Z) (l : list Z) : Prop := {
  nc_chain : chain (graph_of h') r l;
  nc_new x : x ∈ l -> h !! x = None /\ exists b, h' !! x = Some b /\ ref b = 1 /\ contiguous b;
  nc_rest x : x ∉ l -> h' !! x = h !! x;
  nc_sum : sum_len (bufs h' l) = total;
  nc_first : len <$> h' !! r = Some (Z.min total room);
}.

Lemma pbuf_alloc_pool_valid layer length s own :
  valid s own -> 0 <= length < 2 ^ 16 ->
  exists r s', pbuf_alloc custom_free_function layer length PBUF_POOL s = Some (r, s') /\
    valid s' (granted r own) /\ kept (live (outside s)) (data s) (data s') /\
    (r = 0 /\ heap s' = heap s \/ r <> 0 /\ exists l, new_chain (heap s) (heap s') r length (590 - layer_offset layer) l).
Proof.
  intros [Hs Ht] Hlen. assert (0 <= layer_offset layer <= 54) as Hoff by (by destruct layer).
  destruct (pool_loop_spec (heap s) (live (outside s)) (data s) own length 124 0 0 length (layer_offset layer) s [])
    as (r & s' & E & Hres); try lia; [|apply (lk_own _ _ (so_links _ _ Hs))|].
  { split; try done; [by left|by intros ? ?%elem_of_nil|by intros ? ? ?%elem_of_nil]. }
  exists r, s'. split; [exact E|]. destruct Hres as [(-> & Eh & Hs' & Hk)|(Hr & Hf & lst & l & Hb)].
  - unfold granted. rewrite decide_True by done. split; [split; [done|by rewrite Eh]|]. split; [done|]. by left.
  - split; [split; [apply Hb|]|split; [apply Hb|]].
    + eapply building_totals; [exact Hb|done|apply Hs|lia].
    + right. split; [done|]. exists l. pose proof (bl_sum _ _ _ _ _ _ _ _ _ _ Hb). destruct Hb as [_ ? _ ? ? _ _ _]. by split; [..|lia|].
Qed.

(** *** When there is memory *)

(** The C library grants the next [k] requests for [size] bytes. *)
Fixpoint supplies (size : Z) (k : nat) (h : H) : bool :=
  match k with O => true | S k => let '(p, h) := clib_malloc size h in negb (p =? 0) && supplies size k h end.

(** A request of lwIP for [size] bytes takes 8 more for the size. A packet of [n]
    bytes, its headers included, takes this many buffers of 590 bytes, at least one. *)
Definition lwip_block (size : Z) : Z := size + 8.
Definition pool_count (n : Z) : nat := S (Z.to_nat ((n - 1) / 590)).
Definition pool_supply (layer : pbuf_layer) (length : Z) (h : H) : bool :=
  supplies (lwip_block (24 + 590)) (pool_count (layer_offset layer + length)) h.
(** One pbuf with its data, whose length has 16 bits. *)
Definition ram_supply (layer : pbuf_layer) (length : Z) (h : H) : bool :=
  (layer_offset layer + length <? 2 ^ 16) && supplies (lwip_block (24 + layer_offset layer + length)) 1 h.

Lemma mem_malloc_supply size s r s' :
  0 < size < 2 ^ 32 -> mem_malloc size s = Some (r, s') ->
  clib_malloc (lwip_block size) (outside s) = (r - 8, outside s') /\ r <> 0 /\ r - 8 <> 0 \/
  clib_malloc (lwip_block size) (outside s) = (0, outside s') /\ r = 0.
Proof.
  intros Hs. unfold mem_malloc, call_outside, bind, lwip_block. change MEM_LIBC_STATSHELPER_SIZE with 8. rewrite wrap_small by lia.
  pose proof (malloc_ok (size + 8) (outside s) ltac:(lia)) as Hm. destruct (clib_malloc (size + 8) (outside s)) as [p h'].
  destruct (Z.eqb_spec p 0) as [->|Hp]; intros E; injection E as <- <-; [by right|left].
  destruct Hm as [[? _]|(_ & _ & Hl)]; [done|]. split; [f_equal; lia|].
  assert (live h' !! p = Some (size + 8)) as Hp' by (rewrite Hl; apply lookup_insert_eq). apply live_range in Hp'. lia.
Qed.

Lemma memp_malloc_supply t s r s' :
  memp_malloc t s = Some (r, s') ->
  clib_malloc (lwip_block (memp_size t)) (outside s) = (r - 8, outside s') /\ r <> 0 /\ r - 8 <> 0 \/
  clib_malloc (lwip_block (memp_size t)) (outside s) = (0, outside s') /\ r = 0.
Proof.
  unfold memp_malloc, do_memp_malloc_pool, bind. assert (0 + LWIP_MEM_ALIGN_SIZE (memp_size t) = memp_size t) as -> by (by destruct t).
  destruct (mem_malloc (memp_size t) s) as [[q s1]|] eqn:E; [|done]. intros E'. apply mem_malloc_supply in E; [|by destruct t].
  destruct (Z.eqb_spec q 0) as [->|Hq]; destruct t; unfold with_memp_stats, modify, ret in E'; injection E' as <- <-; rewrite ?Z.add_0_r;
    cbn [outside]; destruct E as [(E & ? & ?)|[E ?]]; first [done | by left | by right].
Qed.

Lemma pool_count_step offset rem : 0 <= offset <= 54 -> 0 <= rem -> 590 < offset + rem ->
  pool_count (offset + rem) = S (pool_count (rem - (590 - offset))).
Proof.
  intros Ho Hr Hm. unfold pool_count. replace (rem - (590 - offset) - 1) with (offset + rem - 1 + (-1) * 590) by lia.
  rewrite Z.div_add by lia. f_equal. rewrite <- Z2Nat.inj_succ; [f_equal; lia|].
  assert (590 / 590 <= (offset + rem - 1) / 590) by (apply Z.div_le_mono; lia). change (590 / 590) with 1 in *. lia.
Qed.

(** The loop ends with NULL exactly when a request fails. *)
Lemma pool_loop_supply : forall fuel p lst rem offset s r s',
  alloc_pool_loop custom_free_function fuel p lst rem offset s = Some (r, s') -> 0 <= rem < 2 ^ 16 -> 0 <= offset <= 54 ->
  supplies (lwip_block (24 + 590)) (pool_count (offset + rem)) (outside s) = negb (r =? 0).
Proof.
  induction fuel as [|fuel IH]; intros p lst rem offset s r s'; [done|]. cbn [alloc_pool_loop]. intros E Hrem Hoff.
  unfold bind at 1 in E. destruct (memp_malloc MEMP_PBUF_POOL s) as [[q s1]|] eqn:Em; [|done]. apply memp_malloc_supply in Em.
  change (memp_size MEMP_PBUF_POOL) with (24 + 590) in Em. unfold pool_count. cbn [supplies].
  destruct Em as [(-> & Hq & Hq8)|[-> ->]]; cycle 1.
  { cbn [Z.eqb negb andb] in *. unfold bind in E. destruct (pbuf_pool_is_empty s1) as [[[] s2]|]; [|done].
    destruct (when _ _ s2) as [[[] s3]|]; [|done]. by injection E as <- _. }
  rewrite (proj2 (Z.eqb_neq _ _) Hq8). rewrite (proj2 (Z.eqb_neq _ _) Hq) in E. cbn [negb andb]. rewrite (align_size offset) in E. change PBUF_POOL_BUFSIZE_ALIGNED with 590 in E.
  rewrite (wrap_small 16 (590 - offset)) in E by lia. set (qlen := Z.min rem (590 - offset)) in *.
  unfold bind at 1 in E. unfold pbuf_init_alloced_pbuf, with_heap, modify in E.
  match type of E with context [Lwip ?h ?d ?o ?a ?b ?c ?e] => set (s2 := Lwip h d o a b c e) in E end.
  unfold bind in E. destruct (when (negb (p =? 0)) (update lst (set_next q)) s2) as [[[] s3]|] eqn:E3; [|done].
  assert (outside s3 = outside s1) as Eo.
  { destruct (negb (p =? 0)); cbn [when] in E3; [|by injection E3 as <-]. unfold update, bind, deref, with_heap, modify in E3.
    destruct (heap s2 !! lst); [|done]. by injection E3 as <-. }
  rewrite (wrap_small 16 (rem - qlen)) in E by lia. destruct (Z.ltb_spec 0 (rem - qlen)) as [Hmore|Hdone].
  - pose proof (IH _ _ _ _ _ _ _ E ltac:(lia) ltac:(lia)) as E'. rewrite Eo, Z.add_0_l in E'. rewrite <- E'.
    pose proof (pool_count_step offset rem) as Hc. unfold pool_count in Hc |- *. injection Hc as ->; [|lia..].
    replace (rem - qlen) with (rem - (590 - offset)) by lia. done.
  - injection E as <- _. replace (Z.to_nat ((offset + rem - 1) / 590)) with O; cycle 1.
    + assert ((offset + rem - 1) / 590 < 1) by (apply Z.div_lt_upper_bound; lia). lia.
    + cbn [supplies]. destruct (Z.eqb_spec p 0) as [_|Hp]; [by rewrite (proj2 (Z.eqb_neq _ _) Hq)|by rewrite (proj2 (Z.eqb_neq _ _) Hp)].
Qed.

Lemma pbuf_alloc_pool_loop layer length :
  pbuf_alloc custom_free_function layer length PBUF_POOL = alloc_pool_loop custom_free_function 124 0 0 length (layer_offset layer).
Proof. unfold pbuf_alloc. reflexivity. Qed.

Lemma pbuf_alloc_pool_supply layer length s r s' :
  0 <= length < 2 ^ 16 -> pbuf_alloc custom_free_function layer length PBUF_POOL s = Some (r, s') ->
  pool_supply layer length (outside s) = negb (r =? 0).
Proof.
  intros Hl E. rewrite pbuf_alloc_pool_loop in E. unfold pool_supply.
  eapply pool_loop_supply; [exact E|exact Hl|by destruct layer].
Qed.

Lemma pbuf_alloc_ram_supply layer length s r s' :
  0 <= length < 2 ^ 16 -> pbuf_alloc custom_free_function layer length PBUF_RAM s = Some (r, s') ->
  ram_supply layer length (outside s) = negb (r =? 0).
Proof.
  intros Hl. unfold pbuf_alloc, ram_supply. rewrite !align_size. assert (0 <= layer_offset layer <= 54) as Hoff by (by destruct layer).
  change SIZEOF_STRUCT_PBUF with 24. destruct (Z.ltb_spec (layer_offset layer + length) (2 ^ 16)) as [Hs|Hs]; cbn [andb].
  - rewrite (wrap_small 16) by lia. rewrite !(proj2 (Z.ltb_ge _ _)) by lia. cbn [orb].
    unfold bind at 1. destruct (mem_malloc _ s) as [[p s1]|] eqn:Em; [|done]. apply mem_malloc_supply in Em; [|lia].
    rewrite Z.add_assoc in Em. cbn [supplies].
    destruct Em as [(-> & Hp & Hp8)|[-> ->]]; [|by intros [= <- _]]. rewrite (proj2 (Z.eqb_neq _ _) Hp), (proj2 (Z.eqb_neq _ _) Hp8).
    intros E. unfold bind, pbuf_init_alloced_pbuf, with_heap, modify, ret in E. injection E as <- _. by rewrite (proj2 (Z.eqb_neq _ _) Hp).
  - rewrite (proj2 (Z.ltb_lt _ length)); [by intros [= <- _]|]. unfold wrap.
    rewrite <- (Z.mod_unique (layer_offset layer + length) (2 ^ 16) 1 (layer_offset layer + length - 2 ^ 16)) by lia. lia.
Qed.
End Heap.
