(* ===== verification/PbufOps.v ===== *)
(** The operations on chains of packet buffers keep the invariant of [PbufRef]:
    concatenation, chaining and dechaining, shrinking, and headers. *)

From Stdlib Require Import ZArith Lia Bool.
From stdpp Require Import base list gmap.
From S2P Require Import Prelude Hw Pbuf PbufRef.

(** The first pbuf of a packet. *)
Definition head_of (g : graph) (p : Z) : Prop := is_Some (g !! p) /\ ~ linked g p.

(** ** Packets do not meet *)

Lemma chain_pred g p l1 x l2 : chain g p (l1 ++ x :: l2) -> l1 = [] /\ x = p \/ exists l c r, l1 = l ++ [c] /\ g !! c = Some (x, r).
Proof.
  intros Hc. destruct (chain_app _ _ _ _ Hc) as (q & (-> & _) & [[-> ->]|(c & r & Hl & Hg)]); [by left|].
  right. apply last_Some in Hl as (l & ->). by exists l, c, r.
Qed.

Lemma heads_apart g own p q l l' x :
  links g own -> ~ linked g p -> ~ linked g q -> chain g p l -> chain g q l' -> x ∈ l -> x ∈ l' -> p = q.
Proof.
  intros Hl Hp Hq Hc Hc' (l1 & l2 & ->)%list_elem_of_split Hx'. remember (length l1) as n eqn:En.
  revert l1 l2 x En Hc Hx'. induction n as [|n IH]; intros l1 l2 x En Hc Hx'.
  - destruct l1; [|done]. destruct Hc as (-> & _). destruct (chain_linked _ _ _ _ Hc' Hx') as [?|?]; [done|done].
  - destruct (chain_pred _ _ _ _ _ Hc) as [[-> _]|(l0 & c & r & -> & Hg)]; [done|].
    apply list_elem_of_split in Hx' as (l1' & l2' & ->). destruct (chain_pred _ _ _ _ _ Hc') as [[_ ->]|(l0' & c' & r' & -> & Hg')].
    + destruct Hq. by exists c, r.
    + assert (x <> 0) as Hx0.
      { destruct (chain_elem _ _ _ x Hc') as [? _]; [apply elem_of_app; right; by left|done]. }
      pose proof (lk_inj _ _ Hl _ _ _ _ _ Hg Hg' Hx0) as <-. rewrite <- app_assoc in Hc. apply (IH l0 (x :: l2) c).
      * rewrite length_app in En. cbn in En. lia.
      * exact Hc.
      * apply elem_of_app. left. apply elem_of_app. right. by left.
Qed.

(** What points into a packet is part of it. *)
Lemma chain_closed g own p l a q r :
  links g own -> ~ linked g p -> chain g p l -> g !! a = Some (q, r) -> q ∈ l -> a ∈ l.
Proof.
  intros Hl Hnl Hc Hg Hin. destruct (chain_elem _ _ _ _ Hc Hin) as [Hq0 _]. apply list_elem_of_split in Hin as (l1 & l2 & ->).
  destruct (chain_pred _ _ _ _ _ Hc) as [[_ ->]|(l0 & c & r0 & -> & Hg0)].
  - destruct Hnl. by exists a, r.
  - pose proof (lk_inj _ _ Hl _ _ _ _ _ Hg0 Hg Hq0) as ->. apply elem_of_app. left. apply elem_of_app. right. by left.
Qed.

(** ** Changing the totals along a chain *)

(** [f] is applied to the pbufs at the addresses [l]. *)
Definition bump (f : struct_pbuf -> struct_pbuf) (l : list Z) (h : gmap Z struct_pbuf) : gmap Z struct_pbuf :=
  foldl (fun h a => alter f a h) h l.

Lemma bump_lookup f l : forall h x, NoDup l -> bump f l h !! x = if decide (x ∈ l) then f <$> h !! x else h !! x.
Proof.
  induction l as [|a l IH]; intros h x Hnd; cbn [bump foldl].
  { by rewrite decide_False by apply not_elem_of_nil. }
  apply NoDup_cons in Hnd as [Ha Hnd]. unfold bump in IH. rewrite (IH _ _ Hnd). destruct (decide (x = a)) as [->|Hne].
  - rewrite decide_False, decide_True by (done || by left). apply lookup_alter_eq.
  - rewrite lookup_alter_ne by done. destruct (decide (x ∈ l)); [by rewrite decide_True by (by right)|].
    by rewrite decide_False by (rewrite elem_of_cons; tauto).
Qed.

(** Changes that leave the pointers and counts alone leave the graph alone. *)
Lemma graph_alter f a h : (forall b, shape (f b) = shape b) -> graph_of (alter f a h) = graph_of h.
Proof.
  intros Hf. apply map_eq. intros x. unfold graph_of. rewrite !lookup_fmap. destruct (decide (x = a)) as [->|Hne].
  - rewrite lookup_alter_eq. destruct (h !! a); cbn; [by rewrite Hf|done].
  - by rewrite lookup_alter_ne.
Qed.

Lemma graph_bump f l : forall h, (forall b, shape (f b) = shape b) -> graph_of (bump f l h) = graph_of h.
Proof.
  induction l as [|a l IH]; intros h Hf; [done|]. unfold bump in *. cbn [foldl]. rewrite IH by done. by apply graph_alter.
Qed.

Section Ops.
Context {H : Type} `{OL : OutsideLaws H} (custom_free_function : Z -> prog (lwip H) unit).
Abbreviation M := (prog (lwip H)).

Lemma update_alter {X} p f (k : unit -> M X) s b :
  heap s !! p = Some b -> bind (update p f) k s = k tt (put_heap (alter f p (heap s)) s).
Proof.
  intros Hb. rewrite (update_run _ _ _ _ _ Hb). do 2 f_equal. apply map_eq. intros x.
  destruct (decide (x = p)) as [->|Hne]; [by rewrite lookup_insert_eq, lookup_alter_eq, Hb|].
  by rewrite lookup_insert_ne, lookup_alter_ne.
Qed.

Lemma update_last p f (s : lwip H) b : heap s !! p = Some b -> update p f s = Some (tt, put_heap (alter f p (heap s)) s).
Proof. intros Hb. pose proof (update_alter p f (fun _ => ret tt) s b Hb) as E. unfold bind, ret in E. by destruct (update p f s) as [[[] s']|]. Qed.

(** Changes that keep the place of the data. *)
Lemma placed_same L a b b' :
  payload b' = payload b -> len b' = len b -> type_internal b' = type_internal b -> flags b' = flags b ->
  placed L a b -> placed L a b'.
Proof.
  intros E1 E2 E3 E4 [H1 H2 H3 H4]. split; unfold contiguous, pbuf_get_allocsrc in *; by rewrite ?E1, ?E2, ?E3, ?E4.
Qed.
Lemma sound_bump f l s own :
  (forall b, shape (f b) = shape b /\ payload (f b) = payload b /\ len (f b) = len b /\ type_internal (f b) = type_internal b /\ flags (f b) = flags b) ->
  NoDup l -> sound s own -> sound (put_heap (bump f l (heap s)) s) own.
Proof.
  intros Hf Hnd [Hl Hpl]. split; cbn [put_heap heap outside].
  - rewrite graph_bump; [done|]. intros b. apply Hf.
  - intros a b. rewrite bump_lookup by done. case_decide; [|apply Hpl]. intros (c & Hc & ->)%fmap_Some.
    destruct (Hf c) as (_ & ? & ? & ? & ?). by apply (placed_same _ _ c); [..|apply Hpl].
Qed.

Lemma contiguous_apart s own a b a' b' :
  valid s own -> heap s !! a = Some b -> heap s !! a' = Some b' -> a <> a' -> contiguous b -> contiguous b' ->
  disjoint (payload b) (len b) (payload b') (len b').
Proof.
  intros Hv Hb Hb' Hne Hc Hc'. destruct (so_placed _ _ (va_sound _ _ Hv) a b Hb) as [(n & Hn & _ & Hin) Hlen _ _].
  destruct (so_placed _ _ (va_sound _ _ Hv) a' b' Hb') as [(n' & Hn' & _ & Hin') Hlen' _ _]. specialize (Hin Hc). specialize (Hin' Hc').
  pose proof (live_apart _ _ _ _ _ Hn Hn' ltac:(lia)) as Hd. unfold disjoint in *. lia.
Qed.

(** ** Concatenation *)

(** The length of the tail is added to a total. *)
Definition longer (c b : struct_pbuf) : struct_pbuf := set_tot_len (u16 (tot_len b + tot_len c)) b.

Lemma alter_insert f p (h : gmap Z struct_pbuf) b : h !! p = Some b -> <[p := f b]> h = alter f p h.
Proof.
  intros Hb. apply map_eq. intros x. destruct (decide (x = p)) as [->|Hne].
  - by rewrite lookup_insert_eq, lookup_alter_eq, Hb.
  - by rewrite lookup_insert_ne, lookup_alter_ne.
Qed.

Lemma cat_loop_run l1 : forall fuel p z t c (s : lwip H),
  chain (graph_of (heap s)) p (l1 ++ [z]) -> heap s !! t = Some c -> t ∉ l1 -> (length l1 < fuel)%nat ->
  cat_loop fuel p t s = Some (z, put_heap (bump (longer c) l1 (heap s)) s).
Proof.
  induction l1 as [|a l1 IH]; intros fuel p z t c s Hc Ht Hnt Hf; (destruct fuel as [|fuel]; [lia|]); cbn [app chain] in Hc.
  - destruct Hc as (-> & _ & q & r & Hg & ->). destruct (graph_lookup_inv _ _ _ _ Hg) as (b & Hb & Hq & _).
    cbn [cat_loop]. rewrite (deref_run _ _ _ _ Hb), Hq. cbn. by destruct s.
  - destruct Hc as (-> & _ & q & r & Hg & Hc). destruct (graph_lookup_inv _ _ _ _ Hg) as (b & Hb & Hq & _).
    apply not_elem_of_cons in Hnt as [Hta Hnt].
    assert (q <> 0) as Hq0 by (intros ->; destruct l1; by destruct Hc as (<- & ? & _)).
    cbn [cat_loop]. rewrite (deref_run _ _ _ _ Hb), Hq, (proj2 (Z.eqb_neq _ _) Hq0), (deref_run _ _ _ _ Ht), (update_run _ _ _ _ _ Hb).
    change (set_tot_len (u16 (tot_len b + tot_len c)) b) with (longer c b). rewrite (alter_insert _ _ _ _ Hb).
    rewrite (IH fuel q z t c); [done|..].
    + cbn [put_heap heap]. by rewrite graph_alter.
    + cbn [put_heap heap]. by rewrite lookup_alter_ne.
    + done.
    + cbn in Hf. lia.
Qed.
Lemma bump_snoc f l z h : bump f (l ++ [z]) h = alter f z (bump f l h).
Proof. unfold bump. by rewrite foldl_app. Qed.

Lemma pbuf_cat_run p l z t c (s : lwip H) own :
  links (graph_of (heap s)) own -> chain (graph_of (heap s)) p (l ++ [z]) -> heap s !! t = Some c -> t ∉ l ++ [z] -> t <> 0 ->
  pbuf_cat p t s = Some (tt, put_heap (alter (set_next t) z (bump (longer c) (l ++ [z]) (heap s))) s).
Proof.
  intros Hl Hc Ht Hnt Ht0. pose proof (chain_nodup _ _ Hl _ _ Hc) as Hnd. pose proof (chain_size _ _ Hl _ _ Hc) as Hsz.
  rewrite graph_size, length_app in Hsz. cbn in Hsz. destruct (chain_elem _ _ _ z Hc) as [Hz0 [[q r] Hz]].
  { apply elem_of_app. right. by left. }
  destruct (graph_lookup_inv _ _ _ _ Hz) as (b & Hb & _). apply not_elem_of_app in Hnt as [Hnt Htz].
  assert (t <> z) as Hne by (intros ->; apply Htz; by left).
  assert (p <> 0) as Hp0 by (destruct l; by destruct Hc as (-> & ? & _)).
  unfold pbuf_cat. rewrite (proj2 (Z.eqb_neq _ _) Hp0), (proj2 (Z.eqb_neq _ _) Ht0). cbn [orb]. unfold walk_fuel, gets.
  rewrite (bind_some _ _ s (S (size (heap s))) s eq_refl).
  rewrite (bind_some _ _ _ _ _ (cat_loop_run l (S (size (heap s))) p z t c s Hc Ht Hnt ltac:(lia))).
  assert (NoDup l) as Hnd' by (by apply NoDup_app in Hnd as (? & _)).
  rewrite (deref_run t _ _ c) by (cbn [put_heap heap]; rewrite bump_lookup, decide_False; done).
  rewrite (update_alter z _ _ _ b) by (cbn [put_heap heap]; rewrite bump_lookup, decide_False by (done || by apply nodup_before in Hnd); done).
  cbn [put_heap heap]. fold (longer c). rewrite <- bump_snoc.
  rewrite (update_last z _ _ (longer c b)); [done|]. cbn [put_heap heap].
  rewrite bump_lookup, decide_True, Hb by (done || (apply elem_of_app; right; by left)). done.
Qed.

Lemma longer_total n m k : u16 (u16 (n + m) + k) = u16 (n + u16 (m + k)).
Proof. unfold wrap. rewrite Zplus_mod_idemp_l, Zplus_mod_idemp_r. f_equal. lia. Qed.

Lemma tot_longer c l h q : NoDup l -> is_Some (h !! q) ->
  tot_of (bump (longer c) l h) q = if decide (q ∈ l) then u16 (tot_of h q + tot_len c) else tot_of h q.
Proof. intros Hnd [b Hb]. unfold tot_of. rewrite bump_lookup, Hb by done. by case_decide. Qed.

Lemma tot_relink z t h q : tot_of (alter (set_next t) z h) q = tot_of h q.
Proof.
  unfold tot_of. destruct (decide (q = z)) as [->|Hne]; [|by rewrite lookup_alter_ne].
  rewrite lookup_alter_eq. by destruct (h !! z).
Qed.

Lemma cat_totals h own p l z t c :
  links (graph_of h) own -> totals h -> chain (graph_of h) p (l ++ [z]) -> ~ linked (graph_of h) p ->
  h !! t = Some c -> t ∉ l ++ [z] -> totals (alter (set_next t) z (bump (longer c) (l ++ [z]) h)).
Proof.
  intros Hl Ht Hc Hnl Hht Hnt. pose proof (chain_nodup _ _ Hl _ _ Hc) as Hnd. set (L := l ++ [z]) in *.
  assert (last L = Some z) as Hlast by apply last_snoc. assert (z ∈ L) as HzL by (by apply last_Some_elem_of).
  assert (h !! 0 = None) as H0.
  { pose proof (lk_null _ _ Hl) as E. unfold graph_of in E. by rewrite lookup_fmap, fmap_None in E. }
  intros a b'. rewrite tot_relink. destruct (decide (a = z)) as [->|Hne].
  - rewrite lookup_alter_eq, bump_lookup, decide_True by done. destruct (h !! z) as [b|] eqn:Hb; [|done].
    intros [= <-]. cbn [set_next longer set_tot_len tot_len len next]. rewrite tot_longer, decide_False by done.
    pose proof (chain_last_null _ _ _ _ _ _ Hc Hlast (graph_lookup _ _ _ Hb)) as Hn. rewrite (Ht z b Hb), Hn.
    unfold tot_of. rewrite H0, Hht, Z.add_0_r. unfold wrap. by rewrite Zplus_mod_idemp_l.
  - rewrite lookup_alter_ne, bump_lookup by done. case_decide as HaL.
    + intros (b & Hb & ->)%fmap_Some. cbn [longer set_tot_len tot_len len next]. rewrite (Ht a b Hb).
      pose proof (graph_lookup _ _ _ Hb) as Hg. destruct (chain_next _ _ _ _ _ _ Hc HaL Hg) as [Hn|Hn].
      { rewrite Hn in Hg. pose proof (chain_end _ _ _ _ _ Hc HaL Hg). congruence. }
      destruct (chain_elem _ _ _ _ Hc Hn) as [_ [[q r] Hq]]. destruct (graph_lookup_inv _ _ _ _ Hq) as (d & Hd & _).
      rewrite tot_longer, decide_True by done. apply longer_total.
    + intros Hb. rewrite (Ht a b' Hb). do 2 f_equal. pose proof (graph_lookup _ _ _ Hb) as Hg.
      destruct (next_ok _ _ Hl _ _ _ Hg) as [->|[[q r] Hq]].
      { unfold tot_of. by rewrite bump_lookup, H0, decide_False by (done || by intros [? _]%(chain_elem _ _ _ _ Hc)). }
      destruct (graph_lookup_inv _ _ _ _ Hq) as (d & Hd & _). rewrite tot_longer by done. rewrite decide_False; [done|].
      intros Hin. apply HaL. by apply (chain_closed _ _ _ _ _ _ _ Hl Hnl Hc Hg).
Qed.
(** The pieces of data of a list of pbufs. *)
Definition parts (h : gmap Z struct_pbuf) (l : list Z) : list (Z * Z) := (fun b => (payload b, len b)) <$> bufs h l.

Lemma parts_app h l l' : parts h (l ++ l') = parts h l ++ parts h l'.
Proof. unfold parts. by rewrite bufs_app, fmap_app. Qed.

Lemma parts_cons h a l b : h !! a = Some b -> parts h (a :: l) = (payload b, len b) :: parts h l.
Proof. intros Hb. unfold parts, bufs. cbn [omap list_omap]. by rewrite Hb. Qed.

Lemma parts_ext h h' l :
  (forall x, x ∈ l -> (fun b => (payload b, len b)) <$> h' !! x = (fun b => (payload b, len b)) <$> h !! x) -> parts h' l = parts h l.
Proof.
  unfold parts, bufs. induction l as [|a l IH]; intros E; [done|]. cbn [omap list_omap].
  pose proof (E a ltac:(by left)) as Ea. specialize (IH ltac:(intros x Hx; apply E; by right)).
  destruct (h' !! a), (h !! a); cbn in Ea; try done. cbn. rewrite IH. by injection Ea as -> ->.
Qed.

Lemma pbuf_cat_valid p t lp lt s own :
  valid s own -> head_of (graph_of (heap s)) p -> head_of (graph_of (heap s)) t -> p <> t -> 0 < own t ->
  chain (graph_of (heap s)) p lp -> chain (graph_of (heap s)) t lt ->
  exists s', pbuf_cat p t s = Some (tt, s') /\ valid s' (own_add t (-1) own) /\
    chain (graph_of (heap s')) p (lp ++ lt) /\ parts (heap s') (lp ++ lt) = parts (heap s) lp ++ parts (heap s) lt /\
    outside s' = outside s /\ data s' = data s /\ (ref <$> heap s' !! t) = (ref <$> heap s !! t) /\ ~ linked (graph_of (heap s')) p.
Proof.
  intros [Hs Htot] [[[q0 r0] Hp] Hpl] [[[q1 r1] Ht] Htl] Hne Ho Hcp Hct. pose proof (so_links _ _ Hs) as Hl.
  assert (t <> 0) as Ht0 by (intros ->; by rewrite (lk_null _ _ Hl) in Ht).
  assert (t ∈ lt) as Htlt by (destruct lt; [done|destruct Hct as (-> & _); by left]).
  assert (forall x, x ∈ lp -> x ∉ lt) as Hap by (intros x Hx Hx'; by apply Hne, (heads_apart _ _ _ _ _ _ x Hl Hpl Htl Hcp Hct)).
  assert (exists l z, lp = l ++ [z]) as (l & z & ->).
  { destruct (exists_last (l := lp)) as (l & z & ->); [|by exists l, z]. intros ->. cbn in Hcp. subst p. by rewrite (lk_null _ _ Hl) in Hp. }
  destruct (graph_lookup_inv _ _ _ _ Ht) as (c & Hc & _). assert (t ∉ l ++ [z]) as Htn by (intros ?; by apply (Hap t)).
  pose proof (chain_nodup _ _ Hl _ _ Hcp) as Hnd. assert (z ∈ l ++ [z]) as Hz by (apply elem_of_app; right; by left).
  destruct (chain_elem _ _ _ z Hcp Hz) as [Hz0 [[q r] Hgz]]. assert (q = 0) as ->.
  { eapply chain_last_null; [exact Hcp|apply last_snoc|exact Hgz]. }
  destruct (graph_lookup_inv _ _ _ _ Hgz) as (b & Hb & Hbn & Hbr).
  eexists. split; [by apply (pbuf_cat_run p l z t c s own)|]. cbn [put_heap heap outside data].
  assert (bump (longer c) (l ++ [z]) (heap s) !! z = Some (longer c b)) as Hbz by (by rewrite bump_lookup, decide_True, Hb).
  assert (graph_of (alter (set_next t) z (bump (longer c) (l ++ [z]) (heap s))) = <[z := (t, r)]> (graph_of (heap s))) as Eg.
  { rewrite <- (alter_insert _ _ _ _ Hbz), graph_insert, graph_bump by done. cbn. by rewrite Hbr. }
  split; [split; [split|]|split; [|split; [|split; [done|split; [done|split]]]]]; cbn [put_heap heap outside].
  - rewrite Eg. apply (links_link _ _ Hl z r t lt); [done|done|done|by apply Hap|done|done].
  - pose proof (so_placed _ _ (sound_bump (longer c) (l ++ [z]) s own ltac:(done) Hnd Hs)) as Hpl'. cbn [put_heap heap outside] in Hpl'.
    intros a b'. destruct (decide (a = z)) as [->|Haz]; [|rewrite lookup_alter_ne by done; apply Hpl'].
    rewrite lookup_alter_eq, Hbz. intros [= <-]. by apply (placed_same _ _ (longer c b)); [..|apply Hpl'].
  - by apply (cat_totals _ own p).
  - rewrite Eg, <- app_assoc. apply (chain_relink _ _ l z [] t r lt); [exact Hcp|by apply nodup_before in Hnd|].
    apply chain_insert; [by apply Hap|done].
  - rewrite parts_app. f_equal; apply parts_ext; intros x Hx.
    + destruct (decide (x = z)) as [->|Hxz]; [by rewrite lookup_alter_eq, Hbz, Hb|].
      rewrite lookup_alter_ne, bump_lookup, decide_True by done. by destruct (heap s !! x).
    + assert (x ∉ l ++ [z]) as Hxl by (intros Hxl; by apply (Hap x)).
      rewrite lookup_alter_ne, bump_lookup, decide_False by (done || by intros ->). done.
  - rewrite lookup_alter_ne, bump_lookup, decide_False by (done || by intros ->). done.
  - rewrite Eg. intros (a & ra & Ha). destruct (decide (a = z)) as [->|Haz].
    + rewrite lookup_insert_eq in Ha. by injection Ha as <- <-.
    + rewrite lookup_insert_ne in Ha by done. apply Hpl. by exists a, ra.
Qed.
Lemma valid_ext s own own' : (forall x, own x = own' x) -> valid s own -> valid s own'.
Proof. intros E [[Hl Hpl] Ht]. split; [|done]. split; [by eapply links_ext|done]. Qed.

Lemma own_add_cancel a k own x : own_add a (- k) (own_add a k own) x = own x.
Proof. unfold own_add. case_decide; lia. Qed.

(** Chaining: the caller keeps its reference to the tail. *)
Lemma pbuf_chain_valid p t lp lt c s own :
  valid s own -> head_of (graph_of (heap s)) p -> head_of (graph_of (heap s)) t -> p <> t -> 0 < own t ->
  heap s !! t = Some c -> ref c < 255 ->
  chain (graph_of (heap s)) p lp -> chain (graph_of (heap s)) t lt ->
  exists s', pbuf_chain p t s = Some (tt, s') /\ valid s' own /\
    chain (graph_of (heap s')) p (lp ++ lt) /\ parts (heap s') (lp ++ lt) = parts (heap s) lp ++ parts (heap s) lt /\
    outside s' = outside s /\ data s' = data s.
Proof.
  intros Hv Hp Ht Hne Ho Hc Hr Hcp Hct.
  destruct (pbuf_cat_valid p t lp lt s own Hv Hp Ht Hne Ho Hcp Hct) as (s1 & E & Hv1 & Hch & Hparts & Eo & Ed & Eref & _).
  rewrite Hc in Eref. cbn in Eref. apply fmap_Some in Eref as (c1 & Hc1 & Er).
  destruct (pbuf_ref_valid t c1 s1 _ Hv1 Hc1 ltac:(lia)) as (s2 & E2 & -> & Hv2).
  eexists. unfold pbuf_chain. rewrite (bind_some _ _ _ _ _ E). split; [exact E2|]. cbn [put_heap heap outside data].
  split; [|split; [|split; [|done]]].
  - eapply valid_ext; [|exact Hv2]. intros x. apply (own_add_cancel t (-1)).
  - rewrite graph_insert. apply (chain_recount _ _ _ _ (next c1) (ref c1)); [by apply graph_lookup|done].
  - rewrite <- Hparts. apply parts_ext. intros x _. destruct (decide (x = t)) as [->|]; [by rewrite lookup_insert_eq, Hc1|by rewrite lookup_insert_ne].
Qed.

(** ** Taking a chain apart *)

Lemma drop_refs_other l x : forall h, x ∉ l -> fst (drop_refs h l) !! x = h !! x.
Proof.
  induction l as [|p l IH]; intros h Hx; cbn [drop_refs]; [done|]. apply not_elem_of_cons in Hx as [Hxp Hx].
  destruct (h !! p) as [b|]; [|done]. destruct (ref b =? 1); [|cbn [fst]; by rewrite lookup_insert_ne].
  specialize (IH (delete p h) Hx). destruct (drop_refs (delete p h) l). cbn [fst] in *. by rewrite IH, lookup_delete_ne.
Qed.

Lemma drop_refs_pos l : forall h, 0 <= snd (drop_refs h l).
Proof.
  induction l as [|p l IH]; intros h; cbn [drop_refs]; [done|]. destruct (h !! p) as [b|]; [|done].
  destruct (ref b =? 1); [|done]. specialize (IH (delete p h)). destruct (drop_refs (delete p h) l). cbn in *. lia.
Qed.

(** The first pbuf is still there just when none was freed. *)
Lemma drop_refs_first p l h b : h !! p = Some b -> p ∉ l ->
  (snd (drop_refs h (p :: l)) = 0 <-> is_Some (fst (drop_refs h (p :: l)) !! p)).
Proof.
  intros Hb Hp. cbn [drop_refs]. rewrite Hb. destruct (ref b =? 1); [|cbn [fst snd]; by rewrite lookup_insert_eq].
  pose proof (drop_refs_pos l (delete p h)) as Hn. pose proof (drop_refs_other l p (delete p h) Hp) as Ho.
  destruct (drop_refs (delete p h) l) as [h' n]. cbn [fst snd] in *. rewrite Ho, lookup_delete_eq.
  split; [lia|by intros [? ?]].
Qed.

(** A pbuf without its successor. *)
Lemma sound_unlink s own p b b' :
  sound s own -> heap s !! p = Some b -> next b <> 0 -> next b' = 0 -> ref b' = ref b -> placed (live (outside s)) p b' ->
  sound (put_heap (<[p := b']> (heap s)) s) (own_add (next b) 1 own).
Proof.
  intros [Hl Hpl] Hb Hn Hn' Hr Hb'. split; cbn [put_heap heap outside].
  - rewrite graph_insert, Hn', Hr. apply (links_unlink _ _ Hl); [by apply graph_lookup|done].
  - intros a c. destruct (decide (a = p)) as [->|Hne]; [rewrite lookup_insert_eq; by intros [= <-]|].
    rewrite lookup_insert_ne by done. apply Hpl.
Qed.

(** The total of a pbuf without a predecessor may change with its length. *)
Lemma totals_insert h own p b b' :
  links (graph_of h) own -> totals h -> h !! p = Some b -> ~ linked (graph_of h) p -> (next b' = 0 \/ next b' = next b) ->
  tot_len b' = u16 (len b' + tot_of h (next b')) -> totals (<[p := b']> h).
Proof.
  intros Hl Ht Hb Hnl Hn Htot. assert (forall q a c, h !! a = Some c -> next c = q -> tot_of (<[p := b']> h) q = tot_of h q) as Hsame.
  { intros q a c Hc <-. unfold tot_of. rewrite lookup_insert_ne; [done|]. intros ->. apply Hnl. exists a, (ref c). by apply graph_lookup. }
  assert (p <> 0) as Hp0 by (intros ->; apply graph_lookup in Hb; by rewrite (lk_null _ _ Hl) in Hb).
  intros a c. destruct (decide (a = p)) as [->|Hne].
  - rewrite lookup_insert_eq. intros [= <-]. rewrite Htot. do 2 f_equal. destruct Hn as [->|Hn].
    + unfold tot_of. by rewrite lookup_insert_ne.
    + symmetry. by apply (Hsame _ p b).
  - rewrite lookup_insert_ne by done. intros Hc. rewrite (Ht a c Hc). do 2 f_equal. symmetry. by apply (Hsame _ a c).
Qed.
(** The total of the successor can be computed from the pbuf. *)
Lemma next_total h own a b : links (graph_of h) own -> totals h -> h !! a = Some b -> 
  u16 (tot_len b - len b) = tot_of h (next b) /\ 0 <= tot_of h (next b) < 2 ^ 16.
Proof.
  intros Hl Ht Hb. assert (0 <= tot_of h (next b) < 2 ^ 16) as Hr.
  { unfold tot_of. destruct (h !! next b) as [c|] eqn:Hc; [|lia]. rewrite (Ht _ _ Hc). by apply wrap_range. }
  split; [|done]. rewrite (Ht a b Hb). unfold wrap. rewrite Zminus_mod_idemp_l.
  rewrite (Z.mod_small _ (2 ^ 16)) by lia. lia.
Qed.

Lemma pbuf_dechain_valid p b lq s own :
  valid s own -> heap s !! p = Some b -> ~ linked (graph_of (heap s)) p -> chain (graph_of (heap s)) (next b) lq ->
  exists s' n, pbuf_dechain custom_free_function p s = Some (if 0 <? u8 n then 0 else next b, s') /\ valid s' own /\
    0 <= n <= Z.of_nat (length lq) /\ heap s' !! p = Some (set_tot_len (len b) (set_next 0 b)) /\
    (next b <> 0 -> n = 0 <-> is_Some (heap s' !! next b)) /\ data s' = data s /\
    drop_refs (<[p := set_tot_len (len b) (set_next 0 b)]> (heap s)) lq = (heap s', n).
Proof.
  intros [Hs Ht] Hb Hnl Hc. pose proof (so_links _ _ Hs) as Hl. pose proof (pbuf_not_null _ _ _ _ Hs Hb) as Hp0.
  pose proof (graph_lookup _ _ _ Hb) as Hg. pose proof (so_placed _ _ Hs p b Hb) as Hpl. unfold pbuf_dechain. rewrite (deref_run _ _ _ _ Hb).
  assert (u16 (len b + 0) = len b) as Elen by (rewrite Z.add_0_r, wrap_small; [done|apply Hpl]).
  assert (tot_of (heap s) 0 = 0) as E0.
  { pose proof (lk_null _ _ Hl) as E. unfold graph_of in E. rewrite lookup_fmap, fmap_None in E. unfold tot_of. by rewrite E. }
  destruct (next_total _ _ _ _ Hl Ht Hb) as [Eq _]. destruct (Z.eqb_spec (next b) 0) as [E|Hq]; cbn [negb].
  - exists s, 0. rewrite bind_ret. rewrite E in *. assert (b = set_tot_len (len b) (set_next 0 b)) as Eb.
    { assert (tot_len b = len b) as <- by (rewrite (Ht p b Hb), E, E0; done). destruct b; cbn in *; by rewrite E. }
    assert (lq = []) as -> by (destruct lq; [done|by destruct Hc as (<- & ? & _)]).
    rewrite <- Eb. split_and!; try done. cbn [drop_refs]. by rewrite insert_id.
  - destruct (next_ok _ _ Hl _ _ _ Hg) as [?|[[q r] Hgq]]; [done|]. destruct (graph_lookup_inv _ _ _ _ Hgq) as (c & Hhc & _).
    assert (p ∉ lq) as Hplq by (destruct (lk_chain _ _ Hl _ _ _ Hg) as (l' & Hc' & Hin); by rewrite (chain_det _ _ _ _ Hc Hc')).
    assert (exists lq', lq = next b :: lq' /\ next b ∉ lq') as (lq' & -> & Hnq).
    { destruct (chain_from _ _ Hl (next b) ltac:(by rewrite Hgq)) as (l' & Hc' & Hnin). exists l'. by rewrite (chain_det _ _ _ _ Hc Hc'). }
    assert (next b <> p) as Hqp by (intros E; apply Hplq; rewrite E; by left).
    set (b' := set_tot_len (len b) (set_next 0 b)). set (s1 := put_heap (<[p := b']> (heap s)) s).
    assert (valid s1 (own_add (next b) 1 own)) as Hv1.
    { split; [by apply sound_unlink; [..|by apply (placed_same _ _ b)]|]. cbn [s1 put_heap heap].
      apply (totals_insert _ own _ b); [done..|by left|]. cbn [b' set_tot_len set_next tot_len len next]. by rewrite E0. }
    destruct (pbuf_free_valid custom_free_function (next b) (next b :: lq') s1 _ Hv1) as (s' & n & E & Ed & Hn & Hd & Hv'); [|done|..].
    + cbn [s1 put_heap heap]. rewrite graph_insert. by apply chain_insert.
    + rewrite own_add_eq. pose proof (lk_own _ _ Hl (next b)). lia.
    + exists s', n. split; [|split; [eapply valid_ext; [|exact Hv']; intros x; apply own_add_cancel|split; [exact Hn|split; [|split; [|done]]]]].
      * erewrite bind_some; [reflexivity|]. rewrite (update_run _ _ _ _ _ Hhc). 
        rewrite (update_run p _ _ _ b) by (cbn [put_heap heap]; by rewrite lookup_insert_ne).
        rewrite (update_run p _ _ _ (set_next 0 b)) by (cbn [put_heap heap]; by rewrite lookup_insert_eq).
        rewrite <- E. f_equal. unfold s1, put_heap. cbn [heap data outside mem_stats pbuf_stats pool_stats ooseq_pending]. f_equal. rewrite insert_insert_eq.
        f_equal. rewrite Eq. apply insert_id. rewrite Hhc. unfold tot_of. rewrite Hhc. by destruct c.
      * pose proof (drop_refs_other (next b :: lq') p (heap s1) Hplq) as E1. rewrite Ed in E1. cbn [fst] in E1. rewrite E1.
        cbn [s1 put_heap heap]. apply lookup_insert_eq.
      * pose proof (drop_refs_first (next b) lq' (heap s1) c) as E1. rewrite Ed in E1. intros _. apply E1; [|done].
        cbn [s1 put_heap heap]. by rewrite lookup_insert_ne.
Qed.
(** ** Headers *)

(** The data begins [d] bytes later. *)
Definition moved (d : Z) (b : struct_pbuf) : struct_pbuf :=
  set_tot_len (u16 (tot_len b - d)) (set_len (u16 (len b - d)) (set_payload (payload b + d) b)).

(** Changing the first pbuf of a packet, apart from its pointer and its count. *)
Lemma valid_insert s own p b b' :
  valid s own -> heap s !! p = Some b -> ~ linked (graph_of (heap s)) p -> shape b' = shape b ->
  tot_len b' = u16 (len b' + tot_of (heap s) (next b)) -> placed (live (outside s)) p b' ->
  valid (put_heap (<[p := b']> (heap s)) s) own.
Proof.
  intros [[Hl Hpl] Ht] Hb Hnl Hs Htot Hb'. injection Hs as Hn Hr. split; [split|]; cbn [put_heap heap outside].
  - rewrite (graph_same _ _ b); [done|done|]. unfold shape. by rewrite Hn, Hr.
  - intros a c. destruct (decide (a = p)) as [->|Hne]; [rewrite lookup_insert_eq; by intros [= <-]|].
    rewrite lookup_insert_ne by done. apply Hpl.
  - apply (totals_insert _ own _ b); [done..|by right|]. by rewrite Hn.
Qed.

Lemma moved_total h p b d : totals h -> h !! p = Some b -> tot_len (moved d b) = u16 (len (moved d b) + tot_of h (next b)).
Proof.
  intros Ht Hb. cbn [moved set_tot_len set_len set_payload tot_len len]. rewrite (Ht p b Hb). unfold wrap.
  rewrite Zminus_mod_idemp_l, Zplus_mod_idemp_l. f_equal. lia.
Qed.

Lemma update3_run p f1 f2 f3 (s : lwip H) b : heap s !! p = Some b ->
  bind (update p f1) (fun _ => bind (update p f2) (fun _ => bind (update p f3) (fun _ => ret 0))) (s : lwip H) =
  Some (0, put_heap (<[p := f3 (f2 (f1 b))]> (heap s)) s).
Proof.
  intros Hb. rewrite (update_run _ _ _ _ _ Hb). rewrite (update_run p _ _ _ (f1 b)) by apply lookup_insert_eq.
  rewrite (update_run p _ _ _ (f2 (f1 b))) by apply lookup_insert_eq. cbn [put_heap heap]. by rewrite !insert_insert_eq.
Qed.

(** A header is added if there is room for it, or nothing is changed. *)
Lemma pbuf_add_header_valid p n force b s own :
  valid s own -> heap s !! p = Some b -> ~ linked (graph_of (heap s)) p -> 0 < n <= 0xffff ->
  let fits := (n + tot_len b <? 2 ^ 16) && (if decide (contiguous b) then p + 24 <=? payload b - n else negb (force =? 0)) in
  pbuf_add_header_impl p n force s =
    Some (if fits then (0, put_heap (<[p := moved (- n) b]> (heap s)) s) else (1, s)) /\
  (fits = true -> valid (put_heap (<[p := moved (- n) b]> (heap s)) s) own).
Proof.
  intros Hv Hb Hnl Hn fits. pose proof (va_sound _ _ Hv) as Hs. pose proof (va_totals _ _ Hv) as Ht.
  pose proof (pbuf_not_null _ _ _ _ Hs Hb) as Hp. pose proof (so_placed _ _ Hs p b Hb) as Hpl.
  assert (0 <= tot_len b < 2 ^ 16) as Hr by (rewrite (Ht p b Hb); by apply wrap_range). split.
  - unfold pbuf_add_header_impl. rewrite (proj2 (Z.eqb_neq n 0)), (proj2 (Z.eqb_neq _ _) Hp), (proj2 (Z.ltb_ge _ n)) by lia. cbn [orb].
    rewrite (wrap_small 16 n) by lia. rewrite (deref_run _ _ _ _ Hb).
    assert ((u16 (n + tot_len b) <? n) = negb (n + tot_len b <? 2 ^ 16)) as ->.
    { destruct (Z.ltb_spec (n + tot_len b) (2 ^ 16)) as [Hlt|Hge]; [rewrite wrap_small; [|lia]; apply Z.ltb_ge; lia|].
      apply Z.ltb_lt. unfold wrap. rewrite <- (Z.mod_unique _ (2 ^ 16) 1 (n + tot_len b - 2 ^ 16)); lia. }
    unfold fits. destruct (n + tot_len b <? 2 ^ 16); cbn [negb andb]; [|done]. unfold contiguous, SIZEOF_STRUCT_PBUF.
    destruct (Z.eqb_spec (Z.land (type_internal b) PBUF_TYPE_FLAG_STRUCT_DATA_CONTIGUOUS) 0) as [E|E]; cbn [negb].
    + rewrite decide_False by (intros Hx; by apply Hx). destruct (force =? 0); cbn [negb]; [done|]. rewrite (update3_run _ _ _ _ _ b Hb).
      unfold moved. cbn [set_payload set_len set_tot_len payload len tot_len]. by rewrite !Z.sub_opp_r.
    + rewrite decide_True by done. change (LWIP_MEM_ALIGN_SIZE sizeof_pbuf) with 24. rewrite Z.ltb_antisym. destruct (p + 24 <=? payload b - n); cbn [negb]; [|done].
      rewrite (update3_run _ _ _ _ _ b Hb). unfold moved. cbn [set_payload set_len set_tot_len payload len tot_len]. by rewrite !Z.sub_opp_r.
  - intros [_ Hfit]%andb_prop. apply (valid_insert _ _ _ b); [done..|by apply (moved_total _ p)|]. destruct Hpl as [(k & Hk & Hk32 & Hin) H2 H3 H4].
    assert (0 <= u16 (len b - - n) <= len b + n) as Hu.
    { rewrite Z.sub_opp_r. unfold wrap. split; [by apply Z.mod_pos_bound|]. apply Z.mod_le; lia. }
    split; [|cbn; by apply wrap_range|done|done]. exists k. split; [done|]. split; [done|]. intros Hc. specialize (Hin Hc).
    rewrite decide_True in Hfit by exact Hc. apply Z.leb_le in Hfit. cbn [moved set_tot_len set_len set_payload payload len]. lia.
Qed.

(** A header is removed if the first pbuf has it. *)
Lemma pbuf_remove_header_valid p n b s own :
  valid s own -> heap s !! p = Some b -> ~ linked (graph_of (heap s)) p -> 0 < n <= 0xffff ->
  pbuf_remove_header p n s = Some (if n <=? len b then (0, put_heap (<[p := moved n b]> (heap s)) s) else (1, s)) /\
  (n <= len b -> valid (put_heap (<[p := moved n b]> (heap s)) s) own).
Proof.
  intros Hv Hb Hnl Hn. pose proof (va_sound _ _ Hv) as Hs. pose proof (va_totals _ _ Hv) as Ht.
  pose proof (pbuf_not_null _ _ _ _ Hs Hb) as Hp. pose proof (so_placed _ _ Hs p b Hb) as Hpl. split.
  - unfold pbuf_remove_header. rewrite (proj2 (Z.eqb_neq n 0)), (proj2 (Z.eqb_neq _ _) Hp), (proj2 (Z.ltb_ge _ n)) by lia. cbn [orb].
    rewrite (wrap_small 16 n) by lia. rewrite (deref_run _ _ _ _ Hb). destruct (n <=? len b); cbn [negb]; [|done].
    by rewrite (update3_run _ _ _ _ _ b Hb).
  - intros Hfit. apply (valid_insert _ _ _ b); [done..|by apply (moved_total _ p)|]. destruct Hpl as [(k & Hk & Hk32 & Hin) H2 H3 H4].
    assert (u16 (len b - n) = len b - n) as Hu by (apply wrap_small; lia).
    split; [|cbn; by apply wrap_range|done|done]. exists k. split; [done|]. split; [done|]. intros Hc. specialize (Hin Hc).
    cbn [moved set_tot_len set_len set_payload payload len]. lia.
Qed.
(** ** Shrinking *)

(** Two states that differ in the pbuf at [z], of which [c] is the first one's. *)
Definition alike (z : Z) (c : struct_pbuf) (s t : lwip H) : Prop :=
  heap s = <[z := c]> (heap t) /\ outside s = outside t /\ data s = data t.

(** What the loop of [pbuf_free] needs of each pbuf. *)
Definition steady (h : gmap Z struct_pbuf) : Prop :=
  forall x b, h !! x = Some b -> (exists L, placed L x b) /\ 1 <= ref b < 256.

Lemma sound_steady s own : sound s own -> steady (heap s).
Proof.
  intros [Hl Hpl] x b Hb. split; [eauto|]. by destruct (lk_ref _ _ Hl x _ _ (graph_lookup _ _ _ Hb)).
Qed.

(** Freeing does not look at pbufs that are not in the chain. *)
Lemma free_loop_alike z c l : forall fuel p count s t n t',
  steady (heap t) -> chain (graph_of (heap t)) p l -> NoDup l -> z ∉ l -> alike z c s t ->
  pbuf_free_loop custom_free_function fuel p count t = Some (n, t') ->
  exists s', pbuf_free_loop custom_free_function fuel p count s = Some (n, s') /\ alike z c s' t'.
Proof.
  induction l as [|p' l IH]; intros fuel p count s t n t' Hst Hc Hnd Hz Ha E.
  { cbn in Hc. subst p. destruct fuel; cbn [pbuf_free_loop Z.eqb] in *; injection E as <- <-; eauto. }
  destruct Hc as (<- & Hp & q & r & Hg & Hc). destruct (graph_lookup_inv _ _ _ _ Hg) as (b & Hb & <- & <-).
  apply not_elem_of_cons in Hz as [Hzp Hz]. apply NoDup_cons in Hnd as [Hpl Hnd]. destruct (Hst p b Hb) as [[L HL] Hr].
  destruct Ha as (Eh & Eo & Ed). assert (heap s !! p = Some b) as Hb' by (by rewrite Eh, lookup_insert_ne).
  destruct fuel as [|fuel]; [cbn [pbuf_free_loop] in E; by rewrite (proj2 (Z.eqb_neq _ _) Hp) in E|].
  destruct (decide (ref b = 1)) as [E1|E1].
  - destruct (free_step_last custom_free_function L fuel p count t b Hp Hb HL E1) as (t1 & Et & Ht1 & Ho1 & Hd1).
    destruct (free_step_last custom_free_function L fuel p count s b Hp Hb' HL E1) as (s1 & Es & Hs1 & Ho1' & Hd1').
    rewrite Et in E. rewrite Es. apply (IH fuel (next b) _ s1 t1); try done.
    + intros x d. rewrite Ht1. intros [_ Hd]%lookup_delete_Some. by apply Hst.
    + rewrite Ht1, graph_delete. by apply chain_delete.
    + split; [|split; congruence]. by rewrite Hs1, Ht1, Eh, delete_insert_ne.
  - rewrite (free_step_more _ fuel p count t b) in E by (done || lia). injection E as <- <-.
    rewrite (free_step_more _ fuel p count s b) by (done || lia). eexists. split; [done|]. split; [|done]. cbn [put_heap heap].
    rewrite Eh. by apply insert_insert_ne.
Qed.

Lemma pbuf_free_alike z c d l p s t n t' own :
  sound t own -> chain (graph_of (heap t)) p l -> p <> 0 -> z ∉ l -> heap t !! z = Some d -> alike z c s t ->
  pbuf_free custom_free_function p t = Some (n, t') ->
  exists s', pbuf_free custom_free_function p s = Some (n, s') /\ alike z c s' t'.
Proof.
  intros Hs Hc Hp Hz Hd Ha. unfold pbuf_free. rewrite (proj2 (Z.eqb_neq _ _) Hp). unfold walk_fuel, gets.
  rewrite (bind_some _ _ t (S (size (heap t))) t eq_refl), (bind_some _ _ s (S (size (heap s))) s eq_refl). intros E.
  assert (size (heap s) = size (heap t)) as ->.
  { destruct Ha as (-> & _). rewrite map_size_insert, Hd. done. }
  by apply (free_loop_alike z c l _ _ _ s t n t' (sound_steady _ _ Hs) Hc (chain_nodup _ _ (so_links _ _ Hs) _ _ Hc) Hz Ha).
Qed.

Definition shorter (k : Z) (b : struct_pbuf) : struct_pbuf := set_tot_len (u16 (tot_len b - k)) b.

(** The pbuf in which the new end is. *)
Lemma realloc_loop_run l : forall fuel q rem k (s : lwip H),
  chain (graph_of (heap s)) q l -> NoDup l -> l <> [] -> (length l <= fuel)%nat -> steady (heap s) ->
  0 <= rem <= sum_len (bufs (heap s) l) -> rem < 2 ^ 16 ->
  exists l1 z l2 b, l = l1 ++ z :: l2 /\ heap s !! z = Some b /\
    realloc_loop fuel q rem k s = Some ((z, rem - sum_len (bufs (heap s) l1)), put_heap (bump (shorter k) l1 (heap s)) s) /\
    0 <= rem - sum_len (bufs (heap s) l1) <= len b /\ (0 < rem -> 0 < rem - sum_len (bufs (heap s) l1)).
Proof.
  induction l as [|a l IH]; intros fuel q rem k s Hc Hnd Hl Hf Hst Hrem Hr16; [done|]. destruct fuel as [|fuel]; [cbn in Hf; lia|].
  destruct Hc as (-> & Ha & q' & r & Hg & Hc). destruct (graph_lookup_inv _ _ _ _ Hg) as (b & Hb & <- & <-).
  apply NoDup_cons in Hnd as [Hal Hnd]. cbn [realloc_loop]. rewrite (deref_run _ _ _ _ Hb).
  cbn [bufs omap list_omap] in Hrem. rewrite Hb in Hrem. cbn [sum_len foldr] in Hrem. fold (bufs (heap s) l) (sum_len (bufs (heap s) l)) in Hrem.
  destruct (Hst a b Hb) as [[L [_ Hlen _ _]] _]. destruct (Z.ltb_spec (len b) rem) as [Hlt|Hge].
  - rewrite (update_run _ _ _ _ _ Hb). change (set_tot_len (u16 (tot_len b - k)) b) with (shorter k b). rewrite (alter_insert _ _ _ _ Hb).
    rewrite (wrap_small 16 (rem - len b)) by lia.
    assert (forall x, len <$> alter (shorter k) a (heap s) !! x = len <$> heap s !! x) as Hsame.
    { intros x. destruct (decide (x = a)) as [->|]; [by rewrite lookup_alter_eq, Hb|by rewrite lookup_alter_ne]. }
    destruct (IH fuel (next b) (rem - len b) k (put_heap (alter (shorter k) a (heap s)) s)) as (l1 & z & l2 & d & El & Hz & E & Hbound & Hpos); cbn [put_heap heap] in *.
    + by rewrite graph_alter.
    + done.
    + intros ->. cbn in Hrem. lia.
    + cbn in Hf. lia.
    + intros x d. destruct (decide (x = a)) as [->|Hne]; [|rewrite lookup_alter_ne by done; apply Hst].
      rewrite lookup_alter_eq, Hb. intros [= <-]. destruct (Hst a b Hb) as [[L' HL] Hr]. split; [|done]. exists L'. by apply (placed_same _ _ b).
    + rewrite (sum_len_ext (heap s)) by (intros x _; apply Hsame). lia.
    + lia.
    + rewrite (sum_len_ext (heap s)) in E, Hbound, Hpos by (intros x _; apply Hsame).
      assert (z <> a) as Hza by (intros ->; apply Hal; rewrite El; apply elem_of_app; right; by left). rewrite lookup_alter_ne in Hz by done.
      exists (a :: l1), z, l2, d. cbn [app bufs omap list_omap]. rewrite Hb. cbn [sum_len foldr]. fold (bufs (heap s) l1) (sum_len (bufs (heap s) l1)).
      split; [by rewrite El|]. split; [done|]. rewrite E. split; [do 3 f_equal; lia|lia].
  - exists [], a, l, b. cbn. rewrite Z.sub_0_r. split; [done|]. split; [done|]. split; [by destruct s|lia].
Qed.
(** The chain ends at [z], the totals before it are smaller. *)
Definition cut (l1 : list Z) (z rem k : Z) (b : struct_pbuf) (h : gmap Z struct_pbuf) : gmap Z struct_pbuf :=
  <[z := set_next 0 (set_tot_len rem (set_len rem b))]> (bump (shorter k) l1 h).

Section Cut.
Context (h : gmap Z struct_pbuf) (own : owners) (p : Z) (l1 : list Z) (z : Z) (l2 : list Z) (b : struct_pbuf) (new_len : Z).
Context (Hl : links (graph_of h) own) (Ht : totals h) (Hc : chain (graph_of h) p (l1 ++ z :: l2)) (Hnl : ~ linked (graph_of h) p).
Context (Hb : h !! z = Some b).
Let rem := new_len - sum_len (bufs h l1).
Let k := tot_of h p - new_len.
Context (Hrem : 0 <= rem < 2 ^ 16).

Lemma cut_nodup : NoDup l1 /\ (z ∉ l1) /\ (forall x, x ∈ l2 -> x <> z /\ x ∉ l1) /\ h !! 0 = None.
Proof.
  pose proof (chain_nodup _ _ Hl _ _ Hc) as (H1 & H2 & (H3 & _)%NoDup_cons)%NoDup_app. split; [done|]. split; [intros Hz; by apply (H2 z Hz); left|].
  split; [intros x Hx; split; [congruence|intros Hx1; apply (H2 x Hx1); by right]|].
  pose proof (lk_null _ _ Hl) as E. unfold graph_of in E. by rewrite lookup_fmap, fmap_None in E.
Qed.

Lemma cut_rem : rem = u16 (tot_of h z - k).
Proof.
  destruct (chain_app _ _ _ _ Hc) as (q & Hq & _). assert (q = z) as -> by apply Hq.
  unfold k. rewrite (chain_total h own p _ Ht Hl Hc), (chain_total h own z _ Ht Hl Hq), bufs_app, sum_len_app.
  rewrite <- (wrap_small 16 rem Hrem). unfold rem, wrap. rewrite Zminus_mod_idemp_l.
  set (A := sum_len (bufs h l1)). set (B := sum_len (bufs h (z :: l2))).
  rewrite <- (Zminus_mod_idemp_r B). rewrite <- (Zminus_mod_idemp_l _ new_len). rewrite Z.mod_mod by lia.
  rewrite Zminus_mod_idemp_l, Zminus_mod_idemp_r. f_equal. lia.
Qed.

Lemma cut_tot q : is_Some (h !! q) -> tot_of (cut l1 z rem k b h) q = if decide (q ∈ l1 ++ [z]) then u16 (tot_of h q - k) else tot_of h q.
Proof.
  intros [c Hq]. destruct cut_nodup as (Hnd & Hz & _ & _). unfold cut. destruct (decide (q = z)) as [->|Hne].
  - rewrite decide_True by (apply elem_of_app; right; by left). rewrite <- cut_rem. unfold tot_of. by rewrite lookup_insert_eq.
  - unfold tot_of. rewrite lookup_insert_ne, bump_lookup, Hq by done. destruct (decide (q ∈ l1)) as [Hin|Hnin].
    + by rewrite decide_True by (apply elem_of_app; by left).
    + rewrite decide_False; [done|]. by intros [?|?%list_elem_of_singleton]%elem_of_app.
Qed.

Lemma cut_totals : totals (cut l1 z rem k b h).
Proof.
  destruct cut_nodup as (Hnd & Hz & Hl2 & H0). assert (z <> 0) as Hz0 by (intros ->; congruence). intros a c. unfold cut at 1. destruct (decide (a = z)) as [->|Hne].
  { rewrite lookup_insert_eq. intros [= <-]. cbn [set_next set_tot_len set_len tot_len len next]. unfold tot_of, cut.
    assert (0 ∉ l1) as H0' by (intros Hin; destruct (chain_elem _ _ _ 0 Hc); [apply elem_of_app; by left|done]).
    rewrite lookup_insert_ne, bump_lookup, decide_False, H0, Z.add_0_r by done. by rewrite wrap_small. }
  rewrite lookup_insert_ne, bump_lookup by done. case_decide as Ha.
  - intros (d & Hd & ->)%fmap_Some. cbn [shorter set_tot_len tot_len len next]. pose proof (graph_lookup _ _ _ Hd) as Hg.
    assert (next d ∈ l1 ++ [z]) as Hn.
    { apply list_elem_of_split in Ha as (m1 & m2 & ->). rewrite <- app_assoc in Hc. destruct (chain_app _ _ _ _ Hc) as (q & Hq & _).
      destruct Hq as (-> & _ & q' & r' & Hg' & Hq'). rewrite Hg in Hg'. injection Hg' as <- <-. rewrite <- app_assoc. apply elem_of_app. right. right.
      destruct m2; destruct Hq' as (-> & _); by left. }
    assert (is_Some (h !! next d)) as Hs.
    { destruct (chain_elem _ _ _ (next d) Hc) as [_ [[q r] Hq]]; [|by destruct (graph_lookup_inv _ _ _ _ Hq) as (e & He & _)].
      apply elem_of_app in Hn as [?|Hn]; apply elem_of_app; [by left|right]. apply list_elem_of_singleton in Hn. rewrite Hn. by left. }
    rewrite (cut_tot _ Hs), decide_True by done. rewrite (Ht a d Hd). unfold wrap. rewrite Zminus_mod_idemp_l, Zplus_mod_idemp_r. f_equal. lia.
  - intros Hd. rewrite (Ht a c Hd). do 2 f_equal. pose proof (graph_lookup _ _ _ Hd) as Hg. destruct (next_ok _ _ Hl _ _ _ Hg) as [E|[[q r] Hq]].
    { rewrite E. unfold tot_of, cut. assert (0 ∉ l1) as H0' by (intros Hin; destruct (chain_elem _ _ _ 0 Hc); [apply elem_of_app; by left|done]).
      by rewrite lookup_insert_ne, bump_lookup, decide_False. }
    destruct (graph_lookup_inv _ _ _ _ Hq) as (e & He & _). rewrite cut_tot by done. rewrite decide_False; [done|]. intros Hn.
    assert (a ∈ l1 ++ z :: l2) as Hin.
    { apply (chain_closed _ _ _ _ _ _ _ Hl Hnl Hc Hg). apply elem_of_app in Hn as [?|Hn]; apply elem_of_app; [by left|right].
      apply list_elem_of_singleton in Hn. rewrite Hn. by left. }
    assert (a ∈ l2) as Ha2 by (apply elem_of_app in Hin as [?|[?|?]%elem_of_cons]; done).
    destruct (chain_app _ _ _ _ Hc) as (q' & (-> & _ & q2 & r2 & _ & Hc2) & _).
    destruct (chain_next _ _ _ _ _ _ Hc2 Ha2 Hg) as [Hn0|Hn2].
    + rewrite Hn0 in He. congruence.
    + destruct (Hl2 _ Hn2). by apply elem_of_app in Hn as [?|?%list_elem_of_singleton].
Qed.
End Cut.
Lemma graph_cut l1 z rem k b h : h !! z = Some b -> graph_of (cut l1 z rem k b h) = <[z := (0, ref b)]> (graph_of h).
Proof. intros Hb. unfold cut. by rewrite graph_insert, graph_bump. Qed.

Lemma cut_valid p l1 z l2 b new_len s own :
  valid s own -> chain (graph_of (heap s)) p (l1 ++ z :: l2) -> ~ linked (graph_of (heap s)) p -> heap s !! z = Some b ->
  0 <= new_len - sum_len (bufs (heap s) l1) <= len b ->
  valid (put_heap (cut l1 z (new_len - sum_len (bufs (heap s) l1)) (tot_of (heap s) p - new_len) b (heap s)) s) (granted (next b) own).
Proof.
  intros [[Hl Hpl] Ht] Hc Hnl Hb Hrem. destruct (cut_nodup _ own p l1 z l2 Hl Hc) as (Hnd & Hz & _ & _).
  pose proof (Hpl z b Hb) as [(n & Hn & Hn32 & Hin) H2 H3 H4]. split; [split|]; cbn [put_heap heap outside].
  - rewrite (graph_cut _ _ _ _ _ _ Hb). unfold granted. case_decide as E.
    + rewrite insert_id; [done|]. rewrite <- E. by apply graph_lookup.
    + apply (links_unlink _ _ Hl); [by apply graph_lookup|done].
  - intros a c. unfold cut. destruct (decide (a = z)) as [->|Hne].
    + rewrite lookup_insert_eq. intros [= <-]. split; [|cbn; lia|done|done]. exists n. split; [done|]. split; [done|]. cbn. intros Hct. specialize (Hin Hct). lia.
    + rewrite lookup_insert_ne, bump_lookup by done. case_decide; [|apply Hpl]. intros (d & Hd & ->)%fmap_Some.
      by apply (placed_same _ _ d); [..|apply Hpl].
  - apply (cut_totals _ own p l1 z l2 b new_len Hl Ht Hc Hnl Hb). lia.
Qed.

Lemma chain_same g g' l : forall p, (forall x, x ∈ l -> g' !! x = g !! x) -> chain g p l -> chain g' p l.
Proof.
  induction l as [|a l IH]; intros p E; [done|]. intros (-> & Ha & q & r & Hg & Hc). split; [done|]. split; [done|]. exists q, r.
  rewrite E by (by left). split; [done|]. apply IH; [|done]. intros x Hx. apply E. by right.
Qed.

Lemma graph_same_at h h' x : h' !! x = h !! x -> graph_of h' !! x = graph_of h !! x.
Proof. intros E. unfold graph_of. by rewrite !lookup_fmap, E. Qed.

Lemma valid_state s s' own : heap s' = heap s -> outside s' = outside s -> valid s own -> valid s' own.
Proof. intros Eh Eo [[Hl Hpl] Ht]. split; [split|]; rewrite ?Eh, ?Eo; done. Qed.

(** The end of [pbuf_realloc]: the successors of the new last pbuf are freed while it
    still points to them. *)
Lemma realloc_tail z c l2 t own :
  valid t (granted (next c) own) -> 0 <= own (next c) -> heap t !! z = Some (set_next 0 c) -> chain (graph_of (heap t)) (next c) l2 -> z ∉ l2 ->
  exists s', (let* b := deref z in
    let* _ := when (negb (next b =? 0)) (let* _ := pbuf_free custom_free_function (next b) in ret tt) in
    update z (set_next 0)) (put_heap (<[z := c]> (heap t)) t) = Some (tt, s') /\
    valid s' own /\ data s' = data t /\ confined l2 t s'.
Proof.
  intros Hv Ho Hz Hc Hzl. set (s := put_heap _ t). rewrite (deref_run z _ s c) by apply lookup_insert_eq.
  unfold granted in Hv. destruct (Z.eqb_spec (next c) 0) as [E|E]; cbn [negb when].
  - rewrite bind_ret. rewrite (update_last z _ s c) by apply lookup_insert_eq. eexists. split; [done|]. rewrite decide_True in Hv by done.
    cbn [s put_heap heap data]. rewrite <- (alter_insert _ _ _ c) by apply lookup_insert_eq. rewrite insert_insert_eq, (insert_id _ _ _ Hz).
    split; [by apply (valid_state t)|]. split; [done|]. by apply confined_refl.
  - rewrite decide_False in Hv by done.
    destruct (pbuf_free_valid custom_free_function (next c) l2 t _ Hv Hc E) as (t' & n & Et & Ed & _ & Hd & Hv').
    { rewrite own_add_eq. lia. }
    destruct (pbuf_free_alike z c _ l2 (next c) s t _ t' _ (va_sound _ _ Hv) Hc E Hzl Hz ltac:(done) Et) as (s1 & Es & Eh & Eo & Ed1).
    assert (forall x, x ∉ l2 -> heap t' !! x = heap t !! x) as Hkeep.
    { intros x Hx. pose proof (drop_refs_other l2 x (heap t) Hx) as Ex. by rewrite Ed in Ex. }
    rewrite bind_assoc, (bind_some _ _ _ _ _ Es), bind_ret.
    rewrite (update_last z _ s1 c) by (rewrite Eh; apply lookup_insert_eq). eexists. split; [done|]. cbn [put_heap heap data].
    rewrite Eh, <- (alter_insert _ _ _ c) by apply lookup_insert_eq. rewrite insert_insert_eq, insert_id by (by rewrite Hkeep).
    pose proof (pbuf_free_confined custom_free_function (next c) l2 t _ _ t' (va_sound _ _ Hv) Hc Et) as [Hcr Hcf].
    split; [|split; [congruence|split; [done|]]]; [|cbn [put_heap outside]; by rewrite Eo]. eapply (valid_state t'); [done|done|]. eapply valid_ext; [|exact Hv']. intros x. apply own_add_cancel.
Qed.

Lemma sum_len_pos h l : steady h -> 0 <= sum_len (bufs h l).
Proof.
  intros Hst. induction l as [|a l IH]; [done|]. unfold bufs in *. cbn [omap list_omap]. destruct (h !! a) as [b|] eqn:Hb; [|done].
  cbn [sum_len foldr]. destruct (Hst a b Hb) as [[L [_ Hlen _ _]] _]. fold (sum_len (omap (fun a => h !! a) l)). lia.
Qed.

Lemma if_same {X} (b : bool) (x : X) : (if b then x else x) = x.
Proof. by destruct b. Qed.

(** The packet is cut to its first [new_len] bytes. *)
Lemma pbuf_realloc_valid p b0 l new_len s own :
  valid s own -> heap s !! p = Some b0 -> ~ linked (graph_of (heap s)) p -> chain (graph_of (heap s)) p l -> 0 <= new_len < tot_len b0 ->
  exists s' l1 z l2 b, l = l1 ++ z :: l2 /\ heap s !! z = Some b /\ 0 <= new_len - sum_len (bufs (heap s) l1) <= len b /\
    pbuf_realloc custom_free_function p new_len s = Some (tt, s') /\ valid s' own /\ chain (graph_of (heap s')) p (l1 ++ [z]) /\
    parts (heap s') (l1 ++ [z]) = parts (heap s) l1 ++ [(payload b, new_len - sum_len (bufs (heap s) l1))] /\ data s' = data s /\
    ref <$> heap s' !! p = Some (ref b0) /\
    (forall x c, x ∈ l1 ++ [z] -> heap s' !! x = Some c ->
      exists c0, heap s !! x = Some c0 /\ type_internal c = type_internal c0 /\ (0 < new_len -> 0 < len c0 -> 0 < len c)) /\
    confined l s s'.
Proof.
  intros Hv Hb0 Hnl Hc Hn. pose proof (va_sound _ _ Hv) as Hs. pose proof (va_totals _ _ Hv) as Ht. pose proof (so_links _ _ Hs) as Hl.
  pose proof (chain_total _ _ _ _ Ht Hl Hc) as Etot. unfold tot_of in Etot. rewrite Hb0 in Etot.
  assert (0 <= tot_len b0 < 2 ^ 16) as Htr by (rewrite Etot; by apply wrap_range).
  destruct (realloc_loop_run l (S (size (heap s))) p new_len (tot_len b0 - new_len) s Hc) as (l1 & z & l2 & b & -> & Hb & Eloop & Hrem & Hpos).
  { by eapply chain_nodup. }
  { intros ->. cbn in Hc. subst p. apply graph_lookup in Hb0. by rewrite (lk_null _ _ Hl) in Hb0. }
  { pose proof (chain_size _ _ Hl _ _ Hc) as Hsz. rewrite graph_size in Hsz. lia. }
  { by eapply sound_steady. }
  { split; [lia|]. pose proof (sum_len_pos _ l (sound_steady _ _ Hs)) as Hpos. rewrite Etot in Hn.
    pose proof (Z.mod_le (sum_len (bufs (heap s) l)) (2 ^ 16) Hpos). unfold wrap in Hn. lia. }
  { lia. }
  set (rem := new_len - sum_len (bufs (heap s) l1)) in *.
  pose proof (cut_valid p l1 z l2 b new_len s own Hv Hc Hnl Hb Hrem) as Hvt. set (k := tot_len b0 - new_len) in *.
  assert (tot_of (heap s) p - new_len = k) as Ek by (unfold tot_of; by rewrite Hb0). rewrite Ek in Hvt. fold rem in Hvt.
  destruct (cut_nodup _ own p l1 z l2 Hl Hc) as (Hnd & Hz & Hl2 & _). set (t := put_heap (cut l1 z rem k b (heap s)) s) in *.
  destruct (chain_app _ _ _ _ Hc) as (q & (-> & Hz0 & q2 & r2 & Hgz & Hc2) & _). rewrite (graph_lookup _ _ _ Hb) in Hgz. injection Hgz as <- <-.
  set (c := set_tot_len rem (set_len rem b)).
  destruct (realloc_tail z c l2 t own) as (s' & Etail & Hv' & Hd & Hcf).
  { done. }
  { by apply (lk_own _ _ Hl). }
  { cbn [t put_heap heap]. unfold cut. apply lookup_insert_eq. }
  { cbn [t put_heap heap]. rewrite (graph_cut _ _ _ _ _ _ Hb). apply chain_insert; [|done]. intros Hin. by destruct (Hl2 z Hin). }
  { intros Hin. by destruct (Hl2 z Hin). }
  assert (forall x, x ∈ l1 ++ [z] -> x ∉ l2) as Hkeep'.
  { intros x Hx Hx2. destruct (Hl2 x Hx2). by apply elem_of_app in Hx as [?|?%list_elem_of_singleton]. }
  pose proof (cf_rest _ _ _ Hcf) as Hkeep.
  exists s', l1, z, l2, b. split; [done|]. split; [done|]. split; [done|]. split; [|split; [done|split; [|split; [|split; [done|split; [|split]]]]]].
  - unfold pbuf_realloc. rewrite (deref_run _ _ _ _ Hb0), (proj2 (Z.leb_gt _ _)) by lia. unfold walk_fuel, gets.
    rewrite (bind_some _ _ s (S (size (heap s))) s eq_refl), (wrap_small 16 (tot_len b0 - new_len)) by lia. rewrite (bind_some _ _ _ _ _ Eloop).
    assert (bump (shorter k) l1 (heap s) !! z = Some b) as Hbz by (by rewrite bump_lookup, decide_False).
    rewrite (deref_run z _ _ b) by exact Hbz. unfold mem_trim. rewrite if_same, bind_ret.
    rewrite (update_run z _ _ _ b) by exact Hbz. rewrite (update_run z _ _ _ (set_len rem b)) by apply lookup_insert_eq.
    rewrite <- Etail. cbn [t put_heap heap data outside mem_stats pbuf_stats pool_stats ooseq_pending]. unfold cut. by rewrite !insert_insert_eq.
  - apply (chain_same (graph_of (heap t))).
    + intros x Hx. apply graph_same_at, Hkeep. by apply Hkeep'.
    + cbn [t put_heap heap]. rewrite (graph_cut _ _ _ _ _ _ Hb). by apply (chain_relink _ _ l1 z l2).
  - rewrite parts_app. f_equal.
    + apply parts_ext. intros x Hx. rewrite Hkeep by (apply Hkeep', elem_of_app; by left). cbn [t put_heap heap]. unfold cut.
      rewrite lookup_insert_ne, bump_lookup, decide_True by (done || congruence). by destruct (heap s !! x).
    + rewrite (parts_cons _ _ _ (set_next 0 c)); [done|]. rewrite Hkeep by (apply Hkeep', elem_of_app; right; by left).
      cbn [t put_heap heap]. unfold cut. by rewrite lookup_insert_eq.
  - rewrite Hkeep.
    2:{ apply Hkeep'. destruct l1 as [|a l1]; destruct Hc as (-> & _); [by left|by left]. }
    cbn [t put_heap heap]. unfold cut. destruct (decide (p = z)) as [->|Hpz]; [rewrite lookup_insert_eq; by simplify_eq|].
    rewrite lookup_insert_ne, bump_lookup by done. rewrite Hb0. by case_decide.
  - intros x d Hx Hd'. rewrite Hkeep in Hd' by (by apply Hkeep'). cbn [t put_heap heap] in Hd'. unfold cut in Hd'. destruct (decide (x = z)) as [->|Hxz].
    + rewrite lookup_insert_eq in Hd'. injection Hd' as <-. exists b. split_and!; try done. intros Hn0 _. by apply Hpos.
    + rewrite lookup_insert_ne, bump_lookup in Hd' by (done || congruence). apply elem_of_app in Hx as [Hx|?%list_elem_of_singleton]; [|done].
      rewrite decide_True in Hd' by done. apply fmap_Some in Hd' as (d0 & Hd0 & ->). by exists d0.
  - apply (confined_trans _ _ t); [|apply (confined_mono l2); [intros x Hx; apply elem_of_app; right; by right|done]].
    apply confined_refl; [|done]. intros x [Hx1 [Hx2 _]%not_elem_of_cons]%not_elem_of_app. cbn [t put_heap heap]. unfold cut.
    by rewrite lookup_insert_ne, bump_lookup, decide_False.
Qed.

(** ** Headers that reach over several pbufs *)

(** The pieces without the first [n] bytes. *)
Fixpoint drop_parts (n : Z) (ps : list (Z * Z)) : list (Z * Z) :=
  match ps with
  | [] => []
  | (a, k) :: ps' => if n =? 0 then ps else if k <=? n then drop_parts (n - k) ps' else (a + n, k - n) :: ps'
  end.

Lemma drop_parts_0 ps : drop_parts 0 ps = ps.
Proof. by destruct ps as [|[a k] ps]. Qed.

(** The first pbuf is freed, the rest of the packet passes to the caller. *)
Lemma free_first p b s own :
  valid s own -> heap s !! p = Some b -> ref b = 1 -> 0 < own p ->
  exists n s', (let* _ := update p (set_next 0) in pbuf_free custom_free_function p) s = Some (n, s') /\
    heap s' = delete p (heap s) /\ data s' = data s /\ valid s' (granted (next b) (own_add p (-1) own)).
Proof.
  intros [Hs Ht] Hb Hr Ho. pose proof (so_links _ _ Hs) as Hl. pose proof (pbuf_not_null _ _ _ _ Hs Hb) as Hp0.
  set (s1 := put_heap (<[p := set_next 0 b]> (heap s)) s).
  assert (sound s1 (granted (next b) own)) as Hs1.
  { unfold granted. case_decide as E; [|by apply sound_unlink; [..|apply (placed_same _ _ b); [done..|by apply Hs]]].
    assert (s1 = s) as ->; [|done]. unfold s1. rewrite insert_id; [by destruct s|]. rewrite Hb. destruct b. cbn in *. by rewrite E. }
  assert (0 < granted (next b) own p) as Ho1.
  { unfold granted. case_decide; [done|]. unfold own_add. case_decide; lia. }
  assert (heap s1 !! p = Some (set_next 0 b)) as Hb1 by apply lookup_insert_eq.
  destruct (pbuf_free_spec custom_free_function p [p] s1 _ Hs1) as (s' & n & E & Ed & _ & Hd & Hs'); [|done|done|].
  { split; [done|]. split; [done|]. exists 0, (ref b). split; [|done]. apply (graph_lookup _ _ _ Hb1). }
  cbn [drop_refs] in Ed. rewrite Hb1 in Ed. cbn [set_next ref] in Ed. rewrite Hr in Ed. cbn in Ed. rewrite delete_insert_eq in Ed. injection Ed as Eh _.
  exists (u8 n), s'. rewrite (update_run _ _ _ _ _ Hb). split; [exact E|]. split; [done|]. split; [exact Hd|].
  assert (sound s' (granted (next b) (own_add p (-1) own))) as Hs''.
  { destruct Hs' as [Hl' Hpl']. split; [|done]. eapply links_ext; [|exact Hl']. intros x. unfold granted. case_decide; [done|]. unfold own_add.
    repeat case_decide; lia. }
  split; [done|]. eapply (shrunk_totals (heap s)); [|done|done|apply Hs'']. intros x c. rewrite <- Eh. intros [_ Hc]%lookup_delete_Some.
  by apply shrunk_refl.
Qed.

Lemma free_header_loop_valid l : forall fuel p n s own,
  valid s own -> chain (graph_of (heap s)) p l -> ~ linked (graph_of (heap s)) p \/ p = 0 -> (p <> 0 -> 0 < own p) ->
  (forall x b, x ∈ l -> heap s !! x = Some b -> ref b = 1) -> (length l <= fuel)%nat -> 0 <= n < 2 ^ 16 ->
  exists r s' l', free_header_loop custom_free_function fuel p n s = Some (r, s') /\
    valid s' (granted r (if decide (p = 0) then own else own_add p (-1) own)) /\
    chain (graph_of (heap s')) r l' /\ parts (heap s') l' = drop_parts n (parts (heap s) l) /\ data s' = data s.
Proof.
  induction l as [|p' l IH]; intros fuel p n s own Hv Hc Hnl Ho Hex Hf Hn.
  { cbn in Hc. subst p. exists 0, s, []. split_and!; [|unfold granted; by rewrite !decide_True|done..].
    destruct fuel; cbn [free_header_loop Z.eqb]; by rewrite orb_true_r. }
  pose proof (chain_nodup _ _ (so_links _ _ (va_sound _ _ Hv)) _ _ Hc) as Hnd. pose proof Hc as Hc0.
  destruct Hc as (<- & Hp & q & r & Hg & Hc). destruct (graph_lookup_inv _ _ _ _ Hg) as (b & Hb & <- & <-).
  destruct Hnl as [Hnl|?]; [|done]. specialize (Ho Hp). rewrite decide_False by done. pose proof (Hex p b ltac:(by left) Hb) as Hr.
  destruct (so_placed _ _ (va_sound _ _ Hv) p b Hb) as [_ Hlen _ _]. apply NoDup_cons in Hnd as [Hpl Hnd].
  destruct (decide (n = 0)) as [->|Hn0].
  { exists p, s, (p :: l). rewrite drop_parts_0. split_and!; [|unfold granted; rewrite decide_False by done; eapply valid_ext; [|exact Hv]; intros x; symmetry; apply (own_add_cancel p (-1))|done..].
    by destruct fuel. }
  destruct fuel as [|fuel]; [cbn in Hf; lia|]. cbn [free_header_loop]. rewrite (proj2 (Z.eqb_neq _ _) Hn0), (proj2 (Z.eqb_neq _ _) Hp). cbn [orb].
  rewrite (deref_run _ _ _ _ Hb), (parts_cons _ _ _ _ Hb). cbn [drop_parts].
  rewrite (proj2 (Z.eqb_neq _ _) Hn0). destruct (Z.leb_spec (len b) n) as [Hle|Hgt].
  - destruct (free_first p b s own Hv Hb Hr Ho) as (m & s1 & E1 & Eh & Ed & Hv1). rewrite <- bind_assoc, (bind_some _ _ _ _ _ E1).
    rewrite (wrap_small 16 (n - len b)) by lia.
    destruct (IH fuel (next b) (n - len b) s1 _ Hv1) as (r & s' & l' & E & Hv' & Hc' & Hparts & Hd).
    + rewrite Eh, graph_delete. by apply chain_delete.
    + destruct (decide (next b = 0)) as [?|Hq]; [by right|left]. intros (c & r & Hcr). rewrite Eh, graph_delete in Hcr.
      apply lookup_delete_Some in Hcr as [Hcp Hcr]. by apply Hcp, (lk_inj _ _ (so_links _ _ (va_sound _ _ Hv)) _ _ _ _ _ Hg Hcr).
    + intros Hq. unfold granted. rewrite decide_False, own_add_eq by done. unfold own_add. pose proof (lk_own _ _ (so_links _ _ (va_sound _ _ Hv)) (next b)).
      case_decide as E; [rewrite E|]; lia.
    + intros x c Hx. rewrite Eh. intros [_ Hxc]%lookup_delete_Some. apply (Hex x c); [by right|done].
    + cbn in Hf. lia.
    + lia.
    + exists r, s', l'. split; [exact E|]. split; [|split; [done|split; [|congruence]]].
      * eapply valid_ext; [|exact Hv']. intros x. unfold granted at 1 3. unfold granted. destruct (decide (next b = 0)); [done|].
        unfold own_add. repeat case_decide; lia.
      * rewrite Hparts. f_equal. apply parts_ext. intros x Hx. rewrite Eh, lookup_delete_ne by congruence. done.
  - destruct (pbuf_remove_header_valid p n b s own Hv Hb Hnl ltac:(lia)) as [E Hv']. rewrite (proj2 (Z.leb_le _ _)) in E by lia.
    rewrite (bind_some _ _ _ _ _ E). specialize (Hv' ltac:(lia)). set (s1 := put_heap _ s) in *. exists p, s1, (p :: l). split_and!.
    + by destruct fuel.
    + unfold granted. rewrite decide_False by done. eapply valid_ext; [|exact Hv']. intros x. symmetry. apply (own_add_cancel p (-1)).
    + cbn [s1 put_heap heap]. by rewrite (graph_same _ _ b).
    + cbn [s1 put_heap heap]. rewrite (parts_cons _ _ _ (moved n b)) by apply lookup_insert_eq. cbn [moved set_tot_len set_len set_payload payload len].
      rewrite (wrap_small 16 (len b - n)) by lia. f_equal. apply parts_ext. intros x Hx. rewrite lookup_insert_ne by congruence. done.
    + done.
Qed.
End Ops.
