(* ===== verification/PbufData.v ===== *)
(** The data of a packet: copying it in and out, looking at it, searching it, and the
    functions that make one packet out of another (the second half of pbuf.cpp). *)

From Stdlib Require Import ZArith Lia Bool.
From stdpp Require Import base list gmap.
From S2P Require Import Prelude Hw Pbuf PbufRef PbufOps.

Definition ERR_OK : Z := 0.
Definition ERR_MEM : Z := -1.
Definition ERR_VAL : Z := -6.
Definition ERR_ARG : Z := -16.

Section Data.
Context {H : Type} {Out : Outside H} (custom_free_function : Z -> prog (lwip H) unit).
Abbreviation M := (prog (lwip H)).

Definition copy_data (dst src n : Z) : M unit := with_data (fun m => memcpy m dst src (Z.to_nat n)).
Definition read_byte (a : Z) : M Z := gets (fun s => data s a).

(** * Copying out *)

Fixpoint copy_partial_loop (fuel : nat) (p dataptr left n offset copied_total : Z) : M Z :=
  if (n =? 0) || (p =? 0) then ret copied_total else
  match fuel with
  | O => stuck
  | S fuel =>
      let* b := deref p in
      if negb (offset =? 0) && (len b <=? offset) then
        copy_partial_loop fuel (next b) dataptr left n (u16 (offset - len b)) copied_total
      else
        let buf_copy_len := u16 (len b - offset) in
        let buf_copy_len := if n <? buf_copy_len then n else buf_copy_len in
        let* _ := copy_data (dataptr + left) (payload b + offset) buf_copy_len in
        copy_partial_loop fuel (next b) dataptr (u16 (left + buf_copy_len)) (u16 (n - buf_copy_len)) 0
          (u16 (copied_total + buf_copy_len))
  end.
Definition pbuf_copy_partial (buf dataptr n offset : Z) : M Z :=
  if buf =? 0 then ret 0 else
  if dataptr =? 0 then ret 0 else
  let* fuel := walk_fuel in copy_partial_loop fuel buf dataptr 0 n offset 0.

Fixpoint get_contiguous_loop (fuel : nat) (q buffer n offset : Z) : M Z :=
  if q =? 0 then ret 0 else
  match fuel with
  | O => stuck
  | S fuel =>
      let* b := deref q in
      if negb (offset =? 0) && (len b <=? offset) then
        get_contiguous_loop fuel (next b) buffer n (u16 (offset - len b))
      else if offset + n <=? len b then ret (payload b + offset)
      else
        let* copied := pbuf_copy_partial q buffer n offset in
        if negb (copied =? n) then ret 0 else ret buffer
  end.
Definition pbuf_get_contiguous (p buffer bufsize n offset : Z) : M Z :=
  if p =? 0 then ret 0 else
  if buffer =? 0 then ret 0 else
  if negb (n <=? bufsize) then ret 0 else
  let* fuel := walk_fuel in get_contiguous_loop fuel p buffer n offset.

(** * Looking at bytes *)

(** The pbuf in which an offset is, and the offset in it. *)
Fixpoint skip_loop (fuel : nat) (q offset_left : Z) : M (Z * Z) :=
  if q =? 0 then ret (q, offset_left) else
  match fuel with
  | O => stuck
  | S fuel =>
      let* b := deref q in
      if len b <=? offset_left then skip_loop fuel (next b) (u16 (offset_left - len b)) else ret (q, offset_left)
  end.
Definition pbuf_skip_const (p in_offset : Z) : M (Z * Z) := let* fuel := walk_fuel in skip_loop fuel p in_offset.
Definition pbuf_skip (p in_offset : Z) : M (Z * Z) := pbuf_skip_const p in_offset.

Definition pbuf_try_get_at (p offset : Z) : M Z :=
  let* r := pbuf_skip_const p offset in
  let '(q, q_idx) := r in
  if q =? 0 then ret (-1) else
  let* b := deref q in
  if q_idx <? len b then read_byte (payload b + q_idx) else ret (-1).
Definition pbuf_get_at (p offset : Z) : M Z :=
  let* r := pbuf_try_get_at p offset in
  ret (if 0 <=? r then u8 r else 0).

Definition pbuf_put_at (p offset v : Z) : M unit :=
  let* r := pbuf_skip p offset in
  let '(q, q_idx) := r in
  if q =? 0 then ret tt else
  let* b := deref q in
  when (q_idx <? len b) (with_data (fun m => store m (payload b + q_idx) [v])).

(** The loop of [pbuf_memcmp], [k] bytes before its end. *)
Fixpoint memcmp_loop (k : nat) (q start s2 i : Z) : M Z :=
  match k with
  | O => ret 0
  | S k =>
      let* a := pbuf_get_at q (u16 (start + i)) in
      let* b := read_byte (s2 + i) in
      if negb (a =? b) then ret (u16 (Z.min (i + 1) 0xffff)) else memcmp_loop k q start s2 (i + 1)
  end.
Definition pbuf_memcmp (p offset s2 n : Z) : M Z :=
  let* b := deref p in
  if tot_len b <? offset + n then ret 0xffff else
  let* r := pbuf_skip_const p offset in
  let '(q, start) := r in
  memcmp_loop (Z.to_nat n) q start s2 0.

(** The loop of [pbuf_memfind], [k] positions before its end. *)
Fixpoint memfind_loop (k : nat) (p mem mem_len i : Z) : M Z :=
  match k with
  | O => ret 0xffff
  | S k =>
      let* plus := pbuf_memcmp p i mem mem_len in
      if plus =? 0 then ret i else memfind_loop k p mem mem_len (i + 1)
  end.
Definition pbuf_memfind (p mem mem_len start_offset : Z) : M Z :=
  let* b := deref p in
  let max_cmp_start := u16 (tot_len b - mem_len) in
  if mem_len + start_offset <=? tot_len b
  then memfind_loop (Z.to_nat (max_cmp_start - start_offset + 1)) p mem mem_len start_offset
  else ret 0xffff.

(** [strlen] of a string that ends before [fuel] bytes. *)
Fixpoint c_strlen (fuel : nat) (m : mem) (a : Z) : option Z :=
  match fuel with
  | O => None
  | S fuel => if m a =? 0 then Some 0 else (fun n => n + 1) <$> c_strlen fuel m (a + 1)
  end.
Definition pbuf_strstr (string_fuel : nat) (p substr : Z) : M Z :=
  if substr =? 0 then ret 0xffff else
  let* c := read_byte substr in
  if c =? 0 then ret 0xffff else
  let* b := deref p in
  if tot_len b =? 0xffff then ret 0xffff else
  let* m := gets data in
  match c_strlen string_fuel m substr with
  | None => stuck
  | Some substr_len => if 0xffff <=? substr_len then ret 0xffff else pbuf_memfind p substr (u16 substr_len) 0
  end.

(** * Copying in *)

Fixpoint take_loop (fuel : nat) (p dataptr total_copy_len copied_total : Z) : M Z :=
  if total_copy_len =? 0 then ret ERR_OK else
  match fuel with
  | O => stuck
  | S fuel =>
      let* b := deref p in
      let buf_copy_len := if len b <? total_copy_len then len b else total_copy_len in
      let* _ := copy_data (payload b) (dataptr + copied_total) buf_copy_len in
      take_loop fuel (next b) dataptr (total_copy_len - buf_copy_len) (copied_total + buf_copy_len)
  end.
Definition pbuf_take (buf dataptr n : Z) : M Z :=
  if buf =? 0 then ret ERR_ARG else
  if dataptr =? 0 then ret ERR_ARG else
  let* b := deref buf in
  if tot_len b <? n then ret ERR_MEM else
  let* fuel := walk_fuel in take_loop fuel buf dataptr n 0.

Definition pbuf_take_at (buf dataptr n offset : Z) : M Z :=
  let* r := pbuf_skip buf offset in
  let '(q, target_offset) := r in
  if q =? 0 then ret ERR_MEM else
  let* b := deref q in
  if target_offset + n <=? tot_len b then
    let first_copy_len := u16 (Z.min (len b - target_offset) n) in
    let* _ := copy_data (payload b + target_offset) dataptr first_copy_len in
    let remaining_len := u16 (n - first_copy_len) in
    if 0 <? remaining_len then pbuf_take (next b) (dataptr + first_copy_len) remaining_len else ret ERR_OK
  else ret ERR_MEM.

(** * One packet from another *)

(** The end of a packet, but not of the chain. *)
Definition queue_end (p : Z) : M bool :=
  if p =? 0 then ret false else
  let* b := deref p in ret ((len b =? tot_len b) && negb (next b =? 0)).

Fixpoint copy_loop (fuel : nat) (p_to offset_to p_from offset_from : Z) : M Z :=
  match fuel with
  | O => stuck
  | S fuel =>
      let* t := deref p_to in
      let* f := deref p_from in
      let n := if len f - offset_from <=? len t - offset_to then len f - offset_from else len t - offset_to in
      let* _ := copy_data (payload t + offset_to) (payload f + offset_from) n in
      let offset_to := offset_to + n in
      let offset_from := offset_from + n in
      let '(p_from, offset_from) := if len f <=? offset_from then (next f, 0) else (p_from, offset_from) in
      let '(p_to, offset_to) := if offset_to =? len t then (next t, 0) else (p_to, offset_to) in
      if (p_to =? 0) && negb (p_from =? 0) then ret ERR_ARG else
      let* bad := queue_end p_from in
      if bad then ret ERR_VAL else
      let* bad := queue_end p_to in
      if bad then ret ERR_VAL else
      if negb (p_from =? 0) then copy_loop fuel p_to offset_to p_from offset_from else ret ERR_OK
  end.
Definition pbuf_copy (p_to p_from : Z) : M Z :=
  if (p_to =? 0) || (p_from =? 0) then ret ERR_ARG else
  let* t := deref p_to in
  let* f := deref p_from in
  if negb (tot_len f <=? tot_len t) then ret ERR_ARG else
  let* fuel := walk_fuel in copy_loop (2 * fuel) p_to 0 p_from 0.

Definition pbuf_clone (layer : pbuf_layer) (type : pbuf_type) (p : Z) : M Z :=
  let* b := deref p in
  let* q := pbuf_alloc custom_free_function layer (tot_len b) type in
  if q =? 0 then ret 0 else
  let* err := pbuf_copy q p in
  ret q.

Definition pbuf_coalesce (p : Z) (layer : pbuf_layer) : M Z :=
  let* b := deref p in
  if next b =? 0 then ret p else
  let* q := pbuf_clone layer PBUF_RAM p in
  if q =? 0 then ret p else
  let* _ := pbuf_free custom_free_function p in
  ret q.

(** * Splitting *)

(** To the pbuf where the sum of the lengths overflows; the one before it, and the sum. *)
Fixpoint split_loop (fuel : nat) (i r tot_len_front : Z) : M (Z * Z) :=
  if r =? 0 then ret (i, r) else
  match fuel with
  | O => stuck
  | S fuel =>
      let* b := deref r in
      if tot_len_front <=? u16 (tot_len_front + len b)
      then split_loop fuel r (next b) (u16 (tot_len_front + len b)) else ret (i, r)
  end.
Fixpoint split_totals (fuel : nat) (i r : Z) : M unit :=
  if i =? 0 then ret tt else
  match fuel with
  | O => stuck
  | S fuel =>
      let* b := deref i in
      let* c := deref r in
      let* _ := update i (set_tot_len (u16 (tot_len b - tot_len c))) in
      split_totals fuel (next b) r
  end.
(** The result is [*rest]. *)
Definition pbuf_split_64k (p : Z) : M Z :=
  if p =? 0 then ret 0 else
  let* b := deref p in
  if next b =? 0 then ret 0 else
  let* fuel := walk_fuel in
  let* ir := split_loop fuel p (next b) (len b) in
  let '(i, r) := ir in
  let* _ := update i (set_next 0) in
  if r =? 0 then ret 0 else
  let* _ := split_totals fuel p r in
  let* b := deref p in
  let* _ := when (negb (Z.land (flags b) PBUF_FLAG_TCP_FIN =? 0)) (update r (fun c => set_flags (Z.lor (flags c) PBUF_FLAG_TCP_FIN) c)) in
  ret r.
End Data.

(** * Packets as lists of pieces *)

(** The bytes of the pieces [ps], each an address and a length. *)
Definition bytes_of (m : mem) (ps : list (Z * Z)) : list Z := ps ≫= fun '(a, k) => load m a (Z.to_nat k).
Definition total (ps : list (Z * Z)) : Z := foldr (fun '(_, k) n => k + n) 0 ps.

(** The chain from [p] has these pieces. *)
Fixpoint packet (h : gmap Z struct_pbuf) (p : Z) (ps : list (Z * Z)) : Prop :=
  match ps with
  | [] => p = 0
  | (a, k) :: ps => p <> 0 /\ exists b, h !! p = Some b /\ payload b = a /\ len b = k /\ 0 <= k < 2 ^ 16 /\
      tot_len b = u16 (k + total ps) /\ packet h (next b) ps
  end.

(** A region that is not part of the data. *)
Definition clear_of (a n : Z) (ps : list (Z * Z)) : Prop := Forall (fun '(b, k) => disjoint a n b k) ps.

Lemma bytes_of_cons m a k ps : bytes_of m ((a, k) :: ps) = load m a (Z.to_nat k) ++ bytes_of m ps.
Proof. done. Qed.

Lemma bytes_of_app m ps ps' : bytes_of m (ps ++ ps') = bytes_of m ps ++ bytes_of m ps'.
Proof. unfold bytes_of. apply bind_app. Qed.

Lemma clear_of_sub a n b k ps : a <= b -> b + k <= a + n -> 0 <= k -> clear_of a n ps -> clear_of b k ps.
Proof.
  intros H1 H2 Hk Hc. eapply Forall_impl; [exact Hc|]. intros [c j]. unfold disjoint. lia.
Qed.

Lemma bytes_of_ext m m' ps : (forall x a k, (a, k) ∈ ps -> a <= x < a + k -> m' x = m x) -> bytes_of m' ps = bytes_of m ps.
Proof.
  induction ps as [|[a k] ps IH]; intros E; [done|]. rewrite !bytes_of_cons. f_equal.
  - apply load_ext. intros x Hx. apply (E x a k); [by left|lia].
  - apply IH. intros x b j Hin. apply E. by right.
Qed.

Lemma bytes_of_store m a bs ps : clear_of a (Z.of_nat (length bs)) ps -> bytes_of (store m a bs) ps = bytes_of m ps.
Proof.
  intros Hc. apply bytes_of_ext. intros x b k Hin Hx. apply store_out.
  pose proof (proj1 (Forall_forall _ _) Hc (b, k) Hin) as Hd. cbn in Hd. unfold disjoint in Hd. lia.
Qed.

Section Packets.
Context {H : Type} `{OL : OutsideLaws H}.

Definition put_data (m : mem) (s : lwip H) : lwip H :=
  Lwip (heap s) m (outside s) (mem_stats s) (pbuf_stats s) (pool_stats s) (ooseq_pending s).

Lemma copy_data_run {X} dst src n (k : unit -> prog (lwip H) X) s :
  bind (copy_data dst src n) k s = k tt (put_data (memcpy (data s) dst src (Z.to_nat n)) s).
Proof. done. Qed.

Lemma put_data_data m m' s : put_data m' (put_data m s) = put_data m' s.
Proof. done. Qed.

Lemma put_data_id s : put_data (data s) s = s.
Proof. by destruct s. Qed.

Lemma total_parts (h : gmap Z struct_pbuf) l : total (parts h l) = sum_len (bufs h l).
Proof. unfold parts. induction (bufs h l) as [|b bs IH]; cbn; [done|]. unfold total in IH. by rewrite IH. Qed.

Lemma chain_packet (s : lwip H) own p l : valid s own -> chain (graph_of (heap s)) p l -> packet (heap s) p (parts (heap s) l).
Proof.
  intros [Hs Ht]. revert p. induction l as [|a l IH]; intros p; [done|]. intros Hc0. pose proof Hc0 as (-> & Ha & q & r & Hg & Hc).
  destruct (graph_lookup_inv _ _ _ _ Hg) as (b & Hb & <- & _). rewrite (parts_cons _ _ _ _ Hb). split; [done|]. exists b.
  split_and!; try done; [apply (so_placed _ _ Hs a b Hb)..| |by apply IH].
  rewrite (Ht a b Hb), (chain_total _ _ _ _ Ht (so_links _ _ Hs) Hc), total_parts. unfold wrap. apply Zplus_mod_idemp_r.
Qed.

Lemma parts_length (h : gmap Z struct_pbuf) l : (length (parts h l) <= length l)%nat.
Proof.
  unfold parts, bufs. rewrite length_fmap. induction l as [|a l IH]; cbn [omap list_omap length]; [done|]. destruct (h !! a); cbn [length]; lia.
Qed.

Lemma total_app ps ps' : total (ps ++ ps') = total ps + total ps'.
Proof. unfold total. induction ps as [|[a k] ps IH]; cbn; [done|]. rewrite IH. lia. Qed.

Lemma packet_total h p ps m : packet h p ps -> 0 <= total ps /\ length (bytes_of m ps) = Z.to_nat (total ps).
Proof.
  revert p. induction ps as [|[a k] ps IH]; intros p; [done|]. intros (_ & b & _ & _ & _ & Hk & _ & Hp). destruct (IH _ Hp) as [Ht El].
  cbn [total foldr]. fold (total ps). split; [lia|]. rewrite bytes_of_cons, length_app, length_load, El. lia.
Qed.

(** The pieces of a packet of a valid heap, with what the fuel is measured by. *)
Lemma valid_packet (s : lwip H) own p b : valid s own -> heap s !! p = Some b ->
  exists l, chain (graph_of (heap s)) p l /\ packet (heap s) p (parts (heap s) l) /\
    (length (parts (heap s) l) <= size (heap s))%nat /\ tot_len b = u16 (total (parts (heap s) l)).
Proof.
  intros Hv Hb. pose proof Hv as [Hs Ht]. pose proof (so_links _ _ Hs) as Hl.
  destruct (chain_from _ _ Hl p) as (l & Hc & _); [by rewrite (graph_lookup _ _ _ Hb)|]. exists (p :: l). split; [done|].
  split; [by apply (chain_packet s own)|]. split.
  - pose proof (chain_size _ _ Hl _ _ Hc) as Hsz. rewrite graph_size in Hsz. pose proof (parts_length (heap s) (p :: l)). lia.
  - rewrite total_parts. pose proof (chain_total _ _ _ _ Ht Hl Hc) as E. unfold tot_of in E. by rewrite Hb in E.
Qed.
(** ** Copying out *)

Lemma load_drop m a n j : (j <= n)%nat -> drop j (load m a n) = load m (a + Z.of_nat j) (n - j).
Proof. intros Hj. replace n with (j + (n - j))%nat at 1 by lia. rewrite load_app. apply drop_app_length'. by rewrite length_load. Qed.

Lemma load_take m a n j : (j <= n)%nat -> take j (load m a n) = load m a j.
Proof. intros Hj. replace n with (j + (n - j))%nat at 1 by lia. rewrite load_app. apply take_app_length'. by rewrite length_load. Qed.

(** [n] bytes from [off], of which the first [c] are in the first piece. *)
Lemma piece_bytes m a k off n rest c :
  0 <= off -> 0 <= n -> off = 0 /\ 0 <= k \/ off < k -> c = (if n <? k - off then n else k - off) ->
  take (Z.to_nat n) (drop (Z.to_nat off) (load m a (Z.to_nat k) ++ rest)) =
    load m (a + off) (Z.to_nat c) ++ take (Z.to_nat (n - c)) rest.
Proof.
  intros Ho Hn Hk ->. rewrite drop_app_le by (rewrite length_load; lia). rewrite load_drop by lia. rewrite Z2Nat.id by lia.
  rewrite take_app, length_load. replace (Z.to_nat k - Z.to_nat off)%nat with (Z.to_nat (k - off)) by lia.
  destruct (Z.ltb_spec n (k - off)).
  - rewrite load_take by lia. do 2 f_equal. lia.
  - rewrite take_ge by (rewrite length_load; lia). do 2 f_equal. lia.
Qed.

Lemma store_nil m a : store m a [] ≡ m.
Proof. intros x. apply store_out. cbn. lia. Qed.

Lemma copy_partial_run ps : forall fuel p dst left n off copied (s : lwip H),
  packet (heap s) p ps -> (length ps <= fuel)%nat -> 0 <= off < 2 ^ 16 -> 0 <= n -> 0 <= left -> left + n < 2 ^ 16 ->
  0 <= copied -> copied + n < 2 ^ 16 -> clear_of (dst + left) n ps ->
  let R := take (Z.to_nat n) (drop (Z.to_nat off) (bytes_of (data s) ps)) in
  exists m', copy_partial_loop fuel p dst left n off copied s = Some (copied + Z.of_nat (length R), put_data m' s) /\
    m' ≡ store (data s) (dst + left) R.
Proof.
  induction ps as [|[a k] ps IH]; intros fuel p dst left n off copied s Hp Hf Ho Hn Hl Hln Hc Hcn Hclear; cbn zeta.
  { cbn in Hp. subst p. exists (data s). cbn [bytes_of mbind list_bind]. rewrite drop_nil, take_nil, put_data_id. cbn [length]. rewrite Z.add_0_r.
    split; [|symmetry; apply store_nil]. destruct fuel; cbn [copy_partial_loop]; by rewrite orb_true_r. }
  destruct (Z.eqb_spec n 0) as [->|Hn0].
  { exists (data s). rewrite take_0, put_data_id. cbn [length]. rewrite Z.add_0_r. split; [by destruct fuel|symmetry; apply store_nil]. }
  destruct Hp as (Hp0 & b & Hb & Ea & Ek & Hk & _ & Hp). destruct fuel as [|fuel]; [cbn in Hf; lia|]. cbn [copy_partial_loop].
  rewrite (proj2 (Z.eqb_neq _ _) Hn0), (proj2 (Z.eqb_neq _ _) Hp0). cbn [orb]. rewrite (deref_run _ _ _ _ Hb), Ek, bytes_of_cons.
  apply Forall_cons in Hclear as [Hd Hclear]. destruct (negb (off =? 0) && (k <=? off)) eqn:E.
  - apply andb_prop in E as [_ E%Z.leb_le]. rewrite (wrap_small 16 (off - k)) by lia.
    destruct (IH fuel (next b) dst left n (off - k) copied s) as (m' & Em & Hm'); try done; [cbn in Hf; lia|lia|].
    exists m'. rewrite drop_app_ge by (rewrite length_load; lia). rewrite length_load. replace (Z.to_nat off - Z.to_nat k)%nat with (Z.to_nat (off - k)) by lia. done.
  - assert (off = 0 /\ 0 <= k \/ off < k) as Hok.
    { destruct (Z.eqb_spec off 0); [left; lia|]. cbn in E. apply Z.leb_gt in E. by right. }
    rewrite (wrap_small 16 (k - off)) by lia. set (c := if n <? k - off then n else k - off).
    assert (0 <= c <= n /\ c <= k - off) as [Hcr Hck] by (unfold c; destruct (Z.ltb_spec n (k - off)); lia).
    rewrite (piece_bytes (data s) a k off n (bytes_of (data s) ps) c) by (done || lia).
    rewrite (wrap_small 16 (left + c)), (wrap_small 16 (n - c)), (wrap_small 16 (copied + c)) by lia. rewrite copy_data_run, Ea.
    set (m1 := memcpy (data s) (dst + left) (a + off) (Z.to_nat c)).
    assert (bytes_of m1 ps = bytes_of (data s) ps) as Em1.
    { apply bytes_of_store. rewrite length_load. apply (clear_of_sub (dst + left) n); [lia..|done]. }
    destruct (IH fuel (next b) dst (left + c) (n - c) 0 (copied + c) (put_data m1 s)) as (m' & Em & Hm'); try done; try lia.
    { cbn in Hf. lia. }
    { apply (clear_of_sub (dst + left) n); [lia..|done]. }
    exists m'. cbn [put_data data] in Em, Hm'. rewrite Em1, drop_0 in Em, Hm'. rewrite Em, length_app, length_load. split; [do 2 f_equal; lia|].
    rewrite Hm'. unfold m1, memcpy. replace (dst + (left + c)) with (dst + left + Z.of_nat (length (load (data s) (a + off) (Z.to_nat c)))) by (rewrite length_load; lia).
    apply store_app.
Qed.

(** [pbuf_copy_partial] copies the bytes from an offset, as far as there are any. *)
Lemma pbuf_copy_partial_run p ps dst n off (s : lwip H) :
  packet (heap s) p ps -> (length ps <= size (heap s))%nat -> p <> 0 -> dst <> 0 -> 0 <= off < 2 ^ 16 -> 0 <= n < 2 ^ 16 -> clear_of dst n ps ->
  let R := take (Z.to_nat n) (drop (Z.to_nat off) (bytes_of (data s) ps)) in
  exists m', pbuf_copy_partial p dst n off s = Some (Z.of_nat (length R), put_data m' s) /\ m' ≡ store (data s) dst R.
Proof.
  intros Hp Hsz Hp0 Hd0 Ho Hn Hclear R. unfold pbuf_copy_partial. rewrite (proj2 (Z.eqb_neq _ _) Hp0), (proj2 (Z.eqb_neq _ _) Hd0).
  unfold walk_fuel, gets. rewrite (bind_some _ _ s (S (size (heap s))) s eq_refl).
  destruct (copy_partial_run ps (S (size (heap s))) p dst 0 n off 0 s) as (m' & E & Hm'); try done; try lia; [by rewrite Z.add_0_r|].
  rewrite Z.add_0_r in Hm'. by exists m'.
Qed.
Lemma get_contiguous_run ps : forall fuel p buffer n off (s : lwip H),
  packet (heap s) p ps -> (length ps <= fuel)%nat -> (length ps <= size (heap s))%nat -> buffer <> 0 -> 0 <= off < 2 ^ 16 -> 0 < n < 2 ^ 16 ->
  clear_of buffer n ps -> Forall (fun '(a, _) => 0 < a) ps ->
  let R := take (Z.to_nat n) (drop (Z.to_nat off) (bytes_of (data s) ps)) in
  exists r m', get_contiguous_loop fuel p buffer n off s = Some (r, put_data m' s) /\ frame buffer n (data s) m' /\
    (if decide (Z.of_nat (length R) = n) then r <> 0 /\ load m' r (Z.to_nat n) = R else r = 0).
Proof.
  induction ps as [|[a k] ps IH]; intros fuel p buffer n off s Hp Hf Hsz Hb0 Ho Hn Hclear Hpos; cbn zeta.
  { cbn in Hp. subst p. exists 0, (data s). cbn [bytes_of mbind list_bind]. rewrite drop_nil, take_nil, put_data_id.
    split; [by destruct fuel|]. split; [apply frame_refl|]. rewrite decide_False; [done|]. cbn. lia. }
  pose proof Hp as (Hp0 & b & Hb & Ea & Ek & Hk & _ & Hp'). destruct fuel as [|fuel]; [cbn in Hf; lia|]. cbn [get_contiguous_loop].
  rewrite (proj2 (Z.eqb_neq _ _) Hp0), (deref_run _ _ _ _ Hb), Ek, Ea. destruct (negb (off =? 0) && (k <=? off)) eqn:E.
  - apply andb_prop in E as [_ E%Z.leb_le]. rewrite (wrap_small 16 (off - k)) by lia. apply Forall_cons in Hclear as [_ Hclear], Hpos as [_ Hpos].
    destruct (IH fuel (next b) buffer n (off - k) s) as (r & m' & Em & Hm'); try done; [cbn in Hf; lia|cbn in Hsz; lia|lia|].
    exists r, m'. rewrite bytes_of_cons, drop_app_ge by (rewrite length_load; lia). rewrite length_load.
    replace (Z.to_nat off - Z.to_nat k)%nat with (Z.to_nat (off - k)) by lia. done.
  - assert (off = 0 /\ 0 <= k \/ off < k) as Hok.
    { destruct (Z.eqb_spec off 0); [left; lia|]. cbn in E. apply Z.leb_gt in E. by right. }
    destruct (Z.leb_spec (off + n) k) as [Hin|Hout].
    + exists (a + off), (data s). rewrite put_data_id. split; [done|]. split; [apply frame_refl|]. apply Forall_cons in Hpos as [Ha _].
      rewrite bytes_of_cons, (piece_bytes _ a k off n _ n) by (done || lia || (destruct (Z.ltb_spec n (k - off)); lia)).
      rewrite Z.sub_diag, take_0, app_nil_r, length_load, decide_True by lia. split; [lia|done].
    + destruct (pbuf_copy_partial_run p ((a, k) :: ps) buffer n off s Hp Hsz Hp0 Hb0 Ho ltac:(lia) Hclear) as (m' & Em & Hm').
      set (R := take _ _) in *. rewrite (bind_some _ _ _ _ _ Em). assert (length R <= Z.to_nat n)%nat as HR by (unfold R; rewrite length_take; lia).
      assert (frame buffer n (data s) m') as Hfr by (intros x Hx; rewrite Hm'; apply store_out; lia).
      destruct (Z.eqb_spec (Z.of_nat (length R)) n) as [El|El]; cbn [negb].
      * exists buffer, m'. split; [done|]. split; [done|]. rewrite decide_True by done. split; [done|].
        rewrite Hm'. apply load_store_eq. lia.
      * exists 0, m'. split; [done|]. split; [done|]. by rewrite decide_False.
Qed.

(** ** Single bytes *)

(** The suffix of the packet in which an offset is. *)
Lemma skip_run ps : forall fuel p off (s : lwip H),
  packet (heap s) p ps -> (length ps <= fuel)%nat -> 0 <= off < 2 ^ 16 ->
  exists ps1 ps2 q, ps = ps1 ++ ps2 /\ packet (heap s) q ps2 /\ skip_loop fuel p off s = Some ((q, off - total ps1), s) /\
    0 <= total ps1 <= off /\ match ps2 with [] => True | (_, k) :: _ => off - total ps1 < k end.
Proof.
  induction ps as [|[a k] ps IH]; intros fuel p off s Hp Hf Ho.
  { cbn in Hp. subst p. exists [], [], 0. cbn. rewrite Z.sub_0_r. split_and!; try done; [by destruct fuel|lia]. }
  pose proof Hp as (Hp0 & b & Hb & Ea & Ek & Hk & _ & Hp'). destruct fuel as [|fuel]; [cbn in Hf; lia|]. cbn [skip_loop].
  rewrite (proj2 (Z.eqb_neq _ _) Hp0), (deref_run _ _ _ _ Hb), Ek. destruct (Z.leb_spec k off) as [Hle|Hgt].
  - rewrite (wrap_small 16 (off - k)) by lia.
    destruct (IH fuel (next b) (off - k) s Hp' ltac:(cbn in Hf; lia) ltac:(lia)) as (ps1 & ps2 & q & -> & Hq & E & Ht & Hrest).
    exists ((a, k) :: ps1), ps2, q. cbn [total foldr]. fold (total ps1). replace (off - (k + total ps1)) with (off - k - total ps1) by lia.
    split_and!; try done; lia.
  - exists [], ((a, k) :: ps), p. cbn [total foldr app]. rewrite Z.sub_0_r. split_and!; try done; lia.
Qed.

Lemma pbuf_skip_run p ps off (s : lwip H) :
  packet (heap s) p ps -> (length ps <= size (heap s))%nat -> 0 <= off < 2 ^ 16 ->
  exists ps1 ps2 q, ps = ps1 ++ ps2 /\ packet (heap s) q ps2 /\ pbuf_skip_const p off s = Some ((q, off - total ps1), s) /\
    0 <= total ps1 <= off /\ match ps2 with [] => True | (_, k) :: _ => off - total ps1 < k end.
Proof.
  intros Hp Hsz Ho. unfold pbuf_skip_const, walk_fuel, gets. rewrite (bind_some _ _ s (S (size (heap s))) s eq_refl).
  apply skip_run; [done|lia|done].
Qed.

Lemma packet_app h p ps1 ps2 : packet h p (ps1 ++ ps2) -> exists q, packet h q ps2 /\ 0 <= total ps1.
Proof.
  revert p. induction ps1 as [|[a k] ps1 IH]; intros p; [by exists p|]. intros (_ & b & _ & _ & _ & Hk & _ & Hp).
  destruct (IH _ Hp) as (q & Hq & Ht). exists q. split; [done|]. cbn [total foldr]. fold (total ps1). lia.
Qed.

Lemma length_bytes_of m h p ps1 ps2 : packet h p (ps1 ++ ps2) -> length (bytes_of m ps1) = Z.to_nat (total ps1).
Proof.
  revert p. induction ps1 as [|[a k] ps1 IH]; intros p; [done|]. intros (_ & b & _ & _ & _ & Hk & _ & Hp).
  destruct (packet_app _ _ _ _ Hp) as (_ & _ & Ht). rewrite bytes_of_cons, length_app, length_load, (IH _ Hp). cbn [total foldr]. fold (total ps1). lia.
Qed.

Lemma pbuf_try_get_at_run p ps off (s : lwip H) :
  packet (heap s) p ps -> (length ps <= size (heap s))%nat -> 0 <= off < 2 ^ 16 ->
  pbuf_try_get_at p off s = Some (default (-1) (bytes_of (data s) ps !! Z.to_nat off), s).
Proof.
  intros Hp Hsz Ho. destruct (pbuf_skip_run p ps off s Hp Hsz Ho) as (ps1 & ps2 & q & -> & Hq & E & Ht & Hrest).
  unfold pbuf_try_get_at. rewrite (bind_some _ _ _ _ _ E), bytes_of_app.
  assert (length (bytes_of (data s) ps1) <= Z.to_nat off)%nat as Hlen by (rewrite (length_bytes_of _ _ _ _ _ Hp); lia).
  rewrite lookup_app_r, (length_bytes_of _ _ _ _ _ Hp) by done. replace (Z.to_nat off - Z.to_nat (total ps1))%nat with (Z.to_nat (off - total ps1)) by lia.
  destruct ps2 as [|[a k] ps2].
  - cbn in Hq. by subst q.
  - destruct Hq as (Hq0 & b & Hb & Ea & Ek & Hk & _ & Hq). rewrite (proj2 (Z.eqb_neq _ _) Hq0), (deref_run _ _ _ _ Hb), Ek, Ea, (proj2 (Z.ltb_lt _ _)) by done.
    rewrite bytes_of_cons, lookup_app_l by (rewrite length_load; lia). rewrite lookup_load by lia. unfold read_byte, gets. do 3 f_equal. cbn. f_equal. lia.
Qed.

Lemma pbuf_get_at_run p ps off (s : lwip H) :
  packet (heap s) p ps -> (length ps <= size (heap s))%nat -> 0 <= off < 2 ^ 16 -> (forall x, is_byte (data s x)) ->
  pbuf_get_at p off s = Some (default 0 (bytes_of (data s) ps !! Z.to_nat off), s).
Proof.
  intros Hp Hsz Ho Hm. unfold pbuf_get_at. rewrite (bind_some _ _ _ _ _ (pbuf_try_get_at_run p ps off s Hp Hsz Ho)).
  unfold ret. do 2 f_equal. destruct (bytes_of (data s) ps !! Z.to_nat off) as [v|] eqn:E; [|done]. cbn [from_option id].
  assert (is_byte v) as Hv.
  { assert (Forall is_byte (bytes_of (data s) ps)) as Hall; [|by apply (proj1 (Forall_lookup _ _) Hall _ _ E)].
    clear -Hm. induction ps as [|[a k] ps IH]; [constructor|]. rewrite bytes_of_cons. apply Forall_app. split; [by apply bytes_load|done]. }
  unfold is_byte in Hv. rewrite (proj2 (Z.leb_le 0 v)) by lia. apply wrap_small. lia.
Qed.
(** ** Comparing and searching *)

Fixpoint first_diff (xs ys : list Z) : option nat :=
  match xs, ys with
  | x :: xs, y :: ys => if x =? y then S <$> first_diff xs ys else Some O
  | _, _ => None
  end.

Lemma first_diff_none xs ys : length xs = length ys -> first_diff xs ys = None <-> xs = ys.
Proof.
  revert ys. induction xs as [|x xs IH]; intros [|y ys] El; try done. cbn [first_diff]. injection El as El. specialize (IH ys El).
  destruct (Z.eqb_spec x y) as [->|Hne]; [|split; [done|congruence]]. destruct (first_diff xs ys); cbn; split; try done.
  - intros [= E]. by apply IH in E.
  - intros _. f_equal. by apply IH.
Qed.

Lemma memcmp_loop_run q ps start s2 (s : lwip H) : packet (heap s) q ps -> (length ps <= size (heap s))%nat -> (forall x, is_byte (data s x)) -> 0 <= start ->
  forall k i, 0 <= i -> start + i + Z.of_nat k <= total ps -> start + i + Z.of_nat k < 2 ^ 16 ->
  memcmp_loop k q start s2 i s = Some (match first_diff (take k (drop (Z.to_nat (start + i)) (bytes_of (data s) ps))) (load (data s) (s2 + i) k) with
    | None => 0 | Some j => i + Z.of_nat j + 1 end, s).
Proof.
  intros Hp Hsz Hm Hst. induction k as [|k IH]; intros i Hi Ht Hlt; [done|]. cbn [memcmp_loop].
  rewrite (wrap_small 16 (start + i)) by lia. rewrite (bind_some _ _ _ _ _ (pbuf_get_at_run q ps (start + i) s Hp Hsz ltac:(lia) Hm)).
  destruct (packet_total _ _ _ (data s) Hp) as [_ El].
  destruct (lookup_lt_is_Some_2 (bytes_of (data s) ps) (Z.to_nat (start + i))) as [v Hv]; [lia|]. rewrite Hv. cbn [from_option id].
  unfold read_byte, gets. rewrite (bind_some _ _ s (data s (s2 + i)) s eq_refl). rewrite (drop_S _ v) by done. cbn [take].
  change (S k) with (1 + k)%nat. rewrite load_app, load_one. cbn [app first_diff]. destruct (v =? data s (s2 + i)); cbn [negb].
  - rewrite IH by lia. replace (Z.to_nat (start + (i + 1))) with (S (Z.to_nat (start + i))) by lia. rewrite <- Z.add_assoc.
    change (Z.of_nat 1) with 1. destruct (first_diff _ _); cbn; [|done]. do 2 f_equal. lia.
  - unfold ret. do 2 f_equal. rewrite wrap_small; lia.
Qed.

Lemma pbuf_memcmp_run p ps b off s2 n (s : lwip H) :
  packet (heap s) p ps -> (length ps <= size (heap s))%nat -> (forall x, is_byte (data s x)) -> heap s !! p = Some b -> tot_len b = total ps ->
  total ps < 2 ^ 16 -> 0 <= off -> 0 <= n ->
  pbuf_memcmp p off s2 n s = Some (if total ps <? off + n then 0xffff else
    match first_diff (take (Z.to_nat n) (drop (Z.to_nat off) (bytes_of (data s) ps))) (load (data s) s2 (Z.to_nat n)) with
    | None => 0 | Some j => Z.of_nat j + 1 end, s).
Proof.
  intros Hp Hsz Hm Hb Htot Hlt Ho Hn. unfold pbuf_memcmp. rewrite (deref_run _ _ _ _ Hb), Htot. destruct (Z.ltb_spec (total ps) (off + n)) as [|Hle]; [done|].
  destruct (pbuf_skip_run p ps off s Hp Hsz ltac:(lia)) as (ps1 & ps2 & q & -> & Hq & E & Ht & _). rewrite (bind_some _ _ _ _ _ E).
  rewrite total_app in *.
  rewrite (memcmp_loop_run q ps2) by (done || rewrite ?length_app in Hsz; lia). rewrite !Z.add_0_r.
  rewrite bytes_of_app, drop_app_ge by (rewrite (length_bytes_of _ _ _ _ _ Hp); lia). rewrite (length_bytes_of _ _ _ _ _ Hp).
  replace (Z.to_nat off - Z.to_nat (total ps1))%nat with (Z.to_nat (off - total ps1)) by lia. done.
Qed.

(** The needle is at position [i]. *)
Definition found_at (bs needle : list Z) (i : Z) : Prop :=
  i + Z.of_nat (length needle) <= Z.of_nat (length bs) /\ take (length needle) (drop (Z.to_nat i) bs) = needle.

Lemma memcmp_zero p ps b off s2 n (s : lwip H) :
  packet (heap s) p ps -> (length ps <= size (heap s))%nat -> (forall x, is_byte (data s x)) -> heap s !! p = Some b -> tot_len b = total ps ->
  total ps < 2 ^ 16 -> 0 <= off -> 0 <= n < 2 ^ 16 ->
  exists r, pbuf_memcmp p off s2 n s = Some (r, s) /\ (r = 0 <-> found_at (bytes_of (data s) ps) (load (data s) s2 (Z.to_nat n)) off).
Proof.
  intros Hp Hsz Hm Hb Htot Hlt Ho Hn. eexists. split; [apply (pbuf_memcmp_run p ps b); done || lia|]. unfold found_at. rewrite length_load.
  destruct (packet_total _ _ _ (data s) Hp) as [Ht El]. rewrite El. destruct (Z.ltb_spec (total ps) (off + n)) as [Hout|Hin]; [split; [done|lia]|].
  set (X := take _ _). assert (length X = Z.to_nat n) as EX by (unfold X; rewrite length_take, length_drop; lia).
  pose proof (first_diff_none X (load (data s) s2 (Z.to_nat n)) ltac:(by rewrite length_load)) as Hd.
  destruct (first_diff X _) as [j|]; split; [lia| |split; [lia|by apply Hd]|done].
  intros [_ E]. by apply Hd in E.
Qed.

Lemma memfind_loop_run p ps b mem n (s : lwip H) :
  packet (heap s) p ps -> (length ps <= size (heap s))%nat -> (forall x, is_byte (data s x)) -> heap s !! p = Some b -> tot_len b = total ps ->
  total ps < 2 ^ 16 -> 0 <= n < 2 ^ 16 ->
  forall k i, 0 <= i -> i + Z.of_nat k = total ps - n + 1 ->
  exists r, memfind_loop k p mem n i s = Some (r, s) /\
    let found := found_at (bytes_of (data s) ps) (load (data s) mem (Z.to_nat n)) in
    (r = 0xffff /\ (forall j, i <= j -> ~ found j) \/ i <= r /\ found r /\ forall j, i <= j < r -> ~ found j).
Proof.
  intros Hp Hsz Hm Hb Htot Hlt Hn. induction k as [|k IH]; intros i Hi Hk; cbn [memfind_loop].
  - exists 0xffff. split; [done|]. left. split; [done|]. intros j Hj [Hin _]. rewrite length_load in Hin.
    destruct (packet_total _ _ _ (data s) Hp) as [Ht El]. rewrite El in Hin. lia.
  - destruct (memcmp_zero p ps b i mem n s Hp Hsz Hm Hb Htot Hlt Hi Hn) as (r & E & Hr). rewrite (bind_some _ _ _ _ _ E).
    destruct (Z.eqb_spec r 0) as [Hr0|Hr0].
    + exists i. split; [done|]. right. split; [lia|]. split; [by apply Hr|]. intros j Hj. lia.
    + destruct (IH (i + 1) ltac:(lia) ltac:(lia)) as (r' & E' & Hcase). exists r'. split; [exact E'|].
      assert (forall j, i <= j -> ~ found_at (bytes_of (data s) ps) (load (data s) mem (Z.to_nat n)) j \/ i + 1 <= j) as Hfirst.
      { intros j Hj. destruct (decide (j = i)) as [->|]; [left; intros Hx; by apply Hr0, Hr|right; lia]. }
      destruct Hcase as [[-> Hnone]|(Hge & Hf & Hfirst')]; [left|right].
      * split; [done|]. intros j Hj. destruct (Hfirst j Hj) as [?|?]; [done|by apply Hnone].
      * split; [lia|]. split; [done|]. intros j Hj. destruct (Hfirst j ltac:(lia)) as [?|?]; [done|apply Hfirst'; lia].
Qed.

Lemma pbuf_memfind_run p ps b mem n start (s : lwip H) :
  packet (heap s) p ps -> (length ps <= size (heap s))%nat -> (forall x, is_byte (data s x)) -> heap s !! p = Some b -> tot_len b = total ps ->
  total ps < 2 ^ 16 -> 0 <= n < 2 ^ 16 -> 0 <= start ->
  exists r, pbuf_memfind p mem n start s = Some (r, s) /\
    let found := found_at (bytes_of (data s) ps) (load (data s) mem (Z.to_nat n)) in
    (r = 0xffff /\ (forall j, start <= j -> ~ found j) \/ start <= r /\ found r /\ forall j, start <= j < r -> ~ found j).
Proof.
  intros Hp Hsz Hm Hb Htot Hlt Hn Hst. unfold pbuf_memfind. rewrite (deref_run _ _ _ _ Hb), Htot. destruct (Z.leb_spec (n + start) (total ps)) as [Hle|Hgt].
  - rewrite (wrap_small 16 (total ps - n)) by lia. apply (memfind_loop_run p ps b); done || lia.
  - exists 0xffff. split; [done|]. left. split; [done|]. intros j Hj [Hin _]. rewrite length_load in Hin.
    destruct (packet_total _ _ _ (data s) Hp) as [Ht El]. rewrite El in Hin. lia.
Qed.
(** ** Writing *)

(** The pieces do not overlap. *)
Fixpoint apart (ps : list (Z * Z)) : Prop :=
  match ps with [] => True | (a, k) :: ps => clear_of a k ps /\ apart ps end.

(** Only the data of the packet differs. *)
Definition only (ps : list (Z * Z)) (m m' : mem) : Prop :=
  forall x, (forall a k, (a, k) ∈ ps -> x < a \/ a + k <= x) -> m' x = m x.

Lemma only_store a k ps m i bs : (a, k) ∈ ps -> 0 <= i -> i + Z.of_nat (length bs) <= k -> only ps m (store m (a + i) bs).
Proof. intros Hin Hi Hk x Hx. apply store_out. specialize (Hx a k Hin). lia. Qed.

Lemma only_load ps m m' b n : only ps m m' -> clear_of b (Z.of_nat n) ps -> load m' b n = load m b n.
Proof.
  intros Ho Hc. apply load_ext. intros x Hx. apply Ho. intros a k Hin.
  pose proof (proj1 (Forall_forall _ _) Hc (a, k) Hin) as Hd. cbn in Hd. unfold disjoint in Hd. lia.
Qed.

(** Writing into one piece. *)
Lemma piece_write m a k i bs : 0 <= i -> i + Z.of_nat (length bs) <= k ->
  load (store m (a + i) bs) a (Z.to_nat k) =
    take (Z.to_nat i) (load m a (Z.to_nat k)) ++ bs ++ drop (Z.to_nat i + length bs) (load m a (Z.to_nat k)).
Proof.
  intros Hi Hk. rewrite load_take, load_drop by lia.
  replace (Z.to_nat k) with (Z.to_nat i + (length bs + (Z.to_nat k - (Z.to_nat i + length bs))))%nat at 1 by lia.
  rewrite !load_app. f_equal; [|f_equal].
  - apply load_store_ne. unfold disjoint. lia.
  - rewrite Z2Nat.id by lia. by apply load_store_eq.
  - rewrite load_store_ne by (unfold disjoint; lia). f_equal. lia.
Qed.

Lemma bytes_of_write m ps1 a k ps2 i bs h p :
  packet h p (ps1 ++ (a, k) :: ps2) -> apart (ps1 ++ (a, k) :: ps2) -> 0 <= i -> i + Z.of_nat (length bs) <= k ->
  let B := bytes_of m (ps1 ++ (a, k) :: ps2) in
  let o := Z.to_nat (total ps1 + i) in
  bytes_of (store m (a + i) bs) (ps1 ++ (a, k) :: ps2) = take o B ++ bs ++ drop (o + length bs) B.
Proof.
  revert p. induction ps1 as [|[a1 k1] ps1 IH]; intros p Hp [Hc Hap] Hi Hk; cbn zeta.
  - cbn [app total foldr] in *. rewrite Z.add_0_l, !bytes_of_cons.
    rewrite bytes_of_store by (apply (clear_of_sub a k); [lia..|done]). rewrite take_app_le, drop_app_le by (rewrite length_load; lia).
    rewrite piece_write by done. by rewrite <- !app_assoc.
  - destruct Hp as (_ & b & _ & _ & _ & Hk1 & _ & Hp). destruct (packet_app _ _ _ _ Hp) as (_ & _ & Ht1).
    cbn [app total foldr] in *. fold (total ps1). rewrite !bytes_of_cons. rewrite (IH _ Hp Hap Hi Hk).
    assert (clear_of (a + i) (Z.of_nat (length bs)) [(a1, k1)]) as Hc1.
    { constructor; [|constructor]. pose proof (proj1 (Forall_forall _ _) Hc (a, k)) as Hd. cbn in Hd.
      specialize (Hd ltac:(apply elem_of_app; right; by left)). unfold disjoint in *. lia. }
    pose proof (bytes_of_store m _ _ _ Hc1) as E1. cbn [bytes_of mbind list_bind] in E1. rewrite !app_nil_r in E1. rewrite E1.
    rewrite take_app_ge, drop_app_ge by (rewrite length_load; lia). rewrite length_load, <- app_assoc.
    replace (Z.to_nat (k1 + total ps1 + i) - Z.to_nat k1)%nat with (Z.to_nat (total ps1 + i)) by lia.
    replace (Z.to_nat (k1 + total ps1 + i) + length bs - Z.to_nat k1)%nat with (Z.to_nat (total ps1 + i) + length bs)%nat by lia. done.
Qed.

Lemma put_take_drop (l : list Z) i v : (i < length l)%nat -> take i l ++ [v] ++ drop (i + 1) l = <[i := v]> l.
Proof. intros Hi. rewrite insert_take_drop by done. by rewrite Nat.add_1_r. Qed.

(** [pbuf_put_at] changes one byte, if there is one. *)
Lemma pbuf_put_at_run p ps off v (s : lwip H) :
  packet (heap s) p ps -> (length ps <= size (heap s))%nat -> apart ps -> 0 <= off < 2 ^ 16 ->
  exists m', pbuf_put_at p off v s = Some (tt, put_data m' s) /\ bytes_of m' ps = <[Z.to_nat off := v]> (bytes_of (data s) ps) /\ only ps (data s) m'.
Proof.
  intros Hp Hsz Hap Ho. destruct (pbuf_skip_run p ps off s Hp Hsz Ho) as (ps1 & ps2 & q & -> & Hq & E & Ht & Hrest).
  unfold pbuf_put_at, pbuf_skip. rewrite (bind_some _ _ _ _ _ E). destruct ps2 as [|[a k] ps2].
  - cbn in Hq. subst q. exists (data s). rewrite put_data_id. split; [done|]. split; [|done]. rewrite list_insert_ge; [done|].
    rewrite app_nil_r in *. rewrite (proj2 (packet_total _ _ _ (data s) Hp)). lia.
  - destruct Hq as (Hq0 & b & Hb & Ea & Ek & Hk & _ & Hq). rewrite (proj2 (Z.eqb_neq _ _) Hq0), (deref_run _ _ _ _ Hb), Ek, Ea, (proj2 (Z.ltb_lt _ _)) by done.
    eexists. split; [reflexivity|]. split.
    + rewrite (bytes_of_write _ _ _ _ _ _ _ _ _ Hp Hap) by (cbn; lia). cbn [length]. replace (total ps1 + (off - total ps1)) with off by lia.
      apply put_take_drop. rewrite (proj2 (packet_total _ _ _ (data s) Hp)).
      rewrite total_app. cbn [total foldr]. fold (total ps2). destruct (packet_total _ _ _ (data s) Hq). lia.
    + apply (only_store a k); [apply elem_of_app; right; by left|lia|cbn; lia].
Qed.
Lemma only_mono ps ps' m m' : (forall x, x ∈ ps -> x ∈ ps') -> only ps m m' -> only ps' m m'.
Proof. intros Hin Ho x Hx. apply Ho. intros a k Ha. apply Hx. by apply Hin. Qed.

Lemma only_trans ps m1 m2 m3 : only ps m1 m2 -> only ps m2 m3 -> only ps m1 m3.
Proof. intros H1 H2 x Hx. by rewrite (H2 x Hx), (H1 x Hx). Qed.

(** Writing [c] bytes at the start of the first piece, and the others into the rest. *)
Lemma take_piece (m m' : mem) a k ps src n c :
  0 <= c -> c = (if k <? n then k else n) -> 0 <= k -> 0 <= n -> disjoint src n a k -> clear_of a k ps ->
  let m1 := memcpy m a src (Z.to_nat c) in
  bytes_of m' ps = load m1 (src + c) (Z.to_nat (n - c)) ++ drop (Z.to_nat (n - c)) (bytes_of m1 ps) -> only ps m1 m' ->
  bytes_of m' ((a, k) :: ps) = load m src (Z.to_nat n) ++ drop (Z.to_nat n) (bytes_of m ((a, k) :: ps)).
Proof.
  intros Hc0 Hc Hk Hn Hd Hcl m1 E Ho. assert (c <= k /\ c <= n) as [Hck Hcn] by (rewrite Hc; destruct (Z.ltb_spec k n); lia).
  rewrite !bytes_of_cons, E. rewrite (only_load ps m1 m') by (done || by rewrite Z2Nat.id).
  unfold m1, memcpy. rewrite bytes_of_store by (rewrite length_load; apply (clear_of_sub a k); [lia..|done]).
  rewrite (load_store_ne _ _ _ (src + c)) by (rewrite length_load; unfold disjoint in *; lia).
  replace (Z.to_nat k) with (Z.to_nat c + Z.to_nat (k - c))%nat at 1 by lia. rewrite load_app, load_store_eq by (by rewrite length_load).
  rewrite (load_store_ne _ _ _ (a + Z.of_nat (Z.to_nat c))) by (rewrite length_load; unfold disjoint; lia).
  replace (Z.to_nat n) with (Z.to_nat c + Z.to_nat (n - c))%nat by lia. rewrite load_app, <- !app_assoc. f_equal.
  rewrite !Z2Nat.id by lia. destruct (Z.ltb_spec k n) as [Hlt|Hge]; subst c.
  - rewrite Z.sub_diag. change (load m (a + k) (Z.to_nat 0)) with (@nil Z). cbn [app]. f_equal. rewrite drop_app_ge by (rewrite length_load; lia).
    rewrite length_load. f_equal. lia.
  - rewrite Z.sub_diag. change (load m (src + n) (Z.to_nat 0)) with (@nil Z). cbn [app]. change (Z.to_nat 0) with 0%nat.
    rewrite Nat.add_0_r, drop_0, drop_app_le, load_drop by (rewrite ?length_load; lia). rewrite Z2Nat.id by lia. do 2 f_equal. lia.
Qed.

Lemma take_run ps : forall fuel p src n cop (s : lwip H),
  packet (heap s) p ps -> (length ps <= fuel)%nat -> apart ps -> 0 <= n <= total ps -> clear_of (src + cop) n ps ->
  exists m', take_loop fuel p src n cop s = Some (ERR_OK, put_data m' s) /\
    bytes_of m' ps = load (data s) (src + cop) (Z.to_nat n) ++ drop (Z.to_nat n) (bytes_of (data s) ps) /\ only ps (data s) m'.
Proof.
  induction ps as [|[a k] ps IH]; intros fuel p src n cop s Hp Hf Hap Hn Hcl.
  { cbn in Hn. replace n with 0 by lia. exists (data s). rewrite put_data_id. split; [by destruct fuel|done]. }
  destruct (Z.eqb_spec n 0) as [->|Hn0].
  { exists (data s). rewrite put_data_id. split; [by destruct fuel|]. by rewrite drop_0. }
  destruct Hp as (Hp0 & b & Hb & Ea & Ek & Hk & _ & Hp). destruct fuel as [|fuel]; [cbn in Hf; lia|]. cbn [take_loop].
  rewrite (proj2 (Z.eqb_neq _ _) Hn0), (deref_run _ _ _ _ Hb), Ek, Ea, copy_data_run. set (c := if k <? n then k else n).
  assert (0 <= c <= k /\ c <= n /\ n - c <= total ps) as (Hc & Hcn & Hrest).
  { cbn [total foldr] in Hn. fold (total ps) in Hn. destruct (packet_total _ _ _ (data s) Hp). unfold c. destruct (Z.ltb_spec k n); lia. }
  destruct Hap as [Hap1 Hap]. apply Forall_cons in Hcl as [Hd Hcl]. set (m1 := memcpy (data s) a (src + cop) (Z.to_nat c)).
  destruct (IH fuel (next b) src (n - c) (cop + c) (put_data m1 s)) as (m' & E & Hm' & Ho); try done; try lia.
  { cbn in Hf. lia. }
  { apply (clear_of_sub (src + cop) n); [lia..|done]. }
  cbn [put_data data] in Hm', Ho. rewrite put_data_data in E. exists m'. split; [exact E|]. split.
  - replace (src + (cop + c)) with (src + cop + c) in Hm' by lia. apply (take_piece (data s) m' a k ps (src + cop) n c); done || lia.
  - apply (only_trans _ _ m1); [|apply (only_mono ps); [by right|done]].
    unfold m1, memcpy. pose proof (only_store a k ((a, k) :: ps) (data s) 0 (load (data s) (src + cop) (Z.to_nat c))) as Hst.
    rewrite Z.add_0_r in Hst. apply Hst; [by left|lia|rewrite length_load; lia].
Qed.

(** [pbuf_take] replaces the first bytes of the packet. *)
Lemma pbuf_take_run p ps src n (s : lwip H) :
  packet (heap s) p ps -> (length ps <= size (heap s))%nat -> apart ps -> p <> 0 -> src <> 0 -> total ps < 2 ^ 16 -> 0 <= n -> clear_of src n ps ->
  if n <=? total ps then
    exists m', pbuf_take p src n s = Some (ERR_OK, put_data m' s) /\
      bytes_of m' ps = load (data s) src (Z.to_nat n) ++ drop (Z.to_nat n) (bytes_of (data s) ps) /\ only ps (data s) m'
  else pbuf_take p src n s = Some (ERR_MEM, s).
Proof.
  intros Hp Hsz Hap Hp0 Hs0 Ht Hn Hcl. destruct ps as [|[a k] ps]; [done|]. pose proof Hp as (_ & b & Hb & Ea & Ek & Hk & Etot & Hp').
  destruct (packet_total _ _ _ (data s) Hp') as [Ht0 _].
  unfold pbuf_take. rewrite (proj2 (Z.eqb_neq _ _) Hp0), (proj2 (Z.eqb_neq _ _) Hs0), (deref_run _ _ _ _ Hb), Etot.
  cbn [total foldr] in *. fold (total ps) in *. rewrite wrap_small by lia. rewrite Z.ltb_antisym. destruct (Z.leb_spec n (k + total ps)) as [Hle|Hgt]; cbn [negb]; [|done].
  unfold walk_fuel, gets. rewrite (bind_some _ _ s (S (size (heap s))) s eq_refl).
  destruct (take_run ((a, k) :: ps) (S (size (heap s))) p src n 0 s Hp) as (m' & E & Hm' & Ho); try done; try lia; [by rewrite Z.add_0_r|].
  rewrite Z.add_0_r in Hm'. by exists m'.
Qed.
Lemma apart_app ps ps' : apart (ps ++ ps') -> apart ps' /\ forall a k, (a, k) ∈ ps -> clear_of a k ps'.
Proof.
  induction ps as [|[a k] ps IH]; cbn [app apart]; [intros Hap; split; [done|by intros a k ?%elem_of_nil]|].
  intros [Hc Hap]. destruct (IH Hap) as [H1 H2]. split; [done|]. intros b j [[= -> ->]|Hin]%elem_of_cons; [|by apply H2].
  by apply Forall_app in Hc as [_ ?].
Qed.

Lemma bytes_of_only ps ps' m m' : (forall a k, (a, k) ∈ ps -> clear_of a k ps') -> only ps' m m' -> bytes_of m' ps = bytes_of m ps.
Proof.
  intros Hc Ho. apply bytes_of_ext. intros x a k Hin Hx. apply Ho. intros b j Hb.
  pose proof (proj1 (Forall_forall _ _) (Hc a k Hin) (b, j) Hb) as Hd. cbn in Hd. unfold disjoint in Hd. lia.
Qed.

(** [pbuf_take_at] replaces bytes from an offset, if the packet has so many. *)
Lemma pbuf_take_at_run p ps src n off (s : lwip H) :
  packet (heap s) p ps -> (length ps <= size (heap s))%nat -> apart ps -> 0 < src -> total ps < 2 ^ 16 -> 0 <= n -> 0 <= off < 2 ^ 16 -> clear_of src n ps ->
  if (off + n <=? total ps) && (off <? total ps) then
    exists m', pbuf_take_at p src n off s = Some (ERR_OK, put_data m' s) /\
      bytes_of m' ps = take (Z.to_nat off) (bytes_of (data s) ps) ++ load (data s) src (Z.to_nat n) ++
        drop (Z.to_nat (off + n)) (bytes_of (data s) ps) /\ only ps (data s) m'
  else pbuf_take_at p src n off s = Some (ERR_MEM, s).
Proof.
  intros Hp Hsz Hap Hs0 Ht Hn Ho Hcl. destruct (pbuf_skip_run p ps off s Hp Hsz Ho) as (ps1 & ps2 & q & -> & Hq & E & Ht1 & Hrest).
  unfold pbuf_take_at, pbuf_skip. rewrite (bind_some _ _ _ _ _ E). destruct ps2 as [|[a k] ps3].
  { cbn in Hq. subst q. rewrite app_nil_r in *. rewrite (proj2 (Z.ltb_ge off _)), andb_false_r by lia. done. }
  pose proof Hq as (Hq0 & b & Hb & Ea & Ek & Hk & Etot & Hq3). destruct (packet_total _ _ _ (data s) Hq3) as [Ht3 _].
  rewrite total_app in *. cbn [total foldr] in *. fold (total ps3) in *. rewrite wrap_small in Etot by lia.
  rewrite (proj2 (Z.eqb_neq _ _) Hq0), (deref_run _ _ _ _ Hb), Ek, Ea, Etot. rewrite (proj2 (Z.ltb_lt off _)), andb_true_r by lia.
  set (t := off - total ps1) in *. assert (off = total ps1 + t) as Eoff by (unfold t; lia).
  replace (t + n <=? k + total ps3) with (off + n <=? total ps1 + (k + total ps3)) by (destruct (Z.leb_spec (off + n) (total ps1 + (k + total ps3))), (Z.leb_spec (t + n) (k + total ps3)); lia).
  destruct (Z.leb_spec (off + n) (total ps1 + (k + total ps3))) as [Hfit|]; [|done].
  set (c := Z.min (k - t) n). rewrite (wrap_small 16 c) by lia. rewrite (wrap_small 16 (n - c)) by lia. rewrite copy_data_run.
  set (m1 := memcpy (data s) (a + t) src (Z.to_nat c)). set (B := bytes_of (data s) (ps1 ++ (a, k) :: ps3)).
  assert (bytes_of m1 (ps1 ++ (a, k) :: ps3) = take (Z.to_nat off) B ++ load (data s) src (Z.to_nat c) ++ drop (Z.to_nat (off + c)) B) as E1.
  { unfold m1, memcpy. rewrite (bytes_of_write _ _ _ _ _ _ _ _ _ Hp Hap) by (rewrite ?length_load; lia). rewrite length_load, <- Eoff. fold B.
    replace (Z.to_nat off + Z.to_nat c)%nat with (Z.to_nat (off + c)) by lia. done. }
  assert (only (ps1 ++ (a, k) :: ps3) (data s) m1) as Ho1.
  { apply (only_store a k); [apply elem_of_app; right; by left|lia|rewrite length_load; lia]. }
  destruct (Z.ltb_spec 0 (n - c)) as [Hmore|Hless].
  - assert (c = k - t) as Ec by lia. assert ((ps1 ++ [(a, k)]) ++ ps3 = ps1 ++ (a, k) :: ps3) as Eps by (by rewrite <- app_assoc).
    rewrite <- Eps in Hap. destruct (apart_app _ _ Hap) as [Hap3 Hap13].
    assert (clear_of src n ps3) as Hcl3 by (rewrite <- Eps in Hcl; by apply Forall_app in Hcl as [_ ?]).
    assert (next b <> 0) as Hn0 by (intros Hn0; destruct ps3 as [|[a3 k3] ps3]; [cbn in *; lia|destruct Hq3; done]).
    pose proof (pbuf_take_run (next b) ps3 (src + c) (n - c) (put_data m1 s) Hq3) as Htake. rewrite (proj2 (Z.leb_le (n - c) (total ps3))) in Htake by lia.
    destruct Htake as (m' & E2 & Hm' & Ho2); try done; try lia.
    { rewrite length_app in Hsz. cbn in Hsz |- *. lia. }
    { apply (clear_of_sub src n); [lia..|done]. }
    cbn [put_data data] in Hm', Ho2. rewrite put_data_data in E2. exists m'. split; [exact E2|]. split; [|apply (only_trans _ _ m1); [done|apply (only_mono ps3); [|done]]].
    + rewrite <- Eps, bytes_of_app, Hm', (bytes_of_only _ ps3 m1 m' Hap13 Ho2). rewrite <- Eps, bytes_of_app in E1.
      assert (length (bytes_of m1 (ps1 ++ [(a, k)])) = Z.to_nat (off + c)) as El.
      { rewrite <- Eps in Hp. rewrite (length_bytes_of _ _ _ _ _ Hp), total_app. cbn. lia. }
      assert (length B = Z.to_nat (total ps1 + (k + total ps3))) as ElB.
      { unfold B. rewrite (proj2 (packet_total _ _ _ (data s) Hp)), total_app. done. }
      rewrite app_assoc in E1. apply app_inj_1 in E1 as [-> ->]; [|rewrite El, length_app, length_take, length_load; lia].
      assert (load m1 (src + c) (Z.to_nat (n - c)) = load (data s) (src + c) (Z.to_nat (n - c))) as ->.
      { apply (only_load _ _ _ _ _ Ho1). apply (clear_of_sub src n); [lia..|done]. }
      rewrite drop_drop, <- !app_assoc. f_equal. rewrite app_assoc. f_equal; [|f_equal; lia].
      replace (Z.to_nat n) with (Z.to_nat c + Z.to_nat (n - c))%nat by lia. rewrite load_app, Z2Nat.id by lia. done.
    + intros x Hx. apply elem_of_app. right. by right.
  - exists m1. assert (c = n) as Ec by lia. split; [done|]. split; [by rewrite E1, Ec|done].
Qed.
(** ** Copying a packet *)

(** No part is the end of the data unless it is the last one. *)
Fixpoint proper (ps : list (Z * Z)) : Prop :=
  match ps with [] => True | (_, _) :: ps => (ps = [] \/ 0 < total ps) /\ proper ps end.

(** The bytes [bs] written at offset [o]. *)
Definition spliced (o : Z) (bs B : list Z) : list Z := take (Z.to_nat o) B ++ bs ++ drop (Z.to_nat o + length bs) B.

Lemma spliced_nil o B : spliced o [] B = B.
Proof. unfold spliced. cbn [length app]. rewrite Nat.add_0_r. apply take_drop. Qed.

Lemma spliced_more o bs bs' B :
  0 <= o -> (Z.to_nat o + length bs <= length B)%nat ->
  spliced (o + Z.of_nat (length bs)) bs' (spliced o bs B) = spliced o (bs ++ bs') B.
Proof.
  intros Ho Hl. unfold spliced. replace (Z.to_nat (o + Z.of_nat (length bs))) with (Z.to_nat o + length bs)%nat by lia.
  assert (length (take (Z.to_nat o) B ++ bs) = Z.to_nat o + length bs)%nat as El by (rewrite length_app, length_take; lia).
  rewrite (app_assoc (take (Z.to_nat o) B) bs). rewrite take_app_length' by done. rewrite drop_app_ge by lia. rewrite El, drop_drop, <- !app_assoc. do 4 f_equal. rewrite length_app. lia.
Qed.

Lemma spliced_next o bs bs' X Y :
  0 <= o -> (Z.to_nat o + length bs = length X)%nat -> spliced o bs X ++ spliced 0 bs' Y = spliced o (bs ++ bs') (X ++ Y).
Proof.
  intros Ho Hl. unfold spliced. rewrite take_app_le by lia. rewrite (drop_ge X) by lia. rewrite app_nil_r, take_0. cbn [app].
  rewrite drop_app_ge by (rewrite length_app; lia). rewrite <- !app_assoc. do 4 f_equal. rewrite length_app. lia.
Qed.

Lemma packet_head h p a k ps (m : mem) : packet h p ((a, k) :: ps) -> total ((a, k) :: ps) < 2 ^ 16 ->
  p <> 0 /\ 0 <= k /\ 0 <= total ps /\ exists b, h !! p = Some b /\ payload b = a /\ len b = k /\ tot_len b = k + total ps /\ packet h (next b) ps /\
    (next b = 0 <-> ps = []).
Proof.
  intros (Hp0 & b & Hb & Ea & Ek & Hk & Et & Hp) Ht. destruct (packet_total _ _ _ m Hp) as [Ht0 _]. cbn [total foldr] in Ht. fold (total ps) in Ht.
  split; [done|]. split; [lia|]. split; [done|]. exists b. rewrite wrap_small in Et by lia. split_and!; try done. split.
  - intros E. destruct ps as [|[a' k'] ps]; [done|]. by destruct Hp.
  - intros ->. exact Hp.
Qed.

Lemma queue_end_run p ps (s : lwip H) : packet (heap s) p ps -> total ps < 2 ^ 16 -> proper ps -> queue_end p s = Some (false, s).
Proof.
  intros Hp Ht Hpr. unfold queue_end. destruct ps as [|[a k] ps]; [cbn in Hp; by subst p|].
  destruct (packet_head _ _ _ _ _ (data s) Hp Ht) as (Hp0 & Hk & Ht0 & b & Hb & _ & El & Et & _ & Hn).
  rewrite (proj2 (Z.eqb_neq _ _) Hp0), (deref_run _ _ _ _ Hb), El, Et. unfold ret. do 2 f_equal. apply andb_false_iff.
  destruct Hpr as [[Hps|Hpos] _]; [right|left; apply Z.eqb_neq; lia]. apply negb_false_iff, Z.eqb_eq. by apply Hn.
Qed.

(** The place in the target after [n] bytes, and the place in the source. *)
Definition place (n o k : Z) (ps ps' : list (Z * Z)) : list (Z * Z) * Z := if o + n =? k then (ps', 0) else (ps, o + n).

Lemma to_step (m m1 m' : mem) a k pt ot bs bs' h p :
  packet h p ((a, k) :: pt) -> apart ((a, k) :: pt) -> 0 <= ot -> ot + Z.of_nat (length bs) <= k -> m1 = store m (a + ot) bs ->
  let '(pt2, ot2) := place (Z.of_nat (length bs)) ot k ((a, k) :: pt) pt in
  bytes_of m' pt2 = spliced ot2 bs' (bytes_of m1 pt2) -> only pt2 m1 m' ->
  bytes_of m' ((a, k) :: pt) = spliced ot (bs ++ bs') (bytes_of m ((a, k) :: pt)) /\ only ((a, k) :: pt) m m'.
Proof.
  intros Hp Hap Ho Hk ->. assert (only ((a, k) :: pt) m (store m (a + ot) bs)) as Ho1 by (apply (only_store a k); [by left|lia..]).
  pose proof (bytes_of_write m [] a k pt ot bs h p Hp Hap Ho Hk) as E1. cbn [app total foldr] in E1. rewrite Z.add_0_l in E1.
  fold (spliced ot bs (bytes_of m ((a, k) :: pt))) in E1. unfold place. destruct (Z.eqb_spec (ot + Z.of_nat (length bs)) k) as [E|E]; intros Hm' Ho2.
  - split; [|apply (only_trans _ _ _ _ Ho1), (only_mono pt); [by right|done]]. destruct Hap as [Hc Hap].
    assert (bytes_of (store m (a + ot) bs) pt = bytes_of m pt) as Epl by (apply bytes_of_store; apply (clear_of_sub a k); [lia..|done]).
    rewrite !bytes_of_cons, Hm', Epl. rewrite (only_load pt (store m (a + ot) bs) m') by (done || (rewrite Z2Nat.id by lia; done)).
    rewrite piece_write by done. fold (spliced ot bs (load m a (Z.to_nat k))). apply spliced_next; [done|]. rewrite length_load. lia.
  - split; [|apply (only_trans _ _ _ _ Ho1 Ho2)]. rewrite Hm', E1. apply spliced_more; [done|].
    rewrite bytes_of_cons, length_app, length_load. lia.
Qed.

Lemma from_step (m : mem) b j pf ofs n :
  0 <= ofs -> 0 <= n -> ofs + n <= j ->
  drop (Z.to_nat ofs) (bytes_of m ((b, j) :: pf)) =
    load m (b + ofs) (Z.to_nat n) ++
    (let '(pf2, ofs2) := place n ofs j ((b, j) :: pf) pf in drop (Z.to_nat ofs2) (bytes_of m pf2)).
Proof.
  intros Ho Hn Hj. rewrite bytes_of_cons. rewrite drop_app_le by (rewrite length_load; lia). rewrite load_drop by lia. rewrite Z2Nat.id by lia.
  unfold place. destruct (Z.eqb_spec (ofs + n) j) as [E|E].
  - change (Z.to_nat 0) with 0%nat. rewrite drop_0. do 2 f_equal. lia.
  - rewrite bytes_of_cons, drop_app_le by (rewrite length_load; lia). rewrite load_drop by lia. rewrite app_assoc. f_equal.
    replace (Z.to_nat j - Z.to_nat ofs)%nat with (Z.to_nat n + (Z.to_nat j - Z.to_nat (ofs + n)))%nat by lia. rewrite load_app. f_equal. f_equal. lia.
Qed.

Lemma place_part n o k x ps : let r := fst (place n o k (x :: ps) ps) in
  (forall y, y ∈ r -> y ∈ x :: ps) /\ (apart (x :: ps) -> apart r) /\ length r = if o + n =? k then length ps else S (length ps).
Proof. unfold place. destruct (o + n =? k); cbn [fst]; [|done]. split; [by right|]. split; [|done]. destruct x. by intros []. Qed.

(** Where a copy has got to in a packet: the pieces from the current one on, and the
    offset in it. *)
Record cursor (h : gmap Z struct_pbuf) (p o : Z) (ps : list (Z * Z)) : Prop := {
  cu_packet : packet h p ps;
  cu_total : total ps < 2 ^ 16;
  cu_proper : proper ps;
  cu_offset : 0 <= o;
  cu_in : match ps with [] => o = 0 | (_, k) :: _ => o = 0 \/ o < k end;
}.

Lemma cursor_step h p o a k ps b n (m : mem) :
  cursor h p o ((a, k) :: ps) -> h !! p = Some b -> 0 <= n -> o + n <= k ->
  let '(ps2, o2) := place n o k ((a, k) :: ps) ps in
  cursor h (if o + n =? k then next b else p) o2 ps2 /\ total ps2 - o2 = total ((a, k) :: ps) - o - n.
Proof.
  intros [Hp Ht Hpr Ho Hin] Hb Hn Hk. destruct (packet_head _ _ _ _ _ m Hp Ht) as (_ & Hk0 & Ht0 & b' & Hb' & _ & _ & _ & Hp' & _).
  rewrite Hb in Hb'. injection Hb' as <-. unfold place. destruct (Z.eqb_spec (o + n) k) as [E|E]; cbn [total foldr] in *; fold (total ps) in *.
  - split; [|lia]. split; try done; [lia|by destruct Hpr|]. destruct ps as [|[a' k'] ps]; [done|by left].
  - split; [|lia]. split; try done; [lia|]. right. lia.
Qed.

Lemma cursor_rest h p o ps (m : mem) : cursor h p o ps -> 0 <= total ps - o /\ (p = 0 <-> ps = []).
Proof.
  intros [Hp Ht Hpr Ho Hin]. destruct ps as [|[a k] ps]; [cbn in *; subst; split; [lia|done]|].
  destruct (packet_head _ _ _ _ _ m Hp Ht) as (Hp0 & Hk0 & Ht0 & _). cbn [total foldr]. fold (total ps). split; [lia|done].
Qed.

(** Inside a packet there is always something left. *)
Lemma cursor_left h p o a k ps b n (m : mem) :
  cursor h p o ((a, k) :: ps) -> h !! p = Some b -> 0 <= n -> o + n <= k ->
  let '(ps2, o2) := place n o k ((a, k) :: ps) ps in ps2 = [] \/ 0 < total ps2 - o2.
Proof.
  intros [Hp Ht Hpr Ho Hin] Hb Hn Hk. destruct (packet_head _ _ _ _ _ m Hp Ht) as (_ & Hk0 & Ht0 & _). unfold place.
  destruct (Z.eqb_spec (o + n) k) as [E|E].
  - destruct Hpr as [[->|?] _]; [by left|right; lia].
  - right. cbn [total foldr]. fold (total ps). lia.
Qed.

Lemma copy_run fuel : forall p_to ot p_from ofs pt pf (s : lwip H),
  cursor (heap s) p_to ot pt -> cursor (heap s) p_from ofs pf -> apart pt -> (forall a k, (a, k) ∈ pt -> clear_of a k pf) ->
  pt <> [] -> pf <> [] -> total pf - ofs <= total pt - ot -> (length pt + length pf <= fuel)%nat ->
  exists m', copy_loop fuel p_to ot p_from ofs s = Some (ERR_OK, put_data m' s) /\
    bytes_of m' pt = spliced ot (drop (Z.to_nat ofs) (bytes_of (data s) pf)) (bytes_of (data s) pt) /\ only pt (data s) m'.
Proof.
  induction fuel as [|fuel IH]; intros p_to ot p_from ofs pt pf s Hct Hcf Hap Hcl Hpt Hpf Hroom Hf.
  { destruct pt; [done|]. cbn in Hf. lia. }
  destruct pt as [|[a k] pt]; [done|]. destruct pf as [|[b j] pf]; [done|]. pose proof Hct as [Hp Ht Hpr Ho Hin]. pose proof Hcf as [Hp' Ht' Hpr' Ho' Hin'].
  destruct (packet_head _ _ _ _ _ (data s) Hp Ht) as (Hp0 & Hk0 & _ & t & Hbt & Eat & Ekt & _).
  destruct (packet_head _ _ _ _ _ (data s) Hp' Ht') as (Hp0' & Hj0 & _ & f & Hbf & Eaf & Ejf & _).
  cbn [copy_loop]. rewrite (deref_run _ _ _ _ Hbt), (deref_run _ _ _ _ Hbf), Ekt, Eat, Ejf, Eaf, copy_data_run.
  set (n := if j - ofs <=? k - ot then j - ofs else k - ot).
  assert (0 <= n /\ ot + n <= k /\ ofs + n <= j /\ (ot + n = k \/ ofs + n = j)) as (Hn & Hnk & Hnj & Hone).
  { unfold n. destruct (Z.leb_spec (j - ofs) (k - ot)); lia. }
  set (bs := load (data s) (b + ofs) (Z.to_nat n)). assert (Z.of_nat (length bs) = n) as Ebs by (unfold bs; rewrite length_load; lia).
  unfold memcpy. fold bs. set (m1 := store (data s) (a + ot) bs).
  pose proof (cursor_step _ _ _ _ _ _ _ n (data s) Hct Hbt Hn Hnk) as Hst. pose proof (cursor_step _ _ _ _ _ _ _ n (data s) Hcf Hbf Hn Hnj) as Hsf.
  pose proof (cursor_left _ _ _ _ _ _ _ n (data s) Hcf Hbf Hn Hnj) as Hleft.
  pose proof (from_step (data s) b j pf ofs n Ho' Hn Hnj) as Efrom. fold bs in Efrom.
  pose proof (fun m' bs' => to_step (data s) m1 m' a k pt ot bs bs' (heap s) p_to Hp Hap Ho ltac:(lia) eq_refl) as Hto. rewrite Ebs in Hto.
  destruct (place_part n ot k (a, k) pt) as (Hsubt & Hap2 & Hlt2), (place_part n ofs j (b, j) pf) as (Hsubf & _ & Hlf2). specialize (Hap2 Hap).
  assert (length (fst (place n ot k ((a, k) :: pt) pt)) + length (fst (place n ofs j ((b, j) :: pf) pf)) <= fuel)%nat as Hf2.
  { cbn in Hf. destruct (Z.eqb_spec (ot + n) k), (Z.eqb_spec (ofs + n) j); lia. }
  assert ((if j <=? ofs + n then (next f, 0) else (p_from, ofs + n)) = (if ofs + n =? j then next f else p_from, snd (place n ofs j ((b, j) :: pf) pf))) as ->.
  { unfold place. destruct (Z.leb_spec j (ofs + n)), (Z.eqb_spec (ofs + n) j); done || lia. }
  assert ((if ot + n =? k then (next t, 0) else (p_to, ot + n)) = (if ot + n =? k then next t else p_to, snd (place n ot k ((a, k) :: pt) pt))) as ->.
  { unfold place. by destruct (Z.eqb_spec (ot + n) k). }
  destruct (place n ot k ((a, k) :: pt) pt) as [pt2 ot2], (place n ofs j ((b, j) :: pf) pf) as [pf2 ofs2]. cbn [fst snd] in *.
  set (p_to2 := if ot + n =? k then next t else p_to) in *. set (p_from2 := if ofs + n =? j then next f else p_from) in *.
  destruct Hst as [Hct2 Et2], Hsf as [Hcf2 Ef2]. destruct (cursor_rest _ _ _ _ (data s) Hct2) as [Hrt Hzt], (cursor_rest _ _ _ _ (data s) Hcf2) as [Hrf Hzf].
  rewrite (proj2 (andb_false_iff _ _)).
  2:{ destruct Hleft as [Hnil|Hpos]; [right; apply negb_false_iff, Z.eqb_eq, Hzf, Hnil|left]. apply Z.eqb_neq. intros E%Hzt. subst pt2.
      pose proof (cu_in _ _ _ _ Hct2) as E0. cbn in E0. change (total []) with 0 in Et2. lia. }
  rewrite (bind_some _ _ _ _ _ (queue_end_run p_from2 pf2 (put_data m1 s) (cu_packet _ _ _ _ Hcf2) (cu_total _ _ _ _ Hcf2) (cu_proper _ _ _ _ Hcf2))).
  rewrite (bind_some _ _ _ _ _ (queue_end_run p_to2 pt2 (put_data m1 s) (cu_packet _ _ _ _ Hct2) (cu_total _ _ _ _ Hct2) (cu_proper _ _ _ _ Hct2))).
  destruct (Z.eqb_spec p_from2 0) as [Hz|Hz]; cbn [negb].
  - apply Hzf in Hz. subst pf2. exists m1. split; [done|]. rewrite Efrom. cbn [bytes_of mbind list_bind]. rewrite drop_nil.
    apply Hto; [by rewrite spliced_nil|done].
  - assert (pf2 <> []) as Hpf2 by (intros ?; by apply Hz, Hzf).
    assert (pt2 <> []) as Hpt2.
    { intros ->. destruct Hleft as [?|Hpos]; [done|]. pose proof (cu_in _ _ _ _ Hct2) as E0. cbn in E0. change (total []) with 0 in Et2. lia. }
    assert (bytes_of m1 pf2 = bytes_of (data s) pf2) as Epf.
    { apply bytes_of_store. rewrite Ebs. pose proof (Hcl a k ltac:(by left)) as Hc. apply Forall_forall. intros [c i] Hc2.
      pose proof (proj1 (Forall_forall _ _) Hc (c, i) (Hsubf _ Hc2)) as Hd. cbn in Hd |- *. unfold disjoint in *. lia. }
    destruct (IH p_to2 ot2 p_from2 ofs2 pt2 pf2 (put_data m1 s)) as (m' & E & Hm' & Ho2); try done; try lia.
    + intros c i Hc2. pose proof (Hcl c i (Hsubt _ Hc2)) as Hc. apply Forall_forall. intros x Hx. apply (proj1 (Forall_forall _ _) Hc). by apply Hsubf.
    + exists m'. cbn [put_data data] in Hm', Ho2. rewrite Epf in Hm'. split; [exact E|]. rewrite Efrom. by apply Hto.
Qed.
Lemma packet_cursor h p ps : packet h p ps -> total ps < 2 ^ 16 -> proper ps -> cursor h p 0 ps.
Proof. intros Hp Ht Hpr. split; try done. destruct ps as [|[a k] ps]; [done|by left]. Qed.

(** [pbuf_copy] puts the data of one packet into another one that is large enough. *)
Lemma pbuf_copy_run p_to p_from pt pf (s : lwip H) :
  packet (heap s) p_to pt -> packet (heap s) p_from pf -> (length pt <= size (heap s))%nat -> (length pf <= size (heap s))%nat ->
  pt <> [] -> pf <> [] -> proper pt -> proper pf -> apart pt -> (forall a k, (a, k) ∈ pt -> clear_of a k pf) ->
  total pf <= total pt < 2 ^ 16 ->
  exists m', pbuf_copy p_to p_from s = Some (ERR_OK, put_data m' s) /\ only pt (data s) m' /\
    bytes_of m' pt = bytes_of (data s) pf ++ drop (length (bytes_of (data s) pf)) (bytes_of (data s) pt).
Proof.
  intros Hp Hp' Hs1 Hs2 Hn1 Hn2 Hpr Hpr' Hap Hcl Ht.
  pose proof (packet_cursor _ _ _ Hp ltac:(lia) Hpr) as Hct. pose proof (packet_cursor _ _ _ Hp' ltac:(lia) Hpr') as Hcf.
  destruct (copy_run (2 * S (size (heap s))) p_to 0 p_from 0 pt pf s Hct Hcf Hap Hcl Hn1 Hn2 ltac:(lia) ltac:(lia)) as (m' & E & Hm' & Ho).
  exists m'. split; [|split; [done|by rewrite Hm', drop_0]]. destruct pt as [|[a k] pt]; [done|]. destruct pf as [|[b j] pf]; [done|].
  destruct (packet_head _ _ _ _ _ (data s) Hp ltac:(lia)) as (Hp0 & _ & _ & t & Hbt & _ & _ & Ett & _).
  destruct (packet_head _ _ _ _ _ (data s) Hp' ltac:(lia)) as (Hp0' & _ & _ & f & Hbf & _ & _ & Etf & _).
  cbn [total foldr] in Ht. fold (total pt) (total pf) in Ht.
  unfold pbuf_copy. rewrite (proj2 (Z.eqb_neq _ _) Hp0), (proj2 (Z.eqb_neq _ _) Hp0'). cbn [orb].
  rewrite (deref_run _ _ _ _ Hbt), (deref_run _ _ _ _ Hbf), Ett, Etf, (proj2 (Z.leb_le _ _)) by lia. cbn [negb].
  unfold walk_fuel, gets. by rewrite (bind_some _ _ s (S (size (heap s))) s eq_refl).
Qed.

(** The data of a chain of contiguous pbufs: apart from each other, and from that of others. *)
Lemma parts_elem (h : gmap Z struct_pbuf) l a k : (a, k) ∈ parts h l -> exists x b, x ∈ l /\ h !! x = Some b /\ a = payload b /\ k = len b.
Proof.
  unfold parts, bufs. intros (b & [= -> ->] & (x & Hx & Hb)%list_elem_of_omap)%list_elem_of_fmap. by exists x, b.
Qed.

Lemma parts_clear s own l x b :
  valid s own -> (forall y c, y ∈ l -> heap s !! y = Some c -> contiguous c) -> x ∉ l -> heap s !! x = Some b -> contiguous b ->
  clear_of (payload b) (len b) (parts (heap s) l).
Proof.
  intros Hv Hall Hx Hb Hc. apply Forall_forall. intros [a k] (y & c & Hy & Hyc & -> & ->)%parts_elem.
  apply (contiguous_apart s own x b y c Hv Hb Hyc); [by intros ->|done|by apply (Hall y)].
Qed.

Lemma parts_apart s own l :
  valid s own -> NoDup l -> (forall y c, y ∈ l -> heap s !! y = Some c -> contiguous c) -> apart (parts (heap s) l).
Proof.
  intros Hv. induction l as [|x l IH]; intros Hnd Hall; [done|]. apply NoDup_cons in Hnd as [Hx Hnd].
  assert (apart (parts (heap s) l)) as Hap by (apply IH; [done|]; intros y c Hy; apply Hall; by right).
  unfold parts, bufs in *. cbn [omap list_omap]. destruct (heap s !! x) as [b|] eqn:Hb; [|done]. split; [|done].
  apply (parts_clear s own l x b Hv); [intros y c Hy; apply Hall; by right|done|done|apply (Hall x); [by left|done]].
Qed.

(** Data of contiguous pbufs is kept by what keeps the blocks. *)
Lemma parts_kept s own l m :
  valid s own -> (forall y c, y ∈ l -> heap s !! y = Some c -> contiguous c) -> kept (live (outside s)) (data s) m ->
  bytes_of m (parts (heap s) l) = bytes_of (data s) (parts (heap s) l).
Proof.
  intros Hv Hall Hk. apply bytes_of_ext. intros z a k (y & c & Hy & Hyc & -> & ->)%parts_elem Hz. apply (kp_same _ _ _ Hk). right. right.
  destruct (so_placed _ _ (va_sound _ _ Hv) y c Hyc) as [(n & Hn & _ & Hin) _ _ _]. exists (y - 8), n. split; [done|].
  specialize (Hin (Hall y c Hy Hyc)). lia.
Qed.

(** The copy is one contiguous pbuf with the same data, or there is none. *)
Lemma pbuf_clone_valid custom_free_function layer p b l s own :
  valid s own -> heap s !! p = Some b -> chain (graph_of (heap s)) p l -> (forall y c, y ∈ l -> heap s !! y = Some c -> contiguous c) ->
  proper (parts (heap s) l) -> total (parts (heap s) l) < 2 ^ 16 ->
  exists r s', pbuf_clone custom_free_function layer PBUF_RAM p s = Some (r, s') /\ valid s' (granted r own) /\
    bytes_of (data s') (parts (heap s) l) = bytes_of (data s) (parts (heap s) l) /\
    (r = 0 /\ heap s' = heap s \/
     r <> 0 /\ heap s !! r = None /\ exists c, heap s' = <[r := c]> (heap s) /\ next c = 0 /\
       load (data s') (payload c) (Z.to_nat (len c)) = bytes_of (data s) (parts (heap s) l)).
Proof.
  intros Hv Hb Hc Hall Hpr Ht. destruct (valid_packet s own p b Hv Hb) as (l0 & Hc0 & Hp & Hsz & Etot). rewrite <- (chain_det _ _ _ _ Hc Hc0) in *. clear l0 Hc0.
  destruct (packet_total _ _ _ (data s) Hp) as [Ht0 El]. rewrite wrap_small in Etot by lia.
  unfold pbuf_clone. rewrite (deref_run _ _ _ _ Hb), Etot.
  destruct (pbuf_alloc_ram_valid custom_free_function layer (total (parts (heap s) l)) s own Hv ltac:(lia)) as (r & s1 & E & Hv1 & Hk & Hres).
  rewrite (bind_some _ _ _ _ _ E). pose proof (parts_kept s own l _ Hv Hall Hk) as Ekept. destruct Hres as [(-> & Eh & Ed)|(Hr & Hf & Eh)].
  { exists 0, s1. split; [done|]. split; [done|]. split; [done|]. by left. }
  set (c := StructPbuf _ _ _ _ _ _ _ _) in *. rewrite (proj2 (Z.eqb_neq _ _) Hr).
  assert (r ∉ l) as Hrl.
  { intros Hin. destruct (chain_elem _ _ _ _ Hc Hin) as [_ [[q k] Hq]]. destruct (graph_lookup_inv _ _ _ _ Hq) as (d & Hd & _). congruence. }
  assert (forall x, x ∈ l -> heap s1 !! x = heap s !! x) as Hsame by (intros x Hx; rewrite Eh, lookup_insert_ne; [done|congruence]).
  assert (chain (graph_of (heap s1)) p l) as Hc1 by (rewrite Eh, graph_insert; by apply chain_insert).
  assert (parts (heap s1) l = parts (heap s) l) as Eparts by (apply parts_ext; intros x Hx; by rewrite Hsame).
  pose proof (chain_packet s1 _ p l Hv1 Hc1) as Hp1. rewrite Eparts in Hp1.
  assert (heap s1 !! r = Some c) as Hrc by (rewrite Eh; apply lookup_insert_eq).
  assert (packet (heap s1) r [(payload c, len c)]) as Hpr1.
  { split; [done|]. exists c. split_and!; try done; cbn [c len tot_len]; [lia..|]. rewrite Z.add_0_r. symmetry. apply wrap_small. lia. }
  assert (clear_of (payload c) (len c) (parts (heap s) l)) as Hclear.
  { rewrite <- Eparts. apply (parts_clear s1 _ l r c Hv1); [|done|done|done]. intros y d Hy. rewrite (Hsame y Hy). by apply Hall. }
  assert (length (parts (heap s) l) <= size (heap s1))%nat as Hsz1 by (rewrite Eh, map_size_insert, Hf; cbn; lia).
  destruct (pbuf_copy_run r p [(payload c, len c)] (parts (heap s) l) s1 Hpr1 Hp1) as (m' & E2 & Ho & Hm'); try done.
  { rewrite Eh, map_size_insert, Hf. cbn. lia. }
  { destruct (parts (heap s) l); [|done]. cbn in Hp. subst p. apply graph_lookup in Hb. by rewrite (lk_null _ _ (so_links _ _ (va_sound _ _ Hv))) in Hb. }
  { split; [by left|done]. }
  { split; [constructor|done]. }
  { intros a k [[= -> ->]|?%elem_of_nil]%elem_of_cons; done. }
  { cbn [total foldr c len]. lia. }
  rewrite (bind_some _ _ _ _ _ E2). exists r, (put_data m' s1). split; [done|]. split; [by apply (valid_state s1)|]. cbn [put_data data heap].
  split; [|right; split; [done|split; [done|exists c; split; [done|split; [done|]]]]].
  - rewrite (bytes_of_only _ [(payload c, len c)] (data s1) m'); [done| |done]. intros a k Hin. constructor; [|constructor].
    pose proof (proj1 (Forall_forall _ _) Hclear (a, k) Hin) as Hd. cbn in Hd |- *. unfold disjoint in *. lia.
  - rewrite bytes_of_cons in Hm'. cbn [bytes_of mbind list_bind] in Hm'. rewrite !app_nil_r in Hm'. rewrite Hm', Ekept, drop_ge; [apply app_nil_r|].
    rewrite length_load, El. done.
Qed.

(** [pbuf_coalesce] makes one piece of a packet, if there is memory. *)
Lemma pbuf_coalesce_valid custom_free_function layer p b l s own :
  valid s own -> heap s !! p = Some b -> chain (graph_of (heap s)) p l -> (forall y c, y ∈ l -> heap s !! y = Some c -> contiguous c) ->
  proper (parts (heap s) l) -> total (parts (heap s) l) < 2 ^ 16 -> 0 < own p ->
  exists r s' l', pbuf_coalesce custom_free_function p layer s = Some (r, s') /\ valid s' (granted r (own_add p (-1) own)) /\
    chain (graph_of (heap s')) r l' /\ (r = p \/ l' = [r]) /\
    bytes_of (data s') (parts (heap s') l') = bytes_of (data s) (parts (heap s) l).
Proof.
  intros Hv Hb Hc Hall Hpr Ht Ho. pose proof (pbuf_not_null _ _ _ _ (va_sound _ _ Hv) Hb) as Hp0.
  assert (forall t, valid t own -> valid t (granted p (own_add p (-1) own))) as Hback.
  { intros t Hvt. unfold granted. rewrite decide_False by done. eapply valid_ext; [|exact Hvt]. intros x. symmetry. apply (own_add_cancel p (-1)). }
  unfold pbuf_coalesce. rewrite (deref_run _ _ _ _ Hb). destruct (Z.eqb_spec (next b) 0) as [Hn|Hn].
  { exists p, s, l. split; [done|]. split; [by apply Hback|]. split; [done|]. split; [by left|done]. }
  destruct (pbuf_clone_valid custom_free_function layer p b l s own Hv Hb Hc Hall Hpr Ht) as (r & s1 & E & Hv1 & Ebytes & Hres).
  rewrite (bind_some _ _ _ _ _ E). destruct Hres as [(-> & Eh)|(Hr & Hf & c & Eh & Hcn & Ec)].
  { exists p, s1, l. cbn [Z.eqb]. unfold granted in Hv1. rewrite decide_True in Hv1 by done. rewrite Eh. split; [done|]. split; [by apply Hback|].
    split; [done|]. split; [by left|done]. }
  assert (r <> p) as Hrp by congruence.
  assert (r ∉ l) as Hrl.
  { intros Hin. destruct (chain_elem _ _ _ _ Hc Hin) as [_ [[q k] Hq]]. destruct (graph_lookup_inv _ _ _ _ Hq) as (d & Hd & _). congruence. }
  rewrite (proj2 (Z.eqb_neq _ _) Hr). unfold granted in *. rewrite decide_False in * by done.
  destruct (pbuf_free_valid custom_free_function p l s1 (own_add r 1 own) Hv1) as (s2 & n & E2 & Ed & _ & Hd & Hv2); [|done|by rewrite own_add_ne|].
  { rewrite Eh, graph_insert. by apply chain_insert. }
  assert (heap s2 !! r = Some c) as Hr2.
  { pose proof (drop_refs_other l r (heap s1) Hrl) as Ex. rewrite Ed in Ex. cbn [fst] in Ex. rewrite Ex, Eh. apply lookup_insert_eq. }
  exists r, s2, [r]. rewrite (bind_some _ _ _ _ _ E2). split; [done|]. split; [|split; [|split; [by right|]]].
  - eapply valid_ext; [|exact Hv2]. intros x. unfold own_add. repeat case_decide; lia.
  - split; [done|]. split; [done|]. exists 0, (ref c). split; [|done]. rewrite (graph_lookup _ _ _ Hr2), Hcn. done.
  - rewrite (parts_cons _ _ _ _ Hr2), bytes_of_cons. cbn [parts bufs omap list_omap fmap list_fmap bytes_of mbind list_bind]. rewrite app_nil_r, Hd. exact Ec.
Qed.
(** ** Splitting *)

Lemma split_loop_run l : forall fuel i r f (s : lwip H),
  chain (graph_of (heap s)) r l -> (length l <= fuel)%nat -> steady (heap s) -> 0 <= f < 2 ^ 16 ->
  exists l1 l2 r', l = l1 ++ l2 /\ chain (graph_of (heap s)) r' l2 /\ split_loop fuel i r f s = Some ((default i (last l1), r'), s) /\
    f + sum_len (bufs (heap s) l1) < 2 ^ 16 /\
    (l2 = [] \/ exists c, heap s !! r' = Some c /\ 2 ^ 16 <= f + sum_len (bufs (heap s) l1) + len c).
Proof.
  induction l as [|a l IH]; intros fuel i r f s Hc Hf Hst Hr.
  { cbn in Hc. subst r. exists [], [], 0. cbn. split_and!; try done; [by destruct fuel|lia|by left]. }
  pose proof Hc as (-> & Ha & q & k & Hg & Hc'). destruct (graph_lookup_inv _ _ _ _ Hg) as (b & Hb & <- & _).
  destruct fuel as [|fuel]; [cbn in Hf; lia|]. cbn [split_loop]. rewrite (proj2 (Z.eqb_neq _ _) Ha), (deref_run _ _ _ _ Hb).
  destruct (Hst a b Hb) as [[L [_ Hlen _ _]] _]. destruct (decide (f + len b < 2 ^ 16)) as [Hfit|Hover].
  - rewrite (wrap_small 16 (f + len b)), (proj2 (Z.leb_le _ _)) by lia.
    destruct (IH fuel a (next b) (f + len b) s Hc' ltac:(cbn in Hf; lia) Hst ltac:(lia)) as (l1 & l2 & r' & -> & Hc2 & E & Hsum & Hstop).
    assert (sum_len (bufs (heap s) (a :: l1)) = len b + sum_len (bufs (heap s) l1)) as Es.
    { unfold bufs. cbn [omap list_omap]. by rewrite Hb. }
    exists (a :: l1), l2, r'. split; [done|]. split; [done|]. rewrite Es, E. split; [|split; [lia|]].
    + rewrite last_cons. by destruct (last l1).
    + destruct Hstop as [?|(c & Hcc & Hge)]; [by left|right]. exists c. split; [done|lia].
  - assert (u16 (f + len b) = f + len b - 2 ^ 16) as Ew.
    { unfold wrap. rewrite <- (Z.mod_unique _ (2 ^ 16) 1 (f + len b - 2 ^ 16)); lia. }
    rewrite Ew, (proj2 (Z.leb_gt _ _)) by lia. exists [], (a :: l), a. cbn [bufs omap list_omap sum_len foldr last from_option id].
    split_and!; try done; [lia|]. right. exists b. split; [done|lia].
Qed.

Lemma split_totals_run l : forall fuel i r c (s : lwip H),
  chain (graph_of (heap s)) i l -> (length l <= fuel)%nat -> heap s !! r = Some c -> r ∉ l ->
  split_totals fuel i r s = Some (tt, put_heap (bump (shorter (tot_len c)) l (heap s)) s).
Proof.
  induction l as [|a l IH]; intros fuel i r c s Hc Hf Hr Hrl.
  { cbn in Hc. subst i. destruct fuel; cbn; by destruct s. }
  destruct Hc as (-> & Ha & q & k & Hg & Hc). destruct (graph_lookup_inv _ _ _ _ Hg) as (b & Hb & <- & _).
  apply not_elem_of_cons in Hrl as [Hra Hrl]. destruct fuel as [|fuel]; [cbn in Hf; lia|]. cbn [split_totals].
  rewrite (proj2 (Z.eqb_neq _ _) Ha), (deref_run _ _ _ _ Hb), (deref_run _ _ _ _ Hr), (update_run _ _ _ _ _ Hb).
  change (set_tot_len (u16 (tot_len b - tot_len c)) b) with (shorter (tot_len c) b). rewrite (alter_insert _ _ _ _ Hb).
  rewrite (IH fuel (next b) r c); [done|..].
  - cbn [put_heap heap]. by rewrite graph_alter.
  - cbn in Hf. lia.
  - cbn [put_heap heap]. by rewrite lookup_alter_ne.
  - done.
Qed.

(** The change of the totals is that of a packet that is cut behind [z]. *)
Lemma split_cut h own p l1 z l2 b c :
  links (graph_of h) own -> totals h -> chain (graph_of h) p (l1 ++ z :: l2) -> h !! z = Some b -> h !! next b = Some c -> 0 <= len b < 2 ^ 16 ->
  let n := sum_len (bufs h l1) + len b in
  bump (shorter (tot_len c)) (l1 ++ [z]) (<[z := set_next 0 b]> h) = cut l1 z (n - sum_len (bufs h l1)) (tot_of h p - n) b h.
Proof.
  intros Hl Ht Hc Hb Hn Hlen n. destruct (cut_nodup h own p l1 z l2 Hl Hc) as (Hnd & Hz & Hl2 & _).
  destruct (chain_app _ _ _ _ Hc) as (q & Hcz & _). assert (q = z) as -> by apply Hcz. pose proof Hcz as (_ & Hz0 & q' & k' & Hgz & Hc2).
  rewrite (graph_lookup _ _ _ Hb) in Hgz. injection Hgz as <- <-.
  assert (tot_len c = u16 (sum_len (bufs h l2))) as Etc by (pose proof (chain_total h own _ _ Ht Hl Hc2) as E; unfold tot_of in E; by rewrite Hn in E).
  assert (sum_len (bufs h (z :: l2)) = len b + sum_len (bufs h l2)) as Esum by (unfold bufs; cbn [omap list_omap]; by rewrite Hb).
  assert (forall x, u16 (x - tot_len c) = u16 (x - (tot_of h p - n))) as Emod.
  { intros x. rewrite (chain_total h own p _ Ht Hl Hc), bufs_app, sum_len_app, Esum, Etc. unfold wrap, n.
    rewrite <- (Zminus_mod_idemp_r x), Zmod_mod, Zminus_mod_idemp_r. rewrite <- (Zminus_mod_idemp_r x (_ - _)), Zminus_mod_idemp_l, Zminus_mod_idemp_r.
    f_equal. lia. }
  assert (NoDup (l1 ++ [z])) as Hnd'.
  { apply NoDup_app. split; [done|]. split; [intros x Hx ->%list_elem_of_singleton; done|apply NoDup_singleton]. }
  apply map_eq. intros x. unfold cut. rewrite bump_lookup by done. destruct (decide (x = z)) as [->|Hxz].
  - rewrite decide_True by (apply elem_of_app; right; by left). rewrite !lookup_insert_eq. cbn [fmap option_fmap option_map]. f_equal.
    assert (u16 (tot_len b - tot_len c) = len b) as Elen.
    { rewrite (Ht z b Hb). unfold tot_of. rewrite Hn. unfold wrap. rewrite Zminus_mod_idemp_l, Z.add_simpl_r. by apply Z.mod_small. }
    unfold shorter. cbn [set_next tot_len]. rewrite Elen. replace (n - sum_len (bufs h l1)) with (len b) by (unfold n; lia). by destruct b.
  - rewrite !lookup_insert_ne, bump_lookup by done. destruct (decide (x ∈ l1)) as [Hin|Hnin].
    + rewrite decide_True by (apply elem_of_app; by left). destruct (h !! x) as [d|]; [|done]. cbn. f_equal. unfold shorter. by rewrite Emod.
    + rewrite decide_False; [done|]. by intros [?|?%list_elem_of_singleton]%elem_of_app.
Qed.
Lemma valid_flags s own r c f :
  valid s own -> heap s !! r = Some c -> Z.land f PBUF_FLAG_IS_CUSTOM = 0 -> valid (put_heap (<[r := set_flags f c]> (heap s)) s) own.
Proof.
  intros [[Hl Hpl] Ht] Hc Hf. split; [split|]; cbn [put_heap heap outside].
  - by rewrite (graph_same _ _ c).
  - intros a b. destruct (decide (a = r)) as [->|Hne]; [|rewrite lookup_insert_ne by done; apply Hpl].
    rewrite lookup_insert_eq. intros [= <-]. destruct (Hpl r c Hc) as [? ? ? ?]. by split.
  - assert (forall q, tot_of (<[r := set_flags f c]> (heap s)) q = tot_of (heap s) q) as E.
    { intros q. unfold tot_of. destruct (decide (q = r)) as [->|]; [by rewrite lookup_insert_eq, Hc|by rewrite lookup_insert_ne]. }
    intros a b. rewrite E. destruct (decide (a = r)) as [->|Hne]; [|rewrite lookup_insert_ne by done; apply Ht].
    rewrite lookup_insert_eq. intros [= <-]. apply (Ht r c Hc).
Qed.

(** The packet has been divided into the parts [l1], less than 64 kilobytes, and [l2]. *)
Record divided (s s' : lwip H) (own : owners) (p r : Z) (l1 l2 : list Z) : Prop := {
  dv_valid : valid s' (granted r own);
  dv_front : chain (graph_of (heap s')) p l1;
  dv_rest : chain (graph_of (heap s')) r l2;
  dv_parts : parts (heap s') l1 = parts (heap s) l1 /\ parts (heap s') l2 = parts (heap s) l2;
  dv_total : tot_of (heap s') p = sum_len (bufs (heap s) l1) /\ sum_len (bufs (heap s) l1) < 2 ^ 16;
  dv_data : data s' = data s;
}.

Lemma divided_flags s s' own p r l1 l2 c f :
  divided s s' own p r l1 l2 -> heap s' !! r = Some c -> Z.land f PBUF_FLAG_IS_CUSTOM = 0 ->
  divided s (put_heap (<[r := set_flags f c]> (heap s')) s') own p r l1 l2.
Proof.
  intros [Hv H1 H2 [H3 H4] H5 H6] Hc Hf.
  assert (forall x, (fun b => (payload b, len b)) <$> <[r := set_flags f c]> (heap s') !! x = (fun b => (payload b, len b)) <$> heap s' !! x) as E.
  { intros x. destruct (decide (x = r)) as [->|]; [by rewrite lookup_insert_eq, Hc|by rewrite lookup_insert_ne]. }
  split; cbn [put_heap heap data]; rewrite ?(graph_same _ _ c) by done; try done.
  - by apply valid_flags.
  - split; [rewrite <- H3|rewrite <- H4]; by apply parts_ext.
  - destruct H5 as [<- ?]. split; [|done]. unfold tot_of. destruct (decide (p = r)) as [->|]; [by rewrite lookup_insert_eq, Hc|by rewrite lookup_insert_ne].
Qed.

Lemma divided_cut s own p l1 z l2 b :
  valid s own -> ~ linked (graph_of (heap s)) p -> chain (graph_of (heap s)) p (l1 ++ z :: l2) -> heap s !! z = Some b ->
  sum_len (bufs (heap s) l1) + len b < 2 ^ 16 ->
  let n := sum_len (bufs (heap s) l1) + len b in
  divided s (put_heap (cut l1 z (n - sum_len (bufs (heap s) l1)) (tot_of (heap s) p - n) b (heap s)) s) own p (next b) (l1 ++ [z]) l2.
Proof.
  intros Hv Hnl Hc Hb Hlt n. pose proof (so_links _ _ (va_sound _ _ Hv)) as Hl. destruct (cut_nodup _ own p l1 z l2 Hl Hc) as (Hnd & Hz & Hl2 & _).
  destruct (so_placed _ _ (va_sound _ _ Hv) z b Hb) as [_ Hlen _ _]. pose proof (sum_len_pos _ l1 (sound_steady _ _ (va_sound _ _ Hv))) as Hpos.
  pose proof (cut_valid p l1 z l2 b n s own Hv Hc Hnl Hb ltac:(unfold n; lia)) as Hv'.
  destruct (chain_app _ _ _ _ Hc) as (q & (-> & Hz0 & q2 & k2 & Hgz & Hc2) & _). rewrite (graph_lookup _ _ _ Hb) in Hgz. injection Hgz as <- <-.
  set (s' := put_heap _ s) in *.
  assert (chain (graph_of (heap s')) p (l1 ++ [z])) as Hfront.
  { cbn [s' put_heap heap]. rewrite (graph_cut _ _ _ _ _ _ Hb). by apply (chain_relink _ _ l1 z l2). }
  assert (parts (heap s') (l1 ++ [z]) = parts (heap s) (l1 ++ [z])) as Eparts.
  { apply parts_ext. intros x Hx. cbn [s' put_heap heap]. unfold cut. destruct (decide (x = z)) as [->|Hxz].
    - rewrite lookup_insert_eq, Hb. cbn. do 3 f_equal. unfold n. lia.
    - rewrite lookup_insert_ne, bump_lookup, decide_True by (done || (apply elem_of_app in Hx as [?|?%list_elem_of_singleton]; done)).
      by destruct (heap s !! x). }
  split; try done.
  - cbn [s' put_heap heap]. rewrite (graph_cut _ _ _ _ _ _ Hb). apply chain_insert; [|done]. intros Hin. by destruct (Hl2 z Hin).
  - split; [done|]. apply parts_ext. intros x Hx. destruct (Hl2 x Hx). cbn [s' put_heap heap]. unfold cut.
    by rewrite lookup_insert_ne, bump_lookup, decide_False.
  - pose proof (chain_total _ _ _ _ (va_totals _ _ Hv') (so_links _ _ (va_sound _ _ Hv')) Hfront) as Et. rewrite <- total_parts, Eparts, total_parts in Et.
    assert (sum_len (bufs (heap s) (l1 ++ [z])) = n) as En.
    { rewrite bufs_app, sum_len_app. unfold bufs at 2. cbn [omap list_omap]. rewrite Hb. cbn. unfold n. lia. }
    rewrite Et, En. split; [apply wrap_small; unfold n in *; lia|done].
Qed.
Lemma divided_whole s own p l :
  valid s own -> chain (graph_of (heap s)) p l -> sum_len (bufs (heap s) l) < 2 ^ 16 -> divided s s own p 0 l [].
Proof.
  intros Hv Hc Hlt. pose proof (sum_len_pos _ l (sound_steady _ _ (va_sound _ _ Hv))) as Hpos. split; try done. split; [|done].
  rewrite (chain_total _ _ _ _ (va_totals _ _ Hv) (so_links _ _ (va_sound _ _ Hv)) Hc). apply wrap_small. lia.
Qed.

Lemma last_split p (la : list Z) : exists l1 z, p :: la = l1 ++ [z] /\ default p (last la) = z.
Proof.
  destruct (exists_last (l := p :: la)) as (l1 & z & E); [done|]. exists l1, z. split; [done|].
  assert (last (p :: la) = Some z) as El by (rewrite E; apply last_snoc). rewrite last_cons in El. by destruct (last la); injection El.
Qed.

(** Where the loop stops: behind [z], the last pbuf below 64 kilobytes. *)
Lemma split_point p b l s own :
  valid s own -> heap s !! p = Some b -> chain (graph_of (heap s)) p l ->
  exists l1 z l2 bz, l = l1 ++ z :: l2 /\ heap s !! z = Some bz /\ split_loop (S (size (heap s))) p (next b) (len b) s = Some ((z, next bz), s) /\
    sum_len (bufs (heap s) l1) + len bz < 2 ^ 16 /\
    (l2 = [] \/ exists c, heap s !! next bz = Some c /\ 2 ^ 16 <= sum_len (bufs (heap s) (l1 ++ [z])) + len c).
Proof.
  intros Hv Hb Hc. pose proof (va_sound _ _ Hv) as Hs. pose proof (so_links _ _ Hs) as Hl.
  destruct l as [|p' l']; [by destruct (pbuf_not_null _ _ _ _ Hs Hb)|]. pose proof Hc as (<- & _ & q & k & Hg & Hc').
  rewrite (graph_lookup _ _ _ Hb) in Hg. injection Hg as <- <-. pose proof (chain_size _ _ Hl _ _ Hc) as Hsz. rewrite graph_size in Hsz. cbn in Hsz.
  destruct (so_placed _ _ Hs p b Hb) as [_ Hlen _ _].
  destruct (split_loop_run l' (S (size (heap s))) p (next b) (len b) s Hc' ltac:(lia) (sound_steady _ _ Hs) Hlen) as (la & l2 & r & -> & Hc2 & E & Hsum & Hstop).
  destruct (last_split p la) as (l1 & z & Ela & Ez). rewrite Ez in E. change (p :: la ++ l2) with ((p :: la) ++ l2) in *. rewrite Ela in *.
  assert (sum_len (bufs (heap s) (l1 ++ [z])) = len b + sum_len (bufs (heap s) la)) as Esum by (rewrite <- Ela; unfold bufs; cbn [omap list_omap]; by rewrite Hb).
  rewrite <- app_assoc in Hc |- *. cbn [app] in Hc |- *. destruct (chain_app _ _ _ _ Hc) as (q & (-> & _ & q2 & k2 & Hgz & Hc2') & _).
  destruct (graph_lookup_inv _ _ _ _ Hgz) as (bz & Hbz & <- & _).
  assert (next bz = r) as Er by (destruct l2 as [|x l2]; [cbn in *; congruence|]; destruct Hc2 as (-> & _), Hc2' as (-> & _); done).
  exists l1, z, l2, bz. rewrite Er, Esum. split_and!; try done. rewrite bufs_app, sum_len_app in Esum. unfold bufs at 2 in Esum. cbn [omap list_omap] in Esum.
  rewrite Hbz in Esum. cbn in Esum. lia.
Qed.

(** What follows when there is a rest. *)
Lemma split_rest p l1 z l2 bz s own :
  valid s own -> ~ linked (graph_of (heap s)) p -> chain (graph_of (heap s)) p (l1 ++ z :: l2) -> heap s !! z = Some bz -> next bz <> 0 ->
  sum_len (bufs (heap s) l1) + len bz < 2 ^ 16 ->
  exists s' b' c, split_totals (S (size (heap s))) p (next bz) (put_heap (<[z := set_next 0 bz]> (heap s)) s) = Some (tt, s') /\
    divided s s' own p (next bz) (l1 ++ [z]) l2 /\ heap s' !! p = Some b' /\ heap s' !! next bz = Some c /\ Z.land (flags c) PBUF_FLAG_IS_CUSTOM = 0.
Proof.
  intros Hv Hnl Hc Hbz Hr Hlt. pose proof (va_sound _ _ Hv) as Hs. pose proof (so_links _ _ Hs) as Hl.
  destruct (next_ok _ _ Hl z _ _ (graph_lookup _ _ _ Hbz)) as [?|[[qr kr] Hgr]]; [done|].
  destruct (graph_lookup_inv _ _ _ _ Hgr) as (c & Hcr & _). destruct (cut_nodup _ own p l1 z l2 Hl Hc) as (Hnd & Hz & Hl2 & _).
  assert (next bz ∈ l2) as Hrl2.
  { destruct (chain_app _ _ _ _ Hc) as (q & (-> & _ & q2 & k2 & Hg & Hc2) & _). rewrite (graph_lookup _ _ _ Hbz) in Hg. injection Hg as <- <-.
    destruct l2; [by cbn in Hc2|]. destruct Hc2 as (-> & _). by left. }
  destruct (Hl2 _ Hrl2) as [Hrz Hrl1]. destruct (so_placed _ _ Hs z bz Hbz) as [_ Hlenz _ _].
  pose proof (split_cut _ own p l1 z l2 bz c Hl (va_totals _ _ Hv) Hc Hbz Hcr Hlenz) as Ecut.
  pose proof (divided_cut s own p l1 z l2 bz Hv Hnl Hc Hbz Hlt) as Hdiv. cbn zeta in Ecut, Hdiv.
  rewrite <- Ecut in Hdiv. set (h' := bump _ _ _) in *. set (s' := put_heap h' s) in *.
  assert (exists b', heap s' !! p = Some b') as [b' Hb'].
  { pose proof (dv_front _ _ _ _ _ _ _ Hdiv) as Hf. assert (exists x l, l1 ++ [z] = x :: l) as (x & l & E) by (destruct l1; by do 2 eexists).
    rewrite E in Hf. destruct Hf as (<- & _ & q & k & Hg & _). destruct (graph_lookup_inv _ _ _ _ Hg) as (d & Hd & _). by exists d. }
  exists s', b', c. split; [|split; [done|split; [done|split]]].
  - refine (split_totals_run (l1 ++ [z]) (S (size (heap s))) p (next bz) c (put_heap (<[z := set_next 0 bz]> (heap s)) s) _ _ _ _); cbn [put_heap heap].
    + rewrite graph_insert. by apply (chain_relink _ _ l1 z l2).
    + pose proof (chain_size _ _ Hl _ _ Hc) as Hsz. rewrite graph_size, length_app in Hsz. rewrite length_app. cbn in *. lia.
    + by rewrite lookup_insert_ne.
    + by intros [?|?%list_elem_of_singleton]%elem_of_app.
  - cbn [s' put_heap heap]. rewrite Ecut. unfold cut. by rewrite lookup_insert_ne, bump_lookup, decide_False.
  - by destruct (so_placed _ _ Hs _ c Hcr).
Qed.

(** [pbuf_split_64k] divides a packet at the last pbuf boundary below 64 kilobytes. *)
Lemma pbuf_split_valid p b l s own :
  valid s own -> heap s !! p = Some b -> ~ linked (graph_of (heap s)) p -> chain (graph_of (heap s)) p l ->
  exists r s' l1 l2, pbuf_split_64k p s = Some (r, s') /\ l = l1 ++ l2 /\ divided s s' own p r l1 l2 /\
    (l2 = [] \/ exists c, heap s !! r = Some c /\ 2 ^ 16 <= sum_len (bufs (heap s) l1) + len c).
Proof.
  intros Hv Hb Hnl Hc. pose proof (va_sound _ _ Hv) as Hs. pose proof (pbuf_not_null _ _ _ _ Hs Hb) as Hp0.
  destruct (split_point p b l s own Hv Hb Hc) as (l1 & z & l2 & bz & -> & Hbz & E & Hlt & Hstop). pose proof Hc as Hc2.
  apply chain_app in Hc2 as (q & (-> & _ & q2 & k2 & Hg & Hc2) & _). rewrite (graph_lookup _ _ _ Hbz) in Hg. injection Hg as <- <-.
  enough (exists s', pbuf_split_64k p s = Some (next bz, s') /\ divided s s' own p (next bz) (l1 ++ [z]) l2) as (s' & Es & Hd).
  { exists (next bz), s', (l1 ++ [z]), l2. rewrite <- app_assoc. done. }
  assert (next bz = 0 -> divided s s own p (next bz) (l1 ++ [z]) l2) as Hwhole.
  { intros E0. rewrite E0 in *. assert (l2 = []) as -> by (destruct l2; [done|by destruct Hc2 as (<- & ? & _)]). apply divided_whole; [done|exact Hc|].
    rewrite bufs_app, sum_len_app. unfold bufs at 2. cbn [omap list_omap]. rewrite Hbz. cbn. lia. }
  unfold pbuf_split_64k. rewrite (proj2 (Z.eqb_neq _ _) Hp0), (deref_run _ _ _ _ Hb). destruct (Z.eqb_spec (next b) 0) as [Hn|Hn].
  { rewrite Hn in E. cbn in E. injection E as <- E. rewrite <- E in *. exists s. auto. }
  unfold walk_fuel, gets. rewrite (bind_some _ _ s (S (size (heap s))) s eq_refl), (bind_some _ _ _ _ _ E), (update_run _ _ _ _ _ Hbz).
  destruct (Z.eqb_spec (next bz) 0) as [Hr|Hr].
  { exists s. split; [|auto]. rewrite Hr. unfold ret. do 2 f_equal. rewrite insert_id; [by destruct s|]. rewrite Hbz. f_equal. destruct bz. cbn in *. by rewrite Hr. }
  destruct (split_rest p l1 z l2 bz s own Hv Hnl Hc Hbz Hr Hlt) as (s' & b' & c & Et & Hdiv & Hb' & Hcr & Hcu).
  rewrite (bind_some _ _ _ _ _ Et), (deref_run _ _ _ _ Hb'). destruct (negb (Z.land (flags b') PBUF_FLAG_TCP_FIN =? 0)); cbn [when].
  - rewrite (update_run _ _ _ _ _ Hcr). eexists. split; [reflexivity|]. apply divided_flags; [done|done|]. rewrite Z.land_lor_distr_l, Hcu. done.
  - rewrite bind_ret. by exists s'.
Qed.
End Packets.
