(* ===== verification/PbufHistory.v ===== *)
(** Any sequence of calls of the functions of pbuf.cpp, by callers that keep to the
    contract: what the calls may assume and what they leave behind. *)

From Stdlib Require Import ZArith Lia Bool.
From stdpp Require Import base list gmap.
From S2P Require Import Prelude Hw Pbuf PbufRef PbufOps PbufData.

(** * Calls *)

Inductive call :=
  | Alloc (layer : pbuf_layer) (length : Z) (type : pbuf_type)
  | AllocReference (payload length : Z) (type : pbuf_type)
  | Free (p : Z)
  | Ref (p : Z)
  | Clen (p : Z)
  | Cat (h t : Z)
  | Chain (h t : Z)
  | Dechain (p : Z)
  | Realloc (p new_len : Z)
  | Header (p increment force : Z)
  | AddHeader (p increment force : Z)
  | RemoveHeader (p decrement : Z)
  | FreeHeader (p size : Z)
  | Clone (layer : pbuf_layer) (p : Z)
  | Coalesce (p : Z) (layer : pbuf_layer)
  | Split64k (p : Z).

(** ** The contract *)

Definition linkedb (g : graph) (a : Z) : bool := existsb (fun '(_, (q, _)) => q =? a) (map_to_list g).
Definition is_head (h : gmap Z struct_pbuf) (p : Z) : bool :=
  match h !! p with Some _ => negb (linkedb (graph_of h) p) | None => false end.
Fixpoint chain_of (fuel : nat) (h : gmap Z struct_pbuf) (p : Z) : list Z :=
  match fuel with
  | O => []
  | S fuel => match h !! p with Some b => p :: chain_of fuel h (next b) | None => [] end
  end.
Definition exclusive (h : gmap Z struct_pbuf) (p : Z) : bool :=
  forallb (fun a => match h !! a with Some b => ref b =? 1 | None => true end) (chain_of (size h) h p).

(** Each part of the packet has its data in its own block, only the last one may be
    empty, and the total length fits in 16 bits. *)
Fixpoint properb (ps : list (Z * Z)) : bool :=
  match ps with [] => true | _ :: ps => (match ps with [] => true | _ => 0 <? total ps end) && properb ps end.
Definition copyable (h : gmap Z struct_pbuf) (p : Z) : bool :=
  let l := chain_of (size h) h p in
  match h !! p with Some _ => true | None => false end &&
  forallb (fun a => match h !! a with
    | Some b => negb (Z.land (type_internal b) PBUF_TYPE_FLAG_STRUCT_DATA_CONTIGUOUS =? 0) | None => true end) l &&
  properb (parts h l) && (total (parts h l) <? 2 ^ 16).

Lemma properb_spec ps : properb ps = true -> proper ps.
Proof.
  induction ps as [|[a k] ps IH]; [done|]. cbn [properb proper]. intros [E1 E2]%andb_prop. split; [|by apply IH].
  destruct ps; [by left|right]. by apply Z.ltb_lt.
Qed.

Lemma linkedb_spec g a : linkedb g a = true <-> linked g a.
Proof.
  unfold linkedb. rewrite existsb_exists. split.
  - intros ([c [q r]] & Hin & E%Z.eqb_eq). subst q. exists c, r. apply elem_of_map_to_list. by apply list_elem_of_In.
  - intros (c & r & Hc). exists (c, (a, r)). split; [|apply Z.eqb_refl]. apply list_elem_of_In. by apply elem_of_map_to_list.
Qed.

Lemma is_head_spec h p : is_head h p = true -> exists b, h !! p = Some b /\ ~ linked (graph_of h) p.
Proof.
  unfold is_head. destruct (h !! p) as [b|]; [|done]. intros E%negb_true_iff. exists b. split; [done|].
  intros Hl%linkedb_spec. congruence.
Qed.

Lemma chain_of_spec fuel h p l : chain (graph_of h) p l -> h !! 0 = None -> (length l <= fuel)%nat -> chain_of fuel h p = l.
Proof.
  intros Hc H0. revert fuel p Hc. induction l as [|a l IH]; intros fuel p Hc Hf.
  - cbn in Hc. subst p. destruct fuel; [done|]. cbn [chain_of]. by rewrite H0.
  - destruct fuel as [|fuel]; [cbn in Hf; lia|]. destruct Hc as (-> & _ & q & r & Hg & Hc).
    destruct (graph_lookup_inv _ _ _ _ Hg) as (b & Hb & <- & _). cbn [chain_of]. rewrite Hb. f_equal. apply IH; [done|]. cbn in Hf. lia.
Qed.

Section History.
Context {H : Type} `{OL : OutsideLaws H} (custom_free_function : Z -> prog (lwip H) unit).

Definition ignore {A} (m : prog (lwip H) A) : prog (lwip H) Z := let* _ := m in ret 0.

(** The call itself. *)
Definition run (c : call) : prog (lwip H) Z :=
  match c with
  | Alloc layer length type => pbuf_alloc custom_free_function layer length type
  | AllocReference payload length type => pbuf_alloc_reference payload length type
  | Free p => pbuf_free custom_free_function p
  | Ref p => ignore (pbuf_ref p)
  | Clen p => pbuf_clen p
  | Cat h t => ignore (pbuf_cat h t)
  | Chain h t => ignore (pbuf_chain h t)
  | Dechain p => pbuf_dechain custom_free_function p
  | Realloc p new_len => ignore (pbuf_realloc custom_free_function p new_len)
  | Header p increment force => pbuf_header_impl p increment force
  | AddHeader p increment force => pbuf_add_header_impl p increment force
  | RemoveHeader p decrement => pbuf_remove_header p decrement
  | FreeHeader p size => pbuf_free_header custom_free_function p size
  | Clone layer p => pbuf_clone custom_free_function layer PBUF_RAM p
  | Coalesce p layer => pbuf_coalesce custom_free_function p layer
  | Split64k p => pbuf_split_64k p
  end.

(** What the caller has to see to. [own] has the references that it holds: one is
    needed to give one up. Lengths are changed at the first pbuf of a packet only,
    and a count does not reach 256. *)
Definition allowed (c : call) (h : gmap Z struct_pbuf) (own : owners) : bool :=
  match c with
  | Alloc _ length _ => (0 <=? length) && (length <? 2 ^ 16)
  | AllocReference _ length type => (0 <=? length) && (length <? 2 ^ 16) && match type with PBUF_ROM | PBUF_REF => true | _ => false end
  | Free p => (p =? 0) || (0 <? own p)
  | Ref p => (p =? 0) || match h !! p with Some b => ref b <? 255 | None => false end
  | Clen p => (p =? 0) || match h !! p with Some _ => true | None => false end
  | Cat p t => is_head h p && is_head h t && negb (p =? t) && (0 <? own t)
  | Chain p t => is_head h p && is_head h t && negb (p =? t) && (0 <? own t) && match h !! t with Some b => ref b <? 255 | None => false end
  | Dechain p | Split64k p => is_head h p
  | Realloc p new_len => is_head h p && (0 <=? new_len)
  | Header p increment _ => is_head h p && (- 2 ^ 15 <=? increment) && (increment <? 2 ^ 15)
  | AddHeader p n _ | RemoveHeader p n => is_head h p && (0 <=? n)
  | FreeHeader p size => is_head h p && (0 <? own p) && (0 <=? size) && (size <? 2 ^ 16) && exclusive h p
  | Clone _ p => copyable h p
  | Coalesce p _ => copyable h p && (0 <? own p)
  end.

(** The references that are held after the call returned [r]. *)
Definition after (c : call) (own : owners) (r : Z) : owners :=
  match c with
  | Alloc _ _ _ | AllocReference _ _ _ => granted r own
  | Free p => if decide (p = 0) then own else own_add p (-1) own
  | Ref p => granted p own
  | Cat _ t => own_add t (-1) own
  | FreeHeader p _ | Coalesce p _ => granted r (own_add p (-1) own)
  | Clone _ _ | Split64k _ => granted r own
  | _ => own
  end.

(** ** Each call keeps the invariant *)

Definition fine (c : call) (s : lwip H) (own : owners) : Prop :=
  exists r s', run c s = Some (r, s') /\ valid s' (after c own r).

Lemma some_chain s own p b : valid s own -> heap s !! p = Some b -> exists l, chain (graph_of (heap s)) p (p :: l).
Proof.
  intros Hv Hb. destruct (chain_from _ _ (so_links _ _ (va_sound _ _ Hv)) p) as (l & Hc & _); [|by exists l].
  rewrite (graph_lookup _ _ _ Hb). done.
Qed.

Lemma held s own p : valid s own -> 0 < own p -> exists b, heap s !! p = Some b.
Proof.
  intros Hv Ho. destruct (lk_owned _ _ (so_links _ _ (va_sound _ _ Hv)) p Ho) as [[q r] Hg].
  destruct (graph_lookup_inv _ _ _ _ Hg) as (b & Hb & _). by exists b.
Qed.

Lemma ignore_run {A} (m : prog (lwip H) A) x s s' : m s = Some (x, s') -> ignore m s = Some (0, s').
Proof. intros E. unfold ignore. by rewrite (bind_some _ _ _ _ _ E). Qed.

Lemma alloc_fine layer length type s own : valid s own -> 0 <= length < 2 ^ 16 -> fine (Alloc layer length type) s own.
Proof.
  intros Hv Hl. unfold fine. cbn [run after]. destruct type.
  - destruct (pbuf_alloc_ram_valid custom_free_function layer length s own Hv Hl) as (r & s' & E & Hv' & _). by exists r, s'.
  - destruct (pbuf_alloc_reference_valid 0 length PBUF_ROM s own Hv Hl) as (r & s' & E & Hv' & _); [by left|]. by exists r, s'.
  - destruct (pbuf_alloc_reference_valid 0 length PBUF_REF s own Hv Hl) as (r & s' & E & Hv' & _); [by right|]. by exists r, s'.
  - destruct (pbuf_alloc_pool_valid custom_free_function layer length s own Hv Hl) as (r & s' & E & Hv' & _). by exists r, s'.
Qed.

Lemma free_fine p s own : valid s own -> p = 0 \/ 0 < own p -> fine (Free p) s own.
Proof.
  intros Hv Hp. unfold fine. cbn [run after]. destruct (decide (p = 0)) as [->|Hp0]; [by exists 0, s|]. destruct Hp as [?|Ho]; [done|].
  destruct (held s own p Hv Ho) as (b & Hb). destruct (some_chain s own p b Hv Hb) as (l & Hc).
  destruct (pbuf_free_valid custom_free_function p _ s own Hv Hc Hp0 Ho) as (s' & n & E & _ & _ & _ & Hv'). by exists (u8 n), s'.
Qed.

Lemma clen_loop_run l : forall fuel p n (s : lwip H),
  chain (graph_of (heap s)) p l -> (length l <= fuel)%nat -> u16 n = n -> clen_loop fuel p n s = Some (u16 (n + Z.of_nat (length l)), s).
Proof.
  induction l as [|a l IH]; intros fuel p n s Hc Hf Hn.
  - cbn in Hc. subst p. cbn. rewrite Z.add_0_r, Hn. by destruct fuel.
  - destruct fuel as [|fuel]; [cbn in Hf; lia|]. destruct Hc as (-> & Ha & q & r & Hg & Hc).
    destruct (graph_lookup_inv _ _ _ _ Hg) as (b & Hb & <- & _). cbn [clen_loop]. rewrite (proj2 (Z.eqb_neq _ _) Ha), (deref_run _ _ _ _ Hb).
    rewrite (IH fuel); [|done|cbn in Hf; lia|apply wrap_wrap]. do 2 f_equal. cbn [length]. unfold wrap. rewrite Zplus_mod_idemp_l. f_equal. lia.
Qed.

(** [pbuf_clen] counts the pbufs of the chain. *)
Lemma pbuf_clen_run p l s own : valid s own -> chain (graph_of (heap s)) p l -> pbuf_clen p s = Some (u16 (Z.of_nat (length l)), s).
Proof.
  intros Hv Hc. unfold pbuf_clen, walk_fuel, gets. rewrite (bind_some _ _ s (S (size (heap s))) s eq_refl).
  pose proof (chain_size _ _ (so_links _ _ (va_sound _ _ Hv)) _ _ Hc) as Hsz. rewrite graph_size in Hsz.
  by rewrite (clen_loop_run l) by (done || lia).
Qed.
Lemma ref_fine p s own :
  valid s own -> p = 0 \/ (exists b, heap s !! p = Some b /\ ref b < 255) -> fine (Ref p) s own.
Proof.
  intros Hv Hp. unfold fine. cbn [run after]. unfold granted. destruct (decide (p = 0)) as [->|Hp0]; [by exists 0, s|].
  destruct Hp as [?|(b & Hb & Hr)]; [done|]. destruct (pbuf_ref_valid p b s own Hv Hb Hr) as (s' & E & _ & Hv').
  exists 0, s'. split; [by apply (ignore_run _ tt)|done].
Qed.

Lemma clen_fine p s own : valid s own -> p = 0 \/ is_Some (heap s !! p) -> fine (Clen p) s own.
Proof.
  intros Hv Hp. unfold fine. cbn [run after]. assert (exists l, chain (graph_of (heap s)) p l) as [l Hc].
  { destruct Hp as [->|[b Hb]]; [by exists []|]. destruct (some_chain s own p b Hv Hb) as [l Hc]. by exists (p :: l). }
  eexists _, s. split; [by apply (pbuf_clen_run p l s own)|done].
Qed.

Lemma cat_fine p t b c s own :
  valid s own -> heap s !! p = Some b -> ~ linked (graph_of (heap s)) p -> heap s !! t = Some c -> ~ linked (graph_of (heap s)) t ->
  p <> t -> 0 < own t -> fine (Cat p t) s own /\ (ref c < 255 -> fine (Chain p t) s own).
Proof.
  intros Hv Hb Hpl Hc Htl Hne Ho. destruct (some_chain s own p b Hv Hb) as [lp Hcp], (some_chain s own t c Hv Hc) as [lt Hct].
  assert (head_of (graph_of (heap s)) p) as Hhp by (split; [by rewrite (graph_lookup _ _ _ Hb)|done]).
  assert (head_of (graph_of (heap s)) t) as Hht by (split; [by rewrite (graph_lookup _ _ _ Hc)|done]). split.
  - destruct (pbuf_cat_valid p t _ _ s own Hv Hhp Hht Hne Ho Hcp Hct) as (s' & E & Hv' & _). exists 0, s'. split; [by apply (ignore_run _ tt)|done].
  - intros Hr. destruct (pbuf_chain_valid p t _ _ c s own Hv Hhp Hht Hne Ho Hc Hr Hcp Hct) as (s' & E & Hv' & _).
    exists 0, s'. split; [by apply (ignore_run _ tt)|done].
Qed.

Lemma next_chain s own p b : valid s own -> heap s !! p = Some b -> exists l, chain (graph_of (heap s)) (next b) l.
Proof.
  intros Hv Hb. destruct (some_chain s own p b Hv Hb) as [l (_ & _ & q & r & Hg & Hc)].
  rewrite (graph_lookup _ _ _ Hb) in Hg. injection Hg as <- <-. by exists l.
Qed.

Lemma dechain_fine p b s own : valid s own -> heap s !! p = Some b -> ~ linked (graph_of (heap s)) p -> fine (Dechain p) s own.
Proof.
  intros Hv Hb Hpl. destruct (next_chain s own p b Hv Hb) as [l Hc].
  destruct (pbuf_dechain_valid custom_free_function p b l s own Hv Hb Hpl Hc) as (s' & n & E & Hv' & _). by eexists _, s'.
Qed.

Lemma split_fine p b s own : valid s own -> heap s !! p = Some b -> ~ linked (graph_of (heap s)) p -> fine (Split64k p) s own.
Proof.
  intros Hv Hb Hpl. destruct (some_chain s own p b Hv Hb) as [l Hc].
  destruct (pbuf_split_valid p b _ s own Hv Hb Hpl Hc) as (r & s' & l1 & l2 & E & _ & Hd & _). exists r, s'. split; [exact E|]. apply Hd.
Qed.

Lemma realloc_fine p b new_len s own :
  valid s own -> heap s !! p = Some b -> ~ linked (graph_of (heap s)) p -> 0 <= new_len -> fine (Realloc p new_len) s own.
Proof.
  intros Hv Hb Hpl Hn. unfold fine. cbn [run after]. destruct (Z.leb_spec (tot_len b) new_len) as [Hle|Hgt].
  - exists 0, s. split; [|done]. apply (ignore_run _ tt). unfold pbuf_realloc. rewrite (deref_run _ _ _ _ Hb).
    by rewrite (proj2 (Z.leb_le _ _) Hle).
  - destruct (some_chain s own p b Hv Hb) as [l Hc].
    destruct (pbuf_realloc_valid custom_free_function p b _ new_len s own Hv Hb Hpl Hc ltac:(lia)) as (s' & l1 & z & l2 & c & _ & _ & _ & E & Hv' & _).
    exists 0, s'. split; [by apply (ignore_run _ tt)|done].
Qed.

(** Zero, and sizes that do not fit, change nothing. *)
Lemma header_trivial p n force (s : lwip H) : 0 <= n -> ~ 0 < n <= 0xffff ->
  pbuf_add_header_impl p n force s = Some (0, s) /\ pbuf_remove_header p n s = Some (0, s).
Proof.
  intros Hn Hout. unfold pbuf_add_header_impl, pbuf_remove_header.
  assert ((n =? 0) || (p =? 0) || (0xffff <? n) = true) as ->; [|done].
  destruct (Z.eqb_spec n 0); [done|]. cbn [orb]. rewrite (proj2 (Z.ltb_lt _ _)) by lia. apply orb_true_r.
Qed.

Lemma header_fine p b n force s own :
  valid s own -> heap s !! p = Some b -> ~ linked (graph_of (heap s)) p -> 0 <= n ->
  fine (AddHeader p n force) s own /\ fine (RemoveHeader p n) s own.
Proof.
  intros Hv Hb Hpl Hn. unfold fine. cbn [run after]. destruct (decide (0 < n <= 0xffff)) as [Hin|Hout].
  - destruct (pbuf_add_header_valid p n force b s own Hv Hb Hpl Hin) as [Ea Hva], (pbuf_remove_header_valid p n b s own Hv Hb Hpl Hin) as [Er Hvr].
    split.
    + revert Ea Hva. set (fits := _ && _). intros Ea Hva. destruct fits; eexists _, _; (split; [exact Ea|]); [by apply Hva|done].
    + destruct (Z.leb_spec n (len b)); eexists _, _; (split; [exact Er|]); [by apply Hvr|done].
  - destruct (header_trivial p n force s Hn Hout) as [Ea Er]. split; by eexists _, s.
Qed.

Lemma free_header_fine p b size s own :
  valid s own -> heap s !! p = Some b -> ~ linked (graph_of (heap s)) p -> 0 < own p -> 0 <= size < 2 ^ 16 -> exclusive (heap s) p = true ->
  fine (FreeHeader p size) s own.
Proof.
  intros Hv Hb Hpl Ho Hsize Hex. destruct (some_chain s own p b Hv Hb) as [l Hc]. pose proof (so_links _ _ (va_sound _ _ Hv)) as Hl.
  pose proof (chain_size _ _ Hl _ _ Hc) as Hsz. rewrite graph_size in Hsz. pose proof (pbuf_not_null _ _ _ _ (va_sound _ _ Hv) Hb) as Hp0.
  assert (heap s !! 0 = None) as H0.
  { pose proof (lk_null _ _ Hl) as E. unfold graph_of in E. by rewrite lookup_fmap, fmap_None in E. }
  destruct (free_header_loop_valid custom_free_function (p :: l) (S (base.size (heap s))) p size s own Hv Hc) as (r & s' & l' & E & Hv' & _).
  { by left. }
  { done. }
  { intros x c Hx Hxc. unfold exclusive in Hex. rewrite (chain_of_spec _ _ _ _ Hc H0 Hsz), forallb_forall in Hex.
    specialize (Hex x ltac:(by apply list_elem_of_In)). rewrite Hxc in Hex. by apply Z.eqb_eq. }
  { lia. }
  { done. }
  rewrite decide_False in Hv' by done. exists r, s'. split; [exact E|done].
Qed.

Lemma copyable_spec s own p :
  valid s own -> copyable (heap s) p = true ->
  exists b l, heap s !! p = Some b /\ chain (graph_of (heap s)) p l /\
    (forall y c, y ∈ l -> heap s !! y = Some c -> contiguous c) /\ proper (parts (heap s) l) /\ total (parts (heap s) l) < 2 ^ 16.
Proof.
  intros Hv. unfold copyable. rewrite !andb_true_iff, Z.ltb_lt, forallb_forall. intros [[[Hb Hco] Hpr] Ht].
  destruct (heap s !! p) as [b|] eqn:Hp; [|done]. destruct (some_chain s own p b Hv Hp) as [l Hc].
  pose proof (so_links _ _ (va_sound _ _ Hv)) as Hl. pose proof (chain_size _ _ Hl _ _ Hc) as Hsz. rewrite graph_size in Hsz.
  assert (heap s !! 0 = None) as H0.
  { pose proof (lk_null _ _ Hl) as E. unfold graph_of in E. by rewrite lookup_fmap, fmap_None in E. }
  rewrite (chain_of_spec _ _ _ _ Hc H0 Hsz) in *. exists b, (p :: l). split; [done|]. split; [done|]. split; [|split; [by apply properb_spec|done]].
  intros y c Hy Hyc. specialize (Hco y ltac:(by apply list_elem_of_In)). rewrite Hyc in Hco. by apply negb_true_iff, Z.eqb_neq in Hco.
Qed.

Lemma call_fine c s own : valid s own -> allowed c (heap s) own = true -> fine c s own.
Proof.
  intros Hv. destruct c; cbn [allowed]; rewrite ?andb_true_iff, ?orb_true_iff, ?negb_true_iff, ?Z.leb_le, ?Z.ltb_lt, ?Z.eqb_eq, ?Z.eqb_neq.
  - intros Hl. by apply alloc_fine.
  - intros [Hl Hty]. destruct (pbuf_alloc_reference_valid payload length type s own Hv Hl) as (r & s' & E & Hv' & _).
    { destruct type; auto; done. }
    by exists r, s'.
  - intros Hp. by apply free_fine.
  - intros Hp. apply ref_fine; [done|]. destruct Hp as [?|Hp]; [by left|right]. destruct (heap s !! p) as [b|]; [|done]. exists b. by apply Z.ltb_lt in Hp.
  - intros Hp. apply clen_fine; [done|]. destruct Hp as [?|Hp]; [by left|right]. by destruct (heap s !! p).
  - intros [[[(b & Hb & Hbl)%is_head_spec (c & Hc & Hcl)%is_head_spec] Hne] Ho]. by apply (cat_fine h t b c).
  - intros [[[[(b & Hb & Hbl)%is_head_spec (c & Hc & Hcl)%is_head_spec] Hne] Ho] Hr]. rewrite Hc in Hr. apply Z.ltb_lt in Hr.
    by apply (cat_fine h t b c).
  - intros (b & Hb & Hbl)%is_head_spec. by apply (dechain_fine p b).
  - intros [(b & Hb & Hbl)%is_head_spec Hn]. by apply (realloc_fine p b).
  - intros [[(b & Hb & Hbl)%is_head_spec Hlo] Hhi]. destruct (Z.ltb_spec increment 0) as [Hneg|Hpos].
    + destruct (header_fine p b (- increment) force s own Hv Hb Hbl ltac:(lia)) as [_ (r & s' & E & Hv')]. exists r, s'. split; [|done].
      cbn [run] in *. unfold pbuf_header_impl. by rewrite (proj2 (Z.ltb_lt _ _)) by lia.
    + destruct (header_fine p b increment force s own Hv Hb Hbl ltac:(lia)) as [(r & s' & E & Hv') _]. exists r, s'. split; [|done].
      cbn [run] in *. unfold pbuf_header_impl. by rewrite (proj2 (Z.ltb_ge _ _)) by lia.
  - intros [(b & Hb & Hbl)%is_head_spec Hn]. by apply (header_fine p b increment force).
  - intros [(b & Hb & Hbl)%is_head_spec Hn]. by apply (header_fine p b decrement 0).
  - intros [[[[(b & Hb & Hbl)%is_head_spec Ho] Hn] Hn'] Hex]. by apply (free_header_fine p b).
  - intros (b & l & Hb & Hc & Hco & Hpr & Ht)%(copyable_spec s own p Hv).
    destruct (pbuf_clone_valid custom_free_function layer p b l s own Hv Hb Hc Hco Hpr Ht) as (r & s' & E & Hv' & _). by exists r, s'.
  - intros [(b & l & Hb & Hc & Hco & Hpr & Ht)%(copyable_spec s own p Hv) Ho].
    destruct (pbuf_coalesce_valid custom_free_function layer p b l s own Hv Hb Hc Hco Hpr Ht Ho) as (r & s' & l' & E & Hv' & _). by exists r, s'.
  - intros (b & Hb & Hbl)%is_head_spec. by apply (split_fine p b).
Qed.

(** ** Histories *)

(** The states that calls lead to, from an empty heap. Between the calls there are
    other uses of the C library's heap, and the packets are written. *)
Inductive reachable : lwip H -> owners -> Prop :=
  | reach_start s : heap s = ∅ -> reachable s (fun _ => 0)
  | reach_call s own c r s' :
      reachable s own -> allowed c (heap s) own = true -> run c s = Some (r, s') -> reachable s' (after c own r)
  | reach_other s own s' :
      reachable s own -> heap s' = heap s ->
      (forall a b n, heap s !! a = Some b -> live (outside s) !! (a - 8) = Some n -> live (outside s') !! (a - 8) = Some n) ->
      reachable s' own.

Lemma reachable_valid s own : reachable s own -> valid s own.
Proof.
  induction 1 as [s Hs|s own c r s' _ IH Ha E|s own s' _ IH Eh Hlive].
  - split; [split|]; rewrite Hs; [|done|done]. by split.
  - destruct (call_fine c s own IH Ha) as (r1 & s1 & E1 & Hv). rewrite E in E1. by injection E1 as <- <-.
  - destruct IH as [[Hl Hpl] Ht]. split; [split|]; rewrite Eh; [done| |done]. intros a b Hb. destruct (Hpl a b Hb) as [(n & Hn & Hrest) ? ? ?].
    split; [|done..]. exists n. split; [by apply (Hlive a b)|done].
Qed.

(** Without references from outside there is nothing: otherwise each pbuf has a
    predecessor, and chains are as long as one likes. *)
Lemma links_nothing g own : links g own -> (forall p, own p = 0) -> g = ∅.
Proof.
  intros Hl Ho. destruct (decide (g = ∅)) as [?|(a & [q r] & Ha)%map_choose]; [done|]. exfalso.
  assert (forall n, exists p l, is_Some (g !! p) /\ chain g p l /\ (n <= length l)%nat) as Hlong.
  { induction n as [|n (p & l & [[q' r'] Hp] & Hc & Hn)].
    - destruct (chain_from _ _ Hl a) as (l & Hc & _); [by rewrite Ha|]. exists a, (a :: l). rewrite Ha. split; [done|]. split; [done|]. lia.
    - destruct (lk_ref _ _ Hl p q' r' Hp) as [Hr [[(c & rc & Hcc) _]|[_ E]]]; [|rewrite Ho in E; lia].
      exists c, (c :: l). rewrite Hcc. split; [done|]. split; [|cbn; lia]. split; [done|].
      split; [intros ->; by rewrite (lk_null _ _ Hl) in Hcc|]. by exists p, rc. }
  destruct (Hlong (S (size g))) as (p & l & _ & Hc & Hn). pose proof (chain_size _ _ Hl _ _ Hc). lia.
Qed.
(** C11 In every state that a history of allowed calls leads to, the pbufs that
    callers hold references to exist, the count of each pbuf is the number of these
    references and of the pbufs that point to it, the total length of each packet is
    the sum of its parts modulo 2^16, each structure lies in an allocated block, with
    its data for the kinds of pbufs that keep them there, the data of two such pbufs
    do not overlap, and the next allowed call returns and does not touch a pbuf that
    does not exist. *)
Theorem pbuf_history_safe s own : reachable s own ->
  (forall p, 0 < own p -> is_Some (heap s !! p)) /\
  (forall a b, heap s !! a = Some b -> ref b = own a + Z.b2z (linkedb (graph_of (heap s)) a) /\ 1 <= ref b < 256) /\
  (forall p b, heap s !! p = Some b -> exists l, chain (graph_of (heap s)) p l /\ tot_len b = u16 (sum_len (bufs (heap s) l))) /\
  (forall a b, heap s !! a = Some b -> exists n, live (outside s) !! (a - 8) = Some n /\
    (contiguous b -> a + 24 <= payload b /\ payload b + len b <= a - 8 + n)) /\
  (forall a b a' b', heap s !! a = Some b -> heap s !! a' = Some b' -> a <> a' -> contiguous b -> contiguous b' ->
    disjoint (payload b) (len b) (payload b') (len b')) /\
  (forall c, allowed c (heap s) own = true -> exists r s', run c s = Some (r, s')).
Proof.
  intros Hr. pose proof (reachable_valid s own Hr) as Hv. pose proof (so_links _ _ (va_sound _ _ Hv)) as Hl. split_and!.
  - intros p Ho. destruct (held s own p Hv Ho) as (b & Hb). by exists b.
  - intros a b Hb. destruct (lk_ref _ _ Hl a _ _ (graph_lookup _ _ _ Hb)) as [Hrange Hcase]. split; [|done].
    destruct (linkedb (graph_of (heap s)) a) eqn:E; cbn [Z.b2z].
    + destruct Hcase as [[_ ?]|[Hn _]]; [done|]. by apply linkedb_spec in E.
    + destruct Hcase as [[Hn%linkedb_spec _]|[_ ?]]; [congruence|lia].
  - intros p b Hb. destruct (some_chain s own p b Hv Hb) as [l Hc]. exists (p :: l). split; [done|].
    pose proof (chain_total _ _ _ _ (va_totals _ _ Hv) Hl Hc) as E. unfold tot_of in E. by rewrite Hb in E.
  - intros a b Hb. destruct (so_placed _ _ (va_sound _ _ Hv) a b Hb) as [(n & Hn & _ & Hin) _ _ _]. by exists n.
  - intros a b a' b'. by apply (contiguous_apart s own).
  - intros c Ha. destruct (call_fine c s own Hv Ha) as (r & s' & E & _). by exists r, s'.
Qed.

(** C12 Nothing leaks: when the callers have given up all their references the heap
    of pbufs is empty. *)
Theorem pbuf_history_no_leak s own : reachable s own -> (forall p, own p = 0) -> heap s = ∅.
Proof.
  intros Hr Ho. pose proof (links_nothing _ _ (so_links _ _ (va_sound _ _ (reachable_valid s own Hr))) Ho) as E.
  apply fmap_empty_inv in E. done.
Qed.

(** A history that can be run. *)
Fixpoint trace (cs : list call) (s : lwip H) (own : owners) : option (lwip H * owners) :=
  match cs with
  | [] => Some (s, own)
  | c :: cs =>
      if allowed c (heap s) own then
        match run c s with Some (r, s') => trace cs s' (after c own r) | None => None end
      else None
  end.

Lemma trace_reachable cs s own s' own' : reachable s own -> trace cs s own = Some (s', own') -> reachable s' own'.
Proof.
  revert s own. induction cs as [|c cs IH]; intros s own Hr; cbn [trace]; [by intros [= <- <-]|].
  destruct (allowed c (heap s) own) eqn:Ha; [|done]. destruct (run c s) as [[r s1]|] eqn:E; [|done].
  apply IH. by eapply reach_call.
Qed.
(** The addresses for which a call changes the references. *)
Definition named (c : call) (r : Z) : list Z :=
  match c with
  | Alloc _ _ _ | AllocReference _ _ _ | Clone _ _ | Split64k _ => [r]
  | Free p | Ref p => [p]
  | Cat _ t => [t]
  | FreeHeader p _ | Coalesce p _ => [r; p]
  | _ => []
  end.
Fixpoint names (cs : list call) (s : lwip H) (own : owners) : list Z :=
  match cs with
  | [] => []
  | c :: cs => match run c s with Some (r, s') => named c r ++ names cs s' (after c own r) | None => [] end
  end.

Lemma after_other c own r p : p ∉ named c r -> after c own r p = own p.
Proof.
  destruct c; cbn [named after]; rewrite ?not_elem_of_cons; intros Hp; unfold granted; repeat case_decide; try done;
    unfold own_add; repeat case_decide; tauto.
Qed.

Lemma trace_other cs s own s' own' p : trace cs s own = Some (s', own') -> p ∉ names cs s own -> own' p = own p.
Proof.
  revert s own. induction cs as [|c cs IH]; intros s own; cbn [trace names]; [by intros [= <- <-]|].
  destruct (allowed c (heap s) own); [|done]. destruct (run c s) as [[r s1]|]; [|done].
  intros E [Hp Hp']%not_elem_of_app. rewrite (IH _ _ E Hp'). by apply after_other.
Qed.
End History.

(** * An allocator *)

(** Blocks one behind the other, never used again. *)
Definition arena := list (positive * bool).
Definition arena_start : Z := 65536.
Definition arena_end : Z := 2 ^ 20.
Definition arena_top (a : Z) (h : arena) : Z := fold_left (fun a x => a + Zpos (fst x)) h a.
Fixpoint arena_live (a : Z) (h : arena) : gmap Z Z :=
  match h with
  | [] => ∅
  | (n, used) :: h =>
      let m := arena_live (a + Zpos n) h in
      if used && (a + Zpos n <=? arena_end) then <[a := Zpos n]> m else m
  end.
Fixpoint arena_free (a p : Z) (h : arena) : arena :=
  match h with
  | [] => []
  | (n, used) :: h => if a =? p then (n, false) :: h else (n, used) :: arena_free (a + Zpos n) p h
  end.

#[export] Instance arena_outside : Outside arena := {|
  clib_malloc n h :=
    let p := arena_top arena_start h in
    if p + n <=? arena_end then (p, h ++ [(Z.to_pos n, true)]) else (0, h);
  clib_free p h := arena_free arena_start p h;
  tcpip_try_callback h := (0, h);
|}.

Lemma arena_lookup h : forall a p n, arena_live a h !! p = Some n -> a <= p /\ p + n <= arena_end /\ 0 < n.
Proof.
  induction h as [|[k used] h IH]; intros a p n; cbn [arena_live]; [by rewrite lookup_empty|].
  destruct (used && (a + Zpos k <=? arena_end)) eqn:E.
  - apply andb_prop in E as [_ E%Z.leb_le]. destruct (decide (p = a)) as [->|Hne].
    + rewrite lookup_insert_eq. intros [= <-]. lia.
    + rewrite lookup_insert_ne by done. intros Hp%IH. lia.
  - intros Hp%IH. lia.
Qed.

Lemma arena_apart h : forall a p n q k,
  arena_live a h !! p = Some n -> arena_live a h !! q = Some k -> p <> q -> disjoint p n q k.
Proof.
  induction h as [|[m used] h IH]; intros a p n q k; cbn [arena_live]; [by rewrite lookup_empty|].
  destruct (used && (a + Zpos m <=? arena_end)); [|by apply IH]. unfold disjoint.
  destruct (decide (p = a)) as [->|Hp], (decide (q = a)) as [->|Hq]; rewrite ?lookup_insert_eq, ?lookup_insert_ne by done; try done.
  - intros [= <-] Hk%arena_lookup _. lia.
  - intros Hn%arena_lookup [= <-] _. lia.
  - by apply IH.
Qed.

Lemma arena_top_ge h : forall a, a <= arena_top a h.
Proof.
  induction h as [|[n used] h IH]; intros a; cbn; [lia|]. specialize (IH (a + Zpos n)). unfold arena_top in IH. lia.
Qed.

Lemma arena_below h : forall a p n, arena_live a h !! p = Some n -> p < arena_top a h.
Proof.
  induction h as [|[k used] h IH]; intros a p n; cbn [arena_live]; [by rewrite lookup_empty|].
  change (arena_top a ((k, used) :: h)) with (arena_top (a + Zpos k) h). destruct (used && (a + Zpos k <=? arena_end)); [|apply IH].
  destruct (decide (p = a)) as [->|Hne]; [|rewrite lookup_insert_ne by done; apply IH]. intros _. pose proof (arena_top_ge h (a + Zpos k)). lia.
Qed.

Lemma arena_snoc h n : forall a, arena_top a h + Zpos n <= arena_end ->
  arena_live a (h ++ [(n, true)]) = <[arena_top a h := Zpos n]> (arena_live a h).
Proof.
  induction h as [|[k used] h IH]; intros a Hn; cbn [app arena_live].
  - cbn in Hn. by rewrite (proj2 (Z.leb_le _ _) Hn).
  - change (arena_top a ((k, used) :: h)) with (arena_top (a + Zpos k) h) in *. rewrite (IH _ Hn).
    destruct (used && (a + Zpos k <=? arena_end)); [|done]. apply insert_insert_ne. pose proof (arena_top_ge h (a + Zpos k)). lia.
Qed.

Lemma arena_gone h p : forall a n, arena_live a h !! p = Some n -> arena_live a (arena_free a p h) = delete p (arena_live a h).
Proof.
  induction h as [|[k used] h IH]; intros a n; cbn [arena_live arena_free]; [by rewrite lookup_empty|]. destruct (Z.eqb_spec a p) as [->|Hne].
  - intros Hp. cbn [arena_live andb]. destruct (used && (p + Zpos k <=? arena_end)) eqn:E; [|by apply arena_lookup in Hp; lia].
    rewrite delete_insert_eq, delete_id; [done|]. destruct (arena_live (p + Zpos k) h !! p) eqn:Hx; [|done]. apply arena_lookup in Hx. lia.
  - cbn [arena_live]. destruct (used && (a + Zpos k <=? arena_end)).
    + rewrite lookup_insert_ne by done. intros Hp. rewrite (IH _ _ Hp). symmetry. by apply delete_insert_ne.
    + intros Hp. by apply (IH _ n).
Qed.

#[export] Instance arena_laws : OutsideLaws arena.
Proof.
  refine {| heap_start := arena_start; heap_end := arena_end; live := arena_live arena_start |}.
  - intros h p n Hp%arena_lookup. unfold arena_start, arena_end in *. lia.
  - intros h p n q k. apply arena_apart.
  - intros n h Hn. cbn [clib_malloc arena_outside]. pose proof (arena_top_ge h arena_start) as Ht. unfold arena_start in *.
    destruct (Z.leb_spec (arena_top 65536 h + n) arena_end) as [Hle|Hgt]; [right|by left]. split; [lia|]. split.
    + destruct (arena_live 65536 h !! arena_top 65536 h) eqn:E; [|done]. apply arena_below in E. lia.
    + rewrite arena_snoc; rewrite Z2Pos.id by lia; done.
  - intros p n h Hp. by apply (arena_gone _ _ _ n).
  - done.
Defined.

Definition arena_empty : lwip arena := Lwip ∅ (fun _ => 0) [] (StatsMem 0 0 0) (StatsMem 0 0 0) (StatsMem 0 0 0) 0.

(** A packet of 100 bytes in one piece, one of 1000 bytes in two, put together. *)
Definition some_calls : list call :=
  [Alloc PBUF_TRANSPORT 100 PBUF_RAM; Alloc PBUF_RAW 1000 PBUF_POOL; Cat 65544 65730; AddHeader 65544 20 0].

Lemma pbuf_history_safe_witness : exists s own,
  trace (fun _ => stuck) some_calls arena_empty (fun _ => 0) = Some (s, own) /\ is_Some (heap s !! 65544) /\
  exists r s', run (fun _ => stuck) (Realloc 65544 300) s = Some (r, s').
Proof.
  assert (match trace (fun _ => stuck) some_calls arena_empty (fun _ => 0) with
    | Some (s, own) => (0 <? own 65544) && allowed (Realloc 65544 300) (heap s) own | None => false end = true) as Ha
    by (vm_compute; reflexivity).
  destruct (trace (fun _ => stuck) some_calls arena_empty (fun _ => 0)) as [[s own]|] eqn:E; [|discriminate Ha]. apply andb_prop in Ha as [Ho Ha].
  apply Z.ltb_lt in Ho. destruct (pbuf_history_safe _ s own (trace_reachable _ _ _ _ _ _ (reach_start _ arena_empty eq_refl) E)) as (H1 & _ & _ & _ & _ & H6).
  exists s, own. split; [reflexivity|]. split; [apply H1; exact Ho|apply H6; exact Ha].
Defined.

Lemma pbuf_history_no_leak_witness : exists s own,
  trace (fun _ => stuck) (some_calls ++ [Realloc 65544 300; Dechain 65544; Free 65544]) arena_empty (fun _ => 0) = Some (s, own) /\ heap s = ∅.
Proof.
  set (cs := some_calls ++ _).
  assert (match trace (fun _ => stuck) cs arena_empty (fun _ => 0) with
    | Some (s, own) => (own 65544 =? 0) && (own 65730 =? 0) | None => false end = true) as Ha by (vm_compute; reflexivity).
  assert (names (fun _ => stuck) cs arena_empty (fun _ => 0) = [65544; 65730; 65730; 65544]) as En by (vm_compute; reflexivity).
  destruct (trace (fun _ => stuck) cs arena_empty (fun _ => 0)) as [[s own]|] eqn:E; [|discriminate Ha]. apply andb_prop in Ha as [H1%Z.eqb_eq H2%Z.eqb_eq].
  exists s, own. split; [reflexivity|]. apply (pbuf_history_no_leak (fun _ => stuck) s own (trace_reachable _ _ _ _ _ _ (reach_start _ arena_empty eq_refl) E)).
  intros p. destruct (decide (p = 65544)) as [->|Hp1]; [exact H1|]. destruct (decide (p = 65730)) as [->|Hp2]; [exact H2|].
  apply (trace_other _ _ _ _ _ _ p E). rewrite En, !not_elem_of_cons. clear - Hp1 Hp2. split_and!; try done. by intros ?%elem_of_nil.
Defined.

(** * A packet with many parts *)

Lemma arena_top_app h h' : forall a, arena_top a (h ++ h') = arena_top (arena_top a h) h'.
Proof. intros a. unfold arena_top. apply fold_left_app. Qed.

(** There is room for another structure. *)
Lemma arena_alloc (s : lwip arena) :
  arena_top arena_start (outside s) + 32 <= arena_end ->
  exists s', pbuf_alloc_reference 0 1 PBUF_REF s = Some (arena_top arena_start (outside s) + 8, s') /\
    arena_top arena_start (outside s') = arena_top arena_start (outside s) + 32.
Proof.
  intros Hroom. pose proof (arena_top_ge (outside s) arena_start) as Ht. unfold arena_start in Ht.
  assert (clib_malloc (u64 (0 + LWIP_MEM_ALIGN_SIZE (memp_size MEMP_PBUF) + MEM_LIBC_STATSHELPER_SIZE)) (outside s) =
    (arena_top arena_start (outside s), outside s ++ [(32%positive, true)])) as E.
  { change (u64 _) with 32. cbn [clib_malloc arena_outside]. by rewrite (proj2 (Z.leb_le _ _) Hroom). }
  assert (arena_top arena_start (outside s) =? 0 = false) as E0 by (apply Z.eqb_neq; unfold arena_start; lia).
  assert (arena_top arena_start (outside s) + 8 =? 0 = false) as E8 by (apply Z.eqb_neq; unfold arena_start; lia).
  eexists. split.
  - unfold pbuf_alloc_reference, memp_malloc, do_memp_malloc_pool, mem_malloc, call_outside, bind at 1 2 3. rewrite E, E0.
    unfold with_mem_stats, with_data, with_memp_stats, modify, ret. cbn [bind]. change MEM_LIBC_STATSHELPER_SIZE with 8.
    rewrite !Z.add_0_r, !E8. unfold bind. cbn beta iota. rewrite E8. reflexivity.
  - cbn [outside]. by rewrite arena_top_app.
Qed.

Lemma is_head_intro h p b : h !! p = Some b -> ~ linked (graph_of h) p -> is_head h p = true.
Proof.
  intros Hb Hn. unfold is_head. rewrite Hb. apply negb_true_iff. destruct (linkedb (graph_of h) p) eqn:E; [|done]. by apply linkedb_spec in E.
Qed.

Section Long.
Context (custom_free_function : Z -> prog (lwip arena) unit).

(** A packet of [n] parts, of which the caller holds the first one and nothing else. *)
Record packet_of (n : nat) (s : lwip arena) (own : owners) (p : Z) (l : list Z) : Prop := {
  po_reach : reachable custom_free_function s own;
  po_chain : chain (graph_of (heap s)) p l;
  po_size : length l = n;
  po_head : ~ linked (graph_of (heap s)) p;
  po_own x : own x = if decide (x = p) then 1 else 0;
  po_top : arena_top arena_start (outside s) = arena_start + 32 * Z.of_nat n;
}.

Lemma packet_cat n s own p l s1 r own1 :
  packet_of (S n) s own p l -> reachable custom_free_function s1 own1 -> r <> p -> r <> 0 -> chain (graph_of (heap s1)) p l ->
  head_of (graph_of (heap s1)) r -> head_of (graph_of (heap s1)) p -> chain (graph_of (heap s1)) r [r] ->
  (forall x, own1 x = granted r own x) -> arena_top arena_start (outside s1) = arena_start + 32 * Z.of_nat (S (S n)) ->
  exists s2 own2, packet_of (S (S n)) s2 own2 r (r :: l).
Proof.
  intros [_ _ Hsz _ Hown _] Hr1 Hne Hr0 Hc Hhr Hhp Hcr Hown1 Htop. pose proof (reachable_valid _ _ _ Hr1) as Hv1.
  assert (own1 p = 1) as Hop.
  { rewrite Hown1. unfold granted. rewrite decide_False by done. unfold own_add. rewrite decide_False by done. by rewrite Hown, decide_True. }
  destruct (pbuf_cat_valid r p [r] l s1 own1 Hv1 Hhr Hhp Hne ltac:(lia) Hcr Hc) as (s2 & E & Hv2 & Hch & _ & Eo & _ & _ & Hnl).
  destruct Hhr as [[[qr rr] Hgr] Hrl], Hhp as [[[qp rp] Hgp] Hpl].
  destruct (graph_lookup_inv _ _ _ _ Hgr) as (br & Hbr & _), (graph_lookup_inv _ _ _ _ Hgp) as (bp & Hbp & _).
  exists s2, (after (Cat r p) own1 0). split; try done.
  - eapply (reach_call _ s1 own1 (Cat r p)); [done| |].
    + cbn [allowed]. rewrite (is_head_intro _ _ _ Hbr Hrl), (is_head_intro _ _ _ Hbp Hpl), (proj2 (Z.eqb_neq _ _) Hne), Hop. done.
    + cbn [run]. by apply (ignore_run _ tt).
  - cbn [length]. by rewrite Hsz.
  - intros x. cbn [after]. unfold own_add at 1. case_decide as Hx.
    + subst x. rewrite Hop. by rewrite decide_False by done.
    + rewrite Hown1. unfold granted, own_add. rewrite decide_False, Hown by done. destruct (decide (x = p)) as [?|_]; [done|]. by case_decide.
  - by rewrite Eo.
Qed.

Lemma alone_head s own p b : valid s own -> heap s !! p = Some b -> own p = ref b -> ~ linked (graph_of (heap s)) p.
Proof.
  intros Hv Hb Ho. destruct (lk_ref _ _ (so_links _ _ (va_sound _ _ Hv)) p _ _ (graph_lookup _ _ _ Hb)) as [_ [[_ ?]|[? _]]]; [lia|done].
Qed.

Lemma packet_more n s own p l :
  packet_of (S n) s own p l -> (n < 1000)%nat -> exists s2 own2 p2 l2, packet_of (S (S n)) s2 own2 p2 l2.
Proof.
  intros Hpo Hn. pose proof Hpo as [Hr Hc Hsz Hnl Hown Htop]. pose proof (reachable_valid _ _ _ Hr) as Hv.
  destruct (arena_alloc s) as (s1 & E & Htop1); [rewrite Htop; unfold arena_start, arena_end; lia|].
  destruct (pbuf_alloc_reference_valid 0 1 PBUF_REF s own Hv ltac:(lia)) as (r & s1' & E' & Hv1 & _ & Hres); [by right|].
  rewrite E in E'. injection E' as Er <-. assert (r <> 0) as Hr0 by (rewrite <- Er, Htop; unfold arena_start; lia).
  destruct Hres as [[? _]|(_ & Hfresh & Eh)]; [done|].
  assert (exists b, heap s !! p = Some b) as [bp Hbp] by (apply (held s own p Hv); rewrite Hown, decide_True; lia).
  assert (r <> p) as Hne by congruence.
  assert (own r = 0) as Hor by (by rewrite Hown, decide_False).
  assert (ref bp = 1) as Hrp.
  { destruct (lk_ref _ _ (so_links _ _ (va_sound _ _ Hv)) p _ _ (graph_lookup _ _ _ Hbp)) as [_ [[? _]|[_ ->]]]; [done|]. by rewrite Hown, decide_True. }
  set (b := StructPbuf 0 0 1 1 (u8 (type_bits PBUF_REF)) 0 1 NETIF_NO_INDEX) in *.
  assert (heap s1 !! r = Some b) as Hbr by (rewrite Eh; apply lookup_insert_eq).
  assert (heap s1 !! p = Some bp) as Hbp1 by (by rewrite Eh, lookup_insert_ne).
  unfold granted in Hv1. rewrite decide_False in Hv1 by done.
  destruct (packet_cat n s own p l s1 r (own_add r 1 own) Hpo) as (s2 & own2 & Hpo2); try done.
  - pose proof (reach_call custom_free_function s own (AllocReference 0 1 PBUF_REF) r s1 Hr eq_refl) as Hr1. cbn [run after] in Hr1.
    unfold granted in Hr1. rewrite decide_False in Hr1 by done. apply Hr1. by rewrite E, Er.
  - rewrite Eh, graph_insert. apply chain_insert; [|done]. intros Hin. destruct (chain_elem _ _ _ _ Hc Hin) as [_ [[q k] Hq]].
    destruct (graph_lookup_inv _ _ _ _ Hq) as (c & Hcc & _). congruence.
  - split; [by rewrite (graph_lookup _ _ _ Hbr)|]. apply (alone_head _ _ _ _ Hv1 Hbr). rewrite own_add_eq, Hor. done.
  - split; [by rewrite (graph_lookup _ _ _ Hbp1)|]. apply (alone_head _ _ _ _ Hv1 Hbp1). rewrite own_add_ne, Hown, decide_True by done. done.
  - split; [done|]. split; [done|]. exists 0, 1. split; [|done]. by rewrite (graph_lookup _ _ _ Hbr).
  - intros x. unfold granted. by rewrite decide_False.
  - rewrite Htop1, Htop. lia.
  - by exists s2, own2, r, (r :: l).
Qed.
Lemma long_packet n : (n < 1000)%nat -> exists s own p l, packet_of (S n) s own p l.
Proof.
  induction n as [|n IH]; intros Hn.
  - destruct (pbuf_alloc_reference_valid 0 1 PBUF_REF arena_empty (fun _ => 0)) as (r & s1 & E & Hv1 & _ & Hres);
      [by apply (reachable_valid custom_free_function), reach_start|lia|by right|].
    destruct (arena_alloc arena_empty) as (s1' & E' & Htop); [done|]. rewrite E in E'. injection E' as Er <-.
    change (r = 65544) in Er. subst r. destruct Hres as [[? _]|(_ & _ & Eh)]; [done|]. cbn [heap arena_empty] in Eh.
    set (b := StructPbuf 0 0 1 1 (u8 (type_bits PBUF_REF)) 0 1 NETIF_NO_INDEX) in *.
    assert (heap s1 !! 65544 = Some b) as Hb by (rewrite Eh; apply lookup_insert_eq).
    exists s1, (granted 65544 (fun _ => 0)), 65544, [65544]. split; try done.
    + by apply (reach_call custom_free_function arena_empty (fun _ => 0) (AllocReference 0 1 PBUF_REF) 65544 s1); [by apply reach_start|..].
    + split; [done|]. split; [done|]. exists 0, 1. by rewrite (graph_lookup _ _ _ Hb).
    + by apply (alone_head _ _ _ _ Hv1 Hb).
  - destruct IH as (s & own & p & l & Hp); [lia|]. apply (packet_more n s own p l Hp). lia.
Qed.

(** The count that [pbuf_free] returns has 8 bits. When a pbuf is separated from
    a tail of 256 others, all of which are freed, the count is 0 again and
    [pbuf_dechain] returns the address of the tail, which is no longer there. *)
Theorem pbuf_dechain_dangling : exists s own p r s',
  reachable custom_free_function s own /\ allowed (Dechain p) (heap s) own = true /\
  run custom_free_function (Dechain p) s = Some (r, s') /\ r <> 0 /\ is_Some (heap s !! r) /\ heap s' !! r = None.
Proof.
  destruct (long_packet 256) as (s & own & p & l & [Hr Hc Hsz Hnl Hown _]); [lia|]. pose proof (reachable_valid _ _ _ Hr) as Hv.
  pose proof (so_links _ _ (va_sound _ _ Hv)) as Hl. pose proof (chain_nodup _ _ Hl _ _ Hc) as Hnd.
  destruct l as [|p' l]; [done|]. destruct Hc as (<- & Hp0 & q & k & Hg & Hc). destruct (graph_lookup_inv _ _ _ _ Hg) as (b & Hb & <- & <-).
  apply NoDup_cons in Hnd as [Hpl Hnd]. destruct (pbuf_dechain_valid custom_free_function p b l s own Hv Hb Hnl Hc) as (s' & n & E & Hv' & _ & _ & Hiff & _ & Ed).
  assert (next b ∈ l) as Hin by (destruct l; [done|]; destruct Hc as (-> & _); by left).
  destruct (chain_elem _ _ _ _ Hc Hin) as [Hq0 [[q' k'] Hq]]. destruct (graph_lookup_inv _ _ _ _ Hq) as (c & Hcc & _).
  assert (n = 256) as ->.
  { destruct (drop_refs_all custom_free_function l (<[p := set_tot_len (len b) (set_next 0 b)]> (heap s)) Hnd) as [E1 _].
    - intros x Hx. destruct (chain_elem _ _ _ _ Hc Hx) as [_ [[qx kx] Hgx]]. destruct (graph_lookup_inv _ _ _ _ Hgx) as (d & Hd & _).
      exists d. rewrite lookup_insert_ne by congruence. split; [done|].
      destruct (lk_ref _ _ Hl x _ _ (graph_lookup _ _ _ Hd)) as [Hk [[_ ->]|[_ Hk']]].
      + rewrite Hown, decide_False by congruence. done.
      + rewrite Hown, decide_False in Hk' by congruence. lia.
    - rewrite Ed in E1. cbn [snd] in E1. rewrite E1. cbn in Hsz. lia. }
  exists s, own, p, (next b), s'. split; [done|]. split; [by apply (is_head_intro _ _ b)|]. split; [exact E|]. split; [done|].
  split; [by exists c|]. destruct (heap s' !! next b) eqn:Hx; [|done]. destruct (Hiff Hq0) as [_ Hi]. discriminate Hi. by eexists.
Qed.
End Long.
