(* ===== verification/PbufContent.v ===== *)
(** What the operations of pbuf.cpp do to the data of a packet, in any state that a
    history of calls leads to. *)

From Stdlib Require Import ZArith Lia Bool.
From stdpp Require Import base list gmap.
From S2P Require Import Prelude Hw Chksum Pbuf PbufRef PbufOps PbufData PbufHistory.

(** ** Bytes of changed pieces *)

Lemma bytes_of_cut (m : mem) h p ps1 a k ps2 rem :
  packet h p (ps1 ++ (a, k) :: ps2) -> 0 <= rem <= k ->
  bytes_of m (ps1 ++ [(a, rem)]) = take (Z.to_nat (total ps1 + rem)) (bytes_of m (ps1 ++ (a, k) :: ps2)).
Proof.
  intros Hp Hrem. destruct (packet_app _ _ _ _ Hp) as (_ & _ & Ht). rewrite !bytes_of_app. rewrite take_app_ge by (rewrite (length_bytes_of _ _ _ _ _ Hp); lia).
  f_equal. rewrite (length_bytes_of _ _ _ _ _ Hp). replace (Z.to_nat (total ps1 + rem) - Z.to_nat (total ps1))%nat with (Z.to_nat rem) by lia.
  rewrite !bytes_of_cons. cbn [bytes_of mbind list_bind]. rewrite app_nil_r, take_app_le, load_take by (rewrite ?length_load; lia). done.
Qed.

Lemma bytes_of_drop (m : mem) ps : forall h p n, packet h p ps -> 0 <= n -> bytes_of m (drop_parts n ps) = drop (Z.to_nat n) (bytes_of m ps).
Proof.
  induction ps as [|[a k] ps IH]; intros h p n Hp Hn; cbn [drop_parts]; [cbn [bytes_of mbind list_bind]; by rewrite drop_nil|].
  destruct Hp as (_ & b & _ & _ & _ & Hk & _ & Hp). destruct (Z.eqb_spec n 0) as [->|Hn0]; [done|]. destruct (Z.leb_spec k n) as [Hle|Hgt].
  - rewrite (IH _ _ _ Hp) by lia. rewrite bytes_of_cons, drop_app_ge by (rewrite length_load; lia). rewrite length_load. f_equal. lia.
  - rewrite !bytes_of_cons, drop_app_le, load_drop by (rewrite ?length_load; lia). do 3 f_equal; lia.
Qed.

(** A string in memory, up to its final zero. *)
Definition string_at (m : mem) (a : Z) (str : list Z) : Prop :=
  load m a (length str) = str /\ m (a + Z.of_nat (length str)) = 0 /\ 0 ∉ str.

Lemma c_strlen_run fuel m str : forall a, string_at m a str -> (length str < fuel)%nat -> c_strlen fuel m a = Some (Z.of_nat (length str)).
Proof.
  revert fuel. induction str as [|c str IH]; intros fuel a (Hl & H0 & Hn) Hf; (destruct fuel as [|fuel]; [lia|]); cbn [c_strlen length].
  - cbn in H0. rewrite Z.add_0_r in H0. by rewrite H0.
  - apply not_elem_of_cons in Hn as [Hc Hn]. cbn [length] in Hl. change (S (length str)) with (1 + length str)%nat in Hl. rewrite load_app, load_one in Hl.
    injection Hl as Hc' Hl. rewrite Hc', (proj2 (Z.eqb_neq c 0)) by done. rewrite (IH fuel); [cbn; f_equal; lia| |cbn in Hf; lia].
    split; [done|]. split; [|done]. rewrite <- H0. f_equal. cbn [length]. lia.
Qed.

Lemma string_first m a str : string_at m a str -> str <> [] -> m a <> 0.
Proof.
  intros (Hl & _ & Hn) Hne. destruct str as [|c str]; [done|]. cbn [length] in Hl. change (S (length str)) with (1 + length str)%nat in Hl.
  rewrite load_app, load_one in Hl. injection Hl as -> _. by apply not_elem_of_cons in Hn as [? _].
Qed.

Section Content.
Context {H : Type} `{OL : OutsideLaws H} (custom_free_function : Z -> prog (lwip H) unit).
Abbreviation reachable := (reachable custom_free_function).

(** The data of the packet whose pbufs are [l]. *)
Definition content (s : lwip H) (l : list Z) : list Z := bytes_of (data s) (parts (heap s) l).

(** The packet at [p] in a state that calls have led to; its length is the one in
    its first pbuf. *)
Record held_packet (s : lwip H) (own : owners) (p : Z) (l : list Z) : Prop := {
  hp_reach : reachable s own;
  hp_chain : chain (graph_of (heap s)) p l;
  hp_some : p <> 0;
  hp_total : total (parts (heap s) l) < 2 ^ 16;
}.

Lemma packet_facts s own p l : valid s own -> chain (graph_of (heap s)) p l -> p <> 0 -> total (parts (heap s) l) < 2 ^ 16 ->
  packet (heap s) p (parts (heap s) l) /\ (length (parts (heap s) l) <= size (heap s))%nat /\
  exists b, heap s !! p = Some b /\ tot_len b = total (parts (heap s) l).
Proof.
  intros Hv Hc Hp Ht. assert (exists b, heap s !! p = Some b) as [b Hb].
  { destruct l as [|a l]; [by cbn in Hc|]. destruct Hc as (-> & _ & q & r & Hg & _). destruct (graph_lookup_inv _ _ _ _ Hg) as (b & Hb & _). by exists b. }
  destruct (valid_packet s own p b Hv Hb) as (l0 & Hc0 & Hpk & Hsz & Etot). rewrite <- (chain_det _ _ _ _ Hc Hc0) in *.
  split; [done|]. split; [done|]. exists b. split; [done|]. rewrite Etot. apply wrap_small.
  destruct (packet_total _ _ _ (data s) Hpk). lia.
Qed.

Lemma held_facts s own p l : held_packet s own p l ->
  valid s own /\ packet (heap s) p (parts (heap s) l) /\ (length (parts (heap s) l) <= size (heap s))%nat /\
  exists b, heap s !! p = Some b /\ tot_len b = total (parts (heap s) l).
Proof. intros [Hr Hc Hp Ht]. pose proof (reachable_valid _ _ _ Hr) as Hv. split; [done|]. by apply (packet_facts s own). Qed.

(** The packet for the functions of inet_chksum.cpp. *)
Definition pieces (ps : list (Z * Z)) : list Chksum.pbuf := map (fun '(a, k) => Chksum.Pbuf a k) ps.

Lemma chain_bytes_pieces (m : mem) ps : chain_bytes m (pieces ps) = bytes_of m ps.
Proof. induction ps as [|[a k] ps IH]; [done|]. cbn [pieces map]. unfold chain_bytes, bytes_of in *. cbn [mbind list_bind]. by rewrite <- IH. Qed.

Lemma content_checksum s own p l : held_packet s own p l -> (forall x, is_byte (data s x)) ->
  inet_chksum_pbuf (data s) (pieces (parts (heap s) l)) = lwip_htons (Rfc1071.checksum (content s l)).
Proof.
  intros Hh Hm. destruct (held_facts s own p l Hh) as (_ & Hp & _). pose proof (hp_total _ _ _ _ Hh) as Ht. clear Hh.
  unfold content. rewrite pbuf_checksum, chain_bytes_pieces; [done|done|]. revert p Hp Ht.
  induction (parts (heap s) l) as [|[a k] ps IH]; intros p Hp Ht; [by constructor|].
  destruct (packet_head _ _ _ _ _ (data s) Hp Ht) as (_ & Hk & Ht0 & b & _ & _ & _ & _ & Hp' & _).
  cbn [total foldr] in Ht. fold (total ps) in Ht. constructor; [cbn; lia|apply (IH (next b)); [done|lia]].
Qed.

(** C27 The functions that look at a packet see its data as one sequence of bytes,
    however it is distributed over pbufs: [pbuf_copy_partial] and
    [pbuf_get_contiguous] deliver a range of it, [pbuf_try_get_at] one byte,
    [pbuf_memcmp] compares a range, [pbuf_memfind] finds the first occurrence, and all
    of them report the end of the packet; [pbuf_strstr] finds the first occurrence of a
    string, and the checksum is that of the sequence. *)
Theorem pbuf_read_correct s own p l : held_packet s own p l -> (forall x, is_byte (data s x)) ->
  let B := content s l in
  (forall dst n off, dst <> 0 -> 0 <= n < 2 ^ 16 -> 0 <= off < 2 ^ 16 -> clear_of dst n (parts (heap s) l) ->
    let R := take (Z.to_nat n) (drop (Z.to_nat off) B) in
    exists m', pbuf_copy_partial p dst n off s = Some (Z.of_nat (length R), put_data m' s) /\ m' ≡ store (data s) dst R) /\
  (forall buffer bufsize n off, buffer <> 0 -> 0 < n <= bufsize -> n < 2 ^ 16 -> 0 <= off < 2 ^ 16 ->
    clear_of buffer n (parts (heap s) l) -> Forall (fun '(a, _) => 0 < a) (parts (heap s) l) ->
    exists r m', pbuf_get_contiguous p buffer bufsize n off s = Some (r, put_data m' s) /\ frame buffer n (data s) m' /\
      if decide (off + n <= Z.of_nat (length B)) then r <> 0 /\ load m' r (Z.to_nat n) = take (Z.to_nat n) (drop (Z.to_nat off) B) else r = 0) /\
  (forall off, 0 <= off < 2 ^ 16 -> pbuf_try_get_at p off s = Some (default (-1) (B !! Z.to_nat off), s)) /\
  (forall off s2 n, 0 <= off -> 0 <= n < 2 ^ 16 ->
    pbuf_memcmp p off s2 n s = Some (if Z.of_nat (length B) <? off + n then 0xffff else
      match first_diff (take (Z.to_nat n) (drop (Z.to_nat off) B)) (load (data s) s2 (Z.to_nat n)) with None => 0 | Some j => Z.of_nat j + 1 end, s)) /\
  (forall mem n start, 0 <= n < 2 ^ 16 -> 0 <= start -> exists r, pbuf_memfind p mem n start s = Some (r, s) /\
    let found := found_at B (load (data s) mem (Z.to_nat n)) in
    (r = 0xffff /\ (forall j, start <= j -> ~ found j) \/ start <= r /\ found r /\ forall j, start <= j < r -> ~ found j)) /\
  (forall fuel substr str, substr <> 0 -> string_at (data s) substr str -> str <> [] -> Z.of_nat (length str) < 0xffff -> (length str < fuel)%nat ->
    Z.of_nat (length B) < 0xffff -> exists r, pbuf_strstr fuel p substr s = Some (r, s) /\
    (r = 0xffff /\ (forall j, 0 <= j -> ~ found_at B str j) \/ 0 <= r /\ found_at B str r /\ forall j, 0 <= j < r -> ~ found_at B str j)) /\
  inet_chksum_pbuf (data s) (pieces (parts (heap s) l)) = lwip_htons (Rfc1071.checksum B).
Proof.
  intros Hh Hm B. destruct (held_facts s own p l Hh) as (Hv & Hp & Hsz & b & Hb & Etot). pose proof (hp_some _ _ _ _ Hh) as Hp0.
  pose proof (hp_total _ _ _ _ Hh) as Ht. destruct (packet_total _ _ _ (data s) Hp) as [Ht0 El].
  assert (Z.of_nat (length B) = total (parts (heap s) l)) as EB by (unfold B, content; rewrite El; lia). split_and!.
  - intros dst n off Hd Hn Ho Hcl. by apply pbuf_copy_partial_run.
  - intros buffer bufsize n off Hbu Hn Hn16 Ho Hcl Hpos. unfold pbuf_get_contiguous.
    rewrite (proj2 (Z.eqb_neq _ _) Hp0), (proj2 (Z.eqb_neq _ _) Hbu), (proj2 (Z.leb_le _ _)) by lia. cbn [negb].
    unfold walk_fuel, gets. rewrite (bind_some _ _ s (S (size (heap s))) s eq_refl).
    destruct (get_contiguous_run _ (S (size (heap s))) p buffer n off s Hp ltac:(lia) Hsz Hbu Ho ltac:(lia) Hcl Hpos) as (r & m' & E & Hfr & Hres).
    exists r, m'. split; [done|]. split; [done|]. fold (content s l) in Hres. fold B in Hres. revert Hres. 
    destruct (decide (Z.of_nat (length (take (Z.to_nat n) (drop (Z.to_nat off) B))) = n)) as [Hd|Hd]; rewrite length_take, length_drop in Hd.
    + by rewrite decide_True by lia.
    + by rewrite decide_False by lia.
  - intros off Ho. by apply pbuf_try_get_at_run.
  - intros off s2 n Ho Hn. rewrite EB. apply (pbuf_memcmp_run p _ b); done || lia.
  - intros mem n start Hn Hst. apply (pbuf_memfind_run p _ b); done || lia.
  - intros fuel substr str Hs0 Hstr Hne Hlen Hf HB. unfold pbuf_strstr. rewrite (proj2 (Z.eqb_neq _ _) Hs0). unfold read_byte, gets.
    rewrite (bind_some _ _ s (data s substr) s eq_refl). rewrite (proj2 (Z.eqb_neq (data s substr) 0)) by (by apply (string_first _ _ str)).
    rewrite (deref_run _ _ _ _ Hb), Etot, (proj2 (Z.eqb_neq _ _)) by lia. rewrite (bind_some _ _ s (data s) s eq_refl).
    rewrite (c_strlen_run _ _ _ _ Hstr Hf), (proj2 (Z.leb_gt _ _)), (wrap_small 16) by lia.
    destruct (pbuf_memfind_run p _ b substr (Z.of_nat (length str)) 0 s Hp Hsz Hm Hb Etot Ht ltac:(lia) ltac:(lia)) as (r & E & Hr).
    rewrite Nat2Z.id, (proj1 Hstr) in Hr. by exists r.
  - by apply (content_checksum _ own p).
Qed.

(** All pbufs of the packet carry their data themselves. *)
Definition own_data (s : lwip H) (l : list Z) : Prop := forall y c, y ∈ l -> heap s !! y = Some c -> contiguous c.

(** C28 The functions that write to a packet replace exactly the bytes in question,
    wherever they are: [pbuf_put_at] one byte, [pbuf_take] and [pbuf_take_at] a range.
    If the packet is too short they change nothing. *)
Theorem pbuf_write_correct s own p l : held_packet s own p l -> own_data s l ->
  let B := content s l in
  (forall off v, 0 <= off < 2 ^ 16 -> exists m', pbuf_put_at p off v s = Some (tt, put_data m' s) /\
    content (put_data m' s) l = <[Z.to_nat off := v]> B /\ only (parts (heap s) l) (data s) m') /\
  (forall src n, src <> 0 -> 0 <= n -> clear_of src n (parts (heap s) l) ->
    if n <=? Z.of_nat (length B) then
      exists m', pbuf_take p src n s = Some (ERR_OK, put_data m' s) /\
        content (put_data m' s) l = load (data s) src (Z.to_nat n) ++ drop (Z.to_nat n) B /\ only (parts (heap s) l) (data s) m'
    else pbuf_take p src n s = Some (ERR_MEM, s)) /\
  (forall src n off, 0 < src -> 0 <= n -> 0 <= off < 2 ^ 16 -> clear_of src n (parts (heap s) l) ->
    if (off + n <=? Z.of_nat (length B)) && (off <? Z.of_nat (length B)) then
      exists m', pbuf_take_at p src n off s = Some (ERR_OK, put_data m' s) /\
        content (put_data m' s) l = take (Z.to_nat off) B ++ load (data s) src (Z.to_nat n) ++ drop (Z.to_nat (off + n)) B /\
        only (parts (heap s) l) (data s) m'
    else pbuf_take_at p src n off s = Some (ERR_MEM, s)).
Proof.
  intros Hh Hown B. destruct (held_facts s own p l Hh) as (Hv & Hp & Hsz & b & Hb & Etot). pose proof (hp_some _ _ _ _ Hh) as Hp0.
  pose proof (hp_total _ _ _ _ Hh) as Ht. destruct (packet_total _ _ _ (data s) Hp) as [Ht0 El].
  assert (Z.of_nat (length B) = total (parts (heap s) l)) as EB by (unfold B, content; rewrite El; lia). rewrite EB.
  assert (apart (parts (heap s) l)) as Hap.
  { apply (parts_apart s own); [done| |done]. apply (chain_nodup _ _ (so_links _ _ (va_sound _ _ Hv)) p), (hp_chain _ _ _ _ Hh). }
  split_and!.
  - intros off v Ho. exact (pbuf_put_at_run p _ off v s Hp Hsz Hap Ho).
  - intros src n Hs Hn Hcl. exact (pbuf_take_run p _ src n s Hp Hsz Hap Hp0 Hs Ht Hn Hcl).
  - intros src n off Hs Hn Ho Hcl. exact (pbuf_take_at_run p _ src n off s Hp Hsz Hap Hs Ht Hn Ho Hcl).
Qed.

Lemma cat_content s own p l t lt :
  held_packet s own p l -> ~ linked (graph_of (heap s)) p -> held_packet s own t lt -> ~ linked (graph_of (heap s)) t -> p <> t -> 0 < own t ->
  exists s', pbuf_cat p t s = Some (tt, s') /\ chain (graph_of (heap s')) p (l ++ lt) /\ content s' (l ++ lt) = content s l ++ content s lt.
Proof.
  intros Hp Hpl Hht Htl Hne Ho. destruct (held_facts s own p l Hp) as (Hv & _ & _ & b & Hb & _), (held_facts s own t lt Hht) as (_ & _ & _ & c & Hc & _).
  destruct (pbuf_cat_valid p t l lt s own Hv) as (s' & E & _ & Hch & Hparts & _ & Hd & _).
  { split; [by rewrite (graph_lookup _ _ _ Hb)|done]. }
  { split; [by rewrite (graph_lookup _ _ _ Hc)|done]. }
  { done. }
  { done. }
  { apply Hp. }
  { apply Hht. }
  exists s'. split; [done|]. split; [done|]. unfold content. by rewrite Hparts, bytes_of_app, Hd.
Qed.

Lemma realloc_content s own b p l n :
  valid s own -> heap s !! p = Some b -> ~ linked (graph_of (heap s)) p -> chain (graph_of (heap s)) p l -> tot_len b = total (parts (heap s) l) ->
  0 <= n < total (parts (heap s) l) ->
  exists s' l', pbuf_realloc custom_free_function p n s = Some (tt, s') /\ chain (graph_of (heap s')) p l' /\ content s' l' = take (Z.to_nat n) (content s l).
Proof.
  intros Hv Hb Hpl Hc Etot Hn.
  destruct (pbuf_realloc_valid custom_free_function p b l n s own Hv Hb Hpl Hc ltac:(lia)) as (s' & l1 & z & l2 & c & -> & Hz & Hrem & E & _ & Hch & Hparts & Hd & _).
  exists s', (l1 ++ [z]). split; [done|]. split; [done|]. unfold content. rewrite Hparts, Hd. pose proof (chain_packet s own _ _ Hv Hc) as Hp.
  rewrite parts_app, (parts_cons _ _ _ _ Hz) in *. rewrite (bytes_of_cut _ _ _ _ _ _ _ _ Hp Hrem), total_parts. do 2 f_equal. lia.
Qed.

Lemma free_header_content s own b p l n :
  valid s own -> heap s !! p = Some b -> ~ linked (graph_of (heap s)) p -> chain (graph_of (heap s)) p l -> 0 <= n < 2 ^ 16 -> 0 < own p ->
  (forall x c, x ∈ l -> heap s !! x = Some c -> ref c = 1) ->
  exists r s' l', pbuf_free_header custom_free_function p n s = Some (r, s') /\ chain (graph_of (heap s')) r l' /\ content s' l' = drop (Z.to_nat n) (content s l).
Proof.
  intros Hv Hb Hpl Hc Hn Ho Hex. pose proof (chain_size _ _ (so_links _ _ (va_sound _ _ Hv)) _ _ Hc) as Hsz. rewrite graph_size in Hsz.
  destruct (free_header_loop_valid custom_free_function l (S (size (heap s))) p n s own Hv Hc) as (r & s' & l' & E & _ & Hc' & Hparts & Hd); try done; [by left|lia|].
  exists r, s', l'. split; [exact E|]. split; [done|]. unfold content. rewrite Hparts, Hd. apply (bytes_of_drop _ _ (heap s) p); [|lia].
  by apply (chain_packet s own).
Qed.

(** C29 The functions that change the shape of a packet do to its data what their
    names say: [pbuf_cat] puts two packets one behind the other, [pbuf_realloc] keeps
    the first bytes, [pbuf_remove_header] and [pbuf_free_header] drop them,
    [pbuf_add_header] puts the bytes before the packet in front of it, and
    [pbuf_dechain] keeps the first pbuf. *)
Theorem pbuf_edit_correct s own p l b : held_packet s own p l -> ~ linked (graph_of (heap s)) p -> heap s !! p = Some b ->
  let B := content s l in
  (forall t lt, held_packet s own t lt -> ~ linked (graph_of (heap s)) t -> p <> t -> 0 < own t ->
    exists s', pbuf_cat p t s = Some (tt, s') /\ chain (graph_of (heap s')) p (l ++ lt) /\ content s' (l ++ lt) = B ++ content s lt) /\
  (forall n, 0 <= n < Z.of_nat (length B) -> exists s' l', pbuf_realloc custom_free_function p n s = Some (tt, s') /\
    chain (graph_of (heap s')) p l' /\ content s' l' = take (Z.to_nat n) B) /\
  (forall n, 0 < n <= 0xffff -> if n <=? len b then
    exists s', pbuf_remove_header p n s = Some (0, s') /\ chain (graph_of (heap s')) p l /\ content s' l = drop (Z.to_nat n) B
    else pbuf_remove_header p n s = Some (1, s)) /\
  (forall n, 0 < n -> n + Z.of_nat (length B) < 2 ^ 16 -> contiguous b -> if p + 24 <=? payload b - n then
    exists s', pbuf_add_header p n s = Some (0, s') /\ chain (graph_of (heap s')) p l /\ content s' l = load (data s) (payload b - n) (Z.to_nat n) ++ B
    else pbuf_add_header p n s = Some (1, s)) /\
  (forall n, 0 <= n < 2 ^ 16 -> 0 < own p -> (forall x c, x ∈ l -> heap s !! x = Some c -> ref c = 1) ->
    exists r s' l', pbuf_free_header custom_free_function p n s = Some (r, s') /\ chain (graph_of (heap s')) r l' /\ content s' l' = drop (Z.to_nat n) B) /\
  (exists r s', pbuf_dechain custom_free_function p s = Some (r, s') /\ chain (graph_of (heap s')) p [p] /\ content s' [p] = take (Z.to_nat (len b)) B).
Proof.
  intros Hh Hnl Hb B. destruct (held_facts s own p l Hh) as (Hv & Hp & Hsz & b' & Hb' & Etot). rewrite Hb in Hb'. injection Hb' as <-.
  pose proof (hp_some _ _ _ _ Hh) as Hp0. pose proof (hp_chain _ _ _ _ Hh) as Hc. pose proof (hp_total _ _ _ _ Hh) as Ht.
  pose proof (so_links _ _ (va_sound _ _ Hv)) as Hl. destruct (packet_total _ _ _ (data s) Hp) as [Ht0 El].
  assert (Z.of_nat (length B) = total (parts (heap s) l)) as EB by (unfold B, content; rewrite El; lia). rewrite !EB.
  assert (exists l0, l = p :: l0 /\ p ∉ l0 /\ chain (graph_of (heap s)) (next b) l0) as (l0 & -> & Hpl0 & Hc0).
  { pose proof (chain_nodup _ _ Hl _ _ Hc) as Hnd. destruct l as [|a l0]; [by cbn in Hc|]. destruct Hc as (<- & _ & q & k & Hg & Hc).
    rewrite (graph_lookup _ _ _ Hb) in Hg. injection Hg as <- <-. exists l0. by apply NoDup_cons in Hnd as [? _]. }
  assert (B = load (data s) (payload b) (Z.to_nat (len b)) ++ content s l0) as EBc by (unfold B, content; by rewrite (parts_cons _ _ _ _ Hb)).
  assert (forall b', shape b' = shape b -> let s' := put_heap (<[p := b']> (heap s)) s in chain (graph_of (heap s')) p (p :: l0) /\
    content s' (p :: l0) = load (data s) (payload b') (Z.to_nat (len b')) ++ content s l0) as Hfirst.
  { intros b' Hsh s'. split; [cbn [s' put_heap heap]; by rewrite (graph_same _ _ b)|]. unfold content. cbn [s' put_heap heap data].
    rewrite (parts_cons _ _ _ b') by apply lookup_insert_eq. rewrite bytes_of_cons. do 2 f_equal. apply parts_ext. intros x Hx.
    rewrite lookup_insert_ne; [done|congruence]. }
  destruct (so_placed _ _ (va_sound _ _ Hv) p b Hb) as [_ Hlen _ _].
  assert (total (parts (heap s) (p :: l0)) = len b + total (parts (heap s) l0)) as Etl by (by rewrite (parts_cons _ _ _ _ Hb)).
  split_and!.
  - intros t lt Hht Htl Hne Ho. by apply (cat_content s own).
  - intros n Hn. apply (realloc_content _ own b); done || lia.
  - intros n Hn. destruct (pbuf_remove_header_valid p n b s own Hv Hb Hnl Hn) as [E _]. destruct (Z.leb_spec n (len b)) as [Hle|]; [|done].
    eexists. split; [exact E|]. destruct (Hfirst (moved n b) eq_refl) as [H1 H2]. split; [done|]. rewrite H2, EBc, drop_app_le, load_drop by (rewrite ?length_load; lia).
    cbn [moved set_tot_len set_len set_payload payload len]. rewrite wrap_small by lia. do 2 f_equal; lia.
  - intros n Hn Hfit Hct. destruct (pbuf_add_header_valid p n 0 b s own Hv Hb Hnl ltac:(lia)) as [E _]. rewrite Etot in E.
    rewrite (proj2 (Z.ltb_lt _ _)), decide_True in E by (done || lia). cbn [andb] in E. destruct (Z.leb_spec (p + 24) (payload b - n)) as [Hle|]; [|done].
    eexists. split; [exact E|]. destruct (Hfirst (moved (- n) b) eq_refl) as [H1 H2]. split; [done|]. rewrite H2, EBc.
    cbn [moved set_tot_len set_len set_payload payload len]. rewrite wrap_small by (destruct (packet_total _ _ _ (data s) (chain_packet s own _ _ Hv Hc0)); lia).
    rewrite app_assoc. f_equal. replace (Z.to_nat (len b - - n)) with (Z.to_nat n + Z.to_nat (len b))%nat by lia. rewrite load_app. f_equal; f_equal; lia.
  - intros n Hn Ho Hex. apply (free_header_content _ own b); done.
  - destruct (pbuf_dechain_valid custom_free_function p b l0 s own Hv Hb Hnl Hc0) as (s' & n & E & Hv' & _ & Hp' & _ & Ed & _).
    eexists _, s'. split; [exact E|]. split.
    + split; [done|]. split; [done|]. exists 0, (ref b). split; [|done]. by rewrite (graph_lookup _ _ _ Hp').
    + unfold content. rewrite (parts_cons _ _ _ _ Hp'), bytes_of_cons, Ed. cbn [parts bufs omap list_omap fmap list_fmap bytes_of mbind list_bind].
      rewrite app_nil_r, EBc, take_app_length' by (by rewrite length_load). done.
Qed.

(** [pbuf_coalesce] returns a packet with the same data: one pbuf, or the old
    packet when there is no memory. [pbuf_clone] makes a copy in one pbuf and leaves the
    old packet alone. No part of the packet but the last may be the end of its data. *)
Theorem pbuf_coalesce_correct s own p l layer : held_packet s own p l -> own_data s l -> proper (parts (heap s) l) ->
  (exists r s', pbuf_clone custom_free_function layer PBUF_RAM p s = Some (r, s') /\ valid s' (granted r own) /\ content s' l = content s l /\
    (r = 0 \/ heap s !! r = None /\ chain (graph_of (heap s')) r [r] /\ content s' [r] = content s l)) /\
  (0 < own p -> exists r s' l', pbuf_coalesce custom_free_function p layer s = Some (r, s') /\ valid s' (granted r (own_add p (-1) own)) /\
    chain (graph_of (heap s')) r l' /\ (r = p \/ l' = [r]) /\ content s' l' = content s l).
Proof.
  intros Hh Hown Hpr. destruct (held_facts s own p l Hh) as (Hv & Hp & Hsz & b & Hb & Etot). destruct Hh as [_ Hc Hp0 Ht]. split.
  - destruct (pbuf_clone_valid custom_free_function layer p b l s own Hv Hb Hc Hown Hpr Ht) as (r & s' & E & Hv' & Ebytes & Hres).
    exists r, s'. split; [done|]. split; [done|]. destruct Hres as [(-> & Eh)|(Hr & Hf & c & Eh & Hcn & Ec)].
    { split; [|by left]. unfold content. by rewrite Eh. }
    assert (forall x, x ∈ l -> x <> r) as Hne.
    { intros x Hx ->. destruct (chain_elem _ _ _ _ Hc Hx) as [_ [[q k] Hq]]. destruct (graph_lookup_inv _ _ _ _ Hq) as (d & Hd & _). congruence. }
    split.
    + unfold content. rewrite <- Ebytes. f_equal. apply parts_ext. intros x Hx. rewrite Eh, lookup_insert_ne; [done|]. specialize (Hne x Hx). congruence.
    + right. split; [done|]. split.
      * split; [done|]. split; [done|]. exists 0, (ref c). split; [|done]. rewrite Eh, graph_insert, lookup_insert_eq. by rewrite Hcn.
      * unfold content. rewrite (parts_cons _ _ _ c) by (rewrite Eh; apply lookup_insert_eq). rewrite bytes_of_cons. cbn [parts bufs omap list_omap fmap list_fmap bytes_of mbind list_bind].
        by rewrite app_nil_r.
  - intros Ho. by apply (pbuf_coalesce_valid custom_free_function layer p b l s own).
Qed.

(** * Packets that are passed on *)

(** All pbufs carry data, and carry it themselves. *)
Definition filled (s : lwip H) (l : list Z) : Prop := forall y c, y ∈ l -> heap s !! y = Some c -> contiguous c /\ 0 < len c.

(** A packet that the caller owns, with nothing in front of it. *)
Record owned (s : lwip H) (own : owners) (p : Z) (l : list Z) (b : struct_pbuf) : Prop := {
  ow_valid : valid s own;
  ow_chain : chain (graph_of (heap s)) p l;
  ow_total : total (parts (heap s) l) < 2 ^ 16;
  ow_head : ~ linked (graph_of (heap s)) p;
  ow_own : 0 < own p;
  ow_first : heap s !! p = Some b;
}.

Lemma owned_facts s own p l b : owned s own p l b ->
  p <> 0 /\ 0 <= len b <= tot_len b /\ tot_len b = Z.of_nat (length (content s l)) /\ tot_len b < 2 ^ 16 /\
  load (data s) (payload b) (Z.to_nat (len b)) = take (Z.to_nat (len b)) (content s l).
Proof.
  intros [Hv Hc Ht _ Ho Hb]. pose proof (pbuf_not_null _ _ _ _ (va_sound _ _ Hv) Hb) as Hp0.
  destruct (packet_facts s own p l Hv Hc Hp0 Ht) as (Hp & _ & b' & Hb' & Et). rewrite Hb in Hb'. injection Hb' as <-.
  destruct l as [|p' l]; [by cbn in Hc|]. assert (p' = p) as -> by (by destruct Hc as (-> & _)).
  destruct (packet_total _ _ _ (data s) Hp) as [Ht0 El]. unfold content. rewrite El, Et. rewrite (parts_cons _ _ _ _ Hb) in *.
  destruct (packet_head _ _ _ _ _ (data s) Hp Ht) as (_ & Hk & Ht1 & _). cbn [total foldr] in *. fold (total (parts (heap s) l)) in *.
  rewrite bytes_of_cons, take_app_length' by (by rewrite length_load). split_and!; done || lia.
Qed.

(** An owner keeps the front of what it owns. *)
Lemma still_head s s' own p b b' :
  valid s own -> valid s' own -> ~ linked (graph_of (heap s)) p -> heap s !! p = Some b -> heap s' !! p = Some b' -> ref b' = ref b ->
  ~ linked (graph_of (heap s')) p.
Proof.
  intros Hv Hv' Hn Hb Hb' E Hl.
  destruct (lk_ref _ _ (so_links _ _ (va_sound _ _ Hv)) p _ _ (graph_lookup _ _ _ Hb)) as [_ [[? _]|[_ E1]]]; [done|].
  destruct (lk_ref _ _ (so_links _ _ (va_sound _ _ Hv')) p _ _ (graph_lookup _ _ _ Hb')) as [_ [[_ E2]|[? _]]]; [|done]. lia.
Qed.

Lemma owned_free s own p l b : owned s own p l b ->
  exists n s', pbuf_free custom_free_function p s = Some (n, s') /\ valid s' (own_add p (-1) own) /\ data s' = data s /\ confined l s s'.
Proof.
  intros [Hv Hc _ _ Ho Hb]. pose proof (pbuf_not_null _ _ _ _ (va_sound _ _ Hv) Hb) as Hp0.
  destruct (pbuf_free_valid custom_free_function p l s own Hv Hc Hp0 Ho) as (s' & n & E & _ & _ & Hd & Hv'). exists (u8 n), s'.
  split; [done|]. split; [done|]. split; [done|]. by apply (pbuf_free_confined custom_free_function p l s own _ s' (va_sound _ _ Hv) Hc E).
Qed.

Lemma owned_realloc s own p l b n : owned s own p l b -> 0 <= n < tot_len b ->
  exists s' l' b', pbuf_realloc custom_free_function p n s = Some (tt, s') /\ owned s' own p l' b' /\ data s' = data s /\
    content s' l' = take (Z.to_nat n) (content s l) /\ payload b' = payload b /\ len b' = Z.min (len b) n /\ (filled s l -> 0 < n -> filled s' l') /\
    confined l s s' /\ (forall x, x ∈ l' -> x ∈ l).
Proof.
  intros Ho Hn. destruct (owned_facts s own p l b Ho) as (Hp0 & _ & Et & Ht16 & _). destruct Ho as [Hv Hc Ht Hh Ho Hb].
  destruct (pbuf_realloc_valid custom_free_function p b l n s own Hv Hb Hh Hc Hn) as (s' & l1 & z & l2 & c & -> & Hz & Hrem & E & Hv' & Hch & Hparts & Hd & Href & Hkeep & Hcf).
  apply fmap_Some in Href as (b' & Hb' & Eref). exists s', (l1 ++ [z]), b'. split; [done|]. pose proof (chain_packet s own _ _ Hv Hc) as Hp.
  assert (content s' (l1 ++ [z]) = take (Z.to_nat n) (content s (l1 ++ z :: l2))) as Ec.
  { unfold content. rewrite Hparts, Hd. rewrite parts_app, (parts_cons _ _ _ _ Hz) in *. rewrite (bytes_of_cut _ _ _ _ _ _ _ _ Hp Hrem), total_parts. do 2 f_equal. lia. }
  assert (filled s (l1 ++ z :: l2) -> 0 < n -> filled s' (l1 ++ [z])) as Hfill.
  { intros Hf Hn0 x d Hx Hd'. destruct (Hkeep x d Hx Hd') as (d0 & Hd0 & Ety & Hpos). destruct (Hf x d0) as [Hct Hl0]; [|done|unfold contiguous in *; rewrite Ety; auto].
    apply elem_of_app in Hx as [?| ->%list_elem_of_singleton]; apply elem_of_app; [by left|right; by left]. }
  assert (forall x, x ∈ l1 ++ [z] -> x ∈ l1 ++ z :: l2) as Hsub.
  { intros x [?| ->%list_elem_of_singleton]%elem_of_app; apply elem_of_app; [by left|right; by left]. }
  split; [|split; [done|split; [done|]]].
  - split; try done; [|by apply (still_head s s' own p b b')]. rewrite Hparts. rewrite parts_app, (parts_cons _ _ _ _ Hz) in Hp, Ht.
    rewrite total_app in *. cbn [total foldr] in *. fold (total (parts (heap s) l2)) in Ht. destruct (packet_app _ _ _ _ Hp) as (q & Hp2 & _).
    destruct (packet_total _ _ _ (data s) Hp2) as [Hpos _]. cbn [total foldr] in Hpos. fold (total (parts (heap s) l2)) in Hpos.
    rewrite total_parts in *. rewrite total_parts in Ht. lia.
  - destruct l1 as [|a l1].
    + destruct Hc as (<- & _). rewrite Hb in Hz. injection Hz as <-. cbn [app] in *. rewrite (parts_cons _ _ _ _ Hb') in Hparts. cbn in Hparts, Hrem.
      injection Hparts as -> ->. split; [done|]. split; [lia|done].
    + destruct Hc as (<- & _). cbn [app] in *. rewrite (parts_cons _ _ _ _ Hb'), (parts_cons _ _ _ _ Hb) in Hparts. injection Hparts as -> -> _.
      split; [done|]. split; [|done]. unfold bufs in Hrem. cbn [omap list_omap] in Hrem. rewrite Hb in Hrem. cbn in Hrem.
      pose proof (sum_len_pos (heap s) l1 (sound_steady _ _ (va_sound _ _ Hv))) as Hpos. unfold bufs in Hpos. unfold sum_len in *. lia.
Qed.

Lemma owned_remove_header s own p l b n : owned s own p l b -> 0 < n <= len b ->
  exists s' b', pbuf_remove_header p n s = Some (0, s') /\ owned s' own p l b' /\ data s' = data s /\
    content s' l = drop (Z.to_nat n) (content s l) /\ payload b' = payload b + n /\ len b' = len b - n /\ type_internal b' = type_internal b /\
    (forall x, x <> p -> heap s' !! x = heap s !! x) /\ outside s' = outside s.
Proof.
  intros Ho Hn. destruct (owned_facts s own p l b Ho) as (Hp0 & Hlen & Et & Ht16 & _). destruct Ho as [Hv Hc Ht Hh Ho Hb].
  destruct (pbuf_remove_header_valid p n b s own Hv Hb Hh ltac:(lia)) as [E Hv']. rewrite (proj2 (Z.leb_le _ _)) in E by lia. specialize (Hv' ltac:(lia)).
  pose proof (chain_nodup _ _ (so_links _ _ (va_sound _ _ Hv)) _ _ Hc) as Hnd. eexists _, (moved n b). split; [exact E|].
  destruct l as [|a l]; [by cbn in Hc|]. assert (a = p) as -> by (by destruct Hc as (-> & _)). apply NoDup_cons in Hnd as [Hpl _].
  assert (parts (<[p := moved n b]> (heap s)) (p :: l) = (payload b + n, len b - n) :: parts (heap s) l) as Eparts.
  { rewrite (parts_cons _ _ _ (moved n b)) by apply lookup_insert_eq. cbn [moved set_tot_len set_len set_payload payload len]. rewrite wrap_small by lia. f_equal.
    apply parts_ext. intros x Hx. rewrite lookup_insert_ne; [done|congruence]. }
  split; [split; cbn [put_heap heap]; rewrite ?(graph_same _ _ b) by done; try done|].
  - rewrite Eparts. rewrite (parts_cons _ _ _ _ Hb) in Ht. cbn [total foldr] in *. lia.
  - apply lookup_insert_eq.
  - split; [done|]. split; [|cbn [moved set_tot_len set_len set_payload payload len]; rewrite wrap_small by lia; split_and!; try done; intros x Hx; cbn [put_heap heap]; by rewrite lookup_insert_ne].
    unfold content. cbn [put_heap heap data]. rewrite Eparts, (parts_cons _ _ _ _ Hb), !bytes_of_cons, drop_app_le, load_drop by (rewrite ?length_load; lia).
    do 2 f_equal; lia.
Qed.

Lemma owned_add_header s own p l b n : owned s own p l b -> 0 < n <= 0xffff ->
  if (n + tot_len b <? 2 ^ 16) && bool_decide (contiguous b) && (p + 24 <=? payload b - n) then
    exists s' b', pbuf_add_header p n s = Some (0, s') /\ owned s' own p l b' /\ data s' = data s /\
      content s' l = load (data s) (payload b - n) (Z.to_nat n) ++ content s l /\ payload b' = payload b - n /\ len b' = len b + n /\ contiguous b' /\
      parts (heap s') l = (payload b - n, len b + n) :: drop 1 (parts (heap s) l)
  else pbuf_add_header p n s = Some (1, s).
Proof.
  intros Ho Hn. destruct (owned_facts s own p l b Ho) as (Hp0 & Hlen & Et & Ht16 & _). destruct Ho as [Hv Hc Ht Hh Ho Hb].
  destruct (pbuf_add_header_valid p n 0 b s own Hv Hb Hh ltac:(lia)) as [E Hv']. cbn [Z.eqb negb] in E, Hv'. unfold pbuf_add_header.
  destruct (Z.ltb_spec (n + tot_len b) (2 ^ 16)) as [Hlt|]; cbn [andb] in *; [|done]. destruct (decide (contiguous b)) as [Hct|Hct]; [rewrite (bool_decide_eq_true_2 _ Hct)|rewrite (bool_decide_eq_false_2 _ Hct)]; cbn [andb] in *; [|done].
  destruct (p + 24 <=? payload b - n); [|done]. specialize (Hv' eq_refl).
  pose proof (chain_nodup _ _ (so_links _ _ (va_sound _ _ Hv)) _ _ Hc) as Hnd. eexists _, (moved (- n) b). split; [exact E|].
  destruct l as [|a l]; [by cbn in Hc|]. assert (a = p) as -> by (by destruct Hc as (-> & _)). apply NoDup_cons in Hnd as [Hpl _].
  rewrite (parts_cons _ _ _ _ Hb) in Ht |- *. cbn [total foldr drop] in *. fold (total (parts (heap s) l)) in Ht.
  assert (parts (<[p := moved (- n) b]> (heap s)) (p :: l) = (payload b - n, len b + n) :: parts (heap s) l) as Eparts.
  { rewrite (parts_cons _ _ _ (moved (- n) b)) by apply lookup_insert_eq. cbn [moved set_tot_len set_len set_payload payload len]. rewrite wrap_small by lia.
    f_equal; [f_equal; lia|]. apply parts_ext. intros x Hx. rewrite lookup_insert_ne; [done|congruence]. }
  unfold content in *. rewrite (parts_cons _ _ _ _ Hb) in Et |- *. rewrite bytes_of_cons in *. rewrite length_app, length_load in Et.
  assert (total (parts (heap s) l) = Z.of_nat (length (bytes_of (data s) (parts (heap s) l)))) as Etl.
  { pose proof (chain_packet s own _ _ Hv Hc) as Hp. rewrite (parts_cons _ _ _ _ Hb) in Hp. destruct Hp as (_ & ? & _ & _ & _ & _ & _ & Hp).
    destruct (packet_total _ _ _ (data s) Hp) as [? ->]. lia. }
  split; [split; cbn [put_heap heap]; rewrite ?(graph_same _ _ b) by done; try done|].
  - rewrite Eparts. cbn [total foldr]. fold (total (parts (heap s) l)). lia.
  - apply lookup_insert_eq.
  - cbn [put_heap heap data]. rewrite Eparts. split; [done|]. split; [|cbn [moved set_tot_len set_len set_payload payload len]; rewrite wrap_small by lia; split_and!; [lia|lia|exact Hct|done]].
    rewrite bytes_of_cons, app_assoc. f_equal. replace (Z.to_nat (len b + n)) with (Z.to_nat n + Z.to_nat (len b))%nat by lia. rewrite load_app. f_equal; f_equal; lia.
Qed.

(** Bytes are written where the packet begins. *)
Lemma owned_write s own p l b hdr m' : owned s own p l b -> Z.of_nat (length hdr) <= len b ->
  load m' (payload b) (length hdr) = hdr -> (forall x, x < payload b \/ payload b + Z.of_nat (length hdr) <= x -> m' x = data s x) ->
  clear_of (payload b) (Z.of_nat (length hdr)) (drop 1 (parts (heap s) l)) ->
  owned (put_data m' s) own p l b /\ content (put_data m' s) l = hdr ++ drop (length hdr) (content s l).
Proof.
  intros Ho Hlen Hld Hout Hcl. destruct (owned_facts s own p l b Ho) as (Hp0 & Hle & Et & _ & _). pose proof Ho as [Hv Hc Ht Hh Hw Hb].
  split; [split; try done; by apply (valid_state s)|]. unfold content. cbn [put_data data heap].
  destruct l as [|a l]; [by cbn in Hc|]. assert (a = p) as -> by (by destruct Hc as (-> & _)). rewrite (parts_cons _ _ _ _ Hb) in *. cbn [drop] in Hcl. rewrite !bytes_of_cons.
  assert (bytes_of m' (parts (heap s) l) = bytes_of (data s) (parts (heap s) l)) as ->.
  { apply bytes_of_ext. intros x a k Hin Hx. apply Hout. pose proof (proj1 (Forall_forall _ _) Hcl (a, k) Hin) as Hd. cbn in Hd. unfold disjoint in Hd. lia. }
  rewrite drop_app_le, load_drop by (rewrite ?length_load; lia). rewrite app_assoc. f_equal.
  replace (Z.to_nat (len b)) with (length hdr + (Z.to_nat (len b) - length hdr))%nat at 1 by lia. rewrite load_app, Hld. f_equal.
  apply load_ext. intros x Hx. apply Hout. lia.
Qed.
End Content.

(** * Examples *)

Definition some_memory : lwip arena := Lwip ∅ u8 [] (StatsMem 0 0 0) (StatsMem 0 0 0) (StatsMem 0 0 0) 0.

(** Three pbufs of 2, 3 and 0 bytes in a chain. *)
Definition three_parts : list call :=
  [Alloc PBUF_RAW 2 PBUF_RAM; Alloc PBUF_RAW 3 PBUF_RAM; Alloc PBUF_RAW 0 PBUF_RAM; Cat 65544 65578; Cat 65544 65613].

Definition part (next payload tot_len len : Z) : struct_pbuf := StructPbuf next payload tot_len len 128 0 1 0.

Lemma three_parts_trace : exists s own,
  trace (fun _ => stuck) three_parts some_memory (fun _ => 0) = Some (s, own) /\ own 65544 = 1 /\ data s 65568 = 32 /\
  heap s !! 65544 = Some (part 65578 65568 5 2) /\ heap s !! 65578 = Some (part 65613 65602 3 3) /\ heap s !! 65613 = Some (part 0 65637 0 0).
Proof.
  assert (match trace (fun _ => stuck) three_parts some_memory (fun _ => 0) with
    | Some (s, own) => Some (own 65544, data s 65568, heap s !! 65544, heap s !! 65578, heap s !! 65613) | None => None end =
    Some (1, 32, Some (part 65578 65568 5 2), Some (part 65613 65602 3 3), Some (part 0 65637 0 0))) as E by (vm_compute; reflexivity).
  destruct (trace (fun _ => stuck) three_parts some_memory (fun _ => 0)) as [[s own]|]; [|discriminate E]. exists s, own. injection E as H1 H2 H3 H4 H5.
  split; [reflexivity|]. split; [exact H1|]. split; [exact H2|]. split; [exact H3|]. split; [exact H4|exact H5].
Qed.

Lemma three_parts_packet s own : trace (fun _ => stuck) three_parts some_memory (fun _ => 0) = Some (s, own) ->
  heap s !! 65544 = Some (part 65578 65568 5 2) -> heap s !! 65578 = Some (part 65613 65602 3 3) -> heap s !! 65613 = Some (part 0 65637 0 0) ->
  held_packet (fun _ => stuck) s own 65544 [65544; 65578; 65613] /\ own_data s [65544; 65578; 65613] /\
  parts (heap s) [65544; 65578; 65613] = [(65568, 2); (65602, 3); (65637, 0)].
Proof.
  intros E H1 H2 H3. assert (parts (heap s) [65544; 65578; 65613] = [(65568, 2); (65602, 3); (65637, 0)]) as Ep.
  { rewrite (parts_cons _ _ _ _ H1), (parts_cons _ _ _ _ H2), (parts_cons _ _ _ _ H3). reflexivity. }
  split; [split|split; [|exact Ep]].
  - apply (trace_reachable _ three_parts some_memory (fun _ => 0)); [by apply reach_start|exact E].
  - clear E. cbn [chain]. split; [done|]. split; [done|]. exists 65578, 1. split; [by rewrite (graph_lookup _ _ _ H1)|]. split; [done|]. split; [done|].
    exists 65613, 1. split; [by rewrite (graph_lookup _ _ _ H2)|]. split; [done|]. split; [done|]. exists 0, 1. by rewrite (graph_lookup _ _ _ H3).
  - discriminate.
  - rewrite Ep. reflexivity.
  - clear E. intros y c Hy Hc. rewrite !elem_of_cons, elem_of_nil in Hy. destruct Hy as [->|[->|[->|[]]]]; simplify_eq; discriminate.
Qed.

(** When a part of a packet that is not its last one is the end of its data,
    [pbuf_copy] stops in front of it, and [pbuf_clone], which ignores the error,
    returns a packet of the right length with other data. *)
Theorem pbuf_clone_incomplete : exists s own p l r s',
  held_packet (fun _ => stuck) s own p l /\ own_data s l /\
  pbuf_clone (fun _ => stuck) PBUF_RAW PBUF_RAM p s = Some (r, s') /\ r <> 0 /\
  length (content s' [r]) = length (content s l) /\ content s' [r] <> content s l.
Proof.
  destruct three_parts_trace as (s & own & E & _ & _ & H1 & H2 & H3). destruct (three_parts_packet s own E H1 H2 H3) as (Hh & Hown & Ep).
  assert (match trace (fun _ => stuck) three_parts some_memory (fun _ => 0) with
    | Some (s, own) =>
        match pbuf_clone (fun _ => stuck) PBUF_RAW PBUF_RAM 65544 s with
        | Some (r, s') => Some (r, content s [65544; 65578; 65613], content s' [r]) | None => None end
    | None => None end = Some (65645, [32; 33; 66; 67; 68], [32; 33; 135; 136; 137])) as Er by (vm_compute; reflexivity).
  rewrite E in Er. destruct (pbuf_clone (fun _ => stuck) PBUF_RAW PBUF_RAM 65544 s) as [[r s']|] eqn:Ec; [|discriminate Er].
  injection Er as E1 E2 E3. exists s, own, 65544, [65544; 65578; 65613], r, s'. split; [exact Hh|]. split; [exact Hown|]. split; [exact Ec|].
  rewrite E2, E3. split; [rewrite E1; discriminate|]. split; [reflexivity|discriminate].
Qed.

(** Two pbufs of 2 and 3 bytes in a chain, over memory in which every byte is the low
    part of its address. *)
Definition two_parts : list call := [Alloc PBUF_RAW 2 PBUF_RAM; Alloc PBUF_RAW 3 PBUF_RAM; Cat 65544 65578].

Lemma two_parts_packet : exists s own, held_packet (fun _ => stuck) s own 65544 [65544; 65578] /\ own_data s [65544; 65578] /\
  data s = u8 /\ parts (heap s) [65544; 65578] = [(65568, 2); (65602, 3)] /\ own 65544 = 1 /\
  heap s !! 65544 = Some (part 65578 65568 5 2) /\ ~ linked (graph_of (heap s)) 65544.
Proof.
  assert (match trace (fun _ => stuck) two_parts some_memory (fun _ => 0) with
    | Some (s, own) => Some (own 65544, heap s !! 65544, heap s !! 65578, linkedb (graph_of (heap s)) 65544) | None => None end =
    Some (1, Some (part 65578 65568 5 2), Some (part 0 65602 3 3), false)) as E by (vm_compute; reflexivity).
  destruct (trace (fun _ => stuck) two_parts some_memory (fun _ => 0)) as [[s own]|] eqn:Et; [|discriminate E]. injection E as H0 H1 H2 Hl.
  assert (parts (heap s) [65544; 65578] = [(65568, 2); (65602, 3)]) as Ep.
  { rewrite (parts_cons _ _ _ _ H1), (parts_cons _ _ _ _ H2). reflexivity. }
  pose proof (trace_reachable _ two_parts some_memory (fun _ => 0) _ _ (reach_start _ some_memory eq_refl) Et) as Hr. clear Et.
  exists (put_data u8 s), own. cbn [put_data data heap]. split; [split|]; cbn [put_data data heap].
  - by apply (reach_other _ s own).
  - cbn [chain]. split; [done|]. split; [done|]. exists 65578, 1. split; [by rewrite (graph_lookup _ _ _ H1)|]. split; [done|]. split; [done|].
    exists 0, 1. by rewrite (graph_lookup _ _ _ H2).
  - done.
  - by rewrite Ep.
  - split_and!; try done.
    + intros y c Hy Hc. cbn [put_data heap] in Hc. rewrite !elem_of_cons, elem_of_nil in Hy. destruct Hy as [->|[->|[]]]; simplify_eq; discriminate.
    + intros Hlk%linkedb_spec. congruence.
Qed.

Lemma pbuf_read_correct_witness : exists s own,
  held_packet (fun _ => stuck) s own 65544 [65544; 65578] /\ content s [65544; 65578] = [32; 33; 66; 67; 68] /\
  pbuf_try_get_at 65544 3 s = Some (67, s) /\
  (exists r, pbuf_memfind 65544 65570 2 0 s = Some (r, s) /\ r = 0xffff) /\ pbuf_memcmp 65544 0 65568 3 s = Some (3, s).
Proof.
  destruct two_parts_packet as (s & own & Hh & _ & Ed & Ep & _).
  assert (content s [65544; 65578] = [32; 33; 66; 67; 68]) as EB by (unfold content; rewrite Ep, Ed; reflexivity).
  destruct (pbuf_read_correct (fun _ => stuck) s own 65544 [65544; 65578] Hh) as (_ & _ & H3 & H4 & H5 & _).
  { intros x. rewrite Ed. apply (wrap_range 8). discriminate. }
  exists s, own. split; [exact Hh|]. split; [exact EB|]. split; [|split].
  - rewrite H3 by lia. rewrite EB. reflexivity.
  - destruct (H5 65570 2 0 ltac:(lia) ltac:(lia)) as (r & E & Hr). exists r. split; [exact E|]. rewrite EB, Ed in Hr.
    destruct Hr as [[? _]|(Hr0 & [Hrl Hrf] & _)]; [done|]. exfalso. change (r + 2 <= 5) in Hrl. assert (r = 0 \/ r = 1 \/ r = 2 \/ r = 3) as Hcase by lia.
    destruct Hcase as [->|[->|[->| ->]]]; discriminate Hrf.
  - rewrite H4 by lia. rewrite EB, Ed. reflexivity.
Defined.

Lemma pbuf_write_correct_witness : exists s own m,
  held_packet (fun _ => stuck) s own 65544 [65544; 65578] /\ pbuf_take_at 65544 1000 3 1 s = Some (ERR_OK, put_data m s) /\
  content (put_data m s) [65544; 65578] = [32; 232; 233; 234; 68].
Proof.
  destruct two_parts_packet as (s & own & Hh & Hown & Ed & Ep & _).
  assert (content s [65544; 65578] = [32; 33; 66; 67; 68]) as EB by (unfold content; rewrite Ep, Ed; reflexivity).
  destruct (pbuf_write_correct (fun _ => stuck) s own 65544 [65544; 65578] Hh Hown) as (_ & _ & H3).
  assert (clear_of 1000 3 (parts (heap s) [65544; 65578])) as Hcl by (rewrite Ep; repeat constructor; unfold disjoint; lia).
  specialize (H3 1000 3 1 ltac:(lia) ltac:(lia) ltac:(lia) Hcl). rewrite EB in H3. destruct H3 as (m & E & Hm & _).
  exists s, own, m. split; [exact Hh|]. split; [exact E|]. rewrite Hm, Ed. reflexivity.
Defined.

Lemma pbuf_edit_correct_witness : exists s own s' l',
  held_packet (fun _ => stuck) s own 65544 [65544; 65578] /\ pbuf_realloc (fun _ => stuck) 65544 4 s = Some (tt, s') /\
  chain (graph_of (heap s')) 65544 l' /\ content s' l' = [32; 33; 66; 67].
Proof.
  destruct two_parts_packet as (s & own & Hh & _ & Ed & Ep & _ & Hb & Hnl).
  assert (content s [65544; 65578] = [32; 33; 66; 67; 68]) as EB by (unfold content; rewrite Ep, Ed; reflexivity).
  destruct (pbuf_edit_correct (fun _ => stuck) s own 65544 [65544; 65578] _ Hh Hnl Hb) as (_ & H2 & _). rewrite EB in H2.
  destruct (H2 4) as (s' & l' & E & Hc & Hl); [cbn; lia|]. exists s, own, s', l'. split; [exact Hh|]. split; [exact E|]. split; [exact Hc|exact Hl].
Defined.

Lemma pbuf_coalesce_correct_witness : exists s own r s' l',
  held_packet (fun _ => stuck) s own 65544 [65544; 65578] /\ pbuf_coalesce (fun _ => stuck) 65544 PBUF_RAW s = Some (r, s') /\
  chain (graph_of (heap s')) r l' /\ content s' l' = [32; 33; 66; 67; 68].
Proof.
  destruct two_parts_packet as (s & own & Hh & Hown & Ed & Ep & Ho & _).
  assert (content s [65544; 65578] = [32; 33; 66; 67; 68]) as EB by (unfold content; rewrite Ep, Ed; reflexivity).
  destruct (pbuf_coalesce_correct (fun _ => stuck) s own 65544 [65544; 65578] PBUF_RAW Hh Hown) as [_ H2].
  { rewrite Ep. repeat split; [right; cbn; lia|by left]. }
  destruct (H2 ltac:(lia)) as (r & s' & l' & E & _ & Hc & _ & Hl). exists s, own, r, s', l'.
  split; [exact Hh|]. split; [exact E|]. split; [exact Hc|]. rewrite Hl. exact EB.
Defined.
