(* ===== verification/Receive.v ===== *)
(** The way of a packet from the supervisor's mailbox into the network stack of the
    enclave: the function that lwIP calls when it waits (sys_arch.cpp), its variant of
    [get_in_buffer] (ring_buffer.cpp) and [send_pkt] (Enclave.cpp). *)

From Stdlib Require Import ZArith Lia Bool.
From stdpp Require Import base list gmap.
From S2P Require Import Prelude Smram RdRand Aead AesGcm RingBuffer Hw Network Pbuf PbufRef PbufOps PbufData PbufHistory PbufContent.

Section Receive.
Context {A : Aead} {T H : Type} {HL : HasLwip T H} {Out : Outside H} (custom_free_function : Z -> prog (lwip H) unit).
Abbreviation M := (prog T).

(** The shared region, the address of the local [rx_packet], the call that lets the
    supervisor run, and the input function of the network interface. *)
Context (uio_ram rx_packet : Z) (ocall_uio_poll : M unit) (input : Z -> M Z).

(** A function on memory. *)
Definition on_data {X} (f : mem -> option (X * mem)) : prog (lwip H) X := fun s =>
  match f (data s) with
  | Some (x, m) => Some (x, Lwip (heap s) m (outside s) (mem_stats s) (pbuf_stats s) (pool_stats s) (ooseq_pending s))
  | None => None
  end.

(** lwIP's variant of [get_in_buffer] does not ask where the message goes. *)
Definition lwip_get_in_buffer (message message_len : Z) (m : mem) : option (Z * Z * mem) :=
  match scan m (in_bitmap uio_ram) IN_SGX MAX_ENTRY 0 with
  | None => Some (-1, message_len, m)
  | Some i =>
      let ciphertext := load m (in_slot uio_ram i) pkt_bytes in
      match aead_decrypt ciphertext [] nonce key with
      | None => None
      | Some (ret, plain, found_message_len) =>
          let m := store m message plain in
          if negb (ret =? 0) then Some (-1, message_len, m) else
          let m := store m (in_bitmap uio_ram i) [IN_SMM] in
          Some (0, to_signed 32 found_message_len, m)
      end
  end.

(** The loop over the chain. *)
Fixpoint send_loop (fuel : nat) (q src : Z) : prog (lwip H) unit :=
  if q =? 0 then ret tt else
  match fuel with
  | O => stuck
  | S fuel =>
      let* b := deref q in
      let* _ := copy_data (payload b) src (len b) in
      send_loop fuel (next b) (src + len b)
  end.
Definition send_pkt (src n : Z) : M unit :=
  let* p := on_lwip (pbuf_alloc custom_free_function PBUF_RAW (u16 n) PBUF_POOL) in
  let* _ := on_lwip (let* fuel := walk_fuel in send_loop fuel p src) in
  let* _ := input p in
  ret tt.

(** A message has its length in front (struct MAC_Prot). *)
Definition sgx_arch_waiting_fn : M Z :=
  if uio_ram =? 0 then ret 1 else
  let* _ := ocall_uio_poll in
  let* r := on_lwip (on_data (lwip_get_in_buffer rx_packet 0)) in
  let '(status, _) := r in
  let* _ := when (status =? 0)
    (let* ulen := gets (fun s => load_le (data (lwip_of s)) rx_packet 4) in
     send_pkt (rx_packet + 4) ulen) in
  ret 0.
End Receive.

(** * Filling the chain *)

Section Fill.
Context {H : Type} `{OL : OutsideLaws H} (custom_free_function : Z -> prog (lwip H) unit).

(** The chain gets as many bytes as it has room for. *)
Lemma send_loop_run ps : forall fuel q src (s : lwip H),
  packet (heap s) q ps -> (length ps <= fuel)%nat -> PbufData.apart ps -> clear_of src (total ps) ps ->
  exists m', send_loop fuel q src s = Some (tt, put_data m' s) /\
    bytes_of m' ps = load (data s) src (Z.to_nat (total ps)) /\ only ps (data s) m' /\ (all_bytes (data s) -> all_bytes m').
Proof.
  induction ps as [|[a k] ps IH]; intros fuel q src s Hp Hf Hap Hcl.
  { cbn in Hp. subst q. exists (data s). rewrite put_data_id. split; [by destruct fuel|done]. }
  destruct Hp as (Hq0 & b & Hb & Ea & Ek & Hk & _ & Hp). destruct (packet_total _ _ _ (data s) Hp) as [Ht0 El].
  destruct fuel as [|fuel]; [cbn in Hf; lia|]. cbn [send_loop]. rewrite (proj2 (Z.eqb_neq _ _) Hq0), (deref_run _ _ _ _ Hb), Ek, Ea, copy_data_run.
  cbn [total foldr] in *. fold (total ps) in *. destruct Hap as [Hap1 Hap]. apply Forall_cons in Hcl as [Hd Hcl].
  set (m1 := memcpy (data s) a src (Z.to_nat k)).
  destruct (IH fuel (next b) (src + k) (put_data m1 s)) as (m' & E & Hm' & Ho & Hby); try done.
  { cbn in Hf. lia. }
  { apply (clear_of_sub src (k + total ps)); [lia..|done]. }
  cbn [put_data data] in Hm', Ho, Hby. rewrite put_data_data in E. exists m'. split; [exact E|].
  assert (bytes_of m1 ps = bytes_of (data s) ps) as Em1.
  { apply bytes_of_store. rewrite length_load. apply (clear_of_sub a k); [lia..|done]. }
  split; [|split; [|intros Hdb; apply Hby, is_byte_store; [done|by apply bytes_load]]].
  - pose proof (take_piece (data s) m' a k ps src (k + total ps) k) as Ht. rewrite (drop_ge (bytes_of (data s) ((a, k) :: ps))), app_nil_r in Ht.
    2:{ rewrite bytes_of_cons, length_app, length_load, El. lia. }
    apply Ht; try done; try lia; [destruct (Z.ltb_spec k (k + total ps)); lia|]. replace (k + total ps - k) with (total ps) by lia. fold m1.
    rewrite Hm', drop_ge, app_nil_r; [done|]. rewrite Em1, El. done.
  - apply (only_trans _ _ m1); [|apply (only_mono ps); [by right|done]].
    unfold m1, memcpy. pose proof (only_store a k ((a, k) :: ps) (data s) 0 (load (data s) src (Z.to_nat k))) as Hst.
    rewrite Z.add_0_r in Hst. apply Hst; [by left|lia|rewrite length_load; lia].
Qed.

(** The data of contiguous pbufs is in the heap of the C library. *)
Lemma parts_in_heap s own l a k : valid s own -> own_data s l -> (a, k) ∈ parts (heap s) l -> heap_start <= a /\ 0 <= k /\ a + k <= heap_end.
Proof.
  intros Hv Hown (y & c & Hy & Hc & -> & ->)%parts_elem. destruct (so_placed _ _ (va_sound _ _ Hv) y c Hc) as [(n & Hn & _ & Hin) Hlen _ _].
  specialize (Hin (Hown y c Hy Hc)). pose proof (live_range _ _ _ Hn). lia.
Qed.

(** Regions outside that heap. *)
Definition elsewhere (a n : Z) : Prop := a + n <= heap_start \/ heap_end <= a.

Lemma elsewhere_clear s own l a n : valid s own -> own_data s l -> elsewhere a n -> clear_of a n (parts (heap s) l).
Proof.
  intros Hv Hown He. apply Forall_forall. intros [b k] Hin. destruct (parts_in_heap s own l b k Hv Hown Hin). unfold elsewhere, disjoint in *. lia.
Qed.

(** [send_pkt] hands a chain with the bytes to [input], or NULL when the C library does
    not have the memory for all of it. *)
Lemma send_pkt_run {T} {HL : HasLwip T H} input src n (st : T) own : let s := lwip_of st in
  valid s own -> 0 <= n < 2 ^ 16 -> elsewhere src n ->
  exists p l s', send_pkt custom_free_function input src n st = bind (input p) (fun _ => ret tt) (set_lwip s' st) /\ valid s' (granted p own) /\
    (forall x, elsewhere x 1 -> data s' x = data s x) /\ (all_bytes (data s) -> all_bytes (data s')) /\
    if pool_supply PBUF_RAW n (outside s)
    then p <> 0 /\ new_chain (heap s) (heap s') p n PBUF_POOL_BUFSIZE_ALIGNED l /\ content s' l = load (data s) src (Z.to_nat n)
    else p = 0 /\ l = [] /\ heap s' = heap s.
Proof.
  intros s Hv Hn He. unfold send_pkt. rewrite (wrap_small 16 n) by lia.
  destruct (pbuf_alloc_pool_valid custom_free_function PBUF_RAW n s own Hv Hn) as (p & s1 & E & Hv1 & Hk & Hres). rewrite (on_lwip_bind _ _ _ _ _ E).
  rewrite (pbuf_alloc_pool_supply custom_free_function PBUF_RAW n s p s1 Hn E).
  assert (forall m', send_loop (S (size (heap s1))) p src s1 = Some (tt, put_data m' s1) ->
    (let* _ := on_lwip (let* fuel := walk_fuel in send_loop fuel p src) in let* _ := input p in ret tt) (set_lwip s1 st) =
    bind (input p) (fun _ => ret tt) (set_lwip (put_data m' s1) st)) as Hloop.
  { intros m' El. rewrite (on_lwip_bind _ _ (set_lwip s1 st) tt (put_data m' s1)), set_set; [done|]. by rewrite lwip_set. }
  assert (forall x, elsewhere x 1 -> data s1 x = data s x) as Hkeep by (intros x Hx; apply (kp_same _ _ _ Hk); unfold elsewhere in Hx; lia).
  destruct Hres as [[-> Eh]|(Hp & l & Hnc)].
  { exists 0, [], s1. split; [rewrite (Hloop (data s1)); by rewrite put_data_id|]. split; [done|]. split; [done|]. split; [apply Hk|]. done. }
  pose proof Hnc as [Hc Hnew Hrest Hsum _]. pose proof (so_links _ _ (va_sound _ _ Hv1)) as Hl.
  assert (own_data s1 l) as Hown by (intros y c Hy Hyc; destruct (Hnew y Hy) as (_ & d & Hd & _ & Hct); by simplify_eq).
  pose proof (chain_packet s1 _ p l Hv1 Hc) as Hpk. rewrite <- total_parts in Hsum.
  destruct (send_loop_run (parts (heap s1) l) (S (size (heap s1))) p src s1 Hpk) as (m' & E2 & Hm' & Ho & Hby).
  { pose proof (parts_length (heap s1) l). pose proof (chain_size _ _ Hl _ _ Hc) as Hsz. rewrite graph_size in Hsz. lia. }
  { apply (parts_apart s1 (granted p own)); [done|by eapply chain_nodup|done]. }
  { rewrite Hsum. by apply (elsewhere_clear s1 (granted p own)). }
  exists p, l, (put_data m' s1). split; [by apply Hloop|]. split; [by apply (valid_state s1)|]. cbn [put_data data heap].
  split; [|split; [intros Hd; by apply Hby, Hk|rewrite (proj2 (Z.eqb_neq _ _) Hp); split; [done|split; [done|]]]].
  - intros x Hx. rewrite <- Hkeep by done. apply Ho. intros a k Hin. destruct (parts_in_heap s1 _ l a k Hv1 Hown Hin). unfold elsewhere in Hx. lia.
  - unfold content. cbn [put_data data heap]. rewrite Hm', Hsum. apply load_ext. intros x Hx. apply Hkeep. unfold elsewhere in *. lia.
Qed.
End Fill.

(** * Reception *)

(** The length in front of a message, and the packet behind it. *)
Definition msg_ulen (msg : list Z) : Z := le_val (take 4 msg).
Definition msg_packet (msg : list Z) : list Z := take (Z.to_nat (msg_ulen msg)) (drop 4 msg).

Lemma lwip_get_at {A : Aead} uio_ram message message_len m :
  lwip_get_in_buffer uio_ram message message_len m = get_at (in_box uio_ram) message message_len m.
Proof. done. Qed.

(** What the supervisor's handler has put into the message. *)
Lemma carried_packet m rxs msg :
  all_bytes m -> carries m rxs msg -> msg_ulen msg <= MSG_SIZE - 4 ->
  msg_packet msg = load m (load_le m rxs 4 + 14) (packet_bytes m rxs).
Proof.
  intros Hm [Hlen Hc] Hu. unfold Network.payload in Hc. set (n := load_le m (rxs + rx_msg_length) 4 - 14) in *.
  pose proof (load_le_range m (rxs + rx_msg_length) 4 Hm) as Hr. change (2 ^ (8 * Z.of_nat 4)) with (2 ^ 32) in Hr.
  assert (take 4 msg = le_bytes 4 n) as E4.
  { rewrite <- (take_app_length' (le_bytes 4 n) (load m (load_le m rxs 4 + 14) (packet_bytes m rxs)) 4) by (by rewrite length_le_bytes).
    by rewrite <- Hc, take_take. }
  assert (msg_ulen msg = wrap 32 n) as Eu by (unfold msg_ulen; rewrite E4; apply (le_val_le_bytes 4)).
  assert (0 <= n) as Hn.
  { destruct (Z.lt_ge_cases n 0) as [Hneg|]; [|done]. exfalso. rewrite Eu in Hu. unfold wrap in Hu.
    rewrite <- (Z.mod_unique n (2 ^ 32) (-1) (n + 2 ^ 32)) in Hu by (unfold n in *; lia). change MSG_SIZE with 4080 in Hu. unfold n in *. lia. }
  rewrite (wrap_small 32 n) in Eu by (unfold n in *; lia). unfold msg_packet. rewrite Eu. unfold packet_bytes in *. fold n in Hc |- *.
  assert (drop 4 (take (4 + Z.to_nat n) msg) = load m (load_le m rxs 4 + 14) (Z.to_nat n)) as Ed.
  { rewrite Hc. apply drop_app_length'. by rewrite length_le_bytes. }
  rewrite <- Ed, skipn_firstn_comm. f_equal. lia.
Qed.

Section Waiting.
Context {A : Aead} {max : Z} {Laws : AeadLaws A max} {T H : Type} {HL : HasLwip T H} `{OL : OutsideLaws H}.
Context (custom_free_function : Z -> prog (lwip H) unit) (uio_ram rx_packet : Z) (ocall_uio_poll : prog T unit) (input : Z -> prog T Z).
Abbreviation wait := (sgx_arch_waiting_fn custom_free_function uio_ram rx_packet ocall_uio_poll input).

(** The shared region and the buffer are where the code has them. *)
Record places : Prop := {
  pl_max : MSG_SIZE <= max;
  pl_ram : uio_ram <> 0;
  pl_apart : disjoint rx_packet MSG_SIZE uio_ram SHM_SIZE;
  pl_buffer : elsewhere rx_packet MSG_SIZE;
  pl_shared : elsewhere uio_ram SHM_SIZE;
}.

(** The state once the supervisor has run: the heap, and the messages in the mailboxes. *)
Record polled (st1 : T) (own : owners) (mi mo : Mailbox.t) : Prop := {
  po_valid : valid (lwip_of st1) own;
  po_bytes : all_bytes (data (lwip_of st1));
  po_in : holds (in_box uio_ram) (data (lwip_of st1)) mi;
  po_out : holds (out_box uio_ram) (data (lwip_of st1)) mo;
}.

Lemma waiting_fn_empty st st1 own mi mo : places -> ocall_uio_poll st = Some (tt, st1) -> polled st1 own mi mo ->
  Mailbox.get mi = None -> wait st = Some (0, st1).
Proof.
  intros [Hmax Hu Hd Her Heu] Epoll [Hv Hm Hi Ho] Eg. unfold sgx_arch_waiting_fn. rewrite (proj2 (Z.eqb_neq _ _) Hu), (bind_some _ _ _ _ _ Epoll).
  pose proof (get_at_refines Hmax uio_ram (in_box uio_ram) (out_box uio_ram) (in_box_ok _) (out_box_ok _) (in_out_apart _) rx_packet 0 _ mi mo Hm Hi Ho Hd) as Hget.
  rewrite Eg in Hget. erewrite on_lwip_bind; [|unfold on_data; rewrite lwip_get_at, Hget; reflexivity]. cbn. unfold ret. do 2 f_equal.
  transitivity (set_lwip (lwip_of st1) st1); [|apply set_same]. f_equal. by destruct (lwip_of st1).
Qed.

(** The first message is taken, and its packet is handed over. *)
Lemma waiting_fn_run st st1 own mi mo msg mi' : places -> ocall_uio_poll st = Some (tt, st1) -> polled st1 own mi mo ->
  Mailbox.get mi = Some (msg, mi') -> msg_ulen msg <= MSG_SIZE - 4 ->
  exists p l s', wait st = bind (input p) (fun _ => ret 0) (set_lwip s' st1) /\ polled (set_lwip s' st1) (granted p own) mi' mo /\
    if pool_supply PBUF_RAW (msg_ulen msg) (outside (lwip_of st1))
    then p <> 0 /\ new_chain (heap (lwip_of st1)) (heap s') p (msg_ulen msg) PBUF_POOL_BUFSIZE_ALIGNED l /\ content s' l = msg_packet msg
    else p = 0.
Proof.
  intros [Hmax Hu Hd Her Heu] Epoll [Hv Hm Hi Ho] Eg Hul. unfold sgx_arch_waiting_fn. rewrite (proj2 (Z.eqb_neq _ _) Hu), (bind_some _ _ _ _ _ Epoll).
  set (s1 := lwip_of st1) in *.
  pose proof (get_at_refines Hmax uio_ram (in_box uio_ram) (out_box uio_ram) (in_box_ok _) (out_box_ok _) (in_out_apart _) rx_packet 0 _ mi mo Hm Hi Ho Hd) as Hget.
  rewrite Eg in Hget. destruct Hget as (m' & Hget & Hload & Hi' & Ho' & Hm' & Hun).
  erewrite on_lwip_bind; [|unfold on_data; rewrite lwip_get_at; unfold s1 in Hget; rewrite Hget; reflexivity]. cbn [Z.eqb when]. fold s1 (put_data m' s1).
  unfold gets. rewrite bind_assoc. set (st2 := set_lwip (put_data m' s1) st1). rewrite (bind_some _ _ st2 (msg_ulen msg) st2).
  2:{ do 2 f_equal. unfold st2. rewrite lwip_set. cbn [put_data data]. unfold load_le, msg_ulen. f_equal. rewrite <- Hload. symmetry. apply load_take.
      change msg_bytes with (Z.to_nat 4080). lia. }
  assert (length msg = msg_bytes) as Elen by (rewrite <- Hload; apply length_load).
  assert (0 <= msg_ulen msg) as Hpos.
  { apply (le_val_range (take 4 msg)). apply Forall_take. rewrite <- Hload. by apply bytes_load. }
  assert (MSG_SIZE = 4080) as EM by reflexivity.
  destruct (send_pkt_run custom_free_function input (rx_packet + 4) (msg_ulen msg) st2 own) as (p & l & s' & E & Hv' & Hkeep & Hby & Hres).
  { unfold st2. rewrite lwip_set. by apply (valid_state s1). }
  { lia. }
  { unfold elsewhere in *. lia. }
  unfold st2 in Hkeep, Hby, Hres, E. rewrite lwip_set in Hkeep, Hby, Hres. rewrite set_set in E. exists p, l, s'.
  assert (forall x, uio_ram <= x < uio_ram + SHM_SIZE -> data s' x = m' x) as Hsh by (intros x Hx; rewrite Hkeep; [done|]; unfold elsewhere in *; lia).
  split; [unfold bind in E |- *; unfold st2; rewrite E; by destruct (input p _) as [[? ?]|]|].
  split; [split; rewrite lwip_set; [done|by apply Hby|by eapply holds_outside; [apply in_box_ok|exact Hsh|]|by eapply holds_outside; [apply out_box_ok|exact Hsh|]]|].
  fold s1. cbn [put_data outside] in Hres. destruct (pool_supply PBUF_RAW (msg_ulen msg) (outside s1)); [|apply Hres].
  destruct Hres as (Hp & Hnc & Hct). split; [done|]. split; [done|]. rewrite Hct. cbn [put_data data]. unfold msg_packet. replace (rx_packet + 4) with (rx_packet + Z.of_nat 4) by lia.
  apply (load_sub _ _ msg_bytes); [done|]. change msg_bytes with (Z.to_nat 4080). lia.
Qed.

(** C13 When lwIP waits, the first message in the mailbox is taken, and its packet
    is handed to the network stack in a chain of new pbufs that the stack owns: for a
    packet that the supervisor has taken from the controller, the bytes of that
    packet. The mailbox and the heap of pbufs stay in order. Only when the C library
    refuses one of the buffers that the packet takes, the stack is called with NULL; an
    empty mailbox is left alone. The length in the message has to fit in it. *)
Theorem lwip_packet_received st st1 own mi mo : places -> ocall_uio_poll st = Some (tt, st1) -> polled st1 own mi mo ->
  match Mailbox.get mi with
  | None => wait st = Some (0, st1)
  | Some (msg, mi') => msg_ulen msg <= MSG_SIZE - 4 ->
      exists p l s', wait st = bind (input p) (fun _ => ret 0) (set_lwip s' st1) /\ polled (set_lwip s' st1) (granted p own) mi' mo /\
        if pool_supply PBUF_RAW (msg_ulen msg) (outside (lwip_of st1)) then
          p <> 0 /\ new_chain (heap (lwip_of st1)) (heap s') p (msg_ulen msg) PBUF_POOL_BUFSIZE_ALIGNED l /\ content s' l = msg_packet msg /\
          forall m rxs, all_bytes m -> carries m rxs msg -> content s' l = load m (load_le m rxs 4 + 14) (packet_bytes m rxs)
        else p = 0
  end.
Proof.
  intros Hpl Epoll Hpo. destruct (Mailbox.get mi) as [[msg mi']|] eqn:Eg; [|by eapply waiting_fn_empty]. intros Hul.
  destruct (waiting_fn_run st st1 own mi mo msg mi' Hpl Epoll Hpo Eg Hul) as (p & l & s' & E & Hpo' & Hres). exists p, l, s'.
  split; [done|]. split; [done|]. destruct (pool_supply _ _ _); [|done]. destruct Hres as (Hp & Hnc & Ec). split; [done|]. split; [done|].
  split; [done|]. intros m rxs Hmb Hca. rewrite Ec. by apply carried_packet.
Qed.
End Waiting.

(** A packet that the supervisor has sent. *)
Definition demo_raw (pk : list Z) : mem := store demo_mem 0x300000 (le_bytes 4 (Z.of_nat (length pk)) ++ pk).

Lemma demo_sent pk : bytes pk -> (length pk <= 4000)%nat -> exists msg m mi,
  all_bytes m /\ holds (in_box demo_base) m mi /\ holds (out_box demo_base) m Mailbox.empty /\
  msg_ulen msg = Z.of_nat (length pk) /\ msg_packet msg = pk /\ exists mi', Mailbox.get mi = Some (msg, mi').
Proof.
  intros Hpk Hlen. set (raw := le_bytes 4 (Z.of_nat (length pk)) ++ pk). assert (length raw = (4 + length pk)%nat) as Er by (unfold raw; by rewrite length_app, length_le_bytes).
  assert (forall x, demo_base <= x < demo_base + SHM_SIZE -> demo_raw pk x = demo_mem x) as Hsh.
  { intros x Hx. apply store_out. fold raw. rewrite Er. unfold demo_base in Hx. lia. }
  destruct (put_at_refines (A := aes256gcm) (F := rdrand_fill demo_cpuid demo_drng) (FL := rdrand_fill_laws demo_cpuid demo_drng) (max := crypto_aead_aes256gcm_MESSAGEBYTES_MAX) ltac:(by vm_compute) demo_message demo_base demo_local (in_box demo_base) (out_box demo_base)
    (in_box_ok _) (out_box_ok _) (in_out_apart _) 0x300000 (Z.of_nat (length raw)) (demo_raw pk) boot_rng Mailbox.empty Mailbox.empty)
    as (msg & ret & m' & r' & _ & _ & _ & _ & Htake & Hput & Ho & Hm' & _).
  { apply is_byte_store; [exact demo_bytes|]. apply Forall_app. split; [apply bytes_le_bytes|done]. }
  { eapply holds_outside; [apply in_box_ok|exact Hsh|apply demo_empty]. }
  { eapply holds_outside; [apply out_box_ok|exact Hsh|apply demo_empty]. }
  { change MSG_SIZE with 4080. lia. }
  rewrite Nat2Z.id in Htake. assert (load (demo_raw pk) 0x300000 (length raw) = raw) as Eraw by (by apply load_store_eq). rewrite Eraw in Htake.
  change (Mailbox.put msg Mailbox.empty) with (Some (Some msg :: replicate 63 None)) in Hput. destruct Hput as [_ Hi].
  assert (take 4 msg = le_bytes 4 (Z.of_nat (length pk))) as E4.
  { replace (take 4 msg) with (take 4 (take (length raw) msg)) by (rewrite take_take; f_equal; lia). rewrite Htake. unfold raw. apply take_app_length'. by rewrite length_le_bytes. }
  assert (msg_ulen msg = Z.of_nat (length pk)) as Eu by (unfold msg_ulen; rewrite E4, le_val_le_bytes; apply (wrap_small 32); lia).
  exists msg, m', (Some msg :: replicate 63 None). split; [done|]. split; [done|]. split; [done|]. split; [done|]. split.
  - unfold msg_packet. rewrite Eu, Nat2Z.id. replace (take (length pk) (drop 4 msg)) with (drop 4 (take (length raw) msg)) by (rewrite skipn_firstn_comm; f_equal; lia).
    rewrite Htake. unfold raw. apply drop_app_length'. by rewrite length_le_bytes.
  - exists (None :: replicate 63 None). reflexivity.
Qed.

Lemma lwip_packet_received_witness : exists (s s' : lwip arena) p l,
  sgx_arch_waiting_fn (fun _ => stuck) demo_base 0x900000 (ret tt) (fun _ => ret 0) s = Some (0, s') /\
  valid s' (granted p (fun _ => 0)) /\ p <> 0 /\ content s' l = [7; 9].
Proof.
  destruct (demo_sent [7; 9]) as (msg & m & mi & Hm & Hi & Ho & Eu & Epk & mi' & Eg); [forall_list; by vm_compute|cbn; lia|].
  set (s := Lwip ∅ m [] (StatsMem 0 0 0) (StatsMem 0 0 0) (StatsMem 0 0 0) 0 : lwip arena).
  pose proof (lwip_packet_received (A := aes256gcm) (max := crypto_aead_aes256gcm_MESSAGEBYTES_MAX) (fun _ => stuck) demo_base 0x900000 (ret tt) (fun _ => ret 0) s s (fun _ => 0) mi Mailbox.empty) as Hrec.
  rewrite Eg in Hrec. destruct Hrec as (p & l & s' & E & Hpo & Hp).
  - split; [by vm_compute|discriminate|left; by vm_compute|right; by vm_compute|right; by vm_compute].
  - reflexivity.
  - split; [apply (reachable_valid (fun _ => stuck)), reach_start; reflexivity|exact Hm|exact Hi|exact Ho].
  - rewrite Eu. by vm_compute.
  - exists s, s', p, l. split; [exact E|]. split; [exact (po_valid _ _ _ _ _ Hpo)|].
    change (outside (lwip_of s)) with ([] : arena) in Hp. rewrite Eu in Hp.
    assert (pool_supply PBUF_RAW (Z.of_nat (length [7; 9])) ([] : arena) = true) as Hs by (by vm_compute). rewrite Hs in Hp.
    destruct Hp as (Hp & _ & Hc & _). split; [exact Hp|]. by rewrite Hc.
Defined.
