(* ===== verification/Ip4.v ===== *)
(** The input side of IPv4 in the lwIP stack: addresses (ip4_addr.h, ip4_addr.cpp),
    [ip4_input] (ip4.cpp) and raw connections (raw.cpp). *)

From Stdlib Require Import ZArith Lia Bool.
From stdpp Require Import base list gmap.
From S2P Require Import Prelude Hw Chksum RingBuffer Pbuf PbufRef PbufOps PbufData PbufHistory PbufContent.

(** * Addresses *)

(** Addresses are kept as they are in the packet: 32-bit little-endian numbers. *)
Definition PP_HTONS (x : Z) : Z := u16 (Z.lor (Z.shiftl (Z.land x 0x00ff) 8) (Z.shiftr (Z.land x 0xff00) 8)).
Definition PP_HTONL (x : Z) : Z :=
  Z.lor (Z.lor (Z.shiftl (Z.land x 0x000000ff) 24) (Z.shiftl (Z.land x 0x0000ff00) 8))
    (Z.lor (Z.shiftr (Z.land x 0x00ff0000) 8) (Z.shiftr (Z.land x 0xff000000) 24)).
Definition IPADDR_ANY : Z := 0.
Definition IPADDR_BROADCAST : Z := 0xffffffff.
Definition ip4_addr_isany (addr : Z) : bool := addr =? IPADDR_ANY.
Definition ip4_addr_cmp (addr1 addr2 : Z) : bool := addr1 =? addr2.
Definition ip4_addr_netcmp (addr1 addr2 mask : Z) : bool := Z.land addr1 mask =? Z.land addr2 mask.
Definition ip4_addr_isloopback (addr : Z) : bool := Z.land addr (PP_HTONL 0xff000000) =? PP_HTONL (Z.shiftl 127 24).
Definition ip4_addr_ismulticast (addr : Z) : bool := Z.land addr (PP_HTONL 0xf0000000) =? PP_HTONL 0xe0000000.

(** What is used of a network interface. *)
Record netif := Netif { ip_addr : Z; netmask : Z; gw : Z; mtu : Z; nif_flags : Z; num : Z }.
Definition NETIF_FLAG_UP : Z := 0x01.
Definition NETIF_FLAG_BROADCAST : Z := 0x02.
Definition netif_is_up (n : netif) : bool := negb (Z.land (nif_flags n) NETIF_FLAG_UP =? 0).
Definition netif_get_index (n : netif) : Z := u8 (num n + 1).

Definition ip4_addr_isbroadcast (addr : Z) (n : netif) : bool :=
  if (u32 (Z.lnot addr) =? IPADDR_ANY) || (addr =? IPADDR_ANY) then true
  else if Z.land (nif_flags n) NETIF_FLAG_BROADCAST =? 0 then false
  else if addr =? ip_addr n then false
  else ip4_addr_netcmp addr (ip_addr n) (netmask n)
    && (Z.land addr (u32 (Z.lnot (netmask n))) =? Z.land IPADDR_BROADCAST (u32 (Z.lnot (netmask n)))).

(** * The header *)

Definition IP_HLEN : Z := 20.
Definition IP_MF : Z := 0x2000.
Definition IP_OFFMASK : Z := 0x1fff.
Definition IP_PROTO_ICMP : Z := 1.
Definition IP_PROTO_TCP : Z := 6.
Definition IP_PROTO_UDP : Z := 17.
Definition IPH_V (m : mem) (hdr : Z) : Z := Z.shiftr (m hdr) 4.
Definition IPH_HL_BYTES (m : mem) (hdr : Z) : Z := u8 (Z.land (m hdr) 0x0f * 4).
Definition IPH_LEN (m : mem) (hdr : Z) : Z := load_le m (hdr + 2) 2.
Definition IPH_OFFSET (m : mem) (hdr : Z) : Z := load_le m (hdr + 6) 2.
Definition IPH_PROTO (m : mem) (hdr : Z) : Z := m (hdr + 9).
Definition IPH_SRC (m : mem) (hdr : Z) : Z := load_le m (hdr + 12) 4.
Definition IPH_DEST (m : mem) (hdr : Z) : Z := load_le m (hdr + 16) 4.

(** * The state *)

(** struct ip_globals; interfaces and headers are addresses. *)
Record ip_globals := IpGlobals {
  current_netif : Z; current_input_netif : Z; current_ip4_header : Z; current_ip_header_tot_len : Z;
  current_iphdr_src : Z; current_iphdr_dest : Z;
}.

(** The counters of lwip_stats that are used, 16 bits wide, and of MIB2, 32 bits. *)
Inductive counter :=
  | ip_xmit | ip_recv | ip_drop | ip_lenerr | ip_rterr | ip_proterr | ip_err
  | udp_xmit | udp_recv_ | udp_drop | udp_lenerr | udp_rterr | udp_proterr | udp_cachehit
  | ipinreceives | ipinhdrerrors | ipindiscards | ipinaddrerrors | ipinunknownprotos | ipindelivers
  | ipoutrequests | ipoutdiscards | ipoutnoroutes
  | udpindatagrams | udpnoports | udpinerrors | udpoutdatagrams
  | icmp_xmit | icmp_recv | icmp_drop | icmp_lenerr | icmp_proterr | icmp_err
  | icmpinmsgs | icmpinerrors | icmpindestunreachs | icmpintimeexcds | icmpinparmprobs | icmpinsrcquenchs | icmpinredirects
  | icmpinechos | icmpinechoreps | icmpintimestamps | icmpintimestampreps | icmpinaddrmasks | icmpinaddrmaskreps
  | icmpoutmsgs | icmpouterrors | icmpoutdestunreachs | icmpouttimeexcds | icmpoutechoreps.
Definition counter_bits (c : counter) : Z :=
  match c with
  | ip_xmit | ip_recv | ip_drop | ip_lenerr | ip_rterr | ip_proterr | ip_err
  | udp_xmit | udp_recv_ | udp_drop | udp_lenerr | udp_rterr | udp_proterr | udp_cachehit
  | icmp_xmit | icmp_recv | icmp_drop | icmp_lenerr | icmp_proterr | icmp_err => 16
  | _ => 32
  end.
#[export] Instance counter_eq_dec : EqDecision counter.
Proof. solve_decision. Defined.

Record raw_pcb := RawPcb {
  raw_local_ip : Z; raw_remote_ip : Z; raw_netif_idx : Z; raw_next : Z; raw_protocol : Z; raw_flags : Z; raw_recv : Z; raw_recv_arg : Z;
}.
Record udp_pcb := UdpPcb {
  local_ip : Z; remote_ip : Z; netif_idx : Z; so_options : Z; tos : Z; ttl : Z;
  udp_next : Z; udp_flags : Z; local_port : Z; remote_port : Z; recv : Z; recv_arg : Z;
}.

(** The globals of udp.cpp and the statistics of its pool. *)
Record udp_state := UdpState { udp_pcbs : Z; udp_pcb_at : Z -> udp_pcb; udp_port : Z; udp_pool : stats_mem }.

(** The identification of the next packet, and the interface of last resort. *)
Record sending_state := Sending { ip_id : Z; netif_default : Z }.

(** Interfaces and connections by address, with the lists that they are in. *)
Record net (H : Type) := Net {
  stack : lwip H; netifs : Z -> netif; netif_list : list Z; ip_data : ip_globals; stats : counter -> Z;
  raw_pcbs : Z; raw_pcb_at : Z -> raw_pcb; udp : udp_state; sending : sending_state;
}.
Global Arguments Net {H}.
Global Arguments stack {H}.
Global Arguments netifs {H}.
Global Arguments netif_list {H}.
Global Arguments ip_data {H}.
Global Arguments stats {H}.
Global Arguments raw_pcbs {H}.
Global Arguments raw_pcb_at {H}.
Global Arguments udp {H}.
Global Arguments sending {H}.

#[export] Instance net_lwip {H} : HasLwip (net H) H.
Proof.
  by refine {| lwip_of := stack;
    set_lwip l s := Net l (netifs s) (netif_list s) (ip_data s) (stats s) (raw_pcbs s) (raw_pcb_at s) (udp s) (sending s) |};
  destruct s.
Defined.

(** Changes of one part. *)
Section Parts.
Context {H : Type} (s : net H).
Definition with_ip (d : ip_globals) : net H := Net (stack s) (netifs s) (netif_list s) d (stats s) (raw_pcbs s) (raw_pcb_at s) (udp s) (sending s).
Definition with_stats (st : counter -> Z) : net H := Net (stack s) (netifs s) (netif_list s) (ip_data s) st (raw_pcbs s) (raw_pcb_at s) (udp s) (sending s).
Definition with_raw (head : Z) (at_ : Z -> raw_pcb) : net H := Net (stack s) (netifs s) (netif_list s) (ip_data s) (stats s) head at_ (udp s) (sending s).
Definition with_udp (u : udp_state) : net H := Net (stack s) (netifs s) (netif_list s) (ip_data s) (stats s) (raw_pcbs s) (raw_pcb_at s) u (sending s).
Definition with_sending (o : sending_state) : net H := Net (stack s) (netifs s) (netif_list s) (ip_data s) (stats s) (raw_pcbs s) (raw_pcb_at s) (udp s) o.
End Parts.

Section Ip4.
Context {H : Type} {Out : Outside H} (custom_free_function : Z -> prog (lwip H) unit).
Abbreviation M := (prog (net H)).

Definition set_ip_data (f : ip_globals -> ip_globals) : M unit := modify (fun s => with_ip s (f (ip_data s))).
Definition set_raw (head : Z) (at_ : Z -> raw_pcb) : M unit := modify (fun s => with_raw s head at_).

Definition counted (cs : list counter) (st : counter -> Z) : counter -> Z :=
  foldl (fun st c d => if decide (d = c) then wrap (counter_bits c) (st c + 1) else st d) st cs.
Definition STATS_INC (cs : list counter) : M unit := modify (fun s => with_stats s (counted cs (stats s))).
Definition bytes_now : M mem := gets (fun s => data (stack s)).

(** * Raw connections *)

(** A call through a function pointer: the function, its argument, the connection,
    the packet and the sender. *)
Context (call_raw : Z -> Z -> Z -> Z -> Z -> M Z).

Definition RAW_FLAGS_CONNECTED : Z := 0x01.
Definition raw_input_local_match (pcb : raw_pcb) (broadcast : bool) (s : net H) : bool :=
  if negb (raw_netif_idx pcb =? NETIF_NO_INDEX)
    && negb (raw_netif_idx pcb =? netif_get_index (netifs s (current_input_netif (ip_data s)))) then false
  else if broadcast then ip4_addr_isany (raw_local_ip pcb)
  else ip4_addr_isany (raw_local_ip pcb) || ip4_addr_cmp (raw_local_ip pcb) (current_iphdr_dest (ip_data s)).

Definition raw_match (pcb : raw_pcb) (proto : Z) (broadcast : bool) (s : net H) : bool :=
  (raw_protocol pcb =? proto) && raw_input_local_match pcb broadcast s
  && ((Z.land (raw_flags pcb) RAW_FLAGS_CONNECTED =? 0) || ip4_addr_cmp (raw_remote_ip pcb) (current_iphdr_src (ip_data s))).

(** [fuel] bounds the list of connections. *)
Fixpoint raw_loop (fuel : nat) (pcb prev p proto : Z) (broadcast : bool) : M Z :=
  if pcb =? 0 then ret 0 else
  match fuel with
  | O => stuck
  | S fuel =>
      let* s := gets id in
      let r := raw_pcb_at s pcb in
      let* eaten :=
        if raw_match r proto broadcast s && negb (raw_recv r =? 0)
        then call_raw (raw_recv r) (raw_recv_arg r) pcb p (current_iphdr_src (ip_data s)) else ret 0 in
      let* s := gets id in
      if negb (eaten =? 0) then
        let* _ := when (negb (prev =? 0))
          (let r := raw_pcb_at s pcb in
           let relink a n := fun f x => if decide (x = a) then
             RawPcb (raw_local_ip (f x)) (raw_remote_ip (f x)) (raw_netif_idx (f x)) n (raw_protocol (f x)) (raw_flags (f x)) (raw_recv (f x)) (raw_recv_arg (f x))
             else f x in
           set_raw pcb (relink pcb (raw_pcbs s) (relink prev (raw_next r) (raw_pcb_at s)))) in
        ret 1
      else raw_loop fuel (raw_next (raw_pcb_at s pcb)) pcb p proto broadcast
  end.
Definition raw_input (fuel : nat) (p : Z) : M Z :=
  let* s := gets id in
  let broadcast := ip4_addr_isbroadcast (current_iphdr_dest (ip_data s)) (netifs s (current_netif (ip_data s))) in
  let* b := on_lwip (deref p) in
  let proto := IPH_PROTO (data (stack s)) (payload b) in
  raw_loop fuel (raw_pcbs s) 0 p proto broadcast.

(** * Input *)

(** Reassembly, and the protocols above. *)
Context (raw_fuel : nat) (ip4_reass : Z -> M Z) (udp_input tcp_input icmp_input : Z -> Z -> M unit) (icmp_dest_unreach : Z -> Z -> M unit).

Definition ip4_input_accept (s : net H) (n : Z) : bool :=
  netif_is_up (netifs s n) && negb (ip4_addr_isany (ip_addr (netifs s n)))
  && (ip4_addr_cmp (current_iphdr_dest (ip_data s)) (ip_addr (netifs s n))
      || ip4_addr_isbroadcast (current_iphdr_dest (ip_data s)) (netifs s n)).

(** The other interfaces in the order of the list; NULL if none accepts. *)
Fixpoint accept_loop (s : net H) (inp : Z) (l : list Z) : Z :=
  match l with
  | [] => 0
  | n :: l => if n =? inp then accept_loop s inp l else if ip4_input_accept s n then n else accept_loop s inp l
  end.

(** The interface that the packet is for. *)
Definition ip4_input_netif (s : net H) (inp : Z) : Z :=
  let dest := current_iphdr_dest (ip_data s) in
  if ip4_addr_ismulticast dest then
    if netif_is_up (netifs s inp) && negb (ip4_addr_isany (ip_addr (netifs s inp))) then inp else 0
  else if ip4_input_accept s inp then inp
  else if ip4_addr_isloopback dest then 0
  else accept_loop s inp (netif_list s).

Definition drop_packet (p : Z) (cs : list counter) : M Z :=
  let* _ := on_lwip (pbuf_free custom_free_function p) in
  let* _ := STATS_INC cs in
  ret ERR_OK.

Definition ICMP_DUR_PROTO : Z := 2.
(** The protocol that gets the packet. *)
Definition ip4_protocol (p inp netif iphdr iphdr_hlen : Z) : M unit :=
  let* m := bytes_now in
  let proto := IPH_PROTO m iphdr in
  if proto =? IP_PROTO_UDP then let* _ := STATS_INC [ipindelivers] in udp_input p inp
  else if proto =? IP_PROTO_TCP then let* _ := STATS_INC [ipindelivers] in tcp_input p inp
  else if proto =? IP_PROTO_ICMP then let* _ := STATS_INC [ipindelivers] in icmp_input p inp
  else
    let* s := gets id in
    let dest := current_iphdr_dest (ip_data s) in
    let* _ := when (negb (ip4_addr_isbroadcast dest (netifs s netif)) && negb (ip4_addr_ismulticast dest))
      (let* _ := on_lwip (pbuf_header_force p (to_signed 16 iphdr_hlen)) in
       icmp_dest_unreach p ICMP_DUR_PROTO) in
    let* _ := on_lwip (pbuf_free custom_free_function p) in
    STATS_INC [ip_proterr; ip_drop; ipinunknownprotos].

Definition ip4_deliver (p inp netif iphdr_hlen : Z) : M Z :=
  let* b := on_lwip (deref p) in
  let iphdr := payload b in
  let* m := bytes_now in
  let* _ := set_ip_data (fun d => IpGlobals netif inp iphdr (IPH_HL_BYTES m iphdr) (current_iphdr_src d) (current_iphdr_dest d)) in
  let* eaten := raw_input raw_fuel p in
  let* _ := when (eaten =? 0)
    (let* _ := on_lwip (pbuf_remove_header p iphdr_hlen) in
     ip4_protocol p inp netif iphdr iphdr_hlen) in
  let* _ := set_ip_data (fun _ => IpGlobals 0 0 0 0 IPADDR_ANY IPADDR_ANY) in
  ret ERR_OK.

(** With a sound header: is the packet for us, and is it whole? *)
Definition ip4_input_addressed (p inp iphdr iphdr_hlen : Z) : M Z :=
  let* m := bytes_now in
  let* _ := set_ip_data (fun d => IpGlobals (current_netif d) (current_input_netif d) (current_ip4_header d) (current_ip_header_tot_len d)
    (IPH_SRC m iphdr) (IPH_DEST m iphdr)) in
  let* s := gets id in
  let netif := ip4_input_netif s inp in
  let src := current_iphdr_src (ip_data s) in
  if ip4_addr_isbroadcast src (netifs s inp) || ip4_addr_ismulticast src
  then drop_packet p [ip_drop; ipinaddrerrors; ipindiscards]
  else if netif =? 0 then
    let* _ := STATS_INC [ip_drop; ipinaddrerrors; ipindiscards] in
    let* _ := on_lwip (pbuf_free custom_free_function p) in
    ret ERR_OK
  else
    let* p := if negb (Z.land (IPH_OFFSET m iphdr) (PP_HTONS (Z.lor IP_OFFMASK IP_MF)) =? 0) then ip4_reass p else ret p in
    if p =? 0 then ret ERR_OK else ip4_deliver p inp netif iphdr_hlen.

Definition ip4_input (p inp : Z) : M Z :=
  let* _ := STATS_INC [ip_recv; ipinreceives] in
  let* b := on_lwip (deref p) in
  let iphdr := payload b in
  let* m := bytes_now in
  if negb (IPH_V m iphdr =? 4) then drop_packet p [ip_err; ip_drop; ipinhdrerrors] else
  let iphdr_hlen := IPH_HL_BYTES m iphdr in
  let iphdr_len := lwip_htons (IPH_LEN m iphdr) in
  let* _ := when (iphdr_len <? tot_len b) (on_lwip (pbuf_realloc custom_free_function p iphdr_len)) in
  let* b := on_lwip (deref p) in
  if (len b <? iphdr_hlen) || (tot_len b <? iphdr_len) || (iphdr_hlen <? IP_HLEN)
  then drop_packet p [ip_lenerr; ip_drop; ipindiscards]
  else ip4_input_addressed p inp iphdr iphdr_hlen.
End Ip4.

(** * What [ip4_input] promises *)

(** Fields of a header, in the order of the machine and in that of the network. *)
Definition field (B : list Z) (o k : nat) : Z := le_val (take k (drop o B)).
Definition be16 (B : list Z) (o : nat) : Z := 256 * field B o 1 + field B (S o) 1.

Lemma field_one B o x : B !! o = Some x -> field B o 1 = x.
Proof. intros E. unfold field. rewrite (drop_S _ _ _ E). cbn [take le_val]. by rewrite Z.shiftl_0_l, Z.lor_0_r. Qed.

Lemma field_two B o : bytes B -> (S o < length B)%nat ->
  exists x y, is_byte x /\ is_byte y /\ field B o 2 = Z.lor (Z.shiftl y 8) x /\ be16 B o = 256 * x + y.
Proof.
  intros HB Ho. destruct (lookup_lt_is_Some_2 B o) as [x Hx]; [lia|]. destruct (lookup_lt_is_Some_2 B (S o)) as [y Hy]; [lia|].
  exists x, y. unfold be16. rewrite (field_one _ _ _ Hx), (field_one _ _ _ Hy).
  split; [by apply (Forall_lookup_1 _ _ _ _ HB Hx)|]. split; [by apply (Forall_lookup_1 _ _ _ _ HB Hy)|]. split; [|done].
  unfold field. rewrite (drop_S _ _ _ Hx), (drop_S _ _ _ Hy). cbn [take le_val]. rewrite Z.shiftl_0_l, Z.lor_0_r. apply Z.lor_comm.
Qed.

Lemma field_htons B o : bytes B -> (S o < length B)%nat -> lwip_htons (field B o 2) = be16 B o.
Proof.
  intros HB Ho. destruct (field_two B o HB Ho) as (x & y & Hx & Hy & -> & ->). unfold is_byte in *. rewrite lor_shiftl_add by lia. change (2 ^ 8) with 256.
  unfold lwip_htons. change (Z.lor _ _) with (SWAP_BYTES_IN_WORD (y * 256 + x)). rewrite swap_value by lia.
  rewrite (Z.add_comm (y * 256)), Z.mod_add, Z.div_add, Z.mod_small, Z.div_small by lia. apply (wrap_small 16). lia.
Qed.

(** Not the only fragment: an offset, or more to come. *)
Definition fragment (B : list Z) : bool := negb (be16 B 6 mod 2 ^ 14 =? 0).

Lemma fragment_offset B : bytes B -> (8 <= length B)%nat ->
  negb (Z.land (field B 6 2) (PP_HTONS (Z.lor IP_OFFMASK IP_MF)) =? 0) = fragment B.
Proof.
  intros HB Ho. unfold fragment. f_equal. destruct (field_two B 6 HB ltac:(lia)) as (x & y & Hx & Hy & -> & ->). unfold is_byte in *.
  change (PP_HTONS (Z.lor IP_OFFMASK IP_MF)) with (Z.lor (Z.shiftl (Z.ones 8) 8) (Z.ones 6)).
  assert (Z.land (Z.lor (Z.shiftl y 8) x) (Z.lor (Z.shiftl (Z.ones 8) 8) (Z.ones 6)) = Z.lor (Z.shiftl (Z.land y (Z.ones 8)) 8) (Z.land x (Z.ones 6))) as ->.
  { rewrite (Z.land_lor_distr_l (Z.shiftl y 8) x), !Z.land_lor_distr_r, <- Z.shiftl_land.
    assert (Z.land (Z.shiftl y 8) (Z.ones 6) = 0) as ->.
    { rewrite Z.land_ones by lia. rewrite Z.shiftl_mul_pow2 by lia. change (2 ^ 8) with (4 * 2 ^ 6). rewrite Z.mul_assoc. apply Z.mod_mul. lia. }
    assert (Z.land x (Z.shiftl (Z.ones 8) 8) = 0) as ->; [|by rewrite Z.lor_0_r, Z.lor_0_l].
    rewrite <- (Z.mod_small x (2 ^ 8)) by lia. rewrite <- Z.land_ones, <- Z.land_assoc by lia. apply Z.land_0_r. }
  rewrite !Z.land_ones, lor_shiftl_add by (try apply Z.mod_pos_bound; lia || (pose proof (Z.mod_pos_bound x (2 ^ 6)); lia)).
  rewrite (Z.mod_small y) by lia. change (2 ^ 14) with 16384. change (2 ^ 8) with 256. change (2 ^ 6) with 64.
  pose proof (Z.div_mod x 64). pose proof (Z.mod_pos_bound x 64). set (r := x mod 64) in *. set (q := x / 64) in *.
  replace ((256 * x + y) mod 16384) with (256 * r + y); [destruct (Z.eqb_spec (y * 256 + r) 0), (Z.eqb_spec (256 * r + y) 0); done || lia|].
  symmetry. rewrite Z.mod_eq by lia. assert ((256 * x + y) / 16384 = q) as ->; [|lia]. symmetry. apply (Z.div_unique _ _ _ (256 * r + y)); lia.
Qed.

(** The lists of connections. *)
Fixpoint pcb_list (next : Z -> Z) (p : Z) (l : list Z) : Prop :=
  match l with
  | [] => p = 0
  | x :: l => p = x /\ x <> 0 /\ pcb_list next (next x) l
  end.

Section Verdict.
Context {H : Type}.

Inductive verdict :=
  | Drop
  | Reassemble (hl n netif : Z)
  | Deliver (hl n netif proto : Z).

(** The state with the addresses of the packet. *)
Definition addressed (s : net H) (B : list Z) : net H :=
  with_ip s (IpGlobals (current_netif (ip_data s)) (current_input_netif (ip_data s)) (current_ip4_header (ip_data s)) (current_ip_header_tot_len (ip_data s))
    (field B 12 4) (field B 16 4)).

(** The header is there, in the first pbuf, of which [first] bytes are there. *)
Definition ip4_header_ok (first : Z) (B : list Z) : bool :=
  let hl := 4 * (field B 0 1 mod 16) in
  let n := be16 B 2 in
  (IP_HLEN <=? first) && (field B 0 1 / 16 =? 4) && (IP_HLEN <=? hl) && (hl <=? first) && (hl <=? n) && (n <=? Z.of_nat (length B)).

(** What becomes of a packet with the bytes [B]. *)
Definition ip4_verdict (s : net H) (inp first : Z) (B : list Z) : verdict :=
  let src := field B 12 4 in
  let netif := ip4_input_netif (addressed s B) inp in
  if negb (ip4_header_ok first B) then Drop
  else if ip4_addr_isbroadcast src (netifs s inp) || ip4_addr_ismulticast src || (netif =? 0) then Drop
  else if fragment B then Reassemble (4 * (field B 0 1 mod 16)) (be16 B 2) netif
  else Deliver (4 * (field B 0 1 mod 16)) (be16 B 2) netif (field B 9 1).
End Verdict.

(** * Proofs *)

Section Input.
Context {H : Type} `{OL : OutsideLaws H} (custom_free_function : Z -> prog (lwip H) unit).
Context (call_raw : Z -> Z -> Z -> Z -> Z -> prog (net H) Z) (raw_fuel : nat).

(** A step that concerns only the packet buffers, the addresses and the counters. *)
Record aside (s s' : net H) : Prop := {
  as_netifs : netifs s' = netifs s;
  as_list : netif_list s' = netif_list s;
  as_raw : raw_pcbs s' = raw_pcbs s /\ raw_pcb_at s' = raw_pcb_at s;
  as_udp : udp s' = udp s;
}.

Lemma raw_loop_none l : forall fuel pcb prev p proto bc (s : net H),
  pcb_list (fun x => raw_next (raw_pcb_at s x)) pcb l -> (length l <= fuel)%nat ->
  Forall (fun x => raw_recv (raw_pcb_at s x) = 0 \/ raw_protocol (raw_pcb_at s x) <> proto) l ->
  raw_loop call_raw fuel pcb prev p proto bc s = Some (0, s).
Proof.
  induction l as [|x l IH]; intros fuel pcb prev p proto bc s Hl Hf Hn.
  { cbn in Hl. subst pcb. by destruct fuel. }
  destruct Hl as (-> & Hx & Hl). apply Forall_cons in Hn as [Hn1 Hn]. destruct fuel as [|fuel]; [cbn in Hf; lia|].
  cbn [raw_loop]. rewrite (proj2 (Z.eqb_neq _ _) Hx). unfold gets at 1. rewrite (bind_some _ _ s s s eq_refl). cbn [id].
  assert (raw_match (raw_pcb_at s x) proto bc s && negb (raw_recv (raw_pcb_at s x) =? 0) = false) as ->.
  { destruct Hn1 as [->|Hp]; [apply andb_false_r|]. unfold raw_match. by rewrite (proj2 (Z.eqb_neq _ _) Hp). }
  rewrite bind_ret. unfold gets at 1. rewrite (bind_some _ _ s s s eq_refl). cbn [id Z.eqb negb]. apply IH; [done|cbn in Hf; lia|done].
Qed.

Lemma raw_input_none l p b (s : net H) :
  pcb_list (fun x => raw_next (raw_pcb_at s x)) (raw_pcbs s) l -> (length l <= raw_fuel)%nat -> heap (stack s) !! p = Some b ->
  Forall (fun x => raw_recv (raw_pcb_at s x) = 0 \/ raw_protocol (raw_pcb_at s x) <> IPH_PROTO (data (stack s)) (payload b)) l ->
  raw_input call_raw raw_fuel p s = Some (0, s).
Proof.
  intros Hl Hf Hb Hn. unfold raw_input. unfold gets. rewrite (bind_some _ _ s s s eq_refl). cbn [id].
  rewrite (on_lwip_bind _ _ s b (stack s)); [|cbn; unfold deref; by rewrite Hb]. change (set_lwip (stack s) s) with (set_lwip (lwip_of s) s). rewrite set_same. by apply (raw_loop_none l).
Qed.

Lemma drop_packet_run p l b own cs (s : net H) : owned (stack s) own p l b ->
  exists s', drop_packet custom_free_function p cs s = Some (ERR_OK, s') /\ valid (stack s') (own_add p (-1) own) /\
    data (stack s') = data (stack s) /\ stats s' = counted cs (stats s) /\ aside s s' /\ confined l (stack s) (stack s') /\
    ip_data s' = ip_data s /\ sending s' = sending s.
Proof.
  intros Ho. destruct (owned_free custom_free_function _ _ _ _ _ Ho) as (n & t & E & Hv & Hd & Hcf). unfold drop_packet.
  rewrite (on_lwip_bind _ _ _ _ _ E). eexists. split; [reflexivity|]. cbn. by split_and!.
Qed.

(** The first bytes in memory are those of the packet. *)
Lemma packet_fields (n : nat) (s : lwip H) own p l b : owned s own p l b -> all_bytes (data s) -> Z.of_nat n <= len b ->
  let B := content s l in
  (forall o k, (o + k <= n)%nat -> load_le (data s) (payload b + Z.of_nat o) k = field B o k) /\ bytes B /\ (n <= length B)%nat.
Proof.
  intros Ho Hm Hlen B. destruct (owned_facts s own p l b Ho) as (_ & Hle & Et & _ & Eload).
  assert (load (data s) (payload b) n = take n B) as En.
  { replace (take n B) with (take n (take (Z.to_nat (len b)) B)) by (rewrite take_take; f_equal; lia). unfold B. rewrite <- Eload. symmetry. apply load_take. lia. }
  split; [|split; [|unfold B; lia]].
  - intros o k Hok. unfold load_le, field. f_equal. rewrite (load_sub _ _ _ _ o k En Hok). rewrite skipn_firstn_comm, take_take. f_equal. lia.
  - unfold B, content, bytes_of. apply Forall_bind, Forall_forall. intros [a k] _. by apply bytes_load.
Qed.

Lemma header_fields (s : lwip H) own p l b : owned s own p l b -> all_bytes (data s) -> IP_HLEN <= len b ->
  let B := content s l in
  (forall o k, (o + k <= 20)%nat -> load_le (data s) (payload b + Z.of_nat o) k = field B o k) /\
  data s (payload b) = field B 0 1 /\ data s (payload b + 9) = field B 9 1 /\ bytes B /\ (20 <= length B)%nat.
Proof.
  intros Ho Hm Hlen B. destruct (packet_fields 20 s own p l b Ho Hm Hlen) as (Hf & HB & HlB). fold B in Hf, HB, HlB.
  assert (forall o, (o < 20)%nat -> data s (payload b + Z.of_nat o) = field B o 1) as Hone.
  { intros o Hlo. rewrite <- Hf by lia. unfold load_le. rewrite load_one. cbn [le_val]. by rewrite Z.shiftl_0_l, Z.lor_0_r. }
  split; [done|]. split; [rewrite <- (Hone 0%nat) by lia; f_equal; lia|]. split; [rewrite <- (Hone 9%nat) by lia; f_equal; lia|done].
Qed.

(** The packet is trimmed to the length in its header. *)
Lemma trim_run n p l b own (s : net H) : owned (stack s) own p l b -> 0 <= n ->
  exists s1 l1 b1, when (n <? tot_len b) (on_lwip (pbuf_realloc custom_free_function p n)) s = Some (tt, s1) /\ owned (stack s1) own p l1 b1 /\
    data (stack s1) = data (stack s) /\ content (stack s1) l1 = take (Z.to_nat n) (content (stack s) l) /\ payload b1 = payload b /\
    len b1 = Z.min (len b) n /\ tot_len b1 = Z.min (tot_len b) n /\ ip_data s1 = ip_data s /\ stats s1 = stats s /\ aside s s1 /\
    (filled (stack s) l -> 0 < n -> filled (stack s1) l1) /\ sending s1 = sending s /\ confined l (stack s) (stack s1) /\ (forall x, x ∈ l1 -> x ∈ l).
Proof.
  intros Ho Hn. destruct (owned_facts _ _ _ _ _ Ho) as (_ & Hle & Et & _ & _). destruct (Z.ltb_spec n (tot_len b)) as [Hlt|Hge]; cbn [when].
  - destruct (owned_realloc custom_free_function _ _ _ _ _ n Ho ltac:(lia)) as (t & l1 & b1 & E & Ho1 & Hd & Hc & Hpay & Hlen & Hfill & Hcf & Hsub).
    eexists (set_lwip t s), l1, b1. destruct (owned_facts _ _ _ _ _ Ho1) as (_ & _ & Et1 & _ & _).
    split; [unfold on_lwip; change (lwip_of s) with (stack s); by rewrite E|]. split; [done|]. cbn. split_and!; try done. rewrite Et1, Hc, length_take. lia.
  - exists s, l, b. split; [done|]. split; [done|]. rewrite take_ge by lia. split_and!; try done; [lia..|]. by apply confined_refl.
Qed.

(** The counters of a packet that is dropped: another version than 4, a wrong length, or
    addresses that are not accepted. *)
Definition ip4_drop_counters (s : net H) (b : struct_pbuf) (B : list Z) : list counter :=
  if ip4_header_ok (len b) B then [ip_drop; ipinaddrerrors; ipindiscards]
  else if IPH_V (data (stack s)) (payload b) =? 4 then [ip_lenerr; ip_drop; ipindiscards] else [ip_err; ip_drop; ipinhdrerrors].

(** What is left after the packet [l] with the bytes [B] has been dropped: its pbufs are
    given up, it is counted, and only if its header was sound its addresses are left
    where the current packet has them. *)
Record dropped (own : owners) (p : Z) (l : list Z) (b : struct_pbuf) (B : list Z) (s s' : net H) : Prop := {
  dr_valid : valid (stack s') (own_add p (-1) own);
  dr_data : data (stack s') = data (stack s);
  dr_confined : confined l (stack s) (stack s');
  dr_stats : stats s' = counted ([ip_recv; ipinreceives] ++ ip4_drop_counters s b B) (stats s);
  dr_ip : ip_data s' = if ip4_header_ok (len b) B then ip_data (addressed s B) else ip_data s;
  dr_sending : sending s' = sending s;
  dr_aside : aside s s';
}.

Lemma counted_app cs cs' st : counted (cs ++ cs') st = counted cs' (counted cs st).
Proof. unfold counted. apply foldl_app. Qed.

Lemma aside_trans s1 s2 s3 : aside s1 s2 -> aside s2 s3 -> aside s1 s3.
Proof. intros [E1 E2 [E3 E4] E5] [F1 F2 [F3 F4] F5]. split; [congruence..|split; congruence|congruence]. Qed.

Context (ip4_reass : Z -> prog (net H) Z) (udp_input tcp_input icmp_input icmp_dest_unreach : Z -> Z -> prog (net H) unit).
Abbreviation input := (ip4_input custom_free_function call_raw raw_fuel ip4_reass udp_input tcp_input icmp_input icmp_dest_unreach).
Abbreviation input_addressed := (ip4_input_addressed custom_free_function call_raw raw_fuel ip4_reass udp_input tcp_input icmp_input icmp_dest_unreach).
Abbreviation deliver := (ip4_deliver custom_free_function call_raw raw_fuel udp_input tcp_input icmp_input icmp_dest_unreach).

(** The part of [ip4_input] that looks at lengths. *)
Lemma ip4_lengths p inp l b own (s : net H) : owned (stack s) own p l b -> all_bytes (data (stack s)) ->
  let B := content (stack s) l in
  if ip4_header_ok (len b) B then
    exists s1 l1 b1, input p inp s = input_addressed p inp (payload b) (4 * (field B 0 1 mod 16)) s1 /\ owned (stack s1) own p l1 b1 /\
      data (stack s1) = data (stack s) /\ content (stack s1) l1 = take (Z.to_nat (be16 B 2)) B /\ payload b1 = payload b /\ len b1 = Z.min (len b) (be16 B 2) /\
      ip_data s1 = ip_data s /\ stats s1 = counted [ip_recv; ipinreceives] (stats s) /\ aside s s1 /\ (filled (stack s) l -> filled (stack s1) l1) /\
      sending s1 = sending s /\ confined l (stack s) (stack s1) /\ (forall x, x ∈ l1 -> x ∈ l)
  else exists s', input p inp s = Some (ERR_OK, s') /\ dropped own p l b B s s'.
Proof.
  intros Ho Hm B. set (s0 := with_stats s (counted [ip_recv; ipinreceives] (stats s))).
  assert (aside s s0) as Ha0 by done. pose proof (ow_first _ _ _ _ _ Ho) as Hb. destruct (owned_facts _ _ _ _ _ Ho) as (_ & Hle & Et & _ & _).
  set (m := data (stack s)). set (v := m (payload b)). pose proof (Hm (payload b)) as Hv. fold m v in Hv. unfold is_byte in Hv.
  assert (IPH_V m (payload b) = v / 16) as EV by (unfold IPH_V; fold v; rewrite Z.shiftr_div_pow2 by lia; done).
  assert (IPH_HL_BYTES m (payload b) = 4 * (v mod 16)) as EH.
  { unfold IPH_HL_BYTES. fold v. change 0x0f with (Z.ones 4). rewrite Z.land_ones by lia. change (2 ^ 4) with 16. pose proof (Z.mod_pos_bound v 16).
    rewrite (wrap_small 8) by lia. lia. }
  assert (0 <= lwip_htons (IPH_LEN m (payload b)) < 2 ^ 16) as Hn by (apply wrap_range; lia).
  assert (input p inp s = (if negb (v / 16 =? 4) then drop_packet custom_free_function p [ip_err; ip_drop; ipinhdrerrors] else
      let* _ := when (lwip_htons (IPH_LEN m (payload b)) <? tot_len b) (on_lwip (pbuf_realloc custom_free_function p (lwip_htons (IPH_LEN m (payload b))))) in
      let* b' := on_lwip (deref p) in
      if (len b' <? 4 * (v mod 16)) || (tot_len b' <? lwip_htons (IPH_LEN m (payload b))) || (4 * (v mod 16) <? IP_HLEN)
      then drop_packet custom_free_function p [ip_lenerr; ip_drop; ipindiscards]
      else input_addressed p inp (payload b) (4 * (v mod 16))) s0) as ->.
  { rewrite <- EV, <- EH. unfold ip4_input. rewrite (bind_some (STATS_INC _) _ s tt s0 eq_refl).
    rewrite (on_lwip_bind _ _ s0 b (stack s0)); [|cbn; unfold deref; by rewrite Hb]. change (set_lwip (stack s0) s0) with s0. reflexivity. }
  set (n := lwip_htons (IPH_LEN m (payload b))) in *.
  destruct (trim_run n p l b own s0 Ho ltac:(lia)) as (s1 & l1 & b1 & E1 & Ho1 & Hd1 & Hc1 & Hp1 & Hl1 & Ht1 & Hi1 & Hs1 & Ha1 & Hf1 & Hsd1 & Hcf1 & Hsub1).
  assert (forall cs l' b' s2, owned (stack s2) own p l' b' -> data (stack s2) = m -> stats s2 = stats s0 -> aside s s2 ->
    ip_data s2 = ip_data s -> sending s2 = sending s -> confined l (stack s) (stack s2) -> (forall x, x ∈ l' -> x ∈ l) ->
    ip4_header_ok (len b) B = false -> ip4_drop_counters s b B = cs ->
    exists s', drop_packet custom_free_function p cs s2 = Some (ERR_OK, s') /\ dropped own p l b B s s') as Hdrop.
  { intros cs l' b' s2 Ho2 Hd2 Hst2 Ha2 Hi2 Hsd2 Hcf2 Hsub2 Eok Hcs.
    destruct (drop_packet_run p l' b' own cs s2 Ho2) as (s' & E & Hv' & Hd & Hst & Ha & Hcf & Hi & Hsd). exists s'. split; [done|].
    split; [done|by rewrite Hd| |by rewrite Hst, Hst2, Hcs, counted_app|by rewrite Eok, Hi|by rewrite Hsd|by eapply aside_trans].
    apply (confined_trans _ _ (stack s2)); [done|]. by apply (confined_mono l'). }
  assert (forall (k : struct_pbuf -> prog (net H) Z), bind (when (n <? tot_len b) (on_lwip (pbuf_realloc custom_free_function p n))) (fun _ => bind (on_lwip (deref p)) k) s0 = k b1 s1) as Estep.
  { intros k. rewrite (bind_some _ _ _ _ _ E1). rewrite (on_lwip_bind _ _ s1 b1 (stack s1)); [by destruct s1|].
    change (lwip_of s1) with (stack s1). unfold deref. by rewrite (ow_first _ _ _ _ _ Ho1). }
  assert (IP_HLEN <= len b -> v = field B 0 1 /\ n = be16 B 2) as Hsame.
  { intros Hlen. destruct (header_fields _ _ _ _ _ Ho Hm Hlen) as (Hf & Hv0 & _ & HB & HlB). split; [done|].
    unfold n, IPH_LEN. change 2 with (Z.of_nat 2) at 1. unfold m. rewrite Hf by lia. apply field_htons; [done|unfold B; lia]. }
  destruct (ip4_header_ok (len b) B) eqn:Eok.
  - unfold ip4_header_ok in Eok. apply andb_true_iff in Eok as [[[[[H1%Z.leb_le H2]%andb_true_iff H3%Z.leb_le]%andb_true_iff H4%Z.leb_le]%andb_true_iff H5%Z.leb_le]%andb_true_iff H6%Z.leb_le].
    destruct (Hsame H1) as [Ev En]. rewrite <- Ev, <- En in *. fold B in Et. rewrite H2. cbn [negb]. rewrite Estep, Hl1, Ht1.
    rewrite (proj2 (Z.ltb_ge _ _)), (proj2 (Z.ltb_ge (Z.min (tot_len b) n) _)), (proj2 (Z.ltb_ge _ IP_HLEN)) by lia. cbn [orb].
    exists s1, l1, b1. split_and!; try done; [by eapply aside_trans|]. intros Hfl. apply Hf1; [done|]. unfold IP_HLEN in *. lia.
  - assert (ip4_drop_counters s b B = if v / 16 =? 4 then [ip_lenerr; ip_drop; ipindiscards] else [ip_err; ip_drop; ipinhdrerrors]) as Ecs
      by (unfold ip4_drop_counters; fold m; by rewrite Eok, EV).
    destruct (Z.eqb_spec (v / 16) 4) as [Ever|Ever]; cbn [negb]; [|apply (Hdrop _ l b); try done; by apply confined_refl]. rewrite Estep.
    destruct ((len b1 <? 4 * (v mod 16)) || (tot_len b1 <? n) || (4 * (v mod 16) <? IP_HLEN)) eqn:Ec.
    { apply (Hdrop _ l1 b1); try done. by eapply aside_trans. }
    exfalso. apply orb_false_iff in Ec as [[C1%Z.ltb_ge C2%Z.ltb_ge]%orb_false_iff C3%Z.ltb_ge].
    destruct (Hsame ltac:(lia)) as [Ev En]. unfold ip4_header_ok in Eok. rewrite <- Ev, <- En in Eok. fold B in Et.
    rewrite !(proj2 (Z.leb_le _ _)), (proj2 (Z.eqb_eq _ _)) in Eok by (done || lia). done.
Qed.

Lemma accept_ext (s s' : net H) inp : current_iphdr_dest (ip_data s') = current_iphdr_dest (ip_data s) -> netifs s' = netifs s -> netif_list s' = netif_list s ->
  ip4_input_netif s' inp = ip4_input_netif s inp.
Proof.
  intros Ed En El. assert (forall n, ip4_input_accept s' n = ip4_input_accept s n) as Ha by (intros n; unfold ip4_input_accept; by rewrite Ed, En).
  unfold ip4_input_netif. rewrite Ed, En, El, Ha. assert (forall l, accept_loop s' inp l = accept_loop s inp l) as Hl; [|by rewrite Hl].
  intros l. induction l as [|x l IH]; [done|]. cbn [accept_loop]. by rewrite Ha, IH.
Qed.

Lemma verdict_ext (s s' : net H) inp first B : netifs s' = netifs s -> netif_list s' = netif_list s -> ip4_verdict s' inp first B = ip4_verdict s inp first B.
Proof. intros En El. unfold ip4_verdict. by rewrite (accept_ext (addressed s B)), En by done. Qed.

Lemma field_take B n o k : (o + k <= n)%nat -> field (take n B) o k = field B o k.
Proof. intros Hok. unfold field. rewrite skipn_firstn_comm, take_take. do 2 f_equal. lia. Qed.

(** The function for a protocol, and what follows it. *)
Definition ip4_handler (proto : Z) : option (Z -> Z -> prog (net H) unit) :=
  if proto =? IP_PROTO_UDP then Some udp_input else if proto =? IP_PROTO_TCP then Some tcp_input
  else if proto =? IP_PROTO_ICMP then Some icmp_input else None.
Definition ip4_finish : prog (net H) Z :=
  let* _ := set_ip_data (fun _ => IpGlobals 0 0 0 0 IPADDR_ANY IPADDR_ANY) in ret ERR_OK.

Lemma ip4_deliver_run p inp netif hl l b own raws h (s : net H) :
  owned (stack s) own p l b -> all_bytes (data (stack s)) -> 20 <= hl <= len b -> hl = 4 * (field (content (stack s) l) 0 1 mod 16) ->
  pcb_list (fun x => raw_next (raw_pcb_at s x)) (raw_pcbs s) raws -> (length raws <= raw_fuel)%nat ->
  Forall (fun x => raw_recv (raw_pcb_at s x) = 0 \/ raw_protocol (raw_pcb_at s x) <> field (content (stack s) l) 9 1) raws ->
  ip4_handler (field (content (stack s) l) 9 1) = Some h ->
  exists s' b', deliver p inp netif hl s = (let* _ := h p inp in ip4_finish) s' /\ owned (stack s') own p l b' /\
    content (stack s') l = drop (Z.to_nat hl) (content (stack s) l) /\ data (stack s') = data (stack s) /\ aside s s' /\
    ip_data s' = IpGlobals netif inp (payload b) hl (current_iphdr_src (ip_data s)) (current_iphdr_dest (ip_data s)) /\
    stats s' = counted [ipindelivers] (stats s) /\ payload b' = payload b + hl /\ len b' = len b - hl /\
    (filled (stack s) l -> hl < len b -> filled (stack s') l) /\ sending s' = sending s /\ confined l (stack s) (stack s').
Proof.
  intros Ho Hm Hhl Ehl Hraw Hfuel Hnone Hh. pose proof (ow_first _ _ _ _ _ Ho) as Hb.
  destruct (header_fields _ _ _ _ _ Ho Hm ltac:(unfold IP_HLEN; lia)) as (Hf & Hv0 & H9 & HB & HlB). set (B := content (stack s) l) in *.
  unfold ip4_deliver. rewrite (on_lwip_bind _ _ s b (stack s)); [|change (lwip_of s) with (stack s); unfold deref; by rewrite Hb].
  assert (set_lwip (stack s) s = s) as -> by (by destruct s). unfold bytes_now at 1, gets at 1. rewrite (bind_some _ _ s (data (stack s)) s eq_refl).
  assert (IPH_HL_BYTES (data (stack s)) (payload b) = hl) as ->.
  { unfold IPH_HL_BYTES. rewrite Hv0. change 0x0f with (Z.ones 4). rewrite Z.land_ones by lia. change (2 ^ 4) with 16. pose proof (Z.mod_pos_bound (field B 0 1) 16).
    rewrite (wrap_small 8) by lia. lia. }
  set (s1 := with_ip s (IpGlobals netif inp (payload b) hl (current_iphdr_src (ip_data s)) (current_iphdr_dest (ip_data s)))). rewrite (bind_some (set_ip_data _) _ s tt s1 eq_refl).
  rewrite (bind_some _ _ s1 0 s1).
  2:{ apply (raw_input_none raws p b s1); try done. unfold IPH_PROTO. change (data (stack s1)) with (data (stack s)). by rewrite H9. }
  cbn [Z.eqb when]. destruct (owned_remove_header _ _ _ _ _ hl Ho ltac:(lia)) as (t & b' & E & Ho' & Hd & Hc & Hp' & Hl' & Hty & Hsame & Hout).
  rewrite bind_assoc, (on_lwip_bind _ _ s1 _ _ E). cbv beta. unfold ip4_protocol. rewrite bind_assoc.
  set (st := set_lwip t s1). rewrite (bind_some bytes_now _ st (data t) st eq_refl). rewrite Hd. unfold IPH_PROTO. rewrite H9. unfold ip4_handler in Hh.
  set (s2 := with_stats st (counted [ipindelivers] (stats s))).
  exists s2, b'. split.
  - destruct (field B 9 1 =? IP_PROTO_UDP); [|destruct (field B 9 1 =? IP_PROTO_TCP); [|destruct (field B 9 1 =? IP_PROTO_ICMP); [|done]]];
      injection Hh as <-; rewrite bind_assoc; by rewrite (bind_some (STATS_INC [ipindelivers]) _ st tt s2 eq_refl).
  - assert (p ∈ l) as Hpl by (destruct Ho as [? Hc0 ? ? ? ?]; destruct (owned_facts _ _ _ _ _ Ho') as (Hp0 & _); destruct l; [by cbn in Hc0|]; destruct Hc0 as (-> & _); left).
    split_and!; try done; [|apply confined_refl; [intros x Hx; apply Hsame; congruence|done]]. intros Hfl Hlt y c Hy Hyc. change (heap (stack s2)) with (heap t) in Hyc. destruct (decide (y = p)) as [->|Hyp]; [|rewrite Hsame in Hyc by done; by apply (Hfl y)].
    rewrite (ow_first _ _ _ _ _ Ho') in Hyc. injection Hyc as <-. destruct (Hfl p b Hy Hb) as [Hct _]. unfold contiguous in *. rewrite Hty. split; [done|lia].
Qed.

(** A packet with a sound header: what is asked about its addresses. *)
Lemma ip4_sound p inp l b own (s : net H) : owned (stack s) own p l b -> all_bytes (data (stack s)) ->
  let B := content (stack s) l in
  let hl := 4 * (field B 0 1 mod 16) in
  let netif := ip4_input_netif (addressed s B) inp in
  ip4_header_ok (len b) B = true ->
  exists s2 l1 b1, input p inp s =
      (if ip4_addr_isbroadcast (field B 12 4) (netifs s inp) || ip4_addr_ismulticast (field B 12 4)
       then drop_packet custom_free_function p [ip_drop; ipinaddrerrors; ipindiscards]
       else if netif =? 0 then
         let* _ := STATS_INC [ip_drop; ipinaddrerrors; ipindiscards] in
         let* _ := on_lwip (pbuf_free custom_free_function p) in
         ret ERR_OK
       else
         let* q := if fragment B then ip4_reass p else ret p in
         if q =? 0 then ret ERR_OK else deliver q inp netif hl) s2 /\
    owned (stack s2) own p l1 b1 /\ data (stack s2) = data (stack s) /\ content (stack s2) l1 = take (Z.to_nat (be16 B 2)) B /\
    payload b1 = payload b /\ len b1 = Z.min (len b) (be16 B 2) /\
    current_iphdr_src (ip_data s2) = field B 12 4 /\ current_iphdr_dest (ip_data s2) = field B 16 4 /\
    stats s2 = counted [ip_recv; ipinreceives] (stats s) /\ aside s s2 /\ (filled (stack s) l -> filled (stack s2) l1) /\
    ip_data s2 = ip_data (addressed s B) /\ sending s2 = sending s /\ confined l (stack s) (stack s2) /\ (forall x, x ∈ l1 -> x ∈ l).
Proof.
  intros Ho Hm B hl netif Eok. pose proof (ip4_lengths p inp l b own s Ho Hm) as Hlen. cbn zeta in Hlen. fold B in Hlen. rewrite Eok in Hlen.
  destruct Hlen as (s1 & l1 & b1 & -> & Ho1 & Hd1 & Hc1 & Hp1 & Hl1 & Hi1 & Hs1 & Ha1 & Hf1 & Hsd1 & Hcf1 & Hsub1).
  apply andb_true_iff in Eok as [[[[[H1%Z.leb_le H2]%andb_true_iff H3%Z.leb_le]%andb_true_iff H4%Z.leb_le]%andb_true_iff H5%Z.leb_le]%andb_true_iff H6%Z.leb_le].
  set (n := be16 B 2) in *. unfold IP_HLEN in *.
  assert (all_bytes (data (stack s1))) as Hm1 by (by rewrite Hd1).
  destruct (header_fields _ _ _ _ _ Ho1 Hm1 ltac:(unfold IP_HLEN; lia)) as (Hf & _ & _ & HB & HlB). rewrite Hp1, Hc1 in Hf. rewrite Hc1 in HB, HlB.
  exists (addressed s1 B), l1, b1. split; [|split_and!; try done; [by apply (aside_trans _ s1)|unfold addressed; cbn [with_ip ip_data]; by rewrite Hi1]].
  unfold ip4_input_addressed. rewrite (bind_some bytes_now _ s1 (data (stack s1)) s1 eq_refl). unfold IPH_SRC, IPH_DEST, IPH_OFFSET.
  change 12 with (Z.of_nat 12). change 16 with (Z.of_nat 16). change (payload b + 6) with (payload b + Z.of_nat 6). rewrite !Hf by lia.
  rewrite fragment_offset by (done || lia). assert (fragment (take (Z.to_nat n) B) = fragment B) as -> by (unfold fragment, be16; by rewrite !field_take by lia).
  rewrite !field_take by lia. rewrite (bind_some (set_ip_data _) _ s1 tt (addressed s1 B) eq_refl).
  unfold gets. rewrite (bind_some _ _ (addressed s1 B) (addressed s1 B) (addressed s1 B) eq_refl). cbn [id].
  change (netifs (addressed s1 B) inp) with (netifs s1 inp). change (current_iphdr_src (ip_data (addressed s1 B))) with (field B 12 4). rewrite (as_netifs _ _ Ha1).
  rewrite (accept_ext (addressed s B) (addressed s1 B) inp) by (done || apply Ha1). done.
Qed.

(** A whole datagram for this host that no raw connection takes. *)
Lemma ip4_input_delivered p inp l b own raws hl n netif proto h (s : net H) :
  owned (stack s) own p l b -> all_bytes (data (stack s)) ->
  pcb_list (fun x => raw_next (raw_pcb_at s x)) (raw_pcbs s) raws -> (length raws <= raw_fuel)%nat ->
  let B := content (stack s) l in
  ip4_verdict s inp (len b) B = Deliver hl n netif proto ->
  Forall (fun x => raw_recv (raw_pcb_at s x) = 0 \/ raw_protocol (raw_pcb_at s x) <> proto) raws -> ip4_handler proto = Some h ->
  exists s1 l1 b1, input p inp s = (let* _ := h p inp in ip4_finish) s1 /\ owned (stack s1) own p l1 b1 /\
    content (stack s1) l1 = drop (Z.to_nat hl) (take (Z.to_nat n) B) /\ len b1 = Z.min (len b) n - hl /\ data (stack s1) = data (stack s) /\ aside s s1 /\
    ip_data s1 = IpGlobals netif inp (payload b) hl (field B 12 4) (field B 16 4) /\ payload b1 = payload b + hl /\
    (filled (stack s) l -> 0 < len b1 -> filled (stack s1) l1) /\
    stats s1 = counted [ip_recv; ipinreceives; ipindelivers] (stats s) /\ sending s1 = sending s /\ confined l (stack s) (stack s1).
Proof.
  intros Ho Hm Hraw Hfuel B Hver Hnone Hh. unfold ip4_verdict in Hver. destruct (ip4_header_ok (len b) B) eqn:Eok; cbn [negb] in Hver; [|done].
  destruct (ip4_sound p inp l b own s Ho Hm Eok) as (s2 & l1 & b1 & -> & Ho1 & Hd1 & Hc1 & Hp1 & Hl1 & Hsrc & Hdst & Hst2 & Ha2 & Hf2 & Hi2 & Hsd2 & Hcf2 & Hsub2). fold B in Hc1, Hl1, Hsrc, Hdst, Hi2 |- *.
  apply andb_true_iff in Eok as [[[[[H1%Z.leb_le H2]%andb_true_iff H3%Z.leb_le]%andb_true_iff H4%Z.leb_le]%andb_true_iff H5%Z.leb_le]%andb_true_iff H6%Z.leb_le].
  destruct (ip4_addr_isbroadcast (field B 12 4) (netifs s inp) || ip4_addr_ismulticast (field B 12 4)); cbn [orb] in Hver; [done|].
  destruct (ip4_input_netif (addressed s B) inp =? 0); [done|]. destruct (fragment B); [done|]. injection Hver as <- <- <- <-. rewrite bind_ret.
  destruct (owned_facts _ _ _ _ _ Ho1) as (Hp0 & _). rewrite (proj2 (Z.eqb_neq _ _) Hp0). destruct (as_raw _ _ Ha2) as [Er1 Er2]. unfold IP_HLEN in *.
  set (hl := 4 * (field B 0 1 mod 16)) in *. set (n := be16 B 2) in *. set (netif := ip4_input_netif (addressed s B) inp).
  assert (forall o, (o < 20)%nat -> field (content (stack s2) l1) o 1 = field B o 1) as Hone by (intros o Hlo; rewrite Hc1, field_take by lia; done).
  destruct (ip4_deliver_run p inp netif hl l1 b1 own raws h s2) as (s3 & b3 & E & Ho3 & Hc3 & Hd3 & Ha3 & Hi3 & Hst3 & Hpay3 & Hl3 & Hf3 & Hsd3 & Hcf3); rewrite ?Hone, ?Hd1, ?Er1, ?Er2 by lia; try done; try lia.
  exists s3, l1, b3. split; [done|]. split; [done|]. rewrite Hc3, Hc1, Hd3, Hd1, Hi3, Hpay3, Hp1, Hl3, Hl1, Hsrc, Hdst. split_and!; try done; [by eapply aside_trans|..].
  - intros Hfl Hlt. apply Hf3; [by apply Hf2|lia].
  - by rewrite Hst3, Hst2.
  - by rewrite Hsd3.
  - apply (confined_trans _ _ (stack s2)); [done|]. by apply (confined_mono l1).
Qed.

(** C18 A packet whose header is not sound, or which is not for this host, is dropped:
    its pbufs are given up, the reason is counted, and nothing else changes, except that
    the addresses of a packet with a sound header stay behind as those of the current
    packet. A sound packet is trimmed to the length in its header; a fragment goes to
    reassembly, and a whole datagram without its header to the function of its protocol,
    together with its addresses and the interface, unless a raw connection takes it. Until
    then no pbuf of another packet changes. A header is sound by its version and lengths:
    its checksum is not looked at in this configuration. *)
Theorem ip4_input_correct p inp l b own raws (s : net H) :
  owned (stack s) own p l b -> all_bytes (data (stack s)) ->
  pcb_list (fun x => raw_next (raw_pcb_at s x)) (raw_pcbs s) raws -> (length raws <= raw_fuel)%nat ->
  let B := content (stack s) l in
  match ip4_verdict s inp (len b) B with
  | Drop => exists s', input p inp s = Some (ERR_OK, s') /\ dropped own p l b B s s'
  | Reassemble hl n netif => exists s1 l1 b1,
      input p inp s = (let* q := ip4_reass p in if q =? 0 then ret ERR_OK else deliver q inp netif hl) s1 /\
      owned (stack s1) own p l1 b1 /\ content (stack s1) l1 = take (Z.to_nat n) B /\ data (stack s1) = data (stack s) /\ aside s s1 /\
      ip_data s1 = ip_data (addressed s B) /\ stats s1 = counted [ip_recv; ipinreceives] (stats s) /\ sending s1 = sending s /\
      confined l (stack s) (stack s1)
  | Deliver hl n netif proto => forall h,
      Forall (fun x => raw_recv (raw_pcb_at s x) = 0 \/ raw_protocol (raw_pcb_at s x) <> proto) raws -> ip4_handler proto = Some h ->
      exists s1 l1 b1, input p inp s = (let* _ := h p inp in ip4_finish) s1 /\ owned (stack s1) own p l1 b1 /\
        content (stack s1) l1 = drop (Z.to_nat hl) (take (Z.to_nat n) B) /\ len b1 = Z.min (len b) n - hl /\ data (stack s1) = data (stack s) /\ aside s s1 /\
        ip_data s1 = IpGlobals netif inp (payload b) hl (field B 12 4) (field B 16 4) /\ payload b1 = payload b + hl /\
        (filled (stack s) l -> 0 < len b1 -> filled (stack s1) l1) /\
        stats s1 = counted [ip_recv; ipinreceives; ipindelivers] (stats s) /\ sending s1 = sending s /\ confined l (stack s) (stack s1)
  end.
Proof.
  intros Ho Hm Hraw Hfuel B. destruct (ip4_verdict s inp (len b) B) eqn:Ever; [..|by intros h Hnone Hh; apply (ip4_input_delivered p inp l b own raws _ _ _ proto h s)];
    unfold ip4_verdict in Ever; (destruct (ip4_header_ok (len b) B) eqn:Eok; cbn [negb] in Ever; [|try discriminate]).
  2:{ pose proof (ip4_lengths p inp l b own s Ho Hm) as Hlen. cbn zeta in Hlen. fold B in Hlen. by rewrite Eok in Hlen. }
  all: destruct (ip4_sound p inp l b own s Ho Hm Eok) as (s2 & l1 & b1 & -> & Ho1 & Hd1 & Hc1 & Hp1 & Hl1 & Hsrc & Hdst & Hs & Ha2 & _ & Hi2 & Hsd2 & Hcf2 & Hsub2);
    fold B in Hc1, Hl1, Hi2 |- *;
    destruct (ip4_addr_isbroadcast (field B 12 4) (netifs s inp) || ip4_addr_ismulticast (field B 12 4)); cbn [orb] in Ever; try discriminate.
  - destruct (drop_packet_run p l1 b1 own [ip_drop; ipinaddrerrors; ipindiscards] s2 Ho1) as (s' & E & Hv' & Hd' & Hst & Ha' & Hcf' & Hi' & Hsd'). exists s'. split; [done|].
    split; [done|by rewrite Hd'| |unfold ip4_drop_counters; by rewrite Eok, counted_app, Hst, Hs|by rewrite Eok, Hi'|by rewrite Hsd'|by eapply aside_trans].
    apply (confined_trans _ _ (stack s2)); [done|]. by apply (confined_mono l1).
  - destruct (ip4_input_netif (addressed s B) inp =? 0) eqn:En; [|by destruct (fragment B)].
    destruct (owned_free custom_free_function _ _ _ _ _ Ho1) as (k & t & E & Hv & Hd & Hcf). eexists. split.
    + set (s3 := with_stats s2 (counted [ip_drop; ipinaddrerrors; ipindiscards] (stats s2))).
      rewrite (bind_some (STATS_INC _) _ s2 tt s3 eq_refl), (on_lwip_bind _ _ s3 _ _ E). reflexivity.
    + split; [done|by cbn; rewrite Hd| |unfold ip4_drop_counters; by rewrite Eok, counted_app, <- Hs|by rewrite Eok|by cbn; rewrite Hsd2|by apply (aside_trans _ s2)].
      apply (confined_trans _ _ (stack s2)); [done|]. by apply (confined_mono l1).
  - destruct (ip4_input_netif (addressed s B) inp =? 0) eqn:En; [done|]. destruct (fragment B); [|done]. injection Ever as <- <- <-. by exists s2, l1, b1.
Qed.
End Input.

(** * Example *)

(** A datagram from 10.112.73.1 to the enclave, 10.112.73.80, in a packet with two more bytes. *)
Definition demo_datagram : list Z :=
  [0x45; 0; 0; 31; 0; 0; 0; 0; 64; 17; 0; 0; 10; 112; 73; 1; 10; 112; 73; 80] ++
  [0x12; 0x34; 0x14; 0x00; 0; 11; 0; 0] ++ [1; 2; 3] ++ [0; 0].

Definition demo_calls (layer : pbuf_layer) (length : Z) : list call := [Alloc layer length PBUF_RAM].

(** A packet of one pbuf that the calls leave. *)
Lemma packet_after_outside calls p pay n B :
  match trace (fun _ => stuck) calls some_memory (fun _ => 0) with
  | Some (s, own) => Some (own p, heap s !! p, linkedb (graph_of (heap s)) p) | None => None end = Some (1, Some (part 0 pay n n), false) ->
  bytes B -> length B = Z.to_nat n -> n < 2 ^ 16 -> p <> 0 ->
  exists s own, owned s own p [p] (part 0 pay n n) /\ all_bytes (data s) /\ content s [p] = B /\
    (fun r => outside (fst r)) <$> trace (fun _ => stuck) calls some_memory (fun _ => 0) = Some (outside s).
Proof.
  intros E HB Hlen Hn Hp0.
  destruct (trace (fun _ => stuck) calls some_memory (fun _ => 0)) as [[s own]|] eqn:Et; [|discriminate E]. injection E as H0 H1 Hl.
  pose proof (trace_reachable _ calls some_memory (fun _ => 0) _ _ (reach_start _ some_memory eq_refl) Et) as Hr. clear Et.
  exists (put_data (store u8 pay B) s), own. cbn [fmap option_fmap option_map fst put_data outside].
  assert (parts (heap s) [p] = [(pay, n)]) as Ep by (by rewrite (parts_cons _ _ _ _ H1)).
  split; [split; cbn [put_data heap]; try done|].
  - apply (valid_state s); [done..|]. by apply (reachable_valid (fun _ => stuck)).
  - cbn [chain]. split; [done|]. split; [done|]. exists 0, 1. by rewrite (graph_lookup _ _ _ H1).
  - rewrite Ep. cbn [total foldr]. lia.
  - intros Hlk%linkedb_spec. congruence.
  - by rewrite H0.
  - split; [apply is_byte_store; [intros x; apply wrap_range; lia|done]|]. split; [|done].
    unfold content. cbn [put_data data heap]. rewrite Ep, bytes_of_cons, app_nil_r. by apply load_store_eq.
Qed.

Lemma packet_after calls p pay n B :
  match trace (fun _ => stuck) calls some_memory (fun _ => 0) with
  | Some (s, own) => Some (own p, heap s !! p, linkedb (graph_of (heap s)) p) | None => None end = Some (1, Some (part 0 pay n n), false) ->
  bytes B -> length B = Z.to_nat n -> n < 2 ^ 16 -> p <> 0 ->
  exists s own, owned s own p [p] (part 0 pay n n) /\ all_bytes (data s) /\ content s [p] = B.
Proof. intros E HB Hl Hn Hp. destruct (packet_after_outside calls p pay n B E HB Hl Hn Hp) as (s & own & Ho & Hm & Hc & _). by exists s, own. Qed.

Lemma demo_arrival B : bytes B -> length B = 33%nat ->
  exists s own, owned s own 65544 [65544] (part 0 65568 33 33) /\ all_bytes (data s) /\ content s [65544] = B.
Proof. intros HB Hlen. apply (packet_after (demo_calls PBUF_RAW 33)); [vm_compute; reflexivity|done..]. Qed.

Definition demo_netif : netif := Netif (PP_HTONL 0x0a704950) (PP_HTONL 0xffff0000) (PP_HTONL 0x0a704901) 1500 7 0.
Definition demo_net (s : lwip arena) (u : udp_state) : net arena :=
  Net s (fun _ => demo_netif) [8] (IpGlobals 0 0 0 0 0 0) (fun _ => 0) 0 (fun _ => RawPcb 0 0 0 0 0 0 0 0) u (Sending 0 8).
Definition no_udp : udp_state := UdpState 0 (fun _ => UdpPcb 0 0 0 0 0 0 0 0 0 0 0 0) 0 (StatsMem 0 0 0).

Lemma ip4_input_correct_witness : exists (s s1 : net arena) own l b,
  owned (stack s) own 65544 l b /\ content (stack s) l = demo_datagram /\
  ip4_input (fun _ => stuck) (fun _ _ _ _ _ => stuck) 0 (fun _ => stuck) (fun _ _ => ret tt) (fun _ _ => stuck) (fun _ _ => stuck) (fun _ _ => stuck) 65544 8 s
    = ip4_finish s1 /\
  exists l1, content (stack s1) l1 = [0x12; 0x34; 0x14; 0x00; 0; 11; 0; 0; 1; 2; 3].
Proof.
  destruct (demo_arrival demo_datagram) as (t & own & Ho & Hm & Hc); [forall_list; by vm_compute|reflexivity|]. set (s := demo_net t no_udp).
  pose proof (ip4_input_correct (fun _ => stuck) (fun _ _ _ _ _ => stuck) 0 (fun _ => stuck) (fun _ _ => ret tt) (fun _ _ => stuck) (fun _ _ => stuck) (fun _ _ => stuck)
    65544 8 [65544] (part 0 65568 33 33) own [] s Ho Hm eq_refl (le_n 0)) as Hin. cbn zeta in Hin. change (content (stack s) [65544]) with (content t [65544]) in Hin. rewrite Hc in Hin.
  assert (ip4_verdict s 8 33 demo_datagram = Deliver 20 31 8 17) as Ev by (vm_compute; reflexivity). cbn [part len] in Hin. rewrite Ev in Hin.
  destruct (Hin _ (List.Forall_nil _) eq_refl) as (s1 & l1 & b1 & E & _ & Hc1 & _). exists s, s1, own, [65544], (part 0 65568 33 33).
  split; [exact Ho|]. split; [exact Hc|]. split; [exact E|]. exists l1. rewrite Hc1. reflexivity.
Defined.
