(* ===== verification/IpOutput.v ===== *)
(** The output side of IPv4 in the lwIP stack (ip4.cpp): routing, the header and its
    checksum, and the way back through [ip4_input]. *)

From Stdlib Require Import ZArith Lia Bool.
From stdpp Require Import base list gmap.
From S2P Require Import Prelude Hw Chksum RingBuffer Pbuf PbufRef PbufOps PbufData PbufHistory PbufContent Ip4.

Definition ERR_BUF : Z := -2.
Definition ERR_RTE : Z := -4.
Definition NETIF_FLAG_LINK_UP : Z := 0x04.
Definition netif_is_link_up (n : netif) : bool := negb (Z.land (nif_flags n) NETIF_FLAG_LINK_UP =? 0).

Section Output.
Context {H : Type} {Out : Outside H}.
Abbreviation M := (prog (net H)).

(** * Routes *)

Definition usable (n : netif) : bool := netif_is_up n && netif_is_link_up n && negb (ip4_addr_isany (ip_addr n)).

Fixpoint route_loop (s : net H) (dest : Z) (l : list Z) : Z :=
  match l with
  | [] => 0
  | a :: l =>
      let n := netifs s a in
      if usable n && (ip4_addr_netcmp dest (ip_addr n) (netmask n) || (Z.land (nif_flags n) NETIF_FLAG_BROADCAST =? 0) && ip4_addr_cmp dest (gw n))
      then a else route_loop s dest l
  end.

Definition ip4_route (dest : Z) : M Z :=
  let* s := gets id in
  let netif := route_loop s dest (netif_list s) in
  if negb (netif =? 0) then ret netif
  else if (netif_default (sending s) =? 0) || negb (usable (netifs s (netif_default (sending s)))) then
    let* _ := STATS_INC [ip_rterr; ipoutnoroutes] in ret 0
  else ret (netif_default (sending s)).

Fixpoint index_loop (s : net H) (idx : Z) (l : list Z) : Z :=
  match l with
  | [] => 0
  | a :: l => if idx =? netif_get_index (netifs s a) then a else index_loop s idx l
  end.
Definition netif_get_by_index (s : net H) (idx : Z) : Z :=
  if idx =? NETIF_NO_INDEX then 0 else index_loop s idx (netif_list s).

(** * The header *)

Definition poke (a : Z) (bs : list Z) : M unit := on_lwip (with_data (fun m => store m a bs)).
Definition IPH_VHL_SET (hdr v hl : Z) : M unit := poke hdr [u8 (Z.lor (Z.shiftl v 4) hl)].
Definition IPH_TOS_SET (hdr tos : Z) : M unit := poke (hdr + 1) [tos].
Definition IPH_LEN_SET (hdr len : Z) : M unit := poke (hdr + 2) (le_bytes 2 len).
Definition IPH_ID_SET (hdr id : Z) : M unit := poke (hdr + 4) (le_bytes 2 id).
Definition IPH_OFFSET_SET (hdr off : Z) : M unit := poke (hdr + 6) (le_bytes 2 off).
Definition IPH_TTL_SET (hdr ttl : Z) : M unit := poke (hdr + 8) [u8 ttl].
Definition IPH_PROTO_SET (hdr proto : Z) : M unit := poke (hdr + 9) [u8 proto].

(** The sum of the words that the code adds up while it writes them. *)
Definition header_sum (tos len id ttl proto src dest : Z) : Z :=
  let chk_sum := u32 (0 + PP_HTONS (Z.lor proto (Z.shiftl ttl 8))) in
  let chk_sum := u32 (chk_sum + Z.land dest 0xffff) in
  let chk_sum := u32 (chk_sum + Z.shiftr dest 16) in
  let chk_sum := u32 (chk_sum + PP_HTONS (Z.lor tos (Z.shiftl (u8 (Z.lor (Z.shiftl 4 4) (IP_HLEN / 4))) 8))) in
  let chk_sum := u32 (chk_sum + lwip_htons len) in
  let chk_sum := u32 (chk_sum + lwip_htons id) in
  let chk_sum := u32 (chk_sum + Z.land src 0xffff) in
  u32 (chk_sum + Z.shiftr src 16).
Definition chksum_finish (chk_sum : Z) : Z :=
  let chk_sum := u32 (Z.shiftr chk_sum 16 + Z.land chk_sum 0xffff) in
  let chk_sum := u32 (Z.shiftr chk_sum 16 + chk_sum) in
  u16 (u32 (Z.lnot chk_sum)).
Definition header_chksum (tos len id ttl proto src dest : Z) : Z := chksum_finish (header_sum tos len id ttl proto src dest).

Definition ip4_write_header (iphdr tot_len src dest ttl tos proto : Z) : M unit :=
  let* _ := IPH_TTL_SET iphdr ttl in
  let* _ := IPH_PROTO_SET iphdr proto in
  let* _ := poke (iphdr + 16) (le_bytes 4 dest) in
  let* _ := IPH_VHL_SET iphdr 4 (IP_HLEN / 4) in
  let* _ := IPH_TOS_SET iphdr tos in
  let* _ := IPH_LEN_SET iphdr (lwip_htons tot_len) in
  let* _ := IPH_OFFSET_SET iphdr 0 in
  let* id := gets (fun s => ip_id (sending s)) in
  let* _ := IPH_ID_SET iphdr (lwip_htons id) in
  let* _ := modify (fun s => with_sending s (Sending (u16 (ip_id (sending s) + 1)) (netif_default (sending s)))) in
  let* _ := poke (iphdr + 12) (le_bytes 4 src) in
  poke (iphdr + 10) (le_bytes 2 (header_chksum tos tot_len id ttl proto src dest)).

(** * Output *)

(** The loop interface, fragmentation and the output function of an interface. *)
Context (netif_loop_output : Z -> Z -> M Z) (ip4_frag : Z -> Z -> Z -> M Z) (netif_output : Z -> Z -> Z -> M Z).

Definition ip4_transmit (p dest netif : Z) : M Z :=
  let* _ := STATS_INC [ip_xmit] in
  let* s := gets id in
  if ip4_addr_cmp dest (ip_addr (netifs s netif)) then netif_loop_output netif p
  else
    let* b := on_lwip (deref p) in
    if negb (mtu (netifs s netif) =? 0) && (mtu (netifs s netif) <? tot_len b) then ip4_frag p netif dest
    else netif_output netif p dest.

(** A destination of NULL says that the packet has its header. *)
Definition ip4_output_if_src (p : Z) (src dest : option Z) (ttl tos proto netif : Z) : M Z :=
  let* _ := STATS_INC [ipoutrequests] in
  match dest with
  | Some dest =>
      let* r := on_lwip (pbuf_add_header p IP_HLEN) in
      if negb (r =? 0) then
        let* _ := STATS_INC [ip_err; ipoutdiscards] in ret ERR_BUF
      else
        let* b := on_lwip (deref p) in
        let* _ := ip4_write_header (payload b) (tot_len b) (default IPADDR_ANY src) dest ttl tos proto in
        ip4_transmit p dest netif
  | None =>
      let* b := on_lwip (deref p) in
      if len b <? IP_HLEN then
        let* _ := STATS_INC [ip_err; ipoutdiscards] in ret ERR_BUF
      else
        let* m := bytes_now in
        ip4_transmit p (IPH_DEST m (payload b)) netif
  end.

Definition ip4_output_if (p : Z) (src dest : option Z) (ttl tos proto netif : Z) : M Z :=
  let* s := gets id in
  let src_used :=
    match dest with
    | Some _ => if match src with Some a => ip4_addr_isany a | None => true end then Some (ip_addr (netifs s netif)) else src
    | None => src
    end in
  ip4_output_if_src p src_used dest ttl tos proto netif.

Definition ip4_output (p : Z) (src : option Z) (dest ttl tos proto : Z) : M Z :=
  let* netif := ip4_route dest in
  if netif =? 0 then
    let* _ := STATS_INC [ip_rterr] in ret ERR_RTE
  else ip4_output_if p src (Some dest) ttl tos proto netif.
End Output.

(** * What the header is *)

(** The header of RFC 791 without options, around a checksum. *)
Definition ip4_header_with (chksum tos n id ttl proto src dest : Z) : list Z :=
  [0x45; tos; n / 256; n `mod` 256; id / 256; id `mod` 256; 0; 0; ttl; proto] ++ le_bytes 2 chksum ++ le_bytes 4 src ++ le_bytes 4 dest.
Definition ip4_header (tos n id ttl proto src dest : Z) : list Z :=
  ip4_header_with (lwip_htons (Rfc1071.checksum (ip4_header_with 0 tos n id ttl proto src dest))) tos n id ttl proto src dest.

(** The fields fit. *)
Record header_fit (tos n id ttl proto src dest : Z) : Prop := {
  hf_tos : is_byte tos; hf_ttl : is_byte ttl; hf_proto : is_byte proto;
  hf_n : 0 <= n < 2 ^ 16; hf_id : 0 <= id < 2 ^ 16; hf_src : 0 <= src < 2 ^ 32; hf_dest : 0 <= dest < 2 ^ 32;
}.

Lemma htons_value w : 0 <= w < 2 ^ 16 -> lwip_htons w = w / 256 + 256 * (w `mod` 256).
Proof.
  intros Hw. unfold lwip_htons. change (Z.lor _ _) with (SWAP_BYTES_IN_WORD w). rewrite swap_value by lia.
  pose proof (Z.div_mod w 256). pose proof (Z.mod_pos_bound w 256). rewrite (wrap_small 16) by lia. lia.
Qed.

Lemma htons_bytes w : 0 <= w < 2 ^ 16 -> le_bytes 2 (lwip_htons w) = [w / 256; w `mod` 256].
Proof.
  intros Hw. pose proof (Z.div_mod w 256). pose proof (Z.mod_pos_bound w 256). assert (bytes [w / 256; w `mod` 256]) as Hb by (repeat constructor; unfold is_byte; lia).
  rewrite htons_value by done. rewrite <- (le_bytes_le_val _ Hb) at 1. cbn [length]. f_equal. rewrite le_val_val by done. cbn [val]. lia.
Qed.

Lemma pp_htons_pair a b : is_byte a -> is_byte b -> PP_HTONS (Z.lor a (Z.shiftl b 8)) = b + 256 * a.
Proof.
  intros Ha Hb. unfold is_byte in *. rewrite Z.lor_comm, lor_shiftl_add by lia. change (PP_HTONS ?x) with (lwip_htons x). rewrite htons_value by lia.
  change (2 ^ 8) with 256. rewrite Z.div_add_l, Z.div_small, (Z.add_comm (b * 256)), Z.mod_add, Z.mod_small by lia. lia.
Qed.

Lemma val_pair_to a b l t : 0 <= a -> 0 <= b -> bytes l -> 0 <= t -> oc (val l) = oc t -> oc (val (a :: b :: l)) = oc (a + 256 * b + t).
Proof. intros Ha Hb Hl Ht E. pose proof (val_nonneg _ Hl). rewrite val_pair by done. apply oc_add; [lia..|done|done]. Qed.

Lemma val_addresses src dest : 0 <= src < 2 ^ 32 -> 0 <= dest < 2 ^ 32 -> oc (val (le_bytes 4 src ++ le_bytes 4 dest)) = oc (src + dest).
Proof.
  intros Hs Hd. rewrite <- (Z.mul_1_l (val _)), val_app by (apply bytes_le_bytes || lia). change (Nat.even (length (le_bytes 4 src))) with true. cbn iota.
  by rewrite !Z.mul_1_l, !le_bytes_val.
Qed.

(** A number in two digits. *)
Lemma halves k x : 0 < k -> exists q r, x / k = q /\ x `mod` k = r /\ x = k * q + r /\ 0 <= r < k /\ (0 <= x -> 0 <= q).
Proof. intros Hk. exists (x / k), (x `mod` k). split; [done|]. split; [done|]. split; [by apply Z.div_mod; lia|]. split; [by apply Z.mod_pos_bound|by intros; apply Z.div_pos]. Qed.

(** A sum of all ones is the same in both orders of bytes. *)
Lemma rfc_sum_ones l : bytes l -> oc (val l) = 65535 -> Rfc1071.sum l = 65535.
Proof.
  intros Hl E. pose proof (rfc_sum_range _ Hl) as Hr. rewrite <- rfc_sum_val in E by done. rewrite htons_value in E by lia.
  destruct (halves 256 (Rfc1071.sum l) ltac:(lia)) as (q & r & Eq & Er & Ex & ? & ?). rewrite Eq, Er in E. lia.
Qed.

(** Two folds, the second without a mask, and the complement. *)
Lemma fold_inline x : 0 <= x < 2 ^ 32 -> chksum_finish x = 65535 - oc x.
Proof.
  intros Hx. change (chksum_finish x) with (u16 (u32 (Z.lnot (u32 (Z.shiftr (FOLD_U32T x) 16 + FOLD_U32T x))))). rewrite <- (fold_twice x) by done. destruct (fold_value x Hx) as [_ Hf]. generalize dependent (FOLD_U32T x). intros f Hf.
  destruct (fold_value f ltac:(lia)) as [E _]. pose proof (fold_once f Hf) as Ef. pose proof (oc_range f). rewrite E in *.
  rewrite Z.shiftr_div_pow2 by lia. change (2 ^ 16) with 65536. destruct (halves 65536 f ltac:(lia)) as (q & r & -> & Er & Efq & ? & ?). rewrite Er in *. clear E Er.
  assert (q = 0 \/ q = 1) as Hq by lia. rewrite (wrap_small 32 (q + f)) by lia. unfold Z.lnot. unfold wrap at 2. change (2 ^ 32) with 4294967296.
  rewrite <- (Z.mod_unique (Z.pred (- (q + f))) 4294967296 (-1) (4294967295 - (q + f))) by lia. unfold wrap. change (2 ^ 16) with 65536.
  symmetry. apply (Z.mod_unique _ _ (65535 - q)); lia.
Qed.

Section HeaderSum.
Context (tos n id ttl proto src dest : Z) (Hfit : header_fit tos n id ttl proto src dest).

Lemma header_bytes c : bytes (ip4_header_with c tos n id ttl proto src dest).
Proof using Hfit.
  destruct Hfit as [? ? ? ? ? ? ?]. unfold ip4_header_with. rewrite !Forall_app. pose proof (Z.div_mod n 256). pose proof (Z.mod_pos_bound n 256). pose proof (Z.div_mod id 256). pose proof (Z.mod_pos_bound id 256).
  split_and!; try apply bytes_le_bytes. repeat constructor; unfold is_byte in *; lia.
Qed.

(** The words of the header, with the checksum among them. *)
Definition header_words (c : Z) : Z :=
  0x45 + 256 * tos + (n / 256 + 256 * (n `mod` 256) + (id / 256 + 256 * (id `mod` 256) + (0 + 256 * 0 + (ttl + 256 * proto + (c + (src + dest)))))).

Lemma header_value c : 0 <= c < 2 ^ 16 -> oc (val (ip4_header_with c tos n id ttl proto src dest)) = oc (header_words c).
Proof using Hfit.
  intros Hc. pose proof (header_bytes c) as Hb. destruct Hfit as [Htos Httl Hproto Hn Hid Hsrc Hdest]. unfold is_byte in *. unfold ip4_header_with, header_words in *. cbn [app] in *.
  pose proof (Z.div_mod n 256). pose proof (Z.mod_pos_bound n 256). pose proof (Z.div_mod id 256). pose proof (Z.mod_pos_bound id 256).
  do 5 (apply val_pair_to; [lia|lia|do 2 apply Forall_inv_tail in Hb; exact Hb|lia|do 2 apply Forall_inv_tail in Hb]).
  rewrite <- (Z.mul_1_l (val _)), val_app by (try apply Forall_app; try split; try apply bytes_le_bytes; lia). change (Nat.even (length (le_bytes 2 c))) with true. cbn iota.
  rewrite !Z.mul_1_l, le_bytes_val by (change (2 ^ (8 * Z.of_nat 2)) with 65536; lia).
  pose proof (val_nonneg (le_bytes 4 src ++ le_bytes 4 dest) ltac:(apply Forall_app; split; apply bytes_le_bytes)).
  apply oc_add; [lia..|done|by apply val_addresses].
Qed.

Lemma header_sum_value : 0 <= header_sum tos n id ttl proto src dest < 2 ^ 32 /\ oc (header_sum tos n id ttl proto src dest) = oc (header_words 0).
Proof using Hfit.
  destruct Hfit as [Htos Httl Hproto Hn Hid Hsrc Hdest]. unfold header_sum. rewrite pp_htons_pair by done.
  change (u8 (Z.lor (Z.shiftl 4 4) (IP_HLEN / 4))) with 0x45. rewrite pp_htons_pair, !htons_value by done. unfold is_byte in *.
  change 0xffff with (Z.ones 16). rewrite !Z.land_ones, !Z.shiftr_div_pow2 by lia. change (2 ^ 16) with 65536. unfold wrap, header_words.
  destruct (halves 256 n ltac:(lia)) as (n1 & n0 & -> & -> & En & ? & ?). destruct (halves 256 id ltac:(lia)) as (i1 & i0 & -> & -> & Ei & ? & ?).
  destruct (halves 65536 src ltac:(lia)) as (s1 & s0 & -> & -> & Es & ? & ?). destruct (halves 65536 dest ltac:(lia)) as (d1 & d0 & -> & -> & Ed & ? & ?).
  repeat match goal with |- context[?x `mod` 2 ^ 32] => lazymatch x with context[_ `mod` _] => fail | _ => rewrite (Z.mod_small x (2 ^ 32)) by lia end end. split; [lia|]. symmetry.
  apply (oc_eq _ _ (s1 + d1)); lia.
Qed.

(** The inline sum is the checksum of RFC 1071. *)
Lemma header_chksum_rfc : header_chksum tos n id ttl proto src dest = lwip_htons (Rfc1071.checksum (ip4_header_with 0 tos n id ttl proto src dest)).
Proof using Hfit.
  rewrite rfc_checksum_val by apply header_bytes. rewrite header_value by lia. destruct header_sum_value as [Hr <-]. by apply fold_inline.
Qed.

(** The sum over the header with its checksum is all ones. *)
Lemma header_verifies : Rfc1071.sum (ip4_header tos n id ttl proto src dest) = 65535.
Proof using Hfit.
  assert (exists c, ip4_header tos n id ttl proto src dest = ip4_header_with c tos n id ttl proto src dest /\ c = 65535 - oc (header_words 0)) as (c & -> & Ec).
  { eexists. split; [reflexivity|]. rewrite rfc_checksum_val by apply header_bytes. by rewrite header_value by lia. }
  pose proof (header_bytes c) as Hb. pose proof (oc_range (header_words 0)).
  assert (0 <= header_words 0) as H0. { destruct Hfit as [? ? ? ? ? ? ?]. unfold header_words, is_byte in *. pose proof (Z.div_pos n 256). pose proof (Z.mod_pos_bound n 256). pose proof (Z.div_pos id 256). pose proof (Z.mod_pos_bound id 256). lia. }
  apply rfc_sum_ones; [done|]. rewrite header_value by lia. replace (header_words c) with (header_words 0 + c) by (unfold header_words; lia).
  rewrite Ec. by apply oc_complement.
Qed.
End HeaderSum.

(** * What output promises *)

Section Promises.
Context {H : Type}.

(** The interface for a destination: the first in the list that is on its network or
    leads to it, or the one of last resort. *)
Definition ip4_reaches (s : net H) (dest a : Z) : bool :=
  let n := netifs s a in
  usable n && (ip4_addr_netcmp dest (ip_addr n) (netmask n) || (Z.land (nif_flags n) NETIF_FLAG_BROADCAST =? 0) && (dest =? gw n)).
Definition ip4_path (s : net H) (dest : Z) : option Z :=
  match List.find (ip4_reaches s dest) (netif_list s) with
  | Some a => Some a
  | None => let d := netif_default (sending s) in if negb (d =? 0) && usable (netifs s d) then Some d else None
  end.

(** There is room for a header of [k] bytes, and the length does not overflow. *)
Definition header_room (k p : Z) (b : struct_pbuf) : bool :=
  (k + tot_len b <? 2 ^ 16) && bool_decide (contiguous b) && (p + 24 <=? payload b - k).

Lemma route_loop_find (s : net H) dest l : Forall (fun a => a <> 0) l ->
  match List.find (ip4_reaches s dest) l with Some a => route_loop s dest l = a /\ a <> 0 | None => route_loop s dest l = 0 end.
Proof.
  induction 1 as [|a l Ha _ IH]; [done|]. cbn [List.find route_loop]. unfold ip4_reaches at 1. unfold ip4_addr_cmp.
  by destruct (usable _ && _).
Qed.

(** A state that differs in its counters. *)
Definition ticked (cs : list counter) (s : net H) : net H := with_stats s (counted cs (stats s)).
Lemma stats_inc_bind {A} cs (k : unit -> prog (net H) A) s : bind (STATS_INC cs) k s = k tt (ticked cs s).
Proof. done. Qed.
Lemma gets_id_bind {A} (k : net H -> prog (net H) A) s : bind (gets id) k s = k s s.
Proof. done. Qed.

Lemma ip4_route_run dest (s : net H) : Forall (fun a => a <> 0) (netif_list s) ->
  match ip4_path s dest with
  | Some a => ip4_route dest s = Some (a, s) /\ a <> 0
  | None => ip4_route dest s = Some (0, ticked [ip_rterr; ipoutnoroutes] s)
  end.
Proof.
  intros Hl. unfold ip4_path, ip4_route. rewrite gets_id_bind. pose proof (route_loop_find s dest (netif_list s) Hl) as Hf.
  destruct (List.find _ _) as [a|]; [destruct Hf as [-> Ha]; by rewrite (proj2 (Z.eqb_neq _ _) Ha)|]. rewrite Hf. cbn [Z.eqb negb].
  destruct (Z.eqb_spec (netif_default (sending s)) 0); cbn [orb negb andb]; [done|]. by destruct (usable _).
Qed.

(** The state with other bytes. *)
Definition at_mem (s : net H) (m : mem) : net H := set_lwip (put_data m (stack s)) s.
Lemma at_mem_same s : at_mem s (data (stack s)) = s.
Proof. by destruct s as [[]]. Qed.
Lemma poke_bind {A} a bs (k : unit -> prog (net H) A) s m : bind (poke a bs) k (at_mem s m) = k tt (at_mem s (store m a bs)).
Proof. done. Qed.
Lemma poke_run a bs s m : poke a bs (at_mem s m) = Some (tt, at_mem s (store m a bs)).
Proof. done. Qed.
End Promises.

Section Sending.
Context {H : Type} `{OL : OutsideLaws H}.

Lemma load_store_at m a b bs n : n = length bs -> a = b -> load (store m a bs) b n = bs.
Proof. intros Hn ->. by apply load_store_eq. Qed.

(** The header in memory, and the next identification. *)
Lemma write_header_at hdr n src dest ttl tos proto (s : net H) m : header_fit tos n (ip_id (sending s)) ttl proto src dest ->
  exists m', ip4_write_header hdr n src dest ttl tos proto (at_mem s m) =
      Some (tt, at_mem (with_sending s (Sending (u16 (ip_id (sending s) + 1)) (netif_default (sending s)))) m') /\
    load m' hdr 20 = ip4_header tos n (ip_id (sending s)) ttl proto src dest /\
    (forall x, x < hdr \/ hdr + 20 <= x -> m' x = m x) /\ (all_bytes m -> all_bytes m').
Proof.
  intros Hfit. unfold ip4_write_header, IPH_TTL_SET, IPH_PROTO_SET, IPH_VHL_SET, IPH_TOS_SET, IPH_LEN_SET, IPH_OFFSET_SET, IPH_ID_SET.
  rewrite !poke_bind. set (m1 := store _ (hdr + 6) _).
  rewrite (bind_some (gets _) _ (at_mem s m1) (ip_id (sending s)) (at_mem s m1) eq_refl). rewrite poke_bind.
  set (s1 := with_sending s _). set (m2 := store m1 _ _). rewrite (bind_some (modify _) _ (at_mem s m2) tt (at_mem s1 m2) eq_refl). rewrite poke_bind, poke_run.
  rewrite (header_chksum_rfc _ _ _ _ _ _ _ Hfit). eexists. split; [reflexivity|]. pose proof (header_bytes _ _ _ _ _ _ _ Hfit 0) as Hb. destruct Hfit as [Htos Httl Hproto Hn Hid Hsrc Hdest].
  unfold m2, m1. rewrite !htons_bytes by done. rewrite !u8_small by done. change (le_bytes 2 0) with [0; 0]. change (u8 (Z.lor (Z.shiftl 4 4) (IP_HLEN / 4))) with 0x45.
  unfold ip4_header. set (c := lwip_htons _). clearbody c. split; [|split].
  - unfold ip4_header_with. change ([0x45; tos; n / 256; n `mod` 256; ?a; ?b; 0; 0; ttl; proto] ++ ?l) with ([0x45] ++ [tos] ++ [n / 256; n `mod` 256] ++ [a; b] ++ [0; 0] ++ [ttl] ++ [proto] ++ l).
    change 20%nat with (1 + (1 + (2 + (2 + (2 + (1 + (1 + (2 + (4 + 4)))))))))%nat. rewrite !load_app.
    repeat apply (f_equal2 app).
    all: repeat first [rewrite load_store_ne by (unfold disjoint; rewrite ?length_le_bytes; cbn [length]; lia)|apply load_store_at; [rewrite ?length_le_bytes; reflexivity|lia]].
  - intros x Hx. rewrite !store_out by (rewrite ?length_le_bytes; cbn [length]; lia). done.
  - intros Hm. apply Forall_app in Hb as [Hb _]. rewrite !Forall_cons in Hb. destruct Hb as (? & ? & ? & ? & ? & ? & ? & ? & ? & ? & ?).
    repeat (apply is_byte_store; [|first [apply bytes_le_bytes|by repeat (apply List.Forall_cons; [assumption|]); apply List.Forall_nil]]). done.
Qed.

Lemma header_length tos n id ttl proto src dest : length (ip4_header tos n id ttl proto src dest) = 20%nat.
Proof. unfold ip4_header, ip4_header_with. by rewrite !length_app, !length_le_bytes. Qed.

Lemma write_header_run hdr n src dest ttl tos proto (s : net H) : header_fit tos n (ip_id (sending s)) ttl proto src dest ->
  exists m', ip4_write_header hdr n src dest ttl tos proto s =
      Some (tt, at_mem (with_sending s (Sending (u16 (ip_id (sending s) + 1)) (netif_default (sending s)))) m') /\
    load m' hdr 20 = ip4_header tos n (ip_id (sending s)) ttl proto src dest /\
    (forall x, x < hdr \/ hdr + 20 <= x -> m' x = data (stack s) x) /\ (all_bytes (data (stack s)) -> all_bytes m').
Proof. intros Hfit. pose proof (write_header_at hdr n src dest ttl tos proto s (data (stack s)) Hfit) as Hw. by rewrite at_mem_same in Hw. Qed.

Context (netif_loop_output : Z -> Z -> prog (net H) Z) (ip4_frag netif_output : Z -> Z -> Z -> prog (net H) Z).

(** Who gets the finished packet of [n] bytes: this host, fragmentation if it is
    longer than the interface takes, or the interface. *)
Definition ip4_next (s : net H) (p n dest netif : Z) : prog (net H) Z :=
  let nif := netifs s netif in
  if dest =? ip_addr nif then netif_loop_output netif p
  else if (0 <? mtu nif) && (mtu nif <? n) then ip4_frag p netif dest
  else netif_output netif p dest.

Lemma transmit_run p dest netif l b own (s : net H) : owned (stack s) own p l b -> 0 <= mtu (netifs s netif) ->
  ip4_transmit netif_loop_output ip4_frag netif_output p dest netif s = ip4_next s p (tot_len b) dest netif (ticked [ip_xmit] s).
Proof.
  intros Ho Hmtu. unfold ip4_transmit, ip4_next. rewrite stats_inc_bind, gets_id_bind. change (netifs (ticked [ip_xmit] s)) with (netifs s). unfold ip4_addr_cmp.
  destruct (dest =? ip_addr (netifs s netif)); [done|].
  rewrite (on_lwip_bind _ _ (ticked [ip_xmit] s) b (stack s)); [|change (lwip_of _) with (stack s); unfold deref; by rewrite (ow_first _ _ _ _ _ Ho)].
  assert (set_lwip (stack s) (ticked [ip_xmit] s) = ticked [ip_xmit] s) as -> by (by destruct s).
  assert (negb (mtu (netifs s netif) =? 0) = (0 <? mtu (netifs s netif))) as -> by (destruct (Z.eqb_spec (mtu (netifs s netif)) 0), (Z.ltb_spec 0 (mtu (netifs s netif))); done || lia).
  by destruct (_ && _).
Qed.

(** The packet with its header, on its way. *)
Record ip4_sent (own : owners) (p : Z) (l : list Z) (b b1 : struct_pbuf) (hdr : list Z) (s s1 : net H) : Prop := {
  is_owned : owned (stack s1) own p l b1;
  is_content : content (stack s1) l = hdr ++ content (stack s) l;
  is_first : len b1 = 20 + len b;
  is_bytes : all_bytes (data (stack s)) -> all_bytes (data (stack s1));
  is_id : sending s1 = Sending (u16 (ip_id (sending s) + 1)) (netif_default (sending s));
  is_rest : aside s s1 /\ ip_data s1 = ip_data s;
}.

Lemma output_if_src_run p src dest ttl tos proto netif l b own (s : net H) :
  owned (stack s) own p l b -> 0 <= mtu (netifs s netif) ->
  is_byte tos -> is_byte ttl -> is_byte proto -> 0 <= ip_id (sending s) < 2 ^ 16 -> 0 <= default 0 src < 2 ^ 32 -> 0 <= dest < 2 ^ 32 ->
  clear_of (payload b - 20) 20 (drop 1 (parts (heap (stack s)) l)) ->
  let send := ip4_output_if_src netif_loop_output ip4_frag netif_output p src (Some dest) ttl tos proto netif s in
  let n := 20 + tot_len b in
  let hdr := ip4_header tos n (ip_id (sending s)) ttl proto (default 0 src) dest in
  if header_room 20 p b then
    exists s1 b1, send = ip4_next s p n dest netif s1 /\ ip4_sent own p l b b1 hdr s s1 /\ stats s1 = counted [ipoutrequests; ip_xmit] (stats s)
  else send = Some (ERR_BUF, ticked [ipoutrequests; ip_err; ipoutdiscards] s).
Proof.
  intros Ho Hmtu Htos Httl Hproto Hid Hsrc Hdest Hcl send n hdr. unfold send, ip4_output_if_src. clear send. rewrite stats_inc_bind. set (s0 := ticked [ipoutrequests] s).
  pose proof (owned_add_header (stack s) own p l b 20 Ho ltac:(lia)) as Hadd. unfold header_room.
  destruct (_ && _) eqn:Eroom.
  - destruct Hadd as (t & b' & E & Ho' & Hd & Hc & Hp & Hl & _ & Hparts). apply andb_true_iff in Eroom as [[Hn%Z.ltb_lt _]%andb_true_iff _].
    rewrite (on_lwip_bind _ _ s0 _ _ E). cbn [Z.eqb negb]. set (s2 := set_lwip t s0).
    destruct (owned_facts _ _ _ _ _ Ho) as (_ & Hle & Et & _). destruct (owned_facts _ _ _ _ _ Ho') as (_ & _ & Et' & _).
    assert (tot_len b' = n) as En by (rewrite Et', Hc, length_app, length_load, Nat2Z.inj_add, <- Et; unfold n; lia).
    rewrite (on_lwip_bind _ _ s2 b' t); [|change (lwip_of s2) with t; unfold deref; by rewrite (ow_first _ _ _ _ _ Ho')].
    assert (set_lwip t s2 = s2) as -> by done. rewrite En, Hp. change (default IPADDR_ANY src) with (default 0 src).
    destruct (write_header_run (payload b - 20) n (default 0 src) dest ttl tos proto s2) as (m' & Ew & Hload & Hout & Hbytes); [split; try done; unfold n; lia|].
    rewrite (bind_some _ _ _ _ _ Ew). set (s3 := at_mem _ m'). change (sending s2) with (sending s) in Hload. fold hdr in Hload. change (data (stack s2)) with (data t) in Hout, Hbytes.
    assert (length hdr = 20%nat) as Hlh by apply header_length.
    destruct (owned_write t own p l b' hdr m' Ho') as [Ho3 Hc3]; [lia|by rewrite Hp, Hlh|rewrite Hp, Hlh; done|rewrite Hp, Hlh, Hparts; exact Hcl|].
    rewrite (transmit_run p dest netif l b' own s3 Ho3 Hmtu). rewrite En. change (ip4_next s3) with (ip4_next s).
    exists (ticked [ip_xmit] s3), b'. split; [done|]. split; [|done]. split; [exact Ho3| |lia|by rewrite Hd in Hbytes|done|by split].
    change (stack (ticked [ip_xmit] s3)) with (put_data m' t). rewrite Hc3, Hc, Hlh, drop_app_length' by (by rewrite length_load). done.
  - rewrite (on_lwip_bind _ _ s0 _ _ Hadd). by destruct s.
Qed.


(** C23 A packet is sent by the interface for its destination, with the address of
    that interface if it has none: the header of RFC 791 with its length, the next
    identification and a checksum that verifies goes in front of its bytes, and it
    goes to this host, to fragmentation if it is longer than the interface takes, or
    to the interface. Without a route or without room for the header nothing is sent,
    the packet is as it was, and the error is counted (that of a missing route twice). *)
Theorem ip4_output_correct p src dest ttl tos proto l b own (s : net H) :
  owned (stack s) own p l b -> Forall (fun a => a <> 0) (netif_list s) -> (forall a, 0 <= mtu (netifs s a) /\ 0 <= ip_addr (netifs s a) < 2 ^ 32) ->
  is_byte tos -> is_byte ttl -> is_byte proto -> 0 <= ip_id (sending s) < 2 ^ 16 -> 0 <= default 0 src < 2 ^ 32 -> 0 <= dest < 2 ^ 32 ->
  clear_of (payload b - 20) 20 (drop 1 (parts (heap (stack s)) l)) ->
  let send := ip4_output netif_loop_output ip4_frag netif_output p src dest ttl tos proto s in
  let n := 20 + tot_len b in
  match ip4_path s dest with
  | None => send = Some (ERR_RTE, ticked [ip_rterr; ipoutnoroutes; ip_rterr] s)
  | Some netif =>
      let from := if default 0 src =? 0 then ip_addr (netifs s netif) else default 0 src in
      let hdr := ip4_header tos n (ip_id (sending s)) ttl proto from dest in
      if header_room 20 p b then
        exists s1 b1, send = ip4_next s p n dest netif s1 /\ ip4_sent own p l b b1 hdr s s1 /\ Rfc1071.sum hdr = 65535
      else send = Some (ERR_BUF, ticked [ipoutrequests; ip_err; ipoutdiscards] s)
  end.
Proof.
  intros Ho Hlist Hnif Htos Httl Hproto Hid Hsrc Hdest Hcl send n. unfold send, ip4_output. clear send.
  pose proof (ip4_route_run dest s Hlist) as Hr. destruct (ip4_path s dest) as [netif|].
  - destruct Hr as [Hr Hn0]. rewrite (bind_some _ _ _ _ _ Hr), (proj2 (Z.eqb_neq _ _) Hn0). unfold ip4_output_if. rewrite gets_id_bind. cbn zeta.
    set (from := if default 0 src =? 0 then _ else _). destruct (Hnif netif) as [Hmtu Haddr].
    assert (exists src', (if match src with Some a => ip4_addr_isany a | None => true end then Some (ip_addr (netifs s netif)) else src) = Some src' /\ src' = from) as (src' & -> & ->).
    { unfold from. destruct src as [a|]; [|by eexists]. change (default 0 (Some a)) with a. unfold ip4_addr_isany, IPADDR_ANY. destruct (a =? 0); eexists; split; reflexivity. }
    assert (0 <= from < 2 ^ 32) as Hfrom by (unfold from; by destruct (_ =? 0)).
    pose proof (output_if_src_run p (Some from) dest ttl tos proto netif l b own s Ho Hmtu Htos Httl Hproto Hid Hfrom Hdest Hcl) as Hs. cbn zeta in Hs. fold n in Hs. change (default 0 (Some from)) with from in Hs.
    destruct (header_room 20 p b) eqn:Eroom; [|done]. destruct Hs as (s1 & b1 & E & Hsent & _). exists s1, b1. split; [done|]. split; [done|].
    apply header_verifies. apply andb_true_iff in Eroom as [[Hlt%Z.ltb_lt _]%andb_true_iff _]. destruct (owned_facts _ _ _ _ _ Ho) as (_ & Hle & _). split; try done. unfold n. lia.
  - rewrite (bind_some _ _ _ _ _ Hr). by destruct s.
Qed.

(** * The way back *)

(** The fields that a receiver reads. *)
Lemma header_fields_read tos n id ttl proto src dest rest : header_fit tos n id ttl proto src dest ->
  let B := ip4_header tos n id ttl proto src dest ++ rest in
  field B 0 1 = 0x45 /\ be16 B 2 = n /\ fragment B = false /\ field B 9 1 = proto /\ field B 12 4 = src /\ field B 16 4 = dest.
Proof.
  intros [Htos Httl Hproto Hn Hid Hsrc Hdest] B. subst B. unfold ip4_header. generalize (lwip_htons (Rfc1071.checksum (ip4_header_with 0 tos n id ttl proto src dest))). intros c.
  assert (forall o x, (ip4_header_with c tos n id ttl proto src dest ++ rest) !! o = Some x -> field (ip4_header_with c tos n id ttl proto src dest ++ rest) o 1 = x) as Hone by (intros; by apply field_one).
  unfold fragment, be16. rewrite (Hone 0%nat 0x45), (Hone 2%nat (n / 256)), (Hone 3%nat (n `mod` 256)), (Hone 6%nat 0), (Hone 7%nat 0), (Hone 9%nat proto) by reflexivity.
  split; [done|]. split; [symmetry; apply Z.div_mod; lia|]. split; [done|]. split; [done|]. 
  unfold field. change (take 4 (drop 12 _)) with (le_bytes 4 src). change (take 4 (drop 16 _)) with (le_bytes 4 dest).
  by rewrite !le_val_le_bytes, !wrap_small.
Qed.

(** The packet is for the interface that it comes in by. *)
Record ip4_expected (s : net H) (inp src dest : Z) : Prop := {
  ie_up : netif_is_up (netifs s inp) = true;
  ie_addr : ip_addr (netifs s inp) = dest;
  ie_dest : dest <> 0 /\ ip4_addr_ismulticast dest = false;
  ie_src : ip4_addr_isbroadcast src (netifs s inp) = false /\ ip4_addr_ismulticast src = false;
  ie_inp : inp <> 0;
}.

Lemma ip4_header_delivers tos id ttl proto src dest D rest (s : net H) inp first :
  let n := 20 + Z.of_nat (length D) in
  let B := ip4_header tos n id ttl proto src dest ++ D ++ rest in
  header_fit tos n id ttl proto src dest -> ip4_expected s inp src dest -> 20 <= first ->
  ip4_verdict s inp first B = Deliver 20 n inp proto /\ drop 20 (take (Z.to_nat n) B) = D.
Proof.
  intros n B Hfit [Hup Haddr [Hd0 Hdm] [Hsb Hsm] Hinp] Hfirst.
  destruct (header_fields_read tos n id ttl proto src dest (D ++ rest) Hfit) as (F0 & F2 & Ff & F9 & F12 & F16). fold B in F0, F2, Ff, F9, F12, F16.
  assert (Z.of_nat (length B) = n + Z.of_nat (length rest)) as HlB by (unfold B, n; rewrite !length_app, header_length; lia). split.
  - unfold ip4_verdict, ip4_header_ok. rewrite F0, F2, Ff, F9, F12, Hsb, Hsm. change (4 * (69 mod 16)) with 20. change (69 / 16 =? 4) with true. unfold IP_HLEN.
    rewrite !(proj2 (Z.leb_le _ _)) by (unfold n; lia). cbn [andb negb orb].
    assert (ip4_input_netif (addressed s B) inp = inp) as ->.
    { unfold ip4_input_netif, ip4_input_accept, addressed. cbn [with_ip ip_data current_iphdr_dest netifs]. rewrite F16, Hdm, Hup, Haddr.
      unfold ip4_addr_isany, ip4_addr_cmp, IPADDR_ANY. rewrite Z.eqb_refl, (proj2 (Z.eqb_neq _ _) Hd0). done. }
    by rewrite (proj2 (Z.eqb_neq _ _) Hinp).
  - unfold B. rewrite app_assoc, take_app_length' by (rewrite length_app, header_length; unfold n; lia). apply drop_app_length'. by rewrite header_length.
Qed.
End Sending.

(** * Example *)

(** The datagram of 11 bytes that is sent to 10.112.73.1. *)
Definition demo_payload : list Z := [0x12; 0x34; 0x14; 0x00; 0; 11; 0; 0; 1; 2; 3].

Lemma demo_outgoing B : bytes B -> length B = 11%nat ->
  exists s own, owned s own 65544 [65544] (part 0 65622 11 11) /\ all_bytes (data s) /\ content s [65544] = B.
Proof. intros HB Hlen. apply (packet_after (demo_calls PBUF_TRANSPORT 11)); [vm_compute; reflexivity|done..]. Qed.

Lemma ip4_output_correct_witness : exists (s s1 : net arena) own b,
  owned (stack s) own 65544 [65544] b /\ content (stack s) [65544] = demo_payload /\
  ip4_output (fun _ _ => stuck) (fun _ _ _ => stuck) (fun _ _ _ => ret 0) 65544 None (PP_HTONL 0x0a704901) 64 0 17 s = Some (0, s1) /\
  content (stack s1) [65544] =
    [0x45; 0; 0; 31; 0; 0; 0; 0; 64; 17; 211; 157; 10; 112; 73; 80; 10; 112; 73; 1] ++ demo_payload.
Proof.
  destruct (demo_outgoing demo_payload) as (t & own & Ho & Hm & Hc); [forall_list; by vm_compute|reflexivity|]. set (s := demo_net t no_udp).
  pose proof (ip4_output_correct (fun _ _ => stuck) (fun _ _ _ => stuck) (fun _ _ _ => ret 0) 65544 None (PP_HTONL 0x0a704901) 64 0 17 [65544] (part 0 65622 11 11) own s Ho) as Hsend.
  cbn zeta in Hsend.
  assert (ip4_path s (PP_HTONL 0x0a704901) = Some 8) as Ep by reflexivity. rewrite Ep in Hsend.
  assert (header_room 20 65544 (part 0 65622 11 11) = true) as Er by reflexivity. rewrite Er in Hsend.
  destruct Hsend as (s1 & b1 & E & Hsent & _); [by repeat constructor|by intros a|done|done|done|done|done|done| |].
  - cbn [drop]. apply Forall_forall. intros x Hx. change (heap (stack s)) with (heap t) in Hx. rewrite (parts_cons _ _ _ _ (ow_first _ _ _ _ _ Ho)) in Hx. by apply elem_of_nil in Hx.
  - exists s, s1, own, (part 0 65622 11 11). split; [exact Ho|]. split; [exact Hc|]. split; [rewrite E; reflexivity|].
    rewrite (is_content _ _ _ _ _ _ _ _ Hsent). change (content (stack s) [65544]) with (content t [65544]). rewrite Hc. reflexivity.
Defined.
