(* ===== verification/Udp.v ===== *)
(** UDP connections of the lwIP stack (udp.cpp): creation, binding, connection and removal,
    and the invariant of the list that they are in. *)

From Stdlib Require Import ZArith Lia Bool.
From stdpp Require Import base list gmap.
From S2P Require Import Prelude Hw Chksum RingBuffer Pbuf PbufRef PbufOps PbufData PbufHistory PbufContent Ip4.

Definition UDP_HLEN : Z := 8.
Definition UDP_TTL : Z := 255.
Definition UDP_FLAGS_CONNECTED : Z := 0x04.
Definition UDP_LOCAL_PORT_RANGE_START : Z := 0xc000.
Definition UDP_LOCAL_PORT_RANGE_END : Z := 0xffff.
Definition ERR_USE : Z := -8.
Definition ICMP_DUR_PORT : Z := 3.

Definition set_local (ip port : Z) (r : udp_pcb) : udp_pcb :=
  UdpPcb ip (remote_ip r) (netif_idx r) (so_options r) (tos r) (ttl r) (udp_next r) (udp_flags r) port (remote_port r) (recv r) (recv_arg r).
Definition set_remote (ip port flags : Z) (r : udp_pcb) : udp_pcb :=
  UdpPcb (local_ip r) ip (netif_idx r) (so_options r) (tos r) (ttl r) (udp_next r) flags (local_port r) port (recv r) (recv_arg r).
Definition set_netif_idx (i : Z) (r : udp_pcb) : udp_pcb :=
  UdpPcb (local_ip r) (remote_ip r) i (so_options r) (tos r) (ttl r) (udp_next r) (udp_flags r) (local_port r) (remote_port r) (recv r) (recv_arg r).
Definition set_udp_next (n : Z) (r : udp_pcb) : udp_pcb :=
  UdpPcb (local_ip r) (remote_ip r) (netif_idx r) (so_options r) (tos r) (ttl r) n (udp_flags r) (local_port r) (remote_port r) (recv r) (recv_arg r).
Definition set_recv (f arg : Z) (r : udp_pcb) : udp_pcb :=
  UdpPcb (local_ip r) (remote_ip r) (netif_idx r) (so_options r) (tos r) (ttl r) (udp_next r) (udp_flags r) (local_port r) (remote_port r) f arg.

(** * Connections *)

(** Lists are walked with [fuel], a bound on their length. *)
Section Pcbs.
Context (fuel : nat).
Abbreviation U := (prog udp_state).

Definition pcb_of (a : Z) : U udp_pcb := if a =? 0 then stuck else gets (fun u => udp_pcb_at u a).
Definition put_pcb (a : Z) (f : udp_pcb -> udp_pcb) (u : udp_state) : udp_state :=
  UdpState (udp_pcbs u) (fun x => if decide (x = a) then f (udp_pcb_at u a) else udp_pcb_at u x) (udp_port u) (udp_pool u).
Definition at_pcb (a : Z) (f : udp_pcb -> udp_pcb) : U unit := if a =? 0 then stuck else modify (put_pcb a f).
Definition set_first (a : Z) (u : udp_state) : udp_state := UdpState a (udp_pcb_at u) (udp_port u) (udp_pool u).
Definition set_port (n : Z) (u : udp_state) : udp_state := UdpState (udp_pcbs u) (udp_pcb_at u) n (udp_pool u).
Definition set_pool (st : stats_mem) (u : udp_state) : udp_state := UdpState (udp_pcbs u) (udp_pcb_at u) (udp_port u) st.

(** A loop over [udp_pcbs] that ends at the first connection with [f]. *)
Fixpoint walk_pcbs (n : nat) (f : Z -> udp_pcb -> bool) (pcb : Z) : U bool :=
  if pcb =? 0 then ret false else
  match n with
  | O => stuck
  | S n =>
      let* r := pcb_of pcb in
      if f pcb r then ret true else walk_pcbs n f (udp_next r)
  end.
Definition any_pcb (f : Z -> udp_pcb -> bool) : U bool :=
  let* first := gets udp_pcbs in walk_pcbs fuel f first.

Definition udp_init : U unit := ret tt.

Definition next_port (port : Z) : Z := if port =? UDP_LOCAL_PORT_RANGE_END then UDP_LOCAL_PORT_RANGE_START else u16 (port + 1).
(** From the label [again]; there are as many rounds as ports in the range. *)
Fixpoint new_port_loop (rounds : nat) (n : Z) : U Z :=
  match rounds with
  | O => stuck
  | S rounds =>
      let* _ := modify (fun u => set_port (next_port (udp_port u)) u) in
      let* port := gets udp_port in
      let* used := any_pcb (fun _ r => local_port r =? port) in
      if used then
        let n := u16 (n + 1) in
        if UDP_LOCAL_PORT_RANGE_END - UDP_LOCAL_PORT_RANGE_START <? n then ret 0 else new_port_loop rounds n
      else ret port
  end.
Definition udp_new_port : U Z := new_port_loop (Z.to_nat (UDP_LOCAL_PORT_RANGE_END - UDP_LOCAL_PORT_RANGE_START + 1)) 0.

Definition add_pcb (pcb : Z) : U unit :=
  let* first := gets udp_pcbs in
  let* _ := at_pcb pcb (set_udp_next first) in
  modify (set_first pcb).

(** The address may be NULL. *)
Definition udp_bind (pcb : Z) (ipaddr : option Z) (port : Z) : U Z :=
  let ipaddr := match ipaddr with Some ip => ip | None => IPADDR_ANY end in
  if pcb =? 0 then ret ERR_VAL else
  let* rebind := any_pcb (fun ipcb _ => pcb =? ipcb) in
  let* port' :=
    if port =? 0 then udp_new_port
    else
      let* used := any_pcb (fun ipcb r => negb (pcb =? ipcb) && (local_port r =? port) && ip4_addr_cmp (local_ip r) ipaddr) in
      ret (if used then 0 else port) in
  if port' =? 0 then ret ERR_USE else
  let* _ := at_pcb pcb (set_local ipaddr port') in
  let* _ := when (negb rebind) (add_pcb pcb) in
  ret ERR_OK.

Definition udp_bind_netif (pcb : Z) (netif : option netif) : U unit :=
  at_pcb pcb (set_netif_idx (match netif with Some n => netif_get_index n | None => NETIF_NO_INDEX end)).

Definition udp_connect (pcb : Z) (ipaddr : option Z) (port : Z) : U Z :=
  match ipaddr with
  | None => ret ERR_VAL
  | Some ip =>
      if pcb =? 0 then ret ERR_VAL else
      let* r := pcb_of pcb in
      let* err := if local_port r =? 0 then udp_bind pcb (Some (local_ip r)) (local_port r) else ret ERR_OK in
      if negb (err =? ERR_OK) then ret err else
      let* _ := at_pcb pcb (fun r => set_remote ip port (Z.lor (udp_flags r) UDP_FLAGS_CONNECTED) r) in
      let* listed := any_pcb (fun ipcb _ => pcb =? ipcb) in
      let* _ := when (negb listed) (add_pcb pcb) in
      ret ERR_OK
  end.

Definition udp_disconnect (pcb : Z) : U unit :=
  at_pcb pcb (fun r => set_netif_idx NETIF_NO_INDEX (set_remote IPADDR_ANY 0 (u8 (Z.land (udp_flags r) (Z.lnot UDP_FLAGS_CONNECTED))) r)).

Definition udp_recv (pcb f arg : Z) : U unit := at_pcb pcb (set_recv f arg).

(** The loop of [udp_remove] after the first connection. *)
Fixpoint unlink_loop (n : nat) (pcb pcb2 : Z) : U unit :=
  if pcb2 =? 0 then ret tt else
  match n with
  | O => stuck
  | S n =>
      let* r2 := pcb_of pcb2 in
      if negb (udp_next r2 =? 0) && (udp_next r2 =? pcb) then
        let* r := pcb_of pcb in at_pcb pcb2 (set_udp_next (udp_next r))
      else unlink_loop n pcb (udp_next r2)
  end.
Definition udp_unlink (pcb : Z) : U unit :=
  let* first := gets udp_pcbs in
  if first =? pcb then let* r := pcb_of first in modify (set_first (udp_next r))
  else unlink_loop fuel pcb first.

Definition udp_clear (pcb : Z) : U unit := at_pcb pcb (fun _ => UdpPcb 0 0 0 0 0 UDP_TTL 0 0 0 0 0 0).

Fixpoint addr_loop (n : nat) (old_addr new_addr upcb : Z) : U unit :=
  if upcb =? 0 then ret tt else
  match n with
  | O => stuck
  | S n =>
      let* r := pcb_of upcb in
      let* _ := when (ip4_addr_cmp (local_ip r) old_addr) (at_pcb upcb (fun r => set_local new_addr (local_port r) r)) in
      addr_loop n old_addr new_addr (udp_next r)
  end.
Definition udp_netif_ip_addr_changed (old_addr new_addr : Z) : U unit :=
  if negb (ip4_addr_isany old_addr) && negb (ip4_addr_isany new_addr) then
    let* first := gets udp_pcbs in addr_loop fuel old_addr new_addr first
  else ret tt.
End Pcbs.

(** * Their memory *)

Section UdpMemory.
Context {H : Type} {Out : Outside H} (fuel : nat).
Abbreviation M := (prog (net H)).

Definition on_udp {X} (f : prog udp_state X) : M X := fun s =>
  match f (udp s) with
  | Some (x, u) => Some (x, with_udp s u)
  | None => None
  end.

(** A connection is in a block of the pool MEMP_UDP_PCB. *)
Definition sizeof_udp_pcb : Z := 48.
Definition udp_new : M Z :=
  let* pcb := on_lwip (mem_malloc (LWIP_MEM_ALIGN_SIZE (LWIP_MEM_ALIGN_SIZE sizeof_udp_pcb))) in
  let* _ := on_udp (modify (fun u => set_pool ((if pcb =? 0 then err_inc else used_inc 1) (udp_pool u)) u)) in
  let* _ := when (negb (pcb =? 0)) (on_udp (udp_clear pcb)) in
  ret pcb.
Definition udp_new_ip_type (type : Z) : M Z := udp_new.

Definition udp_remove (pcb : Z) : M unit :=
  let* _ := on_udp (udp_unlink fuel pcb) in
  if pcb =? 0 then ret tt else
  let* _ := on_udp (modify (fun u => set_pool (used_dec 1 (udp_pool u)) u)) in
  on_lwip (mem_free pcb).
End UdpMemory.

(** * Lists of connections *)

Section Lists.
Context (next : Z -> Z).

Lemma pcb_list_det p l : forall l', pcb_list next p l -> pcb_list next p l' -> l = l'.
Proof.
  revert p. induction l as [|x l IH]; intros p [|y l'] H1 H2; cbn in *; [done|by destruct H2 as (-> & ? & _)|by destruct H1 as (-> & ? & _)|].
  destruct H1 as (-> & Hx & H1), H2 as (<- & _ & H2). f_equal. by apply (IH (next x)).
Qed.

Lemma pcb_list_app p l1 x l2 : pcb_list next p (l1 ++ x :: l2) -> pcb_list next x (x :: l2).
Proof. revert p. induction l1 as [|y l1 IH]; intros p; cbn; [by intros (-> & ?)|intros (_ & _ & Hl); by apply (IH (next y))]. Qed.

Lemma pcb_list_nonzero p l x : pcb_list next p l -> x ∈ l -> x <> 0.
Proof. intros Hl (l1 & l2 & ->)%list_elem_of_split. by destruct (pcb_list_app _ _ _ _ Hl) as (_ & ? & _). Qed.

Lemma pcb_list_nodup p l : pcb_list next p l -> NoDup l.
Proof.
  revert p. induction l as [|x l IH]; intros p Hl; [constructor|]. destruct Hl as (-> & Hx & Hl). constructor; [|by apply (IH (next x))].
  intros (l1 & l2 & ->)%list_elem_of_split. pose proof (pcb_list_app _ _ _ _ Hl) as (_ & _ & Hl2). pose proof (pcb_list_det _ _ _ Hl Hl2) as E.
  apply (f_equal length) in E. rewrite length_app in E. cbn in E. lia.
Qed.
End Lists.

Lemma pcb_list_ext next next' p l : (forall x, x ∈ l -> next' x = next x) -> pcb_list next p l -> pcb_list next' p l.
Proof.
  revert p. induction l as [|x l IH]; intros p He Hl; [done|]. destruct Hl as (-> & Hx & Hl). split; [done|]. split; [done|].
  rewrite He by left. apply IH; [|done]. intros y Hy. apply He. by right.
Qed.

(** The one after [y] is taken out. *)
Lemma pcb_list_cut next next' p l1 y x l2 : pcb_list next p (l1 ++ y :: x :: l2) ->
  (forall z, z <> y -> next' z = next z) -> next' y = next x -> pcb_list next' p (l1 ++ y :: l2).
Proof.
  intros Hl Hs Hy. pose proof (pcb_list_nodup _ _ _ Hl) as Hnd. revert p Hl. induction l1 as [|z l1 IH]; intros p Hl; cbn [app] in *.
  - destruct Hl as (-> & Hy0 & <- & _ & Hl). split; [done|]. split; [done|]. rewrite Hy. apply (pcb_list_ext next); [|done].
    intros z Hz. apply Hs. intros ->. apply NoDup_cons in Hnd as [Hn _]. apply Hn. by right.
  - apply NoDup_cons in Hnd as [Hz Hnd]. destruct Hl as (-> & Hz0 & Hl). split; [done|]. split; [done|]. rewrite Hs; [by apply IH|].
    intros ->. apply Hz. rewrite elem_of_app. right. left.
Qed.

Lemma pcb_list_push next next' p l x : pcb_list next p l -> x ∉ l -> x <> 0 ->
  (forall z, z <> x -> next' z = next z) -> next' x = p -> pcb_list next' x (x :: l).
Proof.
  intros Hl Hx Hx0 Hs Hp. split; [done|]. split; [done|]. rewrite Hp. apply (pcb_list_ext next); [|done]. intros z Hz. apply Hs. by intros ->.
Qed.

Abbreviation listed u l := (pcb_list (fun x => udp_next (udp_pcb_at u x)) (udp_pcbs u) l).

Lemma put_pcb_eq a f u : udp_pcb_at (put_pcb a f u) a = f (udp_pcb_at u a).
Proof. cbn. by rewrite decide_True. Qed.
Lemma put_pcb_ne a f u x : x <> a -> udp_pcb_at (put_pcb a f u) x = udp_pcb_at u x.
Proof. intros Hx. cbn. by rewrite decide_False. Qed.

(** A connection is changed in place. *)
Lemma listed_put a f u l : (forall r, udp_next (f r) = udp_next r) -> listed u l -> listed (put_pcb a f u) l.
Proof. intros Hf. apply pcb_list_ext. intros x _. destruct (decide (x = a)) as [->|Hx]; [by rewrite put_pcb_eq|by rewrite put_pcb_ne]. Qed.

Section Runs.
Context (fuel : nat).

Lemma at_pcb_run {X} a f (k : unit -> prog udp_state X) u : a <> 0 -> bind (at_pcb a f) k u = k tt (put_pcb a f u).
Proof. intros Ha. unfold at_pcb. by rewrite (proj2 (Z.eqb_neq _ _) Ha). Qed.

Lemma walk_pcbs_run f l : forall n p u, pcb_list (fun x => udp_next (udp_pcb_at u x)) p l -> (length l <= n)%nat ->
  walk_pcbs n f p u = Some (existsb (fun x => f x (udp_pcb_at u x)) l, u).
Proof.
  induction l as [|x l IH]; intros n p u Hl Hn.
  { cbn in Hl. subst p. by destruct n. }
  destruct Hl as (-> & Hx & Hl), n as [|n]; [cbn in Hn; lia|]. cbn [walk_pcbs existsb]. unfold pcb_of. rewrite (proj2 (Z.eqb_neq _ _) Hx).
  unfold gets. rewrite (bind_some _ _ u (udp_pcb_at u x) u eq_refl). destruct (f x (udp_pcb_at u x)); [done|]. cbn [orb]. apply IH; [done|cbn in Hn; lia].
Qed.

Lemma any_pcb_run {X} f (k : bool -> prog udp_state X) u l : listed u l -> (length l <= fuel)%nat ->
  bind (any_pcb fuel f) k u = k (existsb (fun x => f x (udp_pcb_at u x)) l) u.
Proof.
  intros Hl Hn. apply bind_some. unfold any_pcb, gets. rewrite (bind_some _ _ u (udp_pcbs u) u eq_refl). by apply walk_pcbs_run.
Qed.

Definition pushed (a : Z) (u : udp_state) : udp_state := set_first a (put_pcb a (set_udp_next (udp_pcbs u)) u).

Lemma add_pcb_run a u : a <> 0 -> add_pcb a u = Some (tt, pushed a u).
Proof. intros Ha. unfold add_pcb, gets. rewrite (bind_some _ _ u (udp_pcbs u) u eq_refl). by rewrite at_pcb_run. Qed.

Lemma pushed_listed a u l : listed u l -> a ∉ l -> a <> 0 -> listed (pushed a u) (a :: l).
Proof.
  intros Hl Ha Ha0. apply (pcb_list_push (fun x => udp_next (udp_pcb_at u x)) _ (udp_pcbs u)); [done..| |].
  - intros z Hz. unfold pushed. cbn [set_first udp_pcb_at]. by rewrite put_pcb_ne.
  - unfold pushed. cbn [set_first udp_pcb_at]. by rewrite put_pcb_eq.
Qed.

(** * Choosing a port *)

Definition port_used (u : udp_state) (l : list Z) (port : Z) : Prop := exists x, x ∈ l /\ local_port (udp_pcb_at u x) = port.
Definition in_range (port : Z) : Prop := UDP_LOCAL_PORT_RANGE_START <= port <= UDP_LOCAL_PORT_RANGE_END.

Lemma existsb_port u l port : existsb (fun x => local_port (udp_pcb_at u x) =? port) l = true <-> port_used u l port.
Proof.
  rewrite existsb_exists. unfold port_used. split; intros (x & Hx & E); exists x; rewrite <- list_elem_of_In in *; split; try done; lia.
Qed.

(** The port after [i] steps. *)
Lemma next_port_steps i p : in_range p ->
  Nat.iter i next_port p = UDP_LOCAL_PORT_RANGE_START + (p - UDP_LOCAL_PORT_RANGE_START + Z.of_nat i) mod 0x4000.
Proof.
  unfold in_range. intros Hp. unfold UDP_LOCAL_PORT_RANGE_START, UDP_LOCAL_PORT_RANGE_END in *. induction i as [|i IH].
  { cbn. rewrite Z.mod_small; lia. }
  rewrite Nat.iter_succ, IH. set (d := p - 0xc000 + Z.of_nat i). replace (p - 0xc000 + Z.of_nat (S i)) with (d + 1) by (unfold d; lia).
  pose proof (Z.mod_pos_bound d 0x4000). unfold next_port, UDP_LOCAL_PORT_RANGE_START, UDP_LOCAL_PORT_RANGE_END. rewrite <- (Zplus_mod_idemp_l d 1).
  destruct (Z.eqb_spec (0xc000 + d mod 0x4000) 0xffff) as [E|E].
  - replace (d mod 0x4000) with 0x3fff by lia. reflexivity.
  - rewrite wrap_small, (Z.mod_small (d mod 0x4000 + 1)) by lia. lia.
Qed.

Lemma next_port_range p : in_range p -> in_range (next_port p).
Proof. intros Hp. change (next_port p) with (Nat.iter 1 next_port p). rewrite next_port_steps by done. pose proof (Z.mod_pos_bound (p - UDP_LOCAL_PORT_RANGE_START + Z.of_nat 1) 0x4000). unfold in_range, UDP_LOCAL_PORT_RANGE_START, UDP_LOCAL_PORT_RANGE_END in *. lia. Qed.

Lemma new_port_loop_run l : forall rounds n u, listed u l -> (length l <= fuel)%nat -> in_range (udp_port u) ->
  (0 < rounds)%nat -> n + Z.of_nat rounds = 0x4000 -> 0 <= n ->
  exists q, in_range q /\ (new_port_loop fuel rounds n u = Some (q, set_port q u) /\ ~ port_used u l q \/
    new_port_loop fuel rounds n u = Some (0, set_port q u) /\ forall i, (1 <= i <= rounds)%nat -> port_used u l (Nat.iter i next_port (udp_port u))).
Proof.
  induction rounds as [|rounds IH]; intros n u Hl Hf Hr Hpos Hn Hn0; [lia|]. cbn [new_port_loop].
  set (q := next_port (udp_port u)). set (u1 := set_port q u). rewrite (bind_some (modify (fun u => set_port (next_port (udp_port u)) u)) _ u tt u1 eq_refl).
  unfold gets. rewrite (bind_some _ _ u1 q u1 eq_refl). rewrite (any_pcb_run _ _ u1 l) by done. change (udp_pcb_at u1) with (udp_pcb_at u).
  pose proof (next_port_range _ Hr) as Hq. fold q in Hq. destruct (existsb (fun x => local_port (udp_pcb_at u x) =? q) l) eqn:Eu.
  - apply existsb_port in Eu. rewrite wrap_small by lia. change (UDP_LOCAL_PORT_RANGE_END - UDP_LOCAL_PORT_RANGE_START) with 0x3fff.
    destruct rounds as [|rounds].
    { rewrite (proj2 (Z.ltb_lt _ _)) by lia. exists q. split; [done|]. right. split; [done|]. intros i Hi. by replace i with 1%nat by lia. }
    rewrite (proj2 (Z.ltb_ge _ _)) by lia. destruct (IH (n + 1) u1) as (q' & Hq' & [[E Hno]|[E Hall]]); try done; try lia; exists q'; (split; [done|]).
    + left. by rewrite E.
    + right. split; [by rewrite E|]. intros i Hi. destruct i as [|[|i]]; [lia|done|]. rewrite Nat.iter_succ_r. apply (Hall (S i)). lia.
  - exists q. split; [done|]. left. split; [done|]. rewrite <- existsb_port. congruence.
Qed.

(** A port of the range that is free, or 0 when there is none. *)
Lemma udp_new_port_run u l : listed u l -> (length l <= fuel)%nat -> in_range (udp_port u) ->
  exists q, in_range q /\ (udp_new_port fuel u = Some (q, set_port q u) /\ ~ port_used u l q \/
    udp_new_port fuel u = Some (0, set_port q u) /\ forall port, in_range port -> port_used u l port).
Proof.
  intros Hl Hf Hr. destruct (new_port_loop_run l (Z.to_nat 0x4000) 0 u) as (q & Hq & [Hno|[E Hall]]); try done; try lia; exists q; (split; [done|]); [by left|right].
  split; [done|]. intros port Hp. unfold in_range, UDP_LOCAL_PORT_RANGE_START, UDP_LOCAL_PORT_RANGE_END in *.
  pose proof (Z.mod_pos_bound (port - udp_port u - 1) 0x4000). specialize (Hall (Z.to_nat ((port - udp_port u - 1) mod 0x4000 + 1)) ltac:(lia)).
  rewrite next_port_steps in Hall by done. rewrite Z2Nat.id in Hall by lia.
  replace (udp_port u - UDP_LOCAL_PORT_RANGE_START + ((port - udp_port u - 1) mod 0x4000 + 1))
    with ((udp_port u - UDP_LOCAL_PORT_RANGE_START + 1) + (port - udp_port u - 1) mod 0x4000) in Hall by lia.
  rewrite Zplus_mod_idemp_r in Hall. replace (udp_port u - UDP_LOCAL_PORT_RANGE_START + 1 + (port - udp_port u - 1)) with (port - UDP_LOCAL_PORT_RANGE_START) in Hall by lia.
  unfold UDP_LOCAL_PORT_RANGE_START in Hall. rewrite Z.mod_small in Hall by lia. by replace (0xc000 + (port - 0xc000)) with port in Hall by lia.
Qed.
End Runs.

(** * Invariant of the connections *)

(** [live] are the connections that exist, [l] those in the list: the ones with a port. *)
Record udp_ok (u : udp_state) (live : gset Z) (l : list Z) : Prop := {
  uk_list : listed u l;
  uk_live : forall x, x ∈ l -> x ∈ live;
  uk_null : 0 ∉ live;
  uk_bound : forall x, x ∈ live -> x ∈ l <-> local_port (udp_pcb_at u x) <> 0;
  uk_width : forall x, x ∈ live -> 0 <= local_port (udp_pcb_at u x) < 2 ^ 16;
  uk_unique : forall x y, x ∈ l -> y ∈ l -> x <> y -> local_ip (udp_pcb_at u x) = local_ip (udp_pcb_at u y) ->
    local_port (udp_pcb_at u x) <> local_port (udp_pcb_at u y);
  uk_port : in_range (udp_port u);
}.

(** Another connection has the address and the port. *)
Definition taken (u : udp_state) (l : list Z) (pcb ip port : Z) : Prop :=
  exists y, y ∈ l /\ y <> pcb /\ local_port (udp_pcb_at u y) = port /\ local_ip (udp_pcb_at u y) = ip.
(** [q] is a port that [udp_bind] may choose; there is none. *)
Definition fit_port (u : udp_state) (l : list Z) (pcb ip port q : Z) : Prop :=
  if port =? 0 then in_range q /\ ~ port_used u l q else q = port /\ ~ taken u l pcb ip port.
Definition no_port (u : udp_state) (l : list Z) (pcb ip port : Z) : Prop :=
  if port =? 0 then forall q, in_range q -> port_used u l q else taken u l pcb ip port.
Definition bound (l : list Z) (pcb ip port : Z) (u : udp_state) : udp_state :=
  let u := put_pcb pcb (set_local ip port) u in if decide (pcb ∈ l) then u else pushed pcb u.

Section Ops.
Context (fuel : nat).

Lemma existsb_self l pcb : existsb (fun x => pcb =? x) l = bool_decide (pcb ∈ l).
Proof.
  apply eq_true_iff_eq. rewrite existsb_exists, bool_decide_eq_true. split.
  - intros (x & Hx & ->%Z.eqb_eq). by apply list_elem_of_In.
  - intros Hx. exists pcb. rewrite <- list_elem_of_In. split; [done|]. apply Z.eqb_refl.
Qed.

Lemma existsb_taken u l pcb ip port :
  existsb (fun x => negb (pcb =? x) && (local_port (udp_pcb_at u x) =? port) && ip4_addr_cmp (local_ip (udp_pcb_at u x)) ip) l = true <-> taken u l pcb ip port.
Proof.
  rewrite existsb_exists. unfold taken, ip4_addr_cmp. split.
  - intros (x & Hx & E). exists x. rewrite list_elem_of_In. split; [done|]. apply andb_true_iff in E as [[E1 E2%Z.eqb_eq]%andb_true_iff E3%Z.eqb_eq].
    apply negb_true_iff, Z.eqb_neq in E1. by split_and!.
  - intros (x & Hx & E1 & E2 & E3). exists x. rewrite <- list_elem_of_In. split; [done|]. rewrite (proj2 (Z.eqb_neq _ _)) by done.
    by rewrite (proj2 (Z.eqb_eq _ _) E2), (proj2 (Z.eqb_eq _ _) E3).
Qed.

Lemma bind_tail pcb ip q l u : listed u l -> pcb <> 0 ->
  (let* _ := at_pcb pcb (set_local ip q) in let* _ := when (negb (bool_decide (pcb ∈ l))) (add_pcb pcb) in ret ERR_OK) u = Some (ERR_OK, bound l pcb ip q u).
Proof.
  intros Hl H0. rewrite at_pcb_run by done. unfold bound. destruct (decide (pcb ∈ l)) as [Hin|Hin].
  - by rewrite (bool_decide_eq_true_2 _ Hin).
  - rewrite (bool_decide_eq_false_2 _ Hin). cbn [negb when]. by rewrite (bind_some _ _ _ _ _ (add_pcb_run pcb _ H0)).
Qed.

Lemma udp_bind_run pcb ipaddr port u l : listed u l -> (length l <= fuel)%nat -> in_range (udp_port u) -> pcb <> 0 -> 0 <= port ->
  let ip := default IPADDR_ANY ipaddr in
  exists w, in_range w /\
    ((exists q, udp_bind fuel pcb ipaddr port u = Some (ERR_OK, bound l pcb ip q (set_port w u)) /\ 0 < q /\ fit_port u l pcb ip port q) \/
     udp_bind fuel pcb ipaddr port u = Some (ERR_USE, set_port w u) /\ no_port u l pcb ip port).
Proof.
  intros Hl Hf Hr H0 Hport ip. unfold udp_bind. change (match ipaddr with Some i => i | None => IPADDR_ANY end) with ip.
  rewrite (proj2 (Z.eqb_neq _ _) H0), (any_pcb_run fuel _ _ u l) by done. cbv beta. rewrite existsb_self. unfold fit_port, no_port. destruct (Z.eqb_spec port 0) as [->|Hp].
  - destruct (udp_new_port_run fuel u l Hl Hf Hr) as (w & Hw & [[E Hno]|[E Hall]]); exists w; (split; [done|]); rewrite (bind_some _ _ _ _ _ E).
    + assert (0 < w) as Hwp by (unfold in_range, UDP_LOCAL_PORT_RANGE_START in Hw; lia). left. exists w. rewrite (proj2 (Z.eqb_neq w 0)) by lia. by rewrite bind_tail.
    + by right.
  - exists (udp_port u). split; [done|]. assert (set_port (udp_port u) u = u) as -> by (by destruct u). rewrite bind_assoc.
    rewrite (any_pcb_run fuel _ _ u l) by done. destruct (existsb _ l) eqn:Eu.
    + right. split; [done|]. by apply (existsb_taken u l).
    + left. exists port. rewrite bind_ret, (proj2 (Z.eqb_neq port 0)), bind_tail by done. split; [done|]. split; [lia|]. split; [done|].
      intros Ht%existsb_taken. congruence.
Qed.

Lemma bound_at l pcb ip q u x : let r := udp_pcb_at (bound l pcb ip q u) x in
  local_ip r = (if decide (x = pcb) then ip else local_ip (udp_pcb_at u x)) /\
  local_port r = (if decide (x = pcb) then q else local_port (udp_pcb_at u x)).
Proof.
  unfold bound, pushed. destruct (decide (x = pcb)) as [->|Hx]; (destruct (decide (pcb ∈ l)); [|cbn [set_first udp_pcb_at]; cbv zeta; rewrite ?put_pcb_eq, ?(put_pcb_ne pcb _ _ x) by done]);
    cbv zeta; by rewrite ?put_pcb_eq, ?(put_pcb_ne pcb _ _ x) by done.
Qed.

Definition joined (l : list Z) (pcb : Z) : list Z := if decide (pcb ∈ l) then l else pcb :: l.

Lemma elem_joined l pcb x : x ∈ joined l pcb <-> x = pcb \/ x ∈ l.
Proof. unfold joined. destruct (decide (pcb ∈ l)); rewrite ?elem_of_cons; [|done]. split; [by right|by intros [->|?]]. Qed.

Lemma bound_ok u live l pcb ip q w : udp_ok u live l -> pcb ∈ live -> in_range w -> 0 < q < 2 ^ 16 -> ~ taken u l pcb ip q ->
  udp_ok (bound l pcb ip q (set_port w u)) live (joined l pcb).
Proof.
  intros [Hl Hlive Hn Hb Hw Hu Hp] Hin Hwr Hq Ht. pose proof (fun x => bound_at l pcb ip q (set_port w u) x) as Hat. cbv zeta in Hat.
  assert (pcb <> 0) as H0 by (intros ->; done). split; try done.
  - unfold bound, joined. destruct (decide (pcb ∈ l)); [by apply listed_put|]. apply pushed_listed; [by apply listed_put|done..].
  - intros x [->|Hx]%elem_joined; [done|by apply Hlive].
  - intros x Hx. destruct (Hat x) as [_ ->]. rewrite elem_joined. case_decide as Ex; [split; [lia|by left]|]. change (udp_pcb_at (set_port w u)) with (udp_pcb_at u). rewrite <- Hb by done. split; [by intros [?|?]|by right].
  - intros x Hx. destruct (Hat x) as [_ ->]. case_decide; [lia|by apply Hw].
  - intros x y Hx Hy Hxy. destruct (Hat x) as [-> ->], (Hat y) as [-> ->]. rewrite elem_joined in Hx, Hy. change (udp_pcb_at (set_port w u)) with (udp_pcb_at u).
    repeat case_decide; subst; try done; intros Eip Ep.
    + apply Ht. exists y. destruct Hy; [done|]. by split_and!.
    + apply Ht. exists x. destruct Hx; [done|]. by split_and!.
    + destruct Hx, Hy; try done. by apply (Hu x y).
  - unfold bound. destruct (decide (pcb ∈ l)); done.
Qed.

Lemma fit_taken u l pcb ip port q : fit_port u l pcb ip port q -> ~ taken u l pcb ip q.
Proof.
  unfold fit_port. destruct (port =? 0); [|by intros [-> ?]]. intros [_ Hno] (y & Hy & _ & E & _). apply Hno. by exists y.
Qed.

Lemma fit_width u l pcb ip port q : fit_port u l pcb ip port q -> 0 <= port < 2 ^ 16 -> q < 2 ^ 16.
Proof. unfold fit_port, in_range, UDP_LOCAL_PORT_RANGE_END. destruct (port =? 0); [lia|]. intros [-> _]. lia. Qed.

(** C25 [udp_bind] gives a connection an address with the port that is asked for, unless
    another connection has both, or with a port of the dynamic range that no
    connection has. The connection is in the list afterwards, and the others are
    as before. It fails only when the port is taken, or all ports of the range are, and
    then changes no connection. *)
Theorem udp_bind_correct pcb ipaddr port u live l : udp_ok u live l -> (length l <= fuel)%nat -> pcb ∈ live -> 0 <= port < 2 ^ 16 ->
  let ip := default IPADDR_ANY ipaddr in
  exists err u', udp_bind fuel pcb ipaddr port u = Some (err, u') /\
    ((err = ERR_OK /\ exists q, fit_port u l pcb ip port q /\ udp_ok u' live (joined l pcb) /\
        local_ip (udp_pcb_at u' pcb) = ip /\ local_port (udp_pcb_at u' pcb) = q /\ (forall x, x <> pcb -> udp_pcb_at u' x = udp_pcb_at u x)) \/
     (err = ERR_USE /\ no_port u l pcb ip port /\ udp_pcbs u' = udp_pcbs u /\ (forall x, udp_pcb_at u' x = udp_pcb_at u x))).
Proof.
  intros Hok Hf Hin Hport ip. pose proof Hok as [Hl _ Hn _ _ _ Hr]. assert (pcb <> 0) as H0 by (intros ->; done).
  destruct (udp_bind_run pcb ipaddr port u l Hl Hf Hr H0 ltac:(lia)) as (w & Hw & [(q & E & Hq & Hfit)|[E Hno]]); fold ip in E; eexists _, _; (split; [exact E|]).
  - left. split; [done|]. exists q. split; [done|]. split; [apply bound_ok; try done; [|by apply (fit_taken u l pcb ip port)]; pose proof (fit_width _ _ _ _ _ _ Hfit Hport); lia|].
    destruct (bound_at l pcb ip q (set_port w u) pcb) as [E1 E2]. rewrite E1, E2, !decide_True by done. split; [done|]. split; [done|].
    intros x Hx. unfold bound, pushed. destruct (decide (pcb ∈ l)); cbn [set_first udp_pcb_at]; by rewrite !put_pcb_ne by done.
  - right. by split_and!.
Qed.
End Ops.

(** * Every sequence of calls *)

Inductive udp_call :=
  | UNew (a : Z) | UBind (pcb : Z) (ip : option Z) (port : Z) | UBindNetif (pcb : Z) (n : option netif)
  | UConnect (pcb : Z) (ip : option Z) (port : Z) | UDisconnect (pcb : Z) | URecv (pcb f arg : Z) | URemove (pcb : Z).

Section History.
Context (fuel : nat).

Definition udp_do (c : udp_call) : prog udp_state Z :=
  match c with
  | UNew a => let* _ := udp_clear a in ret a
  | UBind pcb ip port => udp_bind fuel pcb ip port
  | UBindNetif pcb n => let* _ := udp_bind_netif pcb n in ret 0
  | UConnect pcb ip port => udp_connect fuel pcb ip port
  | UDisconnect pcb => let* _ := udp_disconnect pcb in ret 0
  | URecv pcb f arg => let* _ := udp_recv pcb f arg in ret 0
  | URemove pcb => let* _ := udp_unlink fuel pcb in ret 0
  end.

(** A new connection is in a block of its own; the others exist. *)
Definition udp_allowed (c : udp_call) (live : gset Z) : Prop :=
  match c with
  | UNew a => a <> 0 /\ a ∉ live
  | UBind pcb _ port | UConnect pcb _ port => pcb ∈ live /\ 0 <= port < 2 ^ 16
  | UBindNetif pcb _ | UDisconnect pcb | URecv pcb _ _ | URemove pcb => pcb ∈ live
  end.
Definition live_after (c : udp_call) (live : gset Z) : gset Z :=
  match c with UNew a => {[a]} ∪ live | URemove pcb => live ∖ {[pcb]} | _ => live end.

Lemma ok_put u live l a f : (forall r, udp_next (f r) = udp_next r /\ local_ip (f r) = local_ip r /\ local_port (f r) = local_port r) ->
  udp_ok u live l -> udp_ok (put_pcb a f u) live l.
Proof.
  intros Hf [Hl Hlive Hn Hb Hw Hu Hp].
  assert (forall x, local_ip (udp_pcb_at (put_pcb a f u) x) = local_ip (udp_pcb_at u x) /\ local_port (udp_pcb_at (put_pcb a f u) x) = local_port (udp_pcb_at u x)) as Hs.
  { intros x. destruct (decide (x = a)) as [->|Hx]; [rewrite put_pcb_eq; apply Hf|by rewrite put_pcb_ne]. }
  split; try done.
  - apply listed_put; [apply Hf|done].
  - intros x. rewrite (proj2 (Hs x)). apply Hb.
  - intros x. rewrite (proj2 (Hs x)). apply Hw.
  - intros x y. rewrite (proj1 (Hs x)), (proj1 (Hs y)), (proj2 (Hs x)), (proj2 (Hs y)). apply Hu.
Qed.

Lemma ok_new u live l a : udp_ok u live l -> a <> 0 -> a ∉ live -> udp_ok (put_pcb a (fun _ => UdpPcb 0 0 0 0 0 UDP_TTL 0 0 0 0 0 0) u) ({[a]} ∪ live) l.
Proof.
  intros [Hl Hlive Hn Hb Hw Hu Hp] Ha0 Ha. assert (forall x, x ∈ live -> x <> a) as Hne by (by intros x Hx ->).
  assert (forall x, x ∈ l -> x <> a) as Hnl by (intros x Hx; by apply Hne, Hlive). split; try done.
  - apply (pcb_list_ext (fun x => udp_next (udp_pcb_at u x))); [|done]. intros x Hx. by rewrite put_pcb_ne by (by apply Hnl).
  - intros x Hx. apply elem_of_union_r. by apply Hlive.
  - rewrite elem_of_union, elem_of_singleton. by intros [?|?].
  - intros x [->%elem_of_singleton|Hx]%elem_of_union; [rewrite put_pcb_eq; split; [by intros Hx%Hnl|done]|]. rewrite put_pcb_ne by (by apply Hne). by apply Hb.
  - intros x [->%elem_of_singleton|Hx]%elem_of_union; [by rewrite put_pcb_eq|]. rewrite put_pcb_ne by (by apply Hne). by apply Hw.
  - intros x y Hx Hy. rewrite !put_pcb_ne by (by apply Hnl). by apply Hu.
Qed.

Lemma unlink_loop_run pcb l : forall n p u, pcb_list (fun x => udp_next (udp_pcb_at u x)) p l -> (length l <= n)%nat -> pcb <> 0 -> p <> pcb ->
  exists u', unlink_loop n pcb p u = Some (tt, u') /\
    ((pcb ∉ l) /\ u' = u \/ exists l1 y l2, l = l1 ++ y :: pcb :: l2 /\ u' = put_pcb y (set_udp_next (udp_next (udp_pcb_at u pcb))) u).
Proof.
  induction l as [|x l IH]; intros n p u Hl Hn H0 Hp.
  { cbn in Hl. subst p. exists u. split; [by destruct n|]. left. split; [apply not_elem_of_nil|done]. }
  destruct Hl as (-> & Hx & Hl), n as [|n]; [cbn in Hn; lia|]. cbn [unlink_loop]. rewrite (proj2 (Z.eqb_neq _ _) Hx).
  unfold pcb_of at 1. rewrite (proj2 (Z.eqb_neq _ _) Hx). unfold gets. rewrite (bind_some _ _ u (udp_pcb_at u x) u eq_refl).
  destruct (Z.eqb_spec (udp_next (udp_pcb_at u x)) pcb) as [E|E].
  - rewrite E, (proj2 (Z.eqb_neq _ _) H0). cbn [negb andb]. unfold pcb_of. rewrite (proj2 (Z.eqb_neq _ _) H0). unfold gets.
    rewrite (bind_some _ _ u (udp_pcb_at u pcb) u eq_refl). unfold at_pcb. rewrite (proj2 (Z.eqb_neq _ _) Hx). eexists. split; [reflexivity|]. right.
    destruct l as [|y l2]; [cbn in Hl; congruence|]. destruct Hl as (E' & _). exists [], x, l2. by rewrite <- E', E.
  - rewrite andb_false_r. destruct (IH n (udp_next (udp_pcb_at u x)) u) as (u' & Eu & Hres); try done; [cbn in Hn; lia|].
    exists u'. split; [done|]. destruct Hres as [[Hno ->]|(l1 & y & l2 & -> & ->)]; [left|right].
    + rewrite elem_of_cons. split; [|done]. by intros [->|?].
    + by exists (x :: l1), y, l2.
Qed.

Lemma udp_unlink_run pcb u l : listed u l -> (length l <= fuel)%nat -> pcb <> 0 ->
  exists u' l', udp_unlink fuel pcb u = Some (tt, u') /\ listed u' l' /\ (forall x, x ∈ l' <-> x ∈ l /\ x <> pcb) /\ (length l' <= length l)%nat /\ udp_port u' = udp_port u /\
    forall x, local_ip (udp_pcb_at u' x) = local_ip (udp_pcb_at u x) /\ local_port (udp_pcb_at u' x) = local_port (udp_pcb_at u x).
Proof.
  intros Hl Hf H0. pose proof (pcb_list_nodup _ _ _ Hl) as Hnd. unfold udp_unlink, gets. rewrite (bind_some _ _ u (udp_pcbs u) u eq_refl).
  destruct (Z.eqb_spec (udp_pcbs u) pcb) as [E|E].
  - unfold pcb_of. rewrite E, (proj2 (Z.eqb_neq _ _) H0). unfold gets. rewrite (bind_some _ _ u (udp_pcb_at u pcb) u eq_refl).
    destruct l as [|x l]; [cbn in Hl; congruence|]. destruct Hl as (E' & _ & Hl). assert (x = pcb) as -> by congruence. apply NoDup_cons in Hnd as [Hno _].
    eexists _, l. split; [reflexivity|]. split; [exact Hl|]. split; [|split; [cbn; lia|done]]. intros x. rewrite elem_of_cons. split; [|by intros [[?|?] ?]].
    intros Hx. split; [by right|]. by intros ->.
  - destruct (unlink_loop_run pcb l fuel (udp_pcbs u) u Hl Hf H0 E) as (u' & Eu & [[Hno ->]|(l1 & y & l2 & -> & ->)]).
    { exists u, l. split_and!; try done. intros x. split; [|by intros [? _]]. intros Hx. split; [done|]. by intros ->. }
    eexists _, (l1 ++ y :: l2). split; [done|]. split; [|split; [|split; [rewrite !length_app; cbn; lia|split; [done|]]]].
    + apply (pcb_list_cut (fun x => udp_next (udp_pcb_at u x)) _ _ _ _ pcb); [done| |by rewrite put_pcb_eq]. intros z Hz. by rewrite put_pcb_ne.
    + apply NoDup_app in Hnd as (_ & H1 & [Hy [Hno _]%NoDup_cons]%NoDup_cons). rewrite elem_of_cons in Hy.
      intros x. rewrite !elem_of_app, !elem_of_cons. split; [|tauto]. intros Hx. split; [tauto|]. intros ->.
      destruct Hx as [Hx|[->|Hx]]; [apply (H1 _ Hx); rewrite !elem_of_cons; tauto|tauto|done].
    + intros x. destruct (decide (x = y)) as [->|Hx]; [by rewrite put_pcb_eq|by rewrite put_pcb_ne].
Qed.

(** What a call leaves behind. *)
Definition kept_ok (c : udp_call) (u : udp_state) (live : gset Z) (l : list Z) : Prop :=
  exists r u' l', udp_do c u = Some (r, u') /\ udp_ok u' (live_after c live) l' /\ (length l' <= S (length l))%nat.

Lemma length_joined l pcb : (length (joined l pcb) <= S (length l))%nat.
Proof. unfold joined. destruct (decide (pcb ∈ l)); cbn; lia. Qed.

Lemma put_kept c u live l a f : (forall r, udp_next (f r) = udp_next r /\ local_ip (f r) = local_ip r /\ local_port (f r) = local_port r) ->
  udp_do c = (let* _ := at_pcb a f in ret 0) -> live_after c live = live -> udp_ok u live l -> a ∈ live -> kept_ok c u live l.
Proof.
  intros Hf E El Hok Ha. assert (a <> 0) as Ha0 by (intros ->; by apply (uk_null _ _ _ Hok)). exists 0, (put_pcb a f u), l. rewrite E, El, at_pcb_run by done.
  split; [done|]. split; [by apply ok_put|lia].
Qed.

Lemma bind_kept u live l pcb ip port : udp_ok u live l -> (length l <= fuel)%nat -> pcb ∈ live -> 0 <= port < 2 ^ 16 ->
  exists err u' l', udp_bind fuel pcb ip port u = Some (err, u') /\ udp_ok u' live l' /\ (length l' <= S (length l))%nat /\ (err = ERR_OK -> pcb ∈ l').
Proof.
  intros Hok Hf Hin Hport. pose proof Hok as [Hl Hlive Hn Hb Hw Hu Hr]. assert (pcb <> 0) as H0 by (intros ->; done).
  destruct (udp_bind_run fuel pcb ip port u l Hl Hf Hr H0 ltac:(lia)) as (w & Hwr & [(q & E & Hq & Hfit)|[E Hno]]); (eexists _, _; eexists; split; [exact E|]).
  - split; [apply bound_ok; try done; [|by eapply fit_taken]; pose proof (fit_width _ _ _ _ _ _ Hfit Hport); lia|].
    split; [apply length_joined|]. intros _. rewrite elem_joined. by left.
  - split; [|split; [|done]]; [|apply Nat.le_succ_diag_r]. by split.
Qed.

Lemma connect_kept u live l pcb ip port : udp_ok u live l -> (length l <= fuel)%nat -> (S (length l) <= fuel)%nat -> pcb ∈ live -> kept_ok (UConnect pcb ip port) u live l.
Proof.
  intros Hok Hf Hf1 Hin. pose proof Hok as [Hl Hlive Hn Hb Hw Hu Hr]. assert (pcb <> 0) as H0 by (intros ->; done). unfold kept_ok. cbn [udp_do live_after].
  destruct ip as [ip|]; [|exists ERR_VAL, u, l; split; [done|split; [done|lia]]]. unfold udp_connect. rewrite (proj2 (Z.eqb_neq _ _) H0).
  unfold pcb_of. rewrite (proj2 (Z.eqb_neq _ _) H0). unfold gets. rewrite (bind_some _ _ u (udp_pcb_at u pcb) u eq_refl).
  assert (exists err u' l', (if local_port (udp_pcb_at u pcb) =? 0 then udp_bind fuel pcb (Some (local_ip (udp_pcb_at u pcb))) (local_port (udp_pcb_at u pcb)) else ret ERR_OK) u = Some (err, u') /\
    udp_ok u' live l' /\ (length l' <= S (length l))%nat /\ (err = ERR_OK -> pcb ∈ l')) as (err & u1 & l1 & E & Hok1 & Hlen & Hin1).
  { destruct (Z.eqb_spec (local_port (udp_pcb_at u pcb)) 0) as [Ep|Ep]; [rewrite Ep; by apply bind_kept|].
    exists ERR_OK, u, l. split; [done|]. split; [done|]. split; [lia|]. intros _. by apply Hb. }
  rewrite (bind_some _ _ _ _ _ E). destruct (Z.eqb_spec err ERR_OK) as [->|He]; cbn [negb]; [|by exists err, u1, l1]. rewrite at_pcb_run by done.
  set (f := fun r => set_remote ip port (Z.lor (udp_flags r) UDP_FLAGS_CONNECTED) r). assert (udp_ok (put_pcb pcb f u1) live l1) as Hok2 by (by apply ok_put).
  rewrite (any_pcb_run fuel _ _ _ l1); [|exact (uk_list _ _ _ Hok2)|by etrans]. cbv beta. rewrite existsb_self. rewrite (bool_decide_eq_true_2 _ (Hin1 eq_refl)). cbn [negb when]. rewrite bind_ret.
  by exists ERR_OK, (put_pcb pcb f u1), l1.
Qed.

Lemma remove_kept u live l pcb : udp_ok u live l -> (length l <= fuel)%nat -> pcb ∈ live -> kept_ok (URemove pcb) u live l.
Proof.
  intros [Hl Hlive Hn Hb Hw Hu Hr] Hf Hin. assert (pcb <> 0) as H0 by (intros ->; done). unfold kept_ok. cbn [udp_do live_after].
  destruct (udp_unlink_run pcb u l Hl Hf H0) as (u' & l' & E & Hl' & Hel & Hlen & Hp & Hs). rewrite (bind_some _ _ _ _ _ E). exists 0, u', l'.
  split; [done|]. split; [|lia]. split; try done.
  - intros x [Hx Hne]%Hel. apply elem_of_difference. rewrite elem_of_singleton. split; [by apply Hlive|done].
  - intros [? _]%elem_of_difference. done.
  - intros x [Hx Hne]%elem_of_difference. rewrite elem_of_singleton in Hne. rewrite (proj2 (Hs x)), Hel, Hb by done. tauto.
  - intros x [Hx _]%elem_of_difference. rewrite (proj2 (Hs x)). by apply Hw.
  - intros x y [Hx _]%Hel [Hy _]%Hel. rewrite (proj1 (Hs x)), (proj1 (Hs y)), (proj2 (Hs x)), (proj2 (Hs y)). by apply Hu.
  - by rewrite Hp.
Qed.

Lemma do_kept c u live l : udp_ok u live l -> (S (length l) <= fuel)%nat -> udp_allowed c live -> kept_ok c u live l.
Proof.
  intros Hok Hf Ha. destruct c as [a|pcb ip port|pcb n|pcb ip port|pcb|pcb f arg|pcb]; cbn [udp_allowed] in Ha.
  - destruct Ha as [Ha0 Ha]. eexists a, _, l. cbn [udp_do]. unfold udp_clear. rewrite at_pcb_run by done. split; [done|]. split; [by apply ok_new|lia].
  - destruct Ha as [Ha Hport]. destruct (bind_kept u live l pcb ip port) as (err & u' & l' & E & Hok' & Hlen & _); try done; [lia|]. by exists err, u', l'.
  - by eapply put_kept; [|reflexivity|done..].
  - apply connect_kept; try done; [lia|apply Ha].
  - by eapply put_kept; [|reflexivity|done..].
  - by eapply put_kept; [|reflexivity|done..].
  - apply remove_kept; [done|lia|done].
Qed.

(** After [n] calls from the start. *)
Inductive udp_reachable : nat -> udp_state -> gset Z -> Prop :=
  | udp_start u : udp_pcbs u = 0 -> udp_port u = UDP_LOCAL_PORT_RANGE_START -> udp_reachable 0 u ∅
  | udp_next_call n u live c r u' : udp_reachable n u live -> (n < fuel)%nat -> udp_allowed c live -> udp_do c u = Some (r, u') ->
      udp_reachable (S n) u' (live_after c live).

(** C24 Whatever the order in which connections are created, bound, connected, disconnected
    and removed, the list is sound: it ends, holds exactly the connections that have
    a port, each once, and no two have the same address and port; and every next call
    on connections that exist comes to an end. *)
Theorem udp_history_sound n u live : udp_reachable n u live ->
  exists l, udp_ok u live l /\ NoDup l /\ forall c, (n < fuel)%nat -> udp_allowed c live -> exists r u', udp_do c u = Some (r, u').
Proof.
  intros Hr. assert (exists l, udp_ok u live l /\ (length l <= n)%nat) as (l & Hok & Hlen).
  { induction Hr as [u E1 E2|n u live c r u' _ (l & Hok & Hlen) Hn Ha E].
    - exists []. split; [|done]. split; [done|by intros x Hx%elem_of_nil|apply not_elem_of_empty|by intros x Hx%elem_of_empty..|by intros x y Hx%elem_of_nil|by rewrite E2].
    - destruct (do_kept c u live l Hok ltac:(lia) Ha) as (r' & u1 & l' & E' & Hok' & Hlen'). rewrite E in E'. injection E' as <- <-. exists l'. split; [done|lia]. }
  exists l. split; [done|]. split; [by eapply pcb_list_nodup, (uk_list _ _ _ Hok)|]. intros c Hn Ha.
  destruct (do_kept c u live l Hok ltac:(lia) Ha) as (r & u' & _ & E & _). by exists r, u'.
Qed.
End History.

(** * Examples *)

(** One connection that exists, at the address 8. *)
Definition fresh_pcb : udp_pcb := UdpPcb 0 0 0 0 0 UDP_TTL 0 0 0 0 0 0.
Definition demo_udp : udp_state := UdpState 0 (fun _ => fresh_pcb) UDP_LOCAL_PORT_RANGE_START (StatsMem 0 0 0).

Lemma demo_udp_ok : udp_ok demo_udp {[8]} [].
Proof.
  split; [done|by intros x Hx%elem_of_nil|by rewrite elem_of_singleton|intros x _|done|by intros x y Hx%elem_of_nil|done].
  split; [by intros Hx%elem_of_nil|done].
Qed.

Lemma udp_bind_correct_witness : exists err u', udp_bind 1 8 None 0 demo_udp = Some (err, u') /\
  (err = ERR_OK /\ in_range (local_port (udp_pcb_at u' 8)) \/ err = ERR_USE).
Proof.
  destruct (udp_bind_correct 1 8 None 0 demo_udp {[8]} []) as (err & u' & E & Hres).
  - exact demo_udp_ok.
  - cbn. lia.
  - by apply elem_of_singleton.
  - lia.
  - exists err, u'. split; [exact E|]. destruct Hres as [(-> & q & [Hq _] & _ & _ & -> & _)|(-> & _)]; [by left|by right].
Defined.

Lemma udp_history_sound_witness : exists u live l, udp_reachable 2 2 u live /\ udp_ok u live l /\ local_port (udp_pcb_at u 8) = 5120.
Proof.
  set (u1 := put_pcb 8 (fun _ => fresh_pcb) demo_udp). set (u2 := pushed 8 (put_pcb 8 (set_local 0 5120) u1)).
  set (live1 := live_after (UNew 8) ∅).
  assert (udp_reachable 2 2 u2 (live_after (UBind 8 None 5120) live1)) as Hr.
  { apply (udp_next_call 2 1 u1 live1 (UBind 8 None 5120) ERR_OK u2).
    - apply (udp_next_call 2 0 demo_udp ∅ (UNew 8) 8 u1); [by apply udp_start|lia|split; [done|apply not_elem_of_empty]|reflexivity].
    - lia.
    - split; [|lia]. unfold live1. cbn [live_after]. by apply elem_of_union_l, elem_of_singleton.
    - reflexivity. }
  destruct (udp_history_sound 2 2 u2 _ Hr) as (l & Hok & _). exists u2, live1, l. split; [exact Hr|]. split; [exact Hok|reflexivity].
Defined.
