(* ===== verification/UdpInput.v ===== *)
(** UDP input of the lwIP stack (udp.cpp): the connection that a datagram is for. *)

From Stdlib Require Import ZArith Lia Bool.
From stdpp Require Import base list gmap.
From S2P Require Import Prelude Hw Chksum RingBuffer Pbuf PbufRef PbufOps PbufData PbufHistory PbufContent Ip4 Udp.

Section UdpInput.
Context {H : Type} {Out : Outside H} (custom_free_function : Z -> prog (lwip H) unit) (fuel : nat).
Abbreviation M := (prog (net H)).

(** The calls through function pointers, and ICMP. *)
Context (call_recv : Z -> Z -> Z -> Z -> Z -> Z -> M unit) (icmp_dest_unreach : Z -> Z -> M unit).

Definition udp_input_local_match (pcb : udp_pcb) (inp : Z) (broadcast : bool) (s : net H) : bool :=
  if negb (netif_idx pcb =? NETIF_NO_INDEX)
    && negb (netif_idx pcb =? netif_get_index (netifs s (current_input_netif (ip_data s)))) then false
  else if broadcast then
    ip4_addr_isany (local_ip pcb) || (current_iphdr_dest (ip_data s) =? IPADDR_BROADCAST)
    || ip4_addr_netcmp (local_ip pcb) (current_iphdr_dest (ip_data s)) (netmask (netifs s inp))
  else ip4_addr_isany (local_ip pcb) || ip4_addr_cmp (local_ip pcb) (current_iphdr_dest (ip_data s)).

(** The loop over the connections; the pair is [pcb] and [uncon_pcb] after it. *)
Fixpoint udp_find (n : nat) (pcb prev uncon_pcb inp src dest : Z) (broadcast : bool) : M (Z * Z) :=
  if pcb =? 0 then ret (0, uncon_pcb) else
  match n with
  | O => stuck
  | S n =>
      let* s := gets id in
      let r := udp_pcb_at (udp s) pcb in
      let hit := (local_port r =? dest) && udp_input_local_match r inp broadcast s in
      let uncon_pcb := if hit && (Z.land (udp_flags r) UDP_FLAGS_CONNECTED =? 0) && (uncon_pcb =? 0) then pcb else uncon_pcb in
      if hit && (remote_port r =? src) && (ip4_addr_isany (remote_ip r) || ip4_addr_cmp (remote_ip r) (current_iphdr_src (ip_data s))) then
        let* _ := if negb (prev =? 0) then
            on_udp (let* _ := at_pcb prev (set_udp_next (udp_next r)) in add_pcb pcb)
          else STATS_INC [udp_cachehit] in
        ret (pcb, uncon_pcb)
      else udp_find n (udp_next r) pcb uncon_pcb inp src dest broadcast
  end.

Definition free_packet (p : Z) : M unit := let* _ := on_lwip (pbuf_free custom_free_function p) in ret tt.

(** For a connection, or for an address of ours. *)
Definition udp_deliver (p pcb src : Z) (broadcast : bool) : M unit :=
  let* r := on_lwip (pbuf_remove_header p UDP_HLEN) in
  if negb (r =? 0) then
    let* _ := STATS_INC [udp_drop; udpinerrors] in free_packet p
  else if negb (pcb =? 0) then
    let* _ := STATS_INC [udpindatagrams] in
    let* s := gets id in
    let c := udp_pcb_at (udp s) pcb in
    if negb (recv c =? 0) then call_recv (recv c) (recv_arg c) pcb p (current_iphdr_src (ip_data s)) src
    else free_packet p
  else
    let* s := gets id in
    let* _ := when (negb broadcast && negb (ip4_addr_ismulticast (current_iphdr_dest (ip_data s))))
      (let* _ := on_lwip (pbuf_header_force p (to_signed 16 (current_ip_header_tot_len (ip_data s) + UDP_HLEN))) in
       icmp_dest_unreach p ICMP_DUR_PORT) in
    let* _ := STATS_INC [udp_proterr; udp_drop; udpnoports] in
    free_packet p.

Definition udp_input (p inp : Z) : M unit :=
  let* _ := STATS_INC [udp_recv_] in
  let* b := on_lwip (deref p) in
  if len b <? UDP_HLEN then
    let* _ := STATS_INC [udp_lenerr; udp_drop; udpinerrors] in free_packet p
  else
    let udphdr := payload b in
    let* s := gets id in
    let broadcast := ip4_addr_isbroadcast (current_iphdr_dest (ip_data s)) (netifs s (current_netif (ip_data s))) in
    let src := lwip_htons (load_le (data (stack s)) udphdr 2) in
    let dest := lwip_htons (load_le (data (stack s)) (udphdr + 2) 2) in
    let* found := udp_find fuel (udp_pcbs (udp s)) 0 0 inp src dest broadcast in
    let pcb := if fst found =? 0 then snd found else fst found in
    let* s := gets id in
    let for_us := negb (pcb =? 0) || ip4_addr_cmp (ip_addr (netifs s inp)) (current_iphdr_dest (ip_data s)) in
    if for_us then udp_deliver p pcb src broadcast else free_packet p.
End UdpInput.

(** * What [udp_input] promises *)

Fixpoint first_of (f : Z -> bool) (l : list Z) : Z :=
  match l with [] => 0 | x :: l => if f x then x else first_of f l end.

(** A connection moves to the front of the list. *)
Definition to_front (x : Z) (l : list Z) : list Z := if x =? 0 then l else x :: filter (fun y => y <> x) l.

Lemma first_of_split f l : first_of f l = 0 /\ (forall x, x ∈ l -> x <> 0 -> f x = false) \/
  exists l1 x l2, l = l1 ++ x :: l2 /\ f x = true /\ first_of f l = x /\ forall y, y ∈ l1 -> f y = false.
Proof.
  induction l as [|x l IH]; [left; split; [done|]; by intros x ?%elem_of_nil|]. cbn [first_of]. destruct (f x) eqn:E.
  - right. exists [], x, l. split_and!; try done. by intros y ?%elem_of_nil.
  - destruct IH as [[E0 Hno]|(l1 & y & l2 & -> & Ey & E1 & Hno)]; [left|right].
    + split; [done|]. intros y [->|Hy]%elem_of_cons Hy0; [done|by apply Hno].
    + exists (x :: l1), y, l2. split_and!; try done. intros z [->|Hz]%elem_of_cons; [done|by apply Hno].
Qed.

Lemma filter_out (x : Z) (l : list Z) : x ∉ l -> filter (fun y => y <> x) l = l.
Proof.
  induction l as [|y l IH]; [done|]. rewrite not_elem_of_cons. intros [Hx Hl]. rewrite filter_cons_True by done. by rewrite IH.
Qed.

Lemma to_front_split l1 x l2 : NoDup (l1 ++ x :: l2) -> x <> 0 -> to_front x (l1 ++ x :: l2) = x :: l1 ++ l2.
Proof.
  intros (_ & H1 & [Hx _]%NoDup_cons)%NoDup_app Hx0. unfold to_front. rewrite (proj2 (Z.eqb_neq _ _) Hx0), filter_app, filter_cons_False by tauto.
  rewrite !filter_out; [done|done|]. intros Hin. apply (H1 _ Hin). by left.
Qed.

(** The connections, but for their order. *)
Record reordered (u u' : udp_state) : Prop := {
  re_pcbs : forall x, set_udp_next 0 (udp_pcb_at u' x) = set_udp_next 0 (udp_pcb_at u x);
  re_rest : udp_port u' = udp_port u /\ udp_pool u' = udp_pool u;
}.

Section Choice.
Context {H : Type} (s : net H) (inp src dest : Z) (broadcast : bool).

Definition udp_hit (x : Z) : bool :=
  let r := udp_pcb_at (udp s) x in (local_port r =? dest) && udp_input_local_match r inp broadcast s.
Definition udp_perfect (x : Z) : bool :=
  let r := udp_pcb_at (udp s) x in
  udp_hit x && (remote_port r =? src) && (ip4_addr_isany (remote_ip r) || ip4_addr_cmp (remote_ip r) (current_iphdr_src (ip_data s))).
Definition udp_unconnected (x : Z) : bool := udp_hit x && (Z.land (udp_flags (udp_pcb_at (udp s) x)) UDP_FLAGS_CONNECTED =? 0).

(** The first connection with the sender as its peer, else the first without a peer. *)
Definition udp_choice (l : list Z) : Z :=
  let x := first_of udp_perfect l in if x =? 0 then first_of udp_unconnected l else x.
End Choice.

Inductive udp_verdict := UDrop | UUnreachable | UHand (pcb src : Z).

(** What becomes of a datagram with the bytes [D], of which [first] are in the first pbuf. *)
Definition udp_broadcast {H} (s : net H) : bool := ip4_addr_isbroadcast (current_iphdr_dest (ip_data s)) (netifs s (current_netif (ip_data s))).
Definition udp_outcome {H} (s : net H) (l : list Z) (inp first : Z) (D : list Z) : udp_verdict :=
  if first <? UDP_HLEN then UDrop else
  let x := udp_choice s inp (be16 D 0) (be16 D 2) (udp_broadcast s) l in
  if negb (x =? 0) then if recv (udp_pcb_at (udp s) x) =? 0 then UDrop else UHand x (be16 D 0)
  else if ip4_addr_cmp (ip_addr (netifs s inp)) (current_iphdr_dest (ip_data s))
    && negb (udp_broadcast s) && negb (ip4_addr_ismulticast (current_iphdr_dest (ip_data s)))
  then UUnreachable else UDrop.
(** The connection that is found first next time. *)
Definition udp_front {H} (s : net H) (l : list Z) (inp first : Z) (D : list Z) : Z :=
  if first <? UDP_HLEN then 0 else first_of (udp_perfect s inp (be16 D 0) (be16 D 2) (udp_broadcast s)) l.

Section InputProofs.
Context {H : Type} `{OL : OutsideLaws H} (custom_free_function : Z -> prog (lwip H) unit) (fuel : nat).
Context (call_recv : Z -> Z -> Z -> Z -> Z -> Z -> prog (net H) unit) (icmp_dest_unreach : Z -> Z -> prog (net H) unit).

(** Only counters and the order of the connections, which is now [l], have changed. *)
Record routed (l : list Z) (s s' : net H) : Prop := {
  ro_netifs : netifs s' = netifs s /\ netif_list s' = netif_list s;
  ro_ip : ip_data s' = ip_data s;
  ro_raw : raw_pcbs s' = raw_pcbs s /\ raw_pcb_at s' = raw_pcb_at s;
  ro_udp : reordered (udp s) (udp s');
  ro_list : listed (udp s') l;
}.

Lemma routed_step l s1 s2 s3 : routed l s1 s2 -> netifs s3 = netifs s2 -> netif_list s3 = netif_list s2 -> ip_data s3 = ip_data s2 ->
  raw_pcbs s3 = raw_pcbs s2 -> raw_pcb_at s3 = raw_pcb_at s2 -> udp s3 = udp s2 -> routed l s1 s3.
Proof.
  intros [[E1 E2] E3 [E4 E5] E6 E7] F1 F2 F3 F4 F5 F6. split; [split; congruence|congruence|split; congruence|by rewrite F6|by rewrite F6].
Qed.

(** Taking [x] out behind [y] and putting it in front. *)
Lemma requeue_run u l1 y x l2 : listed u (l1 ++ y :: x :: l2) ->
  exists u', (let* _ := at_pcb y (set_udp_next (udp_next (udp_pcb_at u x))) in add_pcb x) u = Some (tt, u') /\
    listed u' (x :: l1 ++ y :: l2) /\ reordered u u'.
Proof.
  intros Hl. pose proof (pcb_list_nodup _ _ _ Hl) as Hnd. assert (y <> 0) as Hy by (apply (pcb_list_nonzero _ _ _ _ Hl), elem_of_app; right; left).
  assert (x <> 0) as Hx by (apply (pcb_list_nonzero _ _ _ _ Hl), elem_of_app; right; right; left).
  apply NoDup_app in Hnd as (_ & H1 & [Hyx [Hx2 _]%NoDup_cons]%NoDup_cons). rewrite not_elem_of_cons in Hyx.
  rewrite at_pcb_run, add_pcb_run by done. set (u1 := put_pcb y _ u). exists (pushed x u1). split; [done|]. split.
  - apply pushed_listed; [|rewrite elem_of_app, elem_of_cons; intros [Hin|[->|Hin]]; [by apply (H1 _ Hin); right; left|tauto|done]|done].
    apply (pcb_list_cut (fun z => udp_next (udp_pcb_at u z)) _ _ _ _ x); [done| |unfold u1; by rewrite put_pcb_eq]. intros z Hz. unfold u1. by rewrite put_pcb_ne.
  - split; [|done]. intros z. unfold pushed. cbn [set_first udp_pcb_at]. 
    destruct (decide (z = x)) as [->|Hzx]; rewrite ?put_pcb_eq, ?(put_pcb_ne x) by done; unfold u1;
      [|destruct (decide (z = y)) as [->|Hzy]; rewrite ?put_pcb_eq by done; [|]]; rewrite ?put_pcb_ne by (done || (intros ->; tauto)); done.
Qed.

Lemma udp_find_run inp src dest bc l2 : forall n l1 prev uncon (s : net H),
  listed (udp s) (l1 ++ l2) -> (length l2 <= n)%nat ->
  prev = default 0 (last l1) -> uncon = first_of (udp_unconnected s inp dest bc) l1 ->
  let pcb := match l2 with [] => 0 | x :: _ => x end in
  let x := first_of (udp_perfect s inp src dest bc) l2 in
  exists un s', udp_find n pcb prev uncon inp src dest bc s = Some ((x, un), s') /\ stack s' = stack s /\
    routed (if x =? 0 then l1 ++ l2 else to_front x (l1 ++ l2)) s s' /\ (x = 0 -> un = first_of (udp_unconnected s inp dest bc) (l1 ++ l2)).
Proof.
  induction l2 as [|x l2 IH]; intros n l1 prev uncon s Hl Hn Hprev Hun.
  { cbn zeta. exists uncon, s. rewrite app_nil_r in *. split; [by destruct n|]. split; [done|]. split; [|done]. by split. }
  destruct n as [|n]; [cbn in Hn; lia|]. assert (x <> 0) as Hx by (apply (pcb_list_nonzero _ _ _ _ Hl), elem_of_app; right; left).
  cbn zeta. cbn [udp_find first_of]. rewrite (proj2 (Z.eqb_neq _ _) Hx). unfold gets. rewrite (bind_some _ _ s s s eq_refl). cbn [id].
  set (un1 := if _ && _ && (uncon =? 0) then x else uncon).
  assert (un1 = first_of (udp_unconnected s inp dest bc) (l1 ++ [x])) as Hun1.
  { unfold un1. rewrite Hun. clear -Hl. pose proof (fun y Hy => pcb_list_nonzero _ _ _ y Hl Hy) as Hnz. clear Hl. induction l1 as [|y l1 IH]; cbn [app first_of].
    - rewrite Z.eqb_refl, andb_true_r. done.
    - destruct (udp_unconnected s inp dest bc y); [|by apply IH; intros z Hz; apply Hnz; right].
      rewrite (proj2 (Z.eqb_neq y 0)) by (apply Hnz; left). by rewrite andb_false_r. }
  destruct (udp_perfect s inp src dest bc x) eqn:Ep; unfold udp_perfect, udp_hit in Ep; rewrite Ep.
  - assert (to_front x (l1 ++ x :: l2) = x :: l1 ++ l2) as Efront by (apply to_front_split; [by eapply pcb_list_nodup|done]). rewrite Efront.
    destruct l1 as [|a l0 _] using rev_ind.
    + cbn in Hprev. subst prev. cbn [Z.eqb negb]. eexists un1, _. split; [reflexivity|]. split; [done|]. split; [|done]. rewrite (proj2 (Z.eqb_neq _ _) Hx). by split.
    + rewrite last_snoc in Hprev. cbn in Hprev. subst prev. rewrite <- app_assoc in *. cbn [app] in Hl.
      assert (a <> 0) as Ha by (apply (pcb_list_nonzero _ _ _ _ Hl), elem_of_app; right; left). rewrite (proj2 (Z.eqb_neq _ _) Ha). cbn [negb].
      destruct (requeue_run (udp s) l0 a x l2 Hl) as (u' & E & Hl' & Hre). eexists un1, (with_udp s u').
      split; [etransitivity; [apply bind_some; unfold on_udp; rewrite E; reflexivity|reflexivity]|].
      split; [done|]. split; [|done]. rewrite (proj2 (Z.eqb_neq _ _) Hx). rewrite <- ?app_assoc. by split.
  - destruct (IH n (l1 ++ [x]) x un1 s) as (un & s' & E & Hst & Hro & Hz); [by rewrite <- app_assoc|cbn in Hn; lia|by rewrite last_snoc|done|].
    cbn zeta in E. rewrite <- app_assoc in Hro, Hz. cbn [app] in Hro, Hz. exists un, s'. split; [|done]. rewrite <- E. f_equal. 
    pose proof (pcb_list_app _ _ _ _ _ Hl) as (_ & _ & Hl2). destruct l2 as [|y l2]; [exact Hl2|]. by destruct Hl2 as (-> & _).
Qed.
Abbreviation input := (udp_input custom_free_function fuel call_recv icmp_dest_unreach).
Abbreviation handed_to := (udp_deliver custom_free_function call_recv icmp_dest_unreach).

(** A header that is there: the ports, and the connection for them. *)
Lemma udp_found p inp l b own pcbs (s : net H) :
  owned (stack s) own p l b -> all_bytes (data (stack s)) -> listed (udp s) pcbs -> (length pcbs <= fuel)%nat -> UDP_HLEN <= len b ->
  let D := content (stack s) l in
  let x := udp_choice s inp (be16 D 0) (be16 D 2) (udp_broadcast s) pcbs in
  exists s1, input p inp s = (if negb (x =? 0) || ip4_addr_cmp (ip_addr (netifs s inp)) (current_iphdr_dest (ip_data s))
      then handed_to p x (be16 D 0) (udp_broadcast s) else free_packet custom_free_function p) s1 /\
    stack s1 = stack s /\ routed (to_front (udp_front s pcbs inp (len b) D) pcbs) s s1.
Proof.
  intros Ho Hm Hl Hf Hlen D x. pose proof (ow_first _ _ _ _ _ Ho) as Hb. destruct (packet_fields 8 _ _ _ _ _ Ho Hm Hlen) as (Hfield & HB & HlB). fold D in Hfield, HB, HlB.
  set (s0 := with_stats s (counted [udp_recv_] (stats s))).
  unfold udp_input. rewrite (bind_some (STATS_INC _) _ s tt s0 eq_refl).
  rewrite (on_lwip_bind _ _ s0 b (stack s0)); [|cbn; unfold deref; by rewrite Hb]. change (set_lwip (stack s0) s0) with s0.
  rewrite (proj2 (Z.ltb_ge _ _) Hlen). unfold gets. rewrite (bind_some _ _ s0 s0 s0 eq_refl). cbn [id].
  change (stack s0) with (stack s). assert (load_le (data (stack s)) (payload b) 2 = field D 0 2) as -> by (rewrite <- Hfield by lia; f_equal; lia).
  change (load_le (data (stack s)) (payload b + 2) 2) with (load_le (data (stack s)) (payload b + Z.of_nat 2) 2). rewrite Hfield, !field_htons by (done || lia).
  change (ip4_addr_isbroadcast _ _) with (udp_broadcast s). set (src := be16 D 0) in *. set (dest := be16 D 2) in *.
  destruct (udp_find_run inp src dest (udp_broadcast s) pcbs fuel [] 0 0 s0 Hl Hf eq_refl eq_refl) as (un & s1 & E & Hst & Hro & Hun). cbn [app] in E, Hro, Hun. cbn zeta in E, Hro, Hun.
  change (udp_perfect s0) with (udp_perfect s) in *. change (udp_unconnected s0) with (udp_unconnected s) in *.
  assert (match pcbs with [] => 0 | a :: _ => a end = udp_pcbs (udp s0)) as Efirst.
  { change (udp s0) with (udp s). destruct pcbs; [by cbn in Hl|by destruct Hl as (-> & _)]. }
  rewrite Efirst in E. rewrite (bind_some _ _ _ _ _ E). cbn [fst snd]. rewrite (bind_some _ _ s1 s1 s1 eq_refl). cbn [id].
  assert ((if first_of (udp_perfect s inp src dest (udp_broadcast s)) pcbs =? 0 then un else first_of (udp_perfect s inp src dest (udp_broadcast s)) pcbs) = x) as ->.
  { unfold x, udp_choice. destruct (Z.eqb_spec (first_of (udp_perfect s inp src dest (udp_broadcast s)) pcbs) 0) as [Ez|]; [by apply Hun|done]. }
  exists s1. split.
  - destruct (ro_netifs _ _ _ Hro) as [-> _]. rewrite (ro_ip _ _ _ Hro). done.
  - split; [done|]. unfold udp_front, to_front. rewrite (proj2 (Z.ltb_ge _ _) Hlen). fold src dest. unfold to_front in Hro. 
    destruct (first_of (udp_perfect s inp src dest (udp_broadcast s)) pcbs =? 0) eqn:Ez; apply (routed_step _ s s1 s1); try done; destruct Hro as [H1 H2 H3 H4 H5]; by split.
Qed.

Lemma free_packet_run p l b own (s : net H) : owned (stack s) own p l b ->
  exists t, free_packet custom_free_function p s = Some (tt, set_lwip t s) /\ valid t (own_add p (-1) own) /\ data t = data (stack s).
Proof.
  intros Ho. destruct (owned_free custom_free_function _ _ _ _ _ Ho) as (n & t & E & Hv & Hd & _). exists t. split; [|done].
  unfold free_packet. by rewrite (on_lwip_bind _ _ s _ _ E).
Qed.

(** The header is taken off, and the datagram given to the connection or to nobody. *)
Lemma udp_deliver_run p x src bc l b own (s : net H) : owned (stack s) own p l b -> UDP_HLEN <= len b ->
  exists t b1, owned t own p l b1 /\ data t = data (stack s) /\ content t l = drop 8 (content (stack s) l) /\ payload b1 = payload b + UDP_HLEN /\ len b1 = len b - UDP_HLEN /\
    forall st c, udp_pcb_at (udp s) x = c ->
      (st = (if x =? 0 then stats s else counted [udpindatagrams] (stats s))) ->
      let s1 := with_stats (set_lwip t s) st in
      handed_to p x src bc s =
        (if negb (x =? 0) then
           if negb (recv c =? 0) then call_recv (recv c) (recv_arg c) x p (current_iphdr_src (ip_data s)) src else free_packet custom_free_function p
         else
           let* _ := when (negb bc && negb (ip4_addr_ismulticast (current_iphdr_dest (ip_data s))))
             (let* _ := on_lwip (pbuf_header_force p (to_signed 16 (current_ip_header_tot_len (ip_data s) + UDP_HLEN))) in
              icmp_dest_unreach p ICMP_DUR_PORT) in
           let* _ := STATS_INC [udp_proterr; udp_drop; udpnoports] in
           free_packet custom_free_function p) s1.
Proof.
  intros Ho Hlen. destruct (owned_remove_header _ _ _ _ _ UDP_HLEN Ho ltac:(unfold UDP_HLEN in *; lia)) as (t & b1 & E & Ho1 & Hd & Hc & Hp1 & Hl1 & _).
  exists t, b1. split; [done|]. split; [done|]. split; [done|]. split; [done|]. split; [done|]. intros st c <- ->. cbn zeta. unfold udp_deliver.
  rewrite (on_lwip_bind _ _ s _ _ E). cbn [Z.eqb negb]. set (s1 := set_lwip t s). destruct (x =? 0); cbn [negb].
  - unfold gets. by rewrite (bind_some _ _ s1 s1 s1 eq_refl).
  - set (s2 := with_stats (set_lwip t s) (counted [udpindatagrams] (stats s))).
    rewrite (bind_some (STATS_INC _) _ s1 tt s2 eq_refl). unfold gets. by rewrite (bind_some _ _ s2 s2 s2 eq_refl).
Qed.

(** What is left when nobody gets the datagram. *)
Record udp_dropped (own : owners) (p : Z) (pcbs : list Z) (s s' : net H) : Prop := {
  ud_valid : valid (stack s') (own_add p (-1) own);
  ud_data : data (stack s') = data (stack s);
  ud_routed : routed pcbs s s';
}.

Lemma free_dropped p l b own pcbs (s s1 : net H) : owned (stack s1) own p l b -> data (stack s1) = data (stack s) -> routed pcbs s s1 ->
  exists s', free_packet custom_free_function p s1 = Some (tt, s') /\ udp_dropped own p pcbs s s'.
Proof.
  intros Ho Hd Hro. destruct (free_packet_run p l b own s1 Ho) as (t & E & Hv & Hdt). eexists. split; [exact E|].
  split; [done|by rewrite <- Hd|by apply (routed_step _ s s1)].
Qed.

(** A datagram for a connection that receives. *)
Lemma udp_input_handed p inp l b own pcbs x src (s : net H) :
  owned (stack s) own p l b -> all_bytes (data (stack s)) -> listed (udp s) pcbs -> (length pcbs <= fuel)%nat ->
  let D := content (stack s) l in
  udp_outcome s pcbs inp (len b) D = UHand x src ->
  let c := udp_pcb_at (udp s) x in
  exists s1 b1, input p inp s = call_recv (recv c) (recv_arg c) x p (current_iphdr_src (ip_data s)) src s1 /\
    owned (stack s1) own p l b1 /\ content (stack s1) l = drop 8 D /\ data (stack s1) = data (stack s) /\ routed (to_front (udp_front s pcbs inp (len b) D) pcbs) s s1.
Proof.
  intros Ho Hm Hl Hf D Hout c. unfold udp_outcome in Hout. destruct (Z.ltb_spec (len b) UDP_HLEN) as [|Hlen]; [done|].
  destruct (udp_found p inp l b own pcbs s Ho Hm Hl Hf Hlen) as (s1 & -> & Hst & Hro). fold D in Hro |- *.
  set (y := udp_choice s inp (be16 D 0) (be16 D 2) (udp_broadcast s) pcbs) in *. destruct (y =? 0) eqn:Ey; cbn [negb orb] in *.
  { by destruct (ip4_addr_cmp _ _ && _ && _). }
  destruct (recv (udp_pcb_at (udp s) y) =? 0) eqn:Er; [done|]. injection Hout as <- <-. rewrite <- Hst in Ho.
  destruct (udp_deliver_run p y (be16 D 0) (udp_broadcast s) l b own s1 Ho Hlen) as (t & b1 & Ho1 & Hd & Hc & _ & _ & E).
  rewrite (E _ _ eq_refl eq_refl). rewrite Ey. cbn [negb]. pose proof (re_pcbs _ _ (ro_udp _ _ _ Hro) y) as Ec. fold c in Ec.
  assert (recv (udp_pcb_at (udp s1) y) = recv c) as Er' by (by apply (f_equal recv) in Ec).
  assert (recv_arg (udp_pcb_at (udp s1) y) = recv_arg c) as -> by (by apply (f_equal recv_arg) in Ec). rewrite Er'. change (recv c =? 0) with (recv (udp_pcb_at (udp s) y) =? 0). rewrite Er, (ro_ip _ _ _ Hro). cbn [negb].
  eexists _, b1. split; [reflexivity|]. split; [done|]. rewrite Hst in Hd, Hc. split; [done|]. split; [done|].
  by apply (routed_step _ s s1).
Qed.

(** C19 A datagram goes, without its header, to the function of the first connection that has
    its destination port and address and its sender as the peer, or else of the first
    without a peer; with it go the address and the port of the sender, and that
    connection, if it has the sender as its peer, is the first of the list afterwards. A
    datagram for a port of this host that nobody has is returned to its sender through
    ICMP, and every other one is freed; the connections stay as they are. *)
Theorem udp_input_correct p inp l b own pcbs (s : net H) :
  owned (stack s) own p l b -> all_bytes (data (stack s)) -> listed (udp s) pcbs -> (length pcbs <= fuel)%nat ->
  let D := content (stack s) l in
  let order := to_front (udp_front s pcbs inp (len b) D) pcbs in
  match udp_outcome s pcbs inp (len b) D with
  | UDrop => exists s', input p inp s = Some (tt, s') /\ udp_dropped own p order s s'
  | UUnreachable => exists s1 b1, input p inp s =
      (let* _ := on_lwip (pbuf_header_force p (to_signed 16 (current_ip_header_tot_len (ip_data s) + UDP_HLEN))) in
       let* _ := icmp_dest_unreach p ICMP_DUR_PORT in
       let* _ := STATS_INC [udp_proterr; udp_drop; udpnoports] in
       free_packet custom_free_function p) s1 /\
      owned (stack s1) own p l b1 /\ payload b1 = payload b + UDP_HLEN /\ content (stack s1) l = drop 8 D /\ routed order s s1
  | UHand x src =>
      let c := udp_pcb_at (udp s) x in
      exists s1 b1, input p inp s = call_recv (recv c) (recv_arg c) x p (current_iphdr_src (ip_data s)) src s1 /\
        owned (stack s1) own p l b1 /\ content (stack s1) l = drop 8 D /\ data (stack s1) = data (stack s) /\ routed order s s1
  end.
Proof.
  intros Ho Hm Hl Hf D order. destruct (udp_outcome s pcbs inp (len b) D) eqn:Eout; [..|by apply udp_input_handed];
    unfold udp_outcome in Eout; (destruct (Z.ltb_spec (len b) UDP_HLEN) as [Hs|Hlen]; [try discriminate|]).
  { pose proof (ow_first _ _ _ _ _ Ho) as Hb. unfold udp_input.
    set (s0 := with_stats s (counted [udp_recv_] (stats s))).
    rewrite (bind_some (STATS_INC _) _ s tt s0 eq_refl), (on_lwip_bind _ _ s0 b (stack s0)); [|cbn; unfold deref; by rewrite Hb].
    change (set_lwip (stack s0) s0) with s0. rewrite (proj2 (Z.ltb_lt _ _) Hs).
    set (s1 := with_stats s (counted [udp_lenerr; udp_drop; udpinerrors] (stats s0))).
    rewrite (bind_some (STATS_INC _) _ s0 tt s1 eq_refl). apply (free_dropped p l b); [done..|]. unfold order, udp_front. rewrite (proj2 (Z.ltb_lt _ _) Hs). by split. }
  all: destruct (udp_found p inp l b own pcbs s Ho Hm Hl Hf Hlen) as (s1 & -> & Hst & Hro); fold D in Hro |- *; fold order in Hro;
    set (y := udp_choice s inp (be16 D 0) (be16 D 2) (udp_broadcast s) pcbs) in *; rewrite <- Hst in Ho;
    destruct (udp_deliver_run p y (be16 D 0) (udp_broadcast s) l b own s1 Ho Hlen) as (t & b1 & Ho1 & Hd & Hc & Hp1 & _ & E); specialize (E _ _ eq_refl eq_refl);
    pose proof (re_pcbs _ _ (ro_udp _ _ _ Hro) y) as Ec; apply (f_equal recv) in Ec; cbn in Ec; cbn zeta in E; rewrite Ec, (ro_ip _ _ _ Hro) in E;
    set (s2 := with_stats (set_lwip t s1) _) in E;
    assert (routed order s s2) as Hro2 by (by apply (routed_step _ s s1));
    assert (data (stack s2) = data (stack s)) as Hd2 by (by rewrite <- Hst, <- Hd); destruct (y =? 0) eqn:Ey; cbn [negb orb] in *.
  - destruct (ip4_addr_cmp _ _) eqn:Ecmp; cbn [andb] in Eout; [|by apply (free_dropped p l b); [|by rewrite Hst|]].
    destruct (negb (udp_broadcast s) && negb (ip4_addr_ismulticast (current_iphdr_dest (ip_data s)))); [done|]. rewrite E. cbn [when]. rewrite bind_ret.
    set (s3 := with_stats (set_lwip t s2) (counted [udp_proterr; udp_drop; udpnoports] (stats s2))).
    rewrite (bind_some (STATS_INC _) _ s2 tt s3 eq_refl). apply (free_dropped p l b1); [done|done|]. by apply (routed_step _ s s2).
  - rewrite E. destruct (recv (udp_pcb_at (udp s) y) =? 0); cbn [negb]; [|done]. by apply (free_dropped p l b1).
  - destruct (ip4_addr_cmp _ _) eqn:Ecmp; cbn [andb] in Eout; [|done]. rewrite E.
    destruct (negb (udp_broadcast s) && negb (ip4_addr_ismulticast (current_iphdr_dest (ip_data s)))); [|done]. cbn [when]. rewrite bind_assoc.
    exists s2, b1. rewrite Hst in Hc. by split_and!.
  - by destruct (recv (udp_pcb_at (udp s) y) =? 0).
Qed.
End InputProofs.

(** * Example *)

(** A connection with the port 5120, and a datagram for it. *)
Definition demo_pcbs : udp_state :=
  UdpState 8 (fun _ => UdpPcb 0 0 0 0 0 UDP_TTL 0 0 5120 0 0x4000 7) UDP_LOCAL_PORT_RANGE_START (StatsMem 0 0 1).
Definition demo_udp_datagram : list Z := [0x12; 0x34; 0x14; 0x00; 0; 33; 0; 0] ++ replicate 25 7.

Lemma udp_input_correct_witness : exists (s s1 : net arena) own l b (seen : list Z),
  owned (stack s) own 65544 l b /\ content (stack s) l = demo_udp_datagram /\
  udp_input (fun _ => stuck) 1 (fun f arg pcb p addr port s => if decide (seen = [f; arg; pcb; p; addr; port]) then Some (tt, s) else None) (fun _ _ => stuck) 65544 8 s = Some (tt, s1) /\
  seen = [0x4000; 7; 8; 65544; PP_HTONL 0x0a704901; 0x1234] /\ content (stack s1) l = replicate 25 7.
Proof.
  destruct (demo_arrival demo_udp_datagram) as (t & own & Ho & Hm & Hc); [forall_list; by vm_compute|reflexivity|].
  set (s := Net t (fun _ => demo_netif) [8] (IpGlobals 8 8 65548 20 (PP_HTONL 0x0a704901) (PP_HTONL 0x0a704950)) (fun _ => 0) 0 (fun _ => RawPcb 0 0 0 0 0 0 0 0) demo_pcbs (Sending 0 8)).
  set (seen := [0x4000; 7; 8; 65544; PP_HTONL 0x0a704901; 0x1234]).
  pose proof (udp_input_correct (fun _ => stuck) 1 (fun f arg pcb p addr port s => if decide (seen = [f; arg; pcb; p; addr; port]) then Some (tt, s) else None) (fun _ _ => stuck)
    65544 8 [65544] (part 0 65568 33 33) own [8] s Ho Hm) as Hin.
  assert (pcb_list (fun x => udp_next (udp_pcb_at (udp s) x)) (udp_pcbs (udp s)) [8]) as Hl by (by cbn). specialize (Hin Hl (le_n 1)). cbn zeta in Hin.
  change (content (stack s) [65544]) with (content t [65544]) in Hin. rewrite Hc in Hin.
  assert (udp_outcome s [8] 8 33 demo_udp_datagram = UHand 8 0x1234) as Eo by (vm_compute; reflexivity). cbn [part len] in Hin. rewrite Eo in Hin.
  destruct Hin as (s1 & b1 & E & _ & Hc1 & _). exists s, s1, own, [65544], (part 0 65568 33 33), seen.
  split; [exact Ho|]. split; [exact Hc|]. split; [rewrite E; change (recv _) with 0x4000; change (recv_arg _) with 7; by rewrite decide_True|]. split; [reflexivity|]. by rewrite Hc1.
Defined.
