(* ===== verification/Delivery.v ===== *)
(** From the mailbox to a connection: the function that lwIP calls when it waits
    (sys_arch.cpp) on top of the input sides of IPv4 and UDP. *)

From Stdlib Require Import ZArith Lia Bool.
From stdpp Require Import base list gmap.
From S2P Require Import Prelude Smram RdRand Aead AesGcm RingBuffer Hw Chksum Network Pbuf PbufRef PbufOps PbufData PbufHistory PbufContent Receive Ip4 Udp UdpInput.

(** A new chain belongs to the one who got it. *)
Lemma new_chain_owned {H} `{OL : OutsideLaws H} (h : gmap Z struct_pbuf) (s : lwip H) own p n room l :
  valid s (granted p own) -> (forall x, 0 <= own x) -> p <> 0 -> new_chain h (heap s) p n room l -> n < 2 ^ 16 ->
  exists b, owned s (granted p own) p l b /\ len b = Z.min n room.
Proof.
  intros Hv Hown Hp [Hc Hnew _ Hsum Hf] Hn. apply fmap_Some in Hf as (b & Hb & Elen). exists b. split; [|done].
  assert (granted p own p = own p + 1) as Eg by (unfold granted; rewrite decide_False by done; apply own_add_eq). specialize (Hown p).
  assert (p ∈ l) as Hin by (destruct l; [by cbn in Hc|]; destruct Hc as (-> & _); left).
  destruct (Hnew p Hin) as (_ & b' & Hb' & Href & _). rewrite Hb in Hb'. injection Hb' as <-.
  split; try done; [by rewrite total_parts, Hsum| |lia].
  intros Hlk. destruct (lk_ref _ _ (so_links _ _ (va_sound _ _ Hv)) p _ _ (graph_lookup _ _ _ Hb)) as [_ [[_ E]|[? _]]]; [lia|done].
Qed.

(** What [udp_input] asks of the state. *)
Definition in_transit {H} (s : net H) (netif inp : Z) (B : list Z) : net H :=
  with_ip s (IpGlobals netif inp 0 0 (field B 12 4) (field B 16 4)).

Lemma outcome_ext {H} (s s' : net H) pcbs inp first D : netifs s' = netifs s -> udp s' = udp s ->
  current_netif (ip_data s') = current_netif (ip_data s) -> current_input_netif (ip_data s') = current_input_netif (ip_data s) ->
  current_iphdr_src (ip_data s') = current_iphdr_src (ip_data s) -> current_iphdr_dest (ip_data s') = current_iphdr_dest (ip_data s) ->
  udp_outcome s' pcbs inp first D = udp_outcome s pcbs inp first D /\ udp_front s' pcbs inp first D = udp_front s pcbs inp first D.
Proof.
  destruct s as [? ? ? [] ? ? ? ? ?], s' as [? ? ? [] ? ? ? ? ?]. cbn. intros -> -> -> -> -> ->. done.
Qed.

Section Delivery.
Context {A : Aead} {max : Z} {Laws : AeadLaws A max} {H : Type} `{OL : OutsideLaws H}.
Context (custom_free_function : Z -> prog (lwip H) unit) (uio_ram rx_packet : Z) (ocall_uio_poll : prog (net H) unit).
Context (call_raw : Z -> Z -> Z -> Z -> Z -> prog (net H) Z) (call_recv : Z -> Z -> Z -> Z -> Z -> Z -> prog (net H) unit).
Context (ip4_reass : Z -> prog (net H) Z) (tcp_input icmp_input icmp_dest_unreach : Z -> Z -> prog (net H) unit) (raw_fuel fuel : nat).

(** The input function of the interface [sgx_netif], at the address [inp]. *)
Definition ip_input (inp p : Z) : prog (net H) Z :=
  ip4_input custom_free_function call_raw raw_fuel ip4_reass (udp_input custom_free_function fuel call_recv icmp_dest_unreach)
    tcp_input icmp_input icmp_dest_unreach p inp.

(** C16 A datagram that the supervisor has put into the mailbox reaches the connection that
    it is for: when the enclave waits, that connection's function is called with the
    payload of the datagram and its sender, and the message is gone from the mailbox.
    Only when the C library refuses one of the buffers that the packet takes, the input
    function gets NULL. No raw connection may take UDP packets before. *)
Theorem datagram_delivered inp st st1 own mi mo msg mi' raws pcbs hl n netif x src :
  places (max := max) uio_ram rx_packet -> ocall_uio_poll st = Some (tt, st1) -> polled uio_ram st1 own mi mo ->
  Mailbox.get mi = Some (msg, mi') -> msg_ulen msg <= MSG_SIZE - 4 ->
  pcb_list (fun r => raw_next (raw_pcb_at st1 r)) (raw_pcbs st1) raws -> (length raws <= raw_fuel)%nat ->
  Forall (fun r => raw_recv (raw_pcb_at st1 r) = 0 \/ raw_protocol (raw_pcb_at st1 r) <> IP_PROTO_UDP) raws ->
  pcb_list (fun r => udp_next (udp_pcb_at (udp st1) r)) (udp_pcbs (udp st1)) pcbs -> (length pcbs <= fuel)%nat ->
  let B := msg_packet msg in
  let first := Z.min (msg_ulen msg) PBUF_POOL_BUFSIZE_ALIGNED in
  let D := drop (Z.to_nat hl) (take (Z.to_nat n) B) in
  ip4_verdict st1 inp first B = Deliver hl n netif IP_PROTO_UDP ->
  udp_outcome (in_transit st1 netif inp B) pcbs inp (Z.min first n - hl) D = UHand x src ->
  let wait := sgx_arch_waiting_fn custom_free_function uio_ram rx_packet ocall_uio_poll (ip_input inp) in
  let c := udp_pcb_at (udp st1) x in
  if negb (pool_supply PBUF_RAW (msg_ulen msg) (outside (stack st1))) then
    exists s', wait st = (let* _ := ip_input inp 0 in ret 0) (set_lwip s' st1) /\ polled uio_ram (set_lwip s' st1) own mi' mo
  else exists p l b s1, wait st = (let* _ := call_recv (recv c) (recv_arg c) x p (field B 12 4) src in let* _ := ip4_finish in ret 0) s1 /\
    owned (stack s1) (granted p own) p l b /\ content (stack s1) l = drop 8 D /\ polled uio_ram s1 (granted p own) mi' mo /\
    reordered (udp st1) (udp s1) /\
    pcb_list (fun r => udp_next (udp_pcb_at (udp s1) r)) (udp_pcbs (udp s1)) (to_front (udp_front (in_transit st1 netif inp B) pcbs inp (Z.min first n - hl) D) pcbs).
Proof.
  intros Hpl Epoll Hpo Eg Hul Hraw Hrf Hnone Hl Hf B first D Ev Eo wait c.
  destruct (waiting_fn_run custom_free_function uio_ram rx_packet ocall_uio_poll (ip_input inp) st st1 own mi mo msg mi' Hpl Epoll Hpo Eg Hul) as (p & l & s' & E & Hpo' & Hres).
  fold wait in E. change (lwip_of st1) with (stack st1) in Hres. destruct (pool_supply _ _ _); cbn [negb]; cycle 1.
  { subst p. exists s'. split; [exact E|]. unfold granted in Hpo'. by rewrite decide_True in Hpo' by done. }
  destruct Hres as (Hp & Hnc & Hct). pose proof Hpo' as [Hv' Hm' Hi' Ho']. set (st2 := set_lwip s' st1) in *. change (lwip_of st2) with s' in *.
  destruct (new_chain_owned (heap (stack st1)) s' own p _ _ l Hv' (lk_own _ _ (so_links _ _ (va_sound _ _ (po_valid _ _ _ _ _ Hpo)))) Hp Hnc) as (b & Hown & Elen).
  { change MSG_SIZE with 4080 in Hul. lia. }
  fold first in Elen. change s' with (stack st2) in Hown, Hm', Hct.
  destruct (ip4_input_delivered custom_free_function call_raw raw_fuel ip4_reass (udp_input custom_free_function fuel call_recv icmp_dest_unreach) tcp_input icmp_input
    icmp_dest_unreach p inp l b (granted p own) raws hl n netif IP_PROTO_UDP (udp_input custom_free_function fuel call_recv icmp_dest_unreach) st2)
    as (s3 & l3 & b3 & E3 & Ho3 & Hc3 & Hl3 & Hd3 & Ha3 & Hip3 & _); [done|done|done|done|by rewrite Hct, Elen, (verdict_ext st1)|done|done|].
  rewrite Hct in Hc3, Hip3. fold B D in Hc3, Hip3. rewrite Elen in Hl3.
  destruct (outcome_ext (in_transit st1 netif inp B) s3 pcbs inp (len b3) D) as [Eout Efr]; [apply Ha3|apply Ha3|by rewrite Hip3..|].
  destruct (udp_input_handed custom_free_function fuel call_recv icmp_dest_unreach p inp l3 b3 (granted p own) pcbs x src s3) as (s4 & b4 & E4 & Ho4 & Hc4 & Hd4 & Hro);
    [done|by rewrite Hd3|by rewrite (as_udp _ _ Ha3)|done|by rewrite Hc3, Eout, Hl3|].
  rewrite Hc3 in Hc4, Hro. rewrite Efr, Hl3 in Hro. exists p, l3, b4, s4. split; [|split; [done|split; [done|split]]].
  - rewrite E. unfold bind at 1. unfold ip_input. rewrite E3. rewrite (as_udp _ _ Ha3), Hip3 in E4. cbn [current_iphdr_src] in E4. unfold bind at 1. rewrite E4.
    unfold bind. change (udp_pcb_at (udp st2) x) with c. by destruct (call_recv _ _ _ _ _ _ _) as [[? ?]|].
  - split; change (lwip_of s4) with (stack s4); [apply Ho4|by rewrite Hd4, Hd3|by rewrite Hd4, Hd3..].
  - destruct Hro as [_ _ _ Hre Hlist]. rewrite (as_udp _ _ Ha3) in Hre. by split.
Qed.
End Delivery.

(** The datagram of the example is delivered to the connection with its port. *)
Lemma datagram_delivered_witness : exists (st : net arena) (hit : prog (net arena) unit),
  let wait := sgx_arch_waiting_fn (fun _ => stuck) demo_base 0x900000 (ret tt)
    (ip_input (fun _ => stuck) (fun _ _ _ _ _ => stuck) (fun f arg pcb _ addr port => if decide ([f; arg; pcb; port] = [0x4000; 7; 8; 0x1234]) then hit else stuck)
      (fun _ => stuck) (fun _ _ => stuck) (fun _ _ => stuck) (fun _ _ => stuck) 0 1 8) in
  exists l s1, wait st = (let* _ := hit in let* _ := ip4_finish in ret 0) s1 /\ content (stack s1) l = [1; 2; 3].
Proof.
  destruct (demo_sent demo_datagram) as (msg & m & mi & Hm & Hi & Ho & Eu & Epk & mi' & Eg); [forall_list; by vm_compute|cbn; lia|].
  set (t := Lwip ∅ m [] (StatsMem 0 0 0) (StatsMem 0 0 0) (StatsMem 0 0 0) 0 : lwip arena). set (st := demo_net t demo_pcbs). exists st, (ret tt). cbn zeta.
  pose proof (datagram_delivered (A := aes256gcm) (max := crypto_aead_aes256gcm_MESSAGEBYTES_MAX) (fun _ => stuck) demo_base 0x900000 (ret tt) (fun _ _ _ _ _ => stuck)
    (fun f arg pcb _ addr port => if decide ([f; arg; pcb; port] = [0x4000; 7; 8; 0x1234]) then ret tt else stuck)
    (fun _ => stuck) (fun _ _ => stuck) (fun _ _ => stuck) (fun _ _ => stuck) 0 1 8 st st (fun _ => 0) mi Mailbox.empty msg mi' [] [8] 20 31 8 8 0x1234) as Hrec.
  cbn zeta in Hrec. rewrite Eu, Epk in Hrec. change (outside (stack st)) with ([] : arena) in Hrec.
  assert (pool_supply PBUF_RAW (Z.of_nat (length demo_datagram)) ([] : arena) = true) as Hs by (by vm_compute). rewrite Hs in Hrec.
  destruct Hrec as (p & l & b & s1 & E & _ & Hc & _).
  - split; [by vm_compute|discriminate|left; by vm_compute|right; by vm_compute|right; by vm_compute].
  - reflexivity.
  - split; [apply (reachable_valid (fun _ => stuck)), reach_start; reflexivity|exact Hm|exact Hi|exact Ho].
  - exact Eg.
  - by vm_compute.
  - reflexivity.
  - cbn. lia.
  - constructor.
  - by cbn.
  - cbn. lia.
  - vm_compute. reflexivity.
  - vm_compute. reflexivity.
  - exists l, s1. split; [exact E|]. by rewrite Hc.
Defined.
