(* ===== verification/UdpOutput.v ===== *)
(** UDP output of the lwIP stack (udp.cpp): the header and its checksum, and the way of
    a datagram from one host to a connection of another. *)

From Stdlib Require Import ZArith Lia Bool.
From stdpp Require Import base list gmap.
From S2P Require Import Prelude Smram RdRand Aead AesGcm RingBuffer Hw Chksum Network Pbuf PbufRef PbufOps PbufData PbufHistory PbufContent Receive Ip4 IpOutput Udp UdpInput Delivery.

Definition UDP_FLAGS_NOCHKSUM : Z := 0x01.

Section UdpOutput.
Context {H : Type} {Out : Outside H} (custom_free_function : Z -> prog (lwip H) unit) (fuel : nat).
Context (netif_loop_output : Z -> Z -> prog (net H) Z) (ip4_frag netif_output : Z -> Z -> Z -> prog (net H) Z).
Abbreviation M := (prog (net H)).

(** The buffers of a packet, as the loop over them meets them. *)
Fixpoint buffers_loop (n : nat) (q : Z) : prog (lwip H) (list Chksum.pbuf) :=
  if q =? 0 then ret [] else
  match n with
  | O => stuck
  | S n =>
      let* b := deref q in
      let* qs := buffers_loop n (next b) in
      ret (Chksum.Pbuf (payload b) (len b) :: qs)
  end.
Definition packet_chksum (q proto proto_len src dest : Z) : prog (lwip H) Z :=
  let* n := walk_fuel in
  let* qs := buffers_loop n q in
  let* m := gets data in
  ret (ip_chksum_pseudo m qs proto proto_len src dest).

(** The packet with room for the header: [p], or a new pbuf in front of it. *)
Definition udp_add_header (p : Z) : prog (lwip H) Z :=
  let* r := pbuf_add_header p UDP_HLEN in
  if negb (r =? 0) then
    let* q := pbuf_alloc custom_free_function PBUF_IP UDP_HLEN PBUF_RAM in
    if q =? 0 then ret 0 else
    let* b := deref p in
    let* _ := when (negb (tot_len b =? 0)) (pbuf_chain q p) in
    ret q
  else ret p.

Definition udp_write_header (q src_port dst_port src_ip dst_ip flags : Z) : M unit :=
  let* b := on_lwip (deref q) in
  let udphdr := payload b in
  let* _ := poke udphdr (le_bytes 2 (lwip_htons src_port)) in
  let* _ := poke (udphdr + 2) (le_bytes 2 (lwip_htons dst_port)) in
  let* _ := poke (udphdr + 6) (le_bytes 2 0) in
  let* _ := poke (udphdr + 4) (le_bytes 2 (lwip_htons (tot_len b))) in
  when (Z.land flags UDP_FLAGS_NOCHKSUM =? 0)
    (let* udpchksum := on_lwip (packet_chksum q IP_PROTO_UDP (tot_len b) src_ip dst_ip) in
     poke (udphdr + 6) (le_bytes 2 (if udpchksum =? 0 then 0xffff else udpchksum))).

(** After the packet has been given to IP. *)
Definition udp_sent (p q err : Z) : M Z :=
  let* _ := STATS_INC [udpoutdatagrams] in
  let* _ := when (negb (q =? p)) (let* _ := on_lwip (pbuf_free custom_free_function q) in ret tt) in
  let* _ := STATS_INC [udp_xmit] in
  ret err.

(** A connection with a port sends a packet that is short enough. *)
Definition udp_output (pcb p dst_ip dst_port netif src_ip : Z) : M Z :=
  let* q := on_lwip (udp_add_header p) in
  if q =? 0 then ret ERR_MEM else
  let* c := on_udp (pcb_of pcb) in
  let* _ := udp_write_header q (local_port c) dst_port src_ip dst_ip (udp_flags c) in
  let* err := ip4_output_if_src netif_loop_output ip4_frag netif_output q (Some src_ip) (Some dst_ip) (ttl c) (tos c) IP_PROTO_UDP netif in
  udp_sent p q err.

Definition udp_sendto_if_src (pcb p : Z) (dst_ip : option Z) (dst_port netif src_ip : Z) : M Z :=
  match dst_ip with
  | None => ret ERR_VAL
  | Some dst_ip =>
      if pcb =? 0 then ret ERR_VAL else
      let* c := on_udp (pcb_of pcb) in
      let* err := if local_port c =? 0 then on_udp (udp_bind fuel pcb (Some (local_ip c)) (local_port c)) else ret ERR_OK in
      if negb (err =? ERR_OK) then ret err else
      let* b := on_lwip (deref p) in
      if u16 (tot_len b + UDP_HLEN) <? tot_len b then ret ERR_MEM else
      udp_output pcb p dst_ip dst_port netif src_ip
  end.

Definition udp_sendto_if (pcb p : Z) (dst_ip : option Z) (dst_port netif : Z) : M Z :=
  match dst_ip with
  | None => ret ERR_VAL
  | Some _ =>
      if pcb =? 0 then ret ERR_VAL else
      let* c := on_udp (pcb_of pcb) in
      let* s := gets id in
      if ip4_addr_isany (local_ip c) || ip4_addr_ismulticast (local_ip c)
      then udp_sendto_if_src pcb p dst_ip dst_port netif (ip_addr (netifs s netif))
      else if negb (ip4_addr_cmp (local_ip c) (ip_addr (netifs s netif))) then ret ERR_RTE
      else udp_sendto_if_src pcb p dst_ip dst_port netif (local_ip c)
  end.

Definition udp_sendto (pcb p : Z) (dst_ip : option Z) (dst_port : Z) : M Z :=
  match dst_ip with
  | None => ret ERR_VAL
  | Some ip =>
      if pcb =? 0 then ret ERR_VAL else
      let* c := on_udp (pcb_of pcb) in
      let* s := gets id in
      let* netif := if negb (netif_idx c =? NETIF_NO_INDEX) then ret (netif_get_by_index s (netif_idx c)) else ip4_route ip in
      if netif =? 0 then
        let* _ := STATS_INC [udp_rterr] in ret ERR_RTE
      else udp_sendto_if pcb p dst_ip dst_port netif
  end.

Definition udp_send (pcb p : Z) : M Z :=
  if pcb =? 0 then ret ERR_VAL else
  let* c := on_udp (pcb_of pcb) in
  udp_sendto pcb p (Some (remote_ip c)) (remote_port c).
End UdpOutput.

(** * What it sends *)

(** The header of RFC 768 around a checksum; a checksum of zero is sent as ones. *)
Definition udp_header_with (chksum src_port dst_port n : Z) : list Z :=
  [src_port / 256; src_port `mod` 256; dst_port / 256; dst_port `mod` 256; n / 256; n `mod` 256] ++ le_bytes 2 chksum.
Definition udp_chksum (src_port dst_port src dest n : Z) (D : list Z) : Z :=
  let c := lwip_htons (Rfc1071.checksum (pseudo_header src dest IP_PROTO_UDP n ++ udp_header_with 0 src_port dst_port n ++ D)) in
  if c =? 0 then 0xffff else c.
Definition udp_header (flags src_port dst_port src dest : Z) (D : list Z) : list Z :=
  let n := 8 + Z.of_nat (length D) in
  udp_header_with (if Z.land flags UDP_FLAGS_NOCHKSUM =? 0 then udp_chksum src_port dst_port src dest n D else 0) src_port dst_port n.

Lemma udp_header_length c sp dp n : length (udp_header_with c sp dp n) = 8%nat.
Proof. unfold udp_header_with. by rewrite length_app, length_le_bytes. Qed.

(** * Its checksum *)

Section Chksum.
Context (sp dp src dest n : Z) (D : list Z).
Hypothesis (Hsp : 0 <= sp < 2 ^ 16) (Hdp : 0 <= dp < 2 ^ 16) (Hn : 0 <= n < 2 ^ 16) (HD : bytes D).
Hypothesis (Hsrc : 0 <= src < 2 ^ 32) (Hdest : 0 <= dest < 2 ^ 32).

Lemma udp_header_split c : udp_header_with c sp dp n = le_bytes 2 (lwip_htons sp) ++ le_bytes 2 (lwip_htons dp) ++ le_bytes 2 (lwip_htons n) ++ le_bytes 2 c.
Proof using Hsp Hdp Hn. by rewrite !htons_bytes. Qed.

Lemma udp_header_bytes c : bytes (udp_header_with c sp dp n).
Proof using Hsp Hdp Hn. rewrite udp_header_split, !Forall_app. split_and!; apply bytes_le_bytes. Qed.

(** The words of the header, with the checksum among them. *)
Definition udp_words (c : Z) : Z := lwip_htons sp + (lwip_htons dp + (lwip_htons n + (c + val D))).

Lemma htons_range w : 0 <= lwip_htons w < 2 ^ 16.
Proof. apply wrap_range. lia. Qed.

Lemma val_word w l t : 0 <= w < 2 ^ 16 -> bytes l -> 0 <= t -> oc (val l) = oc t -> oc (val (le_bytes 2 w ++ l)) = oc (w + t).
Proof.
  intros Hw Hl Ht E. pose proof (val_nonneg _ Hl). rewrite <- (Z.mul_1_l (val _)), val_app by (done || apply bytes_le_bytes || lia). change (Nat.even (length (le_bytes 2 w))) with true. cbn iota.
  rewrite !Z.mul_1_l, le_bytes_val by done. by apply oc_add; try lia.
Qed.

Lemma udp_value c : 0 <= c < 2 ^ 16 -> oc (val (udp_header_with c sp dp n ++ D)) = oc (udp_words c).
Proof using Hsp Hdp Hn HD.
  intros Hc. rewrite udp_header_split, <- !app_assoc. unfold udp_words. pose proof (val_nonneg _ HD). pose proof (htons_range sp). pose proof (htons_range dp). pose proof (htons_range n).
  repeat (apply val_word; [done|rewrite ?Forall_app; split_and?; apply bytes_le_bytes || done|lia|]). done.
Qed.

Lemma udp_total c : 0 <= c < 2 ^ 16 -> exists K, 0 < K /\ bytes (pseudo_header src dest IP_PROTO_UDP n ++ udp_header_with c sp dp n ++ D) /\
  oc (val (pseudo_header src dest IP_PROTO_UDP n ++ udp_header_with c sp dp n ++ D)) = oc (K + c) /\
  K = src + dest + 256 * IP_PROTO_UDP + (n / 256 + 256 * (n `mod` 256)) + udp_words 0.
Proof using All.
  intros Hc. assert (bytes (udp_header_with c sp dp n ++ D)) as Hb by (apply Forall_app; split; [apply udp_header_bytes|done]).
  destruct (pseudo_header_value src dest IP_PROTO_UDP n (udp_header_with c sp dp n ++ D)) as [Hpb E]; [done..|].
  pose proof (val_nonneg _ Hb). pose proof (val_nonneg _ HD). pose proof (htons_range sp). pose proof (htons_range dp). pose proof (htons_range n).
  pose proof (Z.div_pos n 256). pose proof (Z.mod_pos_bound n 256). assert (0 <= udp_words c /\ udp_words c = udp_words 0 + c) as [Hw Ew] by (unfold udp_words; lia).
  assert (0 <= udp_words 0) by (unfold udp_words; lia). unfold IP_PROTO_UDP in *.
  eexists. split; [|split; [by apply Forall_app|split; [|reflexivity]]]; [lia|]. rewrite E.
  transitivity (oc (src + dest + 256 * 17 + (n / 256 + 256 * (n `mod` 256)) + udp_words c)); [|f_equal; lia].
  transitivity (oc (src + dest + 256 * 17 + (n / 256 + 256 * (n `mod` 256)) + val (udp_header_with c sp dp n ++ D))); [f_equal; lia|].
  apply oc_add; try lia. by apply udp_value.
Qed.

(** A receiver finds the sum to be all ones, and never a checksum of zero. *)
Lemma udp_chksum_verifies : let c := udp_chksum sp dp src dest n D in 0 < c < 2 ^ 16 /\
  Rfc1071.sum (pseudo_header src dest IP_PROTO_UDP n ++ udp_header_with c sp dp n ++ D) = 65535.
Proof using All.
  destruct (udp_total 0 ltac:(lia)) as (K & HK & Hb0 & E0 & EK). cbv zeta. unfold udp_chksum. rewrite rfc_checksum_val, E0, Z.add_0_r by done.
  pose proof (oc_range K). set (c := if _ =? 0 then _ else _). assert (0 < c < 2 ^ 16 /\ (c = 65535 - oc K \/ c = 65535 /\ oc K = 65535)) as [Hc Hcase].
  { unfold c. destruct (Z.eqb_spec (65535 - oc K) 0); lia. }
  split; [done|]. destruct (udp_total c ltac:(lia)) as (K' & _ & Hb & E & EK'). rewrite EK', <- EK in E. apply rfc_sum_ones; [done|]. rewrite E.
  destruct Hcase as [->|[-> Eo]]; [apply oc_complement; lia|]. rewrite <- Eo. apply (oc_eq _ _ 1); lia.
Qed.
End Chksum.

(** * The packet *)

Section Packet.
Context {H : Type} `{OL : OutsideLaws H} (custom_free_function : Z -> prog (lwip H) unit).

Lemma buffers_run ps : forall n p (s : lwip H), packet (heap s) p ps -> (length ps <= n)%nat -> buffers_loop n p s = Some (pieces ps, s).
Proof.
  induction ps as [|[a k] ps IH]; intros n p s Hp Hn; [cbn in Hp; subst p; by destruct n|].
  destruct Hp as (Hp0 & b & Hb & <- & <- & _ & _ & Hp), n as [|n]; [cbn in Hn; lia|]. cbn [buffers_loop]. rewrite (proj2 (Z.eqb_neq _ _) Hp0), (deref_run _ _ _ _ Hb).
  by rewrite (bind_some _ _ _ _ _ (IH n (next b) s Hp ltac:(cbn in Hn; lia))).
Qed.

Lemma packet_chain_ok (h : gmap Z struct_pbuf) p ps : packet h p ps -> chain_ok (pieces ps).
Proof.
  revert p. induction ps as [|[a k] ps IH]; intros p Hp; [constructor|]. destruct Hp as (_ & b & _ & _ & _ & Hk & _ & Hp). constructor; [cbn; lia|by apply (IH (next b))].
Qed.

Lemma packet_chksum_run q l b own proto n src dest (s : lwip H) : owned s own q l b -> all_bytes (data s) ->
  0 <= src < 2 ^ 32 -> 0 <= dest < 2 ^ 32 -> is_byte proto -> 0 <= n < 2 ^ 16 ->
  packet_chksum q proto n src dest s = Some (lwip_htons (Rfc1071.checksum (pseudo_header src dest proto n ++ content s l)), s).
Proof.
  intros Ho Hm Hs Hd Hp Hn. destruct (owned_facts _ _ _ _ _ Ho) as (Hq & _). destruct Ho as [Hv Hc Ht _ _ _]. destruct (packet_facts s own q l Hv Hc Hq Ht) as (Hpk & Hsz & _).
  unfold packet_chksum, walk_fuel, gets. rewrite (bind_some _ _ s (S (size (heap s))) s eq_refl), (bind_some _ _ _ _ _ (buffers_run _ (S (size (heap s))) q s Hpk ltac:(lia))).
  rewrite (bind_some _ _ s (data s) s eq_refl). unfold content. rewrite <- chain_bytes_pieces, <- pseudo_checksum by (done || by eapply packet_chain_ok). done.
Qed.

(** A new block is fresh. *)
Lemma pbuf_alloc_ram_fresh layer length (s s' : lwip H) r : 0 <= length < 2 ^ 16 ->
  pbuf_alloc custom_free_function layer length PBUF_RAM s = Some (r, s') -> r <> 0 ->
  live (outside s) !! (r - 8) = None /\ live (outside s') = <[r - 8 := 24 + layer_offset layer + length + 8]> (live (outside s)).
Proof.
  intros Hlen E Hr. unfold pbuf_alloc in E. rewrite !align_size in E. assert (0 <= layer_offset layer <= 54) as Hoff by (by destruct layer).
  change SIZEOF_STRUCT_PBUF with 24 in E. set (pl := u16 _) in E. destruct (Z.ltb_spec pl length) as [Hpl|Hpl]; cbn [orb] in E; [by injection E as <- _|].
  assert (pl = layer_offset layer + length) as Epl.
  { unfold pl, wrap in *. pose proof (Z.div_mod (layer_offset layer + length) (2 ^ 16) ltac:(done)).
    pose proof (Z.mod_pos_bound (layer_offset layer + length) (2 ^ 16) ltac:(done)). lia. }
  rewrite (proj2 (Z.ltb_ge _ _)) in E by lia. destruct (mem_malloc_run (24 + pl) s) as (r' & s1 & E1 & Ha); [lia|]. rewrite (bind_some _ _ _ _ _ E1) in E.
  destruct (Z.eqb_spec r' 0) as [->|Hr']; [by injection E as <- _|]. injection E as <- <-. destruct Ha as (_ & [[? _]|(_ & Hn & El & _)]); [done|].
  split; [done|]. cbn [outside]. rewrite El, Epl. f_equal. lia.
Qed.

(** The data is outside of the heap of the C library, or in blocks that are in use. *)
Definition at_rest (s : lwip H) (x : Z) : Prop := x < heap_start \/ heap_end <= x \/ exists q n, live (outside s) !! q = Some n /\ q <= x < q + n.
Definition settled (s : lwip H) (l : list Z) : Prop := forall a k x, (a, k) ∈ parts (heap s) l -> a <= x < a + Z.max 1 k -> at_rest s x.

Lemma settled_kept s l m : settled s l -> kept (live (outside s)) (data s) m -> bytes_of m (parts (heap s) l) = bytes_of (data s) (parts (heap s) l).
Proof. intros Hs Hk. apply bytes_of_ext. intros x a k Hin Hx. apply (kp_same _ _ _ Hk). apply (Hs a k); [done|lia]. Qed.

Lemma fresh_not_at_rest (s s' : lwip H) q n x : live (outside s) !! q = None -> live (outside s') = <[q := n]> (live (outside s)) ->
  q <= x < q + n -> ~ at_rest s x.
Proof.
  intros Hf El Hx Hr. assert (live (outside s') !! q = Some n) as Hq by (by rewrite El, lookup_insert_eq). pose proof (live_range _ _ _ Hq).
  destruct Hr as [?|[?|(q' & n' & Hq' & ?)]]; [lia..|]. assert (q' <> q) as Hne by congruence.
  assert (live (outside s') !! q' = Some n') as Hq2 by (by rewrite El, lookup_insert_ne). pose proof (live_apart _ _ _ _ _ Hq Hq2 (not_eq_sym Hne)) as Hd. unfold disjoint in Hd. lia.
Qed.

Lemma settled_clear (s s' : lwip H) l q n a k : settled s l -> live (outside s) !! q = None -> live (outside s') = <[q := n]> (live (outside s)) ->
  q <= a -> a + k <= q + n -> 0 < k -> clear_of a k (parts (heap s) l).
Proof.
  intros Hs Hf El Ha Hk Hk0. apply Forall_forall. intros [c j] Hin. unfold disjoint. pose proof (fun x => fresh_not_at_rest s s' q n x Hf El) as Hno.
  destruct (Z.le_gt_cases (a + k) c); [by left|]. destruct (Z.le_gt_cases (c + j) a); [by right|]. exfalso. destruct (Z.le_gt_cases a c).
  - apply (Hno c); [lia|]. apply (Hs c j); [done|lia].
  - apply (Hno a); [lia|]. apply (Hs c j); [done|lia].
Qed.

(** Data of pbufs that carry it themselves is. *)
Lemma own_data_settled s own l : valid s own -> own_data s l -> (forall y c, y ∈ l -> heap s !! y = Some c -> 0 < len c) -> settled s l.
Proof.
  intros Hv Hown Hpos a k x (y & c & Hy & Hc & -> & ->)%parts_elem Hx. right. right.
  destruct (so_placed _ _ (va_sound _ _ Hv) y c Hc) as [(n & Hn & _ & Hin) _ _ _]. exists (y - 8), n. split; [done|].
  specialize (Hin (Hown y c Hy Hc)). specialize (Hpos y c Hy Hc). lia.
Qed.

(** Who holds the only reference to a pbuf holds the front of a packet. *)
Lemma sole_head s own q c : valid s own -> heap s !! q = Some c -> ref c = 1 -> 0 < own q -> ~ linked (graph_of (heap s)) q.
Proof. intros Hv Hq Hr Ho. destruct (lk_ref _ _ (so_links _ _ (va_sound _ _ Hv)) q _ _ (graph_lookup _ _ _ Hq)) as [_ [[_ ?]|[? _]]]; [lia|done]. Qed.

(** A single pbuf in front of a packet that the caller keeps. *)
Lemma chain_front q c p l b s own : heap s !! q = Some c -> next c = 0 -> ref c = 1 -> 0 < own q -> owned s own p l b -> q <> p -> ref b < 255 ->
  exists s' c', pbuf_chain q p s = Some (tt, s') /\ valid s' own /\ chain (graph_of (heap s')) q (q :: l) /\
    parts (heap s') (q :: l) = (payload c, len c) :: parts (heap s) l /\ data s' = data s /\
    heap s' !! q = Some c' /\ payload c' = payload c /\ len c' = len c /\ type_internal c' = type_internal c /\ ref c' = 1.
Proof.
  intros Hq Hn Hr Ho [Hv Hc Ht Hh Hop Hb] Hne Hrb. pose proof (so_links _ _ (va_sound _ _ Hv)) as Hl. pose proof (pbuf_not_null _ _ _ _ (va_sound _ _ Hv) Hb) as Hp0.
  pose proof (pbuf_not_null _ _ _ _ (va_sound _ _ Hv) Hq) as Hq0. assert (chain (graph_of (heap s)) q [q]) as Hcq.
  { split; [done|]. split; [done|]. exists 0, 1. rewrite (graph_lookup _ _ _ Hq), Hn, Hr. done. }
  destruct (pbuf_chain_valid q p [q] l b s own) as (s' & E & Hv' & Hch & Hparts & _ & Hd); try done.
  { split; [by rewrite (graph_lookup _ _ _ Hq)|by apply (sole_head s own q c)]. }
  { split; [by rewrite (graph_lookup _ _ _ Hb)|done]. }
  assert (p ∉ [] ++ [q]) as Hpq by (cbn [app]; rewrite list_elem_of_singleton; congruence).
  pose proof (pbuf_cat_run q [] q p b s own Hl Hcq Hb Hpq Hp0) as Ecat. cbn [app bump foldl] in Ecat. set (h := alter (set_next p) q _) in Ecat.
  assert (h !! p = Some b) as Hbp by (unfold h; by rewrite !lookup_alter_ne by done).
  assert (h !! q = Some (set_next p (longer b c))) as Hqh by (unfold h; by rewrite !lookup_alter_eq, Hq).
  assert (s' = put_heap (<[p := set_ref (u8 (ref b + 1)) b]> h) s) as ->.
  { unfold pbuf_chain in E. rewrite (bind_some _ _ _ _ _ Ecat) in E. unfold pbuf_ref in E. rewrite (proj2 (Z.eqb_neq _ _) Hp0) in E. cbn [negb when] in E.
    unfold update in E. rewrite (deref_run _ _ _ b) in E by done. by injection E as <-. }
  eexists _, (set_next p (longer b c)). split; [done|]. split; [done|]. split; [done|]. split; [rewrite (parts_cons _ _ _ _ Hq) in Hparts; exact Hparts|]. split; [done|].
  split; [cbn [put_heap heap]; by rewrite lookup_insert_ne by done|done].
Qed.

(** The packet with eight bytes in front, in [p] or in a pbuf of their own. *)
Record led (s : lwip H) (own : owners) (p : Z) (l : list Z) (b : struct_pbuf) (s1 : lwip H) (own1 : owners) (q : Z) (lq : list Z) (bq : struct_pbuf) : Prop := {
  ld_owned : owned s1 own1 q lq bq;
  ld_content : exists front, length front = 8%nat /\ content s1 lq = front ++ content s l;
  ld_first : 8 <= len bq;
  ld_room : header_room 20 q bq = if q =? p then header_room 28 p b else 28 + tot_len b <? 2 ^ 16;
  ld_clear : clear_of (payload bq - 20) 28 (drop 1 (parts (heap s1) lq));
  ld_bytes : all_bytes (data s) -> all_bytes (data s1);
  ld_who : q = p /\ own1 = own \/ q <> p /\ heap s !! q = None /\ own1 = own_add q 1 own;
}.

Lemma led_total s own p l b s1 own1 q lq bq : owned s own p l b -> led s own p l b s1 own1 q lq bq -> tot_len bq = 8 + tot_len b.
Proof.
  intros Ho [Hq (front & Hf & Hc) _ _ _ _ _]. destruct (owned_facts _ _ _ _ _ Ho) as (_ & _ & -> & _). destruct (owned_facts _ _ _ _ _ Hq) as (_ & _ & -> & _).
  rewrite Hc, length_app. lia.
Qed.

Lemma add_header_within p l b own (s : lwip H) : owned s own p l b -> header_room 8 p b = true ->
  clear_of (payload b - 28) 28 (drop 1 (parts (heap s) l)) ->
  exists s1 bq, udp_add_header custom_free_function p s = Some (p, s1) /\ led s own p l b s1 own p l bq.
Proof.
  intros Ho Hroom Hcl. pose proof (owned_add_header s own p l b 8 Ho ltac:(lia)) as Hadd. unfold header_room in Hroom. rewrite Hroom in Hadd.
  destruct Hadd as (s1 & b' & E & Ho1 & Hd & Hc & Hp & Hl & Hct & Hparts). exists s1, b'. unfold udp_add_header, UDP_HLEN. rewrite (bind_some _ _ _ _ _ E). cbn [Z.eqb negb]. split; [done|].
  destruct (owned_facts _ _ _ _ _ Ho) as (_ & Hle & Et & _). destruct (owned_facts _ _ _ _ _ Ho1) as (_ & _ & Et1 & _).
  assert (tot_len b' = 8 + tot_len b) as Etot by (rewrite Et1, Hc, length_app, length_load; lia). 
  apply andb_true_iff in Hroom as [[_ Hcb%bool_decide_eq_true]%andb_true_iff _].
  split; [done|eexists; split; [|exact Hc]; apply length_load|lia| |rewrite Hparts, Hp; cbn [drop]; by replace (payload b - 8 - 20) with (payload b - 28) by lia|by rewrite Hd|by left].
  rewrite Z.eqb_refl. unfold header_room. rewrite (bool_decide_eq_true_2 _ Hct), (bool_decide_eq_true_2 _ Hcb), Etot, Hp.
  replace (20 + (8 + tot_len b)) with (28 + tot_len b) by lia. by replace (payload b - 8 - 20) with (payload b - 28) by lia.
Qed.

(** A new pbuf beside a packet. *)
Record beside (layer : pbuf_layer) (n : Z) (s : lwip H) (own : owners) (p : Z) (l : list Z) (b : struct_pbuf) (r : Z) (s1 : lwip H) (c : struct_pbuf) : Prop := {
  be_is : c = StructPbuf 0 (r + 24 + layer_offset layer) n n (u8 (type_bits PBUF_RAM)) 0 1 NETIF_NO_INDEX;
  be_new : owned s1 (own_add r 1 own) r [r] c;
  be_old : owned s1 (own_add r 1 own) p l b;
  be_fresh : heap s !! r = None /\ r ∉ l;
  be_heap : forall x, x <> r -> heap s1 !! x = heap s !! x;
  be_parts : parts (heap s1) l = parts (heap s) l;
  be_kept : kept (live (outside s)) (data s) (data s1);
  be_content : content s1 l = content s l;
  be_clear : forall a k, r - 8 <= a -> a + k <= r + 24 + layer_offset layer + n -> 0 < k -> clear_of a k (parts (heap s) l);
  be_apart : forall x, r - 8 <= x < r + 24 + layer_offset layer + n -> ~ at_rest s x;
}.

Lemma alloc_beside layer n p l b own (s : lwip H) : owned s own p l b -> settled s l -> 0 <= n < 2 ^ 16 ->
  (exists s1, pbuf_alloc custom_free_function layer n PBUF_RAM s = Some (0, s1) /\ owned s1 own p l b /\ data s1 = data s /\ heap s1 = heap s) \/
  exists r s1 c, pbuf_alloc custom_free_function layer n PBUF_RAM s = Some (r, s1) /\ r <> 0 /\ beside layer n s own p l b r s1 c.
Proof.
  intros Ho Hset Hn. pose proof Ho as [Hv Hc Ht Hh Hop Hb].
  destruct (pbuf_alloc_ram_valid custom_free_function layer n s own Hv Hn) as (q & s1 & E & Hv1 & Hk & Hres). destruct Hres as [(-> & Eh & Ed)|(Hq & Hf & Eh)].
  { left. exists s1. split; [done|]. unfold granted in Hv1. rewrite decide_True in Hv1 by done. split; [|done]. split; rewrite ?Eh; done. }
  right. destruct (pbuf_alloc_ram_fresh layer n s s1 q Hn E Hq) as [Hfree El]. set (c := StructPbuf _ _ _ _ _ _ _ _) in *. exists q, s1, c. split; [done|]. split; [done|].
  assert (granted q own = own_add q 1 own) as Eg by (unfold granted; by rewrite decide_False). rewrite Eg in Hv1.
  assert (q <> p) as Hqp by congruence. assert (heap s1 !! q = Some c) as Hqc by (rewrite Eh; apply lookup_insert_eq).
  assert (q ∉ l) as Hql.
  { intros Hin. destruct (chain_elem _ _ _ _ Hc Hin) as [_ [[x k] Hx]]. destruct (graph_lookup_inv _ _ _ _ Hx) as (d & Hd & _). congruence. }
  assert (0 <= own q) as Hoq by apply (lk_own _ _ (so_links _ _ (va_sound _ _ Hv))). assert (0 < own_add q 1 own q) as Hoq1 by (rewrite own_add_eq; lia).
  assert (heap s1 !! p = Some b) as Hb1 by (by rewrite Eh, lookup_insert_ne).
  assert (parts (heap s1) l = parts (heap s) l) as Eparts by (apply parts_ext; intros x Hx; rewrite Eh, lookup_insert_ne; [done|congruence]).
  split; try done.
  - split; try done; [|rewrite (parts_cons _ _ _ _ Hqc); cbn; lia|by apply (sole_head s1 (own_add q 1 own) q c)].
    split; [done|]. split; [done|]. exists 0, 1. by rewrite (graph_lookup _ _ _ Hqc).
  - split; try done; [rewrite Eh, graph_insert; by apply chain_insert|by rewrite Eparts| |by rewrite own_add_ne].
    intros Hlk. destruct (lk_ref _ _ (so_links _ _ (va_sound _ _ Hv)) p _ _ (graph_lookup _ _ _ Hb)) as [_ [[? _]|[_ E1]]]; [done|].
    destruct (lk_ref _ _ (so_links _ _ (va_sound _ _ Hv1)) p _ _ (graph_lookup _ _ _ Hb1)) as [_ [[_ E2]|[? _]]]; [|done]. rewrite own_add_ne in E2 by done. lia.
  - intros x Hx. by rewrite Eh, lookup_insert_ne.
  - unfold content. rewrite Eparts. by apply settled_kept.
  - intros a k Ha Hak Hk0. by apply (settled_clear s s1 l (q - 8) (24 + layer_offset layer + n + 8)); try lia.
  - intros x Hx. apply (fresh_not_at_rest s s1 (q - 8) (24 + layer_offset layer + n + 8)); [done|done|lia].
Qed.

Lemma add_header_front p l b own (s : lwip H) : owned s own p l b -> header_room 8 p b = false -> 8 + tot_len b < 2 ^ 16 -> settled s l -> ref b < 255 ->
  (exists s1, udp_add_header custom_free_function p s = Some (0, s1) /\ valid s1 own /\ heap s1 = heap s /\ data s1 = data s) \/
  exists q s1 lq bq, udp_add_header custom_free_function p s = Some (q, s1) /\ led s own p l b s1 (own_add q 1 own) q lq bq.
Proof.
  intros Ho Hroom H16 Hset Href. pose proof (owned_add_header s own p l b 8 Ho ltac:(lia)) as Hadd. unfold header_room in Hroom. rewrite Hroom in Hadd.
  unfold udp_add_header, UDP_HLEN. rewrite (bind_some _ _ _ _ _ Hadd). cbn [Z.eqb negb]. destruct (owned_facts _ _ _ _ _ Ho) as (Hp0 & Hle & Et & _).
  destruct (alloc_beside PBUF_IP 8 p l b own s Ho Hset ltac:(lia)) as [(s1 & E & Ho1 & Ed & Eh)|(q & s1 & c & E & Hq & [Ec0 Hn1 Ho1 [Hf Hql] _ Eparts Hk Ec Hclr _])]; rewrite (bind_some _ _ _ _ _ E).
  { left. exists s1. split; [done|]. by destruct Ho1. }
  right. rewrite (proj2 (Z.eqb_neq _ _) Hq). change (layer_offset PBUF_IP) with 34 in *. pose proof (ow_first _ _ _ _ _ Hn1) as Hqc. pose proof (ow_first _ _ _ _ _ Ho1) as Hb1.
  assert (q <> p) as Hqp by (intros ->; pose proof (ow_first _ _ _ _ _ Ho); congruence). assert (contiguous c) as Hct by (by rewrite Ec0).
  assert (payload c = q + 58 /\ len c = 8 /\ tot_len c = 8 /\ next c = 0 /\ ref c = 1) as (Epc & Elc & Etc & Enc & Erc) by (rewrite Ec0; cbn; split_and!; lia).
  assert (clear_of (payload c - 20) 28 (parts (heap s) l)) as Hclear by (apply Hclr; lia).
  rewrite (deref_run _ _ _ _ Hb1). destruct (Z.eqb_spec (tot_len b) 0) as [Ez|Enz]; cbn [negb when].
  - exists q, s1, [q], c. split; [done|]. assert (content s l = []) as Enil by (apply length_zero_iff_nil; lia).
    split; [done|exists (content s1 [q]); rewrite Enil, app_nil_r; split; [unfold content; rewrite (parts_cons _ _ _ _ Hqc), bytes_of_cons, app_nil_r, Elc; apply length_load|done]|lia| |rewrite (parts_cons _ _ _ _ Hqc); apply List.Forall_nil|exact (kp_bytes _ _ _ Hk)|by right].
    rewrite (proj2 (Z.eqb_neq _ _) Hqp), Ez. unfold header_room. rewrite (bool_decide_eq_true_2 _ Hct), Epc, Etc, (proj2 (Z.leb_le _ _)) by lia. done.
  - destruct (chain_front q c p l b s1 (own_add q 1 own)) as (s2 & c' & E2 & Hv2 & Hc2 & Hp2 & Hd2 & Hq2 & Epay & Elen & Ety & Er2); try done; [apply Hn1|].
    rewrite (bind_some _ _ _ _ _ E2). exists q, s2, (q :: l), c'. split; [done|]. rewrite Eparts, Elc in Hp2. rewrite Elc in Elen.
    assert (content s2 (q :: l) = load (data s1) (payload c) 8 ++ content s l) as Ec2 by (unfold content at 1; rewrite Hp2, bytes_of_cons, Hd2, <- Ec; unfold content; by rewrite Eparts).
    assert (owned s2 (own_add q 1 own) q (q :: l) c') as Ho2.
    { split; try done; [|by apply (sole_head s2 (own_add q 1 own) q c'); try done; apply Hn1|apply Hn1]. rewrite Hp2. cbn [total foldr]. fold (total (parts (heap s) l)).
      destruct (packet_facts s own p l (ow_valid _ _ _ _ _ Ho) (ow_chain _ _ _ _ _ Ho) Hp0 (ow_total _ _ _ _ _ Ho)) as (_ & _ & b0 & Hb0 & Et0).
      rewrite (ow_first _ _ _ _ _ Ho) in Hb0. injection Hb0 as <-. lia. }
    destruct (owned_facts _ _ _ _ _ Ho2) as (_ & _ & Et2 & _).
    assert (tot_len c' = 8 + tot_len b) as Etot by (rewrite Et2, Ec2, length_app, length_load; lia).
    split; [done|eexists; split; [|exact Ec2]; apply length_load|lia| |rewrite Hp2, Epay; exact Hclear|rewrite Hd2; exact (kp_bytes _ _ _ Hk)|by right].
    rewrite (proj2 (Z.eqb_neq _ _) Hqp). unfold header_room. assert (contiguous c') as Hct' by (unfold contiguous; by rewrite Ety). rewrite (bool_decide_eq_true_2 _ Hct'), Etot, Epay, Epc.
    rewrite (proj2 (Z.leb_le (q + 24) _)), !andb_true_r by lia. f_equal. lia.
Qed.
End Packet.

Section Writing.
Context {H : Type} `{OL : OutsideLaws H} (custom_free_function : Z -> prog (lwip H) unit).

(** The four fields in memory. *)
Definition udp_fields (m : mem) (a sp dp n c : Z) : mem :=
  store (store (store (store m a (le_bytes 2 (lwip_htons sp))) (a + 2) (le_bytes 2 (lwip_htons dp))) (a + 6) (le_bytes 2 c)) (a + 4) (le_bytes 2 (lwip_htons n)).

Lemma udp_fields_load m m' a sp dp n c : 0 <= sp < 2 ^ 16 -> 0 <= dp < 2 ^ 16 -> 0 <= n < 2 ^ 16 ->
  m' = udp_fields m a sp dp n c \/ (exists c0, m' = store (udp_fields m a sp dp n c0) (a + 6) (le_bytes 2 c)) ->
  load m' a 8 = udp_header_with c sp dp n /\ (forall x, x < a \/ a + 8 <= x -> m' x = m x) /\ (all_bytes m -> all_bytes m').
Proof.
  intros Hsp Hdp Hn Hm. rewrite udp_header_split by done. change 8%nat with (2 + (2 + (2 + 2)))%nat. rewrite !load_app.
  destruct Hm as [->|[c0 ->]]; unfold udp_fields; (split; [repeat apply (f_equal2 app)|split]).
  all: try (intros x Hx; by rewrite !store_out by (rewrite length_le_bytes; lia)).
  all: try (intros Hm; repeat (apply is_byte_store; [|apply bytes_le_bytes]); exact Hm).
  all: repeat first [rewrite load_store_ne by (unfold disjoint; rewrite ?length_le_bytes; lia)|apply load_store_at; [by rewrite length_le_bytes|lia]].
Qed.

Lemma udp_write_run q lq bq own sp dp src dst flags D (s : net H) :
  owned (stack s) own q lq bq -> 8 <= len bq -> clear_of (payload bq) 8 (drop 1 (parts (heap (stack s)) lq)) ->
  all_bytes (data (stack s)) -> (exists front, length front = 8%nat /\ content (stack s) lq = front ++ D) ->
  0 <= sp < 2 ^ 16 -> 0 <= dp < 2 ^ 16 -> 0 <= src < 2 ^ 32 -> 0 <= dst < 2 ^ 32 ->
  exists m', udp_write_header q sp dp src dst flags s = Some (tt, at_mem s m') /\ owned (put_data m' (stack s)) own q lq bq /\
    content (put_data m' (stack s)) lq = udp_header flags sp dp src dst D ++ D /\ all_bytes m'.
Proof.
  intros Ho Hlen Hcl Hm (front & Hfront & Hc) Hsp Hdp Hsrc Hdst. destruct (owned_facts _ _ _ _ _ Ho) as (_ & _ & Et & H16 & _).
  set (n := 8 + Z.of_nat (length D)). assert (tot_len bq = n) as En by (rewrite Et, Hc, length_app, Hfront; unfold n; lia). assert (0 <= n < 2 ^ 16) as Hn by (unfold n in *; lia).
  unfold udp_write_header. rewrite (on_lwip_bind _ _ s bq (stack s)); [|change (lwip_of s) with (stack s); unfold deref; by rewrite (ow_first _ _ _ _ _ Ho)].
  assert (set_lwip (stack s) s = at_mem s (data (stack s))) as -> by (by destruct s as [[]]). rewrite En, !poke_bind.
  set (m4 := store _ (payload bq + 4) _). assert (m4 = udp_fields (data (stack s)) (payload bq) sp dp n 0) as Em4 by done.
  assert (forall m' c, m' = udp_fields (data (stack s)) (payload bq) sp dp n c \/ (exists c0, m' = store (udp_fields (data (stack s)) (payload bq) sp dp n c0) (payload bq + 6) (le_bytes 2 c)) ->
    owned (put_data m' (stack s)) own q lq bq /\ content (put_data m' (stack s)) lq = udp_header_with c sp dp n ++ D /\ all_bytes m') as Hwrite.
  { intros m' c Hm'. destruct (udp_fields_load _ m' _ _ _ _ c Hsp Hdp Hn Hm') as (Hload & Hout & Hbytes). pose proof (udp_header_length c sp dp n) as Hl8.
    destruct (owned_write (stack s) own q lq bq (udp_header_with c sp dp n) m' Ho) as [Ho' Hc']; [rewrite Hl8; lia|by rewrite Hl8|by rewrite Hl8|by rewrite Hl8|].
    split; [done|]. split; [|by apply Hbytes]. by rewrite Hc', Hc, Hl8, drop_app_length'. }
  unfold udp_header. fold n. destruct (Z.land flags UDP_FLAGS_NOCHKSUM =? 0); cbn [when]; [|exists m4; split; [done|apply Hwrite; by left]].
  destruct (Hwrite m4 0 ltac:(by left)) as (Ho4 & Hc4 & Hm4).
  pose proof (packet_chksum_run q lq bq own IP_PROTO_UDP n src dst (put_data m4 (stack s)) Ho4 Hm4 Hsrc Hdst ltac:(done) Hn) as Echk. rewrite Hc4 in Echk.
  rewrite (on_lwip_bind _ _ (at_mem s m4) _ _ Echk). assert (set_lwip (put_data m4 (stack s)) (at_mem s m4) = at_mem s m4) as -> by done. rewrite poke_run.
  eexists. split; [reflexivity|]. apply Hwrite. right. exists 0. unfold udp_chksum. by rewrite Em4.
Qed.
End Writing.

Section Sends.
Context {H : Type} `{OL : OutsideLaws H} (custom_free_function : Z -> prog (lwip H) unit) (fuel : nat).
Context (netif_loop_output : Z -> Z -> prog (net H) Z) (ip4_frag netif_output : Z -> Z -> Z -> prog (net H) Z).
Abbreviation send_src := (udp_sendto_if_src custom_free_function fuel netif_loop_output ip4_frag netif_output).
Abbreviation next_hop := (ip4_next netif_loop_output ip4_frag netif_output).
Abbreviation sent := (udp_sent custom_free_function).

(** A packet and a connection with a port, and a destination. *)
Record sendable (s : net H) (own : owners) (pcb p : Z) (l : list Z) (b : struct_pbuf) (src dst dst_port netif : Z) : Prop := {
  sd_owned : owned (stack s) own p l b;
  sd_bytes : all_bytes (data (stack s));
  sd_settled : settled (stack s) l;
  sd_clear : clear_of (payload b - 28) 28 (drop 1 (parts (heap (stack s)) l));
  sd_ref : ref b < 255;
  sd_pcb : pcb <> 0 /\ 0 < local_port (udp_pcb_at (udp s) pcb) < 2 ^ 16 /\ is_byte (tos (udp_pcb_at (udp s) pcb)) /\ is_byte (ttl (udp_pcb_at (udp s) pcb));
  sd_to : 0 <= dst_port < 2 ^ 16 /\ 0 <= dst < 2 ^ 32 /\ 0 <= src < 2 ^ 32;
  sd_net : 0 <= ip_id (sending s) < 2 ^ 16 /\ 0 <= mtu (netifs s netif);
}.

Lemma on_udp_pcb {A} pcb (k : udp_pcb -> prog (net H) A) s : pcb <> 0 -> bind (on_udp (pcb_of pcb)) k s = k (udp_pcb_at (udp s) pcb) s.
Proof. intros Hp. unfold on_udp, pcb_of, bind at 1. rewrite (proj2 (Z.eqb_neq _ _) Hp). by destruct s. Qed.

Lemma bind_move {A B} (f g : prog (net H) A) (k : A -> prog (net H) B) s s' : f s = g s' -> bind f k s = bind g k s'.
Proof. intros E. unfold bind. by rewrite E. Qed.

(** From the packet with room for the header to IP. *)
Lemma udp_down_run pcb p l b own src dst dst_port netif (s : net H) s1 own1 q lq bq :
  sendable s own pcb p l b src dst dst_port netif -> led (stack s) own p l b s1 own1 q lq bq ->
  let c := udp_pcb_at (udp s) pcb in
  let D := content (stack s) l in
  let n := 28 + Z.of_nat (length D) in
  let dgram := udp_header (udp_flags c) (local_port c) dst_port src dst D ++ D in
  let down := (let* _ := udp_write_header q (local_port c) dst_port src dst (udp_flags c) in
               let* err := ip4_output_if_src netif_loop_output ip4_frag netif_output q (Some src) (Some dst) (ttl c) (tos c) IP_PROTO_UDP netif in
               sent p q err) (set_lwip s1 s) in
  exists s2 b2, owned (stack s2) own1 q lq b2 /\ all_bytes (data (stack s2)) /\ aside s s2 /\ ip_data s2 = ip_data s /\
    if header_room 20 q bq then
      down = (let* err := next_hop s q n dst netif in sent p q err) s2 /\ 28 <= len b2 /\
      content (stack s2) lq = ip4_header (tos c) n (ip_id (sending s)) (ttl c) IP_PROTO_UDP src dst ++ dgram /\
      sending s2 = Sending (u16 (ip_id (sending s) + 1)) (netif_default (sending s))
    else down = sent p q ERR_BUF s2 /\ content (stack s2) lq = dgram /\ sending s2 = sending s.
Proof.
  intros [Ho Hm Hset Hcl Href (Hp0 & Hport & Htos & Httl) (Hdp & Hdst & Hsrc) [Hid Hmtu]] Hled c D n dgram down.
  pose proof (led_total _ _ _ _ _ _ _ _ _ _ Ho Hled) as Etot. destruct Hled as [Hq (front & Hf & Hc) Hfirst _ Hclear Hbytes _].
  destruct (owned_facts _ _ _ _ _ Ho) as (_ & _ & Et & _). fold D in Et, Hc.
  destruct (udp_write_run q lq bq own1 (local_port c) dst_port src dst (udp_flags c) D (set_lwip s1 s)) as (m' & Ew & Ho' & Hc' & Hm'); try done; try (unfold c; lia).
  { by apply (clear_of_sub (payload bq - 20) 28); try lia. }
  { by apply Hbytes. }
  { by exists front. }
  change (stack (set_lwip s1 s)) with s1 in *. fold dgram in Hc'. unfold down. rewrite (bind_some _ _ _ _ _ Ew). set (s2 := at_mem (set_lwip s1 s) m').
  pose proof (output_if_src_run netif_loop_output ip4_frag netif_output q (Some src) dst (ttl c) (tos c) IP_PROTO_UDP netif lq bq own1 s2 Ho' Hmtu Htos Httl ltac:(done) Hid Hsrc Hdst) as Hip.
  cbn zeta in Hip. change (default 0 (Some src)) with src in Hip. change (ip_id (sending s2)) with (ip_id (sending s)) in Hip.
  assert (20 + tot_len bq = n) as En by (unfold n; lia). rewrite En in Hip.
  specialize (Hip ltac:(by apply (clear_of_sub (payload bq - 20) 28); try lia)). change (ip4_next netif_loop_output ip4_frag netif_output s2) with (next_hop s) in Hip.
  change (content (stack s2) lq) with (content (put_data m' s1) lq) in Hip.
  destruct (header_room 20 q bq).
  - destruct Hip as (s3 & b3 & E & [Hso Hsc Hsf Hsb Hsi [Hsr Hsd]] & _). exists s3, b3. rewrite (bind_move _ _ _ _ _ E).
    split; [done|]. split; [by apply Hsb|]. split; [by apply (aside_trans _ s2)|]. split; [done|]. change (content (stack s2) lq) with (content (put_data m' s1) lq) in Hsc. rewrite Hc' in Hsc.
    split_and!; try done. lia.
  - exists (ticked [ipoutrequests; ip_err; ipoutdiscards] s2), bq. rewrite (bind_some _ _ _ _ _ Hip). by split_and!.
Qed.

(** Who holds the packet that is sent: the caller's own, or a new pbuf in front of it. *)
Definition in_front (s : net H) (own : owners) (p : Z) (b : struct_pbuf) (q : Z) (own1 : owners) : Prop :=
  q = p /\ own1 = own /\ header_room 8 p b = true \/ q <> p /\ heap (stack s) !! q = None /\ own1 = own_add q 1 own /\ header_room 8 p b = false.

(** There was no memory for a pbuf in front. *)
Definition no_memory (s : net H) (own : owners) (p : Z) (b : struct_pbuf) (s' : net H) : Prop :=
  header_room 8 p b = false /\ valid (stack s') own /\ heap (stack s') = heap (stack s) /\ data (stack s') = data (stack s) /\ aside s s'.

(** The datagram [dgram] at [q] in the state [s2], with its IP header if there is room for it. *)
Definition udp_made (s : net H) (own : owners) (c : udp_pcb) (p : Z) (b : struct_pbuf) (D : list Z) (src dst dst_port netif : Z) (send : option (Z * net H))
    (q : Z) (lq : list Z) (own1 : owners) (b2 : struct_pbuf) (s2 : net H) : Prop :=
  let n := 28 + Z.of_nat (length D) in
  let dgram := udp_header (udp_flags c) (local_port c) dst_port src dst D ++ D in
  in_front s own p b q own1 /\ owned (stack s2) own1 q lq b2 /\ all_bytes (data (stack s2)) /\ aside s s2 /\ ip_data s2 = ip_data s /\
  if (if q =? p then header_room 28 p b else n <? 2 ^ 16) then
    send = (let* err := next_hop s q n dst netif in sent p q err) s2 /\ 28 <= len b2 /\
    content (stack s2) lq = ip4_header (tos c) n (ip_id (sending s)) (ttl c) IP_PROTO_UDP src dst ++ dgram /\
    sending s2 = Sending (u16 (ip_id (sending s) + 1)) (netif_default (sending s))
  else send = sent p q ERR_BUF s2 /\ content (stack s2) lq = dgram /\ sending s2 = sending s.

Lemma udp_send_src_run pcb p l b own src dst dst_port netif (s : net H) : sendable s own pcb p l b src dst dst_port netif ->
  let c := udp_pcb_at (udp s) pcb in
  let D := content (stack s) l in
  let send := send_src pcb p (Some dst) dst_port netif src s in
  if 2 ^ 16 <=? 8 + Z.of_nat (length D) then send = Some (ERR_MEM, s)
  else (exists s', send = Some (ERR_MEM, s') /\ no_memory s own p b s') \/
    exists q lq own1 b2 s2, udp_made s own c p b D src dst dst_port netif send q lq own1 b2 s2.
Proof.
  intros Hs c D send. pose proof Hs as [Ho Hm Hset Hcl Href (Hp0 & Hport & _) _ _]. unfold send, udp_sendto_if_src. rewrite (proj2 (Z.eqb_neq _ _) Hp0), (on_udp_pcb pcb _ s Hp0). fold c.
  rewrite (proj2 (Z.eqb_neq (local_port c) 0)) by (unfold c; lia). rewrite bind_ret. cbn [Z.eqb negb ERR_OK].
  assert (on_lwip (deref p) s = Some (b, s)) as Eb by (unfold on_lwip; change (lwip_of s) with (stack s); unfold deref; rewrite (ow_first _ _ _ _ _ Ho); by destruct s).
  rewrite (bind_some _ _ _ _ _ Eb). destruct (owned_facts _ _ _ _ _ Ho) as (_ & _ & Et & H16 & _). fold D in Et. rewrite <- Et. unfold UDP_HLEN.
  destruct (Z.leb_spec (2 ^ 16) (8 + tot_len b)) as [Hbig|Hfit].
  { unfold wrap. rewrite <- (Z.mod_unique _ (2 ^ 16) 1 (tot_len b + 8 - 2 ^ 16)), (proj2 (Z.ltb_lt _ _)) by lia. done. }
  rewrite (wrap_small 16), (proj2 (Z.ltb_ge _ _)) by lia.
  assert (forall s1 own1 q lq bq, udp_add_header custom_free_function p (stack s) = Some (q, s1) -> led (stack s) own p l b s1 own1 q lq bq -> in_front s own p b q own1 ->
    exists lq own1 b2 s2, udp_made s own c p b D src dst dst_port netif
      (udp_output custom_free_function netif_loop_output ip4_frag netif_output pcb p dst dst_port netif src s) q lq own1 b2 s2) as Hdown.
  { intros s1 own1 q lq bq E Hled Hwho. destruct (owned_facts _ _ _ _ _ (ld_owned _ _ _ _ _ _ _ _ _ _ Hled)) as (Hq0 & _).
    destruct (udp_down_run pcb p l b own src dst dst_port netif s s1 own1 q lq bq Hs Hled) as (s2 & b2 & Ho2 & Hm2 & Ha2 & Hi2 & Hres). fold c D in Hres.
    exists lq, own1, b2, s2. split; [done|]. do 4 (split; [done|]). rewrite (ld_room _ _ _ _ _ _ _ _ _ _ Hled) in Hres. rewrite Et in Hres.
    unfold udp_output. rewrite (on_lwip_bind _ _ s _ _ E), (proj2 (Z.eqb_neq _ _) Hq0), (on_udp_pcb pcb _ _ Hp0). exact Hres. }
  destruct (header_room 8 p b) eqn:Eroom.
  - right. destruct (add_header_within custom_free_function p l b own (stack s) Ho Eroom Hcl) as (s1 & bq & E & Hled).
    exists p. apply (Hdown s1 own p l bq); [done|done|]. by left.
  - destruct (add_header_front custom_free_function p l b own (stack s) Ho Eroom ltac:(lia) Hset Href) as [(s1 & E & Hv & Eh & Ed)|(q & s1 & lq & bq & E & Hled)].
    + left. unfold udp_output. rewrite (on_lwip_bind _ _ s _ _ E). cbn [Z.eqb]. by eexists.
    + right. exists q. apply (Hdown s1 (own_add q 1 own) q lq bq); [done|done|]. right. destruct (ld_who _ _ _ _ _ _ _ _ _ _ Hled) as [[-> E1]|(Hqp & Hnew & _)]; [|done].
      apply (f_equal (fun f => f p)) in E1. rewrite own_add_eq in E1. lia.
Qed.

(** The interface that a connection sends by. *)
Definition udp_path (s : net H) (c : udp_pcb) (dst : Z) : option Z :=
  if netif_idx c =? NETIF_NO_INDEX then ip4_path s dst else List.find (fun a => netif_idx c =? netif_get_index (netifs s a)) (netif_list s).
(** Its address is the connection's, or the connection has none of its own. *)
Definition udp_source_ok (s : net H) (c : udp_pcb) (netif : Z) : bool :=
  ip4_addr_isany (local_ip c) || ip4_addr_ismulticast (local_ip c) || (local_ip c =? ip_addr (netifs s netif)).

Lemma index_loop_find (s : net H) i l : Forall (fun a => a <> 0) l ->
  match List.find (fun a => i =? netif_get_index (netifs s a)) l with Some a => index_loop s i l = a /\ a <> 0 | None => index_loop s i l = 0 end.
Proof. induction 1 as [|a l Ha _ IH]; [done|]. cbn [List.find index_loop]. by destruct (_ =? _). Qed.

Lemma udp_sendto_run pcb p dst dst_port (s : net H) : pcb <> 0 -> Forall (fun a => a <> 0) (netif_list s) ->
  let c := udp_pcb_at (udp s) pcb in
  udp_sendto custom_free_function fuel netif_loop_output ip4_frag netif_output pcb p (Some dst) dst_port s =
  match udp_path s c dst with
  | None => Some (ERR_RTE, ticked ((if netif_idx c =? NETIF_NO_INDEX then [ip_rterr; ipoutnoroutes] else []) ++ [udp_rterr]) s)
  | Some netif => if udp_source_ok s c netif then send_src pcb p (Some dst) dst_port netif (ip_addr (netifs s netif)) s else Some (ERR_RTE, s)
  end.
Proof.
  intros Hp Hl c. unfold udp_sendto, udp_path. rewrite (proj2 (Z.eqb_neq _ _) Hp), (on_udp_pcb pcb _ s Hp), gets_id_bind. fold c.
  assert (forall netif, udp_sendto_if custom_free_function fuel netif_loop_output ip4_frag netif_output pcb p (Some dst) dst_port netif s =
    if udp_source_ok s c netif then send_src pcb p (Some dst) dst_port netif (ip_addr (netifs s netif)) s else Some (ERR_RTE, s)) as Hif.
  { intros netif. unfold udp_sendto_if, udp_source_ok, ip4_addr_cmp. rewrite (proj2 (Z.eqb_neq _ _) Hp), (on_udp_pcb pcb _ s Hp), gets_id_bind. fold c.
    destruct (ip4_addr_isany (local_ip c) || ip4_addr_ismulticast (local_ip c)); cbn [orb]; [done|]. by destruct (Z.eqb_spec (local_ip c) (ip_addr (netifs s netif))) as [->|]. }
  destruct (netif_idx c =? NETIF_NO_INDEX) eqn:Ei; cbn [negb].
  - pose proof (ip4_route_run dst s Hl) as Hr. destruct (ip4_path s dst) as [netif|].
    + destruct Hr as [Hr Hn]. by rewrite (bind_some _ _ _ _ _ Hr), (proj2 (Z.eqb_neq _ _) Hn).
    + rewrite (bind_some _ _ _ _ _ Hr). by destruct s.
  - rewrite bind_ret. unfold netif_get_by_index. rewrite Ei. pose proof (index_loop_find s (netif_idx c) (netif_list s) Hl) as Hr.
    destruct (List.find _ _) as [netif|]; [destruct Hr as [-> Hn]; by rewrite (proj2 (Z.eqb_neq _ _) Hn)|rewrite Hr]. by destruct s.
Qed.

(** A connection without a port gets one of the range that no connection has, and then
    sends; if there is none, it does not. *)
Lemma udp_send_unbound pcb p dst dst_port netif src pcbs (s : net H) :
  let u := udp s in
  let c := udp_pcb_at u pcb in
  pcb_list (fun x => udp_next (udp_pcb_at u x)) (udp_pcbs u) pcbs -> (length pcbs <= fuel)%nat -> in_range (udp_port u) -> pcb <> 0 -> local_port c = 0 ->
  let send := send_src pcb p (Some dst) dst_port netif src in
  exists w, (exists q, in_range q /\ ~ port_used u pcbs q /\ let s' := with_udp s (bound pcbs pcb (local_ip c) q (set_port w u)) in
      local_port (udp_pcb_at (udp s') pcb) = q /\ send s = send s') \/
    (forall q, in_range q -> port_used u pcbs q) /\ send s = Some (ERR_USE, with_udp s (set_port w u)).
Proof.
  intros u c Hl Hf Hr Hp H0 send. destruct (udp_bind_run fuel pcb (Some (local_ip c)) 0 u pcbs Hl Hf Hr Hp ltac:(done)) as (w & _ & [(q & E & Hq & Hfit)|[E Hno]]); exists w; [left; exists q|right].
  - destruct Hfit as [Hqr Hfree]. split; [done|]. split; [done|]. intros s'. destruct (bound_at pcbs pcb (local_ip c) q (set_port w u) pcb) as [_ Eq]. rewrite decide_True in Eq by done.
    split; [exact Eq|]. unfold send, udp_sendto_if_src. rewrite (proj2 (Z.eqb_neq _ _) Hp), !(on_udp_pcb pcb _ _ Hp). fold u. fold c. rewrite H0.
    change (udp_pcb_at (udp s') pcb) with (udp_pcb_at (bound pcbs pcb (local_ip c) q (set_port w u)) pcb). rewrite Eq, (proj2 (Z.eqb_neq q 0)), bind_ret by lia. cbn [Z.eqb].
    rewrite (bind_some _ _ s ERR_OK s'); [done|]. unfold on_udp. fold u. by rewrite E.
  - split; [done|]. unfold send, udp_sendto_if_src. rewrite (proj2 (Z.eqb_neq _ _) Hp), (on_udp_pcb pcb _ _ Hp). fold u. fold c. rewrite H0. cbn [Z.eqb].
    rewrite (bind_some _ _ s ERR_USE (with_udp s (set_port w u))); [done|]. unfold on_udp. fold u. by rewrite E.
Qed.

(** C20 A connection sends a packet by the interface for its destination and with that
    interface's address: the headers of RFC 768 and RFC 791 go in front of the packet,
    in its first pbuf or in a new one. A packet that is too long for the header, that
    no interface is for, or whose source is not the connection's, is refused and stays
    as it is, and so does one for whose headers there is no memory; without room for
    the second header nothing is sent. *)
Theorem udp_send_correct pcb p l b own dst dst_port (s : net H) :
  let c := udp_pcb_at (udp s) pcb in
  pcb <> 0 -> Forall (fun a => a <> 0) (netif_list s) ->
  (forall netif, udp_path s c dst = Some netif -> sendable s own pcb p l b (ip_addr (netifs s netif)) dst dst_port netif) ->
  let send := udp_sendto custom_free_function fuel netif_loop_output ip4_frag netif_output pcb p (Some dst) dst_port s in
  let D := content (stack s) l in
  match udp_path s c dst with
  | None => send = Some (ERR_RTE, ticked ((if netif_idx c =? NETIF_NO_INDEX then [ip_rterr; ipoutnoroutes] else []) ++ [udp_rterr]) s)
  | Some netif =>
      if negb (udp_source_ok s c netif) then send = Some (ERR_RTE, s)
      else if 2 ^ 16 <=? 8 + Z.of_nat (length D) then send = Some (ERR_MEM, s)
      else (exists s', send = Some (ERR_MEM, s') /\ no_memory s own p b s') \/
        exists q lq own1 b2 s2, udp_made s own c p b D (ip_addr (netifs s netif)) dst dst_port netif send q lq own1 b2 s2
  end.
Proof.
  intros c Hp Hl Hs send D. unfold send. rewrite (udp_sendto_run pcb p dst dst_port s Hp Hl). fold c. destruct (udp_path s c dst) as [netif|]; [|done].
  destruct (udp_source_ok s c netif); cbn [negb]; [|done]. exact (udp_send_src_run pcb p l b own _ dst dst_port netif s (Hs netif eq_refl)).
Qed.
End Sends.

(** * From host to host *)

Section Crossing.
Context {H : Type} `{OL : OutsideLaws H} (custom_free_function : Z -> prog (lwip H) unit) (fuel : nat).
Context (netif_loop_output : Z -> Z -> prog (net H) Z) (ip4_frag netif_output : Z -> Z -> Z -> prog (net H) Z).
Context (call_raw : Z -> Z -> Z -> Z -> Z -> prog (net H) Z) (call_recv : Z -> Z -> Z -> Z -> Z -> Z -> prog (net H) unit).
Context (ip4_reass : Z -> prog (net H) Z) (tcp_input icmp_input icmp_dest_unreach : Z -> Z -> prog (net H) unit) (raw_fuel : nat).
Abbreviation receive := (ip_input custom_free_function call_raw call_recv ip4_reass tcp_input icmp_input icmp_dest_unreach raw_fuel fuel).

(** A host that is about to be given a packet for it at [p]. *)
Definition arriving (r : net H) (inp src dst : Z) : net H := with_ip r (IpGlobals inp inp 0 0 src dst).
Record expecting (r : net H) (own : owners) (inp p : Z) (l : list Z) (b : struct_pbuf) (src dst src_port dst_port x : Z) : Prop := {
  ex_owned : owned (stack r) own p l b;
  ex_bytes : all_bytes (data (stack r));
  ex_first : 28 <= len b;
  ex_addr : ip4_expected r inp src dst;
  ex_raw : exists raws, pcb_list (fun y => raw_next (raw_pcb_at r y)) (raw_pcbs r) raws /\ (length raws <= raw_fuel)%nat /\
    Forall (fun y => raw_recv (raw_pcb_at r y) = 0 \/ raw_protocol (raw_pcb_at r y) <> IP_PROTO_UDP) raws;
  ex_pcb : exists pcbs, pcb_list (fun y => udp_next (udp_pcb_at (udp r) y)) (udp_pcbs (udp r)) pcbs /\ (length pcbs <= fuel)%nat /\
    udp_choice (arriving r inp src dst) inp src_port dst_port (udp_broadcast (arriving r inp src dst)) pcbs = x;
  ex_recv : x <> 0 /\ recv (udp_pcb_at (udp r) x) <> 0;
}.

Lemma udp_header_read flags sp dp src dst D rest : 0 <= sp < 2 ^ 16 -> 0 <= dp < 2 ^ 16 ->
  let B := udp_header flags sp dp src dst D ++ rest in be16 B 0 = sp /\ be16 B 2 = dp.
Proof.
  intros Hsp Hdp. cbv zeta. unfold udp_header. generalize (if Z.land flags UDP_FLAGS_NOCHKSUM =? 0 then udp_chksum sp dp src dst (8 + Z.of_nat (length D)) D else 0). intros c.
  generalize (8 + Z.of_nat (length D)). intros n. unfold be16.
  assert (forall o x, (udp_header_with c sp dp n ++ rest) !! o = Some x -> field (udp_header_with c sp dp n ++ rest) o 1 = x) as Hone by (intros; by apply field_one).
  rewrite (Hone 0%nat (sp / 256)), (Hone 1%nat (sp `mod` 256)), (Hone 2%nat (dp / 256)), (Hone 3%nat (dp `mod` 256)) by reflexivity.
  split; symmetry; apply Z.div_mod; lia.
Qed.

(** The receiver's side: a packet with both headers. *)
Lemma crossing_received r own inp p l b src dst sp dp x tos ttl id flags D pad :
  expecting r own inp p l b src dst sp dp x -> let n := 28 + Z.of_nat (length D) in
  header_fit tos n id ttl IP_PROTO_UDP src dst -> 0 <= sp < 2 ^ 16 -> 0 <= dp < 2 ^ 16 ->
  content (stack r) l = ip4_header tos n id ttl IP_PROTO_UDP src dst ++ (udp_header flags sp dp src dst D ++ D) ++ pad ->
  let k := udp_pcb_at (udp r) x in
  exists r1 l1 b1, receive inp p r = (let* _ := call_recv (recv k) (recv_arg k) x p src sp in ip4_finish) r1 /\
    owned (stack r1) own p l1 b1 /\ content (stack r1) l1 = D.
Proof.
  intros [Ho Hm Hfirst Hexp (raws & Hraw & Hrf & Hnone) (pcbs & Hpcbs & Hpf & Hx) [Hx0 Hrecv]] n Hfit Hsp Hdp Hc k.
  set (dgram := udp_header flags sp dp src dst D ++ D) in *. assert (length dgram = (8 + length D)%nat) as Hld by (unfold dgram, udp_header; by rewrite length_app, udp_header_length).
  assert (20 + Z.of_nat (length dgram) = n) as En by (rewrite Hld; unfold n; lia).
  destruct (ip4_header_delivers tos id ttl IP_PROTO_UDP src dst dgram pad r inp (len b)) as [Ever Edrop]; [by rewrite En|done|lia|]. rewrite En, <- Hc in Ever, Edrop.
  destruct (ip4_input_delivered custom_free_function call_raw raw_fuel ip4_reass (udp_input custom_free_function fuel call_recv icmp_dest_unreach) tcp_input icmp_input icmp_dest_unreach
    p inp l b own raws 20 n inp IP_PROTO_UDP (udp_input custom_free_function fuel call_recv icmp_dest_unreach) r Ho Hm Hraw Hrf Ever Hnone eq_refl)
    as (r1 & l1 & b1 & E1 & Ho1 & Hc1 & Hl1 & Hd1 & Ha1 & Hi1 & _).
  change (Z.to_nat 20) with 20%nat in Hc1. rewrite Edrop in Hc1. rewrite Hc in Hi1. destruct (header_fields_read tos n id ttl IP_PROTO_UDP src dst (dgram ++ pad) Hfit) as (_ & _ & _ & _ & F12 & F16). rewrite F12, F16 in Hi1.
  destruct (udp_header_read flags sp dp src dst D D Hsp Hdp) as [R0 R2]. fold dgram in R0, R2.
  assert (udp_outcome r1 pcbs inp (len b1) dgram = UHand x sp) as Eout.
  { destruct (outcome_ext (arriving r inp src dst) r1 pcbs inp (len b1) dgram) as [-> _]; [apply Ha1|apply Ha1|by rewrite Hi1..|].
    unfold udp_outcome, UDP_HLEN. rewrite (proj2 (Z.ltb_ge _ _)) by (rewrite Hl1; unfold n; lia). rewrite R0, R2, Hx, (proj2 (Z.eqb_neq _ _) Hx0). cbn [negb].
    change (udp (arriving r inp src dst)) with (udp r). by rewrite (proj2 (Z.eqb_neq _ _) Hrecv). }
  rewrite <- Hc1 in Eout. rewrite <- (as_udp _ _ Ha1) in Hpcbs.
  destruct (udp_input_handed custom_free_function fuel call_recv icmp_dest_unreach p inp l1 b1 own pcbs x sp r1 Ho1 ltac:(by rewrite Hd1) Hpcbs Hpf Eout) as (r2 & b2 & E2 & Ho2 & Hc2 & _).
  exists r2, l1, b2. split; [|split; [done|]].
  - unfold ip_input. rewrite E1. unfold bind at 1. rewrite E2. rewrite (as_udp _ _ Ha1), Hi1. cbn [current_iphdr_src]. done.
  - rewrite Hc2, Hc1. unfold dgram. apply drop_app_length'. unfold udp_header. by rewrite udp_header_length.
Qed.

(** C15 What one host sends another receives: a datagram that a connection sends, with
    whatever the link adds behind it, is handed to the connection of the receiver that
    is bound to its destination, with the bytes that were sent and the address and the
    port of the sender; the checksum of its IP header and, unless the sender has switched it
    off, that of the datagram verify. The packet fits, and its first pbuf has room for
    both headers or for neither, in which case they need memory. *)
Theorem udp_datagram_crosses pcb p l b own dst dst_port netif (s : net H) :
  let c := udp_pcb_at (udp s) pcb in
  let src := ip_addr (netifs s netif) in
  let D := content (stack s) l in
  let n := 28 + Z.of_nat (length D) in
  pcb <> 0 -> Forall (fun a => a <> 0) (netif_list s) -> udp_path s c dst = Some netif -> udp_source_ok s c netif = true ->
  sendable s own pcb p l b src dst dst_port netif -> n < 2 ^ 16 -> header_room 8 p b = header_room 28 p b ->
  let send := udp_sendto custom_free_function fuel netif_loop_output ip4_frag netif_output pcb p (Some dst) dst_port s in
  let W := ip4_header (tos c) n (ip_id (sending s)) (ttl c) IP_PROTO_UDP src dst ++ udp_header (udp_flags c) (local_port c) dst_port src dst D ++ D in
  ((exists s', send = Some (ERR_MEM, s') /\ no_memory s own p b s') \/
   exists q lq s2, send = (let* err := ip4_next netif_loop_output ip4_frag netif_output s q n dst netif in udp_sent custom_free_function p q err) s2 /\
     content (stack s2) lq = W) /\
  Rfc1071.sum (take 20 W) = 65535 /\
  (Z.land (udp_flags c) UDP_FLAGS_NOCHKSUM = 0 -> Rfc1071.sum (pseudo_header src dst IP_PROTO_UDP (n - 20) ++ drop 20 W) = 65535) /\
  forall r ownr inp pr lr br x pad, expecting r ownr inp pr lr br src dst (local_port c) dst_port x -> content (stack r) lr = W ++ pad ->
    let k := udp_pcb_at (udp r) x in
    exists r1 l1 b1, receive inp pr r = (let* _ := call_recv (recv k) (recv_arg k) x pr src (local_port c) in ip4_finish) r1 /\
      owned (stack r1) ownr pr l1 b1 /\ content (stack r1) l1 = D.
Proof.
  intros c src D n Hp Hl Hpath Hok Hs Hn Hroom send W. pose proof Hs as [Ho Hm Hset Hcl Href (Hp0 & Hport & Htos & Httl) (Hdp & Hdst & Hsrc) [Hid Hmtu]].
  assert (header_fit (tos c) n (ip_id (sending s)) (ttl c) IP_PROTO_UDP src dst) as Hfit by (split; try done; unfold n in *; lia).
  assert (bytes D) as HD by (unfold D, content, bytes_of; apply Forall_bind, Forall_forall; intros [a k] _; by apply bytes_load). split; [|split; [|split]].
  - unfold send. rewrite (udp_sendto_run custom_free_function fuel netif_loop_output ip4_frag netif_output pcb p dst dst_port s Hp Hl). fold c. rewrite Hpath, Hok.
    pose proof (udp_send_src_run custom_free_function fuel netif_loop_output ip4_frag netif_output pcb p l b own src dst dst_port netif s Hs) as Hsend.
    cbv zeta in Hsend. fold c D src in Hsend. rewrite (proj2 (Z.leb_gt _ _)) in Hsend by (unfold n in Hn; lia). destruct Hsend as [Hno|(q & lq & own1 & b2 & s2 & Hwho & _ & _ & _ & _ & Hres)]; [by left|right].
    assert ((if q =? p then header_room 28 p b else 28 + Z.of_nat (length D) <? 2 ^ 16) = true) as Er.
    { destruct Hwho as [(-> & _ & E8)|(Hqp & _)]; [rewrite Z.eqb_refl; congruence|rewrite (proj2 (Z.eqb_neq _ _) Hqp); apply Z.ltb_lt; exact Hn]. }
    rewrite Er in Hres. destruct Hres as (E & _ & Hc & _). by exists q, lq, s2.
  - unfold W. rewrite take_app_length' by (by rewrite header_length). by apply header_verifies.
  - intros Hflag. unfold W. rewrite drop_app_length' by (by rewrite header_length). unfold udp_header. rewrite Hflag, Z.eqb_refl.
    replace (8 + Z.of_nat (length D)) with (n - 20) by (unfold n; lia). apply udp_chksum_verifies; try done; try (unfold n in *; lia). unfold c. lia.
  - intros r ownr inp pr lr br x pad Hex Hcr. unfold W in Hcr. rewrite <- app_assoc in Hcr.
    by apply (crossing_received r ownr inp pr lr br src dst (local_port c) dst_port x (tos c) (ttl c) (ip_id (sending s)) (udp_flags c) D pad); try done; unfold c; lia.
Qed.
End Crossing.

(** * Example *)

(** The connection at 8 sends three bytes from 10.112.73.80, port 4660, to port 5120 of 10.112.73.1. *)
Definition demo_sender : udp_state :=
  UdpState 8 (fun _ => UdpPcb 0 0 0 0 0 UDP_TTL 0 0 0x1234 0 0 0) UDP_LOCAL_PORT_RANGE_START (StatsMem 0 0 1).
Definition demo_peer (s : lwip arena) : net arena :=
  Net s (fun _ => Netif (PP_HTONL 0x0a704901) (PP_HTONL 0xffff0000) 0 1500 7 0) [8] (IpGlobals 0 0 0 0 0 0) (fun _ => 0) 0 (fun _ => RawPcb 0 0 0 0 0 0 0 0) demo_pcbs (Sending 0 8).

Lemma demo_three : exists s own, owned s own 65544 [65544] (part 0 65622 3 3) /\ all_bytes (data s) /\ content s [65544] = [1; 2; 3].
Proof. apply (packet_after (demo_calls PBUF_TRANSPORT 3)); [vm_compute; reflexivity|forall_list; by vm_compute|done..]. Qed.

Lemma demo_sendable t own : owned t own 65544 [65544] (part 0 65622 3 3) -> all_bytes (data t) ->
  sendable (demo_net t demo_sender) own 8 65544 [65544] (part 0 65622 3 3) (PP_HTONL 0x0a704950) (PP_HTONL 0x0a704901) 5120 8.
Proof.
  intros Ho Hm. pose proof (ow_first _ _ _ _ _ Ho) as Hb. split; try done.
  - apply (own_data_settled t own); [apply Ho|..]; intros y c ->%list_elem_of_singleton Hc; rewrite Hb in Hc; by injection Hc as <-.
  - change (heap (stack (demo_net t demo_sender))) with (heap t). rewrite (parts_cons _ _ _ _ Hb). apply List.Forall_nil.
Qed.

Lemma udp_send_correct_witness : exists (s s2 : net arena) own,
  owned (stack s) own 65544 [65544] (part 0 65622 3 3) /\ content (stack s) [65544] = [1; 2; 3] /\
  udp_sendto (fun _ => stuck) 1 (fun _ _ => stuck) (fun _ _ _ => stuck) (fun _ _ _ => ret 0) 8 65544 (Some (PP_HTONL 0x0a704901)) 5120 s = Some (0, s2).
Proof.
  destruct demo_three as (t & own & Ho & Hm & Hc). set (s := demo_net t demo_sender).
  pose proof (udp_send_correct (fun _ => stuck) 1 (fun _ _ => stuck) (fun _ _ _ => stuck) (fun _ _ _ => ret 0) 8 65544 [65544] (part 0 65622 3 3) own (PP_HTONL 0x0a704901) 5120 s) as Hs.
  cbv zeta in Hs. assert (udp_path s (udp_pcb_at (udp s) 8) (PP_HTONL 0x0a704901) = Some 8) as Ep by reflexivity. rewrite Ep in Hs.
  assert (udp_source_ok s (udp_pcb_at (udp s) 8) 8 = true) as Eo by reflexivity. rewrite Eo in Hs. cbn [negb] in Hs.
  change (content (stack s) [65544]) with (content t [65544]) in Hs. rewrite Hc in Hs. change (2 ^ 16 <=? 8 + Z.of_nat (length [1; 2; 3])) with false in Hs. cbn iota in Hs.
  destruct Hs as [(s' & _ & Hno)|(q & lq & own1 & b2 & s2 & Hwho & _ & _ & _ & _ & Hres)]; [done|by repeat constructor|intros netif [= <-]; by apply demo_sendable|..].
  - by destruct Hno as [? _].
  - destruct Hwho as [(-> & _)|(_ & _ & _ & ?)]; [|done]. change (if _ =? _ then _ else _) with true in Hres. cbn iota in Hres. destruct Hres as (E & _).
    exists s. eexists _, own. split; [exact Ho|]. split; [exact Hc|]. rewrite E. reflexivity.
Defined.

Lemma udp_datagram_crosses_witness : exists (s r r1 : net arena) l l1 (k : prog (net arena) unit),
  content (stack s) [65544] = [1; 2; 3] /\
  ip_input (fun _ => stuck) (fun _ _ _ _ _ => stuck)
    (fun f arg pcb _ addr port => if decide ([f; arg; pcb; addr; port] = [0x4000; 7; 8; PP_HTONL 0x0a704950; 0x1234]) then k else stuck)
    (fun _ => stuck) (fun _ _ => stuck) (fun _ _ => stuck) (fun _ _ => stuck) 0 1 8 65544 r = (let* _ := k in ip4_finish) r1 /\
  content (stack r) l = [0x45; 0; 0; 31; 0; 0; 0; 0; 255; 17; 20; 157; 10; 112; 73; 80; 10; 112; 73; 1;
    0x12; 0x34; 0x14; 0x00; 0; 11; 46; 113] ++ [1; 2; 3] ++ [0; 0] /\ content (stack r1) l1 = [1; 2; 3].
Proof.
  destruct demo_three as (t & own & Ho & Hm & Hc). set (s := demo_net t demo_sender). set (k := ret tt : prog (net arena) unit).
  set (call := fun f arg pcb (_ addr port : Z) => if decide ([f; arg; pcb; addr; port] = [0x4000; 7; 8; PP_HTONL 0x0a704950; 0x1234]) then k else stuck).
  pose proof (udp_datagram_crosses (fun _ => stuck) 1 (fun _ _ => stuck) (fun _ _ _ => stuck) (fun _ _ _ => ret 0) (fun _ _ _ _ _ => stuck) call
    (fun _ => stuck) (fun _ _ => stuck) (fun _ _ => stuck) (fun _ _ => stuck) 0
    8 65544 [65544] (part 0 65622 3 3) own (PP_HTONL 0x0a704901) 5120 8 s) as Hx.
  cbv zeta in Hx. change (content (stack s) [65544]) with (content t [65544]) in Hx. rewrite Hc in Hx.
  set (W := _ ++ _ ++ [1; 2; 3]) in Hx. vm_compute in W.
  destruct Hx as (_ & _ & _ & Hrecv); [done|by repeat constructor|reflexivity|reflexivity|by apply demo_sendable|done|reflexivity|].
  destruct (demo_arrival (W ++ [0; 0])) as (t' & own' & Ho' & Hm' & Hc'); [forall_list; by vm_compute|reflexivity|].
  destruct (Hrecv (demo_peer t') own' 8 65544 [65544] (part 0 65568 33 33) 8 [0; 0]) as (r1 & l1 & b1 & E & _ & Hc1).
  - split; try done; [exists []; split; [done|]; split; [done|apply List.Forall_nil]|exists [8]; split; [by cbn|]; split; [done|reflexivity]].
  - exact Hc'.
  - exists s, (demo_peer t'), r1, [65544], l1, k. split; [exact Hc|]. split; [exact E|]. split; [exact Hc'|exact Hc1].
Defined.
