(* ===== verification/Icmp.v ===== *)
(** ICMP of the lwIP stack (icmp.cpp): the answer to an echo request, and messages that a
    packet could not be delivered. *)

From Stdlib Require Import ZArith Lia Bool.
From stdpp Require Import base list gmap.
From S2P Require Import Prelude Hw Chksum RingBuffer Pbuf PbufRef PbufOps PbufData PbufHistory PbufContent Ip4 IpOutput UdpInput UdpOutput.

Definition ICMP_ER : Z := 0.
Definition ICMP_DUR : Z := 3.
Definition ICMP_ECHO : Z := 8.
Definition ICMP_TE : Z := 11.
Definition ICMP_TTL : Z := 255.
Definition ICMP_DEST_UNREACH_DATASIZE : Z := 8.
(** The size of struct icmp_echo_hdr. *)
Definition SIZEOF_ECHO_HDR : Z := 8.

(** The counter for a type of message that is not answered. *)
Definition icmp_counter (type : Z) : list counter :=
  if type =? ICMP_DUR then [icmpindestunreachs] else if type =? ICMP_TE then [icmpintimeexcds]
  else if type =? 12 then [icmpinparmprobs] else if type =? 4 then [icmpinsrcquenchs] else if type =? 5 then [icmpinredirects]
  else if type =? 13 then [icmpintimestamps] else if type =? 14 then [icmpintimestampreps]
  else if type =? 17 then [icmpinaddrmasks] else if type =? 18 then [icmpinaddrmaskreps] else [].

Section Icmp.
Context {H : Type} {Out : Outside H} (custom_free_function : Z -> prog (lwip H) unit).
Context (netif_loop_output : Z -> Z -> prog (net H) Z) (ip4_frag netif_output : Z -> Z -> Z -> prog (net H) Z).
Abbreviation M := (prog (net H)).
Abbreviation output_if := (ip4_output_if netif_loop_output ip4_frag netif_output).

(** * Echo *)

(** A packet with room for the headers of the answer: [p], or a copy of it in a new
    pbuf; [None] where the code goes to [icmperr]. *)
Definition icmp_echo_packet (p hlen iphdr_in : Z) : prog (lwip H) (option Z) :=
  let* r := pbuf_add_header p (hlen + PBUF_LINK_HLEN) in
  if negb (r =? 0) then
    let* b := deref p in
    let alloc_len := u16 (tot_len b + hlen) in
    if alloc_len <? tot_len b then ret None else
    let* r := pbuf_alloc custom_free_function PBUF_LINK alloc_len PBUF_RAM in
    if r =? 0 then ret None else
    let* c := deref r in
    if len c <? hlen + SIZEOF_ECHO_HDR then
      let* _ := pbuf_free custom_free_function r in ret None
    else
      let* _ := copy_data (payload c) iphdr_in hlen in
      let* e := pbuf_remove_header r hlen in
      if negb (e =? 0) then
        let* _ := pbuf_free custom_free_function r in ret None
      else
        let* err := pbuf_copy r p in
        if negb (err =? ERR_OK) then
          let* _ := pbuf_free custom_free_function r in ret None
        else
          let* _ := pbuf_free custom_free_function p in
          ret (Some r)
  else
    let* e := pbuf_remove_header p (hlen + PBUF_LINK_HLEN) in
    ret (if negb (e =? 0) then None else Some p).

(** The checksum after the type has changed from 8 to 0. *)
Definition icmp_adjust (chksum : Z) : Z :=
  if PP_HTONS (0xffff - Z.shiftl ICMP_ECHO 8) <? chksum then u16 (chksum + PP_HTONS (u16 (Z.shiftl ICMP_ECHO 8)) + 1)
  else u16 (chksum + PP_HTONS (Z.shiftl ICMP_ECHO 8)).

(** The answer is made where the request is. *)
Definition icmp_write_reply (iphdr iecho hlen src dest : Z) : M unit :=
  let* _ := poke (iphdr + 12) (le_bytes 4 src) in
  let* _ := poke (iphdr + 16) (le_bytes 4 dest) in
  let* _ := poke iecho [ICMP_ER] in
  let* m := bytes_now in
  let* _ := poke (iecho + 2) (le_bytes 2 (icmp_adjust (load_le m (iecho + 2) 2))) in
  let* _ := IPH_TTL_SET iphdr ICMP_TTL in
  let* _ := poke (iphdr + 10) (le_bytes 2 0) in
  let* m := bytes_now in
  poke (iphdr + 10) (le_bytes 2 (inet_chksum m iphdr hlen)).

Definition icmp_echo_reply (p hlen inp : Z) : M unit :=
  let* b := on_lwip (deref p) in
  let iecho := payload b in
  let* r := on_lwip (pbuf_add_header p hlen) in
  if negb (r =? 0) then ret tt else
  let* b := on_lwip (deref p) in
  let* d := gets ip_data in
  let* _ := icmp_write_reply (payload b) iecho hlen (current_iphdr_dest d) (current_iphdr_src d) in
  let* _ := STATS_INC [icmp_xmit; icmpoutmsgs; icmpoutechoreps] in
  let* _ := output_if p (Some (current_iphdr_dest d)) None ICMP_TTL 0 IP_PROTO_ICMP inp in
  ret tt.

(** The ends of [icmp_input]. *)
Definition icmp_end (p : Z) (cs : list counter) : M unit := let* _ := free_packet custom_free_function p in STATS_INC cs.
Definition icmp_lenerr_end (p : Z) : M unit := icmp_end p [icmp_lenerr; icmpinerrors].
Definition icmp_err_end (p : Z) : M unit := icmp_end p [icmp_err; icmpinerrors].

Definition icmp_echo (p hlen inp : Z) : M unit :=
  let* _ := STATS_INC [icmpinechos] in
  let* s := gets id in
  let d := ip_data s in
  if ip4_addr_ismulticast (current_iphdr_dest d) then icmp_err_end p
  else if ip4_addr_isbroadcast (current_iphdr_dest d) (netifs s (current_netif d)) then icmp_err_end p
  else
    let* b := on_lwip (deref p) in
    if tot_len b <? SIZEOF_ECHO_HDR then icmp_lenerr_end p else
    let* q := on_lwip (icmp_echo_packet p hlen (current_ip4_header d)) in
    match q with
    | None => icmp_err_end p
    | Some q =>
        let* _ := icmp_echo_reply q hlen inp in
        free_packet custom_free_function q
    end.

Definition icmp_input (p inp : Z) : M unit :=
  let* _ := STATS_INC [icmp_recv; icmpinmsgs] in
  let* d := gets ip_data in
  let* m := bytes_now in
  let hlen := IPH_HL_BYTES m (current_ip4_header d) in
  if hlen <? IP_HLEN then icmp_lenerr_end p else
  let* b := on_lwip (deref p) in
  if len b <? 4 then icmp_lenerr_end p else
  let* m := bytes_now in
  let type := m (payload b) in
  if type =? ICMP_ER then
    let* _ := STATS_INC [icmpinechoreps] in free_packet custom_free_function p
  else if type =? ICMP_ECHO then icmp_echo p hlen inp
  else
    let* _ := STATS_INC (icmp_counter type ++ [icmp_proterr; icmp_drop]) in
    free_packet custom_free_function p.

(** * Messages about a packet *)

Definition icmp_write_message (icmphdr iphdr type code : Z) : M unit :=
  let* _ := poke icmphdr [type] in
  let* _ := poke (icmphdr + 1) [code] in
  let* _ := poke (icmphdr + 4) (le_bytes 2 0) in
  let* _ := poke (icmphdr + 6) (le_bytes 2 0) in
  on_lwip (copy_data (icmphdr + SIZEOF_ECHO_HDR) iphdr (IP_HLEN + ICMP_DEST_UNREACH_DATASIZE)).

Definition icmp_send_response (p type code : Z) : M unit :=
  let* _ := STATS_INC [icmpoutmsgs] in
  let* q := on_lwip (pbuf_alloc custom_free_function PBUF_IP (SIZEOF_ECHO_HDR + IP_HLEN + ICMP_DEST_UNREACH_DATASIZE) PBUF_RAM) in
  if q =? 0 then STATS_INC [icmpouterrors] else
  let* b := on_lwip (deref p) in
  let* c := on_lwip (deref q) in
  let* _ := icmp_write_message (payload c) (payload b) type code in
  let* m := bytes_now in
  let iphdr_src := IPH_SRC m (payload b) in
  let* netif := ip4_route iphdr_src in
  let* _ := when (negb (netif =? 0))
    (let* _ := poke (payload c + 2) (le_bytes 2 0) in
     let* m := bytes_now in
     let* _ := poke (payload c + 2) (le_bytes 2 (inet_chksum m (payload c) (len c))) in
     let* _ := STATS_INC [icmp_xmit] in
     let* _ := output_if q None (Some iphdr_src) ICMP_TTL 0 IP_PROTO_ICMP netif in
     ret tt) in
  free_packet custom_free_function q.

Definition icmp_dest_unreach (p t : Z) : M unit :=
  let* _ := STATS_INC [icmpoutdestunreachs] in icmp_send_response p ICMP_DUR t.
Definition icmp_time_exceeded (p t : Z) : M unit :=
  let* _ := STATS_INC [icmpouttimeexcds] in icmp_send_response p ICMP_TE t.
End Icmp.

(** * What the answer is *)

(** The header of the answer around a checksum: that of the request with other addresses
    and a new time to live. *)
Definition reply_header_with (c : Z) (hdr : list Z) (src dest : Z) : list Z :=
  (take 8 hdr ++ [ICMP_TTL] ++ take 1 (drop 9 hdr)) ++ le_bytes 2 c ++ le_bytes 4 src ++ le_bytes 4 dest ++ drop 20 hdr.
Definition reply_header (hdr : list Z) (src dest : Z) : list Z :=
  reply_header_with (lwip_htons (Rfc1071.checksum (reply_header_with 0 hdr src dest))) hdr src dest.

(** The answer to the request [D] around a checksum. *)
Definition echo_reply (c : Z) (D : list Z) : list Z := [ICMP_ER] ++ take 1 (drop 1 D) ++ le_bytes 2 c ++ drop 4 D.

(** A message about a packet that begins with the bytes [Q]. *)
Definition icmp_message_with (c type code : Z) (Q : list Z) : list Z := [type; code] ++ le_bytes 2 c ++ [0; 0; 0; 0] ++ Q.
Definition icmp_message (type code : Z) (Q : list Z) : list Z :=
  icmp_message_with (lwip_htons (Rfc1071.checksum (icmp_message_with 0 type code Q))) type code Q.

(** Once a checksum is where it was zero before, behind an even number of bytes, the sum
    is all ones. *)
Lemma val_around A B c : Nat.even (length A) = true -> bytes A -> bytes B -> 0 <= c < 2 ^ 16 ->
  oc (val (A ++ le_bytes 2 c ++ B)) = oc (val A + (c + val B)).
Proof.
  intros He HA HB Hc. pose proof (val_nonneg _ HA). pose proof (val_nonneg _ HB).
  assert (bytes (le_bytes 2 c ++ B)) as HcB by (apply Forall_app; split; [apply bytes_le_bytes|done]). pose proof (val_nonneg _ HcB).
  rewrite <- (Z.mul_1_l (val _)), val_app, He, !Z.mul_1_l by (done || lia). apply oc_add; [lia..|done|]. by apply val_word.
Qed.

Lemma chksum_around A B : Nat.even (length A) = true -> bytes A -> bytes B ->
  Rfc1071.sum (A ++ le_bytes 2 (lwip_htons (Rfc1071.checksum (A ++ le_bytes 2 0 ++ B))) ++ B) = 65535.
Proof.
  intros He HA HB. pose proof (val_nonneg _ HA). pose proof (val_nonneg _ HB).
  assert (forall c, bytes (A ++ le_bytes 2 c ++ B)) as Hb by (intros c; rewrite !Forall_app; split_and!; [done|apply bytes_le_bytes|done]).
  apply rfc_sum_ones; [done|]. rewrite rfc_checksum_val by done. rewrite (val_around A B 0) by (done || lia).
  pose proof (oc_range (val A + (0 + val B))). rewrite val_around by (done || lia).
  replace (val A + (65535 - oc (val A + (0 + val B)) + val B)) with (val A + (0 + val B) + (65535 - oc (val A + (0 + val B)))) by lia.
  apply oc_complement. lia.
Qed.

Lemma reply_header_verifies hdr src dest : (20 <= length hdr)%nat -> bytes hdr -> Rfc1071.sum (reply_header hdr src dest) = 65535.
Proof.
  intros Hl Hb. apply chksum_around.
  - rewrite !length_app, !length_take, length_drop. cbn [length]. replace (_ + _)%nat with 10%nat by lia. done.
  - rewrite !Forall_app. split_and!; [by apply Forall_take|by forall_list|by apply Forall_take, Forall_drop].
  - rewrite !Forall_app. split_and!; [apply bytes_le_bytes..|by apply Forall_drop].
Qed.

Lemma icmp_message_verifies type code Q : is_byte type -> is_byte code -> bytes Q -> Rfc1071.sum (icmp_message type code Q) = 65535.
Proof.
  intros Ht Hc HQ. apply (chksum_around [type; code] ([0; 0; 0; 0] ++ Q)); [done|by forall_list|]. apply Forall_app. split; [by forall_list|done].
Qed.

Lemma icmp_adjust_value c : 0 <= c < 2 ^ 16 -> 0 < icmp_adjust c < 2 ^ 16 /\ exists k, c + 8 = icmp_adjust c + 65535 * k.
Proof.
  intros Hc. unfold icmp_adjust. change (PP_HTONS (0xffff - Z.shiftl ICMP_ECHO 8)) with 0xfff7.
  change (PP_HTONS (u16 (Z.shiftl ICMP_ECHO 8))) with 8. change (PP_HTONS (Z.shiftl ICMP_ECHO 8)) with 8. destruct (Z.ltb_spec 0xfff7 c).
  - assert (u16 (c + 8 + 1) = c + 9 - 2 ^ 16) as ->; [symmetry; apply (Z.mod_unique _ _ 1); lia|]. split; [lia|]. exists 1. lia.
  - rewrite (wrap_small 16) by lia. split; [lia|]. exists 0. lia.
Qed.

Lemma htons_inj x y : 0 <= x < 2 ^ 16 -> 0 <= y < 2 ^ 16 -> lwip_htons x = lwip_htons y -> x = y.
Proof.
  intros Hx Hy. rewrite !htons_value by done. destruct (halves 256 x ltac:(lia)) as (? & ? & -> & -> & ? & ? & ?), (halves 256 y ltac:(lia)) as (? & ? & -> & -> & ? & ? & ?). lia.
Qed.

(** The answer has the sum of the request: it verifies if the request does. *)
Lemma echo_reply_sum D : bytes D -> (4 <= length D)%nat -> field D 0 1 = ICMP_ECHO ->
  Rfc1071.sum (echo_reply (icmp_adjust (field D 2 2)) D) = Rfc1071.sum D.
Proof.
  intros HD Hl Ht. destruct D as [|t [|code [|c0 [|c1 D]]]]; try (cbn in Hl; lia). pose proof (field_one (t :: code :: c0 :: c1 :: D) 0 t eq_refl) as Et. rewrite Ht in Et. subst t.
  pose proof HD as Hb. rewrite !Forall_cons in Hb. destruct Hb as (_ & Hcode & H0 & H1 & HD'). pose proof (val_nonneg _ HD').
  assert (bytes [c0; c1]) as Hcc by (by forall_list). set (c := field _ 2 2). assert ([c0; c1] = le_bytes 2 c) as Ec by (symmetry; apply (le_bytes_le_val [c0; c1] Hcc)).
  assert (0 <= c < 2 ^ 16) as Hc by (pose proof (le_val_range [c0; c1] Hcc); done). destruct (icmp_adjust_value c Hc) as [Hr [k Hk]].
  assert (forall t w, is_byte t -> 0 <= w < 2 ^ 16 -> bytes ([t; code] ++ le_bytes 2 w ++ D) /\ oc (val ([t; code] ++ le_bytes 2 w ++ D)) = oc (t + 256 * code + (w + val D))) as Hval.
  { intros t w Hbt Hw. split; [rewrite !Forall_app; split_and!; [by forall_list|apply bytes_le_bytes|done]|].
    rewrite val_around by (done || by forall_list). f_equal. cbn [val]. lia. }
  change (ICMP_ECHO :: code :: c0 :: c1 :: D) with ([ICMP_ECHO; code] ++ [c0; c1] ++ D). rewrite Ec.
  change (echo_reply _ _) with ([ICMP_ER; code] ++ le_bytes 2 (icmp_adjust c) ++ D). unfold ICMP_ECHO, ICMP_ER, is_byte in *.
  destruct (Hval 0 (icmp_adjust c)) as [Hb1 E1]; [lia..|]. destruct (Hval 8 c) as [Hb2 E2]; [lia..|].
  pose proof (rfc_sum_range _ Hb1). pose proof (rfc_sum_range _ Hb2). apply htons_inj; [lia..|]. rewrite !rfc_sum_val, E1, E2 by done. apply (oc_eq _ _ (- k)); lia.
Qed.

(** * The answer in memory *)

Section Reply.
Context {H : Type} `{OL : OutsideLaws H} (custom_free_function : Z -> prog (lwip H) unit).

Lemma bytes_now_bind {A} (k : mem -> prog (net H) A) s m : bind bytes_now k (at_mem s m) = k m (at_mem s m).
Proof. done. Qed.

Lemma inet_chksum_rfc (m : mem) a n : all_bytes m -> 0 <= n < 2 ^ 16 -> inet_chksum m a n = lwip_htons (Rfc1071.checksum (load m a (Z.to_nat n))).
Proof.
  intros Hm Hn. rewrite rfc_checksum_val by (by apply bytes_load). unfold inet_chksum. rewrite chksum_value by (done || lia). unfold at_. pose proof (oc_range (val (load m a (Z.to_nat n)))). by rewrite lnot_16.
Qed.

(** A piece that is not written, or the one that is. *)
Ltac keep_or_written :=
  repeat first [rewrite load_store_ne by (unfold disjoint; rewrite ?length_le_bytes; cbn [length]; lia)
               |apply load_store_at; [rewrite ?length_le_bytes; reflexivity|lia]].

Lemma write_reply_at a hl src dest (s : net H) m : 20 <= hl < 2 ^ 16 -> all_bytes m ->
  let hdr := load m a (Z.to_nat hl) in
  let D := load m (a + hl) 4 in
  exists m', icmp_write_reply a (a + hl) hl src dest (at_mem s m) = Some (tt, at_mem s m') /\
    load m' a (Z.to_nat hl + 4) = reply_header hdr src dest ++ echo_reply (icmp_adjust (field D 2 2)) D /\
    (forall x, x < a \/ a + hl + 4 <= x -> m' x = m x) /\ all_bytes m'.
Proof.
  intros Hhl Hm hdr D. unfold icmp_write_reply, IPH_TTL_SET. rewrite !poke_bind, bytes_now_bind, !poke_bind, bytes_now_bind, poke_run.
  set (m3 := store (store (store m _ _) _ _) _ _). assert (load_le m3 (a + hl + 2) 2 = field D 2 2) as ->.
  { unfold load_le, m3, field, D. rewrite !load_store_ne by (unfold disjoint; rewrite ?length_le_bytes; cbn [length]; lia). rewrite load_drop, load_take by lia. done. }
  set (c := icmp_adjust _). set (m5 := store _ (a + 8) [u8 ICMP_TTL]). set (m6 := store m5 (a + 10) (le_bytes 2 0)).
  assert (forall M w, M = m5 \/ M = m6 -> let m' := store M (a + 10) (le_bytes 2 w) in
    load m' a (Z.to_nat hl) = reply_header_with w hdr src dest /\ load m' (a + hl) 4 = echo_reply c D) as Hload.
  { intros M w HM. cbn zeta. assert (forall b n, b + Z.of_nat n <= a + 10 \/ a + 12 <= b -> load M b n = load m5 b n) as Eb.
    { intros b n Hb. destruct HM as [->| ->]; [done|]. unfold m6. by rewrite load_store_ne by (unfold disjoint; rewrite ?length_le_bytes; lia). }
    clear HM. split.
    - replace (Z.to_nat hl) with (8 + (1 + (1 + (2 + (4 + (4 + (Z.to_nat hl - 20)))))))%nat by lia. unfold reply_header_with, hdr. rewrite !load_app, <- !app_assoc.
      repeat apply (f_equal2 app); keep_or_written; rewrite Eb by lia; unfold m5, m3; keep_or_written; rewrite ?load_drop, ?load_take by lia; try done; f_equal; lia.
    - unfold echo_reply, D. rewrite load_drop, load_take, load_drop by lia. change (load m (a + hl + Z.of_nat 4) (4 - 4)) with (@nil Z). rewrite app_nil_r.
      rewrite load_store_ne, Eb by (unfold disjoint; rewrite ?length_le_bytes; lia). rewrite (load_app _ (a + hl) 1 3), (load_app _ (a + hl + Z.of_nat 1) 1 2). unfold m5, m3.
      repeat apply (f_equal2 app); keep_or_written; done. }
  assert (all_bytes m6) as Hm6.
  { unfold m6, m5, m3. repeat (apply is_byte_store; [|first [apply bytes_le_bytes|by forall_list]]). done. }
  rewrite inet_chksum_rfc by (done || lia).
  assert (load m6 a (Z.to_nat hl) = reply_header_with 0 hdr src dest) as -> by (apply (Hload m5 0); by left).
  eexists. split; [reflexivity|]. destruct (Hload m6 (lwip_htons (Rfc1071.checksum (reply_header_with 0 hdr src dest)))) as [E1 E2]; [by right|]. split; [|split].
  - rewrite load_app, E1, Z2Nat.id, E2 by lia. done.
  - intros x Hx. unfold m6, m5, m3. by rewrite !store_out by (rewrite ?length_le_bytes; cbn [length]; lia).
  - apply is_byte_store; [done|apply bytes_le_bytes].
Qed.
Context (netif_loop_output : Z -> Z -> prog (net H) Z) (ip4_frag netif_output : Z -> Z -> Z -> prog (net H) Z).
Abbreviation next_hop := (ip4_next netif_loop_output ip4_frag netif_output).

(** The answer on its way. *)
Record echo_sent (own : owners) (q : Z) (lq : list Z) (hdr D : list Z) (s s1 : net H) : Prop := {
  es_owned : exists b, owned (stack s1) own q lq b;
  es_content : content (stack s1) lq = reply_header hdr (current_iphdr_dest (ip_data s)) (current_iphdr_src (ip_data s)) ++ echo_reply (icmp_adjust (field D 2 2)) D;
  es_bytes : all_bytes (data (stack s1));
  es_aside : aside s s1 /\ ip_data s1 = ip_data s /\ sending s1 = sending s;
}.

Lemma reply_header_length c hdr src dest : (20 <= length hdr)%nat -> length (reply_header_with c hdr src dest) = length hdr.
Proof. intros Hl. unfold reply_header_with. rewrite !length_app, !length_le_bytes, !length_take, !length_drop. cbn [length]. lia. Qed.

Lemma reply_header_dest c hdr src dest rest : (20 <= length hdr)%nat -> 0 <= dest < 2 ^ 32 -> field (reply_header_with c hdr src dest ++ rest) 16 4 = dest.
Proof.
  intros Hl Hd. unfold field, reply_header_with. set (A := take 8 hdr ++ _).
  replace ((A ++ le_bytes 2 c ++ le_bytes 4 src ++ le_bytes 4 dest ++ drop 20 hdr) ++ rest) with ((A ++ le_bytes 2 c ++ le_bytes 4 src) ++ le_bytes 4 dest ++ drop 20 hdr ++ rest) by (by rewrite <- !app_assoc).
  rewrite drop_app_length'; [|unfold A; rewrite !length_app, !length_le_bytes, !length_take, length_drop; cbn [length]; lia].
  rewrite take_app_length' by (by rewrite length_le_bytes). by rewrite le_val_le_bytes, wrap_small.
Qed.

(** A packet that has its header goes out by its address. *)
Lemma output_included_run q lq b own src dest ttl tos proto netif (s : net H) :
  owned (stack s) own q lq b -> all_bytes (data (stack s)) -> 20 <= len b -> 0 <= mtu (netifs s netif) -> field (content (stack s) lq) 16 4 = dest ->
  ip4_output_if netif_loop_output ip4_frag netif_output q src None ttl tos proto netif s = next_hop s q (tot_len b) dest netif (ticked [ipoutrequests; ip_xmit] s).
Proof.
  intros Ho Hm Hlen Hmtu <-. unfold ip4_output_if. rewrite gets_id_bind. cbn zeta. unfold ip4_output_if_src. rewrite stats_inc_bind. set (s1 := ticked [ipoutrequests] s).
  rewrite (on_lwip_bind _ _ s1 b (stack s1)); [|change (lwip_of s1) with (stack s); unfold deref; by rewrite (ow_first _ _ _ _ _ Ho)]. change (set_lwip (stack s1) s1) with s1.
  rewrite (proj2 (Z.ltb_ge _ _)) by done. rewrite (bind_some bytes_now _ s1 (data (stack s)) s1 eq_refl).
  destruct (header_fields _ _ _ _ _ Ho Hm Hlen) as (Hf & _). unfold IPH_DEST. change 16 with (Z.of_nat 16). rewrite Hf by lia.
  by rewrite (transmit_run _ _ _ q _ netif lq b own s1 Ho Hmtu).
Qed.

Lemma echo_reply_run q lq bq own hl inp (s : net H) :
  owned (stack s) own q lq bq -> all_bytes (data (stack s)) -> 20 <= hl -> 4 <= len bq -> header_room hl q bq = true ->
  clear_of (payload bq - hl) (hl + 4) (drop 1 (parts (heap (stack s)) lq)) -> 0 <= mtu (netifs s inp) -> 0 <= current_iphdr_src (ip_data s) < 2 ^ 32 ->
  let hdr := load (data (stack s)) (payload bq - hl) (Z.to_nat hl) in
  exists s1, icmp_echo_reply netif_loop_output ip4_frag netif_output q hl inp s =
      (let* _ := next_hop s q (hl + tot_len bq) (current_iphdr_src (ip_data s)) inp in ret tt) s1 /\
    echo_sent own q lq hdr (content (stack s) lq) s s1 /\ stats s1 = counted [icmp_xmit; icmpoutmsgs; icmpoutechoreps; ipoutrequests; ip_xmit] (stats s).
Proof.
  intros Ho Hm Hhl Hlen Hroom Hcl Hmtu Hsrc hdr. set (D := content (stack s) lq). destruct (owned_facts _ _ _ _ _ Ho) as (_ & Hle & Et & H16 & Hload). fold D in Et, Hload.
  pose proof Hroom as Hr. apply andb_true_iff in Hr as [[Hfit%Z.ltb_lt _]%andb_true_iff _]. unfold icmp_echo_reply.
  rewrite (on_lwip_bind _ _ s bq (stack s)); [|change (lwip_of s) with (stack s); unfold deref; by rewrite (ow_first _ _ _ _ _ Ho)].
  assert (set_lwip (stack s) s = s) as -> by (by destruct s). pose proof (owned_add_header (stack s) own q lq bq hl Ho ltac:(lia)) as Hadd. unfold header_room in Hroom. rewrite Hroom in Hadd.
  destruct Hadd as (t & b' & E & Ho' & Hd & Hc & Hp & Hl & _ & Hparts). rewrite (on_lwip_bind _ _ s _ _ E). cbn [Z.eqb negb]. set (s2 := set_lwip t s).
  rewrite (on_lwip_bind _ _ s2 b' t); [|change (lwip_of s2) with t; unfold deref; by rewrite (ow_first _ _ _ _ _ Ho')]. change (set_lwip t s2) with s2.
  rewrite (bind_some (gets ip_data) _ s2 (ip_data s) s2 eq_refl). set (d := ip_data s). rewrite Hp.
  destruct (write_reply_at (payload bq - hl) hl (current_iphdr_dest d) (current_iphdr_src d) s2 (data t)) as (m' & Ew & Hld & Hout & Hm'); [lia|by rewrite Hd|].
  rewrite at_mem_same in Ew. replace (payload bq - hl + hl) with (payload bq) in * by lia. rewrite (bind_some _ _ _ _ _ Ew). set (s3 := at_mem s2 m').
  rewrite Hd in Hld, Hout. fold hdr in Hld.
  assert (load (data (stack s)) (payload bq) 4 = take 4 D) as E4.
  { replace (take 4 D) with (take 4 (take (Z.to_nat (len bq)) D)) by (rewrite take_take; f_equal; lia). rewrite <- Hload. symmetry. apply load_take. lia. }
  rewrite E4, (field_take D 4 2 2) in Hld by lia. set (c := icmp_adjust _) in Hld.
  set (hd := reply_header hdr _ _) in Hld. assert (length hdr = Z.to_nat hl) as Hlh by apply length_load.
  assert (length hd = Z.to_nat hl) as Hlhd by (unfold hd, reply_header; rewrite reply_header_length by lia; done).
  assert (echo_reply c (take 4 D) ++ drop 4 D = echo_reply c D) as Ejoin.
  { unfold echo_reply. rewrite skipn_firstn_comm, take_take, (drop_ge (take 4 D)), app_nil_r, <- !app_assoc by (rewrite length_take; lia). done. }
  assert (length (hd ++ echo_reply c (take 4 D)) = Z.to_nat hl + 4)%nat as Hlf.
  { rewrite length_app, Hlhd. unfold echo_reply. rewrite !length_app, length_le_bytes, length_take, !length_drop, length_take. cbn [length]. lia. }
  destruct (owned_write t own q lq b' (hd ++ echo_reply c (take 4 D)) m' Ho') as [Ho3 Hc3].
  { lia. }
  { by rewrite Hlf, Hp. }
  { intros x Hx. rewrite Hd. apply Hout. lia. }
  { rewrite Hlf, Hp, Hparts. cbn [drop]. by replace (Z.of_nat (Z.to_nat hl + 4)) with (hl + 4) by lia. }
  rewrite Hc, Hlf in Hc3. fold hdr D in Hc3. assert (drop (Z.to_nat hl + 4) (hdr ++ D) = drop 4 D) as Edrop by (rewrite <- Hlh, <- drop_drop, drop_app_length; done).
  rewrite Edrop, <- app_assoc, Ejoin in Hc3. rewrite stats_inc_bind. set (s4 := ticked _ s3).
  assert (field (content (stack s4) lq) 16 4 = current_iphdr_src d) as Edest.
  { change (content (stack s4) lq) with (content (put_data m' t) lq). rewrite Hc3. apply reply_header_dest; [lia|done]. }
  assert (tot_len b' = hl + tot_len bq) as Etot.
  { destruct (owned_facts _ _ _ _ _ Ho') as (_ & _ & -> & _). rewrite Hc, length_app, length_load. fold D. lia. }
  rewrite (bind_move _ _ _ _ _ (output_included_run q lq b' own (Some (current_iphdr_dest d)) _ ICMP_TTL 0 IP_PROTO_ICMP inp s4 Ho3 Hm' ltac:(lia) Hmtu Edest)), Etot.
  change (next_hop s4) with (next_hop s). exists (ticked [ipoutrequests; ip_xmit] s4). split; [done|]. split; [|done].
  split; [by exists b'|exact Hc3|exact Hm'|done].
Qed.
End Reply.

(** * The packet for the answer *)

Section EchoPacket.
Context {H : Type} `{OL : OutsideLaws H} (custom_free_function : Z -> prog (lwip H) unit).

(** The inside of the block of a pbuf is clear of the rest of its packet. *)
Lemma front_clear (s : lwip H) own p l b a k : owned s own p l b -> filled s l -> p + 24 <= a -> a + k <= payload b + len b -> 0 < k ->
  clear_of a k (drop 1 (parts (heap s) l)) /\ forall x, a <= x < a + k -> at_rest s x.
Proof.
  intros [Hv Hc Ht Hh Ho Hb] Hf Ha Hk Hk0. pose proof (chain_nodup _ _ (so_links _ _ (va_sound _ _ Hv)) _ _ Hc) as Hnd.
  destruct l as [|p' l]; [by cbn in Hc; subst p; apply graph_lookup in Hb; rewrite (lk_null _ _ (so_links _ _ (va_sound _ _ Hv))) in Hb|].
  assert (p' = p) as -> by (by destruct Hc as (-> & _)). apply NoDup_cons in Hnd as [Hpl _].
  destruct (so_placed _ _ (va_sound _ _ Hv) p b Hb) as [(n & Hn & _ & Hin) _ _ _]. destruct (Hf p b ltac:(by left) Hb) as [Hct _]. specialize (Hin Hct). split.
  - rewrite (parts_cons _ _ _ _ Hb). cbn [drop]. apply Forall_forall. intros [c j] (y & d & Hy & Hd & -> & ->)%parts_elem.
    destruct (so_placed _ _ (va_sound _ _ Hv) y d Hd) as [(n' & Hn' & _ & Hin') _ _ _]. destruct (Hf y d ltac:(by right) Hd) as [Hctd _]. specialize (Hin' Hctd).
    assert (p - 8 <> y - 8) as Hne by (intros E; apply Hpl; by replace p with y by lia). pose proof (live_apart _ _ _ _ _ Hn Hn' Hne) as Hdis. unfold disjoint in *. lia.
  - intros x Hx. right. right. exists (p - 8), n. split; [done|]. lia.
Qed.

Lemma filled_settled (s : lwip H) own l : valid s own -> filled s l -> settled s l.
Proof. intros Hv Hf. apply (own_data_settled s own); [done|intros y c Hy Hc; by apply (Hf y c Hy)..]. Qed.

Lemma filled_parts (s : lwip H) own p l b : owned s own p l b -> filled s l -> proper (parts (heap s) l).
Proof.
  intros Ho Hf. assert (forall l', (forall y, y ∈ l' -> y ∈ l) -> proper (parts (heap s) l') /\ (parts (heap s) l' = [] \/ 0 < total (parts (heap s) l'))) as Hl; [|by apply Hl].
  clear Ho. induction l' as [|y l' IH]; intros Hin; [split; [done|by left]|]. destruct IH as [IH1 IH2]; [intros z Hz; apply Hin; by right|].
  destruct (heap s !! y) as [c|] eqn:Hy.
  - rewrite (parts_cons _ _ _ _ Hy). destruct (Hf y c (Hin y ltac:(by left)) Hy) as [_ Hlen]. split; [by split|]. right. cbn [total foldr]. fold (total (parts (heap s) l')).
    destruct IH2 as [->|?]; [cbn; lia|lia].
  - unfold parts, bufs in *. cbn [omap list_omap]. by rewrite Hy.
Qed.

(** A packet whose answer can be made in it. *)
Record ready (own : owners) (q : Z) (lq : list Z) (bq : struct_pbuf) (hl : Z) (hdr D : list Z) (s1 : lwip H) : Prop := {
  rd_owned : owned s1 own q lq bq;
  rd_content : content s1 lq = D;
  rd_header : load (data s1) (payload bq - hl) (Z.to_nat hl) = hdr;
  rd_room : header_room hl q bq = true;
  rd_first : 4 <= len bq;
  rd_clear : clear_of (payload bq - hl) (hl + 4) (drop 1 (parts (heap s1) lq));
  rd_bytes : all_bytes (data s1);
}.

Lemma echo_in_place p l b own hl ih (s : lwip H) : owned s own p l b -> all_bytes (data s) -> filled s l -> 20 <= hl <= 60 -> 4 <= len b ->
  header_room (hl + 14) p b = true ->
  exists s1 b1, icmp_echo_packet custom_free_function p hl ih s = Some (Some p, s1) /\
    ready own p l b1 hl (load (data s) (payload b - hl) (Z.to_nat hl)) (content s l) s1.
Proof.
  intros Ho Hm Hf Hhl Hlen Hroom. pose proof (owned_add_header s own p l b (hl + 14) Ho ltac:(lia)) as Hadd. pose proof Hroom as Hr. unfold header_room in Hr. rewrite Hr in Hadd.
  destruct Hadd as (t & b' & E & Ho' & Hd & Hc & Hp & Hl & Hct & Hparts). unfold icmp_echo_packet, PBUF_LINK_HLEN. rewrite (bind_some _ _ _ _ _ E). cbn [Z.eqb negb].
  destruct (owned_remove_header t own p l b' (hl + 14) Ho' ltac:(lia)) as (t2 & b2 & E2 & Ho2 & Hd2 & Hc2 & Hp2 & Hl2 & Hty & Hsame & _).
  rewrite (bind_some _ _ _ _ _ E2). cbn [Z.eqb negb]. exists t2, b2. split; [done|]. 
  assert (content t2 l = content s l) as Ec by (rewrite Hc2, Hc, drop_app_length' by (by rewrite length_load); done).
  destruct (owned_facts _ _ _ _ _ Ho) as (_ & _ & Et & _). destruct (owned_facts _ _ _ _ _ Ho2) as (_ & _ & Et2 & _).
  apply andb_true_iff in Hr as [[Hfit%Z.ltb_lt _]%andb_true_iff Hle%Z.leb_le].
  assert (payload b2 = payload b /\ len b2 = len b /\ tot_len b2 = tot_len b) as (Epay & Elen & Etot) by (rewrite Et2, Ec; lia).
  assert (drop 1 (parts (heap t2) l) = drop 1 (parts (heap s) l)) as Edrop.
  { transitivity (drop 1 (parts (heap t) l)); [|by rewrite Hparts]. pose proof (chain_nodup _ _ (so_links _ _ (va_sound _ _ (ow_valid _ _ _ _ _ Ho'))) _ _ (ow_chain _ _ _ _ _ Ho')) as Hnd.
    pose proof (ow_chain _ _ _ _ _ Ho') as Hch. destruct l as [|a l]; [done|]. assert (a = p) as -> by (by destruct Hch as (-> & _)). apply NoDup_cons in Hnd as [Hpl _].
    rewrite (parts_cons _ _ _ _ (ow_first _ _ _ _ _ Ho2)), (parts_cons _ _ _ _ (ow_first _ _ _ _ _ Ho')). cbn [drop]. apply parts_ext. intros x Hx. rewrite Hsame; [done|congruence]. }
  split; [done|done|by rewrite Hd2, Hd, Epay| |lia| |by rewrite Hd2, Hd].
  - unfold header_room. rewrite Epay, Etot, bool_decide_eq_true_2 by (unfold contiguous in *; by rewrite Hty). rewrite (proj2 (Z.ltb_lt _ _)), (proj2 (Z.leb_le _ _)) by lia. done.
  - rewrite Edrop, Epay. apply (front_clear s own p l b); try done; lia.
Qed.

(** Two packets: one that is alone in its pbuf, and another one. *)
Lemma copy_into r c p l b own (s : lwip H) : owned s own r [r] c -> owned s own p l b -> filled s l -> all_bytes (data s) ->
  clear_of (payload c) (len c) (parts (heap s) l) -> len c = tot_len b ->
  exists m', pbuf_copy r p s = Some (ERR_OK, put_data m' s) /\ content (put_data m' s) [r] = content s l /\ only [(payload c, len c)] (data s) m' /\ all_bytes m'.
Proof.
  intros Hr Hp Hf Hm Hcl Elen. destruct (owned_facts _ _ _ _ _ Hr) as (Hr0 & Hlr & Etr & Hr16 & _). destruct (owned_facts _ _ _ _ _ Hp) as (Hp0 & _ & Etp & Hp16 & _).
  destruct (packet_facts s own r [r] (ow_valid _ _ _ _ _ Hr) (ow_chain _ _ _ _ _ Hr) Hr0 (ow_total _ _ _ _ _ Hr)) as (Hpr & Hsr & cr & Hcr & Ecr).
  destruct (packet_facts s own p l (ow_valid _ _ _ _ _ Hp) (ow_chain _ _ _ _ _ Hp) Hp0 (ow_total _ _ _ _ _ Hp)) as (Hpp & Hsp & cp & Hcp & Ecp).
  rewrite (ow_first _ _ _ _ _ Hp) in Hcp. injection Hcp as <-.
  assert (parts (heap s) [r] = [(payload c, len c)]) as Epr by (by rewrite (parts_cons _ _ _ _ (ow_first _ _ _ _ _ Hr))). rewrite Epr in Hpr, Hsr.
  destruct (pbuf_copy_run r p [(payload c, len c)] (parts (heap s) l) s Hpr Hpp Hsr Hsp) as (m' & E & Honly & Hb).
  { done. }
  { destruct (parts (heap s) l); [by cbn in Hpp|done]. }
  { split; [by left|done]. }
  { by apply (filled_parts s own p l b). }
  { split; [constructor|done]. }
  { intros a k [[= -> ->]|?%elem_of_nil]%elem_of_cons; done. }
  { cbn [total foldr]. rewrite <- Ecp. lia. }
  assert (content (put_data m' s) [r] = content s l) as Ec.
  { unfold content at 1. cbn [put_data data heap]. rewrite Epr, Hb, drop_ge; [apply app_nil_r|]. rewrite bytes_of_cons, app_nil_r, length_load. fold (content s l). lia. }
  exists m'. split; [done|]. split; [done|]. split; [done|]. intros x. destruct (decide (payload c <= x < payload c + len c)) as [Hx|Hx].
  - rewrite bytes_of_cons, app_nil_r in Hb. unfold content in Ec at 1. cbn [put_data data heap] in Ec. rewrite Epr, bytes_of_cons, app_nil_r in Ec.
    assert (bytes (load m' (payload c) (Z.to_nat (len c)))) as Hbl by (rewrite Ec; unfold content, bytes_of; apply Forall_bind, Forall_forall; intros [a k] _; by apply bytes_load).
    apply (Forall_lookup_1 _ _ (Z.to_nat (x - payload c)) _ Hbl). rewrite lookup_load by lia. do 2 f_equal. lia.
  - rewrite Honly; [apply Hm|]. intros a k [[= -> ->]|?%elem_of_nil]%elem_of_cons; [lia|done].
Qed.

Lemma free_other r c p l b own (s : lwip H) : owned s own r [r] c -> owned s own p l b -> r ∉ l ->
  exists n s', pbuf_free custom_free_function p s = Some (n, s') /\ owned s' (own_add p (-1) own) r [r] c /\ data s' = data s.
Proof.
  intros [Hv Hcr Htr Hhr Hor Hr] [_ Hc Ht Hh Ho Hb] Hrl. pose proof (pbuf_not_null _ _ _ _ (va_sound _ _ Hv) Hb) as Hp0. pose proof (pbuf_not_null _ _ _ _ (va_sound _ _ Hv) Hr) as Hr0.
  assert (p ∈ l) as Hpl by (destruct l; [by cbn in Hc|]; destruct Hc as (-> & _); left). assert (r <> p) as Hrp by congruence.
  destruct (pbuf_free_valid custom_free_function p l s own Hv Hc Hp0 Ho) as (s' & n & E & Ed & _ & Hd & Hv'). exists (u8 n), s'. split; [done|]. split; [|done].
  assert (heap s' !! r = Some c) as Hr'. { pose proof (drop_refs_other l r (heap s) Hrl) as Ex. rewrite Ed in Ex. cbn [fst] in Ex. by rewrite Ex. }
  split; try done; [| | |by rewrite own_add_ne].
  - apply (chain_same (graph_of (heap s))); [|done]. intros x ->%list_elem_of_singleton. apply graph_same_at. by rewrite Hr, Hr'.
  - by rewrite (parts_cons _ _ _ _ Hr') in *; rewrite (parts_cons _ _ _ _ Hr) in Htr.
  - intros Hlk. destruct (lk_ref _ _ (so_links _ _ (va_sound _ _ Hv)) r _ _ (graph_lookup _ _ _ Hr)) as [_ [[? _]|[_ E1]]]; [done|].
    destruct (lk_ref _ _ (so_links _ _ (va_sound _ _ Hv')) r _ _ (graph_lookup _ _ _ Hr')) as [_ [[_ E2]|[? _]]]; [|done]. rewrite own_add_ne in E2 by done. lia.
Qed.

(** A header in front of a packet that has just been allocated. *)
Lemma place_header r n p l b own hl ih (s s1 : lwip H) c :
  beside PBUF_LINK (n + hl) s own p l b r s1 c -> filled s l -> (forall x, ih <= x < ih + hl -> at_rest s x) -> 20 <= hl <= 60 -> 0 < n -> n + hl < 2 ^ 16 -> all_bytes (data s) ->
  exists s2 c2, (let* _ := copy_data (payload c) ih hl in pbuf_remove_header r hl) s1 = Some (0, s2) /\
    owned s2 (own_add r 1 own) r [r] c2 /\ owned s2 (own_add r 1 own) p l b /\ filled s2 l /\ all_bytes (data s2) /\ content s2 l = content s l /\
    parts (heap s2) l = parts (heap s) l /\ payload c2 = r + 38 + hl /\ len c2 = n /\ contiguous c2 /\
    load (data s2) (r + 38) (Z.to_nat hl) = load (data s) ih (Z.to_nat hl).
Proof.
  intros [Ec0 Hn1 Ho1 [Hf Hql] Hheap Eparts Hk Ec Hclr _] Hfill Hrest Hhl Hn H16 Hm. change (layer_offset PBUF_LINK) with 14 in *.
  assert (payload c = r + 38 /\ len c = n + hl) as [Epc Elc] by (rewrite Ec0; cbn; lia). rewrite copy_data_run, Epc. set (m1 := memcpy _ _ _ _). set (t := put_data m1 s1).
  assert (owned t (own_add r 1 own) r [r] c /\ owned t (own_add r 1 own) p l b) as [Hnt Hot].
  { split; [destruct Hn1|destruct Ho1]; (split; try done; by apply (valid_state s1)). }
  destruct (owned_remove_header t (own_add r 1 own) r [r] c hl Hnt ltac:(lia)) as (s2 & c2 & E & Hn2 & Hd2 & _ & Hp2 & Hl2 & Hty & Hsame & _).
  assert (forall x, x ∈ l -> heap s2 !! x = heap s1 !! x) as Hh2 by (intros x Hx; apply Hsame; congruence).
  assert (r <> p) as Hrp by (intros ->; destruct (owned_facts _ _ _ _ _ Ho1) as (Hp0 & _); destruct Ho1 as [? Hc ? ? ? ?]; apply Hql; destruct l; [by cbn in Hc|]; destruct Hc as (-> & _); left).
  assert (parts (heap s2) l = parts (heap s) l) as Eparts2 by (rewrite <- Eparts; by apply parts_ext; intros x Hx; rewrite Hh2).
  exists s2, c2. split; [exact E|]. split; [done|]. split; [|split; [|split; [|split; [|split; [done|split; [lia|split; [lia|split]]]]]]].
  - destruct Hot as [Hv Hc Ht Hh Hop Hb]. assert (heap s2 !! p = Some b) as Hb2 by (by rewrite (Hsame p)). assert (valid s2 (own_add r 1 own)) as Hv2 by apply Hn2.
    split; try done; [|by rewrite Eparts2, <- Eparts|by apply (still_head t s2 (own_add r 1 own) p b b)].
    apply (chain_same (graph_of (heap s1))); [|done]. intros x Hx. by apply graph_same_at, Hh2.
  - intros y d Hy Hd. rewrite Hh2, Hheap in Hd by (done || congruence). by apply (Hfill y d).
  - rewrite Hd2. apply is_byte_store; [exact (kp_bytes _ _ _ Hk Hm)|apply bytes_load; exact (kp_bytes _ _ _ Hk Hm)].
  - unfold content. rewrite Eparts2, Hd2. cbn [t put_data data]. unfold m1, memcpy. rewrite bytes_of_store by (rewrite length_load; apply Hclr; lia).
    unfold content in Ec. by rewrite Eparts in Ec.
  - unfold contiguous. rewrite Hty, Ec0. done.
  - rewrite Hd2. cbn [t put_data data]. unfold m1, memcpy. rewrite load_store_eq by (by rewrite length_load). apply load_ext. intros x Hx. apply (kp_same _ _ _ Hk), Hrest. lia.
Qed.

Lemma echo_copied p l b own hl (s : lwip H) : owned s own p l b -> all_bytes (data s) -> filled s l -> 20 <= hl <= 60 -> 8 <= tot_len b ->
  p + 24 <= payload b - hl -> header_room (hl + 14) p b = false ->
  if ram_supply PBUF_LINK (hl + tot_len b) (outside s) then
    exists r s1 br, icmp_echo_packet custom_free_function p hl (payload b - hl) s = Some (Some r, s1) /\ heap s !! r = None /\
      ready (own_add p (-1) (own_add r 1 own)) r [r] br hl (load (data s) (payload b - hl) (Z.to_nat hl)) (content s l) s1
  else exists s1, icmp_echo_packet custom_free_function p hl (payload b - hl) s = Some (None, s1) /\ owned s1 own p l b /\ data s1 = data s.
Proof.
  intros Ho Hm Hf Hhl Htot Hfront Hroom. pose proof (owned_add_header s own p l b (hl + 14) Ho ltac:(lia)) as Hadd. unfold header_room in Hroom. rewrite Hroom in Hadd.
  unfold icmp_echo_packet, PBUF_LINK_HLEN. rewrite (bind_some _ _ _ _ _ Hadd). cbn [Z.eqb negb]. rewrite (deref_run _ _ _ _ (ow_first _ _ _ _ _ Ho)).
  destruct (owned_facts _ _ _ _ _ Ho) as (Hp0 & Hle & Et & H16 & _). destruct (Z.ltb_spec (u16 (tot_len b + hl)) (tot_len b)) as [Hov|Hfit].
  { unfold ram_supply. rewrite (proj2 (Z.ltb_ge _ _)); [by exists s|]. change (layer_offset PBUF_LINK) with 14.
    destruct (Z.lt_ge_cases (tot_len b + hl) (2 ^ 16)) as [Hs|]; [rewrite (wrap_small 16) in Hov by lia; lia|lia]. }
  assert (tot_len b + hl < 2 ^ 16) as Hsum.
  { destruct (Z.lt_ge_cases (tot_len b + hl) (2 ^ 16)) as [|Hge]; [done|]. exfalso. assert (u16 (tot_len b + hl) = tot_len b + hl - 2 ^ 16) as E; [symmetry; apply (Z.mod_unique _ _ 1); lia|lia]. }
  rewrite (wrap_small 16) by lia. destruct (alloc_beside custom_free_function PBUF_LINK (tot_len b + hl) p l b own s Ho) as [(s1 & E & Ho1 & Hd1 & _)|(r & s1 & c & E & Hr & Hbe)];
    [by apply (filled_settled s own); [apply Ho|]|lia|..]; rewrite (Z.add_comm hl), (pbuf_alloc_ram_supply custom_free_function PBUF_LINK (tot_len b + hl) s _ s1 ltac:(lia) E);
    [exists s1; by rewrite (bind_some _ _ _ _ _ E)|].
  rewrite (bind_some _ _ _ _ _ E), (proj2 (Z.eqb_neq _ _) Hr), (deref_run _ _ _ _ (ow_first _ _ _ _ _ (be_new _ _ _ _ _ _ _ _ _ _ Hbe))). cbn [negb].
  assert (len c = tot_len b + hl) as Elc by (by rewrite (be_is _ _ _ _ _ _ _ _ _ _ Hbe)). rewrite Elc, (proj2 (Z.ltb_ge _ _)) by (unfold SIZEOF_ECHO_HDR; lia).
  assert (0 <= len b) as Hlb by lia. destruct (front_clear s own p l b (payload b - hl) hl Ho Hf Hfront ltac:(lia) ltac:(lia)) as [_ Hrest].
  destruct (place_header r (tot_len b) p l b own hl (payload b - hl) s s1 c Hbe Hf Hrest Hhl ltac:(lia) Hsum Hm)
    as (s2 & c2 & E2 & Hn2 & Ho2 & Hf2 & Hm2 & Ec2 & Ep2 & Epay & Elen & Hct & Hhdr).
  rewrite <- bind_assoc, (bind_some _ _ _ _ _ E2). cbn [Z.eqb negb].
  assert (clear_of (payload c2) (len c2) (parts (heap s2) l)) as Hcl by (rewrite Ep2; apply (be_clear _ _ _ _ _ _ _ _ _ _ Hbe); change (layer_offset PBUF_LINK) with 14; lia).
  destruct (copy_into r c2 p l b (own_add r 1 own) s2 Hn2 Ho2 Hf2 Hm2 Hcl Elen) as (m' & E3 & Ec3 & Honly & Hm3). rewrite (bind_some _ _ _ _ _ E3). change (negb (ERR_OK =? ERR_OK)) with false. cbn iota.
  set (s3 := put_data m' s2) in *. assert (owned s3 (own_add r 1 own) r [r] c2 /\ owned s3 (own_add r 1 own) p l b) as [Hn3 Ho3].
  { split; [destruct Hn2|destruct Ho2]; (split; try done; by apply (valid_state s2)). }
  destruct (free_other r c2 p l b (own_add r 1 own) s3 Hn3 Ho3 (proj2 (be_fresh _ _ _ _ _ _ _ _ _ _ Hbe))) as (k & s4 & E4 & Hn4 & Hd4). rewrite (bind_some _ _ _ _ _ E4).
  exists r, s4, c2. split; [done|]. split; [apply Hbe|]. destruct (owned_facts _ _ _ _ _ Hn4) as (_ & _ & Et4 & _).
  assert (content s4 [r] = content s l) as Ec4.
  { rewrite <- Ec2, <- Ec3. unfold content. by rewrite Hd4, !(parts_cons _ _ _ c2) by (apply Hn4 || apply Hn3). }
  split; [done|done| | |lia|rewrite (parts_cons _ _ _ _ (ow_first _ _ _ _ _ Hn4)); apply List.Forall_nil|by rewrite Hd4].
  - rewrite Hd4, Epay. replace (r + 38 + hl - hl) with (r + 38) by lia. cbn [s3 put_data data]. rewrite (only_load _ _ _ _ _ Honly); [done|]. constructor; [|constructor]. unfold disjoint. lia.
  - unfold header_room. rewrite Et4, Ec4, <- Et, Epay, (bool_decide_eq_true_2 _ Hct), (proj2 (Z.ltb_lt _ _)), (proj2 (Z.leb_le _ _)) by lia. done.
Qed.
End EchoPacket.

(** * What [icmp_input] promises *)

Section Input.
Context {H : Type} `{OL : OutsideLaws H} (custom_free_function : Z -> prog (lwip H) unit).
Context (netif_loop_output : Z -> Z -> prog (net H) Z) (ip4_frag netif_output : Z -> Z -> Z -> prog (net H) Z).
Abbreviation next_hop := (ip4_next netif_loop_output ip4_frag netif_output).
Abbreviation input := (icmp_input custom_free_function netif_loop_output ip4_frag netif_output).
Abbreviation free := (free_packet custom_free_function).

Inductive icmp_verdict := IEnd (cs : list counter) | IAnswer.

(** What becomes of the message [D], of which [first] bytes are in the first pbuf, behind
    a header of [hl] bytes. *)
Definition icmp_judge (s : net H) (hl first : Z) (D : list Z) : icmp_verdict :=
  let dest := current_iphdr_dest (ip_data s) in
  let type := field D 0 1 in
  if (hl <? IP_HLEN) || (first <? 4) then IEnd [icmp_lenerr; icmpinerrors]
  else if type =? ICMP_ER then IEnd [icmpinechoreps]
  else if type =? ICMP_ECHO then
    if ip4_addr_ismulticast dest || ip4_addr_isbroadcast dest (netifs s (current_netif (ip_data s))) then IEnd [icmpinechos; icmp_err; icmpinerrors]
    else if Z.of_nat (length D) <? 8 then IEnd [icmpinechos; icmp_lenerr; icmpinerrors]
    else IAnswer
  else IEnd (icmp_counter type ++ [icmp_proterr; icmp_drop]).

(** A packet as IPv4 delivers it, with its header of [hl] bytes in front. *)
Record arrived (s : net H) (own : owners) (p : Z) (l : list Z) (b : struct_pbuf) (hl : Z) : Prop := {
  ar_owned : owned (stack s) own p l b;
  ar_bytes : all_bytes (data (stack s));
  ar_filled : 0 < len b -> filled (stack s) l;
  ar_header : current_ip4_header (ip_data s) = payload b - hl;
  ar_length : IPH_HL_BYTES (data (stack s)) (payload b - hl) = hl;
  ar_block : p + 24 <= payload b - hl;
  ar_src : 0 <= current_iphdr_src (ip_data s) < 2 ^ 32;
}.

(** The message is freed and counted. *)
Record ended (own : owners) (p : Z) (cs : list counter) (s s' : net H) : Prop := {
  en_valid : valid (stack s') (own_add p (-1) own);
  en_data : data (stack s') = data (stack s);
  en_stats : stats s' = counted ([icmp_recv; icmpinmsgs] ++ cs) (stats s);
  en_aside : aside s s';
}.

(** The last steps, from a state that differs in counters. *)
Lemma icmp_end_run p l b own cs cs0 (s s1 : net H) : owned (stack s1) own p l b -> data (stack s1) = data (stack s) -> stats s1 = counted cs0 (stats s) -> aside s s1 ->
  exists s', icmp_end custom_free_function p cs s1 = Some (tt, s') /\ valid (stack s') (own_add p (-1) own) /\ data (stack s') = data (stack s) /\
    stats s' = counted (cs0 ++ cs) (stats s) /\ aside s s'.
Proof.
  intros Ho Hd Hst Ha. destruct (free_packet_run custom_free_function p l b own s1 Ho) as (t & E & Hv & Hd2). unfold icmp_end. rewrite (bind_some _ _ _ _ _ E).
  eexists. split; [reflexivity|]. split; [done|]. split; [by cbn; rewrite Hd2|]. split; [cbn; by rewrite Hst, counted_app|]. by apply (aside_trans _ s1).
Qed.

Lemma icmp_free_run p l b own cs (s : net H) : owned (stack s) own p l b ->
  exists s', free p (ticked cs (ticked [icmp_recv; icmpinmsgs] s)) = Some (tt, s') /\ ended own p cs s s'.
Proof.
  intros Ho. destruct (free_packet_run custom_free_function p l b own (ticked cs (ticked [icmp_recv; icmpinmsgs] s)) Ho) as (t & E & Hv & Hd). eexists. split; [exact E|].
  split; [done|done| |done]. by rewrite counted_app.
Qed.

(** Where the answer to the packet [p] is made: in place, or in the new pbuf [q]. *)
Definition reply_place (p : Z) (own : owners) (in_place : bool) (s : lwip H) (q : Z) (own' : owners) : Prop :=
  if in_place then q = p /\ own' = own else heap s !! q = None /\ own' = own_add p (-1) (own_add q 1 own).

(** An echo request that is answered. *)
Lemma icmp_answer_run p inp l b own hl (s : net H) : arrived s own p l b hl -> 20 <= hl -> 4 <= len b -> 8 <= tot_len b -> 0 <= mtu (netifs s inp) ->
  field (content (stack s) l) 0 1 = ICMP_ECHO ->
  let D := content (stack s) l in
  let hdr := load (data (stack s)) (payload b - hl) (Z.to_nat hl) in
  let d := ip_data s in
  let answer := (let* q := on_lwip (icmp_echo_packet custom_free_function p hl (current_ip4_header d)) in
                 match q with
                 | None => icmp_err_end custom_free_function p
                 | Some q => let* _ := icmp_echo_reply netif_loop_output ip4_frag netif_output q hl inp in free q
                 end) in
  if header_room (hl + 14) p b || ram_supply PBUF_LINK (hl + tot_len b) (outside (stack s)) then
    exists q lq own' s1, answer s = (let* _ := next_hop s q (hl + tot_len b) (current_iphdr_src d) inp in free q) s1 /\
      echo_sent own' q lq hdr D s s1 /\ reply_place p own (header_room (hl + 14) p b) (stack s) q own'
  else exists s', answer s = Some (tt, s') /\ valid (stack s') (own_add p (-1) own) /\ data (stack s') = data (stack s) /\
    stats s' = counted [icmp_err; icmpinerrors] (stats s) /\ aside s s'.
Proof.
  intros [Ho Hm Hf Hih Hhl Hblk Hsrc] Hhl20 Hlen Htot Hmtu Htype D hdr d answer. specialize (Hf ltac:(lia)).
  assert (hl <= 60) as Hhl60. { rewrite <- Hhl. unfold IPH_HL_BYTES. change 0x0f with (Z.ones 4). rewrite Z.land_ones by lia. pose proof (Z.mod_pos_bound (data (stack s) (payload b - hl)) (2 ^ 4)). rewrite (wrap_small 8) by lia. lia. }
  assert (forall q s1 own' lq bq, icmp_echo_packet custom_free_function p hl (payload b - hl) (stack s) = Some (Some q, s1) -> ready own' q lq bq hl hdr D s1 ->
    exists s2, answer s = (let* _ := next_hop s q (hl + tot_len b) (current_iphdr_src d) inp in free q) s2 /\ echo_sent own' q lq hdr D s s2) as Hready.
  { intros q s1 own' lq bq E [Hoq Hcq Hhq Hrq Hfq Hclq Hmq]. unfold answer, d. rewrite Hih. rewrite (on_lwip_bind _ _ s _ _ E). set (st := set_lwip s1 s).
    destruct (echo_reply_run netif_loop_output ip4_frag netif_output q lq bq own' hl inp st Hoq Hmq Hhl20 Hfq Hrq Hclq Hmtu Hsrc) as (s2 & Er & Hs & _).
    change (data (stack st)) with (data s1) in Hs. rewrite Hhq in Hs. change (content (stack st) lq) with (content s1 lq) in Hs. rewrite Hcq in Hs. exists s2. rewrite (bind_move _ _ _ _ _ Er), bind_assoc.
    destruct (owned_facts _ _ _ _ _ Ho) as (_ & _ & Et & _), (owned_facts _ _ _ _ _ Hoq) as (_ & _ & Etq & _). rewrite Hcq in Etq. fold D in Et. rewrite <- Et in Etq. rewrite Etq. split; [done|].
    destruct Hs as [H1 H2 H3 ([A1 A2 A3 A4] & H5)]. split; [done|done|done|]. split; [by split|done]. }
  destruct (header_room (hl + 14) p b) eqn:Eroom.
  - cbn [orb]. destruct (echo_in_place custom_free_function p l b own hl (payload b - hl) (stack s) Ho Hm Hf ltac:(lia) Hlen Eroom) as (s1 & b1 & E & Hr).
    destruct (Hready _ _ _ _ _ E Hr) as (s2 & E2 & Hs). by exists p, l, own, s2.
  - cbn [orb]. pose proof (echo_copied custom_free_function p l b own hl (stack s) Ho Hm Hf ltac:(lia) Htot Hblk Eroom) as Hcopy. destruct (ram_supply _ _ _).
    + destruct Hcopy as (r & s1 & br & E & Hfr & Hr). destruct (Hready _ _ _ _ _ E Hr) as (s2 & E2 & Hs). by exists r, [r], (own_add p (-1) (own_add r 1 own)), s2.
    + destruct Hcopy as (s1 & E & Ho1 & Hd1). unfold answer, d. rewrite Hih. rewrite (on_lwip_bind _ _ s _ _ E). by apply (icmp_end_run p l b own [icmp_err; icmpinerrors] [] s (set_lwip s1 s)).
Qed.

(** Which way a message takes. *)
Lemma icmp_dispatch p inp l b own hl (s : net H) : arrived s own p l b hl ->
  let type := field (content (stack s) l) 0 1 in
  input p inp s =
    (if (hl <? IP_HLEN) || (len b <? 4) then icmp_lenerr_end custom_free_function p
     else if type =? ICMP_ER then let* _ := STATS_INC [icmpinechoreps] in free p
     else if type =? ICMP_ECHO then icmp_echo custom_free_function netif_loop_output ip4_frag netif_output p hl inp
     else let* _ := STATS_INC (icmp_counter type ++ [icmp_proterr; icmp_drop]) in free p) (ticked [icmp_recv; icmpinmsgs] s).
Proof.
  intros [Ho Hm Hf Hih Hhl Hblk Hsrc] type. unfold icmp_input. rewrite stats_inc_bind. set (s0 := ticked [icmp_recv; icmpinmsgs] s) in *.
  rewrite (bind_some (gets ip_data) _ s0 (ip_data s) s0 eq_refl), (bind_some bytes_now _ s0 (data (stack s)) s0 eq_refl). rewrite Hih, Hhl.
  destruct (hl <? IP_HLEN); cbn [orb]; [done|].
  rewrite (on_lwip_bind _ _ s0 b (stack s)); [|change (lwip_of s0) with (stack s); unfold deref; by rewrite (ow_first _ _ _ _ _ Ho)]. change (set_lwip (stack s) s0) with s0.
  destruct (len b <? 4) eqn:Elen; [done|]. apply Z.ltb_ge in Elen. rewrite (bind_some bytes_now _ s0 (data (stack s)) s0 eq_refl).
  destruct (packet_fields 4 (stack s) own p l b Ho Hm Elen) as (Hfields & _).
  assert (data (stack s) (payload b) = type) as ->; [|by destruct (type =? ICMP_ER), (type =? ICMP_ECHO)].
  unfold type. rewrite <- Hfields by lia. unfold load_le. rewrite load_one. cbn [le_val]. by rewrite Z.shiftl_0_l, Z.lor_0_r, Z.add_0_r.
Qed.

Lemma icmp_echo_dispatch p inp hl l b own (s : net H) : owned (stack s) own p l b ->
  let d := ip_data s in
  icmp_echo custom_free_function netif_loop_output ip4_frag netif_output p hl inp s =
    (if ip4_addr_ismulticast (current_iphdr_dest d) || ip4_addr_isbroadcast (current_iphdr_dest d) (netifs s (current_netif d)) then icmp_err_end custom_free_function p
     else if tot_len b <? 8 then icmp_lenerr_end custom_free_function p
     else let* q := on_lwip (icmp_echo_packet custom_free_function p hl (current_ip4_header d)) in
       match q with
       | None => icmp_err_end custom_free_function p
       | Some q => let* _ := icmp_echo_reply netif_loop_output ip4_frag netif_output q hl inp in free q
       end) (ticked [icmpinechos] s).
Proof.
  intros Ho d. unfold icmp_echo. rewrite stats_inc_bind, gets_id_bind. set (s1 := ticked [icmpinechos] s). change (ip_data s1) with d. change (netifs s1) with (netifs s).
  destruct (ip4_addr_ismulticast (current_iphdr_dest d)); cbn [orb]; [done|]. destruct (ip4_addr_isbroadcast _ _); [done|].
  rewrite (on_lwip_bind _ _ s1 b (stack s)); [|change (lwip_of s1) with (stack s); unfold deref; by rewrite (ow_first _ _ _ _ _ Ho)]. change (set_lwip (stack s) s1) with s1. change SIZEOF_ECHO_HDR with 8. by destruct (tot_len b <? 8).
Qed.

(** The answer, and that it verifies. *)
Lemma icmp_input_answers p inp l b own hl (s : net H) : arrived s own p l b hl -> 0 <= mtu (netifs s inp) ->
  let D := content (stack s) l in
  let hdr := load (data (stack s)) (payload b - hl) (Z.to_nat hl) in
  let d := ip_data s in
  icmp_judge s hl (len b) D = IAnswer ->
  if header_room (hl + 14) p b || ram_supply PBUF_LINK (hl + tot_len b) (outside (stack s)) then
    exists q lq own' s1, input p inp s = (let* _ := next_hop s q (hl + tot_len b) (current_iphdr_src d) inp in free q) s1 /\
      echo_sent own' q lq hdr D s s1 /\ reply_place p own (header_room (hl + 14) p b) (stack s) q own' /\
      Rfc1071.sum (reply_header hdr (current_iphdr_dest d) (current_iphdr_src d)) = 65535 /\
      Rfc1071.sum (echo_reply (icmp_adjust (field D 2 2)) D) = Rfc1071.sum D
  else exists s', input p inp s = Some (tt, s') /\ ended own p [icmpinechos; icmp_err; icmpinerrors] s s'.
Proof.
  intros Har Hmtu D hdr d Ej. pose proof Har as [Ho Hm Hf Hih Hhl Hblk Hsrc]. destruct (owned_facts _ _ _ _ _ Ho) as (_ & Hle & Et & _). fold D in Et.
  rewrite (icmp_dispatch p inp l b own hl s Har). fold D. unfold icmp_judge in Ej. fold d in Ej. destruct ((hl <? IP_HLEN) || (len b <? 4)) eqn:Elen; [done|].
  apply orb_false_iff in Elen as [Ehl%Z.ltb_ge Elen%Z.ltb_ge]. destruct (field D 0 1 =? ICMP_ER); [done|]. destruct (Z.eqb_spec (field D 0 1) ICMP_ECHO) as [Etype|]; [|done].
  rewrite (icmp_echo_dispatch p inp hl l b own (ticked [icmp_recv; icmpinmsgs] s) Ho). change (ip_data (ticked [icmp_recv; icmpinmsgs] s)) with d. change (netifs (ticked [icmp_recv; icmpinmsgs] s)) with (netifs s).
  destruct (_ || _); [done|]. rewrite <- Et in Ej. destruct (tot_len b <? 8) eqn:Etot; [done|]. apply Z.ltb_ge in Etot. set (s1 := ticked [icmpinechos] _).
  assert (arrived s1 own p l b hl) as Har1 by (by split). destruct (packet_fields 4 (stack s) own p l b Ho Hm Elen) as (_ & HB & HlB). fold D in HB, HlB.
  pose proof (icmp_answer_run p inp l b own hl s1 Har1 Ehl Elen Etot Hmtu Etype) as Hrun. change (stack s1) with (stack s) in Hrun. cbn zeta in Hrun.
  destruct (header_room (hl + 14) p b || ram_supply PBUF_LINK (hl + tot_len b) (outside (stack s))).
  2:{ destruct Hrun as (s' & E & Hv & Hd & Hst & Ha). exists s'. split; [done|]. split; [done|done| |destruct Ha; by split].
    rewrite Hst. change [icmpinechos; icmp_err; icmpinerrors] with ([icmpinechos] ++ [icmp_err; icmpinerrors]). by rewrite !counted_app. }
  - destruct Hrun as (q & lq & own' & s2 & E & Hs & Hown). exists q, lq, own', s2. split; [done|]. split; [|split; [done|split; [|by apply echo_reply_sum]]].
    + destruct Hs as [H1 H2 H3 ([A1 A2 A3 A4] & H5)]. split; [done|done|done|]. split; [by split|done].
    + apply reply_header_verifies; [unfold hdr; rewrite length_load; unfold IP_HLEN in Ehl; lia|by apply bytes_load].
Qed.

(** C21 A message that is too short, an echo request to a multicast or broadcast address, an
    echo reply and a message of another type are freed and counted. An echo request to
    this host is answered once, in place exactly if there is room in front of the packet,
    and otherwise in a new pbuf: the answer goes to the sender by the interface that the
    request came by, behind the header of the request with its addresses exchanged, a new
    time to live and a checksum that verifies; it differs from the request in its type and
    checksum, and verifies if the request does. Then it is freed. Only if there is no room
    and the C library refuses the block for the copy, or the copy would have 64 KB or
    more, the request is freed and counted as an error. *)
Theorem icmp_input_correct p inp l b own hl (s : net H) : arrived s own p l b hl -> 0 <= mtu (netifs s inp) ->
  let D := content (stack s) l in
  let hdr := load (data (stack s)) (payload b - hl) (Z.to_nat hl) in
  let d := ip_data s in
  match icmp_judge s hl (len b) D with
  | IEnd cs => exists s', input p inp s = Some (tt, s') /\ ended own p cs s s'
  | IAnswer =>
      if header_room (hl + 14) p b || ram_supply PBUF_LINK (hl + tot_len b) (outside (stack s)) then
        exists q lq own' s1, input p inp s = (let* _ := next_hop s q (hl + tot_len b) (current_iphdr_src d) inp in free q) s1 /\
          echo_sent own' q lq hdr D s s1 /\ reply_place p own (header_room (hl + 14) p b) (stack s) q own' /\
          Rfc1071.sum (reply_header hdr (current_iphdr_dest d) (current_iphdr_src d)) = 65535 /\
          Rfc1071.sum (echo_reply (icmp_adjust (field D 2 2)) D) = Rfc1071.sum D
      else exists s', input p inp s = Some (tt, s') /\ ended own p [icmpinechos; icmp_err; icmpinerrors] s s'
  end.
Proof.
  intros Har Hmtu D hdr d. destruct (icmp_judge s hl (len b) D) as [cs|] eqn:Ej; [|by apply (icmp_input_answers p inp l b own hl s)].
  pose proof Har as [Ho Hm Hf Hih Hhl Hblk Hsrc]. destruct (owned_facts _ _ _ _ _ Ho) as (_ & _ & Et & _). fold D in Et.
  assert (forall cs cs', exists s', icmp_end custom_free_function p cs' (ticked cs (ticked [icmp_recv; icmpinmsgs] s)) = Some (tt, s') /\ ended own p (cs ++ cs') s s') as Hend.
  { intros cs0 cs'. destruct (icmp_end_run p l b own cs' ([icmp_recv; icmpinmsgs] ++ cs0) s (ticked cs0 (ticked [icmp_recv; icmpinmsgs] s)) Ho) as (s' & E & ? & ? & Hst & ?); [done|by rewrite counted_app|done|].
    exists s'. split; [done|]. rewrite <- app_assoc in Hst. by split. }
  rewrite (icmp_dispatch p inp l b own hl s Har). fold D. unfold icmp_judge in Ej. fold d in Ej.
  destruct ((hl <? IP_HLEN) || (len b <? 4)); [injection Ej as <-; apply (Hend [] _)|].
  destruct (field D 0 1 =? ICMP_ER); [injection Ej as <-; rewrite stats_inc_bind; by apply (icmp_free_run p l b)|].
  destruct (field D 0 1 =? ICMP_ECHO); [|injection Ej as <-; rewrite stats_inc_bind; by apply (icmp_free_run p l b)].
  rewrite (icmp_echo_dispatch p inp hl l b own (ticked [icmp_recv; icmpinmsgs] s) Ho). change (ip_data (ticked [icmp_recv; icmpinmsgs] s)) with d. change (netifs (ticked [icmp_recv; icmpinmsgs] s)) with (netifs s).
  destruct (_ || _); [injection Ej as <-; apply (Hend [icmpinechos] _)|]. rewrite <- Et in Ej. destruct (tot_len b <? 8); [injection Ej as <-; apply (Hend [icmpinechos] _)|done].
Qed.
End Input.

(** * What is sent about a packet *)

Section Messages.
Context {H : Type} `{OL : OutsideLaws H} (custom_free_function : Z -> prog (lwip H) unit).
Context (netif_loop_output : Z -> Z -> prog (net H) Z) (ip4_frag netif_output : Z -> Z -> Z -> prog (net H) Z).
Abbreviation next_hop := (ip4_next netif_loop_output ip4_frag netif_output).
Abbreviation respond := (icmp_send_response custom_free_function netif_loop_output ip4_frag netif_output).
Abbreviation free := (free_packet custom_free_function).

Lemma field_range B o k : bytes B -> (o + k <= length B)%nat -> 0 <= field B o k < 2 ^ (8 * Z.of_nat k).
Proof.
  intros HB Hl. assert (bytes (take k (drop o B))) as Hb by (by apply Forall_take, Forall_drop). pose proof (le_val_range _ Hb) as Hr.
  rewrite length_take, length_drop in Hr. by replace (k `min` (length B - o))%nat with k in Hr by lia.
Qed.

(** The message without its checksum. *)
Lemma write_message_at a iphdr type code (s : net H) m : is_byte type -> is_byte code -> all_bytes m ->
  (forall x, a <= x < a + 8 -> x < iphdr \/ iphdr + 28 <= x) ->
  exists m', icmp_write_message a iphdr type code (at_mem s m) = Some (tt, at_mem s m') /\
    (forall x, x < a \/ a + 36 <= x -> m' x = m x) /\ all_bytes m' /\
    forall c, load (store m' (a + 2) (le_bytes 2 c)) a 36 = icmp_message_with c type code (load m iphdr 28).
Proof.
  intros Ht Hc Hm Hap. unfold icmp_write_message. rewrite !poke_bind. set (m4 := store _ (a + 6) _).
  change (IP_HLEN + ICMP_DEST_UNREACH_DATASIZE) with 28. change SIZEOF_ECHO_HDR with 8. exists (memcpy m4 (a + 8) iphdr 28). split; [done|].
  assert (load m4 iphdr 28 = load m iphdr 28) as E28.
  { apply load_ext. intros x Hx. unfold m4. assert (x < a \/ a + 8 <= x) by (destruct (Z.lt_ge_cases x a); [by left|]; destruct (Z.lt_ge_cases x (a + 8)); [|by right]; specialize (Hap x); lia).
    by rewrite !store_out by (rewrite ?length_le_bytes; cbn [length]; lia). }
  unfold memcpy. rewrite E28. set (Q := load m iphdr 28). assert (length Q = 28%nat) as HlQ by apply length_load. split; [|split].
  - intros x Hx. unfold m4. by rewrite !store_out by (rewrite ?length_le_bytes, ?HlQ; cbn [length]; lia).
  - unfold m4. repeat (apply is_byte_store; [|first [apply bytes_le_bytes|by apply bytes_load|by forall_list]]). done.
  - intros c. unfold icmp_message_with. change 36%nat with (1 + (1 + (2 + (2 + (2 + 28)))))%nat. rewrite !load_app.
    change ([type; code] ++ le_bytes 2 c ++ [0; 0; 0; 0] ++ Q) with ([type] ++ [code] ++ le_bytes 2 c ++ le_bytes 2 0 ++ le_bytes 2 0 ++ Q). unfold m4.
    repeat apply (f_equal2 app); repeat first [rewrite load_store_ne by (unfold disjoint; rewrite ?length_le_bytes, ?HlQ; cbn [length]; lia)|apply load_store_at; [rewrite ?length_le_bytes; done|lia]].
Qed.

(** A packet that a message is sent about; the 28 bytes from its beginning do not move. *)
Record reportable (s : net H) (own : owners) (p : Z) (l : list Z) (b : struct_pbuf) : Prop := {
  rp_owned : owned (stack s) own p l b;
  rp_bytes : all_bytes (data (stack s));
  rp_settled : settled (stack s) l;
  rp_rest : forall x, payload b <= x < payload b + 28 -> at_rest (stack s) x;
  rp_list : Forall (fun a => a <> 0) (netif_list s);
  rp_netifs : forall a, 0 <= mtu (netifs s a) /\ 0 <= ip_addr (netifs s a) < 2 ^ 32;
  rp_id : 0 <= ip_id (sending s) < 2 ^ 16;
}.

(** The outcome of sending a message that quotes the bytes [Q]: the C library refuses the
    block for it, there is no route to the sender of [Q], or it is on its way in the new
    pbuf [q]. *)
Definition reported (type code : Z) (Q : list Z) (cs : list counter) (own : owners) (p : Z) (l : list Z) (b : struct_pbuf) (s : net H) (run : option (unit * net H)) : Prop :=
  let dest := field Q 12 4 in
  if negb (ram_supply PBUF_IP 36 (outside (stack s))) then
    exists s', run = Some (tt, s') /\ owned (stack s') own p l b /\ data (stack s') = data (stack s) /\ stats s' = counted (cs ++ [icmpoutmsgs; icmpouterrors]) (stats s)
  else match ip4_path s dest with
  | None => exists s', run = Some (tt, s') /\ valid (stack s') own /\ stats s' = counted (cs ++ [icmpoutmsgs; ip_rterr; ipoutnoroutes]) (stats s)
  | Some netif => exists q s1 b1, run = (let* _ := next_hop s q 56 dest netif in free q) s1 /\ heap (stack s) !! q = None /\ owned (stack s1) (own_add q 1 own) q [q] b1 /\
      content (stack s1) [q] = ip4_header 0 56 (ip_id (sending s)) ICMP_TTL IP_PROTO_ICMP (ip_addr (netifs s netif)) dest ++ icmp_message type code Q
  end.

(** The message is finished and given to IP. *)
Lemma message_sent q c own type code Q dest netif m (s : net H) :
  owned (stack s) own q [q] c -> payload c = q + 58 -> len c = 36 -> tot_len c = 36 -> contiguous c -> all_bytes m ->
  (forall w, load (store m (q + 60) (le_bytes 2 w)) (q + 58) 36 = icmp_message_with w type code Q) ->
  (forall a, 0 <= mtu (netifs s a) /\ 0 <= ip_addr (netifs s a) < 2 ^ 32) -> 0 <= ip_id (sending s) < 2 ^ 16 -> 0 <= dest < 2 ^ 32 ->
  exists s1 b1, (let* _ := poke (payload c + 2) (le_bytes 2 0) in
     let* m := bytes_now in
     let* _ := poke (payload c + 2) (le_bytes 2 (inet_chksum m (payload c) (len c))) in
     let* _ := STATS_INC [icmp_xmit] in
     let* _ := ip4_output_if netif_loop_output ip4_frag netif_output q None (Some dest) ICMP_TTL 0 IP_PROTO_ICMP netif in
     ret tt) (at_mem s m) = (let* _ := next_hop s q 56 dest netif in ret tt) s1 /\ owned (stack s1) own q [q] b1 /\
    content (stack s1) [q] = ip4_header 0 56 (ip_id (sending s)) ICMP_TTL IP_PROTO_ICMP (ip_addr (netifs s netif)) dest ++ icmp_message type code Q.
Proof.
  intros Ho Hp Hl Htl Hct Hm Hmsg Hnif Hid Hdest. rewrite poke_bind, bytes_now_bind, poke_bind, stats_inc_bind, Hp, Hl.
  replace (q + 58 + 2) with (q + 60) by lia. set (m1 := store m (q + 60) (le_bytes 2 0)). assert (all_bytes m1) as Hm1 by (apply is_byte_store; [done|apply bytes_le_bytes]).
  rewrite inet_chksum_rfc by (done || lia). change (Z.to_nat 36) with 36%nat. assert (load m1 (q + 58) 36 = icmp_message_with 0 type code Q) as -> by apply Hmsg. set (w := lwip_htons _). set (m2 := store m1 _ _).
  assert (load m2 (q + 58) 36 = icmp_message type code Q) as Hmsg2.
  { change (icmp_message type code Q) with (icmp_message_with w type code Q). rewrite <- Hmsg. apply load_ext. intros x Hx. unfold m2, m1.
    destruct (decide (q + 60 <= x < q + 62)) as [Hin|Hout]; [by rewrite !(store_in _ (q + 60) (le_bytes 2 w)) by (rewrite length_le_bytes; lia)|by rewrite !store_out by (rewrite length_le_bytes; lia)]. }
  set (s2 := ticked [icmp_xmit] (at_mem s m2)).
  assert (owned (stack s2) own q [q] c) as Ho2 by (destruct Ho; split; try done; by apply (valid_state (stack s))).
  destruct (Hnif netif) as [Hmtu Haddr].
  pose proof (output_if_src_run netif_loop_output ip4_frag netif_output q (Some (ip_addr (netifs s netif))) dest ICMP_TTL 0 IP_PROTO_ICMP netif [q] c own s2 Ho2 Hmtu) as Hout.
  cbn zeta in Hout. rewrite Htl in Hout. change (default 0 (Some (ip_addr (netifs s netif)))) with (ip_addr (netifs s netif)) in Hout. change (20 + 36) with 56 in Hout.
  assert (header_room 20 q c = true) as Er by (unfold header_room; rewrite Htl, Hp, (bool_decide_eq_true_2 _ Hct), (proj2 (Z.leb_le _ _)) by lia; done). rewrite Er in Hout.
  destruct Hout as (s3 & b3 & E & Hsent & _); [done..|rewrite (parts_cons _ _ _ _ (ow_first _ _ _ _ _ Ho2)); apply List.Forall_nil|].
  exists s3, b3. change (next_hop s2) with (next_hop s) in E. split; [by apply bind_move; rewrite <- E|]. destruct Hsent as [Hs1 Hs2 _ _ _ _]. split; [done|]. rewrite Hs2. f_equal.
  unfold content. by rewrite (parts_cons _ _ _ _ (ow_first _ _ _ _ _ Ho2)), bytes_of_cons, app_nil_r, Hp, Hl.
Qed.

Lemma respond_run p type code l b own (s : net H) : reportable s own p l b -> is_byte type -> is_byte code ->
  reported type code (load (data (stack s)) (payload b) 28) [] own p l b s (respond p type code s).
Proof.
  intros [Ho Hm Hset Hrest Hlist Hnif Hid] Ht Hc. unfold reported, icmp_send_response. rewrite stats_inc_bind. set (s0 := ticked [icmpoutmsgs] s). change (SIZEOF_ECHO_HDR + IP_HLEN + ICMP_DEST_UNREACH_DATASIZE) with 36.
  destruct (alloc_beside custom_free_function PBUF_IP 36 p l b own (stack s) Ho Hset ltac:(lia)) as [(t & E & Ho1 & Hd1 & _)|(q & t & c & E & Hq & Hbe)]; rewrite (on_lwip_bind _ _ s0 _ _ E), (pbuf_alloc_ram_supply custom_free_function PBUF_IP 36 (stack s) _ t ltac:(lia) E).
  { eexists. split; [reflexivity|]. split; [done|]. split; [done|]. done. }
  rewrite (proj2 (Z.eqb_neq _ _) Hq). cbn [negb]. destruct Hbe as [Ec0 Hn1 Ho1 [Hfr Hql] _ Eparts Hk _ _ Hap]. change (layer_offset PBUF_IP) with 34 in *. set (s1 := set_lwip t s0).
  rewrite (on_lwip_bind _ _ s1 b t); [|change (lwip_of s1) with t; unfold deref; by rewrite (ow_first _ _ _ _ _ Ho1)]. change (set_lwip t s1) with s1.
  rewrite (on_lwip_bind _ _ s1 c t); [|change (lwip_of s1) with t; unfold deref; by rewrite (ow_first _ _ _ _ _ Hn1)]. change (set_lwip t s1) with s1.
  assert (payload c = q + 58 /\ len c = 36 /\ tot_len c = 36) as (Epc & Elc & Etc) by (rewrite Ec0; cbn; lia). assert (contiguous c) as Hct by (by rewrite Ec0).
  set (Q := load (data (stack s)) (payload b) 28). assert (forall x, payload b <= x < payload b + 28 -> x < q + 58 \/ q + 94 <= x) as Hout.
  { intros x Hx. destruct (Z.lt_ge_cases x (q + 58)); [by left|]. destruct (Z.lt_ge_cases x (q + 94)); [|by right]. exfalso. by apply (Hap x ltac:(lia)), Hrest. }
  assert (load (data t) (payload b) 28 = Q) as EQ by (apply load_ext; intros x Hx; by apply (kp_same _ _ _ Hk), Hrest).
  pose proof (kp_bytes _ _ _ Hk Hm) as Hmt. destruct (write_message_at (q + 58) (payload b) type code s1 (data t) Ht Hc Hmt) as (m' & Ew & Hkeep & Hm' & Hmsg).
  { intros x Hx. specialize (Hout x). lia. }
  assert (at_mem s1 (data t) = s1) as Es1 by (exact (at_mem_same s1)). rewrite Es1 in Ew. rewrite Epc, (bind_some _ _ _ _ _ Ew). clear Ew. set (s2 := at_mem s1 m').
  rewrite (bind_some bytes_now _ s2 m' s2 eq_refl).
  assert (load m' (payload b) 28 = Q) as EQ' by (rewrite <- EQ; apply load_ext; intros x Hx; apply Hkeep; specialize (Hout x); lia).
  assert (IPH_SRC m' (payload b) = field Q 12 4) as -> by (unfold IPH_SRC, load_le, field; f_equal; apply (load_sub m' (payload b) 28 Q 12 4 EQ'); lia).
  assert (0 <= field Q 12 4 < 2 ^ 32) as Hdest.
  { apply (field_range Q 12 4); [by apply bytes_load|unfold Q; rewrite length_load; lia]. } set (dest := field Q 12 4) in *.
  assert (owned (stack s2) (own_add q 1 own) q [q] c) as Ho2 by (destruct Hn1; split; try done; by apply (valid_state t)).
  pose proof (ip4_route_run dest s2 Hlist) as Hroute. change (ip4_path s2 dest) with (ip4_path s dest) in Hroute. destruct (ip4_path s dest) as [netif|].
  - destruct Hroute as [Er Hn0]. rewrite (bind_some _ _ _ _ _ Er), (proj2 (Z.eqb_neq _ _) Hn0). cbn [negb when]. 
    destruct (message_sent q c (own_add q 1 own) type code Q dest netif m' s1 Hn1 Epc Elc Etc Hct Hm') as (s3 & b3 & E3 & Ho3 & Hc3); [intros w; rewrite <- EQ; replace (q + 60) with (q + 58 + 2) by lia; apply Hmsg|done..|].
    rewrite Epc in E3. fold s2 in E3. rewrite (bind_move _ _ _ _ _ E3), bind_assoc. change (next_hop s1) with (next_hop s). by exists q, s3, b3.
  - rewrite (bind_some _ _ _ _ _ Hroute). cbn [Z.eqb negb when]. rewrite bind_ret. set (s3 := ticked _ s2).
    destruct (free_packet_run custom_free_function q [q] c (own_add q 1 own) s3 Ho2) as (t' & Ef & Hv & _). eexists. split; [exact Ef|]. split; [|done].
    eapply valid_ext; [|exact Hv]. intros x. unfold own_add. repeat case_decide; lia.
Qed.

Lemma reported_ticked type code Q cs own p l b (s : net H) run : reported type code Q [] own p l b (ticked cs s) run -> reported type code Q cs own p l b s run.
Proof.
  unfold reported. cbn [app]. change (ip4_path (ticked cs s)) with (ip4_path s). change (outside (stack (ticked cs s))) with (outside (stack s)). destruct (negb _).
  { intros (s' & E & Ho & Hd & Hst). exists s'. by rewrite counted_app. }
  intros Hr. destruct (ip4_path s _) as [netif|]; [done|]. destruct Hr as (s' & E & Hv & Hst). exists s'. by rewrite counted_app.
Qed.

(** A packet that is shorter is quoted with the memory behind it. *)
Theorem icmp_quotes_beyond p t b own (s : net H) : reportable s own p [p] b -> is_byte t -> len b = 20 ->
  reported ICMP_DUR t (content (stack s) [p] ++ load (data (stack s)) (payload b + 20) 8) [] own p [p] b s (respond p ICMP_DUR t s).
Proof.
  intros Hr Ht Hlen. pose proof (respond_run p ICMP_DUR t [p] b own s Hr ltac:(done) Ht) as Hrun. change 28%nat with (20 + 8)%nat in Hrun. rewrite load_app in Hrun.
  unfold content. by rewrite (parts_cons _ _ _ _ (ow_first _ _ _ _ _ (rp_owned _ _ _ _ _ Hr))), bytes_of_cons, app_nil_r, Hlen.
Qed.

(** C22 A message that a packet cannot be delivered, or that its time is over, goes to the
    sender of the packet by the interface for it: its type and code, and the 28 bytes from
    the beginning of the packet, behind a header with the address of that interface; both
    checksums verify. These are the first 28 bytes of a packet that has as many in its
    first pbuf, otherwise memory behind it goes out as well ([icmp_quotes_beyond]). Only if
    the C library refuses the block for the message, or there is no route, nothing is sent,
    and the error is counted; the new pbuf is freed in any case, and the packet stays with
    its owner. *)
Theorem icmp_report_correct p t l b own (s : net H) : reportable s own p l b -> is_byte t ->
  let Q := load (data (stack s)) (payload b) 28 in
  reported ICMP_DUR t Q [icmpoutdestunreachs] own p l b s (icmp_dest_unreach custom_free_function netif_loop_output ip4_frag netif_output p t s) /\
  reported ICMP_TE t Q [icmpouttimeexcds] own p l b s (icmp_time_exceeded custom_free_function netif_loop_output ip4_frag netif_output p t s) /\
  (28 <= len b -> Q = take 28 (content (stack s) l)) /\
  Rfc1071.sum (icmp_message ICMP_DUR t Q) = 65535 /\ Rfc1071.sum (icmp_message ICMP_TE t Q) = 65535 /\
  forall a, Rfc1071.sum (ip4_header 0 56 (ip_id (sending s)) ICMP_TTL IP_PROTO_ICMP (ip_addr (netifs s a)) (field Q 12 4)) = 65535.
Proof.
  intros Hr Ht Q. pose proof Hr as [Ho Hm Hset Hrest Hlist Hnif Hid]. assert (bytes Q) as HQ by (by apply bytes_load). assert (length Q = 28%nat) as HlQ by apply length_load.
  assert (forall cs, reportable (ticked cs s) own p l b) as Hr' by (intros cs; by split).
  split; [|split; [|split; [|split; [|split]]]].
  - apply reported_ticked. apply (respond_run p ICMP_DUR t l b own _ (Hr' [icmpoutdestunreachs])); done.
  - apply reported_ticked. apply (respond_run p ICMP_TE t l b own _ (Hr' [icmpouttimeexcds])); done.
  - intros Hlen. destruct (owned_facts _ _ _ _ _ Ho) as (_ & _ & _ & _ & Hload). replace (take 28 (content (stack s) l)) with (take 28 (take (Z.to_nat (len b)) (content (stack s) l))) by (rewrite take_take; f_equal; lia).
    rewrite <- Hload, load_take by lia. done.
  - by apply icmp_message_verifies.
  - by apply icmp_message_verifies.
  - intros a. destruct (Hnif a) as [_ Ha]. apply header_verifies. split; try done. apply (field_range Q 12 4); [done|lia].
Qed.
End Messages.

(** * Ping *)

Section Ping.
Context {H : Type} `{OL : OutsideLaws H} (custom_free_function : Z -> prog (lwip H) unit).
Context (netif_loop_output : Z -> Z -> prog (net H) Z) (ip4_frag netif_output : Z -> Z -> Z -> prog (net H) Z).
Context (call_raw : Z -> Z -> Z -> Z -> Z -> prog (net H) Z) (raw_fuel : nat) (ip4_reass : Z -> prog (net H) Z) (udp_input tcp_input : Z -> Z -> prog (net H) unit).
Abbreviation next_hop := (ip4_next netif_loop_output ip4_frag netif_output).
Abbreviation ip_input := (ip4_input custom_free_function call_raw raw_fuel ip4_reass udp_input tcp_input
  (icmp_input custom_free_function netif_loop_output ip4_frag netif_output) (icmp_dest_unreach custom_free_function netif_loop_output ip4_frag netif_output)).

Lemma verdict_deliver (s : net H) inp first B hl n netif proto : ip4_verdict s inp first B = Deliver hl n netif proto ->
  hl = 4 * (field B 0 1 mod 16) /\ n = be16 B 2 /\ 20 <= hl <= first /\ hl <= n <= Z.of_nat (length B).
Proof.
  intros E. unfold ip4_verdict in E. destruct (ip4_header_ok first B) eqn:Eok; cbn [negb] in E; [|done].
  apply andb_true_iff in Eok as [[[[[H1%Z.leb_le H2]%andb_true_iff H3%Z.leb_le]%andb_true_iff H4%Z.leb_le]%andb_true_iff H5%Z.leb_le]%andb_true_iff H6%Z.leb_le].
  destruct (_ || _ || _); [done|]. destruct (fragment B); [done|]. injection E as <- <- <- <-. unfold IP_HLEN in *. lia.
Qed.

(** There is room for a link header in front of the packet of [n] bytes. *)
Definition link_room (n p : Z) (b : struct_pbuf) : bool := (14 + n <? 2 ^ 16) && (p + 24 <=? payload b - 14).

(** C17 An echo request that IPv4 takes from an interface is answered, unless it was sent to
    a broadcast or multicast address or a raw connection asks for ICMP: the message of the
    packet goes back to its sender as an echo reply, by the same interface, and then IPv4
    is done with the packet. Only if there is no room for a link header in front of the
    packet, and the C library, which may just have got back pbufs from the end of the
    packet, refuses the block for a copy, the request is dropped. *)
Theorem ping_answered p inp l b own raws hl n netif (s : net H) :
  owned (stack s) own p l b -> all_bytes (data (stack s)) -> filled (stack s) l -> 0 <= mtu (netifs s inp) ->
  pcb_list (fun x => raw_next (raw_pcb_at s x)) (raw_pcbs s) raws -> (length raws <= raw_fuel)%nat ->
  Forall (fun x => raw_recv (raw_pcb_at s x) = 0 \/ raw_protocol (raw_pcb_at s x) <> IP_PROTO_ICMP) raws ->
  let B := content (stack s) l in
  let D := drop (Z.to_nat hl) (take (Z.to_nat n) B) in
  let src := field B 12 4 in
  let dest := field B 16 4 in
  ip4_verdict s inp (len b) B = Deliver hl n netif IP_PROTO_ICMP ->
  hl + 4 <= Z.min (len b) n -> field D 0 1 = ICMP_ECHO -> hl + 8 <= n -> ip4_addr_ismulticast dest = false -> ip4_addr_isbroadcast dest (netifs s netif) = false ->
  exists freed, (forall x, x ∈ freed -> x ∈ l) /\
  if link_room n p b || ram_supply PBUF_LINK n (frees freed (outside (stack s))) then
    exists q lq own' s1, ip_input p inp s = (let* _ := next_hop s q n src inp in let* _ := free_packet custom_free_function q in ip4_finish) s1 /\
      (exists b1, owned (stack s1) own' q lq b1) /\ (link_room n p b = true -> q = p /\ own' = own) /\
      content (stack s1) lq = reply_header (take (Z.to_nat hl) B) dest src ++ echo_reply (icmp_adjust (field D 2 2)) D /\
      Rfc1071.sum (reply_header (take (Z.to_nat hl) B) dest src) = 65535 /\ Rfc1071.sum (echo_reply (icmp_adjust (field D 2 2)) D) = Rfc1071.sum D /\ aside s s1
  else exists s', ip_input p inp s = ip4_finish s' /\ valid (stack s') (own_add p (-1) own) /\ data (stack s') = data (stack s) /\ aside s s'.
Proof.
  intros Ho Hm Hf Hmtu Hraw Hrf Hnone B D src dest Ever Hfirst Htype Hn8 Hmc Hbc.
  destruct (ip4_input_delivered custom_free_function call_raw raw_fuel ip4_reass udp_input tcp_input (icmp_input custom_free_function netif_loop_output ip4_frag netif_output)
    (icmp_dest_unreach custom_free_function netif_loop_output ip4_frag netif_output) p inp l b own raws hl n netif IP_PROTO_ICMP _ s Ho Hm Hraw Hrf Ever Hnone eq_refl)
    as (s1 & l1 & b1 & E1 & Ho1 & Hc1 & Hl1 & Hd1 & Ha1 & Hi1 & Hp1 & Hf1 & _ & _ & [_ (freed & Hfr & Efr)]). fold B D in Hc1. fold B src dest in Hi1.
  destruct (verdict_deliver _ _ _ _ _ _ _ _ Ever) as (Ehl & En & Hhl & Hn).
  destruct (owned_facts _ _ _ _ _ Ho) as (_ & Hle & Et & _ & Hload). fold B in Et, Hload. destruct (owned_facts _ _ _ _ _ Ho1) as (_ & _ & Et1 & _). rewrite Hc1 in Et1.
  assert (Z.of_nat (length D) = n - hl) as HlD by (unfold D; rewrite length_drop, length_take; lia).
  destruct (header_fields _ _ _ _ _ Ho Hm ltac:(unfold IP_HLEN; lia)) as (_ & Hv0 & _ & HB & _). fold B in Hv0, HB.
  assert (load (data (stack s)) (payload b) (Z.to_nat hl) = take (Z.to_nat hl) B) as Ehdr.
  { replace (take (Z.to_nat hl) B) with (take (Z.to_nat hl) (take (Z.to_nat (len b)) B)) by (rewrite take_take; f_equal; lia). by rewrite <- Hload, load_take by lia. }
  assert (arrived s1 own p l1 b1 hl) as Har.
  { split; [done|by rewrite Hd1|by apply Hf1|rewrite Hi1, Hp1; cbn; lia| | |rewrite Hi1; apply (field_range B 12 4); [done|lia]].
    - rewrite Hd1, Hp1. replace (payload b + hl - hl) with (payload b) by lia. unfold IPH_HL_BYTES. rewrite Hv0. change 0x0f with (Z.ones 4). rewrite Z.land_ones by lia. change (2 ^ 4) with 16.
      pose proof (Z.mod_pos_bound (field B 0 1) 16). rewrite (wrap_small 8) by lia. lia.
    - destruct (so_placed _ _ (va_sound _ _ (ow_valid _ _ _ _ _ Ho)) p b (ow_first _ _ _ _ _ Ho)) as [(k & _ & _ & Hin) _ _ _].
      assert (p ∈ l) as Hpl by (destruct (owned_facts _ _ _ _ _ Ho) as (Hp0 & _); destruct Ho as [? Hc ? ? ? ?]; destruct l; [by cbn in Hc|]; destruct Hc as (-> & _); left).
      destruct (Hf p b Hpl (ow_first _ _ _ _ _ Ho)) as [Hct _]. specialize (Hin Hct). lia. }
  assert (contiguous b1) as Hct1.
  { destruct (Hf1 Hf ltac:(lia) p b1) as [? _]; [|apply Ho1|done]. destruct (owned_facts _ _ _ _ _ Ho1) as (Hp0 & _). destruct Ho1 as [? Hc ? ? ? ?]. destruct l1; [by cbn in Hc|]. destruct Hc as (-> & _). left. }
  assert (icmp_judge s1 hl (len b1) D = IAnswer) as Ej.
  { unfold icmp_judge. rewrite Hi1, (as_netifs _ _ Ha1), Htype, HlD. cbn [current_iphdr_dest current_netif]. rewrite Hmc, Hbc. unfold IP_HLEN. by rewrite !(proj2 (Z.ltb_ge _ _)) by lia. }
  pose proof (icmp_input_answers custom_free_function netif_loop_output ip4_frag netif_output p inp l1 b1 own hl s1 Har) as Hin. rewrite (as_netifs _ _ Ha1), Hc1 in Hin. specialize (Hin Hmtu Ej). cbn zeta in Hin.
  rewrite Hi1, Hd1, Hp1 in Hin. replace (payload b + hl - hl) with (payload b) in Hin by lia. rewrite Ehdr in Hin. cbn [current_iphdr_src current_iphdr_dest] in Hin. rewrite E1.
  assert (header_room (hl + 14) p b1 = link_room n p b) as Er.
  { unfold header_room, link_room. rewrite (bool_decide_eq_true_2 _ Hct1), andb_true_r, Hp1. f_equal; [f_equal; lia|f_equal; lia]. }
  replace (hl + tot_len b1) with n in Hin by lia. rewrite Er, Efr in Hin. exists freed. split; [done|]. destruct (link_room n p b || _).
  - destruct Hin as (q & lq & own' & s2 & E & [Ho2 Hc2 Hm2 [Ha2 _]] & Hpl & Hsum1 & Hsum2). exists q, lq, own', s2. rewrite Hi1 in Hc2.
    split; [|split; [done|split; [intros El; by rewrite El in Hpl|split; [done|split; [done|split; [done|by apply (aside_trans _ s1)]]]]]].
    rewrite (bind_move _ _ _ _ _ E), bind_assoc. unfold ip4_next. by rewrite (as_netifs _ _ Ha1).
  - destruct Hin as (s' & E & [Hv Hd _ Ha]). exists s'. rewrite (bind_some _ _ _ _ _ E). split; [done|]. split; [done|]. split; [by rewrite Hd|]. by apply (aside_trans _ s1).
Qed.
End Ping.

(** * Examples *)

(** An echo request from 10.112.73.1 to the enclave, with the data 1, 2, 3. *)
Definition demo_echo : list Z := [8; 0; 0xf3; 0xfa; 0; 1; 0; 2; 1; 2; 3].
Definition demo_ping : list Z := [0x45; 0; 0; 31; 0; 0; 0; 0; 64; 1; 0; 0; 10; 112; 73; 1; 10; 112; 73; 80] ++ demo_echo ++ [0; 0].

(** It has room for a link header in front. *)
Lemma demo_room B n pay : bytes B -> length B = Z.to_nat n -> n < 2 ^ 16 -> pay = 65582 ->
  match trace (fun _ => stuck) (demo_calls PBUF_LINK n) some_memory (fun _ => 0) with
  | Some (s, own) => Some (own 65544, heap s !! 65544, linkedb (graph_of (heap s)) 65544) | None => None end = Some (1, Some (part 0 pay n n), false) ->
  exists s own, owned s own 65544 [65544] (part 0 pay n n) /\ all_bytes (data s) /\ content s [65544] = B.
Proof. intros HB Hl Hn -> E. by apply (packet_after (demo_calls PBUF_LINK n)). Qed.

Lemma ping_answered_witness : exists (s s1 : net arena) q lq,
  ip4_input (fun _ => stuck) (fun _ _ _ _ _ => stuck) 0 (fun _ => stuck) (fun _ _ => stuck) (fun _ _ => stuck)
    (icmp_input (fun _ => stuck) (fun _ _ => stuck) (fun _ _ _ => stuck) (fun _ _ _ => ret 0))
    (icmp_dest_unreach (fun _ => stuck) (fun _ _ => stuck) (fun _ _ _ => stuck) (fun _ _ _ => ret 0)) 65544 8 s
    = (let* _ := free_packet (fun _ => stuck) q in ip4_finish) s1 /\
  content (stack s) [65544] = demo_ping /\
  content (stack s1) lq = [0x45; 0; 0; 31; 0; 0; 0; 0; 255; 1; 20; 173; 10; 112; 73; 80; 10; 112; 73; 1] ++ [0; 0; 0xfb; 0xfa; 0; 1; 0; 2; 1; 2; 3].
Proof.
  destruct (demo_room demo_ping 33 65582) as (t & own & Ho & Hm & Hc); [forall_list; by vm_compute|reflexivity|done|done|vm_compute; reflexivity|]. set (s := demo_net t no_udp).
  pose proof (ping_answered (fun _ => stuck) (fun _ _ => stuck) (fun _ _ _ => stuck) (fun _ _ _ => ret 0) (fun _ _ _ _ _ => stuck) 0 (fun _ => stuck) (fun _ _ => stuck) (fun _ _ => stuck)
    65544 8 [65544] (part 0 65582 33 33) own [] 20 31 8 s Ho Hm) as Hping. cbn zeta in Hping. change (content (stack s) [65544]) with (content t [65544]) in Hping. rewrite Hc in Hping.
  destruct Hping as (freed & _ & q & lq & own' & s1 & E & _ & _ & Hc1 & _).
  - intros y c ->%list_elem_of_singleton Hy. change (heap (stack s)) with (heap t) in Hy. rewrite (ow_first _ _ _ _ _ Ho) in Hy. injection Hy as <-. by vm_compute.
  - done.
  - reflexivity.
  - apply le_n.
  - constructor.
  - vm_compute. reflexivity.
  - done.
  - vm_compute. reflexivity.
  - done.
  - vm_compute. reflexivity.
  - vm_compute. reflexivity.
  - exists s, s1, q, lq. split; [exact E|]. split; [exact Hc|]. rewrite Hc1. vm_compute. reflexivity.
Defined.

(** The same request without its header in front of [icmp_input]. *)
Lemma demo_message : exists (t : lwip arena) own, owned t own 65544 [65544] (part 0 65602 11 11) /\ all_bytes (data t) /\ content t [65544] = demo_echo /\
  load (data t) 65582 20 = take 20 demo_ping.
Proof.
  destruct (packet_after (demo_calls PBUF_IP 11) 65544 65602 11 demo_echo) as (t & own & Ho & Hm & Hc); [vm_compute; reflexivity|forall_list; by vm_compute|reflexivity|done|done|].
  exists (put_data (store (data t) 65582 (take 20 demo_ping)) t), own. split; [destruct Ho; split; try done; by apply (valid_state t)|].
  split; [apply is_byte_store; [done|forall_list; by vm_compute]|]. split; [|by apply load_store_eq].
  rewrite <- Hc. unfold content. cbn [put_data data heap]. apply bytes_of_store. rewrite (parts_cons _ _ _ _ (ow_first _ _ _ _ _ Ho)).
  constructor; [|constructor]. unfold disjoint. cbn. lia.
Qed.

Lemma icmp_input_correct_witness : exists (s s1 : net arena) q lq,
  icmp_input (fun _ => stuck) (fun _ _ => stuck) (fun _ _ _ => stuck) (fun _ _ _ => ret 0) 65544 8 s = free_packet (fun _ => stuck) q s1 /\
  content (stack s) [65544] = demo_echo /\
  content (stack s1) lq = [0x45; 0; 0; 31; 0; 0; 0; 0; 255; 1; 20; 173; 10; 112; 73; 80; 10; 112; 73; 1] ++ [0; 0; 0xfb; 0xfa; 0; 1; 0; 2; 1; 2; 3].
Proof.
  destruct demo_message as (t & own & Ho & Hm & Hc & Hh).
  set (s := with_ip (demo_net t no_udp) (IpGlobals 8 8 65582 20 (PP_HTONL 0x0a704901) (PP_HTONL 0x0a704950))).
  pose proof (icmp_input_correct (fun _ => stuck) (fun _ _ => stuck) (fun _ _ _ => stuck) (fun _ _ _ => ret 0) 65544 8 [65544] (part 0 65602 11 11) own 20 s) as Hin.
  cbn zeta in Hin. change (content (stack s) [65544]) with (content t [65544]) in Hin. rewrite Hc in Hin. change (load (data (stack s)) (payload (part 0 65602 11 11) - 20) (Z.to_nat 20)) with (load (data t) 65582 20) in Hin.
  rewrite Hh in Hin. assert (icmp_judge s 20 11 demo_echo = IAnswer) as Ej by (vm_compute; reflexivity). cbn [part len] in Hin. rewrite Ej in Hin. clear Ej.
  destruct Hin as (q & lq & own' & s1 & E & [_ Hc1 _ _] & _).
  - split.
    + exact Ho.
    + exact Hm.
    + intros _ y c ->%list_elem_of_singleton Hy. change (heap (stack s)) with (heap t) in Hy. rewrite (ow_first _ _ _ _ _ Ho) in Hy. injection Hy as <-. by vm_compute.
    + reflexivity.
    + assert (data t 65582 = 0x45) as E0 by (change (data t 65582) with (hd 0 (load (data t) 65582 20)); by rewrite Hh). change (IPH_HL_BYTES (data t) 65582 = 20). unfold IPH_HL_BYTES. by rewrite E0.
    + by vm_compute.
    + by vm_compute.
  - done.
  - exists s, s1, q, lq. split; [exact E|]. split; [exact Hc|]. rewrite Hc1. vm_compute. reflexivity.
Defined.

(** A message about the example datagram, with its header. *)
Lemma icmp_report_correct_witness : exists (s s1 : net arena) q,
  content (stack s) [65544] = demo_datagram /\
  icmp_dest_unreach (fun _ => stuck) (fun _ _ => stuck) (fun _ _ _ => stuck) (fun _ _ _ => ret 0) 65544 2 s = free_packet (fun _ => stuck) q s1 /\
  content (stack s1) [q] = ip4_header 0 56 0 255 1 (PP_HTONL 0x0a704950) (PP_HTONL 0x0a704901) ++ icmp_message ICMP_DUR 2 (take 28 demo_datagram) /\
  Rfc1071.sum (icmp_message ICMP_DUR 2 (take 28 demo_datagram)) = 65535.
Proof.
  destruct (packet_after_outside (demo_calls PBUF_RAW 33) 65544 65568 33 demo_datagram) as (t & own & Ho & Hm & Hc & Eo);
    [vm_compute; reflexivity|forall_list; by vm_compute|reflexivity|done|done|]. set (s := demo_net t no_udp).
  assert (filled t [65544]) as Hf by (intros y c ->%list_elem_of_singleton Hy; rewrite (ow_first _ _ _ _ _ Ho) in Hy; injection Hy as <-; by vm_compute).
  destruct (icmp_report_correct (fun _ => stuck) (fun _ _ => stuck) (fun _ _ _ => stuck) (fun _ _ _ => ret 0) 65544 2 [65544] (part 0 65568 33 33) own s) as (H1 & _ & H3 & H4 & _).
  - split.
    + exact Ho.
    + exact Hm.
    + by apply (filled_settled t own); [apply Ho|].
    + apply (front_clear t own 65544 [65544] (part 0 65568 33 33)); try done.
    + by repeat constructor.
    + intros a. by split.
    + done.
  - done.
  - change (content (stack s) [65544]) with (content t [65544]) in H3. rewrite Hc in H3. rewrite H3 in H1, H4 by done.
    unfold reported in H1. change (outside (stack s)) with (outside t) in H1.
    assert (ram_supply PBUF_IP 36 (outside t) = true) as Hs.
    { assert ((fun h => ram_supply PBUF_IP 36 h) <$> ((fun r => outside (fst r)) <$> trace (fun _ => stuck) (demo_calls PBUF_RAW 33) some_memory (fun _ => 0)) = Some true) as Er
        by (vm_compute; reflexivity). rewrite Eo in Er. by injection Er. }
    rewrite Hs in H1. change (ip4_path s (field (take 28 demo_datagram) 12 4)) with (Some 8) in H1. destruct H1 as (q & s1 & b1 & E & _ & _ & Hc1).
    exists s, s1, q. split; [exact Hc|]. split; [exact E|]. split; [exact Hc1|exact H4].
Defined.
