(* ===== verification/Uio.v ===== *)
(** The Linux driver (uio_aurora.c): the shared memory it allocates and publishes at
    physical address 64h, the resources it registers with the kernel, and the
    interrupts it relays. *)

From Stdlib Require Import ZArith Lia Bool.
From stdpp Require Import base sets list.
From S2P Require Import Prelude Aead RingBuffer Hw.

Definition SVM_OFFSET : Z := 0x64.
Definition SVM_SIZE : Z := Z.shiftl 1 20.
Definition SVM_CAPACITY : Z := 0x100.
Definition EINVAL : Z := 22.
Definition ENOMEM : Z := 12.
Definition ENODEV : Z := 19.
Definition MAX_ERRNO : Z := 4095.
Definition IRQ_NONE : Z := 0.
Definition IRQ_HANDLED : Z := 1.

(** * The kernel *)

(** What a module owns until it gives it back; an enabled PCI device, named by its
    interrupt, stays enabled until [pci_disable_device]. *)
Inductive resource :=
  | PciDriver | PlatformDevice (dev : Z) | Memory (addr : Z) | UioDevice (info : Z) | Chrdev (major : Z) | EnabledDevice (irq : Z)
  | Irq (irq : Z).
#[global] Instance resource_eq_dec : EqDecision resource.
Proof. solve_decision. Defined.

(** The answers of the kernel to the module's requests: results as C sees them, a
    null address for a failed allocation, an error pointer for a failed device, and
    the interrupt of the matching PCI device, if there is one. *)
Record kernel := Kernel {
  k_pci_register_driver : Z; k_pci_device : option Z; k_register_chrdev : Z; k_pci_enable_device : Z; k_request_irq : Z;
  k_platform_device : Z; k_kzalloc : Z; k_kmalloc : Z; k_uio_register_device : Z; virt_to_phys : Z -> Z;
}.

(** Physical memory, what is held, the device the driver is bound to, the events
    passed to user space, the balance of [enable_irq] calls, and the static
    variables of the module, with [info->mem[0].addr]. [svm_ram] is the physical
    address it maps, when it is not null. *)
Record kstate := KState {
  k_mem : mem; held : list resource; bound : option Z; events : Z; irq_balance : Z;
  svm_ram : option Z; svm_vmem : Z; major : Z; pci_dev_irq : Z; info : Z; info_mem0 : Z; pdev : Z;
}.

Section Uio.
Context (K : kernel).
Abbreviation M := (prog kstate).

Definition set_k_mem m s := KState m (held s) (bound s) (events s) (irq_balance s) (svm_ram s) (svm_vmem s)
  (major s) (pci_dev_irq s) (info s) (info_mem0 s) (pdev s).
Definition set_held h s := KState (k_mem s) h (bound s) (events s) (irq_balance s) (svm_ram s) (svm_vmem s)
  (major s) (pci_dev_irq s) (info s) (info_mem0 s) (pdev s).
Definition set_bound b s := KState (k_mem s) (held s) b (events s) (irq_balance s) (svm_ram s) (svm_vmem s)
  (major s) (pci_dev_irq s) (info s) (info_mem0 s) (pdev s).
Definition set_events e s := KState (k_mem s) (held s) (bound s) e (irq_balance s) (svm_ram s) (svm_vmem s)
  (major s) (pci_dev_irq s) (info s) (info_mem0 s) (pdev s).
Definition set_irq_balance b s := KState (k_mem s) (held s) (bound s) (events s) b (svm_ram s) (svm_vmem s)
  (major s) (pci_dev_irq s) (info s) (info_mem0 s) (pdev s).
Definition set_svm_ram r s := KState (k_mem s) (held s) (bound s) (events s) (irq_balance s) r (svm_vmem s)
  (major s) (pci_dev_irq s) (info s) (info_mem0 s) (pdev s).
Definition set_svm_vmem v s := KState (k_mem s) (held s) (bound s) (events s) (irq_balance s) (svm_ram s) v
  (major s) (pci_dev_irq s) (info s) (info_mem0 s) (pdev s).
Definition set_major v s := KState (k_mem s) (held s) (bound s) (events s) (irq_balance s) (svm_ram s) (svm_vmem s)
  v (pci_dev_irq s) (info s) (info_mem0 s) (pdev s).
Definition set_pci_dev v s := KState (k_mem s) (held s) (bound s) (events s) (irq_balance s) (svm_ram s) (svm_vmem s)
  (major s) v (info s) (info_mem0 s) (pdev s).
Definition set_info v s := KState (k_mem s) (held s) (bound s) (events s) (irq_balance s) (svm_ram s) (svm_vmem s)
  (major s) (pci_dev_irq s) v (info_mem0 s) (pdev s).
Definition set_info_mem0 v s := KState (k_mem s) (held s) (bound s) (events s) (irq_balance s) (svm_ram s) (svm_vmem s)
  (major s) (pci_dev_irq s) (info s) v (pdev s).
Definition set_pdev v s := KState (k_mem s) (held s) (bound s) (events s) (irq_balance s) (svm_ram s) (svm_vmem s)
  (major s) (pci_dev_irq s) (info s) (info_mem0 s) v.

Definition acquire (r : resource) : M unit := modify (fun s => set_held (r :: held s) s).
(** Giving back what is not held is an error of the module. *)
Fixpoint remove_one (r : resource) (l : list resource) : option (list resource) :=
  match l with
  | [] => None
  | x :: l => if decide (x = r) then Some l else (cons x) <$> remove_one r l
  end.
Definition release (r : resource) : M unit :=
  fun s => match remove_one r (held s) with Some l => Some (tt, set_held l s) | None => None end.

(** * Interrupts *)

(** The kernel follows [info->uio_dev], which a registered device has. *)
Definition uio_event_notify : M unit := fun s =>
  if bool_decide (UioDevice (info s) ∈ held s) then Some (tt, set_events (events s + 1) s) else None.

(** [dev] is the integer that the cookie points to. *)
Definition irq_handler (dev : Z) : M Z :=
  let* mj := gets major in
  if dev =? mj then let* _ := uio_event_notify in ret IRQ_HANDLED else ret IRQ_NONE.

Definition uio_irq_handler : M Z := let* _ := uio_event_notify in ret IRQ_HANDLED.

Definition uio_irq_control (irq_on : Z) : M Z :=
  let* _ := modify (fun s => set_irq_balance (irq_balance s + (if irq_on =? 0 then -1 else 1)) s) in ret 0.

(** * The PCI device *)

Definition pci_probe (irq : Z) : M Z :=
  let* _ := modify (set_major (k_register_chrdev K)) in
  let* _ := when (0 <=? k_register_chrdev K) (acquire (Chrdev (k_register_chrdev K))) in
  let* _ := modify (set_pci_dev irq) in
  if k_pci_enable_device K <? 0 then ret 1 else
  let* _ := acquire (EnabledDevice irq) in
  if k_request_irq K <? 0 then ret 1 else
  let* _ := acquire (Irq irq) in
  ret 0.

Definition pci_remove : M unit :=
  let* irq := gets pci_dev_irq in
  let* _ := release (Irq irq) in
  let* mj := gets major in
  release (Chrdev mj).

(** Registering a driver probes the matching device; a result that is not negative
    binds the driver to it. *)
Definition pci_register_driver : M Z :=
  if k_pci_register_driver K <? 0 then ret (k_pci_register_driver K) else
  let* _ := acquire PciDriver in
  let* _ := match k_pci_device K with
    | Some irq => let* r := pci_probe irq in when (0 <=? r) (modify (set_bound (Some irq)))
    | None => ret tt
    end in
  ret (k_pci_register_driver K).
Definition pci_unregister_driver : M unit :=
  let* b := gets bound in
  let* _ := match b with Some _ => let* _ := pci_remove in modify (set_bound None) | None => ret tt end in
  release PciDriver.

(** * Loading and unloading *)

Definition clear_svm_ram : M unit :=
  let* r := gets svm_ram in
  match r with
  | Some a => modify (fun s => set_k_mem (memset (k_mem s) a 0 (Z.to_nat SVM_CAPACITY)) s)
  | None => stuck
  end.

Definition taint : M unit :=
  let* _ := modify (set_svm_ram (Some 0)) in
  let* _ := clear_svm_ram in
  modify (fun s => set_k_mem (store_le (k_mem s) (0 + SVM_OFFSET) 8 (virt_to_phys K (svm_vmem s))) s).

Definition sweep : M unit :=
  let* _ := clear_svm_ram in
  modify (fun s => set_svm_ram None (set_svm_vmem 0 s)).

Definition kfree (addr : Z) : M unit := release (Memory addr).

Definition IS_ERR (p : Z) : bool := 2 ^ 64 - MAX_ERRNO <=? p.

Definition aurora_init : M Z :=
  let* r := pci_register_driver in
  if r <? 0 then ret 1 else
  let p := k_platform_device K in
  let* _ := modify (set_pdev p) in
  if IS_ERR p then ret (- EINVAL) else
  let* _ := acquire (PlatformDevice p) in
  let* _ := modify (set_info (k_kzalloc K)) in
  if k_kzalloc K =? 0 then ret (- ENOMEM) else
  let* _ := acquire (Memory (k_kzalloc K)) in
  let* _ := modify (set_svm_vmem (k_kmalloc K)) in
  let* _ := modify (set_info_mem0 (k_kmalloc K)) in
  if k_kmalloc K =? 0 then
    let* _ := kfree (k_kzalloc K) in ret (- ENODEV)
  else
    let* _ := acquire (Memory (k_kmalloc K)) in
    if negb (k_uio_register_device K =? 0) then
      let* _ := kfree (k_kmalloc K) in
      let* _ := kfree (k_kzalloc K) in ret (- ENODEV)
    else
      let* _ := acquire (UioDevice (k_kzalloc K)) in
      let* _ := modify (fun s => set_k_mem (memset (k_mem s) (virt_to_phys K (k_kmalloc K)) 0 (Z.to_nat SVM_SIZE)) s) in
      let* _ := taint in
      ret 0.

Definition aurora_exit : M unit :=
  let* _ := pci_unregister_driver in
  let* i := gets info in
  let* _ := when (negb (i =? 0))
    (let* _ := release (UioDevice i) in
     let* a := gets info_mem0 in
     let* _ := kfree a in
     let* _ := kfree i in
     modify (set_info 0)) in
  let* p := gets pdev in
  let* _ := when (negb (p =? 0)) (release (PlatformDevice p)) in
  sweep.

(** * What the calls leave behind *)

Definition probe_resources : list resource :=
  match k_pci_device K with
  | Some irq =>
      (if k_pci_enable_device K <? 0 then []
       else if k_request_irq K <? 0 then [EnabledDevice irq] else [Irq irq; EnabledDevice irq])
      ++ (if 0 <=? k_register_chrdev K then [Chrdev (k_register_chrdev K)] else [])
  | None => []
  end.
(** What no call gives back. *)
Definition enabled_device : list resource :=
  match k_pci_device K with Some irq => [EnabledDevice irq] | None => [] end.

(** Every request succeeds; the memory lies between the first page and 4 GB. *)
Record working : Prop := {
  w_pci : 0 <= k_pci_register_driver K; w_chrdev : 0 <= k_register_chrdev K;
  w_enable : 0 <= k_pci_enable_device K; w_irq : 0 <= k_request_irq K;
  w_pdev : 0 < k_platform_device K < 2 ^ 64 - MAX_ERRNO;
  w_info : k_kzalloc K <> 0; w_vmem : k_kmalloc K <> 0; w_uio : k_uio_register_device K = 0;
  w_phys : SVM_CAPACITY <= virt_to_phys K (k_kmalloc K) <= 2 ^ 32 - SVM_SIZE;
}.

Lemma pci_register_held s :
  exists s', pci_register_driver s = Some (k_pci_register_driver K, s') /\
    (k_pci_register_driver K < 0 /\ s' = s \/
     0 <= k_pci_register_driver K /\ held s' = probe_resources ++ PciDriver :: held s).
Proof.
  unfold pci_register_driver, probe_resources. destruct (Z.ltb_spec (k_pci_register_driver K) 0); [by eexists; eauto|].
  destruct (k_pci_device K) as [irq|]; [|eexists; split; [done|by right]].
  unfold pci_probe. destruct (Z.ltb_spec (k_pci_enable_device K) 0), (Z.ltb_spec (k_request_irq K) 0),
    (Z.leb_spec 0 (k_register_chrdev K)); eexists; (split; [reflexivity|by right]).
Qed.

Lemma release_head r l s : held s = r :: l -> release r s = Some (tt, set_held l s).
Proof. intros E. unfold release. rewrite E. simpl. by rewrite decide_True. Qed.

(** The memory once the module is loaded. *)
Definition published (m : mem) : mem :=
  store_le (memset (memset m (virt_to_phys K (k_kmalloc K)) 0 (Z.to_nat SVM_SIZE)) 0 0 (Z.to_nat SVM_CAPACITY))
    (0 + SVM_OFFSET) 8 (virt_to_phys K (k_kmalloc K)).

(** The module's state once it is loaded. *)
Definition loaded (s : kstate) : kstate :=
  KState (published (k_mem s))
    ([UioDevice (k_kzalloc K); Memory (k_kmalloc K); Memory (k_kzalloc K); PlatformDevice (k_platform_device K)]
     ++ probe_resources ++ PciDriver :: held s)
    (k_pci_device K) (events s) (irq_balance s) (Some 0) (k_kmalloc K)
    (if k_pci_device K is Some _ then k_register_chrdev K else major s) (default (pci_dev_irq s) (k_pci_device K))
    (k_kzalloc K) (k_kmalloc K) (k_platform_device K).

Lemma working_init s : working -> bound s = None -> aurora_init s = Some (0, loaded s).
Proof.
  intros W Hb. destruct W as [W1 W2 W3 W4 W5 W6 W7 W8 W9].
  unfold aurora_init, pci_register_driver, pci_probe, loaded, probe_resources, IS_ERR.
  rewrite (proj2 (Z.ltb_ge _ _) W1), (proj2 (Z.eqb_neq _ _) W6), (proj2 (Z.eqb_neq _ _) W7), W8, (proj2 (Z.ltb_ge _ _) W3),
    (proj2 (Z.ltb_ge _ _) W4), (proj2 (Z.leb_le _ _) W2), (proj2 (Z.leb_gt _ _) (proj2 W5)).
  destruct s. cbn in Hb. subst. destruct (k_pci_device K).
  - cbn -[Z.ltb]. rewrite (proj2 (Z.ltb_ge _ _) W1). reflexivity.
  - cbn -[Z.ltb]. rewrite (proj2 (Z.ltb_ge _ _) W1). reflexivity.
Qed.

Lemma remove_one_app r l k : r ∉ l -> remove_one r (l ++ r :: k) = Some (l ++ k).
Proof.
  induction l as [|x l IH]; intros Hr; [by cbn; rewrite decide_True|].
  cbn. rewrite decide_False, IH by set_solver. done.
Qed.

Lemma release_app r l k s : held s = l ++ r :: k -> r ∉ l -> release r s = Some (tt, set_held (l ++ k) s).
Proof. intros E Hr. unfold release. by rewrite E, remove_one_app. Qed.

(** What [aurora_exit] finds once the driver has left its device. *)
Definition unbound_resources : list resource :=
  [UioDevice (k_kzalloc K); Memory (k_kmalloc K); Memory (k_kzalloc K); PlatformDevice (k_platform_device K)].

Ltac run_release l := eapply (release_app _ l); [reflexivity|set_solver].
Ltac run l := repeat (rewrite bind_assoc); erewrite bind_some by (first [run_release l|reflexivity]);
  cbn [bound pci_dev_irq major pdev info_mem0 set_k_mem set_held set_info default].

Lemma unregister_loaded s m : working ->
  exists s', pci_unregister_driver (set_k_mem m (loaded s)) = Some (tt, s') /\
    held s' = unbound_resources ++ enabled_device ++ held s /\
    bound s' = None /\ k_mem s' = m /\ svm_ram s' = Some 0 /\ info s' = k_kzalloc K /\ info_mem0 s' = k_kmalloc K /\
    pdev s' = k_platform_device K.
Proof.
  intros W. pose proof (w_chrdev W) as W2. pose proof (w_enable W) as W3. pose proof (w_irq W) as W4.
  unfold pci_unregister_driver, pci_remove, loaded, probe_resources, enabled_device. fold unbound_resources.
  rewrite (proj2 (Z.ltb_ge _ _) W3), (proj2 (Z.ltb_ge _ _) W4), (proj2 (Z.leb_le _ _) W2).
  assert (forall i, Irq i ∉ unbound_resources) by (unfold unbound_resources; set_solver).
  assert (forall i, Chrdev i ∉ unbound_resources) by (unfold unbound_resources; set_solver).
  assert (PciDriver ∉ unbound_resources) by (unfold unbound_resources; set_solver).
  destruct (k_pci_device K) as [irq|]; eexists.
  - do 4 run unbound_resources.
    run (unbound_resources ++ [EnabledDevice irq]). run unbound_resources.
    split; [run_release (unbound_resources ++ [EnabledDevice irq])|]. split_and!; reflexivity.
  - do 2 run unbound_resources. split; [run_release unbound_resources|]. split_and!; reflexivity.
Qed.

Lemma working_exit s m : working ->
  exists s', aurora_exit (set_k_mem m (loaded s)) = Some (tt, s') /\ held s' = enabled_device ++ held s /\ bound s' = None /\
    info s' = 0 /\ svm_ram s' = None /\ svm_vmem s' = 0 /\ k_mem s' = memset m 0 0 (Z.to_nat SVM_CAPACITY).
Proof.
  intros W. destruct (unregister_loaded s m W) as (s1 & E & Hh & Hb & Hm & Hr & Hi & Ha & Hp).
  unfold aurora_exit. rewrite (bind_some _ _ _ _ _ E). clear E. destruct s1.
  cbn in Hh, Hb, Hm, Hr, Hi, Ha, Hp. subst.
  run (@nil resource). cbn [info]. rewrite (proj2 (Z.eqb_neq _ _) (w_info W)). cbn [negb when].
  assert (k_platform_device K <> 0) as Hp by (pose proof (w_pdev W); lia).
  do 6 run (@nil resource). rewrite (proj2 (Z.eqb_neq _ _) Hp). cbn [negb when].
  run (@nil resource). eexists. split_and!; reflexivity.
Qed.

Lemma published_zero m x : working -> 0 <= x < SVM_SIZE -> published m (virt_to_phys K (k_kmalloc K) + x) = 0.
Proof.
  intros W Hx. pose proof (w_phys W) as Hp. unfold published.
  unfold store_le. rewrite store_out by (rewrite length_le_bytes; change SVM_CAPACITY with 256 in *; change SVM_OFFSET with 100; lia).
  rewrite memset_out by (change SVM_CAPACITY with 256 in *; lia).
  rewrite memset_in by (change SVM_SIZE with 1048576 in *; lia). done.
Qed.

Lemma published_address m : working -> load_le (published m) SVM_OFFSET 8 = virt_to_phys K (k_kmalloc K).
Proof.
  intros W. pose proof (w_phys W) as Hp. unfold published. rewrite Z.add_0_l. apply load_le_store_same.
  change SVM_CAPACITY with 256 in *. change SVM_SIZE with 1048576 in *. lia.
Qed.

Lemma published_out m x : working -> SVM_CAPACITY <= x ->
  x < virt_to_phys K (k_kmalloc K) \/ virt_to_phys K (k_kmalloc K) + SVM_SIZE <= x -> published m x = m x.
Proof.
  intros W Hx Ho. unfold published, store_le. change SVM_CAPACITY with 256 in *. change SVM_SIZE with 1048576 in *.
  rewrite store_out by (rewrite length_le_bytes; change SVM_OFFSET with 100; lia).
  by rewrite !memset_out by lia.
Qed.

Ltac fails Hh left :=
  eexists _, _; split; [reflexivity|]; intros _; right; exists left;
  split_and!; [cbn; by rewrite Hh|set_solver|done].

(** Loading always returns. When it fails, either the PCI driver could not be
    registered and nothing has changed, or the error code is negative and the PCI
    driver, with what its probe took, is still registered although the module is
    then discarded; memory it had allocated is given back. *)
Theorem uio_failed_load s :
  exists r s1, aurora_init s = Some (r, s1) /\
    (r <> 0 ->
     (k_pci_register_driver K < 0 /\ r = 1 /\ s1 = s) \/
     (exists left, held s1 = left ++ probe_resources ++ PciDriver :: held s /\ (forall a, Memory a ∉ left) /\
        r < 0)).
Proof.
  destruct (pci_register_held s) as (s' & E & [[Hr ->]|[Hr Hh]]); unfold aurora_init; rewrite (bind_some _ _ _ _ _ E).
  { rewrite (proj2 (Z.ltb_lt _ _) Hr). eexists _, _. split; [reflexivity|]. by left. }
  rewrite (proj2 (Z.ltb_ge _ _) Hr). cbn zeta. run (@nil resource).
  destruct (IS_ERR _); [fails Hh (@nil resource)|]. do 2 run (@nil resource).
  destruct (Z.eqb_spec (k_kzalloc K) 0); [fails Hh [PlatformDevice (k_platform_device K)]|]. do 3 run (@nil resource).
  destruct (Z.eqb_spec (k_kmalloc K) 0).
  { run (@nil resource). fails Hh [PlatformDevice (k_platform_device K)]. }
  run (@nil resource). destruct (negb _).
  { do 2 run (@nil resource). fails Hh [PlatformDevice (k_platform_device K)]. }
  do 3 run (@nil resource). eexists _, _. by split; [reflexivity|].
Qed.
End Uio.

(** * Properties *)

(** C30 Loading the driver when every kernel service succeeds clears the shared
    region, publishes its physical address where the supervisor's initialisation
    finds it, touches no other memory above the first 256 bytes, and leaves an
    interrupt handler that notifies user space; unloading it, whatever memory holds
    by then, clears the trace and gives back what loading took, except that the PCI
    device stays enabled: [pci_disable_device] is never called. The region has to lie
    between the first 256 bytes and 4 GB. *)
Theorem uio_load_unload K s :
  working K -> bound s = None ->
  let base := virt_to_phys K (k_kmalloc K) in
  exists s1, aurora_init K s = Some (0, s1) /\
    (forall x, 0 <= x < SVM_SIZE -> k_mem s1 (base + x) = 0) /\
    fst (init_ring_buffer (k_mem s1)) = base /\
    (forall x, SVM_CAPACITY <= x -> x < base \/ base + SVM_SIZE <= x -> k_mem s1 x = k_mem s x) /\
    irq_handler (major s1) s1 = Some (IRQ_HANDLED, set_events (events s1 + 1) s1) /\
    forall m, exists s2, aurora_exit (set_k_mem m s1) = Some (tt, s2) /\ held s2 = enabled_device K ++ held s /\ bound s2 = None /\
      (forall x, 0 <= x < SVM_CAPACITY -> k_mem s2 x = 0).
Proof.
  intros W Hb base. exists (loaded K s). split_and!.
  - by apply working_init.
  - intros x Hx. by apply published_zero.
  - unfold init_ring_buffer. cbn [fst k_mem loaded]. change 0x64 with SVM_OFFSET. rewrite published_address by done.
    pose proof (w_phys K W). apply wrap_small. change SVM_CAPACITY with 256 in *. change SVM_SIZE with 1048576 in *. lia.
  - intros x Hx Ho. by apply published_out.
  - unfold irq_handler. erewrite bind_some by reflexivity. rewrite Z.eqb_refl.
    erewrite bind_some; [reflexivity|]. unfold uio_event_notify. rewrite bool_decide_true; [done|].
    cbn [held loaded info]. set_solver.
  - intros m. destruct (working_exit K s m W) as (s2 & E & Hh & Hb' & _ & _ & _ & Hm). exists s2. split_and!; [done..|].
    intros x Hx. rewrite Hm. by rewrite memset_in by (change SVM_CAPACITY with 256 in *; lia).
Qed.

Definition demo_kernel : kernel := Kernel 0 (Some 11) 240 0 0 4096 8192 16384 0 (fun a => a + 0x100000).
Definition demo_module : kstate := KState (fun _ => 7) [] None 0 0 None 0 0 0 0 0 0.

Lemma uio_load_unload_witness :
  working demo_kernel /\ exists s1, aurora_init demo_kernel demo_module = Some (0, s1) /\
    fst (init_ring_buffer (k_mem s1)) = 0x104000.
Proof.
  assert (W : working demo_kernel) by (constructor; cbn; change (MAX_ERRNO) with 4095; try change SVM_SIZE with 1048576; try change SVM_CAPACITY with 256; lia).
  destruct (uio_load_unload demo_kernel demo_module W eq_refl) as (s1 & E & _ & F & _).
  split; [exact W|]. exists s1. split; [exact E|]. exact F.
Defined.

(** The interrupt of the PCI device is requested before there is a UIO device: one
    that fires in between makes the handler follow a null pointer. *)
Theorem early_interrupt_faults :
  match pci_register_driver demo_kernel demo_module with
  | Some (_, s) => Irq 11 ∈ held s /\ irq_handler (major s) s = None
  | None => False
  end.
Proof. split; [set_solver|]. by vm_compute. Qed.

(** A probe that cannot enable its device returns 1, which the kernel does not take
    for a failure: unloading then frees an interrupt that was never requested. *)
Theorem failed_probe_unbalanced :
  let K := Kernel 0 (Some 11) 240 (-1) 0 4096 8192 16384 0 (fun a => a + 0x100000) in
  match pci_register_driver K demo_module with
  | Some (_, s) => bound s = Some 11 /\ pci_unregister_driver s = None
  | None => False
  end.
Proof. by vm_compute. Qed.
